(* ===== verification/_CoqProject ===== *)
-Q . S2P
Prelude.v
ListEntry.v
ApiList.v
FileStates.v
FileTable.v
FileSpec.v
NameIndex.v
Trie.v
Murmur.v
FastLookup.v
LookupTable.v
LookupLife.v
LookupSpec.v
Bitmap.v
Message.v
Region.v
RegionThreads.v
Calls.v
FuseCalls.v
PathName.v
Server.v
ServerRules.v
ServerCalls.v
ClientLibrary.v
ClientCalls.v
Arena.v
Object.v
ObjectThreads.v
Xattr.v
Inode.v
InodeRules.v
BitbucketData.v
Tree.v
Directory.v
DirectoryRules.v
DirectoryOps.v
DirectoryExchange.v
Directories.v
Enumeration.v
Updates.v
Files.v
Symlinks.v
Handlers.v
TreePrograms.v
Namespace.v
Contents.v
ContentRules.v
Attributes.v
Requests.v
Readdir.v
Effects.v
Frames.v
ContentEffects.v
ContentFaults.v
LinkEffects.v
BitbucketServer.v
