(* ===== verification/Prelude.v ===== *)
(** A verification of Finesse.

    Finesse (src/finesse) adds a message channel in shared memory to FUSE
    file systems, so that a client library can ask the server directly, and
    comes with Bitbucket, a file system in memory.  The development models
    the C code of both as executable definitions and proves what each
    component promises to the next one.

    THE PARTS

    1. Common data structures (src/finesse/utils, src/finesse/include).
       ListEntry.v: the intrusive lists of finesse-list.h on a heap of list
       entries; they refine a deque.  Trie.v: the name trie of trie.c; it
       refines a finite map, which is the promise stated by the type class of
       NameIndex.v.  Murmur.v: MurmurHash3 and [truncate_hash] of
       fastlookup.c; the 128-bit hash is injective on inode numbers and UUIDs.
       FastLookup.v: the two-way hash table of fastlookup.c (objects by inode
       number and by UUID, in locked buckets of intrusive lists), with the
       static table of the server.  LookupTable.v: its invariant, and what a
       call does to the abstract state, a [catalogue] of objects;
       LookupLife.v: its creation and destruction; LookupSpec.v: sequences of
       calls refine the catalogue.

    2. Messages (src/finesse/communications).  Message.v: message blocks,
       request codes and the statistics of calls (fincomm.h, commstat.c).
       Bitmap.v and Region.v: the shared memory region of fincomm.c and
       fcc.c, run one operation after the other; it refines a protocol in
       which each block has a life cycle.  RegionThreads.v: the atomic steps
       on the bitmaps and the request numbers, for any number of clients and
       workers.  Calls.v: whole calls (namemap.c, unlink.c, stat.c,
       testmsg.c), from the client's request to its answer; FuseCalls.v: the
       calls of access.c, statfs.c and serverstat.c.  Arena.v: the buffer arenas of buffer.c.

    3. Objects and inodes (src/finesse/bitbucket).  Object.v: reference
       counting (object.c) as a multiset of reasons; ObjectThreads.v: the
       same calls as atomic steps of threads.  Xattr.v: extended attributes
       (xattr.c), on any name index.  Inode.v: inodes, their locks and the
       inode table (inode.c), over objects and attributes; it refines a
       catalog.  InodeRules.v restates that as rules for programs that use
       inodes: a [view] is what such a program can know of a world, and
       [runs m v r v'] says that in every world with the view [v] the program
       [m] answers [r] and leaves a world with the view [v'].

    4. Directories and files.  BitbucketData.v: the instances of inodes, and
       what inode.c calls back for each kind of inode (the class
       [Components] of Inode.v).  Directory.v: dir.c.  Tree.v: the abstract
       state, a tree of named inodes with exact references, and its type
       [wf].  DirectoryRules.v: a file system [shows] a tree, and what
       insertion, lookup and removal of entries do to it.  DirectoryOps.v,
       DirectoryExchange.v: the operations built from them, and the trees on
       which they stop.  Directories.v: the specification of dir.c and its
       refinement.  Enumeration.v: enumeration contexts.  Updates.v: rules
       for changes of an inode that keep its place in the tree, and for what
       is seen under its lock.  Files.v: file.c without the storage of
       contents, which is in Contents.v.  Symlinks.v: symlink.c.

    5. Requests.  Handlers.v: the FUSE handlers for names (lookup.c,
       getattr.c, access.c, opendir.c, releasedir.c, mkdir.c, rmdir.c,
       unlink.c, link.c, create.c, rename.c, forget.c, readdir.c).
       Contents.v: the storage of file contents and the handlers for
       contents, attributes and links (read.c, write.c, write_buf.c,
       setattr.c, open.c, release.c, flush.c, fsync.c, fsyncdir.c, symlink.c,
       readlink.c).  TreePrograms.v: programs on trees, in which the meanings
       of requests are written, and what it is to implement one.
       Namespace.v and ContentRules.v: what each request means for a tree,
       and the proofs that the handlers implement it.  Requests.v: sequences
       of requests; the refinement of the whole file system, down to tries,
       objects and locks, and the type of the structures in memory.
       Readdir.v: reading a directory.  Effects.v: which requests undo each
       other, and what rename, link and rmdir lose.  Frames.v: what requests
       leave alone.  ContentEffects.v: files as sequences of bytes.
       ContentFaults.v: where writing and resizing go wrong.  LinkEffects.v:
       symbolic links, and that extended attributes are never set.
       Attributes.v: the handlers of extended attributes (setxattr.c,
       getxattr.c, removexattr.c).

    6. The server (src/finesse/server, src/lib/finesse.c).  PathName.v: the
       resolution of paths over any file system (pathname.c), and the
       reference it is compared with; what the server asks of a file system
       is the class [FileSystem].  Server.v: the handlers (namemap.c, stat.c,
       unlink.c, access.c, statfs.c, test.c, serverstat.c), the dispatch on
       the request (fuse.c, native.c), the counters (fs-internal.h) and one
       turn of the worker of lib/finesse.c.  The state of the [server] is the
       region, the lookup table, the file system and the counters.
       ServerRules.v: what the handlers do to each of these.  ServerCalls.v:
       whole calls, from the sender in the client through the server to what
       the client is answered.  BitbucketServer.v: the same over Bitbucket,
       whose handlers are an instance of [FileSystem].

    7. The client library (src/finesse/api).  ApiList.v: the lists of
       list.h, on the heap of ListEntry.v.  FileStates.v: fdmgr.c, the hash
       table of the descriptors that the library tracks.  FileTable.v: the
       invariant of the table and what its operations do.  FileSpec.v:
       sequences of calls refine a map from descriptors to states.
       ClientLibrary.v: the calls of a program (stat.c, statfs.c, access.c,
       unlink.c, openclose.c) and the search of the mount points (init.c);
       the state of a [program] is the server it talks to, the table of
       descriptors, the table of mount points, errno and the process, and the
       functions of the C library that the code falls back to are the class
       [CLibrary].  ClientCalls.v: what these calls do over the worker of
       Server.v.

    HOW THE CODE IS MODELLED

    A function that can fail an assertion, follow a bad pointer, take a lock
    twice or not end returns an [outcome]; code that changes memory is in the
    state monad [M] below.  Pointers are integers, NULL is 0, and memory is a
    map from pointers to records.  What [malloc] returns is an argument: the
    caller of an operation says which addresses are new.  Machine words are
    integers with [wrap]; additions that may wrap around are wrapped.  The
    random numbers and the clock are arguments too (the epoch of a new inode,
    a UUID).  Locks are values of the state; a lock that is not free is
    [Deadlock] for the one thread that runs.  System calls on the storage
    directory are the operations of the class [Storage].

    Loops with fuel: [find_and_lock] has 2 rounds, since the second round has
    both locks and nobody else runs; link takes one round for each address
    it is given; an enumeration needs one more than there are entries
    ([enumeration_visits], [readdir_lists]).  The hash of a descriptor has 65
    rounds, more than its four bytes need ([default_hash_ends]); the walks
    along a bucket have as many as there are list entries; and the search for
    a buffer for getcwd has what it is given.  The other loops are structural.

    Interleaving is modelled for the bitmaps and request numbers of the
    region (RegionThreads.v) and for the reference counts (ObjectThreads.v),
    where every atomic access and every critical section is a step.
    Everything else runs one operation after the other.

    WHAT THE THEOREMS SHOW

    Refinements: sequences of operations of any length answer what an
    abstract specification answers and keep the invariants of the
    representation (regions, lists, tries, objects, attributes, inodes,
    directories, requests, descriptors).  Safety under interleaving: blocks are exclusive
    and no assertion on the bitmaps fails while every client waits for its
    response, objects live while they are owned, calls end.  Equivalences: a path is
    resolved as a walk along its components, and a stat of a program is
    answered as the file system would answer it.  Round trips: calls deliver
    their arguments and answers, freeing undoes allocating, forgetting undoes
    looking up, links read as what was stored.  Frames: a request keeps to
    the inode it is about.  Types: what is in memory after requests that
    have a meaning is well formed.  A specification describes what the code
    does: where that is not what it means to do, its comment says so.
    Errors: where the code does not do what it is for, a theorem says what it
    does instead, in a situation that is reached by running the code.

    NOT MODELLED

    The FUSE library (lib, include, util, example, test), and of Finesse:
    in the client library the calls that only go on to the C library, the
    search for servers when a program starts, and the times and counts of
    calls; in the server the start of the session, its threads, the
    wrappers around the operations of the file system, and the structures by
    which a captured reply goes from one thread to the other; connecting and
    disconnecting, and the choice between several clients; the log file of
    call statistics; owners, times and block counts of inodes; file locks,
    readdirplus, copy_file_range, file system statistics, the background
    thread of forget, and the formatted statistics of the inode table. *)

From stdpp Require Export base gmap list strings sets.
From Stdlib Require Export ZArith Lia.

#[global] Open Scope Z_scope.

(** Addresses; NULL is 0. *)
Abbreviation ptr := Z (only parsing).
Definition NULL : ptr := 0.

(** * Outcomes of C code

    A C function that runs to its end gives [Done]; one that trips an
    [assert], follows a pointer to memory that is not allocated, takes a lock
    that its own thread already holds in a conflicting mode, or evaluates an
    expression that C leaves undefined, does not.  [Blocked] marks a wait for
    an event that only another thread can bring about, and [OutOfFuel] a loop
    that was given too few iterations. *)

Inductive failure : Type :=
  | AssertFailed
  | BadPointer
  | Deadlock
  | Undefined
  | Blocked
  | OutOfFuel.

Inductive outcome (A : Type) : Type :=
  | Done (a : A)
  | Fail (f : failure).
Arguments Done {A} a.
Arguments Fail {A} f.

#[export] Instance failure_eq_dec : EqDecision failure.
Proof. solve_decision. Defined.

#[export] Instance outcome_eq_dec {A} `{EqDecision A} : EqDecision (outcome A).
Proof. solve_decision. Defined.

#[export] Instance outcome_ret : MRet outcome := fun A a => Done a.

#[export] Instance outcome_bind : MBind outcome :=
  fun A B k m => match m with Done a => k a | Fail f => Fail f end.

#[export] Instance outcome_throw : MThrow failure outcome := fun A f => Fail f.

(** Stateful code over a state [S]. *)
Definition M (S A : Type) : Type := S -> outcome (A * S).

#[export] Instance M_ret {S} : MRet (M S) := fun A a s => Done (a, s).

#[export] Instance M_bind {S} : MBind (M S) :=
  fun A B k m s => match m s with Done (a, s') => k a s' | Fail f => Fail f end.

#[export] Instance M_throw {S} : MThrow failure (M S) := fun A f s => Fail f.

Definition get_state {S} : M S S := fun s => Done (s, s).
Definition put_state {S} (s : S) : M S unit := fun _ => Done (tt, s).
Definition modify_state {S} (f : S -> S) : M S unit := fun s => Done (tt, f s).
Definition gets {S A} (f : S -> A) : M S A := fun s => Done (f s, s).

(** The C [assert] macro. *)
Definition c_assert {MM : Type -> Type} `{MRet MM, MThrow failure MM} (b : bool) : MM unit :=
  if b then mret () else mthrow AssertFailed.

(** A value that a pointer must designate. *)
Definition deref {MM : Type -> Type} `{MRet MM, MThrow failure MM} {A} (o : option A) : MM A :=
  match o with Some a => mret a | None => mthrow BadPointer end.

Definition is_done {A} (o : outcome A) : bool :=
  match o with Done _ => true | Fail _ => false end.

(** * errno values (the Linux ones) *)

Definition ENOENT : Z := 2.
Definition EBADF : Z := 9.
Definition EAGAIN : Z := 11.
Definition ENOMEM : Z := 12.
Definition EACCES : Z := 13.
Definition EBUSY : Z := 16.
Definition EEXIST : Z := 17.
Definition ENOTDIR : Z := 20.
Definition EISDIR : Z := 21.
Definition EINVAL : Z := 22.
Definition ENOSPC : Z := 28.
Definition EDEADLK : Z := 35.
Definition ENOSYS : Z := 38.
Definition ENOTEMPTY : Z := 39.
Definition ENODATA : Z := 61.
Definition EOVERFLOW : Z := 75.
Definition ERESTART : Z := 85.
Definition ENOTCONN : Z := 107.
Definition ESHUTDOWN : Z := 108.

(** The inode number of the root, and the types in a mode *)
Definition FUSE_ROOT_ID : Z := 1.
Definition S_IFMT : Z := 0xf000.
Definition S_IFLNK : Z := 0xa000.

(** * Machine words

    An unsigned [w]-bit integer is the [Z] in [0, 2^w); arithmetic wraps. *)

Definition wrap (w x : Z) : Z := x mod 2 ^ w.

Declare Scope word_scope.
Delimit Scope word_scope with word.
Notation "'u8' x" := (wrap 8 x) (at level 9, x at level 9) : word_scope.
Notation "'u16' x" := (wrap 16 x) (at level 9, x at level 9) : word_scope.
Notation "'u32' x" := (wrap 32 x) (at level 9, x at level 9) : word_scope.
Notation "'u64' x" := (wrap 64 x) (at level 9, x at level 9) : word_scope.

(** The C complement [~x] of a [w]-bit word. *)
Definition wnot (w x : Z) : Z := wrap w (Z.lnot x).

Definition in_word (w x : Z) : Prop := 0 <= x < 2 ^ w.

#[export] Instance in_word_dec w x : Decision (in_word w x).
Proof. unfold in_word. apply _. Defined.

(** ** The rewriting database for bits *)

Create HintDb bits discriminated.
Create HintDb finesse discriminated.

Lemma wrap_range w x : 0 <= w -> 0 <= wrap w x < 2 ^ w.
Proof. intros. apply Z.mod_pos_bound. lia. Qed.

Lemma wrap_small w x : 0 <= x < 2 ^ w -> wrap w x = x.
Proof. apply Z.mod_small. Qed.

Lemma wrap_wrap w x : wrap w (wrap w x) = wrap w x.
Proof. unfold wrap. apply Z.mod_mod_divide, Z.divide_refl. Qed.

(** * Running monadic code *)

Lemma M_bind_done {S A B} (m : M S A) (k : A -> M S B) s a s' :
  m s = Done (a, s') -> (m ≫= k) s = k a s'.
Proof. intros H. unfold mbind, M_bind. by rewrite H. Qed.

Lemma M_bind_fail {S A B} (m : M S A) (k : A -> M S B) s f :
  m s = Fail f -> (m ≫= k) s = Fail f.
Proof. intros H. unfold mbind, M_bind. by rewrite H. Qed.

Lemma M_bind_inv {S A B} (m : M S A) (k : A -> M S B) s b s'' :
  (m ≫= k) s = Done (b, s'') ->
  exists a s', m s = Done (a, s') /\ k a s' = Done (b, s'').
Proof.
  unfold mbind, M_bind. destruct (m s) as [[a s']|f] eqn:E; [eauto|done].
Qed.

Lemma c_assert_true {S} (b : bool) (s : S) :
  b = true -> c_assert (MM := M S) b s = Done (tt, s).
Proof. by intros ->. Qed.

Lemma c_assert_inv {S} (b : bool) (s : S) u s' :
  c_assert (MM := M S) b s = Done (u, s') -> b = true /\ s' = s.
Proof. destruct b; intros H; inversion H; auto. Qed.

Lemma c_assert_bind {S B} (b : bool) (k : unit -> M S B) (s : S) :
  b = true -> (c_assert (MM := M S) b ≫= k) s = k tt s.
Proof. by intros ->. Qed.

Lemma M_assoc {S A B C} (m : M S A) (f : A -> M S B) (k : B -> M S C) s :
  ((m ≫= f) ≫= k) s = (m ≫= (fun a => f a ≫= k)) s.
Proof. unfold mbind, M_bind. by destruct (m s) as [[a s']|]. Qed.

Lemma mret_bind {S A B} (a : A) (k : A -> M S B) s : (mret a ≫= k) s = k a s.
Proof. done. Qed.

Lemma get_state_bind {S B} (k : S -> M S B) s : (get_state ≫= k) s = k s s.
Proof. done. Qed.

Lemma modify_bind {S B} f (k : unit -> M S B) s : (modify_state f ≫= k) s = k tt (f s).
Proof. done. Qed.

Lemma M_bind_ext {S A C} (x : M S A) (k k' : A -> M S C) s :
  (forall a s', k a s' = k' a s') -> (x ≫= k) s = (x ≫= k') s.
Proof. intros Hk. unfold mbind, M_bind. by destruct (x s) as [[a s']|]. Qed.

(** One step of a monadic run whose head command is known to succeed. *)
Ltac run_step tac := erewrite M_bind_done by tac; cbv beta.

(** Invert a successful monadic run into the runs of its commands. *)
Ltac inv_run :=
  repeat match goal with
  | H : (_ ≫= _) _ = Done _ |- _ =>
      apply M_bind_inv in H; destruct H as (? & ? & ? & H)
  | H : c_assert _ _ = Done _ |- _ =>
      apply c_assert_inv in H; destruct H as [? ->]
  | H : mret _ _ = Done _ |- _ => inversion H; subst; clear H
  | H : Done _ = Done _ |- _ => inversion H; subst; clear H
  end.

(** * Maps and lists *)

Lemma alter_known {A} (f : A -> A) (p : Z) (g : gmap Z A) a : g !! p = Some a -> alter f p g = <[p := f a]> g.
Proof.
  intros Ha. apply map_eq. intros q. rewrite lookup_alter, lookup_insert.
  case_decide; [subst; by rewrite Ha|done].
Qed.

Lemma find_filter {A} (P : A -> bool) (Q : A -> Prop) `{!forall x, Decision (Q x)} (l : list A) :
  (forall x, P x = true -> Q x) -> List.find P (filter Q l) = List.find P l.
Proof.
  intros HPQ. induction l as [|x l IH]; [done|]. rewrite filter_cons. simpl.
  case_decide as D; simpl; rewrite IH; [done|].
  destruct (P x) eqn:E; [|done]. by apply HPQ in E.
Qed.

Lemma find_unique {A B} (f : A -> B) (P : A -> bool) (x : B) (l : list A) i :
  (forall j, P j = true <-> f j = x) -> NoDup (f <$> l) -> i ∈ l -> f i = x -> List.find P l = Some i.
Proof.
  intros HP. induction l as [|j l IH]; simpl; [set_solver|].
  intros [Hj Hnd]%NoDup_cons Hi Hx. destruct (P j) eqn:E.
  - apply HP in E. apply elem_of_cons in Hi as [->|Hi]; [done|].
    exfalso. apply Hj, list_elem_of_fmap. exists i. split; [congruence|done].
  - apply elem_of_cons in Hi as [->|Hi]; [|by apply IH].
    apply HP in Hx. congruence.
Qed.

Lemma filter_weaker {A} (P Q : A -> Prop) `{!forall x, Decision (P x)} `{!forall x, Decision (Q x)} (l : list A) :
  (forall x, x ∈ l -> P x -> Q x) -> filter P (filter Q l) = filter P l.
Proof.
  induction l as [|x l IH]; intros HPQ; [done|]. rewrite !filter_cons.
  assert (filter P (filter Q l) = filter P l) as IH' by (apply IH; intros y Hy; apply HPQ; by right).
  repeat (case_decide || rewrite filter_cons); rewrite ?IH'; try done. exfalso. eauto using list_elem_of_here.
Qed.

Lemma filter_all {A} (P : A -> Prop) `{!forall x, Decision (P x)} (l : list A) : (forall x, x ∈ l -> P x) -> filter P l = l.
Proof.
  induction l as [|x l IH]; intros HP; [done|]. rewrite filter_cons, decide_True by (apply HP; by left).
  f_equal. apply IH. intros y Hy. apply HP. by right.
Qed.

Lemma NoDup_fmap_inj_elem {A B} (f : A -> B) (l : list A) i j : NoDup (f <$> l) -> i ∈ l -> j ∈ l -> f i = f j -> i = j.
Proof.
  induction l as [|x l IH]; [set_solver|]. intros [Hx Hl]%NoDup_cons Hi Hj He.
  apply elem_of_cons in Hi as [->|Hi], Hj as [->|Hj]; [done|..].
  - exfalso. apply Hx, list_elem_of_fmap. eauto.
  - exfalso. apply Hx, list_elem_of_fmap. eauto.
  - by apply IH.
Qed.

Lemma find_elem {A} (P : A -> bool) (l : list A) i : List.find P l = Some i -> i ∈ l /\ P i = true.
Proof. intros [H1 H2]%List.find_some. split; [by apply list_elem_of_In|done]. Qed.

Lemma find_absent {A} (P : A -> bool) (l : list A) : List.find P l = None -> forall i, i ∈ l -> P i = false.
Proof. intros H i Hi%list_elem_of_In. by apply (List.find_none P l). Qed.

Lemma find_none {A} (P : A -> bool) (l : list A) : (forall i, i ∈ l -> P i = false) -> List.find P l = None.
Proof.
  intros H. destruct (List.find P l) eqn:E; [|done]. apply find_elem in E as [? E].
  rewrite H in E by done. done.
Qed.

(** * Bits of machine words *)

Lemma wrap_spec w x i : 0 <= w -> 0 <= i -> Z.testbit (wrap w x) i = (i <? w) && Z.testbit x i.
Proof.
  intros Hw Hi. unfold wrap. destruct (Z.ltb_spec i w).
  - by rewrite Z.mod_pow2_bits_low.
  - by rewrite Z.mod_pow2_bits_high by lia.
Qed.

Lemma word_high w x i : in_word w x -> 0 <= w <= i -> Z.testbit x i = false.
Proof.
  intros [H1 H2] Hi. rewrite <- (Z.mod_small x (2 ^ w)) by lia.
  apply Z.mod_pow2_bits_high. lia.
Qed.

Lemma word_of_bits w x :
  0 <= w -> 0 <= x -> (forall i, w <= i -> Z.testbit x i = false) -> in_word w x.
Proof.
  intros Hw H0 H. assert (wrap w x = x) as <-; [|by apply wrap_range].
  apply Z.bits_inj'. intros i Hi. rewrite wrap_spec by lia.
  destruct (Z.ltb_spec i w); simpl; [done|]. by rewrite H.
Qed.

Lemma in_word_wrap w x : 0 <= w -> in_word w (wrap w x).
Proof. intros. by apply wrap_range. Qed.

Lemma in_word_0 w : 0 <= w -> in_word w 0.
Proof. intros. split; [lia|]. apply Z.pow_pos_nonneg; lia. Qed.

Lemma word_lxor w x y : 0 <= w -> in_word w x -> in_word w y -> in_word w (Z.lxor x y).
Proof.
  intros Hw Hx Hy. apply word_of_bits; [done|apply Z.lxor_nonneg; unfold in_word in *; lia|].
  intros i Hi. by rewrite Z.lxor_spec, (word_high w x), (word_high w y) by (done || lia).
Qed.

Lemma word_lor w x y : 0 <= w -> in_word w x -> in_word w y -> in_word w (Z.lor x y).
Proof.
  intros Hw Hx Hy. apply word_of_bits; [done|apply Z.lor_nonneg; unfold in_word in *; lia|].
  intros i Hi. by rewrite Z.lor_spec, (word_high w x), (word_high w y) by (done || lia).
Qed.

Lemma word_land w x y : 0 <= w -> in_word w x -> 0 <= y -> in_word w (Z.land x y).
Proof.
  intros Hw Hx Hy. apply word_of_bits; [done|apply Z.land_nonneg; lia|].
  intros i Hi. by rewrite Z.land_spec, (word_high w x) by (done || lia).
Qed.

Lemma word_shiftr w x k : 0 <= w -> 0 <= k -> in_word w x -> in_word w (Z.shiftr x k).
Proof.
  intros Hw Hk Hx. apply word_of_bits; [done|apply Z.shiftr_nonneg; unfold in_word in *; lia|].
  intros i Hi. rewrite Z.shiftr_spec by lia. by apply (word_high w); [|lia].
Qed.

#[export] Hint Resolve in_word_wrap word_lxor word_lor word_land word_shiftr in_word_0 : bits.
#[export] Hint Extern 1 (_ <= _)%Z => lia : bits.

(** Two nonnegative numbers with the same bits are equal: reduce an equation
    to its bits and split on the comparisons the specifications introduce. *)
Ltac bits_step :=
  first
    [ rewrite Z.lxor_spec | rewrite Z.lor_spec | rewrite Z.land_spec
    | rewrite Z.lnot_spec by lia | rewrite Z.shiftl_spec by lia
    | rewrite Z.shiftr_spec by lia | rewrite wrap_spec by lia ].

Ltac bits_cases :=
  repeat match goal with
  | |- context [?a <? ?b] => destruct (Z.ltb_spec a b)
  | |- context [?a =? ?b] => destruct (Z.eqb_spec a b)
  end.

(** ** Closed examples

    A conjunction of equations between closed terms, the first of which may
    determine existential variables of the others. *)
Ltac evaluates := repeat (split; [vm_compute; reflexivity|]); vm_compute; reflexivity.
