(* ===== verification/ListEntry.v ===== *)
(** The intrusive circular doubly linked list of
    src/finesse/include/finesse-list.h.

    A [list_entry_t] lives at an address of a heap; a list is a head entry
    and the entries threaded through it.  The operations are the inline
    functions of the header, with their [verify_list_entry] assertions.
    [is_list h hd l] says that the heap [h] holds, at the head [hd], the
    sequence [l] of entries; every operation is shown to implement the
    corresponding operation on sequences and to leave every other entry of
    the heap alone.  The components that thread structures on such lists
    (Xattr, InodeTable, Directory, FastLookup) use the sequences. *)

From stdpp Require Import gmap.
From S2P Require Import Prelude.

(** struct _list_entry_t *)
Record list_entry := { next : ptr; prev : ptr }.

#[export] Instance list_entry_eq_dec : EqDecision list_entry.
Proof. solve_decision. Defined.

(** The memory that holds list entries. *)
Abbreviation heap := (gmap Z list_entry).

(** Loads and stores of the two fields. *)
Definition get_next (p : ptr) : M heap ptr :=
  h ← get_state; e ← deref (h !! p); mret (next e).

Definition get_prev (p : ptr) : M heap ptr :=
  h ← get_state; e ← deref (h !! p); mret (prev e).

Definition set_next (p q : ptr) : M heap unit :=
  h ← get_state; e ← deref (h !! p);
  put_state (<[p := {| next := q; prev := prev e |}]> h).

Definition set_prev (p q : ptr) : M heap unit :=
  h ← get_state; e ← deref (h !! p);
  put_state (<[p := {| next := next e; prev := q |}]> h).

Definition empty_list (entry : ptr) : M heap bool :=
  n ← get_next entry; mret (n =? entry).

Definition list_head (lst : ptr) : M heap ptr := get_next lst.

Definition initialize_list_entry (entry : ptr) : M heap unit :=
  set_prev entry entry;; set_next entry entry.

Definition verify_list_entry (entry : ptr) : M heap unit :=
  n ← get_next entry; np ← get_prev n; c_assert (np =? entry);;
  p ← get_prev entry; pn ← get_next p; c_assert (pn =? entry).

Definition remove_list_entry (entry : ptr) : M heap Z :=
  verify_list_entry entry;;
  n ← get_next entry;
  p ← get_prev entry;
  set_prev n p;;
  set_next p n;;
  set_prev entry entry;;
  set_next entry entry;;
  mret (if n =? p then 1 else 0).

Definition remove_list_head (lst : ptr) : M heap ptr :=
  entry ← get_next lst; remove_list_entry entry;; mret entry.

Definition remove_tail_list (lst : ptr) : M heap ptr :=
  entry ← get_prev lst; remove_list_entry entry;; mret entry.

Definition insert_list_tail (lst entry : ptr) : M heap unit :=
  verify_list_entry lst;;
  n ← get_next lst; verify_list_entry n;;
  p ← get_prev lst; verify_list_entry p;;
  set_next entry lst;;
  p ← get_prev lst; set_prev entry p;;
  p ← get_prev entry; set_next p entry;;
  set_prev lst entry;;
  verify_list_entry lst;;
  verify_list_entry entry.

Definition insert_list_head (lst entry : ptr) : M heap unit :=
  verify_list_entry lst;;
  n ← get_next lst; verify_list_entry n;;
  p ← get_prev lst; verify_list_entry p;;
  set_prev entry lst;;
  n ← get_next lst; set_next entry n;;
  n ← get_next entry; set_prev n entry;;
  set_next lst entry;;
  verify_list_entry lst;;
  verify_list_entry entry.

(** The [list_for_each] loop, collecting the entries it visits; the fuel
    bounds the number of iterations. *)
Fixpoint list_for_each (fuel : nat) (lst itr : ptr) : M heap (list Z) :=
  match fuel with
  | O => mthrow OutOfFuel
  | S fuel =>
      if itr =? lst then mret []
      else n ← get_next itr; rest ← list_for_each fuel lst n; mret (itr :: rest)
  end.

Definition list_items (fuel : nat) (lst : ptr) : M heap (list Z) :=
  hd ← list_head lst; list_for_each fuel lst hd.

(** * The sequence a list represents *)

Definition nx (h : heap) (p : ptr) : option ptr := next <$> h !! p.
Definition pv (h : heap) (p : ptr) : option ptr := prev <$> h !! p.

Definition linked (h : heap) (a b : ptr) : Prop :=
  nx h a = Some b /\ pv h b = Some a.

(** The entries [l] are threaded, in order, from [a] to [b]. *)
Fixpoint chain (h : heap) (a : ptr) (l : list ptr) (b : ptr) : Prop :=
  match l with
  | [] => linked h a b
  | x :: l => linked h a x /\ chain h x l b
  end.

Definition is_list (h : heap) (hd : ptr) (l : list ptr) : Prop :=
  NoDup (hd :: l) /\ chain h hd l hd.

(** The heaps [h] and [h'] agree outside the entries [ps]. *)
Definition same_except (ps : list ptr) (h h' : heap) : Prop :=
  forall p, p ∉ ps -> h' !! p = h !! p.

(** * Loads and stores as functions on heaps *)

Definition st_next (p q : ptr) (h : heap) : heap :=
  alter (fun e => {| next := q; prev := prev e |}) p h.
Definition st_prev (p q : ptr) (h : heap) : heap :=
  alter (fun e => {| next := next e; prev := q |}) p h.

Lemma get_next_run h p n : nx h p = Some n -> get_next p h = Done (n, h).
Proof.
  unfold nx, get_next. intros (e & He & ->)%fmap_Some.
  unfold mbind, M_bind, get_state. by rewrite He.
Qed.

Lemma get_prev_run h p n : pv h p = Some n -> get_prev p h = Done (n, h).
Proof.
  unfold pv, get_prev. intros (e & He & ->)%fmap_Some.
  unfold mbind, M_bind, get_state. by rewrite He.
Qed.

Lemma set_next_run h p q : is_Some (nx h p) -> set_next p q h = Done (tt, st_next p q h).
Proof.
  unfold nx, set_next, st_next. intros [n (e & He & _)%fmap_Some].
  unfold mbind, M_bind, get_state. rewrite He. unfold put_state; simpl.
  do 2 f_equal. apply map_eq; intros i. rewrite lookup_alter, lookup_insert.
  case_decide; by simplify_map_eq.
Qed.

Lemma set_prev_run h p q : is_Some (nx h p) -> set_prev p q h = Done (tt, st_prev p q h).
Proof.
  unfold nx, set_prev, st_prev. intros [n (e & He & _)%fmap_Some].
  unfold mbind, M_bind, get_state. rewrite He. unfold put_state; simpl.
  do 2 f_equal. apply map_eq; intros i. rewrite lookup_alter, lookup_insert.
  case_decide; by simplify_map_eq.
Qed.

Lemma nx_st_next h p q x :
  nx (st_next p q h) x = if decide (x = p) then (fun _ => q) <$> nx h x else nx h x.
Proof.
  unfold nx, st_next. rewrite lookup_alter. case_decide; case_decide; try congruence.
  subst. by destruct (h !! x).
Qed.

Lemma pv_st_next h p q x : pv (st_next p q h) x = pv h x.
Proof.
  unfold pv, st_next. rewrite lookup_alter. case_decide; [subst|done].
  by destruct (h !! x).
Qed.

Lemma pv_st_prev h p q x :
  pv (st_prev p q h) x = if decide (x = p) then (fun _ => q) <$> pv h x else pv h x.
Proof.
  unfold pv, st_prev. rewrite lookup_alter. case_decide; case_decide; try congruence.
  subst. by destruct (h !! x).
Qed.

Lemma nx_st_prev h p q x : nx (st_prev p q h) x = nx h x.
Proof.
  unfold nx, st_prev. rewrite lookup_alter. case_decide; [subst|done].
  by destruct (h !! x).
Qed.

Lemma nx_pv_Some h x : is_Some (nx h x) <-> is_Some (pv h x).
Proof. unfold nx, pv. by rewrite !fmap_is_Some. Qed.

(** Decide the successor or predecessor of an entry after some stores. *)
Ltac links :=
  unfold linked in *;
  repeat first
    [ rewrite nx_st_next | rewrite pv_st_next | rewrite nx_st_prev | rewrite pv_st_prev ];
  repeat (case_decide; try congruence; subst);
  repeat match goal with H : _ ∧ _ |- _ => destruct H end;
  try (split; links);
  repeat match goal with
    | H : nx ?h ?p = Some _ |- context [nx ?h ?p] => rewrite H
    | H : pv ?h ?p = Some _ |- context [pv ?h ?p] => rewrite H
  end; simpl; eauto.

(** Run the next load, store or assertion. *)
Ltac list_step :=
  first
    [ erewrite (M_bind_done (get_next _)) by (apply get_next_run; links)
    | erewrite (M_bind_done (get_prev _)) by (apply get_prev_run; links)
    | erewrite (M_bind_done (set_next _ _)) by (apply set_next_run; links)
    | erewrite (M_bind_done (set_prev _ _)) by (apply set_prev_run; links)
    | rewrite c_assert_bind by lia ];
  cbv beta.

Lemma verify_list_entry_run h p x n :
  linked h p x -> linked h x n -> verify_list_entry x h = Done (tt, h).
Proof.
  intros [H1 H2] [H3 H4]. unfold verify_list_entry.
  repeat list_step. apply c_assert_true. lia.
Qed.

(** * Chains under splicing *)

Lemma chain_app h a l1 x l2 b :
  chain h a (l1 ++ x :: l2) b <-> chain h a l1 x /\ chain h x l2 b.
Proof. revert a. induction l1 as [|y l1 IH]; intros a; simpl; [done|]. rewrite IH. tauto. Qed.

Lemma chain_frame h h' a l b :
  (forall x, x ∈ a :: l -> nx h' x = nx h x) ->
  (forall x, x ∈ l ++ [b] -> pv h' x = pv h x) ->
  chain h a l b -> chain h' a l b.
Proof.
  revert a. induction l as [|y l IH]; intros a Hn Hp; simpl.
  - unfold linked. rewrite Hn, Hp by set_solver. done.
  - intros [[H1 H2] H3]. split.
    + unfold linked. by rewrite Hn, Hp by set_solver.
    + apply IH; [| |done]; intros; [apply Hn|apply Hp]; set_solver.
Qed.

Lemma chain_nx h a l b x : chain h a l b -> x ∈ a :: l -> is_Some (nx h x).
Proof.
  revert a. induction l as [|y l IH]; intros a; simpl.
  - intros [H _] ->%list_elem_of_singleton. eauto.
  - intros [[H _] Hc] [->|Hx]%elem_of_cons; eauto.
Qed.

Lemma chain_pv h a l b x : chain h a l b -> x ∈ l ++ [b] -> is_Some (pv h x).
Proof.
  revert a. induction l as [|y l IH]; intros a; simpl.
  - intros [_ H] ->%list_elem_of_singleton. eauto.
  - intros [[_ H] Hc] [->|Hx]%elem_of_cons; eauto.
Qed.

(** [e] now stands between [a] and [b]; nothing else changed. *)
Definition spliced (h h' : heap) (a e b : ptr) : Prop :=
  (forall x, nx h' x = if decide (x = e) then Some b else if decide (x = a) then Some e else nx h x) /\
  (forall x, pv h' x = if decide (x = e) then Some a else if decide (x = b) then Some e else pv h x).

(** [e] no longer stands between [a] and [b] and is linked to itself. *)
Definition unspliced (h h' : heap) (a e b : ptr) : Prop :=
  (forall x, nx h' x = if decide (x = e) then Some e else if decide (x = a) then Some b else nx h x) /\
  (forall x, pv h' x = if decide (x = e) then Some e else if decide (x = b) then Some a else pv h x).

Lemma same_links h h' p : nx h' p = nx h p -> pv h' p = pv h p -> h' !! p = h !! p.
Proof.
  unfold nx, pv. destruct (h !! p) as [[n1 p1]|], (h' !! p) as [[n2 p2]|]; simpl; congruence.
Qed.

Lemma same_links_except ps h h' :
  (forall x, x ∉ ps -> nx h' x = nx h x /\ pv h' x = pv h x) -> same_except ps h h'.
Proof. intros H p Hp. destruct (H p Hp). by apply same_links. Qed.

Lemma spliced_frame h h' a e b x l y :
  spliced h h' a e b -> a ∉ x :: l -> b ∉ l ++ [y] -> e ∉ x :: l ++ [y] ->
  chain h x l y -> chain h' x l y.
Proof.
  intros [Hn Hp] Ha Hb He. apply chain_frame; intros z Hz; [rewrite Hn|rewrite Hp];
    repeat case_decide; subst; set_solver.
Qed.

Lemma unspliced_frame h h' a e b x l y :
  unspliced h h' a e b -> a ∉ x :: l -> b ∉ l ++ [y] -> e ∉ x :: l ++ [y] ->
  chain h x l y -> chain h' x l y.
Proof.
  intros [Hn Hp] Ha Hb He. apply chain_frame; intros z Hz; [rewrite Hn|rewrite Hp];
    repeat case_decide; subst; set_solver.
Qed.

Lemma spliced_linked h h' a e b :
  a <> e -> b <> e -> spliced h h' a e b -> linked h' a e /\ linked h' e b.
Proof.
  intros Ha Hb [Hn Hp]. unfold linked. rewrite !Hn, !Hp.
  repeat case_decide; congruence || done.
Qed.

Lemma unspliced_linked h h' a e b :
  a <> e -> b <> e -> unspliced h h' a e b -> linked h' a b /\ linked h' e e.
Proof.
  intros Ha Hb [Hn Hp]. unfold linked. rewrite !Hn, !Hp.
  repeat case_decide; congruence || done.
Qed.

Lemma is_list_splice_tail h h' hd p l e :
  is_list h hd (l ++ [p]) -> e ∉ hd :: l ++ [p] ->
  spliced h h' p e hd -> is_list h' hd ((l ++ [p]) ++ [e]).
Proof.
  intros [Hnd Hc] He Hs. split.
  { rewrite app_comm_cons. apply NoDup_app. repeat split; [done|set_solver|apply NoDup_singleton]. }
  apply chain_app in Hc as [Hc _].
  apply NoDup_cons in Hnd as [Hhd Hnd]. apply NoDup_app in Hnd as (_ & Hpl & _).
  destruct (spliced_linked h h' p e hd) as [L1 L2]; [set_solver..|done|].
  apply chain_app. split; [|done]. apply chain_app. split; [|done].
  eapply spliced_frame; eauto; set_solver.
Qed.

Lemma is_list_splice_head h h' hd n l e :
  is_list h hd (n :: l) -> e ∉ hd :: n :: l ->
  spliced h h' hd e n -> is_list h' hd (e :: n :: l).
Proof.
  intros [Hnd Hc] He Hs. split.
  { apply NoDup_cons in Hnd as [? Hnd]. apply NoDup_cons. split; [set_solver|].
    apply NoDup_cons. split; [set_solver|done]. }
  apply NoDup_cons in Hnd as [Hhd Hnd]. apply NoDup_cons in Hnd as [Hn Hnd].
  destruct (spliced_linked h h' hd e n) as [L1 L2]; [set_solver..|done|].
  split; [done|]. split; [done|]. destruct Hc as [_ Hc].
  eapply spliced_frame; eauto; set_solver.
Qed.

Lemma is_list_splice_nil h h' hd e :
  is_list h hd [] -> e <> hd -> spliced h h' hd e hd -> is_list h' hd [e].
Proof.
  intros _ He Hs. destruct (spliced_linked h h' hd e hd) as [L1 L2]; [done..|].
  split; [|done]. apply NoDup_cons. split; [set_solver|apply NoDup_singleton].
Qed.

(** The two ends of a list. *)
Lemma is_list_spliced_tail h h' hd l e :
  is_list h hd l -> e ∉ hd :: l -> spliced h h' (default hd (last l)) e hd -> is_list h' hd (l ++ [e]).
Proof.
  intros Hl He Hs. destruct l as [|p l _] using rev_ind; simpl in *.
  - apply (is_list_splice_nil h); [done|set_solver|done].
  - rewrite last_snoc in Hs. by apply (is_list_splice_tail h).
Qed.

Lemma is_list_spliced_head h h' hd l e :
  is_list h hd l -> e ∉ hd :: l -> spliced h h' hd e (default hd (head l)) -> is_list h' hd (e :: l).
Proof.
  intros Hl He Hs. destruct l as [|n l]; simpl in *.
  - apply (is_list_splice_nil h); [done|set_solver|done].
  - by apply (is_list_splice_head h).
Qed.

Lemma chain_succ h a l b x : chain h a l b -> x ∈ a :: l -> exists y, linked h x y.
Proof.
  revert a. induction l as [|z l IH]; intros a; simpl.
  - intros H ->%list_elem_of_singleton. eauto.
  - intros [H Hc] [->|Hx]%elem_of_cons; eauto.
Qed.

Lemma chain_pred h a l b x : chain h a l b -> x ∈ l ++ [b] -> exists y, linked h y x.
Proof.
  revert a. induction l as [|z l IH]; intros a; simpl.
  - intros H ->%list_elem_of_singleton. eauto.
  - intros [H Hc] [->|Hx]%elem_of_cons; eauto.
Qed.

Lemma is_list_verify h hd l x :
  is_list h hd l -> x ∈ hd :: l -> verify_list_entry x h = Done (tt, h).
Proof.
  intros [_ Hc] Hx.
  destruct (chain_succ h hd l hd x) as [b ?]; [done..|].
  destruct (chain_pred h hd l hd x) as [a ?]; [done|set_solver|].
  by apply (verify_list_entry_run h a x b).
Qed.

Lemma is_list_last h hd l : is_list h hd l -> linked h (default hd (last l)) hd.
Proof.
  intros [_ Hc]. destruct l as [|p l _] using rev_ind; [done|].
  rewrite last_snoc. by apply chain_app in Hc as [_ Hc].
Qed.

Lemma is_list_first h hd l : is_list h hd l -> linked h hd (default hd (head l)).
Proof. intros [_ Hc]. destruct l; [done|by destruct Hc]. Qed.

Lemma default_last_elem (hd : Z) l : default hd (last l) ∈ hd :: l.
Proof.
  destruct (last l) as [p|] eqn:E; simpl; [|set_solver].
  apply last_Some in E as [l' ->]. set_solver.
Qed.

Lemma default_head_elem (hd : Z) l : default hd (head l) ∈ hd :: l.
Proof. destruct l; set_solver. Qed.

(** The two insertions splice the entry at the two ends. *)
Lemma insert_list_tail_run h hd l e :
  is_list h hd l -> e ∉ hd :: l -> is_Some (h !! e) ->
  exists h', insert_list_tail hd e h = Done (tt, h') /\
    spliced h h' (default hd (last l)) e hd.
Proof.
  intros Hl He Hd.
  pose proof (is_list_last _ _ _ Hl) as [Lp1 Lp2].
  pose proof (is_list_first _ _ _ Hl) as [Ln1 Ln2].
  pose proof (default_last_elem hd l) as Ep. pose proof (default_head_elem hd l) as En.
  set (p := default hd (last l)) in *. set (n := default hd (head l)) in *.
  clearbody p n.
  assert (is_Some (nx h e)) as [ne Hne] by (unfold nx; by apply fmap_is_Some).
  assert (is_Some (pv h e)) as [pe Hpe] by (by apply nx_pv_Some).
  assert (p <> e /\ hd <> e) as [Hpne Hhne] by set_solver.
  unfold insert_list_tail.
  run_step ltac:(apply (is_list_verify h hd l); [done|set_solver]). list_step.
  run_step ltac:(apply (is_list_verify h hd l); [done|set_solver]). list_step.
  run_step ltac:(apply (is_list_verify h hd l); [done|set_solver]).
  list_step. list_step. list_step. list_step. list_step. list_step.
  eexists (st_prev hd e (st_next p e (st_prev e p (st_next e hd h)))).
  split; [|split; intros x; links].
  run_step ltac:(apply (verify_list_entry_run _ e hd (if decide (p = hd) then e else n)); links).
  apply (verify_list_entry_run _ p e hd); links.
Qed.

Lemma insert_list_head_run h hd l e :
  is_list h hd l -> e ∉ hd :: l -> is_Some (h !! e) ->
  exists h', insert_list_head hd e h = Done (tt, h') /\
    spliced h h' hd e (default hd (head l)).
Proof.
  intros Hl He Hd.
  pose proof (is_list_last _ _ _ Hl) as [Lp1 Lp2].
  pose proof (is_list_first _ _ _ Hl) as [Ln1 Ln2].
  pose proof (default_last_elem hd l) as Ep. pose proof (default_head_elem hd l) as En.
  set (p := default hd (last l)) in *. set (n := default hd (head l)) in *.
  clearbody p n.
  assert (is_Some (nx h e)) as [ne Hne] by (unfold nx; by apply fmap_is_Some).
  assert (is_Some (pv h e)) as [pe Hpe] by (by apply nx_pv_Some).
  assert (is_Some (nx h n)) as [nn Hnn] by (by apply nx_pv_Some).
  assert (n <> e /\ hd <> e) as [Hnne Hhne] by set_solver.
  unfold insert_list_head.
  run_step ltac:(apply (is_list_verify h hd l); [done|set_solver]). list_step.
  run_step ltac:(apply (is_list_verify h hd l); [done|set_solver]). list_step.
  run_step ltac:(apply (is_list_verify h hd l); [done|set_solver]).
  list_step. list_step. list_step. list_step. list_step. list_step.
  eexists (st_next hd e (st_prev n e (st_next e n (st_prev e hd h)))).
  split; [|split; intros x; links].
  run_step ltac:(apply (verify_list_entry_run _ (if decide (n = hd) then e else p) hd e); links).
  apply (verify_list_entry_run _ hd e n); links.
Qed.

Lemma remove_list_entry_run h a e b :
  linked h a e -> linked h e b -> a <> e -> b <> e ->
  exists h', remove_list_entry e h = Done (if b =? a then 1 else 0, h') /\ unspliced h h' a e b.
Proof.
  intros [A1 A2] [B1 B2] Ha Hb. unfold remove_list_entry.
  assert (is_Some (nx h b)) as [nb Hnb] by (by apply nx_pv_Some).
  assert (is_Some (pv h a)) as [pa Hpa] by (by apply nx_pv_Some).
  run_step ltac:(by apply (verify_list_entry_run h a e b)).
  list_step. list_step. list_step. list_step. list_step. list_step.
  eexists. split; [reflexivity|]. split; intros x; links.
Qed.

(** * What the operations promise *)

Lemma spliced_same_except h h' a e b hd l :
  spliced h h' a e b -> a ∈ hd :: l -> b ∈ hd :: l -> same_except (hd :: e :: l) h h'.
Proof.
  intros [Hn Hp] Ha Hb. apply same_links_except. intros x Hx.
  rewrite Hn, Hp. repeat case_decide; subst; set_solver.
Qed.

Lemma unspliced_same_except h h' a e b hd l :
  unspliced h h' a e b -> a ∈ hd :: l -> b ∈ hd :: l -> same_except (hd :: e :: l) h h'.
Proof.
  intros [Hn Hp] Ha Hb. apply same_links_except. intros x Hx.
  rewrite Hn, Hp. repeat case_decide; subst; set_solver.
Qed.

Lemma insert_list_tail_spec h hd l e :
  is_list h hd l -> e ∉ hd :: l -> is_Some (h !! e) ->
  exists h', insert_list_tail hd e h = Done (tt, h') /\
    is_list h' hd (l ++ [e]) /\ same_except (hd :: e :: l) h h'.
Proof.
  intros Hl He Hd. destruct (insert_list_tail_run h hd l e) as (h' & Hr & Hs); [done..|].
  exists h'. split; [done|]. split.
  - by apply (is_list_spliced_tail h).
  - eapply spliced_same_except; [done|apply default_last_elem|set_solver].
Qed.

Lemma insert_list_head_spec h hd l e :
  is_list h hd l -> e ∉ hd :: l -> is_Some (h !! e) ->
  exists h', insert_list_head hd e h = Done (tt, h') /\
    is_list h' hd (e :: l) /\ same_except (hd :: e :: l) h h'.
Proof.
  intros Hl He Hd. destruct (insert_list_head_run h hd l e) as (h' & Hr & Hs); [done..|].
  exists h'. split; [done|]. split.
  - by apply (is_list_spliced_head h).
  - eapply spliced_same_except; [done|set_solver|apply default_head_elem].
Qed.

Lemma NoDup_remove_mid {A} (l1 l2 : list A) x :
  NoDup (l1 ++ x :: l2) -> NoDup (l1 ++ l2) /\ x ∉ l1 ++ l2.
Proof.
  intros H. assert (NoDup (x :: l1 ++ l2)) as H' by (by rewrite Permutation_middle).
  apply NoDup_cons in H' as [? ?]. done.
Qed.

Lemma is_list_unsplice h h' hd l1 e l2 :
  is_list h hd (l1 ++ e :: l2) ->
  unspliced h h' (default hd (last l1)) e (default hd (head l2)) ->
  is_list h' hd (l1 ++ l2) /\ is_list h' e [].
Proof.
  intros [Hnd Hc] Hu. rewrite app_comm_cons in Hnd.
  destruct (NoDup_remove_mid _ _ _ Hnd) as [Hnd' Hne].
  apply chain_app in Hc as [C1 C2].
  assert (default hd (last l1) <> e) as Na by (pose proof (default_last_elem hd l1); set_solver).
  assert (default hd (head l2) <> e) as Nb by (pose proof (default_head_elem hd l2); set_solver).
  destruct (unspliced_linked _ _ _ _ _ Na Nb Hu) as [L1 L2].
  split; [|split; [apply NoDup_singleton|done]].
  split; [done|]. simpl in Hnd'. apply NoDup_cons in Hnd' as [Hhd Hnd'].
  apply NoDup_app in Hnd' as (N1 & N12 & N2).
  destruct l1 as [|a l1 _] using rev_ind; destruct l2 as [|b l2]; simpl in *;
    rewrite ?last_snoc in *; simpl in *.
  - done.
  - destruct C2 as [_ C2]. apply NoDup_cons in N2 as [N2 _].
    split; [done|]. eapply unspliced_frame; [done| | | |done]; set_solver.
  - rewrite app_nil_r in *. apply chain_app in C1 as [C1 _].
    apply NoDup_app in N1 as (_ & N1 & _).
    apply chain_app. split; [|done].
    eapply unspliced_frame; [done| | | |done]; set_solver.
  - destruct C2 as [_ C2]. apply chain_app in C1 as [C1 _].
    apply NoDup_cons in N2 as [N2 _]. apply NoDup_app in N1 as (_ & N1 & _).
    rewrite <- app_assoc. apply chain_app. split; [|split; [done|]];
      (eapply unspliced_frame; [done| | | |done]); set_solver.
Qed.

(** After a removal the neighbours coincide exactly when nothing is left. *)
Lemma ends_meet (hd : Z) l1 l2 :
  NoDup (hd :: l1 ++ l2) ->
  (default hd (head l2) =? default hd (last l1)) = bool_decide (l1 ++ l2 = []).
Proof.
  intros [Hhd Hnd]%NoDup_cons. apply NoDup_app in Hnd as (_ & N & _).
  destruct l2 as [|b l2]; simpl.
  - rewrite app_nil_r in *. destruct l1 as [|a l1 _] using rev_ind; simpl.
    + by rewrite Z.eqb_refl.
    + rewrite last_snoc. simpl. rewrite bool_decide_false by (by destruct l1).
      apply Z.eqb_neq. set_solver.
  - rewrite bool_decide_false by (by destruct l1).
    apply Z.eqb_neq. destruct l1 as [|a l1 _] using rev_ind; simpl; [set_solver|].
    rewrite last_snoc. simpl. intros ->. by apply (N a); set_solver.
Qed.

(** The neighbours of an entry. *)
Lemma is_list_around h hd l1 e l2 :
  is_list h hd (l1 ++ e :: l2) ->
  linked h (default hd (last l1)) e /\ linked h e (default hd (head l2)) /\
  default hd (last l1) <> e /\ default hd (head l2) <> e /\ NoDup (hd :: l1 ++ l2) /\ e ∉ hd :: l1 ++ l2.
Proof.
  intros [Hnd Hc]. rewrite app_comm_cons in Hnd. destruct (NoDup_remove_mid _ _ _ Hnd) as [Hnd' Hne].
  pose proof (default_last_elem hd l1) as Ea. pose proof (default_head_elem hd l2) as Eb.
  apply chain_app in Hc as [C1 C2]. split_and!; [| |set_solver..|done|done].
  - destruct l1 as [|a l1 _] using rev_ind; [done|]. rewrite last_snoc.
    by apply chain_app in C1 as [_ C1].
  - destruct l2; [done|by destruct C2].
Qed.

Lemma remove_list_entry_spec h hd l1 e l2 :
  is_list h hd (l1 ++ e :: l2) ->
  exists h', remove_list_entry e h = Done (if decide (l1 ++ l2 = []) then 1 else 0, h') /\
    is_list h' hd (l1 ++ l2) /\ is_list h' e [] /\ same_except (hd :: e :: l1 ++ l2) h h'.
Proof.
  intros Hl. destruct (is_list_around _ _ _ _ _ Hl) as (La & Lb & Na & Nb & Hnd & Hne).
  pose proof (default_last_elem hd l1) as Ea. pose proof (default_head_elem hd l2) as Eb.
  destruct (remove_list_entry_run h _ e _ La Lb Na Nb) as (h' & Hr & Hu).
  exists h'. split; [|split; [|split]].
  - rewrite Hr, (ends_meet hd l1 l2) by done. by case_decide; case_bool_decide.
  - by eapply is_list_unsplice.
  - by eapply is_list_unsplice.
  - eapply unspliced_same_except; [done|set_solver..].
Qed.

Lemma remove_list_entry_self h e :
  linked h e e -> exists h', remove_list_entry e h = Done (1, h') /\
    (forall x, nx h' x = nx h x /\ pv h' x = pv h x).
Proof.
  intros [A B]. unfold remove_list_entry.
  run_step ltac:(by apply (verify_list_entry_run h e e e)).
  list_step. list_step. list_step. list_step. list_step. list_step.
  rewrite Z.eqb_refl. eexists. split; [reflexivity|]. intros x. split; links.
Qed.

(** * Refinement: a list is a deque

    The commands a client issues on one list, and their meaning on the
    sequence the list represents.  A command is admissible when the entry it
    adds is not threaded on the list and the entry it removes is. *)

Inductive deque_op : Type :=
  | InsertHead (e : ptr)
  | InsertTail (e : ptr)
  | Remove (e : ptr)
  | RemoveHead
  | RemoveTail
  | IsEmpty.

(** What a command answers: an entry, or the int it returns (0 for void). *)
Definition run_op (hd : ptr) (op : deque_op) : M heap Z :=
  match op with
  | InsertHead e => insert_list_head hd e;; mret 0
  | InsertTail e => insert_list_tail hd e;; mret 0
  | Remove e => remove_list_entry e
  | RemoveHead => remove_list_head hd
  | RemoveTail => remove_tail_list hd
  | IsEmpty => b ← empty_list hd; mret (if (b : bool) then 1 else 0)
  end.

Fixpoint run_ops (hd : ptr) (ops : list deque_op) : M heap (list Z) :=
  match ops with
  | [] => mret []
  | op :: ops => r ← run_op hd op; rs ← run_ops hd ops; mret (r :: rs)
  end.

Definition remove_first (e : Z) (l : list Z) : list Z := filter (fun x : Z => x <> e) l.

Definition deque_step (hd : ptr) (op : deque_op) (l : list ptr) : list ptr * Z :=
  match op with
  | InsertHead e => (e :: l, 0)
  | InsertTail e => (l ++ [e], 0)
  | Remove e => (remove_first e l, if decide (remove_first e l = []) then 1 else 0)
  | RemoveHead => (tail l, default hd (head l))
  | RemoveTail => (removelast l, default hd (last l))
  | IsEmpty => (l, if decide (l = []) then 1 else 0)
  end.

Fixpoint deque_run (hd : ptr) (ops : list deque_op) (l : list ptr) : list ptr * list Z :=
  match ops with
  | [] => (l, [])
  | op :: ops =>
      let (l1, r) := deque_step hd op l in
      let (l2, rs) := deque_run hd ops l1 in (l2, r :: rs)
  end.

Definition admissible (hd : ptr) (h : heap) (op : deque_op) (l : list ptr) : Prop :=
  match op with
  | InsertHead e | InsertTail e => e ∉ hd :: l /\ is_Some (h !! e)
  | Remove e => e ∈ l
  | _ => True
  end.

Fixpoint all_admissible (hd : ptr) (h : heap) (ops : list deque_op) (l : list ptr) : Prop :=
  match ops with
  | [] => True
  | op :: ops => admissible hd h op l /\ all_admissible hd h ops (fst (deque_step hd op l))
  end.

#[export] Instance admissible_dec hd h op l : Decision (admissible hd h op l).
Proof. destruct op; simpl; apply _. Defined.

(** No operation allocates or frees an entry. *)
Definition same_cells (h h' : heap) : Prop :=
  forall p : ptr, is_Some (h' !! p) <-> is_Some (h !! p).

Lemma is_list_cells h hd l x : is_list h hd l -> x ∈ hd :: l -> is_Some (h !! x).
Proof.
  intros [_ Hc] Hx. eapply chain_nx in Hc; [|done].
  unfold nx in Hc. by apply fmap_is_Some in Hc.
Qed.

Lemma is_list_length h hd l : is_list h hd l -> (length l <= size h)%nat.
Proof.
  intros Hl. pose proof Hl as [[_ Hnd]%NoDup_cons _].
  rewrite <- size_dom, <- (size_list_to_set (C := gset Z)) by done.
  apply subseteq_size. intros x Hx%elem_of_list_to_set. apply elem_of_dom.
  eapply is_list_cells; [done|]. by right.
Qed.

Lemma is_list_agree h h' hd l : (forall x, x ∈ hd :: l -> h' !! x = h !! x) -> is_list h hd l -> is_list h' hd l.
Proof.
  intros Ha [Hnd Hc]. split; [done|]. revert Hc. apply chain_frame; intros x Hx.
  - unfold nx. by rewrite Ha.
  - unfold pv. rewrite Ha; [done|]. set_solver.
Qed.

Lemma is_list_frame ps h h' hd l :
  same_except ps h h' -> (forall x, x ∈ hd :: l -> x ∉ ps) -> is_list h hd l -> is_list h' hd l.
Proof. intros Hf Hd. apply is_list_agree. intros x Hx. apply Hf. by apply Hd. Qed.

Lemma same_except_cells l h h' :
  same_except l h h' -> (forall p : ptr, p ∈ l -> is_Some (h !! p)) ->
  (forall p, p ∈ l -> is_Some (h' !! p)) -> same_cells h h'.
Proof.
  intros He H1 H2 p. destruct (decide (p ∈ l)) as [Hp|Hp]; [|by rewrite He].
  split; eauto.
Qed.

Lemma remove_first_absent e l : e ∉ l -> remove_first e l = l.
Proof.
  unfold remove_first. induction l as [|x l IH]; [done|]. intros [Hx Hl]%not_elem_of_cons.
  rewrite filter_cons_True by done. by rewrite IH.
Qed.

Lemma remove_first_mid l1 e l2 :
  e ∉ l1 ++ l2 -> remove_first e (l1 ++ e :: l2) = l1 ++ l2.
Proof.
  intros He. pose proof (remove_first_absent e (l1 ++ l2) He) as R.
  unfold remove_first in *. rewrite filter_app, filter_cons_False, <- filter_app; auto.
Qed.

Lemma run_remove h hd l1 e l2 :
  is_list h hd (l1 ++ e :: l2) ->
  exists h', remove_list_entry e h = Done (if decide (l1 ++ l2 = []) then 1 else 0, h') /\
    is_list h' hd (l1 ++ l2) /\ same_cells h h'.
Proof.
  intros Hl. destruct (remove_list_entry_spec _ _ _ _ _ Hl) as (h' & Hr & Hl' & He & Hs).
  exists h'. split; [done|]. split; [done|].
  eapply same_except_cells; [done| |]; intros p Hp.
  - eapply is_list_cells; [done|set_solver].
  - destruct (decide (p = e)) as [->|]; [eapply is_list_cells; [done|set_solver]|].
    eapply is_list_cells; [exact Hl'|set_solver].
Qed.

Lemma linked_self_remove h hd : is_list h hd [] ->
  exists h', remove_list_entry hd h = Done (1, h') /\ is_list h' hd [] /\ same_cells h h'.
Proof.
  intros [Hnd [A B]]. destruct (remove_list_entry_self h hd) as (h' & Hr & Hs); [done|].
  exists h'. split; [done|]. split.
  - split; [done|]. by split; [rewrite (proj1 (Hs hd))|rewrite (proj2 (Hs hd))].
  - intros p. destruct (Hs p) as [N _]. unfold nx in N.
    destruct (h !! p), (h' !! p); simpl in N; split; intros [? ?]; eauto; done.
Qed.

Lemma deque_step_spec h hd op l :
  is_list h hd l -> admissible hd h op l ->
  exists h', run_op hd op h = Done (snd (deque_step hd op l), h') /\
    is_list h' hd (fst (deque_step hd op l)) /\ same_cells h h'.
Proof.
  intros Hl Ha. destruct op as [e|e|e| | |]; simpl in *.
  - destruct Ha as [He Hd].
    destruct (insert_list_head_spec h hd l e) as (h' & Hr & Hl' & Hs); [done..|].
    exists h'. run_step eassumption. split; [done|]. split; [done|].
    eapply same_except_cells; [done| |]; intros p Hp.
    + destruct (decide (p = e)) as [->|]; [done|]. eapply is_list_cells; [done|set_solver].
    + eapply is_list_cells; [exact Hl'|set_solver].
  - destruct Ha as [He Hd].
    destruct (insert_list_tail_spec h hd l e) as (h' & Hr & Hl' & Hs); [done..|].
    exists h'. run_step eassumption. split; [done|]. split; [done|].
    eapply same_except_cells; [done| |]; intros p Hp.
    + destruct (decide (p = e)) as [->|]; [done|]. eapply is_list_cells; [done|set_solver].
    + eapply is_list_cells; [exact Hl'|set_solver].
  - apply list_elem_of_split in Ha as (l1 & l2 & ->).
    pose proof Hl as [Hnd _]. rewrite app_comm_cons in Hnd.
    apply NoDup_remove_mid in Hnd as [_ Hne].
    rewrite remove_first_mid by set_solver. by apply run_remove.
  - unfold remove_list_head. destruct l as [|e l]; simpl.
    + run_step ltac:(apply get_next_run; by destruct Hl as [_ [H _]]).
      destruct (linked_self_remove h hd Hl) as (h' & Hr & ?). exists h'. by run_step eassumption.
    + run_step ltac:(apply get_next_run; by destruct Hl as [_ [[H _] _]]).
      destruct (run_remove h hd [] e l Hl) as (h' & Hr & ?). exists h'. by run_step eassumption.
  - unfold remove_tail_list. pose proof (is_list_last _ _ _ Hl) as [_ Hp].
    run_step ltac:(by apply get_prev_run).
    destruct l as [|e l _] using rev_ind; simpl.
    + destruct (linked_self_remove h hd Hl) as (h' & Hr & ?). exists h'. by run_step eassumption.
    + rewrite removelast_last, last_snoc. simpl.
      destruct (run_remove h hd l e [] Hl) as (h' & Hr & ?). rewrite app_nil_r in *.
      exists h'. by run_step eassumption.
  - exists h. split; [|done]. unfold empty_list.
    pose proof (is_list_first _ _ _ Hl) as [Hn _].
    unfold mbind at 1, M_bind at 1. run_step ltac:(by apply get_next_run).
    simpl. unfold mret, M_ret. destruct l as [|e l]; simpl; [by rewrite Z.eqb_refl|].
    destruct Hl as [[Hhd _]%NoDup_cons _]. destruct (Z.eqb_spec e hd); [set_solver|done].
Qed.

(** C38: every admissible sequence of list operations on a heap holding a list
    runs to its end with every assertion true, answers exactly what a deque
    answers, and leaves the list that the deque computes. *)
Theorem list_refines_deque ops h hd l :
  is_list h hd l -> all_admissible hd h ops l ->
  exists h', run_ops hd ops h = Done (snd (deque_run hd ops l), h') /\
    is_list h' hd (fst (deque_run hd ops l)).
Proof.
  revert h l. induction ops as [|op ops IH]; intros h l Hl; simpl; [by eauto|].
  intros [Ha Hrest]. destruct (deque_step_spec h hd op l) as (h1 & Hr & Hl1 & Hc); [done..|].
  destruct (deque_step hd op l) as [l1 r]; simpl in *.
  destruct (IH h1 l1) as (h2 & Hr2 & Hl2); [done| |].
  { clear -Hrest Hc. revert l1 Hrest. induction ops as [|op ops IH]; intros l1; simpl; [done|].
    intros [A B]. split; [|by apply IH]. destruct op; simpl in *; try done;
      by rewrite (Hc e). }
  destruct (deque_run hd ops l1) as [l2 rs]; simpl in *.
  exists h2. run_step eassumption. by run_step eassumption.
Qed.

(** walking a list from its head with [list_for_each] visits exactly its
    entries, in order, and changes nothing; fuel one above the length is
    enough. *)
Theorem list_for_each_visits h hd l fuel :
  is_list h hd l -> (length l < fuel)%nat -> list_items fuel hd h = Done (l, h).
Proof.
  intros [Hnd Hc] Hf. unfold list_items, list_head.
  assert (forall a m, chain h a m hd -> hd ∉ m -> forall fuel, (length m < fuel)%nat ->
    (hd0 ← get_next a; list_for_each fuel hd hd0) h = Done (m, h)) as W.
  { intros a m. revert a. induction m as [|x m IH]; intros a Hm Hhd f Hfu.
    - destruct f; [simpl in Hfu; lia|]. destruct Hm as [Hn _].
      run_step ltac:(by apply get_next_run). simpl. by rewrite Z.eqb_refl.
    - destruct f; [simpl in Hfu; lia|]. destruct Hm as [[Hn _] Hm].
      run_step ltac:(by apply get_next_run). simpl.
      destruct (Z.eqb_spec x hd); [set_solver|].
      specialize (IH x Hm ltac:(set_solver) f ltac:(simpl in Hfu; lia)).
      unfold mbind, M_bind in IH |- *. destruct (get_next x h) as [[n' h'']|]; [|done].
      by rewrite IH. }
  apply NoDup_cons in Hnd as [? ?]. by apply W.
Qed.

(** A heap with a head (at 1) linked to itself and two single entries. *)
Definition list_example : heap :=
  <[1 := {| next := 1; prev := 1 |}]> (<[2 := {| next := 2; prev := 2 |}]>
    {[3 := {| next := 3; prev := 3 |}]}).

Lemma list_example_empty : is_list list_example 1 [].
Proof. split; [apply NoDup_singleton|split; reflexivity]. Qed.

Lemma list_refines_deque_witness :
  exists h', run_ops 1 [InsertTail 2; InsertHead 3; Remove 2; IsEmpty; RemoveTail] list_example =
    Done ([0; 0; 0; 0; 3], h') /\ is_list h' 1 [].
Proof.
  apply (list_refines_deque [InsertTail 2; InsertHead 3; Remove 2; IsEmpty; RemoveTail]
    list_example 1 []); [apply list_example_empty|].
  simpl. repeat split; try (rewrite ?elem_of_cons, elem_of_nil; lia);
    try (by eexists); rewrite !elem_of_cons; lia.
Defined.

Definition list_example_2 : heap :=
  <[1 := {| next := 2; prev := 3 |}]> (<[2 := {| next := 3; prev := 1 |}]>
    {[3 := {| next := 1; prev := 2 |}]}).

Lemma list_for_each_visits_witness : list_items 3 1 list_example_2 = Done ([2; 3], list_example_2).
Proof.
  apply (list_for_each_visits list_example_2 1 [2; 3] 3); [|simpl; lia].
  split; [|repeat split; reflexivity].
  repeat (apply NoDup_cons; split; [rewrite ?elem_of_cons, elem_of_nil; lia|]). apply NoDup_nil_2.
Defined.
