(* ===== verification/ApiList.v ===== *)
(** The lists of the client library: src/finesse/api/list.h.

    The operations work on the heap of list entries of ListEntry.v, whose
    [is_list] they keep.  Unlike the lists of finesse-list.h they check
    nothing, and an item that was removed is left with null links. *)

From stdpp Require Import gmap.
From S2P Require Import Prelude ListEntry.

Definition list_initialize (lst : ptr) : M heap unit := set_prev lst lst;; set_next lst lst.

Definition list_item_initialize (item : ptr) : M heap unit := set_next item NULL;; set_prev item NULL.

Definition list_is_empty (lst : ptr) : M heap bool := n ← get_next lst; mret (n =? lst).

Definition list_item_is_linked (item : ptr) : M heap bool := n ← get_next item; mret (negb (n =? NULL)).

Definition list_head (lst : ptr) : M heap ptr := get_next lst.

Definition list_tail (lst : ptr) : M heap ptr := get_prev lst.

Definition list_insert_before (lst item : ptr) : M heap unit :=
  set_next item lst;;
  p ← get_prev lst; set_prev item p;;
  p ← get_prev lst; set_next p item;;
  set_prev lst item.

Definition list_insert_after (lst item : ptr) : M heap unit := n ← get_next lst; list_insert_before n item.

Definition list_insert_head (lst item : ptr) : M heap unit := list_insert_after lst item.

Definition list_insert_tail (lst item : ptr) : M heap unit := list_insert_before lst item.

Definition list_append (head tail : ptr) : M heap unit :=
  empty ← list_is_empty tail;
  if empty : bool then mret () else
  p ← get_prev head; n ← get_next tail; set_next p n;;
  n ← get_next tail; p ← get_prev head; set_prev n p;;
  p ← get_prev tail; set_prev head p;;
  p ← get_prev tail; set_next p head;;
  list_initialize tail.

Definition list_remove (item : ptr) : M heap unit :=
  p ← get_prev item; n ← get_next item; set_next p n;;
  n ← get_next item; p ← get_prev item; set_prev n p;;
  list_item_initialize item.

(** * What they do *)

Lemma list_initialize_run h p : is_Some (h !! p) -> list_initialize p h = Done (tt, <[p := {| next := p; prev := p |}]> h).
Proof.
  intros [e He]. unfold list_initialize, set_prev, set_next. unfold mbind, M_bind, get_state, put_state. rewrite He.
  cbn. rewrite lookup_insert_eq. cbn. by rewrite insert_insert_eq.
Qed.

Lemma is_list_linked h hd l : is_list h hd l ->
  exists p n, linked h p hd /\ linked h hd n /\ p = default hd (last l) /\ n = default hd (head l).
Proof.
  intros Hl. exists (default hd (last l)), (default hd (head l)).
  split_and!; [by apply is_list_last|by apply is_list_first|done..].
Qed.

(** An item between two neighbours. *)
Lemma list_insert_before_run h a b e :
  linked h a b -> a <> e -> b <> e -> is_Some (h !! e) ->
  exists h', list_insert_before b e h = Done (tt, h') /\ spliced h h' a e b.
Proof.
  intros [A B] Ha Hb He.
  assert (is_Some (nx h e)) as [ne Hne] by (unfold nx; by apply fmap_is_Some).
  assert (is_Some (pv h e)) as [pe Hpe] by (by apply nx_pv_Some).
  assert (is_Some (nx h b)) as [nb Hnb] by (by apply nx_pv_Some).
  assert (is_Some (pv h a)) as [pa Hpa] by (by apply nx_pv_Some).
  unfold list_insert_before. do 5 list_step.
  eexists. split; [apply set_prev_run; links|]. split; intros x; links.
Qed.

Lemma list_insert_tail_spec h hd l e :
  is_list h hd l -> e ∉ hd :: l -> is_Some (h !! e) ->
  exists h', list_insert_tail hd e h = Done (tt, h') /\ is_list h' hd (l ++ [e]) /\ same_except (hd :: e :: l) h h'.
Proof.
  intros Hl He Hd. destruct (is_list_linked _ _ _ Hl) as (p & n & Lp & _ & -> & _).
  pose proof (default_last_elem hd l).
  destruct (list_insert_before_run h (default hd (last l)) hd e) as (h' & Hr & Hs); [done|set_solver..|done|].
  exists h'. split; [done|]. split; [by apply (is_list_spliced_tail h)|eapply spliced_same_except; [done|set_solver..]].
Qed.

Lemma list_insert_head_spec h hd l e :
  is_list h hd l -> e ∉ hd :: l -> is_Some (h !! e) ->
  exists h', list_insert_head hd e h = Done (tt, h') /\ is_list h' hd (e :: l) /\ same_except (hd :: e :: l) h h'.
Proof.
  intros Hl He Hd. destruct (is_list_linked _ _ _ Hl) as (p & n & _ & Ln & _ & ->).
  pose proof (default_head_elem hd l).
  destruct (list_insert_before_run h hd (default hd (head l)) e) as (h' & Hr & Hs); [done|set_solver..|done|].
  exists h'. split; [|split; [by apply (is_list_spliced_head h)|eapply spliced_same_except; [done|set_solver..]]].
  unfold list_insert_head, list_insert_after. by rewrite (M_bind_done _ _ _ _ _ (get_next_run _ _ _ (proj1 Ln))).
Qed.

(** A removed item has null links. *)
Lemma list_remove_run h a e b :
  linked h a e -> linked h e b -> a <> e -> b <> e ->
  exists h' h1, list_remove e h = Done (tt, h') /\ unspliced h h1 a e b /\
    (forall x, x <> e -> nx h' x = nx h1 x /\ pv h' x = pv h1 x).
Proof.
  intros [A1 A2] [B1 B2] Ha Hb. unfold list_remove, list_item_initialize.
  assert (is_Some (nx h b)) as [nb Hnb] by (by apply nx_pv_Some).
  assert (is_Some (pv h a)) as [pa Hpa] by (by apply nx_pv_Some).
  do 7 list_step. eexists _, (st_prev e e (st_next e e (st_prev b a (st_next a b h)))).
  split; [apply set_prev_run; links|]. split; [split; intros x; links|].
  intros x Hx. split; links.
Qed.

Lemma list_remove_spec h hd l1 e l2 :
  is_list h hd (l1 ++ e :: l2) ->
  exists h', list_remove e h = Done (tt, h') /\ is_list h' hd (l1 ++ l2) /\ same_except (hd :: e :: l1 ++ l2) h h'.
Proof.
  intros Hl. destruct (is_list_around _ _ _ _ _ Hl) as (La & Lb & Ha & Hb & Hnin).
  destruct (list_remove_run h _ e _ La Lb Ha Hb) as (h' & h1 & Hr & Hu & Hsame).
  destruct (is_list_unsplice _ _ _ _ _ _ Hl Hu) as [[Hnd Hc] _].
  exists h'. split; [done|]. split.
  - split; [done|]. eapply chain_frame; [..|exact Hc]; intros x Hx; apply Hsame; set_solver.
  - assert (same_except (hd :: e :: l1 ++ l2) h h1) as Hex.
    { pose proof (default_last_elem hd l1). pose proof (default_head_elem hd l2).
      eapply unspliced_same_except; [done|set_solver..]. }
    intros x Hx. assert (x <> e) as Hxe by set_solver. destruct (Hsame x Hxe).
    rewrite <- (Hex x Hx). by apply same_links.
Qed.

(** A chain whose last link leads elsewhere. *)
Lemma chain_retarget h h' a l b c :
  chain h a l b -> NoDup (a :: l) ->
  (forall z, z ∈ a :: l -> z <> default a (last l) -> nx h' z = nx h z) -> (forall z, z ∈ l -> pv h' z = pv h z) ->
  linked h' (default a (last l)) c -> chain h' a l c.
Proof.
  intros Hc Hnd Hn Hp Hl. destruct l as [|p l _] using rev_ind; [done|].
  rewrite last_snoc in *. simpl in *. apply chain_app in Hc as [Hc _]. apply chain_app. split; [|done].
  eapply chain_frame; [|exact Hp|exact Hc]. intros z Hz. apply Hn; [set_solver|].
  intros ->. rewrite app_comm_cons in Hnd. apply NoDup_app in Hnd as (_ & Hnd & _). by apply (Hnd p); [|left].
Qed.

(** The second list goes to the end of the first and is empty afterwards. *)
Lemma list_append_run h hd tl a x y :
  linked h a hd -> linked h tl x -> linked h y tl -> hd <> tl -> a <> tl -> x <> tl -> y <> tl -> y <> a -> x <> hd -> 
  exists h', list_append hd tl h = Done (tt, h') /\
    (forall z, nx h' z = if decide (z = tl) then Some tl else if decide (z = y) then Some hd else if decide (z = a) then Some x else nx h z) /\
    (forall z, pv h' z = if decide (z = tl) then Some tl else if decide (z = hd) then Some y else if decide (z = x) then Some a else pv h z).
Proof.
  intros [A1 A2] [B1 B2] [C1 C2] H1 H2 H3 H4 H5 H6. unfold list_append, list_is_empty, list_initialize.
  assert (is_Some (pv h a)) as [pa Hpa] by (by apply nx_pv_Some).
  assert (is_Some (nx h x)) as [nxx Hnx] by (by apply nx_pv_Some).
  assert (is_Some (nx h hd)) as [nh Hnh] by (by apply nx_pv_Some).
  assert (is_Some (pv h y)) as [py Hpy] by (by apply nx_pv_Some).
  rewrite M_assoc. list_step. rewrite mret_bind. rewrite (proj2 (Z.eqb_neq x tl)) by done.
  do 11 list_step. eexists. split; [apply set_next_run; links|]. split; intros z; links.
Qed.

Lemma list_append_spec h hd tl l l2 :
  is_list h hd l -> is_list h tl l2 -> (hd :: l) ## (tl :: l2) ->
  exists h', list_append hd tl h = Done (tt, h') /\ is_list h' hd (l ++ l2) /\ is_list h' tl [] /\
    same_except (hd :: l ++ tl :: l2) h h'.
Proof.
  intros Hl Hl2 Hd. destruct l2 as [|x l2].
  { exists h. rewrite app_nil_r. split; [|by split_and!]. unfold list_append, list_is_empty.
    destruct Hl2 as [_ [Hn _]]. rewrite M_assoc. list_step. by rewrite mret_bind, Z.eqb_refl. }
  pose proof (is_list_last _ _ _ Hl) as La. pose proof (is_list_last _ _ _ Hl2) as Ly.
  destruct Hl as [Hnd Hc], Hl2 as [Hnd2 [Lx Hc2]].
  pose proof (default_last_elem hd l) as Ea. set (a := default hd (last l)) in *.
  assert (default tl (last (x :: l2)) = default x (last l2)) as Ey by (by destruct l2 as [|? ? _] using rev_ind; [|rewrite app_comm_cons, !last_snoc]).
  rewrite Ey in Ly. pose proof (default_last_elem x l2) as Eyl. set (y := default x (last l2)) in *.
  assert (x <> tl /\ y <> tl) as [Hx Hy].
  { apply NoDup_cons in Hnd2 as [Ht _]. split; intros Heq; apply Ht; rewrite <- Heq; [left|done]. }
  assert (forall z w, z ∈ hd :: l -> w ∈ tl :: x :: l2 -> z <> w) as Hdis by (intros z w Hz Hw ->; by apply (Hd w)).
  assert (hd ∈ hd :: l) as Eh by left. assert (tl ∈ tl :: x :: l2) as Et by left.
  assert (y ∈ tl :: x :: l2) as Eyt by (by right). assert (x ∈ tl :: x :: l2) as Ext by (right; left).
  assert (hd <> tl) as N1 by auto. assert (a <> tl) as N2 by auto.
  assert (y <> a) as N3 by (symmetry; auto). assert (x <> hd) as N4 by (symmetry; auto).
  destruct (list_append_run h hd tl a x y La Lx Ly) as (h' & Hr & Hn & Hp); [done..|].
  apply NoDup_cons in Hnd2 as [Htl Hnd2].
  exists h'. split; [done|]. split; [split|split].
  - rewrite app_comm_cons. apply NoDup_app. split; [done|]. split; [|done].
    intros z Hz Hz2. apply (Hdis z z Hz); [by right|done].
  - apply chain_app. split.
    + eapply chain_retarget; [done|done| | |split].
      * intros z Hz Hza. rewrite Hn. rewrite !decide_False; auto.
      * intros z Hz. rewrite Hp. apply NoDup_cons in Hnd as [Hh _]. rewrite !decide_False; auto; [apply Hdis; [by right|done]|by intros ->|apply Hdis; [by right|done]].
      * rewrite Hn, (decide_False (P := a = tl)), (decide_False (P := a = y)), decide_True; auto.
      * rewrite Hp, (decide_False (P := x = tl)), (decide_False (P := x = hd)), decide_True; auto.
    + eapply chain_retarget; [done|done| | |split].
      * intros z Hz Hzy. rewrite Hn. rewrite (decide_False (P := z = tl)), (decide_False (P := z = y)), decide_False; auto.
        -- symmetry. apply Hdis; [done|by right].
        -- by intros ->.
      * intros z Hz. apply NoDup_cons in Hnd2 as [Hxl _]. rewrite Hp, !decide_False; auto.
        -- by intros ->.
        -- symmetry. apply Hdis; [done|right; by right].
        -- intros ->. apply Htl. by right.
      * change (nx h' y = Some hd). by rewrite Hn, decide_False, decide_True.
      * change (pv h' hd = Some y). rewrite Hp, decide_False, decide_True; auto.
  - split; [apply NoDup_singleton|]. split; [by rewrite Hn, decide_True|by rewrite Hp, decide_True].
  - apply same_links_except. intros z Hz. rewrite Hn, Hp. rewrite !decide_False; [done|intros ->; apply Hz; set_solver..].
Qed.
