(* ===== verification/FileStates.v ===== *)
(** The file descriptors of the client library: src/finesse/api/fdmgr.c.

    A hash table on the lists of ApiList.v maps the key of a descriptor, the
    four bytes of its number, to the state the library keeps for it.  The
    addresses that malloc returns are arguments, NULL when it fails.  This file
    has the code, and the hash of keys; FileTable.v shows what the table does,
    and FileSpec.v that it is a map. *)

From stdpp Require Import gmap list strings.
From S2P Require Import Prelude ListEntry ApiList.

#[local] Open Scope Z_scope.
#[local] Open Scope word_scope.

(** * Data *)

Inductive rwlock : Type := Unlocked | ReadLocked (n : nat) | WriteLocked.

Record lookup_table := {
  EntryCountShift : Z;
  TableName : string;
  TableLock : rwlock;
  Hash : list Z -> Z -> outcome Z;
  KeySize : Z }.

Record lookup_table_entry := { Object : ptr; Key : list Z }.

(** A UUID is a 128-bit number, as in the messages. *)
Record finesse_file_state := {
  fd : Z;
  key : Z;
  client : ptr;
  pathname : string;
  current_offset : Z;
  flags : Z }.

(** The links of buckets and entries, the other members of entries, tables
    and states, and the static table of descriptors. *)
Record memory := {
  links : heap;
  entries : gmap ptr lookup_table_entry;
  tables : gmap ptr lookup_table;
  states : gmap ptr finesse_file_state;
  fd_lookup_table : ptr }.

Definition set_links (h : heap) (m : memory) : memory :=
  {| links := h; entries := entries m; tables := tables m; states := states m; fd_lookup_table := fd_lookup_table m |}.
Definition set_entries (f : gmap ptr lookup_table_entry -> gmap ptr lookup_table_entry) (m : memory) : memory :=
  {| links := links m; entries := f (entries m); tables := tables m; states := states m; fd_lookup_table := fd_lookup_table m |}.
Definition set_tables (f : gmap ptr lookup_table -> gmap ptr lookup_table) (m : memory) : memory :=
  {| links := links m; entries := entries m; tables := f (tables m); states := states m; fd_lookup_table := fd_lookup_table m |}.
Definition set_states (f : gmap ptr finesse_file_state -> gmap ptr finesse_file_state) (m : memory) : memory :=
  {| links := links m; entries := entries m; tables := tables m; states := f (states m); fd_lookup_table := fd_lookup_table m |}.
Definition set_fd_table (p : ptr) (m : memory) : memory :=
  {| links := links m; entries := entries m; tables := tables m; states := states m; fd_lookup_table := p |}.

Definition with_TableLock (l : rwlock) (t : lookup_table) : lookup_table :=
  {| EntryCountShift := EntryCountShift t; TableName := TableName t; TableLock := l; Hash := Hash t; KeySize := KeySize t |}.
Definition with_offset (offset : Z) (s : finesse_file_state) : finesse_file_state :=
  {| fd := fd s; key := key s; client := client s; pathname := pathname s; current_offset := offset; flags := flags s |}.

(** offsetof (lookup_table_t, TableBuckets) and sizeof (struct list); the
    list entry is the first member of a table entry. *)
Definition bucket_head (Table : ptr) (index : Z) : ptr := Table + 80 + 16 * index.
Definition SIZEOF_TABLE (entrycount : Z) : Z := 80 + 16 * entrycount.

Definition on_links {A : Type} (c : M heap A) : M memory A :=
  fun m => match c (links m) with Done (a, h) => Done (a, set_links h m) | Fail f => Fail f end.
Definition on_outcome {A : Type} (o : outcome A) : M memory A :=
  fun m => match o with Done a => Done (a, m) | Fail f => Fail f end.

Definition load_table (p : ptr) : M memory lookup_table := m ← get_state; deref (tables m !! p).
Definition load_entry (p : ptr) : M memory lookup_table_entry := m ← get_state; deref (entries m !! p).
Definition load_state (p : ptr) : M memory finesse_file_state := m ← get_state; deref (states m !! p).

Definition set_lock (Table : ptr) (l : rwlock) : M memory unit :=
  t ← load_table Table; modify_state (set_tables <[Table := with_TableLock l t]>).

Definition pthread_rwlock_wrlock (Table : ptr) : M memory unit :=
  t ← load_table Table;
  match TableLock t with Unlocked => set_lock Table WriteLocked | _ => mthrow Deadlock end.
Definition pthread_rwlock_rdlock (Table : ptr) : M memory unit :=
  t ← load_table Table;
  match TableLock t with
  | Unlocked => set_lock Table (ReadLocked 0)
  | ReadLocked n => set_lock Table (ReadLocked (S n))
  | WriteLocked => mthrow Deadlock
  end.
Definition pthread_rwlock_unlock (Table : ptr) : M memory unit :=
  t ← load_table Table;
  match TableLock t with
  | Unlocked => mthrow Undefined
  | ReadLocked (S n) => set_lock Table (ReadLocked n)
  | ReadLocked O | WriteLocked => set_lock Table Unlocked
  end.

(** * Hashes *)

(** The 32-bit word at an offset of a key. *)
Definition word_at (blob : list Z) (index : Z) : outcome Z :=
  match drop (Z.to_nat index) blob with
  | a :: b :: c :: d :: _ => Done (a + 256 * b + 65536 * c + 16777216 * d)
  | _ => Fail Undefined
  end.

(** The index is a byte. *)
Fixpoint default_hash_loop (fuel : nat) (blob : list Z) (length index hash : Z) : outcome Z :=
  match fuel with
  | O => Fail OutOfFuel
  | S fuel =>
      if index <? length then
        w ← word_at blob index; default_hash_loop fuel blob length (u8 (index + 4)) (Z.lxor hash w)
      else Done hash
  end.

Definition default_hash_fuel : nat := 65.

Definition default_hash (key : list Z) (length : Z) : outcome Z :=
  default_hash_loop default_hash_fuel key length 0 (2 ^ 32 - 1).

Definition lookup_table_hash (Table : ptr) (Key : list Z) : M memory Z :=
  t ← load_table Table;
  h ← on_outcome (Hash t Key (KeySize t));
  mret (Z.land h (Z.shiftl 1 (EntryCountShift t) - 1)).

(** * Entries *)

Definition lookup_table_entry_create (key : list Z) (key_size : Z) (object : ptr) (new : ptr) : M memory ptr :=
  if new =? NULL then mret NULL
  else
    m ← get_state;
    modify_state (set_links (<[new := {| next := NULL; prev := NULL |}]> (links m)));;
    modify_state (set_entries <[new := {| Object := object; Key := take (Z.to_nat key_size) key |}]>);;
    mret new.

Definition lookup_table_entry_destroy (DeadEntry : ptr) : M memory unit :=
  _ ← load_entry DeadEntry;
  m ← get_state;
  modify_state (set_links (delete DeadEntry (links m)));;
  modify_state (set_entries (delete DeadEntry)).

(** * Tables *)

(** The smallest shift whose power is not below the hint, which is at most
    2^16. *)
Fixpoint hint_shift (fuel : nat) (SizeHint shift : Z) : Z :=
  match fuel with
  | O => shift
  | S fuel => if Z.shiftl 1 shift <? SizeHint then hint_shift fuel SizeHint (shift + 1) else shift
  end.

Fixpoint init_buckets (Table : ptr) (n : nat) : M memory unit :=
  match n with
  | O => mret ()
  | S n =>
      init_buckets Table n;;
      on_links (modify_state <[bucket_head Table (Z.of_nat n) := {| next := NULL; prev := NULL |}]>);;
      on_links (list_initialize (bucket_head Table (Z.of_nat n)))
  end.

Definition lookup_table_create (SizeHint : Z) (Name : string) (hash : option (list Z -> Z -> outcome Z)) (size : Z) (new : ptr) : M memory ptr :=
  let SizeHint := if 65536 <? SizeHint then 65536 else SizeHint in
  let entry_count_shift := hint_shift 17 SizeHint 0 in
  if new =? NULL then mret NULL
  else
    modify_state (set_tables <[new := {| EntryCountShift := entry_count_shift; TableName := String.substring 0 7 Name;
      TableLock := Unlocked; Hash := default default_hash hash; KeySize := size |}]>);;
    init_buckets new (Z.to_nat (Z.shiftl 1 entry_count_shift));;
    mret new.

(** Destroying the entries of a bucket, and the buckets from [index] on. *)
Fixpoint drain (fuel : nat) (head : ptr) : M memory unit :=
  match fuel with
  | O => mthrow OutOfFuel
  | S fuel =>
      empty ← on_links (list_is_empty head);
      if empty : bool then mret ()
      else
        e ← on_links (list_head head);
        on_links (list_remove e);;
        lookup_table_entry_destroy e;;
        drain fuel head
  end.

Fixpoint drain_buckets (Table : ptr) (n : nat) (index : Z) : M memory unit :=
  match n with
  | O => mret ()
  | S n =>
      m ← get_state;
      drain (S (size (links m))) (bucket_head Table index);;
      drain_buckets Table n (index + 1)
  end.

Fixpoint free_buckets (Table : ptr) (n : nat) (h : heap) : heap :=
  match n with O => h | S n => delete (bucket_head Table (Z.of_nat n)) (free_buckets Table n h) end.

Definition lookup_table_destroy (Table : ptr) : M memory unit :=
  pthread_rwlock_wrlock Table;;
  t ← load_table Table;
  let entrycount := Z.to_nat (Z.shiftl 1 (EntryCountShift t)) in
  drain_buckets Table entrycount 0;;
  pthread_rwlock_unlock Table;;
  m ← get_state;
  modify_state (set_links (free_buckets Table entrycount (links m)));;
  modify_state (set_tables (delete Table)).

(** The walk of list_for_each from the item [le]. *)
Fixpoint search (fuel : nat) (head le : ptr) (key : list Z) (size : Z) : M memory ptr :=
  match fuel with
  | O => mthrow OutOfFuel
  | S fuel =>
      if le =? head then mret NULL
      else
        e ← load_entry le;
        if bool_decide (take (Z.to_nat size) key = take (Z.to_nat size) (Key e)) then mret le
        else n ← on_links (get_next le); search fuel head n key size
  end.

Definition lookup_table_locked (Table : ptr) (Key : list Z) : M memory ptr :=
  bucket_index ← lookup_table_hash Table Key;
  t ← load_table Table;
  le ← on_links (list_head (bucket_head Table bucket_index));
  m ← get_state;
  search (S (size (links m))) (bucket_head Table bucket_index) le Key (KeySize t).

Definition lookup_table_insert (Table : ptr) (Key : list Z) (object : ptr) (new : ptr) : M memory Z :=
  t ← load_table Table;
  entry ← lookup_table_entry_create Key (KeySize t) object new;
  bucket_index ← lookup_table_hash Table Key;
  if entry =? NULL then mret ENOMEM
  else
    pthread_rwlock_wrlock Table;;
    table_entry ← lookup_table_locked Table Key;
    status ← (if negb (table_entry =? NULL) then mret EEXIST
      else on_links (list_insert_tail (bucket_head Table bucket_index) entry);; mret 0);
    pthread_rwlock_unlock Table;;
    (if negb (0 =? status) then lookup_table_entry_destroy entry else mret ());;
    mret status.

(** status and [*Object] *)
Definition lookup_table_lookup (Table : ptr) (Key : list Z) : M memory (Z * ptr) :=
  pthread_rwlock_rdlock Table;;
  entry ← lookup_table_locked Table Key;
  pthread_rwlock_unlock Table;;
  if negb (entry =? NULL) then e ← load_entry entry; mret (0, Object e)
  else mret (ENODATA, NULL).

Definition lookup_table_remove (Table : ptr) (Key : list Z) : M memory Z :=
  pthread_rwlock_wrlock Table;;
  entry ← lookup_table_locked Table Key;
  (if negb (entry =? NULL) then on_links (list_remove entry) else mret ());;
  pthread_rwlock_unlock Table;;
  if negb (entry =? NULL) then lookup_table_entry_destroy entry;; mret 0
  else mret ENODATA.

(** * File states *)

(** The four bytes of an int. *)
Definition int_bytes (n : Z) : list Z := (fun i => Z.land (Z.shiftr (u32 n) (8 * i)) 255) <$> [0; 1; 2; 3].

(** [new] is what malloc returns for the state, [new_entry] for the entry of
    the table. *)
Definition finesse_create_file_state (fd : Z) (client : ptr) (key : Z) (pathname : string) (flags : Z) (new new_entry : ptr)
  : M memory ptr :=
  table ← gets fd_lookup_table;
  c_assert (negb (table =? NULL));;
  if new =? NULL then mret NULL
  else
    modify_state (set_states <[new := {| fd := fd; key := key; client := client; pathname := pathname; current_offset := 0; flags := flags |}]>);;
    status ← lookup_table_insert table (int_bytes fd) new new_entry;
    if negb (0 =? status) then modify_state (set_states (delete new));; mret NULL
    else mret new.

Definition finesse_lookup_file_state (fd : Z) : M memory ptr :=
  table ← gets fd_lookup_table;
  if table =? NULL then mret NULL
  else
    '(status, file_state) ← lookup_table_lookup table (int_bytes fd);
    mret (if negb (0 =? status) then NULL else file_state).

Definition finesse_update_offset (file_state : ptr) (offset : Z) : M memory unit :=
  _ ← load_state file_state;
  modify_state (set_states (alter (with_offset offset) file_state)).

Definition finesse_delete_file_state (file_state : ptr) : M memory unit :=
  table ← gets fd_lookup_table;
  c_assert (negb (table =? NULL));;
  s ← load_state file_state;
  status ← lookup_table_remove table (int_bytes (fd s));
  c_assert (0 =? status);;
  modify_state (set_states (delete file_state)).

Definition finesse_init_file_state_mgr (new_table : ptr) : M memory Z :=
  table ← gets fd_lookup_table;
  if negb (table =? NULL) then mret 0
  else
    new_table ← lookup_table_create 4096 "FinesseFD" None 4 new_table;
    if new_table =? NULL then mret ENOMEM
    else modify_state (set_fd_table new_table);; mret 0.

Definition finesse_terminate_file_state_mgr : M memory unit :=
  existing_table ← gets fd_lookup_table;
  if existing_table =? NULL then mret ()
  else modify_state (set_fd_table NULL);; lookup_table_destroy existing_table.

(** NIC_FD_SHIFT is not defined by the build. *)
Definition nic_fd_shift : Z := 0.
Definition finesse_fd_to_nfd (fd : Z) : Z := Z.lor fd nic_fd_shift.
Definition finesse_nfd_to_fd (nfd : Z) : Z := Z.land nfd (Z.lnot nic_fd_shift).

(** * Bytes and hashes *)

Definition is_int (n : Z) : Prop := - 2 ^ 31 <= n < 2 ^ 31.

Lemma bytes_word x : 0 <= x < 2 ^ 32 ->
  Z.land (Z.shiftr x 0) 255 + 256 * Z.land (Z.shiftr x 8) 255 + 65536 * Z.land (Z.shiftr x 16) 255
    + 16777216 * Z.land (Z.shiftr x 24) 255 = x.
Proof.
  intros Hx. change 255 with (Z.ones 8). rewrite !Z.land_ones, !Z.shiftr_div_pow2 by lia.
  change (2 ^ 0) with 1. change (2 ^ 8) with 256. change (2 ^ 16) with 65536. change (2 ^ 24) with 16777216.
  change (2 ^ 32) with 4294967296 in Hx. Z.div_mod_to_equations. lia.
Qed.

Lemma int_bytes_word n : word_at (int_bytes n) 0 = Done (u32 n).
Proof. unfold word_at, int_bytes. cbn [fmap list_fmap drop Z.to_nat]. f_equal. by apply (bytes_word (u32 n)), wrap_range. Qed.

Lemma int_bytes_inj n n' : is_int n -> is_int n' -> int_bytes n = int_bytes n' -> n = n'.
Proof.
  unfold is_int. intros Hn Hn' He. assert (Done (u32 n) = Done (u32 n')) as [= Hu] by (by rewrite <- !int_bytes_word, He).
  unfold wrap in Hu. change (2 ^ 32) with 4294967296 in Hu. change (2 ^ 31) with 2147483648 in *.
  Z.div_mod_to_equations. lia.
Qed.

Lemma take_int_bytes n : take (Z.to_nat 4) (int_bytes n) = int_bytes n.
Proof. done. Qed.

Lemma default_hash_int n : default_hash (int_bytes n) 4 = Done (Z.lxor (2 ^ 32 - 1) (u32 n)).
Proof.
  unfold default_hash, default_hash_fuel.
  change (default_hash_loop 65 (int_bytes n) 4 0 (2 ^ 32 - 1)) with
    (w ← word_at (int_bytes n) 0; default_hash_loop 64 (int_bytes n) 4 4 (Z.lxor (2 ^ 32 - 1) w)).
  by rewrite int_bytes_word.
Qed.

(** ** Keys that are too long *)

Lemma default_hash_loop_done key length : length <= Z.of_nat (List.length key) -> length mod 4 = 0 -> length <= 252 ->
  forall n index hash, 0 <= index -> index + 4 * Z.of_nat n = length ->
  exists h, default_hash_loop (S n) key length index hash = Done h.
Proof.
  intros Hkey Hmod Hlen. induction n as [|n IH]; intros index hash H0 Hn; cbn [default_hash_loop].
  { rewrite (proj2 (Z.ltb_ge _ _)) by lia. eauto. }
  rewrite (proj2 (Z.ltb_lt _ _)) by lia.
  destruct (drop (Z.to_nat index) key) as [|a [|b [|c [|d l]]]] eqn:E;
    try (apply (f_equal List.length) in E; rewrite length_drop in E; cbn in E; lia).
  unfold word_at. rewrite E. change (mbind ?f (Done ?x)) with (f x). cbv beta. rewrite wrap_small by (change (2 ^ 8) with 256; lia).
  apply IH; lia.
Qed.

Lemma default_hash_loop_wraps key length : 252 < length ->
  forall fuel index hash h, 0 <= index <= 252 -> index mod 4 = 0 -> default_hash_loop fuel key length index hash <> Done h.
Proof.
  intros Hlen. induction fuel as [|fuel IH]; intros index hash h Hi Hm; cbn [default_hash_loop]; [done|].
  rewrite (proj2 (Z.ltb_lt _ _)) by lia. destruct (word_at key index) as [w|]; [|done].
  change (mbind ?f (Done ?x)) with (f x). cbv beta. unfold wrap. change (2 ^ 8) with 256. apply IH; Z.div_mod_to_equations; lia.
Qed.

(** C36: The hash of a key returns exactly for keys of at most 252 bytes: its
    index is a byte, which never reaches a greater length.  The keys of the
    table of descriptors have four. *)
Theorem default_hash_ends key length : 0 <= length <= Z.of_nat (List.length key) -> length mod 4 = 0 ->
  length <= 252 <-> exists fuel h, default_hash_loop fuel key length 0 (2 ^ 32 - 1) = Done h.
Proof.
  intros Hlen Hmod. split.
  - intros H252. exists (S (Z.to_nat (length / 4))). apply default_hash_loop_done; [lia|done|done|lia|].
    Z.div_mod_to_equations. lia.
  - intros (fuel & h & Hrun). destruct (Z.le_gt_cases length 252) as [|Hgt]; [done|].
    exfalso. eapply default_hash_loop_wraps; [|..|exact Hrun]; [lia|lia|done].
Qed.

Lemma default_hash_ends_witness : ~ exists fuel h, default_hash_loop fuel (replicate 256 0) 256 0 (2 ^ 32 - 1) = Done h.
Proof. intros H. apply (default_hash_ends (replicate 256 0) 256) in H; [lia|by rewrite length_replicate|done]. Defined.
