(* ===== verification/FileTable.v ===== *)
(** What the hash table of FileStates.v does.

    [laid] says how a list of identified entries lies in memory, [shape] adds
    the table and its lock.  Each operation of the table is run from a memory
    of this shape, and leaves one. *)

From stdpp Require Import gmap list strings.
From S2P Require Import Prelude ListEntry ApiList FileStates.

#[local] Open Scope Z_scope.
#[local] Open Scope word_scope.

(** * Running the primitives *)

Lemma fdtable_run T t m : tables m !! T = Some t -> load_table T m = Done (t, m).
Proof. intros Ht. unfold load_table. rewrite get_state_bind. by rewrite Ht. Qed.

Lemma fdentry_run e x m : entries m !! e = Some x -> load_entry e m = Done (x, m).
Proof. intros He. unfold load_entry. rewrite get_state_bind. by rewrite He. Qed.

Lemma set_lock_run T l t m : tables m !! T = Some t -> set_lock T l m = Done (tt, set_tables <[T := with_TableLock l t]> m).
Proof. intros Ht. unfold set_lock. by run_step ltac:(by apply fdtable_run). Qed.

Lemma on_links_run {A} (c : M heap A) a h m : c (links m) = Done (a, h) -> on_links c m = Done (a, set_links h m).
Proof. intros Hc. unfold on_links. by rewrite Hc. Qed.

Lemma set_links_same m : set_links (links m) m = m.
Proof. by destruct m. Qed.

Lemma on_links_read {A} (c : M heap A) a m : c (links m) = Done (a, links m) -> on_links c m = Done (a, m).
Proof. intros Hc. by rewrite (on_links_run c a (links m)), set_links_same. Qed.

(** * What lies in the table *)

Record ident := { at_ : ptr; id_fd : Z; id_state : ptr }.

#[export] Instance ident_eq_dec : EqDecision ident.
Proof. solve_decision. Defined.

Definition entry_of (i : ident) : lookup_table_entry := {| Object := id_state i; Key := int_bytes (id_fd i) |}.
Definition by_fd (n : Z) (l : list ident) : option ident := List.find (fun i => id_fd i =? n) l.
Definition entry_ptr (o : option ident) : ptr := match o with Some i => at_ i | None => NULL end.
Definition without (i : ident) (l : list ident) : list ident := filter (fun j => at_ j <> at_ i) l.

Section Table.
Variables (T shift : Z).
Hypothesis shift_range : 0 <= shift <= 16.

Definition is_index (k : Z) : Prop := 0 <= k < 2 ^ shift.
Definition bucket_of (n : Z) : Z := Z.land (Z.lxor (2 ^ 32 - 1) (u32 n)) (Z.shiftl 1 shift - 1).
Definition in_bucket (k : Z) (l : list ident) : list ident := filter (fun i => bucket_of (id_fd i) = k) l.
Definition the_table (l : rwlock) : lookup_table :=
  {| EntryCountShift := shift; TableName := "Finesse"; TableLock := l; Hash := default_hash; KeySize := 4 |}.

Record ident_ok (i : ident) : Prop := {
  io_int : is_int (id_fd i);
  io_null : at_ i <> NULL;
  io_head k : is_index k -> at_ i <> bucket_head T k }.

(** The entries in the buckets, in the order of their insertion; nothing else
    is allocated. *)
Record laid (l : list ident) (h : heap) (E : gmap ptr lookup_table_entry) : Prop := {
  la_list k : is_index k -> is_list h (bucket_head T k) (at_ <$> in_bucket k l);
  la_entry i : i ∈ l -> E !! at_ i = Some (entry_of i);
  la_entries p : is_Some (E !! p) -> p ∈ at_ <$> l;
  la_links p : is_Some (h !! p) -> p ∈ at_ <$> l \/ exists k, is_index k /\ p = bucket_head T k;
  la_ok : Forall ident_ok l;
  la_apart : NoDup (at_ <$> l);
  la_unique : NoDup (id_fd <$> l) }.

Definition shape (lock : rwlock) (l : list ident) (m : memory) : Prop :=
  tables m = {[T := the_table lock]} /\ laid l (links m) (entries m).

Lemma bucket_index n : is_index (bucket_of n).
Proof.
  unfold is_index, bucket_of. replace (Z.shiftl 1 shift - 1) with (Z.ones shift).
  - rewrite Z.land_ones by lia. apply Z.mod_pos_bound. lia.
  - rewrite Z.ones_equiv, Z.shiftl_1_l. lia.
Qed.

Lemma lookup_table_hash_run lock n m :
  tables m !! T = Some (the_table lock) -> lookup_table_hash T (int_bytes n) m = Done (bucket_of n, m).
Proof.
  intros Ht. unfold lookup_table_hash. run_step ltac:(by apply fdtable_run).
  unfold on_outcome. cbn [Hash KeySize the_table EntryCountShift]. unfold mbind, M_bind. by rewrite default_hash_int.
Qed.

Lemma elem_in_bucket i k l : i ∈ in_bucket k l <-> bucket_of (id_fd i) = k /\ i ∈ l.
Proof. unfold in_bucket. by rewrite list_elem_of_filter. Qed.

(** The walk over a bucket finds the entry of a descriptor. *)
Lemma fd_search_run m hd n js : is_int n ->
  forall a le fuel,
  chain (links m) a (at_ <$> js) hd -> hd ∉ at_ <$> js ->
  (forall i, i ∈ js -> is_int (id_fd i) /\ entries m !! at_ i = Some (entry_of i)) ->
  (length js < fuel)%nat -> nx (links m) a = Some le ->
  search fuel hd le (int_bytes n) 4 m = Done (entry_ptr (by_fd n js), m).
Proof.
  intros Hint. induction js as [|i js IH]; intros a le fuel Hc Hhd He Hf Hle; (destruct fuel as [|fuel]; [simpl in Hf; lia|]); cbn [search]; cbn [fmap list_fmap chain length] in *.
  - destruct Hc as [Hc _]. assert (le = hd) as -> by congruence. by rewrite Z.eqb_refl.
  - destruct Hc as [[Hc _] Hc']. assert (le = at_ i) as -> by congruence.
    apply not_elem_of_cons in Hhd as [Hne Hhd]. rewrite (proj2 (Z.eqb_neq _ _)) by congruence.
    destruct (He i) as [Hii Hei]; [by left|]. run_step ltac:(by apply fdentry_run).
    rewrite !take_int_bytes. cbn [entry_of Key]. rewrite take_int_bytes.
    unfold by_fd. cbn [List.find]. destruct (Z.eqb_spec (id_fd i) n) as [Heq|Hneq].
    + by rewrite bool_decide_true by by rewrite Heq.
    + rewrite bool_decide_false by (intros Hb%int_bytes_inj; congruence).
      destruct (chain_nx (links m) (at_ i) (at_ <$> js) hd (at_ i)) as [x Hx]; [done|by left|].
      rewrite (M_bind_done _ _ _ _ _ (on_links_read _ _ _ (get_next_run _ _ _ Hx))).
      apply (IH (at_ i)); [done|done| |lia|done]. intros j Hj. apply He. by right.
Qed.

Lemma by_fd_bucket n l : by_fd n (in_bucket (bucket_of n) l) = by_fd n l.
Proof. apply find_filter. by intros i ->%Z.eqb_eq. Qed.

Lemma lookup_table_locked_run lock n l m :
  tables m !! T = Some (the_table lock) -> is_int n ->
  is_list (links m) (bucket_head T (bucket_of n)) (at_ <$> in_bucket (bucket_of n) l) ->
  (forall i, i ∈ l -> is_int (id_fd i) /\ entries m !! at_ i = Some (entry_of i)) ->
  lookup_table_locked T (int_bytes n) m = Done (entry_ptr (by_fd n l), m).
Proof.
  intros Ht Hn Hl He. unfold lookup_table_locked. rewrite (M_bind_done _ _ _ _ _ (lookup_table_hash_run _ _ _ Ht)).
  run_step ltac:(by apply fdtable_run). pose proof (is_list_length _ _ _ Hl) as Hlen. rewrite length_fmap in Hlen.
  destruct Hl as [[Hhd _]%NoDup_cons Hc]. destruct (chain_nx _ _ _ _ (bucket_head T (bucket_of n)) Hc) as [x Hx]; [by left|].
  rewrite (M_bind_done _ _ _ _ _ (on_links_read _ _ _ (get_next_run _ _ _ Hx))). rewrite get_state_bind. cbn [KeySize the_table].
  rewrite <- by_fd_bucket. eapply fd_search_run; [done|exact Hc|done| |lia|done].
  intros i [_ Hi]%elem_in_bucket. by apply He.
Qed.
(** ** The table with another lock *)

Lemma lock_step l l' m : tables m = {[T := the_table l]} ->
  set_lock T l' m = Done (tt, set_tables <[T := the_table l']> m).
Proof. intros Ht. rewrite (set_lock_run T l' (the_table l)); [done|]. rewrite Ht. apply lookup_singleton_eq. Qed.

Lemma the_table_at l m : tables m = {[T := the_table l]} -> tables m !! T = Some (the_table l).
Proof. intros ->. apply lookup_singleton_eq. Qed.

Lemma set_tables_insert l l' m : tables m = {[T := the_table l]} -> set_tables <[T := the_table l']> m = set_tables (fun _ => {[T := the_table l']}) m.
Proof. intros Ht. unfold set_tables. rewrite Ht. f_equal. apply insert_singleton_eq. Qed.

Lemma wrlock_run m : tables m = {[T := the_table Unlocked]} ->
  pthread_rwlock_wrlock T m = Done (tt, set_tables (fun _ => {[T := the_table WriteLocked]}) m).
Proof.
  intros Ht. unfold pthread_rwlock_wrlock. run_step ltac:(by apply fdtable_run, the_table_at). cbn [TableLock the_table].
  by rewrite (lock_step Unlocked), (set_tables_insert Unlocked).
Qed.

Lemma rdlock_run m : tables m = {[T := the_table Unlocked]} ->
  pthread_rwlock_rdlock T m = Done (tt, set_tables (fun _ => {[T := the_table (ReadLocked 0)]}) m).
Proof.
  intros Ht. unfold pthread_rwlock_rdlock. run_step ltac:(by apply fdtable_run, the_table_at). cbn [TableLock the_table].
  by rewrite (lock_step Unlocked), (set_tables_insert Unlocked).
Qed.

Lemma fd_unlock_run l m : tables m = {[T := the_table l]} -> l = WriteLocked \/ l = ReadLocked 0 ->
  pthread_rwlock_unlock T m = Done (tt, set_tables (fun _ => {[T := the_table Unlocked]}) m).
Proof.
  intros Ht Hl. unfold pthread_rwlock_unlock. run_step ltac:(by apply fdtable_run, the_table_at). cbn [TableLock the_table].
  rewrite <- (set_tables_insert l) by done. by destruct Hl as [-> | ->]; eapply lock_step.
Qed.

Lemma set_tables_back m t : tables m = t -> forall u, set_tables (fun _ => t) (set_tables (fun _ => u) m) = m.
Proof. intros <- u. by destruct m. Qed.

(** ** Lookups *)

Lemma locked_search lock l n m : tables m = {[T := the_table lock]} -> is_int n ->
  laid l (links m) (entries m) -> lookup_table_locked T (int_bytes n) m = Done (entry_ptr (by_fd n l), m).
Proof.
  intros Ht Hn Hl. eapply lookup_table_locked_run; [by apply the_table_at|done|exact (la_list _ _ _ Hl _ (bucket_index _))|].
  intros i Hi. split; [|by apply (la_entry _ _ _ Hl)]. pose proof (la_ok _ _ _ Hl) as Hok. rewrite Forall_forall in Hok. by apply io_int, Hok.
Qed.

Lemma by_fd_at l h E n i : laid l h E -> by_fd n l = Some i -> i ∈ l /\ id_fd i = n /\ at_ i <> NULL.
Proof.
  intros Hl [Hi Hn%Z.eqb_eq]%find_elem. split_and!; [done..|]. pose proof (la_ok _ _ _ Hl) as Hok.
  rewrite Forall_forall in Hok. by apply io_null, Hok.
Qed.

Lemma by_fd_spec l h E n i : laid l h E -> by_fd n l = Some i <-> i ∈ l /\ id_fd i = n.
Proof.
  intros Hl. split; [by intros (? & ? & _)%(by_fd_at l h E)|]. intros [Hi Hn].
  eapply (find_unique id_fd); [|exact (la_unique _ _ _ Hl)|done|exact Hn]. intros j. apply Z.eqb_eq.
Qed.

Definition answer (o : option ident) : Z * ptr := match o with Some i => (0, id_state i) | None => (ENODATA, NULL) end.

Lemma lookup_table_lookup_run l n m : shape Unlocked l m -> is_int n ->
  lookup_table_lookup T (int_bytes n) m = Done (answer (by_fd n l), m).
Proof.
  intros [Ht Hl] Hn. unfold lookup_table_lookup. rewrite (M_bind_done _ _ _ _ _ (rdlock_run _ Ht)).
  set (m1 := set_tables _ m). assert (laid l (links m1) (entries m1)) as Hl1 by done.
  rewrite (M_bind_done _ _ _ _ _ (locked_search (ReadLocked 0) l n m1 eq_refl Hn Hl1)).
  rewrite (M_bind_done _ _ _ _ _ (fd_unlock_run (ReadLocked 0) m1 eq_refl (or_intror eq_refl))).
  unfold m1. rewrite (set_tables_back m _ Ht).
  destruct (by_fd n l) as [i|] eqn:Hi; cbn [entry_ptr]; [|done]. destruct (by_fd_at _ _ _ _ _ Hl Hi) as (Hil & _ & Hnn).
  rewrite (proj2 (Z.eqb_neq _ _)) by done. cbn [negb]. run_step ltac:(by eapply fdentry_run, (la_entry _ _ _ Hl)). done.
Qed.

(** ** Insertions *)

Lemma in_bucket_snoc k l i : in_bucket k (l ++ [i]) = in_bucket k l ++ (if decide (bucket_of (id_fd i) = k) then [i] else []).
Proof. unfold in_bucket. rewrite filter_app, filter_cons, filter_nil. by case_decide. Qed.

Lemma by_fd_None l n : by_fd n l = None -> n ∉ id_fd <$> l.
Proof.
  intros Hn (i & -> & Hi)%list_elem_of_fmap. apply (find_absent _ _ Hn) in Hi. by rewrite Z.eqb_refl in Hi.
Qed.

Definition blank : list_entry := {| next := NULL; prev := NULL |}.

Lemma fresh_at l h E p : laid l h E -> h !! p = None -> p ∉ at_ <$> l /\ forall k, is_index k -> p <> bucket_head T k.
Proof.
  intros Hl Hp. split.
  - intros (i & -> & Hi)%list_elem_of_fmap.
    assert (at_ i ∈ bucket_head T (bucket_of (id_fd i)) :: (at_ <$> in_bucket (bucket_of (id_fd i)) l)) as Hin.
    { right. apply list_elem_of_fmap. exists i. split; [done|]. by apply elem_in_bucket. }
    destruct (is_list_cells _ _ _ _ (la_list _ _ _ Hl _ (bucket_index _)) Hin) as [x Hx]. congruence.
  - intros k Hk ->. destruct (is_list_cells _ _ _ (bucket_head T k) (la_list _ _ _ Hl k Hk)) as [x Hx]; [by left|]. congruence.
Qed.

Lemma head_inj k k' : bucket_head T k = bucket_head T k' -> k = k'.
Proof. unfold bucket_head. lia. Qed.

(** What an operation on a bucket keeps of another one. *)
Lemma other_bucket_apart l h E k k' x : laid l h E -> is_index k -> is_index k' -> k <> k' ->
  x ∈ bucket_head T k :: (at_ <$> in_bucket k l) -> x ∉ bucket_head T k' :: (at_ <$> in_bucket k' l).
Proof.
  intros Hl Hk Hk' Hne Hx Hx'. pose proof (la_ok _ _ _ Hl) as Hok. rewrite Forall_forall in Hok.
  apply elem_of_cons in Hx as [-> | (i & -> & [Hi Hil]%elem_in_bucket)%list_elem_of_fmap];
    apply elem_of_cons in Hx' as [Hx' | (j & Hx' & [Hj Hjl]%elem_in_bucket)%list_elem_of_fmap].
  - by apply Hne, head_inj.
  - by apply (io_head j (Hok j Hjl) k).
  - by apply (io_head i (Hok i Hil) k').
  - assert (i = j) as -> by (eapply (NoDup_fmap_inj_elem at_); [exact (la_apart _ _ _ Hl)|done..]). congruence.
Qed.

Lemma laid_insert l h E i : laid l h E -> ident_ok i -> h !! at_ i = None -> id_fd i ∉ id_fd <$> l ->
  let hd := bucket_head T (bucket_of (id_fd i)) in
  exists h', list_insert_tail hd (at_ i) (<[at_ i := blank]> h) = Done (tt, h') /\ laid (l ++ [i]) h' (<[at_ i := entry_of i]> E).
Proof.
  intros Hl Hi Hfresh Hfd hd. set (k := bucket_of (id_fd i)) in *.
  destruct (fresh_at _ _ _ _ Hl Hfresh) as [Hni Hnh].
  assert (at_ i ∉ hd :: (at_ <$> in_bucket k l)) as Hnin.
  { apply not_elem_of_cons. split; [by apply Hnh, bucket_index|]. intros (j & Hj & [_ ?]%elem_in_bucket)%list_elem_of_fmap.
    apply Hni, list_elem_of_fmap. eauto. }
  assert (forall k', is_index k' -> is_list (<[at_ i := blank]> h) (bucket_head T k') (at_ <$> in_bucket k' l)) as Hlists.
  { intros k' Hk'. eapply is_list_agree, (la_list _ _ _ Hl k' Hk'). intros x Hx. apply lookup_insert_ne. intros <-.
    apply elem_of_cons in Hx as [Hx | (j & Hx & [_ Hj]%elem_in_bucket)%list_elem_of_fmap]; [by apply (Hnh k')|].
    apply Hni, list_elem_of_fmap. eauto. }
  destruct (list_insert_tail_spec (<[at_ i := blank]> h) hd (at_ <$> in_bucket k l) (at_ i)) as (h' & Hrun & Hlist & Hsame);
    [by apply Hlists, bucket_index|done|rewrite lookup_insert_eq; eauto|].
  exists h'. split; [done|]. split.
  - intros k' Hk'. rewrite in_bucket_snoc. fold k. case_decide as Hkk.
    + subst k'. by rewrite fmap_app.
    + rewrite app_nil_r. eapply is_list_frame; [exact Hsame| |by apply Hlists]. intros x Hx.
      assert (x ∉ hd :: (at_ <$> in_bucket k l)) as Hx' by (eapply other_bucket_apart; [done..|apply bucket_index|done|done]).
      assert (x <> at_ i); [|set_solver]. intros ->.
      apply elem_of_cons in Hx as [Hx | (j & Hx & [_ Hj]%elem_in_bucket)%list_elem_of_fmap]; [by apply (Hnh k')|].
      apply Hni, list_elem_of_fmap. eauto.
  - intros j [Hj| ->%list_elem_of_singleton]%elem_of_app; [|apply lookup_insert_eq].
    rewrite lookup_insert_ne; [by apply (la_entry _ _ _ Hl)|]. intros He. apply Hni, list_elem_of_fmap. eauto.
  - intros p Hp. rewrite fmap_app, elem_of_app. destruct (decide (p = at_ i)) as [->|Hne]; [right; set_solver|].
    rewrite lookup_insert_ne in Hp by done. left. by apply (la_entries _ _ _ Hl).
  - intros p Hp. rewrite fmap_app, elem_of_app. destruct (decide (p ∈ hd :: at_ i :: (at_ <$> in_bucket k l))) as [Hin|Hnot].
    + apply elem_of_cons in Hin as [-> | [-> | (j & -> & [_ Hj]%elem_in_bucket)%list_elem_of_fmap]%elem_of_cons].
      * right. exists k. split; [apply bucket_index|done].
      * left. right. set_solver.
      * left. left. apply list_elem_of_fmap. eauto.
    + rewrite Hsame in Hp by done. rewrite lookup_insert_ne in Hp by set_solver.
      destruct (la_links _ _ _ Hl p Hp); [by left; left|by right].
  - apply Forall_app. split; [exact (la_ok _ _ _ Hl)|by apply Forall_singleton].
  - rewrite fmap_app. apply NoDup_app. split; [exact (la_apart _ _ _ Hl)|]. split; [|apply NoDup_singleton].
    intros x Hx ->%list_elem_of_singleton. done.
  - rewrite fmap_app. apply NoDup_app. split; [exact (la_unique _ _ _ Hl)|]. split; [|apply NoDup_singleton].
    intros x Hx ->%list_elem_of_singleton. done.
Qed.

(** The descriptor is new, memory for the entry may be missing. *)
Definition can_insert (i : ident) (m : memory) : Prop :=
  at_ i <> NULL -> links m !! at_ i = None /\ entries m !! at_ i = None.

Lemma destroy_run e x m : entries m !! e = Some x ->
  lookup_table_entry_destroy e m = Done (tt, set_entries (delete e) (set_links (delete e (links m)) m)).
Proof. intros He. unfold lookup_table_entry_destroy. by run_step ltac:(by eapply fdentry_run). Qed.

Definition created (i : ident) (m : memory) : memory :=
  set_entries <[at_ i := entry_of i]> (set_links (<[at_ i := blank]> (links m)) m).

Lemma entry_create_run i m : at_ i <> NULL ->
  lookup_table_entry_create (int_bytes (id_fd i)) 4 (id_state i) (at_ i) m = Done (at_ i, created i m).
Proof.
  intros Hn. unfold lookup_table_entry_create. rewrite (proj2 (Z.eqb_neq _ _)) by done.
  rewrite get_state_bind, modify_bind, modify_bind, take_int_bytes. done.
Qed.

Lemma insert_no_memory l i m : shape Unlocked l m -> at_ i = NULL ->
  lookup_table_insert T (int_bytes (id_fd i)) (id_state i) (at_ i) m = Done (ENOMEM, m).
Proof.
  intros [Ht _] ->. unfold lookup_table_insert. run_step ltac:(by apply fdtable_run, the_table_at).
  cbn [KeySize the_table]. unfold lookup_table_entry_create. change (NULL =? NULL) with true. cbv beta iota. rewrite mret_bind.
  by rewrite (M_bind_done _ _ _ _ _ (lookup_table_hash_run _ _ _ (the_table_at _ _ Ht))).
Qed.

(** The walk before the entry is on its list. *)
Lemma created_search lock l i n m : laid l (links m) (entries m) -> links m !! at_ i = None -> is_int n ->
  tables m = {[T := the_table lock]} ->
  lookup_table_locked T (int_bytes n) (created i m) = Done (entry_ptr (by_fd n l), created i m).
Proof.
  intros Hl Hfresh Hn Ht. destruct (fresh_at _ _ _ _ Hl Hfresh) as [Hni Hnh].
  eapply lookup_table_locked_run; [by apply the_table_at|done| |].
  - eapply is_list_agree, (la_list _ _ _ Hl _ (bucket_index n)). intros x Hx. apply lookup_insert_ne. intros <-.
    apply elem_of_cons in Hx as [Hx | (j & Hx & [_ Hj]%elem_in_bucket)%list_elem_of_fmap].
    + by apply (Hnh (bucket_of n) (bucket_index n)).
    + apply Hni, list_elem_of_fmap. eauto.
  - intros j Hj. pose proof (la_ok _ _ _ Hl) as Hok. rewrite Forall_forall in Hok. split; [by apply io_int, Hok|].
    cbn. rewrite lookup_insert_ne; [by apply (la_entry _ _ _ Hl)|]. intros He. apply Hni, list_elem_of_fmap. eauto.
Qed.

Lemma insert_exists l i m : shape Unlocked l m -> at_ i <> NULL -> can_insert i m -> is_int (id_fd i) -> id_fd i ∈ id_fd <$> l ->
  lookup_table_insert T (int_bytes (id_fd i)) (id_state i) (at_ i) m = Done (EEXIST, m).
Proof.
  intros [Ht Hl] Hnn Hcan Hint (j & Hij & Hj)%list_elem_of_fmap. destruct (Hcan Hnn) as [Hf1 Hf2].
  assert (by_fd (id_fd i) l = Some j) as Hby by by apply (by_fd_spec _ _ _ _ _ Hl).
  destruct (by_fd_at _ _ _ _ _ Hl Hby) as (_ & _ & Hjn).
  unfold lookup_table_insert. run_step ltac:(by apply fdtable_run, the_table_at). cbn [KeySize the_table].
  rewrite (M_bind_done _ _ _ _ _ (entry_create_run i m Hnn)).
  rewrite (M_bind_done _ _ _ _ _ (lookup_table_hash_run Unlocked _ (created i m) (the_table_at _ _ Ht))).
  rewrite (proj2 (Z.eqb_neq _ _)) by done. rewrite (M_bind_done _ _ _ _ _ (wrlock_run (created i m) Ht)).
  change (set_tables ?f (created i m)) with (created i (set_tables f m)). set (m1 := set_tables _ m).
  rewrite (M_bind_done _ _ _ _ _ (created_search WriteLocked l i (id_fd i) m1 Hl Hf1 Hint eq_refl)). rewrite Hby. cbn [entry_ptr].
  rewrite (proj2 (Z.eqb_neq _ _)) by done. cbn [negb]. rewrite mret_bind.
  rewrite (M_bind_done _ _ _ _ _ (fd_unlock_run WriteLocked (created i m1) eq_refl (or_introl eq_refl))).
  change (set_tables ?f (created i m1)) with (created i (set_tables f m1)). unfold m1. rewrite (set_tables_back m _ Ht).
  change (negb (0 =? EEXIST)) with true. cbv beta iota.
  rewrite (M_bind_done _ _ _ _ _ (destroy_run (at_ i) (entry_of i) (created i m) (lookup_insert_eq _ _ _))).
  cbn. do 2 f_equal. unfold set_entries, set_links, created; cbn. rewrite !delete_insert_id by done. by destruct m.
Qed.

Lemma insert_done l i m : shape Unlocked l m -> can_insert i m -> ident_ok i -> id_fd i ∉ id_fd <$> l ->
  exists m', lookup_table_insert T (int_bytes (id_fd i)) (id_state i) (at_ i) m = Done (0, m') /\
    shape Unlocked (l ++ [i]) m' /\ states m' = states m /\ fd_lookup_table m' = fd_lookup_table m.
Proof.
  intros [Ht Hl] Hcan Hi Hfd. pose proof (io_null _ Hi) as Hnn. destruct (Hcan Hnn) as [Hf1 Hf2].
  destruct (laid_insert _ _ _ _ Hl Hi Hf1 Hfd) as (h' & Hrun & Hl').
  exists (set_links h' (created i m)). split; [|by split].
  unfold lookup_table_insert. run_step ltac:(by apply fdtable_run, the_table_at). cbn [KeySize the_table].
  rewrite (M_bind_done _ _ _ _ _ (entry_create_run i m Hnn)).
  rewrite (M_bind_done _ _ _ _ _ (lookup_table_hash_run Unlocked _ (created i m) (the_table_at _ _ Ht))).
  rewrite (proj2 (Z.eqb_neq _ _)) by done. rewrite (M_bind_done _ _ _ _ _ (wrlock_run (created i m) Ht)).
  change (set_tables ?f (created i m)) with (created i (set_tables f m)). set (m1 := set_tables _ m).
  rewrite (M_bind_done _ _ _ _ _ (created_search WriteLocked l i (id_fd i) m1 Hl Hf1 (io_int _ Hi) eq_refl)).
  assert (by_fd (id_fd i) l = None) as ->.
  { apply find_none. intros j Hj. apply Z.eqb_neq. intros He. apply Hfd, list_elem_of_fmap. eauto. }
  cbn [entry_ptr]. change (negb (NULL =? NULL)) with false. cbv beta iota.
  rewrite M_assoc. rewrite (M_bind_done _ _ _ _ _ (on_links_run _ _ _ (created i m1) Hrun)). rewrite mret_bind.
  rewrite (M_bind_done _ _ _ _ _ (fd_unlock_run WriteLocked (set_links h' (created i m1)) eq_refl (or_introl eq_refl))).
  change (negb (0 =? 0)) with false. cbv beta iota.
  change (set_tables ?f (set_links h' (created i m1))) with (set_links h' (created i (set_tables f m1))).
  unfold m1. by rewrite (set_tables_back m _ Ht).
Qed.

(** ** Removals *)

Lemma elem_without i j l : j ∈ without i l <-> at_ j <> at_ i /\ j ∈ l.
Proof. unfold without. by rewrite list_elem_of_filter. Qed.

Lemma in_bucket_without k i l : in_bucket k (without i l) = without i (in_bucket k l).
Proof. unfold in_bucket, without. rewrite !list_filter_filter. apply list_filter_iff. tauto. Qed.

Lemma at_without i l : at_ <$> without i l = remove_first (at_ i) (at_ <$> l).
Proof.
  unfold without, remove_first. induction l as [|j l IH]; [done|]. rewrite fmap_cons, !filter_cons.
  by repeat case_decide; rewrite ?fmap_cons, IH.
Qed.

Lemma without_other i k l : bucket_of (id_fd i) <> k -> NoDup (at_ <$> l) -> i ∈ l -> in_bucket k (without i l) = in_bucket k l.
Proof.
  intros Hk Hnd Hi. rewrite in_bucket_without. unfold without.
  assert (forall j, j ∈ in_bucket k l -> at_ j <> at_ i) as Hj.
  { intros j [Hj Hjl]%elem_in_bucket He. apply Hk. by rewrite <- (NoDup_fmap_inj_elem at_ l j i). }
  by apply filter_all.
Qed.

(** Entry [i] is taken off its list and freed. *)
Lemma laid_remove l h E i : laid l h E -> i ∈ l ->
  exists h', list_remove (at_ i) h = Done (tt, h') /\ laid (without i l) (delete (at_ i) h') (delete (at_ i) E).
Proof.
  intros Hl Hi. set (k := bucket_of (id_fd i)). set (hd := bucket_head T k).
  pose proof (la_list _ _ _ Hl k (bucket_index _)) as Hlist. fold hd in Hlist.
  assert (at_ i ∈ at_ <$> in_bucket k l) as Hin by (apply list_elem_of_fmap; exists i; split; [done|by apply elem_in_bucket]).
  apply list_elem_of_split in Hin as (l1 & l2 & Heq). rewrite Heq in Hlist.
  destruct (list_remove_spec h hd l1 (at_ i) l2 Hlist) as (h' & Hrun & Hlist' & Hsame).
  destruct (is_list_around _ _ _ _ _ Hlist) as (_ & _ & _ & _ & Hnd & Hne).
  pose proof (la_ok _ _ _ Hl) as Hok. rewrite Forall_forall in Hok.
  assert (forall x, x ∈ hd :: l1 ++ l2 <-> x <> at_ i /\ x ∈ hd :: (at_ <$> in_bucket k l)) as Hcells.
  { intros x. rewrite Heq. split; [|set_solver]. intros Hx. split; [by intros ->|set_solver]. }
  exists h'. split; [done|]. split.
  - intros k' Hk'. destruct (decide (k' = k)) as [->|Hkk].
    + rewrite in_bucket_without, at_without, Heq, remove_first_mid by set_solver.
      eapply is_list_agree, Hlist'. intros x Hx. apply lookup_delete_ne. by intros <-.
    + rewrite without_other; [|by intros He; apply Hkk; rewrite <- He|exact (la_apart _ _ _ Hl)|done].
      assert (forall x, x ∈ bucket_head T k' :: (at_ <$> in_bucket k' l) -> x ∉ hd :: (at_ <$> in_bucket k l)) as Hap.
      { intros x Hx. by eapply (other_bucket_apart l h E k' k); [..|apply bucket_index|done|]. }
      assert (at_ i ∈ hd :: (at_ <$> in_bucket k l)) as Hik by (rewrite Heq; set_solver).
      eapply is_list_agree; [|eapply is_list_frame; [exact Hsame| |exact (la_list _ _ _ Hl k' Hk')]].
      * intros x Hx. apply lookup_delete_ne. intros <-. by apply (Hap (at_ i)).
      * intros x Hx Hx'. apply (Hap x Hx). apply elem_of_cons in Hx' as [-> | [-> | Hx']%elem_of_cons]; [by left|done|].
        apply Hcells. by right.
  - intros j [Hj Hjl]%elem_without. rewrite lookup_delete_ne by done. by apply (la_entry _ _ _ Hl).
  - intros p Hp. rewrite at_without. destruct (decide (p = at_ i)) as [->|Hpi]; [by rewrite lookup_delete_eq in Hp; destruct Hp|].
    rewrite lookup_delete_ne in Hp by done. unfold remove_first. rewrite list_elem_of_filter. split; [done|]. by apply (la_entries _ _ _ Hl).
  - intros p Hp. rewrite at_without. destruct (decide (p = at_ i)) as [->|Hpi]; [by rewrite lookup_delete_eq in Hp; destruct Hp|].
    rewrite lookup_delete_ne in Hp by done.
    assert (is_Some (h !! p)) as Hph.
    { destruct (decide (p ∈ hd :: l1 ++ l2)) as [Hpin|Hpn].
      - apply Hcells in Hpin as [_ Hpin]. apply (is_list_cells _ hd (at_ <$> in_bucket k l)); [by rewrite Heq|done].
      - rewrite <- (Hsame p); [done|]. set_solver. }
    destruct (la_links _ _ _ Hl p Hph) as [Hpl|Hpk]; [left|by right].
    unfold remove_first. by rewrite list_elem_of_filter.
  - apply Forall_forall. intros j [_ Hj]%elem_without. by apply Hok.
  - eapply sublist_NoDup; [exact (la_apart _ _ _ Hl)|]. apply fmap_sublist, sublist_filter.
  - eapply sublist_NoDup; [exact (la_unique _ _ _ Hl)|]. apply fmap_sublist, sublist_filter.
Qed.

Lemma remove_absent l n m : shape Unlocked l m -> is_int n -> by_fd n l = None ->
  lookup_table_remove T (int_bytes n) m = Done (ENODATA, m).
Proof.
  intros [Ht Hl] Hn Hby. unfold lookup_table_remove. rewrite (M_bind_done _ _ _ _ _ (wrlock_run _ Ht)).
  set (m1 := set_tables _ m). assert (laid l (links m1) (entries m1)) as Hl1 by done.
  rewrite (M_bind_done _ _ _ _ _ (locked_search WriteLocked l n m1 eq_refl Hn Hl1)), Hby.
  cbn [entry_ptr]. change (negb (NULL =? NULL)) with false. cbv beta iota. rewrite mret_bind.
  rewrite (M_bind_done _ _ _ _ _ (fd_unlock_run WriteLocked m1 eq_refl (or_introl eq_refl))).
  unfold m1. by rewrite (set_tables_back m _ Ht).
Qed.

Lemma remove_found l n i m : shape Unlocked l m -> is_int n -> by_fd n l = Some i ->
  exists m', lookup_table_remove T (int_bytes n) m = Done (0, m') /\
    shape Unlocked (without i l) m' /\ states m' = states m /\ fd_lookup_table m' = fd_lookup_table m.
Proof.
  intros [Ht Hl] Hn Hby. destruct (by_fd_at _ _ _ _ _ Hl Hby) as (Hi & _ & Hnn).
  destruct (laid_remove _ _ _ _ Hl Hi) as (h' & Hrun & Hl').
  exists (set_entries (delete (at_ i)) (set_links (delete (at_ i) h') m)). split; [|by split].
  unfold lookup_table_remove. rewrite (M_bind_done _ _ _ _ _ (wrlock_run _ Ht)).
  set (m1 := set_tables _ m). assert (laid l (links m1) (entries m1)) as Hl1 by done.
  rewrite (M_bind_done _ _ _ _ _ (locked_search WriteLocked l n m1 eq_refl Hn Hl1)), Hby.
  cbn [entry_ptr]. rewrite (proj2 (Z.eqb_neq _ _)) by done. cbn [negb].
  rewrite (M_bind_done _ _ _ _ _ (on_links_run _ _ _ m1 Hrun)).
  rewrite (M_bind_done _ _ _ _ _ (fd_unlock_run WriteLocked (set_links h' m1) eq_refl (or_introl eq_refl))).
  change (set_tables ?f (set_links h' m1)) with (set_links h' (set_tables f m1)).
  unfold m1. rewrite (set_tables_back m _ Ht).
  by rewrite (M_bind_done _ _ _ _ _ (destroy_run (at_ i) (entry_of i) (set_links h' m) (la_entry _ _ _ Hl i Hi))).
Qed.

(** ** Creation and destruction of the table *)

Definition same_rest (m m' : memory) : Prop :=
  tables m' = tables m /\ states m' = states m /\ fd_lookup_table m' = fd_lookup_table m.

Lemma list_is_empty_run p n h : nx h p = Some n -> list_is_empty p h = Done (n =? p, h).
Proof. intros Hn. unfold list_is_empty. by rewrite (M_bind_done _ _ _ _ _ (get_next_run _ _ _ Hn)). Qed.

Lemma fd_drain_run k l : is_index k -> forall fuel m, laid l (links m) (entries m) -> (length (in_bucket k l) < fuel)%nat ->
  exists m', drain fuel (bucket_head T k) m = Done (tt, m') /\
    laid (filter (fun i => bucket_of (id_fd i) <> k) l) (links m') (entries m') /\ same_rest m m'.
Proof.
  intros Hk fuel. revert l. induction fuel as [|fuel IH]; intros l m Hl Hf; [lia|]. cbn [drain].
  pose proof (la_list _ _ _ Hl k Hk) as Hlist. pose proof (is_list_first _ _ _ Hlist) as [Hn _].
  rewrite (M_bind_done _ _ _ _ _ (on_links_read _ _ _ (list_is_empty_run _ _ _ Hn))).
  destruct (in_bucket k l) as [|i js] eqn:Hb; cbn [fmap list_fmap head default] in *.
  - rewrite Z.eqb_refl. exists m. split; [done|]. split; [|by split].
    rewrite filter_all; [done|]. intros i Hi Hik. assert (i ∈ in_bucket k l) as Hin by by apply elem_in_bucket.
    rewrite Hb in Hin. by apply elem_of_nil in Hin.
  - assert (i ∈ in_bucket k l) as [Hik Hi]%elem_in_bucket by (rewrite Hb; by left).
    destruct Hlist as [[Hnin _]%NoDup_cons _].
    rewrite (proj2 (Z.eqb_neq _ _)) by (intros He; apply Hnin; rewrite <- He; by left).
    rewrite (M_bind_done _ _ _ _ _ (on_links_read _ _ _ (get_next_run _ _ _ Hn))).
    destruct (laid_remove _ _ _ _ Hl Hi) as (h' & Hrun & Hl'). rewrite (M_bind_done _ _ _ _ _ (on_links_run _ _ _ m Hrun)).
    rewrite (M_bind_done _ _ _ _ _ (destroy_run (at_ i) (entry_of i) (set_links h' m) (la_entry _ _ _ Hl i Hi))).
    set (m1 := set_entries _ _). destruct (IH (without i l) m1 Hl') as (m' & Hrun' & Hl2 & Hrest).
    { rewrite in_bucket_without, Hb. unfold without. rewrite filter_cons_False by (intros H; by apply H).
      pose proof (length_filter (fun j => at_ j <> at_ i) js). simpl in Hf. lia. }
    exists m'. split; [exact Hrun'|]. split; [|exact Hrest].
    unfold without in Hl2. rewrite filter_weaker in Hl2; [done|]. intros j Hj Hjk He.
    apply Hjk. by rewrite (NoDup_fmap_inj_elem at_ l j i (la_apart _ _ _ Hl) Hj Hi He).
Qed.

Lemma fd_drain_buckets_run n : forall index l m, 0 <= index -> index + Z.of_nat n = 2 ^ shift ->
  (forall i, i ∈ l -> index <= bucket_of (id_fd i)) -> laid l (links m) (entries m) ->
  exists m', drain_buckets T n index m = Done (tt, m') /\ laid [] (links m') (entries m') /\ same_rest m m'.
Proof.
  induction n as [|n IH]; intros index l m H0 Hn Hi Hl; cbn [drain_buckets].
  - exists m. split; [done|]. split; [|by split]. destruct l as [|i l]; [done|].
    pose proof (bucket_index (id_fd i)) as [_ Hb]. specialize (Hi i (list_elem_of_here _ _)). lia.
  - assert (is_index index) as Hidx by (unfold is_index; lia). rewrite get_state_bind.
    pose proof (is_list_length _ _ _ (la_list _ _ _ Hl index Hidx)) as Hlen. rewrite length_fmap in Hlen.
    destruct (fd_drain_run index l Hidx (S (size (links m))) m Hl) as (m1 & Hrun & Hl1 & R1 & R2 & R3); [lia|].
    rewrite (M_bind_done _ _ _ _ _ Hrun).
    destruct (IH (index + 1) (filter (fun i => bucket_of (id_fd i) <> index) l) m1) as (m2 & Hrun2 & Hl2 & R4 & R5 & R6); [lia|lia| |exact Hl1|].
    { intros i [Hne Hil]%list_elem_of_filter. specialize (Hi i Hil). lia. }
    exists m2. split; [done|]. split; [done|]. split_and!; congruence.
Qed.

Lemma free_buckets_None n h p : h !! p = None \/ (exists j, (j < n)%nat /\ p = bucket_head T (Z.of_nat j)) -> free_buckets T n h !! p = None.
Proof.
  induction n as [|n IH]; cbn [free_buckets]; intros Hp.
  { destruct Hp as [|(j & ? & _)]; [done|lia]. }
  destruct (decide (p = bucket_head T (Z.of_nat n))) as [->|Hne]; [apply lookup_delete_eq|].
  rewrite lookup_delete_ne by done. apply IH. destruct Hp as [|(j & Hj & ->)]; [by left|right].
  exists j. split; [|done]. destruct (decide (j = n)); [by subst|lia].
Qed.

Definition without_table (m : memory) : memory :=
  {| links := ∅; entries := ∅; tables := ∅; states := states m; fd_lookup_table := fd_lookup_table m |}.

Lemma lookup_table_destroy_run l m : shape Unlocked l m -> lookup_table_destroy T m = Done (tt, without_table m).
Proof.
  intros [Ht Hl]. unfold lookup_table_destroy. rewrite (M_bind_done _ _ _ _ _ (wrlock_run _ Ht)). set (m1 := set_tables _ m).
  run_step ltac:(by apply fdtable_run, (the_table_at WriteLocked m1)). cbn [EntryCountShift the_table].
  rewrite Z.shiftl_1_l. set (n := Z.to_nat (2 ^ shift)).
  destruct (fd_drain_buckets_run n 0 l m1) as (m2 & Hrun & Hl2 & R1 & R2 & R3); [lia|lia| |exact Hl|].
  { intros i _. by apply bucket_index. }
  rewrite (M_bind_done _ _ _ _ _ Hrun). rewrite (M_bind_done _ _ _ _ _ (fd_unlock_run WriteLocked m2 R1 (or_introl eq_refl))).
  rewrite get_state_bind, modify_bind. unfold modify_state. do 2 f_equal. unfold without_table, set_tables, set_links; cbn.
  rewrite R2, R3. f_equal.
  - apply map_eq. intros p. rewrite lookup_empty. apply free_buckets_None.
    destruct (links m2 !! p) eqn:E; [right|by left]. destruct (la_links _ _ _ Hl2 p) as [Hnil|(k & Hk & ->)]; [eauto|by apply elem_of_nil in Hnil|].
    exists (Z.to_nat k). unfold is_index in Hk. rewrite Z2Nat.id by lia. split; [lia|done].
  - apply map_eq. intros p. rewrite lookup_empty. destruct (entries m2 !! p) eqn:E; [|done].
    assert (is_Some (entries m2 !! p)) as Hnil%(la_entries _ _ _ Hl2) by eauto. by apply elem_of_nil in Hnil.
  - apply delete_singleton_eq.
Qed.

Lemma init_buckets_run n m :
  exists m', init_buckets T n m = Done (tt, m') /\ same_rest m m' /\ entries m' = entries m /\
    (forall j, (j < n)%nat -> links m' !! bucket_head T (Z.of_nat j) =
      Some {| next := bucket_head T (Z.of_nat j); prev := bucket_head T (Z.of_nat j) |}) /\
    (forall p, (forall j, (j < n)%nat -> p <> bucket_head T (Z.of_nat j)) -> links m' !! p = links m !! p).
Proof.
  induction n as [|n (m1 & Hrun & (R1 & R2 & R3) & R4 & Hin & Hout)]; cbn [init_buckets].
  { exists m. split; [done|]. split; [by split|]. split; [done|]. split; [lia|done]. }
  rewrite (M_bind_done _ _ _ _ _ Hrun). set (p := bucket_head T (Z.of_nat n)).
  rewrite (M_bind_done (on_links _) _ m1 tt (set_links (<[p := {| next := NULL; prev := NULL |}]> (links m1)) m1)) by done.
  exists (set_links (<[p := {| next := p; prev := p |}]> (links m1)) m1). split; [|split; [by split|split; [done|split]]].
  - rewrite (on_links_run _ tt (<[p := {| next := p; prev := p |}]> (links m1))); [done|].
    rewrite list_initialize_run by (cbn; rewrite lookup_insert_eq; eauto). cbn. by rewrite insert_insert_eq.
  - intros j Hj. cbn. destruct (decide (j = n)) as [->|Hne]; [apply lookup_insert_eq|].
    rewrite lookup_insert_ne; [apply Hin; lia|]. unfold p. intros He%head_inj. lia.
  - intros q Hq. cbn. rewrite lookup_insert_ne; [apply Hout; intros j Hj; apply Hq; lia|]. intros <-. by apply (Hq n); [lia|].
Qed.

Lemma fd_shape_created m m' : links m = ∅ -> entries m = ∅ -> same_rest (set_tables (fun _ => {[T := the_table Unlocked]}) m) m' -> entries m' = ∅ ->
  (forall j, (j < Z.to_nat (2 ^ shift))%nat -> links m' !! bucket_head T (Z.of_nat j) =
    Some {| next := bucket_head T (Z.of_nat j); prev := bucket_head T (Z.of_nat j) |}) ->
  (forall p, (forall j, (j < Z.to_nat (2 ^ shift))%nat -> p <> bucket_head T (Z.of_nat j)) -> links m' !! p = None) ->
  shape Unlocked [] m'.
Proof.
  intros Hh He (Ht & _ & _) He' Hin Hout. split; [done|]. split.
  - intros k Hk. unfold is_index in Hk. specialize (Hin (Z.to_nat k)). rewrite Z2Nat.id in Hin by lia.
    split; [apply NoDup_singleton|]. cbn. unfold linked, nx, pv. rewrite Hin by lia. done.
  - intros i Hi. by apply elem_of_nil in Hi.
  - intros p [x Hx]. rewrite He' in Hx. by rewrite lookup_empty in Hx.
  - intros p [x Hx]. right.
    destruct (decide (Exists (fun k => p = bucket_head T (Z.of_nat k)) (seq 0 (Z.to_nat (2 ^ shift))))) as [(j & Hj & ->)%Exists_exists|Hno].
    + apply elem_of_seq in Hj. exists (Z.of_nat j). split; [|done]. unfold is_index. lia.
    + rewrite Hout in Hx; [done|]. intros j Hj ->. apply Hno, Exists_exists. exists j. rewrite elem_of_seq. split; [lia|done].
  - by apply Forall_nil.
  - apply NoDup_nil_2.
  - apply NoDup_nil_2.
Qed.

Lemma lookup_table_create_run hint name hash size m : T <> NULL -> links m = ∅ -> entries m = ∅ -> tables m = ∅ ->
  hint_shift 17 (if 65536 <? hint then 65536 else hint) 0 = shift -> String.substring 0 7 name = "Finesse"%string ->
  default default_hash hash = default_hash -> size = 4 ->
  exists m', lookup_table_create hint name hash size T m = Done (T, m') /\ shape Unlocked [] m' /\
    states m' = states m /\ fd_lookup_table m' = fd_lookup_table m.
Proof.
  intros HT Hh He Ht Hshift Hname Hhash ->. unfold lookup_table_create. rewrite Hshift, (proj2 (Z.eqb_neq _ _)), modify_bind by done.
  rewrite Hname, Hhash. fold (the_table Unlocked). rewrite Z.shiftl_1_l.
  destruct (init_buckets_run (Z.to_nat (2 ^ shift)) (set_tables <[T := the_table Unlocked]> m)) as (m' & Hrun & Hrest & He' & Hin & Hout).
  rewrite (M_bind_done _ _ _ _ _ Hrun). exists m'. split; [done|]. destruct Hrest as (R1 & R2 & R3). split; [|by split].
  eapply (fd_shape_created m); [done|done| |by rewrite He'|exact Hin|].
  - split; [|by split]. rewrite R1. cbn. by rewrite Ht.
  - intros p Hp. rewrite Hout by done. cbn. by rewrite Hh, lookup_empty.
Qed.
End Table.
