(* ===== verification/FileSpec.v ===== *)
(** The descriptors of the client library are a map: sequences of the calls
    of FileStates.v, from the creation of the table to its destruction. *)

From stdpp Require Import gmap list strings.
From S2P Require Import Prelude ListEntry ApiList FileStates FileTable.

#[local] Open Scope Z_scope.

(** * What the client library sees

    A program creates the state of a descriptor, looks it up, moves its
    offset and deletes it.  What malloc returns depends on the memory. *)

Class Malloc := { malloc_state : memory -> ptr; malloc_entry : memory -> ptr }.

Class MallocLaws `{Malloc} : Prop := {
  malloc_state_fresh m : malloc_state m <> NULL /\ states m !! malloc_state m = None;
  malloc_entry_fresh m : malloc_entry m <> NULL /\ links m !! malloc_entry m = None /\ entries m !! malloc_entry m = None }.

(** The two flags of [Create] say whether there is memory for the state and
    for the entry. *)
Inductive command : Type :=
  | Create (fd : Z) (client : ptr) (key : Z) (pathname : string) (flags : Z) (for_state for_entry : bool)
  | Lookup (fd : Z)
  | UpdateOffset (fd offset : Z)
  | Delete (fd : Z).

Definition descriptor (c : command) : Z :=
  match c with Create fd _ _ _ _ _ _ | Lookup fd | UpdateOffset fd _ | Delete fd => fd end.

Section Commands.
Context {ML : Malloc}.

Definition content (p : ptr) : M memory (option finesse_file_state) :=
  if p =? NULL then mret None else s ← load_state p; mret (Some s).

Definition run_command (c : command) : M memory (option finesse_file_state) :=
  match c with
  | Create fd client key pathname flags for_state for_entry =>
      m ← get_state;
      p ← finesse_create_file_state fd client key pathname flags
        (if for_state then malloc_state m else NULL) (if for_entry then malloc_entry m else NULL);
      content p
  | Lookup fd => p ← finesse_lookup_file_state fd; content p
  | UpdateOffset fd offset =>
      p ← finesse_lookup_file_state fd;
      if p =? NULL then mret None else finesse_update_offset p offset;; content p
  | Delete fd =>
      p ← finesse_lookup_file_state fd;
      s ← content p;
      (if p =? NULL then mret () else finesse_delete_file_state p);;
      mret s
  end.

Fixpoint run_commands (cs : list command) : M memory (list (option finesse_file_state)) :=
  match cs with
  | [] => mret []
  | c :: cs => a ← run_command c; l ← run_commands cs; mret (a :: l)
  end.
End Commands.

(** ** The map *)

Abbreviation descriptors := (gmap Z finesse_file_state) (only parsing).

Definition spec_command (c : command) (fm : descriptors) : option finesse_file_state * descriptors :=
  match c with
  | Create fd client key pathname flags for_state for_entry =>
      let s := {| fd := fd; key := key; client := client; pathname := pathname; current_offset := 0; flags := flags |} in
      match fm !! fd with
      | None => if for_state && for_entry then (Some s, <[fd := s]> fm) else (None, fm)
      | Some _ => (None, fm)
      end
  | Lookup fd => (fm !! fd, fm)
  | UpdateOffset fd offset => (with_offset offset <$> fm !! fd, alter (with_offset offset) fd fm)
  | Delete fd => (fm !! fd, delete fd fm)
  end.

Fixpoint spec_commands (cs : list command) (fm : descriptors) : list (option finesse_file_state) * descriptors :=
  match cs with
  | [] => ([], fm)
  | c :: cs => let '(a, fm) := spec_command c fm in let '(l, fm) := spec_commands cs fm in (a :: l, fm)
  end.

(** The shift for 4096 buckets. *)
Definition fd_shift : Z := 12.

(** The memory holds the table at [T], whose entries lead to the states of
    [fm], and the states that were [lost] before. *)
Record tracked_by (T : ptr) (l : list ident) (fm : descriptors) (lost : gmap ptr finesse_file_state) (m : memory) : Prop := {
  tr_shape : shape T fd_shift Unlocked l m;
  tr_static : fd_lookup_table m = T;
  tr_states : NoDup (id_state <$> l);
  tr_state i : i ∈ l -> id_state i <> NULL /\ lost !! id_state i = None /\
    exists s, fm !! id_fd i = Some s /\ fd s = id_fd i /\ states m !! id_state i = Some s;
  tr_all n s : fm !! n = Some s -> exists i, i ∈ l /\ id_fd i = n;
  tr_lost p : p ∉ id_state <$> l -> states m !! p = lost !! p }.

Definition tracked T fm lost m : Prop := exists l, tracked_by T l fm lost m.

Definition nothing (lost : gmap ptr finesse_file_state) : memory :=
  {| links := ∅; entries := ∅; tables := ∅; states := lost; fd_lookup_table := NULL |}.

Lemma static_bind {B} (T : ptr) (k : ptr -> M memory B) m : fd_lookup_table m = T -> (gets fd_lookup_table ≫= k) m = k T m.
Proof. by intros <-. Qed.

Section Refinement.
Context {ML : Malloc} {MLL : MallocLaws}.
Variable (T : ptr).
Hypothesis T_not_null : T <> NULL.

Lemma fd_shift_range : 0 <= fd_shift <= 16.
Proof. unfold fd_shift. lia. Qed.

Lemma init_run lost : exists m, finesse_init_file_state_mgr T (nothing lost) = Done (0, m) /\ tracked_by T [] ∅ lost m.
Proof.
  destruct (lookup_table_create_run T fd_shift fd_shift_range 4096 "FinesseFD" None 4 (nothing lost)) as (m & Hrun & Hsh & Hst & _);
    [done..|].
  exists (set_fd_table T m). unfold finesse_init_file_state_mgr. split.
  - rewrite (static_bind NULL) by done.
    change (negb (NULL =? NULL)) with false. cbv beta iota. rewrite (M_bind_done _ _ _ _ _ Hrun).
    by rewrite (proj2 (Z.eqb_neq _ _)).
  - split; [exact Hsh|done|apply NoDup_nil_2|set_solver|done|]. intros p _. cbn. by rewrite Hst.
Qed.

Lemma tracked_fd l fm lost m n : tracked_by T l fm lost m ->
  match by_fd n l with
  | Some i => exists s, fm !! n = Some s /\ fd s = n /\ states m !! id_state i = Some s /\ id_state i <> NULL /\ i ∈ l /\ id_fd i = n
  | None => fm !! n = None
  end.
Proof.
  intros [[_ Hl] _ _ Hstate Hall _]. destruct (by_fd n l) as [i|] eqn:Hby.
  - destruct (by_fd_at _ _ _ _ _ _ _ Hl Hby) as (Hi & <- & _). destruct (Hstate i Hi) as (Hn & _ & s & Hs & Hfd & Hst). eauto 10.
  - destruct (fm !! n) as [s|] eqn:Hs; [|done]. destruct (Hall n s Hs) as (i & Hi & Hn).
    apply (find_absent _ _ Hby) in Hi. by apply Z.eqb_neq in Hi.
Qed.

Definition state_ptr (o : option ident) : ptr := match o with Some i => id_state i | None => NULL end.

Lemma find_state l fm lost m n : tracked_by T l fm lost m -> is_int n ->
  finesse_lookup_file_state n m = Done (state_ptr (by_fd n l), m).
Proof.
  intros Htr Hn. unfold finesse_lookup_file_state. rewrite (static_bind T) by apply Htr. rewrite (proj2 (Z.eqb_neq _ _)) by done.
  rewrite (M_bind_done _ _ _ _ _ (lookup_table_lookup_run T fd_shift fd_shift_range l n m (tr_shape _ _ _ _ _ Htr) Hn)).
  pose proof (tracked_fd _ _ _ _ n Htr) as Hfd. by destruct (by_fd n l) as [i|]; cbn.
Qed.

Lemma load_state_run p s m : states m !! p = Some s -> load_state p m = Done (s, m).
Proof. intros Hs. unfold load_state. rewrite get_state_bind. by rewrite Hs. Qed.

Lemma content_run p s m : p <> NULL -> states m !! p = Some s -> content p m = Done (Some s, m).
Proof.
  intros Hp Hs. unfold content. rewrite (proj2 (Z.eqb_neq _ _)) by done. by rewrite (M_bind_done _ _ _ _ _ (load_state_run _ _ _ Hs)).
Qed.

Lemma content_found l fm lost m n : tracked_by T l fm lost m -> content (state_ptr (by_fd n l)) m = Done (fm !! n, m).
Proof.
  intros Htr. pose proof (tracked_fd _ _ _ _ n Htr) as Hfd. destruct (by_fd n l) as [i|]; cbn [state_ptr].
  - destruct Hfd as (s & -> & _ & Hs & Hn & _). by apply content_run.
  - by rewrite Hfd.
Qed.

(** A state changes in place. *)
Lemma tracked_update l fm lost m i s f : tracked_by T l fm lost m -> i ∈ l -> fm !! id_fd i = Some s -> (forall s, fd (f s) = fd s) ->
  tracked_by T l (alter f (id_fd i) fm) lost (set_states (alter f (id_state i)) m).
Proof.
  intros [Hsh Hst Hnd Hstate Hall Hlost] Hi Hs Hf. split; [done..| | |].
  - intros j Hj. destruct (Hstate j Hj) as (Hn & Hnl & sj & Hsj & Hfd & Hm). split; [done|]. split; [done|].
    cbn. destruct (decide (j = i)) as [->|Hne].
    + exists (f sj). rewrite !lookup_alter_eq, Hsj, Hm, Hf. done.
    + exists sj. rewrite !lookup_alter_ne; [done|..]; intros He; apply Hne.
      * by apply (NoDup_fmap_inj_elem id_state l).
      * apply (NoDup_fmap_inj_elem id_fd l); [|done..]. by destruct Hsh as [_ [ ]].
  - intros n s' Hn. rewrite lookup_alter in Hn. case_decide; [subst; eauto|]. by eapply Hall.
  - intros p Hp. cbn. rewrite lookup_alter_ne; [by apply Hlost|]. intros <-. apply Hp, list_elem_of_fmap. eauto.
Qed.

(** A new entry for a new state. *)
Lemma tracked_create l fm lost m i s m' : tracked_by T l fm lost m -> fm !! id_fd i = None -> fd s = id_fd i ->
  id_state i <> NULL -> states m !! id_state i = None -> shape T fd_shift Unlocked (l ++ [i]) m' ->
  states m' = <[id_state i := s]> (states m) -> fd_lookup_table m' = fd_lookup_table m ->
  tracked_by T (l ++ [i]) (<[id_fd i := s]> fm) lost m'.
Proof.
  intros [_ Hst Hnd Hstate Hall Hlost] Hnew Hs Hn Hfree Hsh' Hst' Htab.
  assert (forall j, j ∈ l -> id_state j <> id_state i /\ id_fd j <> id_fd i) as Hne.
  { intros j Hj. destruct (Hstate j Hj) as (_ & _ & sj & Hsj & _ & Hm). split; intros He; congruence. }
  assert (id_state i ∉ id_state <$> l) as Hni by (intros (j & Hj & [Hx _]%Hne)%list_elem_of_fmap; congruence).
  split; [done|congruence| | | |].
  - rewrite fmap_app. apply NoDup_app. split; [done|]. split; [|apply NoDup_singleton]. intros x Hx ->%list_elem_of_singleton. done.
  - intros j [Hj| ->%list_elem_of_singleton]%elem_of_app; rewrite Hst'.
    + destruct (Hne j Hj). rewrite !lookup_insert_ne by congruence. by apply Hstate.
    + split; [done|]. split; [by rewrite <- Hlost|]. exists s. by rewrite !lookup_insert_eq.
  - intros n x Hx. rewrite lookup_insert in Hx. case_decide as He.
    + exists i. rewrite elem_of_app. split; [right; by left|done].
    + destruct (Hall n x Hx) as (j & Hj & Hjn). exists j. rewrite elem_of_app. eauto.
  - intros p. rewrite fmap_app, not_elem_of_app. intros [Hp Hpi]. rewrite Hst', lookup_insert_ne; [by apply Hlost|].
    intros <-. apply Hpi. by left.
Qed.

Lemma tracked_delete l fm lost m i m' : tracked_by T l fm lost m -> i ∈ l -> shape T fd_shift Unlocked (without i l) m' ->
  states m' = delete (id_state i) (states m) -> fd_lookup_table m' = fd_lookup_table m ->
  tracked_by T (without i l) (delete (id_fd i) fm) lost m'.
Proof.
  intros [[_ Hl] Hst Hnd Hstate Hall Hlost] Hi Hsh' Hst' Htab.
  assert (forall j, j ∈ l -> at_ j <> at_ i -> id_state j <> id_state i /\ id_fd j <> id_fd i) as Hne.
  { intros j Hj Hji. split; intros He; apply Hji; f_equal.
    - by apply (NoDup_fmap_inj_elem id_state l).
    - apply (NoDup_fmap_inj_elem id_fd l); [exact (la_unique _ _ _ _ _ Hl)|done..]. }
  split; [done|congruence| | | |].
  - eapply sublist_NoDup; [exact Hnd|]. apply fmap_sublist, sublist_filter.
  - intros j [Hji Hj]%elem_without. destruct (Hne j Hj Hji). rewrite Hst', !lookup_delete_ne by congruence. by apply Hstate.
  - intros n x [Hni Hx]%lookup_delete_Some. destruct (Hall n x Hx) as (j & Hj & Hjn). exists j. split; [|done].
    apply elem_without. split; [|done]. intros He. apply Hni. rewrite <- Hjn.
    by rewrite (NoDup_fmap_inj_elem at_ l j i (la_apart _ _ _ _ _ Hl) Hj Hi He).
  - intros p Hp. rewrite Hst'. destruct (decide (p = id_state i)) as [->|Hpi].
    + rewrite lookup_delete_eq. symmetry. by apply Hstate.
    + rewrite lookup_delete_ne by done. apply Hlost. intros (j & -> & Hj)%list_elem_of_fmap. apply Hp, list_elem_of_fmap.
      exists j. split; [done|]. apply elem_without. split; [|done]. intros He. apply Hpi.
      by rewrite (NoDup_fmap_inj_elem at_ l j i (la_apart _ _ _ _ _ Hl) Hj Hi He).
Qed.

Lemma set_states_back p s m : states m !! p = None -> set_states (delete p) (set_states <[p := s]> m) = m.
Proof. intros Hp. unfold set_states; cbn. rewrite delete_insert_id by done. by destruct m. Qed.

(** Creating fails and leaves no trace, or adds an entry. *)
Lemma create_state l fm lost m n client key pathname flags p e : tracked_by T l fm lost m -> is_int n ->
  (p <> NULL -> states m !! p = None) -> (e <> NULL -> links m !! e = None /\ entries m !! e = None) ->
  let s := {| fd := n; key := key; client := client; pathname := pathname; current_offset := 0; flags := flags |} in
  let ok := bool_decide (fm !! n = None) && bool_decide (p <> NULL) && bool_decide (e <> NULL) in
  exists l' m', finesse_create_file_state n client key pathname flags p e m = Done (if ok then p else NULL, m') /\
    tracked_by T l' (if ok then <[n := s]> fm else fm) lost m' /\ (ok = true -> states m' !! p = Some s).
Proof.
  intros Htr Hn Hp He s ok. unfold finesse_create_file_state. pose proof (tr_shape _ _ _ _ _ Htr) as Hsh.
  rewrite (static_bind T) by apply Htr. rewrite c_assert_bind by (by apply negb_true_iff, Z.eqb_neq).
  destruct (Z.eqb_spec p NULL) as [->|Hpn].
  { unfold ok. rewrite (bool_decide_false (NULL <> NULL)), andb_false_r by tauto. exists l, m. by split_and!. }
  rewrite modify_bind. fold s. set (m1 := set_states _ m). set (i := {| at_ := e; id_fd := n; id_state := p |}).
  assert (shape T fd_shift Unlocked l m1) as Hsh1 by done.
  assert (can_insert i m1) as Hcan by exact He.
  assert (forall status, lookup_table_insert T (int_bytes n) p e m1 = Done (status, m1) -> status <> 0 -> ok = false ->
    exists l' m', (status ← lookup_table_insert T (int_bytes n) p e;
      if negb (0 =? status) then modify_state (set_states (delete p));; mret NULL else mret p) m1 = Done (if ok then p else NULL, m') /\
    tracked_by T l' (if ok then <[n := s]> fm else fm) lost m' /\ (ok = true -> states m' !! p = Some s)) as Hfail.
  { intros status Hrun Hst ->. exists l, m. split; [|by split]. rewrite (M_bind_done _ _ _ _ _ Hrun).
    rewrite (proj2 (Z.eqb_neq 0 status)) by done. cbn [negb]. rewrite modify_bind. unfold m1. by rewrite set_states_back by auto. }
  destruct (decide (e = NULL)) as [->|Hen].
  { apply (Hfail ENOMEM); [by apply (insert_no_memory T fd_shift l i m1 Hsh1)|done|].
    unfold ok. by rewrite (bool_decide_false (NULL <> NULL)), andb_false_r by tauto. }
  pose proof (tracked_fd _ _ _ _ n Htr) as Hfd. destruct (by_fd n l) as [j|] eqn:Hby.
  { destruct Hfd as (sj & Hsj & _ & _ & _ & Hj & Hjn). apply (Hfail EEXIST); [|done|unfold ok; by rewrite Hsj].
    apply (insert_exists T fd_shift fd_shift_range l i m1 Hsh1 Hen Hcan Hn). apply list_elem_of_fmap. eauto. }
  destruct (insert_done T fd_shift fd_shift_range l i m1 Hsh1 Hcan) as (m' & Hrun & Hsh' & Hst' & Htab').
  { split; [done..|]. destruct Hsh as [_ Hl]. destruct (He Hen) as [Hfree _].
    by apply (fresh_at T fd_shift fd_shift_range _ _ _ _ Hl Hfree). }
  { by apply by_fd_None. }
  assert (ok = true) as -> by (unfold ok; by rewrite Hfd, !bool_decide_true).
  exists (l ++ [i]), m'. split; [|split].
  - rewrite (M_bind_done _ _ _ _ _ Hrun). done.
  - apply (tracked_create l fm lost m i s m'); [done..|by apply Hp|done|done|done].
  - intros _. rewrite Hst'. apply lookup_insert_eq.
Qed.

Lemma delete_state l fm lost m i : tracked_by T l fm lost m -> i ∈ l ->
  exists m', finesse_delete_file_state (id_state i) m = Done (tt, m') /\ tracked_by T (without i l) (delete (id_fd i) fm) lost m'.
Proof.
  intros Htr Hi. destruct (tr_state _ _ _ _ _ Htr i Hi) as (_ & _ & s & _ & Hfd & Hs).
  pose proof (tr_shape _ _ _ _ _ Htr) as Hsh. pose proof Hsh as [_ Hl].
  assert (is_int (id_fd i)) as Hint by (pose proof (la_ok _ _ _ _ _ Hl) as Hok; rewrite Forall_forall in Hok; by eapply io_int, Hok).
  assert (by_fd (id_fd i) l = Some i) as Hby by by apply (by_fd_spec _ _ _ _ _ _ _ Hl).
  destruct (remove_found T fd_shift fd_shift_range l (id_fd i) i m Hsh Hint Hby) as (m1 & Hrun & Hsh1 & Hst1 & Htab1).
  exists (set_states (delete (id_state i)) m1). split.
  - unfold finesse_delete_file_state. rewrite (static_bind T) by apply Htr. rewrite c_assert_bind by (by apply negb_true_iff, Z.eqb_neq).
    rewrite (M_bind_done _ _ _ _ _ (load_state_run _ _ _ Hs)), Hfd. by rewrite (M_bind_done _ _ _ _ _ Hrun).
  - apply (tracked_delete l fm lost m i); [done..| |done]. cbn. by rewrite Hst1.
Qed.

Lemma command_run c l fm lost m : tracked_by T l fm lost m -> is_int (descriptor c) ->
  exists l' m', run_command c m = Done (fst (spec_command c fm), m') /\ tracked_by T l' (snd (spec_command c fm)) lost m'.
Proof.
  intros Htr Hn. destruct c as [n client key pathname flags fs fe|n|n offset|n]; cbn [descriptor run_command spec_command] in *.
  - rewrite get_state_bind. destruct (malloc_state_fresh m) as [Hs1 Hs2]. destruct (malloc_entry_fresh m) as (He1 & He2 & He3).
    destruct (create_state l fm lost m n client key pathname flags (if fs then malloc_state m else NULL)
      (if fe then malloc_entry m else NULL) Htr Hn) as (l' & m' & Hrun & Htr' & Hok); [by destruct fs|by destruct fe|].
    rewrite (M_bind_done _ _ _ _ _ Hrun). exists l', m'.
    destruct (fm !! n) as [old|] eqn:Hold; [|destruct fs; [destruct fe|]];
      rewrite ?bool_decide_true, ?(bool_decide_false (Some _ = None)), ?(bool_decide_false (NULL <> NULL)) in * by (done || tauto); cbn [andb fst snd] in *;
      split; [done|done| |done..]. apply content_run; [done|by apply Hok].
  - rewrite (M_bind_done _ _ _ _ _ (find_state _ _ _ _ _ Htr Hn)). exists l, m. split; [by apply (content_found l _ lost)|done].
  - rewrite (M_bind_done _ _ _ _ _ (find_state _ _ _ _ _ Htr Hn)).
    pose proof (tracked_fd _ _ _ _ n Htr) as Hfd. destruct (by_fd n l) as [i|]; cbn [state_ptr fst snd].
    + destruct Hfd as (s & Hs & _ & Hst & Hnn & Hi & <-). rewrite (proj2 (Z.eqb_neq _ _)) by done.
      exists l, (set_states (alter (with_offset offset) (id_state i)) m). split; [|by eapply tracked_update].
      unfold finesse_update_offset. rewrite M_assoc, (M_bind_done _ _ _ _ _ (load_state_run _ _ _ Hst)), modify_bind, Hs.
      apply content_run; [done|]. cbn. by rewrite lookup_alter_eq, Hst.
    + exists l, m. rewrite Hfd. split; [done|]. assert (alter (with_offset offset) n fm = fm) as ->; [|done].
      apply map_eq. intros x. rewrite lookup_alter. case_decide; [subst; by rewrite Hfd|done].
  - rewrite (M_bind_done _ _ _ _ _ (find_state _ _ _ _ _ Htr Hn)).
    rewrite (M_bind_done _ _ _ _ _ (content_found _ _ _ _ n Htr)).
    pose proof (tracked_fd _ _ _ _ n Htr) as Hfd. destruct (by_fd n l) as [i|]; cbn [state_ptr fst snd].
    + destruct Hfd as (s & Hs & _ & Hst & Hnn & Hi & <-). rewrite (proj2 (Z.eqb_neq _ _)) by done.
      destruct (delete_state l fm lost m i Htr Hi) as (m' & Hrun & Htr'). exists (without i l), m'.
      by rewrite (M_bind_done _ _ _ _ _ Hrun).
    + exists l, m. rewrite delete_id by done. done.
Qed.

Lemma commands_run cs : forall l fm lost m, tracked_by T l fm lost m -> Forall (fun c => is_int (descriptor c)) cs ->
  exists l' m', run_commands cs m = Done (fst (spec_commands cs fm), m') /\ tracked_by T l' (snd (spec_commands cs fm)) lost m'.
Proof.
  induction cs as [|c cs IH]; intros l fm lost m Htr Hcs; cbn [run_commands spec_commands]; [by exists l, m|].
  apply Forall_cons in Hcs as [Hc Hcs]. destruct (command_run c l fm lost m Htr Hc) as (l1 & m1 & Hrun & Htr1).
  destruct (spec_command c fm) as [a fm1]. rewrite (M_bind_done _ _ _ _ _ Hrun).
  destruct (IH l1 fm1 lost m1 Htr1 Hcs) as (l2 & m2 & Hrun2 & Htr2). cbn [snd] in *. destruct (spec_commands cs fm1) as [as_ fm2].
  rewrite (M_bind_done _ _ _ _ _ Hrun2). by exists l2, m2.
Qed.

(** The states that are reached from the table, and the lost ones, are all
    there are. *)
Lemma tracked_states l fm lost m p s : tracked_by T l fm lost m ->
  states m !! p = Some s <-> lost !! p = Some s \/ exists n, fm !! n = Some s /\ p = state_ptr (by_fd n l).
Proof.
  intros Htr. pose proof Htr as [Hsh _ Hnd Hstate Hall Hlost]. destruct (decide (p ∈ id_state <$> l)) as [(i & -> & Hi)%list_elem_of_fmap|Hp].
  - destruct (Hstate i Hi) as (Hn & Hl & s' & Hs' & _ & Hm). rewrite Hm, Hl.
    assert (by_fd (id_fd i) l = Some i) as Hby by (destruct Hsh as [_ Hlaid]; by apply (by_fd_spec _ _ _ _ _ _ _ Hlaid)).
    split; [intros [= <-]; right; exists (id_fd i); by rewrite Hby|]. intros [?|(n & Hfn & He)]; [done|].
    pose proof (tracked_fd _ _ _ _ n Htr) as Hfd. destruct (by_fd n l) as [j|]; [|congruence].
    destruct Hfd as (sj & Hsj & _ & Hmj & _). cbn in He. rewrite He in Hm. congruence.
  - rewrite (Hlost p Hp). split; [by left|]. intros [?|(n & Hfn & ->)]; [done|]. exfalso. apply Hp.
    pose proof (tracked_fd _ _ _ _ n Htr) as Hfd. destruct (by_fd n l) as [j|]; [|congruence].
    destruct Hfd as (? & _ & _ & _ & _ & Hj & _). apply list_elem_of_fmap. eauto.
Qed.

Lemma tracked_places l fm lost m n n' s s' : tracked_by T l fm lost m -> fm !! n = Some s -> fm !! n' = Some s' ->
  state_ptr (by_fd n l) = state_ptr (by_fd n' l) -> n = n'.
Proof.
  intros Htr Hs Hs' He. pose proof (tracked_fd _ _ _ _ n Htr) as Hfd. pose proof (tracked_fd _ _ _ _ n' Htr) as Hfd'.
  destruct (by_fd n l) as [i|]; [|congruence]. destruct (by_fd n' l) as [j|]; [|congruence].
  destruct Hfd as (x & _ & _ & _ & _ & Hi & <-), Hfd' as (x' & _ & _ & _ & _ & Hj & <-).
  by rewrite (NoDup_fmap_inj_elem id_state l i j (tr_states _ _ _ _ _ Htr) Hi Hj He).
Qed.

Lemma terminate_run l fm lost m : tracked_by T l fm lost m -> finesse_terminate_file_state_mgr m = Done (tt, nothing (states m)).
Proof.
  intros Htr. unfold finesse_terminate_file_state_mgr. rewrite (static_bind T) by apply Htr.
  rewrite (proj2 (Z.eqb_neq _ _)), modify_bind by done.
  by rewrite (lookup_table_destroy_run T fd_shift fd_shift_range l (set_fd_table NULL m) (tr_shape _ _ _ _ _ Htr)).
Qed.

(** C32: The table of descriptors is a map.  From its creation to its
    destruction, any sequence of creations, lookups, changes of offsets and
    deletions, some of which may find no memory, is answered as a finite map
    from descriptors to states.  In the end the table and all its entries are
    freed, but none of the states: each descriptor that was not deleted leaves
    its state behind. *)
Theorem descriptors_refine_map cs lost answers fm :
  Forall (fun c => is_int (descriptor c)) cs -> spec_commands cs ∅ = (answers, fm) ->
  exists left_ (place : Z -> ptr),
    (status ← finesse_init_file_state_mgr T; l ← run_commands cs; finesse_terminate_file_state_mgr;; mret (status, l)) (nothing lost) =
      Done ((0, answers), nothing left_) /\
    (forall p s, left_ !! p = Some s <-> lost !! p = Some s \/ exists n, fm !! n = Some s /\ p = place n) /\
    (forall n n', is_Some (fm !! n) -> is_Some (fm !! n') -> place n = place n' -> n = n').
Proof.
  intros Hcs Hspec. destruct (init_run lost) as (m0 & Hinit & Htr0).
  destruct (commands_run cs [] ∅ lost m0 Htr0 Hcs) as (l & m & Hrun & Htr). rewrite Hspec in Hrun, Htr. cbn [fst snd] in *.
  exists (states m), (fun n => state_ptr (by_fd n l)). split; [|split].
  - rewrite (M_bind_done _ _ _ _ _ Hinit), (M_bind_done _ _ _ _ _ Hrun). by rewrite (M_bind_done _ _ _ _ _ (terminate_run _ _ _ _ Htr)).
  - intros p s. by apply tracked_states.
  - intros n n' [s Hs] [s' Hs']. by eapply tracked_places.
Qed.
End Refinement.

(** * An allocator, and a run *)

#[export] Instance first_fit : Malloc := {|
  malloc_state m := fresh ({[NULL]} ∪ dom (states m));
  malloc_entry m := fresh ({[NULL]} ∪ dom (links m) ∪ dom (entries m)) |}.

#[export] Instance first_fit_fresh : MallocLaws.
Proof.
  split; intros m; cbn.
  - pose proof (is_fresh ({[NULL]} ∪ dom (states m))) as [Hn Hm]%not_elem_of_union.
    split; [set_solver|by apply not_elem_of_dom].
  - pose proof (is_fresh ({[NULL]} ∪ dom (links m) ∪ dom (entries m))) as [[Hn Hl]%not_elem_of_union Hm]%not_elem_of_union.
    split_and!; [set_solver|by apply not_elem_of_dom..].
Qed.

(** Two descriptors in one bucket, one of them created twice, the other left. *)
Definition example_commands : list command :=
  [Create 3 8 12 "/mnt/a" 0 true true; Create 4099 8 34 "/mnt/b" 2 true true; Create 3 8 56 "/mnt/c" 0 true true;
   UpdateOffset 4099 512; Lookup 3; Delete 3; Lookup 3; Create 5 8 7 "/mnt/d" 0 true false; Lookup 4099].

Definition example_left : finesse_file_state :=
  {| fd := 4099; key := 34; client := 8; pathname := "/mnt/b"; current_offset := 512; flags := 2 |}.

Lemma descriptors_refine_map_witness :
  exists left_ (place : Z -> ptr),
    (status ← finesse_init_file_state_mgr 65536; l ← run_commands example_commands; finesse_terminate_file_state_mgr;; mret (status, l)) (nothing ∅) =
      Done ((0, fst (spec_commands example_commands ∅)), nothing left_) /\
    forall p s, left_ !! p = Some s <-> p = place 4099 /\ s = example_left.
Proof.
  destruct (descriptors_refine_map 65536 ltac:(done) example_commands ∅ (fst (spec_commands example_commands ∅)) {[4099 := example_left]})
    as (left_ & place & Hrun & Hleft & _); [repeat (apply Forall_cons; split; [unfold is_int; cbn; lia|]); by apply Forall_nil|vm_compute; reflexivity|].
  exists left_, place. split; [exact Hrun|]. clear Hrun. intros p s. rewrite Hleft, lookup_empty. split.
  - intros [[=]|(n & [<- <-]%lookup_singleton_Some & ->)]. by split.
  - intros [-> ->]. right. exists 4099. by rewrite lookup_singleton_eq.
Defined.
