(* ===== verification/NameIndex.v ===== *)
(** What the name index promises to its clients.

    The extended attributes of an inode and the entries of a directory are
    both found by name through the trie of src/finesse/utils/trie.c.  This
    file states, as a type class, the operations and laws those clients rely
    on; Trie.v discharges it, and Xattr.v and Directory.v are proved against
    it.  A missing index (a NULL pointer) is [None]. *)

From stdpp Require Import strings gmap.
From S2P Require Import Prelude.

Class NameIndex (T : Type -> Type) : Type := {
  ni_create : forall {V}, T V;
  ni_search : forall {V}, option (T V) -> string -> option V;
  ni_insert : forall {V}, T V -> string -> option V -> T V;
  ni_delete : forall {V}, option (T V) -> string -> outcome (option (T V) * Z);

  ni_search_null : forall V s, ni_search (V := V) None s = None;
  ni_search_create : forall V s, ni_search (V := V) (Some ni_create) s = None;
  ni_search_insert : forall V (t : T V) k o s,
    ni_search (Some (ni_insert t k o)) s =
      if decide (s = k) then o else ni_search (Some t) s;
  ni_delete_found : forall V (t : T V) k v,
    k <> EmptyString -> ni_search (Some t) k = Some v ->
    exists o, ni_delete (Some t) k = Done (o, 0) /\
      forall s, ni_search o s = if decide (s = k) then None else ni_search (Some t) s;
  ni_delete_missing : forall V (t : T V) k,
    k <> EmptyString -> ni_search (Some t) k = None ->
    ni_delete (Some t) k = Done (Some t, ENOENT);

  (* no index is kept for an empty map *)
  ni_tidy : forall {V}, option (T V) -> Prop;
  ni_tidy_null : forall V, ni_tidy (V := V) None;
  ni_tidy_insert : forall V (t : T V) k v,
    t = ni_create \/ ni_tidy (Some t) -> ni_tidy (Some (ni_insert t k (Some v)));
  ni_tidy_delete : forall V (t : T V) k o,
    k <> EmptyString -> ni_tidy (Some t) -> ni_delete (Some t) k = Done (o, 0) -> ni_tidy o;
  ni_tidy_empty : forall V (o : option (T V)),
    ni_tidy o -> (forall s, ni_search o s = None) -> o = None
}.

(** The finite map an index stands for. *)
Definition represents {T : Type -> Type} `{NameIndex T} {V}
    (o : option (T V)) (m : gmap string V) : Prop :=
  forall s, ni_search o s = m !! s.

Section NameIndex.
Context {T : Type -> Type} `{NameIndex T} {V : Type}.
Implicit Types (t : T V) (o : option (T V)) (m : gmap string V).

Lemma represents_null : represents (V := V) None ∅.
Proof. intros s. by rewrite ni_search_null, lookup_empty. Qed.

Lemma represents_create : represents (V := V) (Some ni_create) ∅.
Proof. intros s. by rewrite ni_search_create, lookup_empty. Qed.

Lemma represents_insert t m k v :
  represents (Some t) m -> represents (Some (ni_insert t k (Some v))) (<[k := v]> m).
Proof.
  intros Hr s. rewrite ni_search_insert, lookup_insert, Hr.
  by repeat case_decide; subst.
Qed.

Lemma represents_delete t m k v :
  represents (Some t) m -> k <> EmptyString -> m !! k = Some v ->
  exists o, ni_delete (Some t) k = Done (o, 0) /\ represents o (delete k m).
Proof.
  intros Hr Hk Hv. destruct (ni_delete_found V t k v Hk) as (o & Ho & Hs).
  { by rewrite Hr. }
  exists o. split; [done|]. intros s. rewrite Hs, lookup_delete, Hr.
  by repeat case_decide; subst.
Qed.

Lemma represents_missing t m k :
  represents (Some t) m -> k <> EmptyString -> m !! k = None -> ni_delete (Some t) k = Done (Some t, ENOENT).
Proof. intros Hr Hk Hm. apply ni_delete_missing; [done|]. by rewrite Hr. Qed.

(** The index a client uses: there is none while the map is empty. *)
Definition indexes o m : Prop := represents o m /\ ni_tidy o.

Lemma indexes_null : indexes None ∅.
Proof. split; [apply represents_null|apply ni_tidy_null]. Qed.

Lemma indexes_empty o : indexes o ∅ -> o = None.
Proof. intros [Hr Ht]. apply ni_tidy_empty; [done|]. intros s. by rewrite Hr, lookup_empty. Qed.

(** [if (NULL == index) index = TrieCreateNode();] and an insertion *)
Lemma indexes_insert o m k v :
  indexes o m -> indexes (Some (ni_insert (default ni_create o) k (Some v))) (<[k := v]> m).
Proof.
  intros [Hr Ht]. split.
  - apply represents_insert. destruct o as [t|]; cbn; [done|].
    intros s. by rewrite <- Hr, ni_search_create, ni_search_null.
  - apply ni_tidy_insert. destruct o as [t|]; cbn; [by right|by left].
Qed.

Lemma indexes_delete o m k v :
  indexes o m -> k <> EmptyString -> m !! k = Some v ->
  exists o', ni_delete o k = Done (o', 0) /\ indexes o' (delete k m).
Proof.
  intros [Hr Ht] Hk Hv. destruct o as [t|].
  - destruct (represents_delete t m k v Hr Hk Hv) as (o' & Ho & Hr'). exists o'. split; [done|]. split; [done|].
    by apply (ni_tidy_delete V t k).
  - specialize (Hr k). rewrite ni_search_null in Hr. congruence.
Qed.
End NameIndex.

#[export] Hint Resolve represents_null represents_create represents_insert : finesse.
