(* ===== verification/Trie.v ===== *)
(** The trie of src/finesse/utils/trie.c.

    A node has an array of 256 children indexed by a byte and an object
    pointer.  Nodes are owned by their parent, so a trie is a tree value
    here; NULL is [None].  A C string is its contents: the terminating NUL is
    the end of the Rocq string.  Results: the operations implement a finite
    map from names to objects, on every branch (the instance
    [Trie_NameIndex]); deletion reclaims every node that stops being useful.

    [malloc] never fails for nodes (the code does not check it); the path
    buffer of [TrieDeletion] is checked, and [path_ok] says whether its
    allocation succeeded. *)

From stdpp Require Import strings gmap.
From Stdlib Require Import Ascii.
From S2P Require Import Prelude NameIndex.

(** struct Trie *)
Inductive Trie (V : Type) : Type :=
  Node (chars : ascii -> option (Trie V)) (obj : option V).
Arguments Node {V} chars obj.

Definition character {V} (t : Trie V) : ascii -> option (Trie V) :=
  match t with Node chars _ => chars end.
Definition Object {V} (t : Trie V) : option V := match t with Node _ obj => obj end.

Definition CHAR_SIZE : nat := 256.

(** The store [t->character[c] = o]. *)
Definition set_child {V} (t : Trie V) (c : ascii) (o : option (Trie V)) : Trie V :=
  Node (fun x => if Ascii.eqb x c then o else character t x) (Object t).

Definition TrieCreateNode {V} : Trie V := Node (fun _ => None) None.

Fixpoint TrieInsert {V} (curr : Trie V) (str : string) (object : option V) {struct str} : Trie V :=
  match str with
  | EmptyString => Node (character curr) object
  | String c str =>
      let child := match character curr c with
                   | None => TrieCreateNode
                   | Some child => child
                   end in
      set_child curr c (Some (TrieInsert child str object))
  end.

(** The loop of [TrieSearch] from the node [curr]. *)
Fixpoint search_from {V} (curr : Trie V) (str : string) {struct str} : option V :=
  match str with
  | EmptyString => Object curr
  | String c str =>
      match character curr c with
      | None => None
      | Some child => search_from child str
      end
  end.

Definition TrieSearch {V} (head : option (Trie V)) (str : string) : option V :=
  match head with None => None | Some curr => search_from curr str end.

Definition haveChildren {V} (curr : Trie V) : bool :=
  existsb (fun i => match character curr (ascii_of_nat i) with Some _ => true | None => false end)
    (seq 0 CHAR_SIZE).

#[global] Arguments haveChildren : simpl never.

Definition has_object {V} (t : Trie V) : bool :=
  match Object t with Some _ => true | None => false end.

(** The first loop of [TrieDeletion]: the saved [path] (nearest node first)
    and the node the string leads to, or [None] when a child is missing. *)
Fixpoint descend {V} (path : list (Trie V * ascii)) (t : Trie V) (str : string)
    {struct str} : option (list (Trie V * ascii) * Trie V) :=
  match str with
  | EmptyString => Some (path, t)
  | String c str =>
      match character t c with
      | None => None
      | Some child => descend ((t, c) :: path) child str
      end
  end.

(** The nodes on the path with the (mutated) node [child] below them. *)
Fixpoint rebuild {V} (path : list (Trie V * ascii)) (child : Trie V) : Trie V :=
  match path with
  | [] => child
  | (t, c) :: path => rebuild path (set_child t c (Some child))
  end.

(** The second loop: free the nodes that have become useless, bottom up.
    The result is the root and whether the last node looked at is the root
    ([t == *curr]). *)
Fixpoint reclaim {V} (path : list (Trie V * ascii)) (child : Trie V) : Trie V * bool :=
  match path with
  | [] => (child, true)
  | (t, c) :: path =>
      if has_object child || haveChildren child then
        (rebuild path (set_child t c (Some child)), bool_decide (path = []))
      else reclaim path (set_child t c None)
  end.

Definition TrieDeletion {V} (path_ok : bool) (curr : option (Trie V)) (str : string)
    : outcome (option (Trie V) * Z) :=
  if negb path_ok then Done (curr, ENOMEM)
  else
    t ← deref curr;
    match str with
    | EmptyString => Done (if haveChildren t then (curr, 0) else (None, 0))
    | _ =>
        match descend [] t str with
        | None => Done (curr, ENOENT)
        | Some (path, t) =>
            match Object t with
            | None => Done (curr, ENOENT)
            | Some _ =>
                let '(root, at_root) := reclaim path (Node (character t) None) in
                if at_root && negb (has_object root || haveChildren root)
                then Done (None, 0) else Done (Some root, 0)
            end
        end
    end.

#[global] Arguments TrieDeletion : simpl never.

(** * Deletion, recursively *)

Definition live {V} (t : Trie V) : bool := has_object t || haveChildren t.

(** What deletion does below a node, written as a recursion on the name. *)
Fixpoint del {V} (t : Trie V) (str : string) {struct str} : Trie V :=
  match str with
  | EmptyString => Node (character t) None
  | String c str =>
      match character t c with
      | None => t
      | Some child =>
          let child := del child str in
          set_child t c (if live child then Some child else None)
      end
  end.

(** Every child that is not NULL leads to an object: it has one itself or
    has children, and so on below it. *)
Inductive pruned {V} : Trie V -> Prop :=
  pruned_node t :
    (forall c child, character t c = Some child -> live child = true) ->
    (forall c child, character t c = Some child -> pruned child) ->
    pruned t.

(** The pruned tries NULL included: the root too must be useful. *)
Definition trie_ok {V} (o : option (Trie V)) : Prop :=
  match o with None => True | Some t => pruned t end.

Section Trie.
Context {V : Type}.
Implicit Types (t child : Trie V) (path : list (Trie V * ascii)) (o : option V).

Lemma character_set_child t c x y :
  character (set_child t c x) y = if decide (y = c) then x else character t y.
Proof. unfold set_child; simpl. destruct (Ascii.eqb_spec y c); case_decide; done. Qed.

Lemma haveChildren_true t :
  haveChildren t = true <-> exists c child, character t c = Some child.
Proof.
  unfold haveChildren. rewrite existsb_exists. split.
  - intros (i & _ & Hi). destruct (character t (ascii_of_nat i)) eqn:E; [eauto|done].
  - intros (c & child & Hc). exists (nat_of_ascii c). split.
    + apply in_seq. pose proof (nat_ascii_bounded c). unfold CHAR_SIZE. lia.
    + by rewrite ascii_nat_embedding, Hc.
Qed.

Lemma haveChildren_set_child t c child :
  haveChildren (set_child t c (Some child)) = true.
Proof. apply haveChildren_true. exists c, child. rewrite character_set_child. by case_decide. Qed.

Lemma live_set_child t c child : live (set_child t c (Some child)) = true.
Proof. unfold live. rewrite haveChildren_set_child. apply orb_true_r. Qed.

Lemma dead_character t c : live t = false -> character t c = None.
Proof.
  intros [_ H]%orb_false_iff. destruct (character t c) eqn:E; [|done].
  assert (haveChildren t = true) by (apply haveChildren_true; eauto). congruence.
Qed.

Lemma dead_search t s : live t = false -> search_from t s = None.
Proof.
  intros H. destruct s as [|c s]; simpl.
  - apply orb_false_iff in H as [H _]. unfold has_object in H.
    destruct (Object t); [discriminate|reflexivity].
  - by rewrite dead_character.
Qed.

Lemma search_create s : search_from (V := V) TrieCreateNode s = None.
Proof. by destruct s. Qed.

Lemma search_insert t k o s :
  search_from (TrieInsert t k o) s = if decide (s = k) then o else search_from t s.
Proof.
  revert t s. induction k as [|c k IH]; intros t [|d s]; simpl; try done.
  destruct (Ascii.eqb_spec d c) as [->|Hne].
  - rewrite IH. repeat case_decide; try congruence.
    destruct (character t c); [done|]. by rewrite search_create.
  - case_decide; [congruence|done].
Qed.

Lemma search_del t k s :
  search_from t k <> None ->
  search_from (del t k) s = if decide (s = k) then None else search_from t s.
Proof.
  revert t s. induction k as [|c k IH]; intros t [|d s]; simpl; intros Hk.
  - done.
  - done.
  - destruct (character t c) eqn:E; [done|congruence].
  - destruct (character t c) as [child|] eqn:Ec; [|congruence].
    rewrite character_set_child. case_decide; subst.
    + rewrite Ec. specialize (IH child s Hk).
      destruct (live (del child k)) eqn:El; [rewrite IH|rewrite dead_search in IH by done; rewrite IH];
        repeat case_decide; congruence.
    + case_decide; [congruence|done].
Qed.

(** ** The loops compute [del] *)

Lemma descend_search path t s :
  match descend path t s with
  | None => search_from t s = None
  | Some (_, t') => search_from t s = Object t'
  end.
Proof.
  revert path t. induction s as [|c s IH]; intros path t; simpl; [done|].
  destruct (character t c) as [child|]; [apply IH|done].
Qed.

Lemma reclaim_live path child :
  live child = true -> fst (reclaim path child) = rebuild path child.
Proof. destruct path as [|[t c] path]; simpl; [done|]. by unfold live; intros ->. Qed.

Lemma reclaim_descend path t s path' t' :
  descend path t s = Some (path', t') ->
  fst (reclaim path' (Node (character t') None)) = fst (reclaim path (del t s)).
Proof.
  revert path t. induction s as [|c s IH]; intros path t; simpl.
  - intros [= -> ->]. done.
  - destruct (character t c) as [child|] eqn:E; [|done]. intros ->%IH. simpl.
    fold (live (del child s)). destruct (live (del child s)); [|done].
    simpl. by rewrite reclaim_live by apply live_set_child.
Qed.

Lemma rebuild_haveChildren path child :
  haveChildren child = true -> haveChildren (rebuild path child) = true.
Proof.
  revert child. induction path as [|[t c] path IH]; intros child H; simpl; [done|].
  apply IH, haveChildren_set_child.
Qed.

Lemma reclaim_not_root path child :
  snd (reclaim path child) = false -> live (fst (reclaim path child)) = true.
Proof.
  revert child. induction path as [|[t c] path IH]; intros child; simpl; [done|].
  destruct (has_object child || haveChildren child); simpl; [|apply IH].
  intros _. unfold live. rewrite rebuild_haveChildren by apply haveChildren_set_child.
  apply orb_true_r.
Qed.

(** The iterative deletion is the recursive one. *)
Lemma TrieDeletion_del t k :
  k <> EmptyString ->
  TrieDeletion true (Some t) k =
    match search_from t k with
    | None => Done (Some t, ENOENT)
    | Some _ => Done (if live (del t k) then Some (del t k) else None, 0)
    end.
Proof.
  intros Hk. unfold TrieDeletion; simpl. unfold mbind, outcome_bind, mret, outcome_ret.
  pose proof (descend_search [] t k) as Hs.
  destruct k as [|c k]; [done|]. destruct (descend [] t (String c k)) as [[path t']|] eqn:Hd.
  - rewrite Hs. destruct (Object t') as [v|]; [|done].
    pose proof (reclaim_descend _ _ _ _ _ Hd) as Hr.
    pose proof (reclaim_not_root path (Node (character t') None)) as Hn.
    destruct (reclaim path _) as [root at_root]. cbn [fst snd reclaim] in Hr, Hn.
    fold (live root). subst root. destruct at_root; cbn [andb].
    + by destruct (live (del t (String c k))).
    + by rewrite Hn by done.
  - by rewrite Hs.
Qed.
End Trie.

Section TrieSpec.
Context {V : Type}.
Implicit Types (t : Trie V) (o : option (Trie V)).

Lemma search_found t s v : TrieSearch (Some t) s = Some v -> search_from t s = Some v.
Proof. done. Qed.

Lemma pruned_create : pruned (V := V) TrieCreateNode.
Proof. constructor; simpl; discriminate. Qed.

Lemma pruned_insert t k v : pruned t -> pruned (TrieInsert t k (Some v)).
Proof.
  revert t. induction k as [|c k IH]; intros t Ht; simpl.
  - destruct Ht as [t H1 H2]. by constructor.
  - assert (live (TrieInsert (match character t c with
        | None => TrieCreateNode | Some child => child end) k (Some v)) = true) as L.
    { destruct k; simpl; [done|]. apply live_set_child. }
    assert (pruned (match character t c with
        | None => TrieCreateNode | Some child => child end)) as P.
    { destruct Ht as [t H1 H2]. destruct (character t c) eqn:E; [eauto|]. by constructor. }
    destruct Ht as [t H1 H2].
    constructor; intros d child; rewrite character_set_child; case_decide; intros [= <-] || intros; eauto.
Qed.

Lemma pruned_del t k : pruned t -> pruned (del t k).
Proof.
  revert t. induction k as [|c k IH]; intros t Ht; simpl.
  - destruct Ht as [t H1 H2]. by constructor.
  - destruct (character t c) as [child|] eqn:E; [|done].
    destruct Ht as [t H1 H2].
    constructor; intros d child'; rewrite character_set_child; case_decide; eauto;
      destruct (live (del child k)) eqn:L; intros [= <-]; eauto.
Qed.

(** A useful pruned node leads to an object. *)
Lemma pruned_live t : pruned t -> live t = true -> exists s v, search_from t s = Some v.
Proof.
  induction 1 as [t H1 H2 IH]. unfold live, has_object.
  destruct (Object t) as [v|] eqn:E; simpl; intros Hl.
  - by exists EmptyString, v.
  - apply haveChildren_true in Hl as (c & child & Hc).
    destruct (IH c child Hc) as (s & v & Hs); [eauto|].
    exists (String c s), v. simpl. by rewrite Hc.
Qed.
End TrieSpec.

(** No useless node is allocated, the root included. *)
Definition tidy {V} (o : option (Trie V)) : Prop :=
  match o with None => True | Some t => pruned t /\ live t = true end.

Lemma live_insert {V} (t : Trie V) k v : live (TrieInsert t k (Some v)) = true.
Proof. destruct k; simpl; [done|apply live_set_child]. Qed.

#[export] Instance Trie_NameIndex : NameIndex Trie.
Proof.
  refine {| ni_create := @TrieCreateNode; ni_search := @TrieSearch; ni_insert := @TrieInsert;
            ni_delete := fun V => @TrieDeletion V true; ni_tidy := @tidy |}.
  - done.
  - intros. apply search_create.
  - intros. apply search_insert.
  - intros V t k v Hk Hv. simpl in Hv. rewrite TrieDeletion_del, Hv by done.
    eexists. split; [reflexivity|]. intros s.
    change (TrieSearch (Some t) s) with (search_from t s).
    assert (search_from t k <> None) as Hn by congruence.
    rewrite <- (search_del t k s Hn).
    destruct (live (del t k)) eqn:E; simpl; [done|]. by rewrite dead_search.
  - intros V t k Hk Hv. simpl in Hv. by rewrite TrieDeletion_del, Hv.
  - done.
  - intros V t k v Ht. split; [|apply live_insert]. apply pruned_insert.
    destruct Ht as [->|[Ht _]]; [apply pruned_create|done].
  - intros V t k o Hk [Ht _]. rewrite TrieDeletion_del by done. destruct (search_from t k); [|done].
    destruct (live (del t k)) eqn:E; intros H; inversion H; subst; [|done]. split; [by apply pruned_del|done].
  - intros V o Ht Hs. destruct o as [t|]; [|done]. destruct Ht as [Hp Hl].
    destruct (pruned_live t Hp Hl) as (s & v & Hv). specialize (Hs s). simpl in Hs. congruence.
Defined.

(** * The trie as its clients use it

    Insertion creates the root when there is none; deletion is not attempted
    on a NULL index. *)

Inductive index_op (V : Type) : Type :=
  | IndexInsert (k : string) (v : V)
  | IndexSearch (k : string)
  | IndexDelete (k : string).
Arguments IndexInsert {V} k v.
Arguments IndexSearch {V} k.
Arguments IndexDelete {V} k.

Definition index_step {V} (op : index_op V) (o : option (Trie V))
    : outcome (option (Trie V) * (option V * Z)) :=
  match op with
  | IndexInsert k v =>
      let t := match o with None => TrieCreateNode | Some t => t end in
      Done (Some (TrieInsert t k (Some v)), (None, 0))
  | IndexSearch k => Done (o, (TrieSearch o k, 0))
  | IndexDelete k =>
      match o with
      | None => Done (None, (None, ENOENT))
      | Some t => '(o, status) ← TrieDeletion true (Some t) k; Done (o, (None, status))
      end
  end.

Fixpoint index_run {V} (ops : list (index_op V)) (o : option (Trie V))
    : outcome (option (Trie V) * list (option V * Z)) :=
  match ops with
  | [] => Done (o, [])
  | op :: ops =>
      '(o, r) ← index_step op o; '(o, rs) ← index_run ops o; Done (o, r :: rs)
  end.

Definition map_step {V} (op : index_op V) (m : gmap string V) : gmap string V * (option V * Z) :=
  match op with
  | IndexInsert k v => (<[k := v]> m, (None, 0))
  | IndexSearch k => (m, (m !! k, 0))
  | IndexDelete k => (delete k m, (None, if decide (is_Some (m !! k)) then 0 else ENOENT))
  end.

Fixpoint map_run {V} (ops : list (index_op V)) (m : gmap string V)
    : gmap string V * list (option V * Z) :=
  match ops with
  | [] => (m, [])
  | op :: ops => let (m, r) := map_step op m in let (m, rs) := map_run ops m in (m, r :: rs)
  end.

(** The names a client uses are never empty. *)
Definition named {V} (op : index_op V) : Prop :=
  match op with IndexInsert k _ | IndexSearch k | IndexDelete k => k <> EmptyString end.

#[export] Instance named_dec {V} (op : index_op V) : Decision (named op).
Proof. destruct op; simpl; apply _. Defined.

(** A tidy index is NULL exactly when it stands for the empty map. *)
Lemma tidy_null {V} (o : option (Trie V)) m : tidy o -> represents o m -> o = None <-> m = ∅.
Proof.
  intros Ht Hr. split.
  - intros ->. apply map_eq. intros k. by rewrite <- (Hr k), lookup_empty.
  - intros ->. destruct o as [t|]; [|done]. destruct Ht as [Hp Hl].
    destruct (pruned_live t Hp Hl) as (s & v & Hs). specialize (Hr s).
    simpl in Hr. rewrite Hs, lookup_empty in Hr. done.
Qed.

Lemma index_step_spec {V} (op : index_op V) o m :
  named op -> tidy o -> represents o m ->
  exists o', index_step op o = Done (o', snd (map_step op m)) /\
    tidy o' /\ represents o' (fst (map_step op m)).
Proof.
  intros Hk Ht Hr. destruct op as [k v|k|k]; simpl in *.
  - eexists. split; [reflexivity|]. destruct o as [t|].
    + destruct Ht as [Hp _]. split; [split; [by apply pruned_insert|apply live_insert]|].
      exact (represents_insert (T := Trie) t m k v Hr).
    + split; [split; [apply pruned_insert, pruned_create|apply live_insert]|].
      refine (represents_insert (T := Trie) TrieCreateNode m k v _). intros s.
      rewrite <- (Hr s). apply search_create.
  - exists o. by rewrite <- (Hr k).
  - destruct o as [t|].
    + pose proof (Hr k) as Hk'. simpl in Hk'. pose proof Ht as [Hp _].
      rewrite TrieDeletion_del by done. rewrite Hk'.
      destruct (m !! k) as [v|] eqn:E; simpl.
      * eexists. split; [reflexivity|]. split.
        { destruct (live (del t k)) eqn:L; [|done]. split; [by apply pruned_del|done]. }
        destruct (represents_delete t m k v Hr Hk E) as (o & Ho & Hro). simpl in Ho.
        rewrite TrieDeletion_del, Hk' in Ho by done. by injection Ho as <-.
      * eexists. split; [reflexivity|]. by rewrite delete_id.
    + eexists. split.
      { rewrite <- (Hr k). reflexivity. }
      split; [done|]. rewrite delete_id; [done|]. by rewrite <- (Hr k).
Qed.

(** C19: the trie is a finite map.  Starting from no index at all, any
    sequence of insertions, searches and deletions of non-empty names runs
    without touching a bad pointer and answers what a finite map answers
    (ENOENT for a deletion that finds nothing); the index it leaves stands
    for that map and holds no useless node, so it is NULL again exactly when
    the map is empty. *)
Theorem trie_refines_map {V} (ops : list (index_op V)) :
  Forall named ops ->
  exists o, index_run ops None = Done (o, snd (map_run ops ∅)) /\
    represents o (fst (map_run ops ∅)) /\ tidy o /\
    (o = None <-> fst (map_run ops ∅) = ∅).
Proof.
  intros Hops.
  enough (forall o m, tidy o -> represents o m ->
    exists o', index_run ops o = Done (o', snd (map_run ops m)) /\
      represents o' (fst (map_run ops m)) /\ tidy o') as H.
  { destruct (H None ∅) as (o & Hr & Hm & Ht); [done|apply represents_null|].
    exists o. split; [done|]. split; [done|]. split; [done|]. by apply tidy_null. }
  induction Hops as [|op ops Hop Hops IH]; intros o m Ht Hr; simpl; [by eauto|].
  destruct (index_step_spec op o m Hop Ht Hr) as (o1 & Hs & Ht1 & Hr1).
  rewrite Hs. destruct (map_step op m) as [m1 r]; simpl in *.
  destruct (IH o1 m1 Ht1 Hr1) as (o2 & Hs2 & Hr2 & Ht2).
  rewrite Hs2. destruct (map_run ops m1) as [m2 rs]; simpl in *. by exists o2.
Qed.

Lemma trie_refines_map_witness :
  exists o, index_run [IndexInsert "foo" 1; IndexInsert "fo" 2; IndexDelete "foo";
                       IndexSearch "fo"; IndexDelete "f"; IndexDelete "fo"] None
    = Done (o, [(None, 0); (None, 0); (None, 0); (Some 2, 0); (None, ENOENT); (None, 0)]) /\ o = None.
Proof.
  destruct (trie_refines_map [IndexInsert "foo" 1; IndexInsert "fo" 2; IndexDelete "foo";
    IndexSearch "fo"; IndexDelete "f"; IndexDelete "fo"]) as (o & H1 & _ & _ & H2).
  - repeat constructor; discriminate.
  - exists o. split; [exact H1|]. apply H2. vm_compute. reflexivity.
Defined.

(** the empty name is not handled: deleting it from a trie that has any
    child reports success and leaves the object that is stored there. *)
Theorem TrieDeletion_empty_name {V} (t : Trie V) (v : V) :
  haveChildren t = true ->
  TrieDeletion true (Some (TrieInsert t EmptyString (Some v))) EmptyString
    = Done (Some (TrieInsert t EmptyString (Some v)), 0) /\
  TrieSearch (Some (TrieInsert t EmptyString (Some v))) EmptyString = Some v.
Proof. intros H. split; [|done]. unfold TrieDeletion; simpl. unfold mbind, outcome_bind, mret, outcome_ret.
  change (haveChildren (Node (character t) (Some v))) with (haveChildren t). by rewrite H.
Qed.

Lemma TrieDeletion_empty_name_witness :
  haveChildren (TrieInsert TrieCreateNode "a" (Some 1)) = true /\
  TrieSearch (Some (TrieInsert (TrieInsert TrieCreateNode "a" (Some 1)) EmptyString (Some 2)))
    EmptyString = Some 2.
Proof.
  split; [vm_compute; reflexivity|].
  apply (TrieDeletion_empty_name (TrieInsert TrieCreateNode "a" (Some 1)) 2).
  vm_compute. reflexivity.
Defined.
