(* ===== verification/Murmur.v ===== *)
(** MurmurHash3 and the hash folding of the tables.

    The three variants of src/finesse/utils/murmurhash3.c on byte lists, with
    every word at its width, and [truncate_hash], which
    src/finesse/utils/fastlookup.c and src/finesse/bitbucket/inode.c use to
    reduce a 64-bit hash to a bucket index.  Results: the finalisers are
    bijections; the 128-bit hash used by both tables is injective on inode
    numbers (8-byte keys) and on UUIDs (16-byte keys); folding stays within
    the table and looks at the low bits only. *)

From stdpp Require Import list.
From S2P Require Import Prelude.

Open Scope word_scope.

(** * Word operations *)

Definition rotl32 (x r : Z) : Z := u32 (Z.lor (Z.shiftl x r) (Z.shiftr x (32 - r))).
Definition rotl64 (x r : Z) : Z := u64 (Z.lor (Z.shiftl x r) (Z.shiftr x (64 - r))).

(** The little-endian integer at the front of a byte list. *)
Fixpoint le_combine (l : list Z) : Z :=
  match l with [] => 0 | b :: l => Z.lor b (Z.shiftl (le_combine l) 8) end.

(** [p[i]] for a pointer to 32- or 64-bit words at the byte list [p]. *)
Definition getblock32 (p : list Z) (i : Z) : Z := le_combine (take 4 (drop (Z.to_nat (4 * i)) p)).
Definition getblock64 (p : list Z) (i : Z) : Z := le_combine (take 8 (drop (Z.to_nat (8 * i)) p)).

Definition byte_at (p : list Z) (i : Z) : Z := nth (Z.to_nat i) p 0.

Definition fmix32 (h : Z) : Z :=
  let h := Z.lxor h (Z.shiftr h 16) in
  let h := u32 (h * 0x85ebca6b) in
  let h := Z.lxor h (Z.shiftr h 13) in
  let h := u32 (h * 0xc2b2ae35) in
  Z.lxor h (Z.shiftr h 16).

Definition fmix64 (k : Z) : Z :=
  let k := Z.lxor k (Z.shiftr k 33) in
  let k := u64 (k * 0xff51afd7ed558ccd) in
  let k := Z.lxor k (Z.shiftr k 33) in
  let k := u64 (k * 0xc4ceb9fe1a85ec53) in
  Z.lxor k (Z.shiftr k 33).

(** The fall-through cases of the tail switches: byte [j] of the tail is
    xored in at its place when the remainder [r] is larger than [j]. *)
Definition xor_tail (tail : list Z) (r lo : Z) (js : list Z) (k : Z) : Z :=
  fold_left (fun k j => if j <? r then Z.lxor k (Z.shiftl (byte_at tail j) (8 * (j - lo))) else k) js k.

(** * MurmurHash3_x86_32 *)

Definition mix_k32 (k c1 r c2 : Z) : Z := u32 (rotl32 (u32 (k * c1)) r * c2).

Definition MurmurHash3_x86_32 (key : list Z) (len seed : Z) : Z :=
  let nblocks := len / 4 in
  let c1 := 0xcc9e2d51 in
  let c2 := 0x1b873593 in
  let h1 := fold_left (fun h1 i =>
      let k1 := mix_k32 (getblock32 key i) c1 15 c2 in
      let h1 := Z.lxor h1 k1 in
      let h1 := rotl32 h1 13 in
      u32 (h1 * 5 + 0xe6546b64)) (seqZ 0 nblocks) (u32 seed) in
  let tail := drop (Z.to_nat (nblocks * 4)) key in
  let r := Z.land len 3 in
  let k1 := xor_tail tail r 0 [2; 1; 0] 0 in
  let h1 := if 1 <=? r then Z.lxor h1 (mix_k32 k1 c1 15 c2) else h1 in
  fmix32 (Z.lxor h1 (u32 len)).

(** * MurmurHash3_x86_128 *)

Definition block_x86_128 (key : list Z) (h : Z * Z * Z * Z) (i : Z) : Z * Z * Z * Z :=
  let '(h1, h2, h3, h4) := h in
  let c1 := 0x239b961b in let c2 := 0xab0e9789 in
  let c3 := 0x38b34ae5 in let c4 := 0xa1e38b93 in
  let k1 := getblock32 key (i * 4 + 0) in
  let k2 := getblock32 key (i * 4 + 1) in
  let k3 := getblock32 key (i * 4 + 2) in
  let k4 := getblock32 key (i * 4 + 3) in
  let h1 := Z.lxor h1 (mix_k32 k1 c1 15 c2) in
  let h1 := u32 (u32 (rotl32 h1 19 + h2) * 5 + 0x561ccd1b) in
  let h2 := Z.lxor h2 (mix_k32 k2 c2 16 c3) in
  let h2 := u32 (u32 (rotl32 h2 17 + h3) * 5 + 0x0bcaa747) in
  let h3 := Z.lxor h3 (mix_k32 k3 c3 17 c4) in
  let h3 := u32 (u32 (rotl32 h3 15 + h4) * 5 + 0x96cd1c35) in
  let h4 := Z.lxor h4 (mix_k32 k4 c4 18 c1) in
  let h4 := u32 (u32 (rotl32 h4 13 + h1) * 5 + 0x32ac3b17) in
  (h1, h2, h3, h4).

Definition spread32 (h : Z * Z * Z * Z) : Z * Z * Z * Z :=
  let '(h1, h2, h3, h4) := h in
  let h1 := u32 (u32 (u32 (h1 + h2) + h3) + h4) in
  (h1, u32 (h2 + h1), u32 (h3 + h1), u32 (h4 + h1)).

Definition MurmurHash3_x86_128 (key : list Z) (len seed : Z) : Z * Z * Z * Z :=
  let nblocks := len / 16 in
  let c1 := 0x239b961b in let c2 := 0xab0e9789 in
  let c3 := 0x38b34ae5 in let c4 := 0xa1e38b93 in
  let s := u32 seed in
  let '(h1, h2, h3, h4) := fold_left (block_x86_128 key) (seqZ 0 nblocks) (s, s, s, s) in
  let tail := drop (Z.to_nat (nblocks * 16)) key in
  let r := Z.land len 15 in
  let k4 := xor_tail tail r 12 [14; 13; 12] 0 in
  let h4 := if 13 <=? r then Z.lxor h4 (mix_k32 k4 c4 18 c1) else h4 in
  let k3 := xor_tail tail r 8 [11; 10; 9; 8] 0 in
  let h3 := if 9 <=? r then Z.lxor h3 (mix_k32 k3 c3 17 c4) else h3 in
  let k2 := xor_tail tail r 4 [7; 6; 5; 4] 0 in
  let h2 := if 5 <=? r then Z.lxor h2 (mix_k32 k2 c2 16 c3) else h2 in
  let k1 := xor_tail tail r 0 [3; 2; 1; 0] 0 in
  let h1 := if 1 <=? r then Z.lxor h1 (mix_k32 k1 c1 15 c2) else h1 in
  let l := u32 len in
  let '(h1, h2, h3, h4) := spread32 (Z.lxor h1 l, Z.lxor h2 l, Z.lxor h3 l, Z.lxor h4 l) in
  spread32 (fmix32 h1, fmix32 h2, fmix32 h3, fmix32 h4).

(** * MurmurHash3_x64_128 *)

Definition x64_c1 : Z := 0x87c37b91114253d5.
Definition x64_c2 : Z := 0x4cf5ad432745937f.

Definition mix_k1_64 (k1 : Z) : Z := u64 (rotl64 (u64 (k1 * x64_c1)) 31 * x64_c2).
Definition mix_k2_64 (k2 : Z) : Z := u64 (rotl64 (u64 (k2 * x64_c2)) 33 * x64_c1).

Definition block_x64_128 (key : list Z) (h : Z * Z) (i : Z) : Z * Z :=
  let '(h1, h2) := h in
  let k1 := getblock64 key (i * 2 + 0) in
  let k2 := getblock64 key (i * 2 + 1) in
  let h1 := Z.lxor h1 (mix_k1_64 k1) in
  let h1 := u64 (u64 (rotl64 h1 27 + h2) * 5 + 0x52dce729) in
  let h2 := Z.lxor h2 (mix_k2_64 k2) in
  let h2 := u64 (u64 (rotl64 h2 31 + h1) * 5 + 0x38495ab5) in
  (h1, h2).

Definition final_x64_128 (len : Z) (h : Z * Z) : Z * Z :=
  let '(h1, h2) := h in
  let h1 := Z.lxor h1 (u64 len) in
  let h2 := Z.lxor h2 (u64 len) in
  let h1 := u64 (h1 + h2) in
  let h2 := u64 (h2 + h1) in
  let h1 := fmix64 h1 in
  let h2 := fmix64 h2 in
  let h1 := u64 (h1 + h2) in
  let h2 := u64 (h2 + h1) in
  (h1, h2).

Definition MurmurHash3_x64_128 (key : list Z) (len seed : Z) : Z * Z :=
  let nblocks := len / 16 in
  let s := u32 seed in
  let '(h1, h2) := fold_left (block_x64_128 key) (seqZ 0 nblocks) (s, s) in
  let tail := drop (Z.to_nat (nblocks * 16)) key in
  let r := Z.land len 15 in
  let k2 := xor_tail tail r 8 [14; 13; 12; 11; 10; 9; 8] 0 in
  let h2 := if 9 <=? r then Z.lxor h2 (mix_k2_64 k2) else h2 in
  let k1 := xor_tail tail r 0 [7; 6; 5; 4; 3; 2; 1; 0] 0 in
  let h1 := if 1 <=? r then Z.lxor h1 (mix_k1_64 k1) else h1 in
  final_x64_128 len (h1, h2).

(** * Folding a hash to a bucket index *)

(** [for (index = 0; index < 64 / Shift; index += Shift)]. *)
Fixpoint fold_hash (fuel : nat) (index shift mask uh th : Z) : outcome Z :=
  match fuel with
  | O => Fail OutOfFuel
  | S fuel =>
      if index <? 64 / shift then
        let uh := Z.shiftr uh shift in
        fold_hash fuel (index + shift) shift mask uh (Z.lxor th (Z.land uh mask))
      else Done (Z.land th mask)
  end.

(** The mask is computed in [int], so [1 << Shift] is undefined from 31 on,
    before the assertion on the shift is reached; so is [64 / Shift] at 0.
    65 rounds of fuel are enough for every shift (there are at most 64). *)
Definition truncate_hash (UntruncatedHash Shift : Z) : outcome Z :=
  if 31 <=? Shift then Fail Undefined
  else
  let mask := Z.shiftl 1 Shift - 1 in
  c_assert (Shift <? 32);;
  if Shift =? 0 then Fail Undefined
  else fold_hash 65 0 Shift mask UntruncatedHash (Z.land UntruncatedHash mask).

(** * Invertible steps *)

Section Invertible.
Context (w : Z) (w_pos : 0 < w).

Lemma mul_unit x c ci : in_word w x -> (c * ci) mod 2 ^ w = 1 -> wrap w (wrap w (x * c) * ci) = x.
Proof using w_pos.
  intros Hx Hc. unfold wrap. rewrite Z.mul_mod_idemp_l by lia.
  rewrite <- Z.mul_assoc, <- Z.mul_mod_idemp_r, Hc, Z.mul_1_r by lia.
  by apply Z.mod_small.
Qed.

Lemma add_cancel x y a : in_word w x -> in_word w y -> wrap w (x + a) = wrap w (y + a) -> x = y.
Proof using w_pos.
  intros Hx Hy H. assert (wrap w (wrap w (x + a) - a) = wrap w (wrap w (y + a) - a)) as E by (by rewrite H).
  unfold wrap in E. rewrite !Zminus_mod_idemp_l in E.
  replace (x + a - a) with x in E by lia. replace (y + a - a) with y in E by lia.
  unfold in_word in *. by rewrite !Z.mod_small in E by lia.
Qed.

Lemma mul_cancel x y c ci :
  (c * ci) mod 2 ^ w = 1 -> in_word w x -> in_word w y -> wrap w (x * c) = wrap w (y * c) -> x = y.
Proof using w_pos.
  intros Hc Hx Hy H. rewrite <- (mul_unit x c ci), <- (mul_unit y c ci) by done. by rewrite H.
Qed.

(** [x * a + c] is injective for an invertible [a]. *)
Lemma affine_cancel x y a ai c :
  (a * ai) mod 2 ^ w = 1 -> in_word w x -> in_word w y ->
  wrap w (x * a + c) = wrap w (y * a + c) -> x = y.
Proof using w_pos.
  intros Ha Hx Hy E. apply (mul_cancel x y a ai); [done..|].
  assert (wrap w (wrap w (x * a + c) - c) = wrap w (wrap w (y * a + c) - c)) as E' by (by rewrite E).
  unfold wrap in *. rewrite !Zminus_mod_idemp_l in E'.
  by replace (x * a + c - c) with (x * a) in E' by lia; replace (y * a + c - c) with (y * a) in E' by lia.
Qed.

(** The inverse of [k ^= k >> s], for a shift of at least a third of the width. *)
Definition unxorshift (s k : Z) : Z :=
  Z.lxor (Z.lxor k (Z.shiftr k s)) (Z.shiftr k (2 * s)).

Lemma unxorshift_l s k :
  0 < s -> w <= 3 * s -> in_word w k -> unxorshift s (Z.lxor k (Z.shiftr k s)) = k.
Proof using w_pos.
  intros Hs Hw Hk. unfold unxorshift. apply Z.bits_inj'. intros i Hi. repeat bits_step.
  replace (i + 2 * s + s) with (i + s + s + s) by lia.
  replace (i + 2 * s) with (i + s + s) by lia.
  rewrite (word_high w k (i + s + s + s)) by (done || lia).
  by destruct (Z.testbit k i), (Z.testbit k (i + s)), (Z.testbit k (i + s + s)).
Qed.

Lemma unxorshift_r s k :
  0 < s -> w <= 3 * s -> in_word w k ->
  Z.lxor (unxorshift s k) (Z.shiftr (unxorshift s k) s) = k.
Proof using w_pos.
  intros Hs Hw Hk. unfold unxorshift. apply Z.bits_inj'. intros i Hi. repeat bits_step.
  replace (i + s + 2 * s) with (i + s + s + s) by lia.
  replace (i + 2 * s) with (i + s + s) by lia.
  rewrite (word_high w k (i + s + s + s)) by (done || lia).
  by destruct (Z.testbit k i), (Z.testbit k (i + s)), (Z.testbit k (i + s + s)).
Qed.

Lemma in_word_unxorshift s k : 0 < s -> in_word w k -> in_word w (unxorshift s k).
Proof using w_pos. intros. unfold unxorshift. auto 10 with bits lia. Qed.
End Invertible.

Lemma rotl64_spec x r i :
  0 < r < 64 -> in_word 64 x -> 0 <= i < 64 ->
  Z.testbit (rotl64 x r) i = Z.testbit x ((i - r) mod 64).
Proof.
  intros Hr Hx Hi. unfold rotl64. repeat bits_step.
  destruct (Z.ltb_spec i 64); [|lia]. simpl.
  destruct (Z.le_gt_cases r i).
  - rewrite (word_high 64 x (i + (64 - r))) by (done || lia).
    rewrite orb_false_r, Z.mod_small by lia. done.
  - rewrite (Z.testbit_neg_r x (i - r)) by lia. simpl. f_equal.
    rewrite <- (Z.mod_add _ 1), Z.mod_small by lia. lia.
Qed.

Lemma in_word_rotl64 x r : in_word 64 (rotl64 x r).
Proof. unfold rotl64. auto with bits. Qed.

Lemma rotl64_inj x y r :
  0 < r < 64 -> in_word 64 x -> in_word 64 y -> rotl64 x r = rotl64 y r -> x = y.
Proof.
  intros Hr Hx Hy E. apply Z.bits_inj'. intros i Hi.
  destruct (Z.lt_ge_cases i 64).
  - assert (Z.testbit (rotl64 x r) ((i + r) mod 64) = Z.testbit (rotl64 y r) ((i + r) mod 64)) as B
      by (by rewrite E).
    assert (0 <= (i + r) mod 64 < 64) by (apply Z.mod_pos_bound; lia).
    rewrite !rotl64_spec in B by done.
    assert (((i + r) mod 64 - r) mod 64 = i) as Er.
    { rewrite Zminus_mod_idemp_l. replace (i + r - r) with i by lia. apply Z.mod_small. lia. }
    by rewrite Er in B.
  - by rewrite (word_high 64 x), (word_high 64 y) by (done || lia).
Qed.

(** * The finalisers are bijections *)

Definition fmix32_inv (h : Z) : Z :=
  let h := unxorshift 16 h in
  let h := u32 (h * 0x7ed1b41d) in
  let h := unxorshift 13 h in
  let h := u32 (h * 0xa5cb9243) in
  unxorshift 16 h.

Definition fmix64_inv (k : Z) : Z :=
  let k := unxorshift 33 k in
  let k := u64 (k * 0x9cb4b2f8129337db) in
  let k := unxorshift 33 k in
  let k := u64 (k * 0x4f74430c22a54005) in
  unxorshift 33 k.

#[export] Hint Resolve in_word_rotl64 in_word_unxorshift : bits.
#[export] Hint Extern 1 (_ < _)%Z => lia : bits.

Lemma in_word_fmix64 k : in_word 64 k -> in_word 64 (fmix64 k).
Proof. intros. unfold fmix64. cbv zeta. auto 10 with bits. Qed.

Lemma in_word_fmix32 k : in_word 32 k -> in_word 32 (fmix32 k).
Proof. intros. unfold fmix32. cbv zeta. auto 10 with bits. Qed.

Lemma fmix64_inv_l k : in_word 64 k -> fmix64_inv (fmix64 k) = k.
Proof.
  intros Hk. unfold fmix64, fmix64_inv. cbv zeta.
  rewrite (unxorshift_l 64) by auto 10 with bits.
  rewrite (mul_unit 64) by (auto 10 with bits || reflexivity).
  rewrite (unxorshift_l 64) by auto 10 with bits.
  rewrite (mul_unit 64) by (auto 10 with bits || reflexivity).
  by rewrite (unxorshift_l 64) by auto 10 with bits.
Qed.

Lemma fmix64_inv_r k : in_word 64 k -> fmix64 (fmix64_inv k) = k.
Proof.
  intros Hk. unfold fmix64, fmix64_inv. cbv zeta.
  rewrite (unxorshift_r 64) by auto 10 with bits.
  rewrite (mul_unit 64) by (auto 10 with bits || reflexivity).
  rewrite (unxorshift_r 64) by auto 10 with bits.
  rewrite (mul_unit 64) by (auto 10 with bits || reflexivity).
  by rewrite (unxorshift_r 64) by auto 10 with bits.
Qed.

Lemma fmix32_inv_l k : in_word 32 k -> fmix32_inv (fmix32 k) = k.
Proof.
  intros Hk. unfold fmix32, fmix32_inv. cbv zeta.
  rewrite (unxorshift_l 32) by auto 10 with bits.
  rewrite (mul_unit 32) by (auto 10 with bits || reflexivity).
  rewrite (unxorshift_l 32) by auto 10 with bits.
  rewrite (mul_unit 32) by (auto 10 with bits || reflexivity).
  by rewrite (unxorshift_l 32) by auto 10 with bits.
Qed.

Lemma fmix32_inv_r k : in_word 32 k -> fmix32 (fmix32_inv k) = k.
Proof.
  intros Hk. unfold fmix32, fmix32_inv. cbv zeta.
  rewrite (unxorshift_r 32) by auto 10 with bits.
  rewrite (mul_unit 32) by (auto 10 with bits || reflexivity).
  rewrite (unxorshift_r 32) by auto 10 with bits.
  rewrite (mul_unit 32) by (auto 10 with bits || reflexivity).
  by rewrite (unxorshift_r 32) by auto 10 with bits.
Qed.

Lemma fmix64_inj x y : in_word 64 x -> in_word 64 y -> fmix64 x = fmix64 y -> x = y.
Proof. intros Hx Hy E. rewrite <- (fmix64_inv_l x), <- (fmix64_inv_l y) by done. by rewrite E. Qed.

(** * Injectivity of the 128-bit hash on the keys of the tables *)

Definition is_byte (b : Z) : Prop := 0 <= b < 256.

Lemma byte_high b i : is_byte b -> 8 <= i -> Z.testbit b i = false.
Proof. intros Hb Hi. apply (word_high 8); [done|lia]. Qed.

Lemma le_combine_cons b l :
  is_byte b -> le_combine (b :: l) = Z.lxor b (Z.shiftl (le_combine l) 8).
Proof.
  intros Hb. simpl. apply Z.bits_inj'. intros i Hi. repeat bits_step.
  destruct (Z.lt_ge_cases i 8).
  - rewrite (Z.testbit_neg_r _ (i - 8)) by lia. by destruct (Z.testbit b i).
  - rewrite (byte_high b) by done. by destruct (Z.testbit _ (i - 8)).
Qed.

Lemma le_combine_mod b l : is_byte b -> le_combine (b :: l) mod 2 ^ 8 = b.
Proof.
  intros Hb. apply Z.bits_inj'. intros i Hi.
  change (?x mod 2 ^ 8) with (wrap 8 x). rewrite wrap_spec by lia. simpl. repeat bits_step.
  destruct (Z.ltb_spec i 8); simpl.
  - rewrite (Z.testbit_neg_r _ (i - 8)) by lia. by rewrite orb_false_r.
  - by rewrite byte_high.
Qed.

Lemma le_combine_shiftr b l : is_byte b -> Z.shiftr (le_combine (b :: l)) 8 = le_combine l.
Proof.
  intros Hb. apply Z.bits_inj'. intros i Hi. simpl. repeat bits_step.
  rewrite byte_high by (done || lia). simpl. f_equal. lia.
Qed.

Lemma le_combine_inj l l' :
  length l = length l' -> Forall is_byte l -> Forall is_byte l' ->
  le_combine l = le_combine l' -> l = l'.
Proof.
  revert l'. induction l as [|b l IH]; intros [|b' l'] Hlen Hl Hl' E; simplify_eq/=; [done|].
  apply Forall_cons in Hl as [Hb Hl], Hl' as [Hb' Hl']. f_equal.
  - rewrite <- (le_combine_mod b l), <- (le_combine_mod b' l') by done. simpl. by rewrite E.
  - apply IH; [done..|].
    rewrite <- (le_combine_shiftr b l), <- (le_combine_shiftr b' l') by done. simpl. by rewrite E.
Qed.

Lemma le_combine_range l : Forall is_byte l -> 0 <= le_combine l < 2 ^ (8 * Z.of_nat (length l)).
Proof.
  induction 1 as [|b l Hb Hl IH]; [done|]. 
  apply word_of_bits; [lia| |].
  - simpl. apply Z.lor_nonneg. split; [unfold is_byte in Hb; lia|]. apply Z.shiftl_nonneg. lia.
  - intros i Hi. simpl in *. repeat bits_step. rewrite byte_high by (done || lia).
    simpl. apply (word_high (8 * Z.of_nat (length l))); [done|lia].
Qed.

(** Xoring the bytes of a full 8-byte tail is reading it as one word. *)
Lemma xor_tail_8 b0 b1 b2 b3 b4 b5 b6 b7 :
  Forall is_byte [b0; b1; b2; b3; b4; b5; b6; b7] ->
  xor_tail [b0; b1; b2; b3; b4; b5; b6; b7] 8 0 [7; 6; 5; 4; 3; 2; 1; 0] 0 =
  le_combine [b0; b1; b2; b3; b4; b5; b6; b7].
Proof.
  intros H. repeat (apply Forall_cons in H as [? H]).
  rewrite !le_combine_cons by done. rewrite !Z.shiftl_lxor, !Z.shiftl_shiftl by lia.
  unfold xor_tail. simpl. unfold byte_at. simpl.
  apply Z.bits_inj'. intros i Hi. rewrite !Z.lxor_spec, !Z.shiftl_0_l, Z.testbit_0_l.
  repeat match goal with
  | |- context [Z.shiftl ?b ?n] => let m := eval vm_compute in n in progress change n with m
  end.
  rewrite Z.shiftl_0_r.
  repeat match goal with |- context [Z.testbit ?x i] => generalize (Z.testbit x i); intros end.
  by repeat match goal with b : bool |- _ => destruct b end.
Qed.

Lemma in_word_mix_k1 k : in_word 64 (mix_k1_64 k).
Proof. unfold mix_k1_64. auto with bits. Qed.
Lemma in_word_mix_k2 k : in_word 64 (mix_k2_64 k).
Proof. unfold mix_k2_64. auto with bits. Qed.
#[export] Hint Resolve in_word_mix_k1 in_word_mix_k2 in_word_fmix64 in_word_fmix32 : bits.

Lemma mix_k1_inj x y : in_word 64 x -> in_word 64 y -> mix_k1_64 x = mix_k1_64 y -> x = y.
Proof.
  intros Hx Hy E. unfold mix_k1_64 in E.
  apply (mul_cancel 64) with (ci := 0xa81e14edd9de2c7f) in E; [|done..|auto with bits|auto with bits].
  apply rotl64_inj in E; [|auto with bits..]. 
  by apply (mul_cancel 64) with (ci := 0xa98409e882ce4d7d) in E.
Qed.

Lemma mix_k2_inj x y : in_word 64 x -> in_word 64 y -> mix_k2_64 x = mix_k2_64 y -> x = y.
Proof.
  intros Hx Hy E. unfold mix_k2_64 in E.
  apply (mul_cancel 64) with (ci := 0xa98409e882ce4d7d) in E; [|done..|auto with bits|auto with bits].
  apply rotl64_inj in E; [|auto with bits..]. 
  by apply (mul_cancel 64) with (ci := 0xa81e14edd9de2c7f) in E.
Qed.

Lemma lxor_cancel a x y : Z.lxor a x = Z.lxor a y -> x = y.
Proof.
  intros E. assert (Z.lxor a (Z.lxor a x) = Z.lxor a (Z.lxor a y)) as H by (by rewrite E).
  by rewrite <- !Z.lxor_assoc, !Z.lxor_nilpotent, !Z.lxor_0_l in H.
Qed.

Lemma lxor_cancel_r a x y : Z.lxor x a = Z.lxor y a -> x = y.
Proof. rewrite !(Z.lxor_comm _ a). apply lxor_cancel. Qed.

Lemma final_x64_128_inj len h1 h2 g1 g2 :
  in_word 64 h1 -> in_word 64 h2 -> in_word 64 g1 -> in_word 64 g2 ->
  final_x64_128 len (h1, h2) = final_x64_128 len (g1, g2) -> h1 = g1 /\ h2 = g2.
Proof.
  intros H1 H2 G1 G2 E. unfold final_x64_128 in E. injection E as E1 E2.
  rewrite E1 in E2. apply add_cancel in E2; [|auto with bits..].
  rewrite E2 in E1. apply add_cancel in E1; [|auto with bits..].
  apply fmix64_inj in E2; [|auto with bits..]. apply fmix64_inj in E1; [|auto with bits..].
  rewrite E1 in E2. apply add_cancel in E2; [|auto with bits..].
  apply lxor_cancel_r in E2 as ->. apply add_cancel in E1; [|auto with bits..].
  by apply lxor_cancel_r in E1 as ->.
Qed.

Lemma in_word_le_combine8 l : length l = 8%nat -> Forall is_byte l -> in_word 64 (le_combine l).
Proof. intros Hl Hb. pose proof (le_combine_range l Hb) as R. rewrite Hl in R. apply R. Qed.

Lemma murmur_8 key seed :
  length key = 8%nat -> Forall is_byte key ->
  MurmurHash3_x64_128 key 8 seed =
    final_x64_128 8 (Z.lxor (u32 seed) (mix_k1_64 (le_combine key)), u32 seed).
Proof.
  intros Hl Hb. do 8 (destruct key as [|? key]; [done|]). destruct key; [|done].
  rewrite <- xor_tail_8 by done. reflexivity.
Qed.

Lemma murmur_16 key seed :
  length key = 16%nat -> Forall is_byte key ->
  MurmurHash3_x64_128 key 16 seed =
    final_x64_128 16 (block_x64_128 key (u32 seed, u32 seed) 0).
Proof.
  intros Hl Hb. unfold MurmurHash3_x64_128.
  change (seqZ 0 (16 / 16)) with [0]. cbn [fold_left]. change (Z.land 16 15) with 0.
  destruct (block_x64_128 key (u32 seed, u32 seed) 0) as [h1 h2]. reflexivity.
Qed.

Lemma in_word_block key h1 h2 i :
  in_word 64 (block_x64_128 key (h1, h2) i).1 /\ in_word 64 (block_x64_128 key (h1, h2) i).2.
Proof. split; apply in_word_wrap; lia. Qed.

Lemma in_word_seed seed : in_word 64 (u32 seed).
Proof. pose proof (wrap_range 32 seed). unfold in_word. lia. Qed.
#[export] Hint Resolve in_word_seed in_word_le_combine8 : bits.

Lemma block_x64_128_inj key key' seed :
  length key = 16%nat -> length key' = 16%nat -> Forall is_byte key -> Forall is_byte key' ->
  block_x64_128 key (u32 seed, u32 seed) 0 = block_x64_128 key' (u32 seed, u32 seed) 0 ->
  key = key'.
Proof.
  intros Hl Hl' Hb Hb' E. unfold block_x64_128 in E. injection E as E1 E2.
  rewrite E1 in E2.
  apply (affine_cancel 64) with (ai := 0xcccccccccccccccd) in E2; [|done|done|auto with bits..].
  apply add_cancel in E2; [|auto with bits..].
  apply rotl64_inj in E2; [|auto with bits..]. apply lxor_cancel in E2.
  apply (affine_cancel 64) with (ai := 0xcccccccccccccccd) in E1; [|done|done|auto with bits..].
  apply add_cancel in E1; [|auto with bits..].
  apply rotl64_inj in E1; [|auto with bits..]. apply lxor_cancel in E1.
  unfold getblock64 in *. simpl in E1, E2. 
  assert (forall l n, Forall is_byte l -> Forall is_byte (take 8 (drop n l))) as F
    by (intros; by apply Forall_take, Forall_drop).
  apply mix_k1_inj in E1; [|apply in_word_le_combine8; [rewrite ?length_take, ?length_drop; lia|auto]..].
  apply mix_k2_inj in E2; [|apply in_word_le_combine8; [rewrite ?length_take, ?length_drop; lia|auto]..].
  apply le_combine_inj in E1; [|rewrite !length_take, ?length_drop; lia|auto..].
  apply le_combine_inj in E2; [|rewrite !length_take, ?length_drop; lia|auto..].
  rewrite (take_ge (drop 8 key)), (take_ge (drop 8 key')) in E2 by (rewrite length_drop; lia).
  rewrite <- (take_drop 8 key), <- (take_drop 8 key'). by f_equal.
Qed.

(** both finalisers of MurmurHash3 are bijections on words of their
    width, so no entropy is lost in the last step of any variant. *)
Theorem fmix_bijective :
  (forall k, in_word 64 k -> in_word 64 (fmix64 k) /\
     fmix64_inv (fmix64 k) = k /\ fmix64 (fmix64_inv k) = k) /\
  (forall k, in_word 32 k -> in_word 32 (fmix32 k) /\
     fmix32_inv (fmix32 k) = k /\ fmix32 (fmix32_inv k) = k).
Proof.
  split; intros k Hk.
  - split; [by apply in_word_fmix64|]. by split; [apply fmix64_inv_l|apply fmix64_inv_r].
  - split; [by apply in_word_fmix32|]. by split; [apply fmix32_inv_l|apply fmix32_inv_r].
Qed.

(** on keys of the two sizes the tables use, 8 bytes (an inode number)
    and 16 bytes (a UUID), the 128-bit hash is injective for every seed: two
    different keys never collide before the two halves are mixed. *)
Theorem murmur_x64_injective n key key' seed :
  n = 8%nat \/ n = 16%nat -> length key = n -> length key' = n ->
  Forall is_byte key -> Forall is_byte key' ->
  MurmurHash3_x64_128 key (Z.of_nat n) seed = MurmurHash3_x64_128 key' (Z.of_nat n) seed ->
  key = key'.
Proof.
  intros [->| ->] Hl Hl' Hb Hb' E.
  - change (Z.of_nat 8) with 8 in E. rewrite !murmur_8 in E by done.
    apply final_x64_128_inj in E as [E _]; [|auto with bits..].
    apply lxor_cancel, mix_k1_inj in E; [|auto with bits..].
    apply le_combine_inj in E; [done|lia|done..].
  - change (Z.of_nat 16) with 16 in E. rewrite !murmur_16 in E by done.
    apply (block_x64_128_inj key key' seed); [done..|].
    pose proof (in_word_block key (u32 seed) (u32 seed) 0) as W.
    pose proof (in_word_block key' (u32 seed) (u32 seed) 0) as W'. revert W W' E.
    generalize (block_x64_128 key (u32 seed, u32 seed) 0),
      (block_x64_128 key' (u32 seed, u32 seed) 0).
    intros [h1 h2] [g1 g2] [] [] E.
    apply final_x64_128_inj in E as [-> ->]; [done|auto with bits..].
Qed.

Lemma murmur_x64_injective_witness :
  MurmurHash3_x64_128 [1; 0; 0; 0; 0; 0; 0; 0] 8 0x7800c666 <>
    MurmurHash3_x64_128 [2; 0; 0; 0; 0; 0; 0; 0] 8 0x7800c666.
Proof.
  intros E.
  assert (forall b, 0 <= b < 256 -> Forall is_byte [b; 0; 0; 0; 0; 0; 0; 0]) as F.
  { intros b Hb. unfold is_byte. repeat apply Forall_cons_2; [lia..|apply Forall_nil_2]. }
  assert ([1; 0; 0; 0; 0; 0; 0; 0] = [2; 0; 0; 0; 0; 0; 0; 0]) as H.
  { refine (murmur_x64_injective 8 _ _ 0x7800c666 _ _ _ _ _ E);
      [by left|reflexivity|reflexivity|apply F; lia|apply F; lia]. }
  clear E. discriminate H.
Defined.

(** The published test vectors. *)
Example murmur_x86_32_hello : MurmurHash3_x86_32 [104; 101; 108; 108; 111] 5 0 = 0x248bfa47.
Proof. vm_compute. reflexivity. Qed.

Example murmur_x64_128_hello :
  MurmurHash3_x64_128 [104; 101; 108; 108; 111] 5 0 = (0xcbd8a7b341bd9b02, 0x5b1e906a48ae1d19).
Proof. vm_compute. reflexivity. Qed.

(** * The folding *)

Lemma fold_hash_total fuel index shift mask uh th :
  1 <= shift -> 0 <= index -> 0 < Z.of_nat fuel -> 64 / shift - index < Z.of_nat fuel ->
  exists x, fold_hash fuel index shift mask uh th = Done (Z.land x mask).
Proof.
  revert index uh th. induction fuel as [|fuel IH]; intros index uh th Hs Hi H0 Hf; simpl; [lia|].
  destruct (Z.ltb_spec index (64 / shift)); [apply IH; lia|eauto].
Qed.

Lemma mask_ones s : 0 <= s -> Z.shiftl 1 s - 1 = Z.ones s.
Proof. intros. by rewrite Z.shiftl_1_l, Z.ones_equiv, Z.sub_1_r. Qed.

Lemma fold_hash_step fuel index shift mask uh th :
  index < 64 / shift ->
  fold_hash (S fuel) index shift mask uh th =
    fold_hash fuel (index + shift) shift mask (Z.shiftr uh shift)
      (Z.lxor th (Z.land (Z.shiftr uh shift) mask)).
Proof. intros H. cbn [fold_hash]. by destruct (Z.ltb_spec index (64 / shift)); [|lia]. Qed.

Lemma fold_hash_stop fuel index shift mask uh th :
  64 / shift <= index -> fold_hash (S fuel) index shift mask uh th = Done (Z.land th mask).
Proof. intros H. cbn [fold_hash]. by destruct (Z.ltb_spec index (64 / shift)); [lia|]. Qed.

(** The guards of [truncate_hash] for the shifts a table may have. *)
Lemma truncate_hash_run h shift :
  1 <= shift <= 30 ->
  truncate_hash h shift = fold_hash 65 0 shift (Z.ones shift) h (Z.land h (Z.ones shift)).
Proof.
  intros Hb. unfold truncate_hash. rewrite mask_ones by lia.
  destruct (Z.leb_spec 31 shift); [lia|].
  unfold c_assert. destruct (Z.ltb_spec shift 32); [|lia].
  by destruct (Z.eqb_spec shift 0); [lia|].
Qed.

Lemma land_ones_ones x s : 0 <= s -> Z.land (Z.land x (Z.ones s)) (Z.ones s) = Z.land x (Z.ones s).
Proof. intros. by rewrite <- Z.land_assoc, Z.land_diag. Qed.

Lemma land_lxor_distr_l x y z : Z.land (Z.lxor x y) z = Z.lxor (Z.land x z) (Z.land y z).
Proof.
  apply Z.bits_inj'. intros i Hi. repeat bits_step.
  by destruct (Z.testbit x i), (Z.testbit y i), (Z.testbit z i).
Qed.

Lemma truncate_hash_done h shift :
  1 <= shift <= 30 -> exists i, truncate_hash h shift = Done i /\ 0 <= i < 2 ^ shift.
Proof.
  intros Hb. rewrite truncate_hash_run by done.
  assert (64 / shift <= 64) by (apply Z.div_le_upper_bound; lia).
  destruct (fold_hash_total 65 0 shift (Z.ones shift) h (Z.land h (Z.ones shift))) as [x Hx]; [lia..|].
  exists (Z.land x (Z.ones shift)). split; [done|].
  rewrite Z.land_ones by lia. apply Z.mod_pos_bound. lia.
Qed.

(** [truncate_hash] returns for every shift from 1 to 30, with an index
    below the [2 ^ Shift] buckets of a table; at 0 and from 31 on its
    arithmetic is undefined. *)
Theorem truncate_hash_bounds h shift :
  0 <= shift ->
  (1 <= shift <= 30 ->
     exists i, truncate_hash h shift = Done i /\ 0 <= i < 2 ^ shift) /\
  (shift = 0 \/ 31 <= shift -> truncate_hash h shift = Fail Undefined).
Proof.
  intros Hs. split.
  - apply truncate_hash_done.
  - unfold truncate_hash. intros [->|H]; [done|]. by destruct (Z.leb_spec 31 shift); [|lia].
Qed.

(** from shift 8 on the loop folds once only, since its bound counts
    pieces while its index counts bits: the index is the exclusive or of the
    two lowest pieces and the hash bits from [2 * Shift] up never reach it.
    Tables of 2^8 buckets and more ignore most of a 64-bit hash. *)
Theorem truncate_hash_low_bits h shift :
  8 <= shift <= 30 ->
  truncate_hash h shift = Done ((Z.lxor h (Z.shiftr h shift)) mod 2 ^ shift).
Proof.
  intros Hs. rewrite truncate_hash_run by lia.
  assert (1 <= 64 / shift <= 8) as Hq.
  { split; [apply Z.div_le_lower_bound; lia|apply Z.div_le_upper_bound; lia]. }
  rewrite fold_hash_step, fold_hash_stop by lia.
  by rewrite <- land_lxor_distr_l, land_ones_ones, Z.land_ones by lia.
Qed.

Lemma truncate_hash_bounds_witness :
  exists i, truncate_hash 0x1122334455667788 10 = Done i /\ 0 <= i < 2 ^ 10.
Proof. apply (truncate_hash_bounds 0x1122334455667788 10); lia. Defined.

(** Two hashes that differ in bits 20 to 63 only share their bucket. *)
Lemma truncate_hash_low_bits_witness :
  truncate_hash 0x1122334455667788 10 = truncate_hash 0x67788 10.
Proof.
  rewrite (truncate_hash_low_bits 0x1122334455667788 10), (truncate_hash_low_bits 0x67788 10) by lia.
  reflexivity.
Defined.

Lemma fmix_bijective_witness : fmix64_inv (fmix64 0x0123456789abcdef) = 0x0123456789abcdef.
Proof.
  assert (in_word 64 0x0123456789abcdef) as H by (unfold in_word; lia).
  exact (proj1 (proj2 (proj1 fmix_bijective _ H))).
Defined.
