(* ===== verification/FastLookup.v ===== *)
(** The lookup table of src/finesse/utils/fastlookup.c.

    The server finds an object by the inode number of the file system and by
    the UUID it hands to clients.  A table has 2^k buckets; each bucket holds
    the head of a list of entries by inode number and the head of a list of
    entries by UUID, the entry found last, a reader-writer lock, and a hash of
    its own list heads: whoever takes the lock recomputes the hash, and an
    assertion compares it with the one stored when the last writer left.

    This file has the code: tables, buckets and entries in memory (the list
    entries on the heap of ListEntry.v), the lookups, insertion, release, and
    the creation and destruction of tables.  LookupTable.v has what they
    promise. *)

From stdpp Require Import gmap.
From S2P Require Import Prelude ListEntry Murmur.

#[local] Open Scope word_scope.

(** The functions of libuuid the table relies on. *)
Class Libuuid := {
  uuid_is_null : list Z -> bool;
  uuid_compare : list Z -> list Z -> Z }.

(** The null UUID has 16 zero bytes; comparison is 0 on equal UUIDs only. *)
Class LibuuidLaws `{Libuuid} : Prop := {
  uuid_is_null_true u : length u = 16%nat -> uuid_is_null u = true <-> u = replicate 16 0;
  uuid_compare_0 u v : length u = 16%nat -> length v = 16%nat -> uuid_compare u v = 0 <-> u = v }.

(** Where the two static lists of released entries are. *)
Class Statics := { FreedInodeList : ptr; FreedUuidList : ptr }.

(** * Data *)

Record finesse_object := { inode : Z; uuid : list Z; freed : Z }.

Record lookup_entry_t := { e_Magic : Z; ReferenceCount : Z; Object : finesse_object }.

(** The lock of a bucket: [Readers n] has [n + 1] readers. *)
Inductive bucket_lock : Type := Free | Readers (n : nat) | Writer.

(** The list heads of a bucket are on the heap of list entries;
    [HashFunction] says whether the function pointer is set. *)
Record lookup_bucket := {
  b_Magic : Z;
  b_EntryCount : Z;
  LastEntry : ptr;
  LookupEntryType : Z;
  HashFunction : bool;
  LastHashValue : Z;
  Lock : bucket_lock }.

Record lookup_table := {
  tbl_Magic : Z;
  tbl_EntryCount : Z;
  tbl_BucketCountShift : Z;
  tbl_Buckets : ptr;
  tbl_HashSeed : Z }.

Record memory := {
  lists : heap;
  entries : gmap ptr lookup_entry_t;
  buckets : gmap ptr lookup_bucket;
  tables : gmap ptr lookup_table;
  freed_list_locked : bool;
  ObjectTable : ptr }.

Definition FAST_LOOKUP_ENTRY_MAGIC : Z := 0x4a0a84a016989cdf.
Definition FAST_LOOKUP_TABLE_BUCKET_MAGIC : Z := 0x7800c6664e1c877c.
Definition FAST_LOOKUP_TABLE_MAGIC : Z := 0xe54c949fe52c2af5.
Definition LookupEntryTypeLinkedLists : Z := 73.
Definition UseFreedLists : Z := 1.
Definition DEFAULT_SEED : Z := 0x7800c666.

(** Offsets and sizes as the x86-64 ABI lays the structures out. *)
Definition inode_link (entry : ptr) : ptr := entry + 16.
Definition uuid_link (entry : ptr) : ptr := entry + 32.
Definition object_of (entry : ptr) : ptr := entry + 48.
Definition inode_head (bucket : ptr) : ptr := bucket + 32.
Definition uuid_head (bucket : ptr) : ptr := bucket + 48.
Definition SIZEOF_BUCKET : Z := 192.
Definition SIZEOF_TABLE : Z := 128.

(** * Memory *)

Definition set_lists (h : heap) (m : memory) : memory :=
  {| lists := h; entries := entries m; buckets := buckets m; tables := tables m;
     freed_list_locked := freed_list_locked m; ObjectTable := ObjectTable m |}.
Definition set_entries (f : gmap ptr lookup_entry_t -> gmap ptr lookup_entry_t) (m : memory) : memory :=
  {| lists := lists m; entries := f (entries m); buckets := buckets m; tables := tables m;
     freed_list_locked := freed_list_locked m; ObjectTable := ObjectTable m |}.
Definition set_buckets (f : gmap ptr lookup_bucket -> gmap ptr lookup_bucket) (m : memory) : memory :=
  {| lists := lists m; entries := entries m; buckets := f (buckets m); tables := tables m;
     freed_list_locked := freed_list_locked m; ObjectTable := ObjectTable m |}.
Definition set_tables (f : gmap ptr lookup_table -> gmap ptr lookup_table) (m : memory) : memory :=
  {| lists := lists m; entries := entries m; buckets := buckets m; tables := f (tables m);
     freed_list_locked := freed_list_locked m; ObjectTable := ObjectTable m |}.
Definition set_freed_lock (b : bool) (m : memory) : memory :=
  {| lists := lists m; entries := entries m; buckets := buckets m; tables := tables m;
     freed_list_locked := b; ObjectTable := ObjectTable m |}.
Definition set_object_table (p : ptr) (m : memory) : memory :=
  {| lists := lists m; entries := entries m; buckets := buckets m; tables := tables m;
     freed_list_locked := freed_list_locked m; ObjectTable := p |}.

Definition with_refs (n : Z) (e : lookup_entry_t) : lookup_entry_t :=
  {| e_Magic := e_Magic e; ReferenceCount := n; Object := Object e |}.
Definition with_freed (n : Z) (e : lookup_entry_t) : lookup_entry_t :=
  {| e_Magic := e_Magic e; ReferenceCount := ReferenceCount e;
     Object := {| inode := inode (Object e); uuid := uuid (Object e); freed := n |} |}.
Definition with_lock (l : bucket_lock) (b : lookup_bucket) : lookup_bucket :=
  {| b_Magic := b_Magic b; b_EntryCount := b_EntryCount b; LastEntry := LastEntry b;
     LookupEntryType := LookupEntryType b; HashFunction := HashFunction b;
     LastHashValue := LastHashValue b; Lock := l |}.
Definition with_hash (h : Z) (b : lookup_bucket) : lookup_bucket :=
  {| b_Magic := b_Magic b; b_EntryCount := b_EntryCount b; LastEntry := LastEntry b;
     LookupEntryType := LookupEntryType b; HashFunction := HashFunction b;
     LastHashValue := h; Lock := Lock b |}.
Definition with_last (p : ptr) (b : lookup_bucket) : lookup_bucket :=
  {| b_Magic := b_Magic b; b_EntryCount := b_EntryCount b; LastEntry := p;
     LookupEntryType := LookupEntryType b; HashFunction := HashFunction b;
     LastHashValue := LastHashValue b; Lock := Lock b |}.
Definition with_count (n : Z) (b : lookup_bucket) : lookup_bucket :=
  {| b_Magic := b_Magic b; b_EntryCount := n; LastEntry := LastEntry b;
     LookupEntryType := LookupEntryType b; HashFunction := HashFunction b;
     LastHashValue := LastHashValue b; Lock := Lock b |}.

Definition lift_list {A : Type} (c : M heap A) : M memory A :=
  fun m => match c (lists m) with Done (a, h) => Done (a, set_lists h m) | Fail f => Fail f end.

Definition lift_outcome {A : Type} (o : outcome A) : M memory A :=
  fun m => match o with Done a => Done (a, m) | Fail f => Fail f end.

Definition load_entry (p : ptr) : M memory lookup_entry_t := m ← get_state; deref (entries m !! p).
Definition load_bucket (p : ptr) : M memory lookup_bucket := m ← get_state; deref (buckets m !! p).
Definition load_table (p : ptr) : M memory lookup_table := m ← get_state; deref (tables m !! p).

Definition update_entry (p : ptr) (f : lookup_entry_t -> lookup_entry_t) : M memory unit :=
  _ ← load_entry p; modify_state (set_entries (alter f p)).
Definition update_bucket (p : ptr) (f : lookup_bucket -> lookup_bucket) : M memory unit :=
  _ ← load_bucket p; modify_state (set_buckets (alter f p)).

(** __atomic_fetch_add and __atomic_fetch_sub on a reference count *)
Definition fetch_add_refs (p : ptr) (d : Z) : M memory Z :=
  e ← load_entry p; update_entry p (with_refs (u64 (ReferenceCount e + d)));; mret (ReferenceCount e).
Definition add_bucket_count (p : ptr) (d : Z) : M memory unit :=
  b ← load_bucket p; update_bucket p (with_count (u64 (b_EntryCount b + d))).

(** * Hashes of buckets, locks *)

(** The eight bytes of a word in memory. *)
Definition word_bytes (x : Z) : list Z :=
  (fun i => Z.land (Z.shiftr x (8 * i)) 255) <$> [0; 1; 2; 3; 4; 5; 6; 7].

Definition CHECK_FAST_LOOKUP_TABLE_MAGIC (table : ptr) : M memory unit :=
  t ← load_table table; c_assert (tbl_Magic t =? FAST_LOOKUP_TABLE_MAGIC).
Definition CHECK_FAST_LOOKUP_TABLE_BUCKET_MAGIC (Bucket : ptr) : M memory unit :=
  b ← load_bucket Bucket; c_assert (b_Magic b =? FAST_LOOKUP_TABLE_BUCKET_MAGIC).

(** The hash of the four pointers of a bucket's list heads. *)
Definition instance_hash (a b c d : ptr) : Z :=
  let '(h1, h2) :=
    MurmurHash3_x64_128 (word_bytes a ++ word_bytes b ++ word_bytes c ++ word_bytes d) 32 0x7800c666 in
  let hash := Z.lxor h1 h2 in
  if hash =? 0 then 2 ^ 64 - 1 else hash.

Definition LookupBucketHashFunction (Bucket : ptr) : M memory Z :=
  c_assert (negb (Bucket =? NULL));;
  CHECK_FAST_LOOKUP_TABLE_BUCKET_MAGIC Bucket;;
  a ← lift_list (get_next (inode_head Bucket));
  b ← lift_list (get_prev (inode_head Bucket));
  c ← lift_list (get_next (uuid_head Bucket));
  d ← lift_list (get_prev (uuid_head Bucket));
  mret (instance_hash a b c d).

Definition pthread_rwlock_lock (Bucket : ptr) (exclusive : bool) : M memory unit :=
  b ← load_bucket Bucket;
  match Lock b, exclusive with
  | Free, true => update_bucket Bucket (with_lock Writer)
  | Free, false => update_bucket Bucket (with_lock (Readers 0))
  | Readers n, false => update_bucket Bucket (with_lock (Readers (S n)))
  | _, _ => mthrow Deadlock
  end.

Definition pthread_rwlock_unlock (Bucket : ptr) : M memory unit :=
  b ← load_bucket Bucket;
  match Lock b with
  | Free => mthrow Undefined
  | Readers (S n) => update_bucket Bucket (with_lock (Readers n))
  | Readers O | Writer => update_bucket Bucket (with_lock Free)
  end.

Definition pthread_rwlock_trywrlock (Bucket : ptr) : M memory Z :=
  b ← load_bucket Bucket;
  match Lock b with
  | Free => update_bucket Bucket (with_lock Writer);; mret 0
  | _ => mret EBUSY
  end.

Definition pthread_rwlock_tryrdlock (Bucket : ptr) : M memory Z :=
  b ← load_bucket Bucket;
  match Lock b with
  | Free => update_bucket Bucket (with_lock (Readers 0));; mret 0
  | Readers n => update_bucket Bucket (with_lock (Readers (S n)));; mret 0
  | Writer => mret EBUSY
  end.

Definition LockBucket (Bucket : ptr) (Exclusive : bool) : M memory Z :=
  c_assert (negb (Bucket =? NULL));;
  CHECK_FAST_LOOKUP_TABLE_BUCKET_MAGIC Bucket;;
  pthread_rwlock_lock Bucket Exclusive;;
  b ← load_bucket Bucket;
  if HashFunction b then
    currentHashValue ← LookupBucketHashFunction Bucket;
    c_assert (LastHashValue b =? currentHashValue);;
    mret currentHashValue
  else mret 0.

(** The lock's mode is found by trying it: a lock that can be read is shared. *)
Definition UnlockBucket (Bucket : ptr) : M memory unit :=
  c_assert (negb (Bucket =? NULL));;
  CHECK_FAST_LOOKUP_TABLE_BUCKET_MAGIC Bucket;;
  b ← load_bucket Bucket;
  currentHashValue ← (if HashFunction b then LookupBucketHashFunction Bucket else mret 0);
  status ← pthread_rwlock_trywrlock Bucket;
  c_assert (negb (status =? 0));;
  status ← pthread_rwlock_tryrdlock Bucket;
  exclusive ← (if status =? 0 then pthread_rwlock_unlock Bucket;; mret false
               else if (status =? EDEADLK) || (status =? EBUSY) then mret true
               else if status =? EAGAIN then mret false
               else mthrow AssertFailed);
  (if (exclusive : bool) then update_bucket Bucket (with_hash currentHashValue)
   else b ← load_bucket Bucket; c_assert (LastHashValue b =? currentHashValue));;
  pthread_rwlock_unlock Bucket.

(** * Finding a bucket *)

(** The index of a key: the hash of its bytes, folded. *)
Definition key_index (HashSeed BucketCountShift : Z) (Key : list Z) : outcome Z :=
  let '(h1, h2) := MurmurHash3_x64_128 Key (Z.of_nat (length Key)) HashSeed in
  index ← truncate_hash (Z.lxor h1 h2) BucketCountShift;
  Done (u16 index).

Definition GetBucketIndex (Table : ptr) (Key : list Z) : M memory Z :=
  c_assert (negb (Table =? NULL));;
  c_assert (0 <? Z.of_nat (length Key));;
  CHECK_FAST_LOOKUP_TABLE_MAGIC Table;;
  t ← load_table Table;
  index ← lift_outcome (key_index (tbl_HashSeed t) (tbl_BucketCountShift t) Key);
  c_assert (index <? Z.shiftl 1 (tbl_BucketCountShift t));;
  mret index.

Definition GetBucketIndexForInode (Table : ptr) (InodeNumber : Z) : M memory Z :=
  c_assert (negb (InodeNumber =? 0));; GetBucketIndex Table (word_bytes InodeNumber).

Definition bucket_address (Buckets : ptr) (index : Z) : ptr := Buckets + SIZEOF_BUCKET * index.

(** [&Table->Buckets[index]] *)
Definition bucket_at (Table : ptr) (index : Z) : M memory ptr :=
  t ← load_table Table; mret (bucket_address (tbl_Buckets t) index).

Definition check_bucket (bucket : ptr) : M memory unit :=
  CHECK_FAST_LOOKUP_TABLE_BUCKET_MAGIC bucket;;
  b ← load_bucket bucket;
  c_assert (LookupEntryType b =? LookupEntryTypeLinkedLists).

(** The walk over one of the two lists of a bucket; [offset] is the offset of
    the link in an entry. *)
Fixpoint search (fuel : nat) (offset : Z) (matches : lookup_entry_t -> bool) (listHead le : ptr) : M memory ptr :=
  match fuel with
  | O => mthrow OutOfFuel
  | S fuel =>
      if le =? listHead then mret NULL else
      e ← load_entry (le - offset);
      if matches e then mret (le - offset)
      else n ← lift_list (get_next le); search fuel offset matches listHead n
  end.

Definition search_list (offset : Z) (matches : lookup_entry_t -> bool) (listHead : ptr) : M memory ptr :=
  m ← get_state;
  le ← lift_list (list_head listHead);
  search (S (size (lists m))) offset matches listHead le.

(** The entry found last, if it is the one wanted. *)
Definition cached (LastEntry : ptr) (matches : lookup_entry_t -> bool) : M memory ptr :=
  if LastEntry =? NULL then mret NULL
  else e ← load_entry LastEntry; mret (if matches e then LastEntry else NULL).

Definition has_inode (InodeNumber : Z) (e : lookup_entry_t) : bool := inode (Object e) =? InodeNumber.
Definition has_uuid (Uuid : list Z) (e : lookup_entry_t) : bool := bool_decide (uuid (Object e) = Uuid).

Section Code.
Context `{!Libuuid, !Statics}.

Definition GetBucketIndexForUuid (Table : ptr) (Uuid : list Z) : M memory Z :=
  c_assert (negb (uuid_is_null Uuid));; GetBucketIndex Table Uuid.

(** A UUID in the cache is compared by [uuid_compare], one in the list by
    [memcmp]. *)
Definition lookup_entry (Bucket : ptr) (InodeNumber : Z) (Uuid : list Z) : M memory ptr :=
  c_assert ((InodeNumber =? 0) || uuid_is_null Uuid);;
  c_assert (negb (InodeNumber =? 0) || negb (uuid_is_null Uuid));;
  c_assert (negb (Bucket =? NULL));;
  check_bucket Bucket;;
  b ← load_bucket Bucket;
  entry ← cached (LastEntry b)
    (if negb (InodeNumber =? 0) then has_inode InodeNumber
     else fun e => uuid_compare Uuid (uuid (Object e)) =? 0);
  if negb (entry =? NULL) then mret entry else
  entry ← (if negb (InodeNumber =? 0) then search_list 16 (has_inode InodeNumber) (inode_head Bucket)
           else search_list 32 (has_uuid Uuid) (uuid_head Bucket));
  (if negb (entry =? NULL) then update_bucket Bucket (with_last entry) else mret ());;
  mret entry.

Definition null_uuid : list Z := replicate 16 0.

Definition FinesseObjectLookupByIno (Table : ptr) (InodeNumber : Z) : M memory ptr :=
  c_assert (negb (Table =? NULL));;
  CHECK_FAST_LOOKUP_TABLE_MAGIC Table;;
  index ← GetBucketIndexForInode Table InodeNumber;
  bucket ← bucket_at Table index;
  check_bucket bucket;;
  LockBucket bucket false;;
  entry ← lookup_entry bucket InodeNumber null_uuid;
  (if negb (entry =? NULL) then fetch_add_refs entry 1;; mret () else mret ());;
  UnlockBucket bucket;;
  mret (if negb (entry =? NULL) then object_of entry else NULL).

Definition FinesseObjectLookupByUuid (Table : ptr) (Uuid : list Z) : M memory ptr :=
  c_assert (negb (Table =? NULL));;
  CHECK_FAST_LOOKUP_TABLE_MAGIC Table;;
  index ← GetBucketIndexForUuid Table Uuid;
  bucket ← bucket_at Table index;
  check_bucket bucket;;
  LockBucket bucket false;;
  entry ← lookup_entry bucket 0 Uuid;
  (if negb (entry =? NULL) then
     refcount ← fetch_add_refs entry 1; c_assert (0 <? refcount)
   else mret ());;
  UnlockBucket bucket;;
  mret (if negb (entry =? NULL) then object_of entry else NULL).

(** * Releasing *)

Definition LockFreedList : M memory unit :=
  m ← get_state; if freed_list_locked m then mthrow Deadlock else put_state (set_freed_lock true m).
Definition UnlockFreedList : M memory unit := modify_state (set_freed_lock false).

(** The two buckets of an entry, by increasing index, and once if they are
    the same. *)
Definition lock_both (Table : ptr) (first second : Z) : M memory unit :=
  b ← bucket_at Table first; LockBucket b true;;
  if negb (first =? second) then b ← bucket_at Table second; LockBucket b true;; mret () else mret ().

Definition unlock_both (Table : ptr) (first second : Z) : M memory unit :=
  (if negb (first =? second) then b ← bucket_at Table second; UnlockBucket b else mret ());;
  b ← bucket_at Table first; UnlockBucket b.

(** A compare-and-exchange of the cache of a bucket that expects the entry
    and, when it fails, overwrites the variable that held the entry. *)
Definition exchange_last (bucket Entry : ptr) : M memory ptr :=
  b ← load_bucket bucket;
  if LastEntry b =? Entry then update_bucket bucket (with_last NULL);; mret Entry
  else mret (LastEntry b).

Definition forget_last (bucket Entry : ptr) : M memory unit :=
  b ← load_bucket bucket;
  if LastEntry b =? Entry then update_bucket bucket (with_last NULL) else mret ().

Definition free_entry (p : ptr) : M memory unit :=
  modify_state (set_entries (delete p));;
  modify_state (fun m => set_lists (delete (uuid_link p) (delete (inode_link p) (lists m))) m).

(** What happens to an entry without references. *)
Definition remove_entry (Table : ptr) (first second : Z) (Entry : ptr) : M memory unit :=
  lift_list (remove_list_entry (inode_link Entry));;
  lift_list (remove_list_entry (uuid_link Entry));;
  b1 ← bucket_at Table first;
  b2 ← bucket_at Table second;
  add_bucket_count b1 (-1);;
  add_bucket_count b2 (-1);;
  (if negb (UseFreedLists =? 0) then
     LockFreedList;;
     lift_list (insert_list_tail FreedInodeList (inode_link Entry));;
     lift_list (insert_list_head FreedUuidList (uuid_link Entry));;
     update_entry Entry (with_freed 1);;
     UnlockFreedList
   else free_entry Entry);;
  Entry ← exchange_last b1 Entry;
  Entry ← exchange_last b1 Entry;
  forget_last b1 Entry;;
  forget_last b2 Entry.

Definition release_entry (Table Entry : ptr) : M memory unit :=
  e ← load_entry Entry;
  first ← GetBucketIndexForInode Table (inode (Object e));
  second ← GetBucketIndexForUuid Table (uuid (Object e));
  let '(first, second) := if second <? first then (second, first) else (first, second) in
  lock_both Table first second;;
  refCount ← fetch_add_refs Entry (-1);
  (if refCount =? 1 then remove_entry Table first second Entry else mret ());;
  unlock_both Table first second.

Definition FinesseObjectRelease (Table obj : ptr) : M memory unit :=
  c_assert (negb (obj =? NULL));;
  c_assert (negb (Table =? NULL));;
  CHECK_FAST_LOOKUP_TABLE_MAGIC Table;;
  o ← load_entry (obj - 48);
  index ← GetBucketIndexForUuid Table (uuid (Object o));
  bucket ← bucket_at Table index;
  CHECK_FAST_LOOKUP_TABLE_BUCKET_MAGIC bucket;;
  LockBucket bucket false;;
  entry ← lookup_entry bucket 0 (uuid (Object o));
  c_assert (negb (entry =? NULL));;
  refCount ← fetch_add_refs entry (-1);
  c_assert (negb (refCount =? 0));;
  refCount ← (if refCount =? 1 then fetch_add_refs entry 1 else mret refCount);
  UnlockBucket bucket;;
  if refCount =? 1 then release_entry Table entry else mret ().

(** * Inserting *)

Definition new_entry (InodeNumber : Z) (Uuid : list Z) : lookup_entry_t :=
  {| e_Magic := FAST_LOOKUP_ENTRY_MAGIC; ReferenceCount := 2;
     Object := {| inode := InodeNumber; uuid := Uuid; freed := 0 |} |}.

(** The new entry, with both of its links initialised. *)
Definition initialize_entry (entry : ptr) (InodeNumber : Z) (Uuid : list Z) : M memory unit :=
  modify_state (set_entries <[entry := new_entry InodeNumber Uuid]>);;
  modify_state (fun m => set_lists
    (<[uuid_link entry := {| next := uuid_link entry; prev := uuid_link entry |}]>
       (<[inode_link entry := {| next := inode_link entry; prev := inode_link entry |}]> (lists m))) m).

(** [entry] is what malloc returns. *)
Definition insert_entry (Table : ptr) (InodeNumber : Z) (Uuid : list Z) (entry : ptr) : M memory ptr :=
  c_assert (negb (Table =? NULL));;
  c_assert (negb (InodeNumber =? 0));;
  c_assert (negb (uuid_is_null Uuid));;
  first ← GetBucketIndexForInode Table InodeNumber;
  inode_bucket ← bucket_at Table first;
  second ← GetBucketIndexForUuid Table Uuid;
  uuid_bucket ← bucket_at Table second;
  let '(first, second) := if second <? first then (second, first) else (first, second) in
  c_assert (negb (entry =? NULL));;
  initialize_entry entry InodeNumber Uuid;;
  lock_both Table first second;;
  b ← load_bucket inode_bucket;
  c_assert (LookupEntryType b =? LookupEntryTypeLinkedLists);;
  b ← load_bucket uuid_bucket;
  c_assert (LookupEntryType b =? LookupEntryTypeLinkedLists);;
  old_entry ← lookup_entry inode_bucket InodeNumber null_uuid;
  entry ←
    (if negb (old_entry =? NULL) then
       free_entry entry;;
       e ← load_entry old_entry;
       c_assert ((UseFreedLists =? 0) || (freed (Object e) =? 0));;
       fetch_add_refs old_entry 1;;
       mret old_entry
     else
       old_entry ← lookup_entry inode_bucket 0 Uuid;
       c_assert (old_entry =? NULL);;
       lift_list (insert_list_tail (inode_head inode_bucket) (inode_link entry));;
       lift_list (insert_list_tail (uuid_head uuid_bucket) (uuid_link entry));;
       add_bucket_count inode_bucket 1;;
       add_bucket_count uuid_bucket 1;;
       mret entry);
  unlock_both Table first second;;
  mret entry.

Definition FinesseObjectCreate (Table : ptr) (InodeNumber : Z) (Uuid : list Z) (new : ptr) : M memory ptr :=
  c_assert (negb (InodeNumber =? 0));;
  c_assert (negb (uuid_is_null Uuid));;
  entry ← insert_entry Table InodeNumber Uuid new;
  c_assert (negb (entry =? NULL));;
  mret (object_of entry).

Definition FinesseObjectGetTableSize (Table : ptr) : M memory Z :=
  t ← load_table Table; mret (tbl_EntryCount t).
End Code.

(** * Tables *)

Definition count_shift (BucketCount : Z) : outcome Z :=
  if BucketCount =? 1024 then Done 10 else if BucketCount =? 2048 then Done 11
  else if BucketCount =? 4096 then Done 12 else if BucketCount =? 8192 then Done 13
  else if BucketCount =? 16384 then Done 14 else if BucketCount =? 32768 then Done 15
  else Fail AssertFailed.

Definition new_bucket (hash : Z) : lookup_bucket :=
  {| b_Magic := FAST_LOOKUP_TABLE_BUCKET_MAGIC; b_EntryCount := 0; LastEntry := NULL;
     LookupEntryType := LookupEntryTypeLinkedLists; HashFunction := true;
     LastHashValue := hash; Lock := Free |}.

(** The loop body: bucket [bucket], with empty lists. *)
Definition initialize_bucket (bucket : ptr) : M memory unit :=
  modify_state (set_buckets <[bucket := new_bucket 0]>);;
  modify_state (fun m => set_lists
    (<[uuid_head bucket := {| next := uuid_head bucket; prev := uuid_head bucket |}]>
       (<[inode_head bucket := {| next := inode_head bucket; prev := inode_head bucket |}]> (lists m))) m);;
  hash ← LookupBucketHashFunction bucket;
  update_bucket bucket (with_hash hash).

Fixpoint initialize_buckets (bs : list ptr) : M memory unit :=
  match bs with
  | [] => mret ()
  | b :: bs => initialize_bucket b;; initialize_buckets bs
  end.

(** The addresses of [n] buckets from [Buckets] on. *)
Definition bucket_addresses (Buckets : ptr) (n : nat) : list ptr :=
  (fun k => bucket_address Buckets (Z.of_nat k)) <$> seq 0 n.

(** [table] is what malloc returns. *)
Definition CreateLookupTable (BucketCount HashSeed : Z) (table : ptr) : M memory ptr :=
  let offset := Z.land (SIZEOF_TABLE + 63) (wnot 64 63) in
  c_assert (negb (table =? NULL));;
  shift ← lift_outcome (count_shift BucketCount);
  modify_state (set_tables
    <[table := {| tbl_Magic := FAST_LOOKUP_TABLE_MAGIC; tbl_EntryCount := 0; tbl_BucketCountShift := shift;
                  tbl_Buckets := table + offset;
                  tbl_HashSeed := if HashSeed =? 0 then DEFAULT_SEED else HashSeed |}]>);;
  initialize_buckets (bucket_addresses (table + offset) (Z.to_nat BucketCount));;
  mret table.

(** The loop that frees the entries of a bucket. *)
Fixpoint drain (fuel : nat) (head : ptr) : M memory unit :=
  match fuel with
  | O => mthrow OutOfFuel
  | S fuel =>
      e ← lift_list (empty_list head);
      if (e : bool) then mret () else
      le ← lift_list (remove_list_head head);
      free_entry (le - 16);;
      drain fuel head
  end.

Fixpoint drain_buckets (bs : list ptr) : M memory unit :=
  match bs with
  | [] => mret ()
  | b :: bs => m ← get_state; drain (S (size (lists m))) (inode_head b);; drain_buckets bs
  end.

(** The buckets, and their list heads, are part of the allocation of the table. *)
Definition free_table (Table Buckets : ptr) (n : nat) : M memory unit :=
  modify_state (set_tables (delete Table));;
  modify_state (set_buckets (fun bs => foldr delete bs (bucket_addresses Buckets n)));;
  modify_state (fun m => set_lists
    (foldr (fun b h => delete (uuid_head b) (delete (inode_head b) h)) (lists m) (bucket_addresses Buckets n)) m).

Definition DestroyLookupTable (Table : ptr) : M memory unit :=
  c_assert (negb (Table =? NULL));;
  CHECK_FAST_LOOKUP_TABLE_MAGIC Table;;
  t ← load_table Table;
  let bucketCount := Z.to_nat (Z.shiftl 1 (tbl_BucketCountShift t)) in
  drain_buckets (bucket_addresses (tbl_Buckets t) bucketCount);;
  free_table Table (tbl_Buckets t) bucketCount.

Definition FinesseDestroyTable (Table : ptr) : M memory unit := DestroyLookupTable Table.

(** The loop that looks for the highest bit of the number of buckets. *)
Fixpoint highest_bit (fuel : nat) (bucket_count index : Z) : outcome Z :=
  match fuel with
  | O => Fail OutOfFuel
  | S fuel => if Z.shiftr bucket_count index =? 1 then Done index else highest_bit fuel bucket_count (index + 1)
  end.

Definition table_buckets (EstimatedSize : Z) : outcome Z :=
  let bucket_count := EstimatedSize / 1024 in
  let bucket_count := if bucket_count =? 0 then 10240 else bucket_count in
  let bucket_count := if bucket_count <? 1024 then 1024 else bucket_count in
  let bucket_count := if 32768 <? bucket_count then 32768 else bucket_count in
  index ← highest_bit 64 bucket_count 10;
  Done (Z.shiftl 1 index).

Definition FinesseCreateTable (EstimatedSize : Z) (new : ptr) : M memory ptr :=
  bucket_count ← lift_outcome (table_buckets EstimatedSize);
  CreateLookupTable (u16 bucket_count) 0 new.

(** * The table of the server *)

Section Global.
Context `{!Libuuid, !Statics}.

Definition create_lookup_table (new : ptr) : M memory unit :=
  m ← get_state;
  if ObjectTable m =? NULL then
    t ← FinesseCreateTable 0 new;
    modify_state (set_object_table t);;
    c_assert (negb (t =? NULL))
  else mret ().

(** The tests of the four functions below: an object is not one released
    to the lists of freed entries. *)
Definition not_freed (obj : ptr) : M memory unit :=
  if obj =? NULL then mret () else e ← load_entry (obj - 48); c_assert (freed (Object e) =? 0).

Definition with_table {A : Type} (newtable : ptr) (k : ptr -> M memory A) : M memory A :=
  create_lookup_table newtable;; m ← get_state; k (ObjectTable m).

Definition finesse_object_lookup_by_ino (newtable : ptr) (ino : Z) : M memory ptr :=
  fobj ← with_table newtable (fun t => FinesseObjectLookupByIno t ino);
  not_freed fobj;; mret fobj.

Definition finesse_object_lookup_by_uuid (newtable : ptr) (u : list Z) : M memory ptr :=
  fobj ← with_table newtable (fun t => c_assert (negb (uuid_is_null u));; FinesseObjectLookupByUuid t u);
  not_freed fobj;; mret fobj.

Definition finesse_object_release (newtable : ptr) (obj : ptr) : M memory unit :=
  with_table newtable (fun t =>
    e ← load_entry (obj - 48);
    c_assert ((UseFreedLists =? 0) || (freed (Object e) =? 0));;
    FinesseObjectRelease t obj).

Definition finesse_object_create (newtable : ptr) (ino : Z) (u : list Z) (new : ptr) : M memory ptr :=
  fobj ← with_table newtable (fun t => FinesseObjectCreate t ino u new);
  not_freed fobj;; mret fobj.

(** The table is not created here: before the first other call its pointer
    is NULL. *)
Definition finesse_object_get_table_size : M memory Z :=
  m ← get_state; t ← load_table (ObjectTable m); mret (tbl_EntryCount t).
End Global.
