(* ===== verification/LookupTable.v ===== *)
(** What the lookup table of FastLookup.v promises.

    A table stands for a catalogue: the objects in the order they were
    created, each with an inode number, a UUID and a number of references.
    [shape] says how the catalogue lies in memory (per bucket one list by
    inode and one by UUID, the entries, the counts, the cache), next to a
    memory the table does not touch; [quiet] that no bucket is locked and
    that every stored hash is current. *)

From stdpp Require Import gmap.
From S2P Require Import Prelude ListEntry Murmur FastLookup.

#[local] Open Scope word_scope.

Lemma wrap_add_l w x y : wrap w (wrap w x + y) = wrap w (x + y).
Proof. unfold wrap. apply Zplus_mod_idemp_l. Qed.

#[local] Opaque instance_hash MurmurHash3_x64_128 truncate_hash wrap.

(** * Catalogues *)

Record ident := { at_ : ptr; id_ino : Z; id_uuid : list Z }.
Record catalogue := { ids : list ident; refs : gmap ptr Z }.

Definition by_ino (n : Z) (l : list ident) : option ident := List.find (fun i => id_ino i =? n) l.
Definition by_uuid (u : list Z) (l : list ident) : option ident :=
  List.find (fun i => bool_decide (id_uuid i = u)) l.
Definition entry_ptr (o : option ident) : ptr := match o with Some i => at_ i | None => NULL end.
Definition answer (o : option ident) : ptr := match o with Some i => object_of (at_ i) | None => NULL end.

Definition with_ref (p : ptr) (r : Z) (c : catalogue) : catalogue :=
  {| ids := ids c; refs := <[p := r]> (refs c) |}.

(** The memory cells of an entry's links. *)
Definition cells (i : ident) : list ptr := [inode_link (at_ i); uuid_link (at_ i)].

(** * Running the primitives *)

Lemma set_buckets_twice p b b' m : set_buckets <[p := b]> (set_buckets <[p := b']> m) = set_buckets <[p := b]> m.
Proof. unfold set_buckets; simpl. by rewrite insert_insert_eq. Qed.

Lemma set_buckets_same p b m : buckets m !! p = Some b -> set_buckets <[p := b]> m = m.
Proof. intros Hb. unfold set_buckets. rewrite insert_id by done. by destruct m. Qed.

Lemma set_lists_same m : set_lists (lists m) m = m.
Proof. by destruct m. Qed.

Lemma fl_bucket_run p b m : buckets m !! p = Some b -> load_bucket p m = Done (b, m).
Proof. intros Hb. unfold load_bucket. rewrite get_state_bind. by rewrite Hb. Qed.

Lemma update_bucket_run p f b m :
  buckets m !! p = Some b -> update_bucket p f m = Done (tt, set_buckets <[p := f b]> m).
Proof.
  intros Hb. unfold update_bucket. run_step ltac:(by apply fl_bucket_run).
  unfold modify_state, set_buckets. by rewrite (alter_known f p _ b).
Qed.

Lemma load_entry_run p e m : entries m !! p = Some e -> load_entry p m = Done (e, m).
Proof. intros He. unfold load_entry. rewrite get_state_bind. by rewrite He. Qed.

Lemma fetch_add_refs_run p d e m :
  entries m !! p = Some e ->
  fetch_add_refs p d m =
    Done (ReferenceCount e, set_entries <[p := with_refs (u64 (ReferenceCount e + d)) e]> m).
Proof.
  intros He. unfold fetch_add_refs, update_entry.
  run_step ltac:(by apply load_entry_run). rewrite M_assoc.
  run_step ltac:(by apply load_entry_run). rewrite modify_bind.
  unfold set_entries. by rewrite (alter_known _ p _ e).
Qed.

Lemma lift_list_run {A} (c : M heap A) a h m : c (lists m) = Done (a, h) -> lift_list c m = Done (a, set_lists h m).
Proof. intros Hc. unfold lift_list. by rewrite Hc. Qed.

Lemma lift_get_next h p n m : lists m = h -> nx h p = Some n -> lift_list (get_next p) m = Done (n, m).
Proof. intros <- Hn. erewrite lift_list_run by (by apply get_next_run). by rewrite set_lists_same. Qed.

Lemma lift_get_prev h p n m : lists m = h -> pv h p = Some n -> lift_list (get_prev p) m = Done (n, m).
Proof. intros <- Hn. erewrite lift_list_run by (by apply get_prev_run). by rewrite set_lists_same. Qed.

Definition bucket_hash (h : heap) (b : ptr) : option Z :=
  w ← nx h (inode_head b); x ← pv h (inode_head b); y ← nx h (uuid_head b); z ← pv h (uuid_head b);
  Some (instance_hash w x y z).

(** A bucket whose hash is computed. *)
Definition hashed (b : lookup_bucket) : Prop :=
  b_Magic b = FAST_LOOKUP_TABLE_BUCKET_MAGIC /\ HashFunction b = true.

Lemma CHECK_bucket_run p b m :
  buckets m !! p = Some b -> b_Magic b = FAST_LOOKUP_TABLE_BUCKET_MAGIC ->
  CHECK_FAST_LOOKUP_TABLE_BUCKET_MAGIC p m = Done (tt, m).
Proof.
  intros Hb Hm. unfold CHECK_FAST_LOOKUP_TABLE_BUCKET_MAGIC.
  run_step ltac:(by apply fl_bucket_run). by rewrite Hm.
Qed.

Lemma hash_run p b h m :
  p <> NULL -> buckets m !! p = Some b -> hashed b -> bucket_hash (lists m) p = Some h ->
  LookupBucketHashFunction p m = Done (h, m).
Proof.
  intros Hp Hb [Hm _] Hh. unfold LookupBucketHashFunction.
  rewrite c_assert_bind by (destruct (Z.eqb_spec p NULL); done).
  run_step ltac:(by apply (CHECK_bucket_run p b)).
  unfold bucket_hash in Hh.
  apply bind_Some in Hh as (w & Hw & Hh). apply bind_Some in Hh as (x & Hx & Hh).
  apply bind_Some in Hh as (y & Hy & Hh). apply bind_Some in Hh as (z & Hz & [= <-]).
  run_step ltac:(by eapply lift_get_next). run_step ltac:(by eapply lift_get_prev).
  run_step ltac:(by eapply lift_get_next). run_step ltac:(by eapply lift_get_prev). done.
Qed.

Lemma LockBucket_run p x b m :
  p <> NULL -> buckets m !! p = Some b -> hashed b -> Lock b = Free ->
  bucket_hash (lists m) p = Some (LastHashValue b) ->
  LockBucket p x m = Done (LastHashValue b, set_buckets <[p := with_lock (if x then Writer else Readers 0) b]> m).
Proof.
  intros Hp Hb [Hm Hf] Hl Hh. unfold LockBucket.
  rewrite c_assert_bind by (destruct (Z.eqb_spec p NULL); done).
  run_step ltac:(by apply (CHECK_bucket_run p b)).
  assert (pthread_rwlock_lock p x m =
    Done (tt, set_buckets <[p := with_lock (if x then Writer else Readers 0) b]> m)) as Hr.
  { unfold pthread_rwlock_lock. run_step ltac:(by apply fl_bucket_run). rewrite Hl.
    destruct x; by apply update_bucket_run. }
  run_step ltac:(exact Hr).
  assert (buckets (set_buckets <[p := with_lock (if x then Writer else Readers 0) b]> m) !! p
    = Some (with_lock (if x then Writer else Readers 0) b)) as Hb' by apply lookup_insert_eq.
  run_step ltac:(by apply fl_bucket_run). simpl. rewrite Hf.
  run_step ltac:(by eapply hash_run).
  by rewrite c_assert_bind by apply Z.eqb_refl.
Qed.

(** Unlocking: a single reader's bucket must be unchanged; a writer's hash
    becomes the current one. *)
Lemma UnlockBucket_run p b h m :
  p <> NULL -> buckets m !! p = Some b -> hashed b -> bucket_hash (lists m) p = Some h ->
  (Lock b = Readers 0 /\ LastHashValue b = h \/ Lock b = Writer) ->
  UnlockBucket p m = Done (tt, set_buckets <[p := with_lock Free (with_hash h b)]> m).
Proof.
  intros Hp Hb [Hm Hf] Hh Hl. unfold UnlockBucket.
  rewrite c_assert_bind by (destruct (Z.eqb_spec p NULL); done).
  run_step ltac:(by apply (CHECK_bucket_run p b)).
  run_step ltac:(by apply fl_bucket_run). rewrite Hf.
  run_step ltac:(by eapply hash_run).
  assert (pthread_rwlock_trywrlock p m = Done (EBUSY, m)) as Ht.
  { unfold pthread_rwlock_trywrlock. run_step ltac:(by apply fl_bucket_run).
    by destruct Hl as [[-> _]| -> ]. }
  run_step ltac:(exact Ht). rewrite c_assert_bind by done.
  destruct Hl as [[Hl Hq]|Hl].
  - assert (pthread_rwlock_tryrdlock p m = Done (0, set_buckets <[p := with_lock (Readers 1) b]> m)) as Hr.
    { unfold pthread_rwlock_tryrdlock. run_step ltac:(by apply fl_bucket_run). rewrite Hl.
      by run_step ltac:(by apply update_bucket_run). }
    run_step ltac:(exact Hr). simpl.
    assert (forall n q, pthread_rwlock_unlock p (set_buckets <[p := with_lock (Readers n) b]> q) =
      Done (tt, set_buckets <[p := with_lock (match n with S n => Readers n | O => Free end) b]> q)) as Hu.
    { intros n q. unfold pthread_rwlock_unlock.
      run_step ltac:(apply fl_bucket_run, lookup_insert_eq). simpl.
      destruct n; erewrite update_bucket_run by (apply lookup_insert_eq); by rewrite set_buckets_twice. }
    rewrite M_assoc. run_step ltac:(apply Hu). rewrite mret_bind, M_assoc.
    run_step ltac:(apply fl_bucket_run, lookup_insert_eq). simpl.
    rewrite c_assert_bind by (rewrite Hq; apply Z.eqb_refl).
    rewrite (Hu 0%nat). do 3 f_equal. subst h. by destruct b.
  - assert (pthread_rwlock_tryrdlock p m = Done (EBUSY, m)) as Hr.
    { unfold pthread_rwlock_tryrdlock. run_step ltac:(by apply fl_bucket_run). by rewrite Hl. }
    run_step ltac:(exact Hr). simpl. rewrite mret_bind.
    run_step ltac:(by apply update_bucket_run).
    unfold pthread_rwlock_unlock.
    run_step ltac:(apply fl_bucket_run, lookup_insert_eq). simpl. rewrite Hl.
    erewrite update_bucket_run by (apply lookup_insert_eq). by rewrite set_buckets_twice.
Qed.

(** * The walk over a list *)

Lemma search_run m hd off (P : lookup_entry_t -> bool) (P' : ident -> bool) js :
  forall a le fuel,
  chain (lists m) a ((fun i => at_ i + off) <$> js) hd ->
  hd ∉ (fun i => at_ i + off) <$> js ->
  (forall i, i ∈ js -> exists e, entries m !! at_ i = Some e /\ P e = P' i) ->
  (length js < fuel)%nat -> nx (lists m) a = Some le ->
  search fuel off P hd le m = Done (entry_ptr (List.find P' js), m).
Proof.
  induction js as [|i js IH]; intros a le fuel Hc Hhd He Hf Hle; (destruct fuel as [|fuel]; [simpl in Hf; lia|]); simpl in *.
  - destruct Hc as [Hc _]. assert (le = hd) as -> by congruence. by rewrite Z.eqb_refl.
  - destruct Hc as [[Hc _] Hc']. assert (le = at_ i + off) as -> by congruence.
    apply not_elem_of_cons in Hhd as [Hne Hhd].
    rewrite (proj2 (Z.eqb_neq _ _)) by congruence.
    destruct (He i) as (e & Hi & HP); [by left|].
    replace (at_ i + off - off) with (at_ i) by lia.
    run_step ltac:(by apply load_entry_run). rewrite HP. destruct (P' i); [done|].
    destruct (chain_nx (lists m) (at_ i + off) ((fun i => at_ i + off) <$> js) hd (at_ i + off)) as [n Hn]; [done|by left|].
    run_step ltac:(by eapply lift_get_next).
    apply (IH (at_ i + off)); [done|done| |lia|done].
    intros j Hj. apply He. by right.
Qed.

Lemma search_list_run m hd off P P' js :
  is_list (lists m) hd ((fun i => at_ i + off) <$> js) ->
  (forall i, i ∈ js -> exists e, entries m !! at_ i = Some e /\ P e = P' i) ->
  search_list off P hd m = Done (entry_ptr (List.find P' js), m).
Proof.
  intros Hl He. pose proof (is_list_length _ _ _ Hl) as Hn. rewrite length_fmap in Hn.
  destruct Hl as [[Hhd _]%NoDup_cons Hc].
  destruct (chain_nx _ _ _ _ hd Hc) as [n Hnx]; [by left|].
  unfold search_list. rewrite get_state_bind.
  run_step ltac:(by eapply lift_get_next).
  apply (search_run m hd off P P' js hd); [done..|lia|done].
Qed.

(** The cache of a bucket after a lookup that found [p]. *)
Definition remember (p : ptr) (b : lookup_bucket) : lookup_bucket := if p =? NULL then b else with_last p b.

(** * How a catalogue lies in memory *)

Section Table.
Context {UU : Libuuid} {UL : LibuuidLaws} {ST : Statics}.

(** The table, and the logarithm of its number of buckets. *)
Variables (T shift : Z).
Hypothesis T_pos : 0 < T.
Hypothesis shift_range : 10 <= shift <= 15.

Definition the_table : lookup_table :=
  {| tbl_Magic := FAST_LOOKUP_TABLE_MAGIC; tbl_EntryCount := 0; tbl_BucketCountShift := shift;
     tbl_Buckets := T + 128; tbl_HashSeed := DEFAULT_SEED |}.

Definition B (k : Z) : ptr := bucket_address (T + 128) k.

Definition index_of (Key : list Z) : Z :=
  match key_index DEFAULT_SEED shift Key with Done i => i | Fail _ => 0 end.
Definition ino_index (n : Z) : Z := index_of (word_bytes n).

Definition in_ino (k : Z) (l : list ident) : list ident := filter (fun i => ino_index (id_ino i) = k) l.
Definition in_uuid (k : Z) (l : list ident) : list ident := filter (fun i => index_of (id_uuid i) = k) l.

Definition entry_of (i : ident) (r : Z) : lookup_entry_t :=
  {| e_Magic := FAST_LOOKUP_ENTRY_MAGIC; ReferenceCount := r;
     Object := {| inode := id_ino i; uuid := id_uuid i; freed := 0 |} |}.

Record ident_ok (i : ident) : Prop := {
  io_at : 0 < at_ i;
  io_ino : id_ino i <> 0;
  io_len : length (id_uuid i) = 16%nat;
  io_null : id_uuid i <> replicate 16 0 }.

Record bucket_ok (l : list ident) (k : Z) (b : lookup_bucket) : Prop := {
  bo_magic : b_Magic b = FAST_LOOKUP_TABLE_BUCKET_MAGIC;
  bo_type : LookupEntryType b = LookupEntryTypeLinkedLists;
  bo_hash : HashFunction b = true;
  bo_count : b_EntryCount b = u64 (Z.of_nat (length (in_ino k l) + length (in_uuid k l)));
  bo_last : LastEntry b = NULL \/ exists i, i ∈ l /\ at_ i = LastEntry b }.

Definition is_index (k : Z) : Prop := 0 <= k < 2 ^ shift.
Definition addresses : list ptr := bucket_addresses (T + 128) (Z.to_nat (2 ^ shift)).
Definition heads : list ptr := b ← addresses; [inode_head b; uuid_head b].
Definition used (l : list ident) : list ptr := heads ++ (i ← l; cells i).

Record shape (m0 m : memory) (c : catalogue) : Prop := {
  sh_tables : tables m = <[T := the_table]> (tables m0);
  sh_bucket k : is_index k -> exists b, buckets m !! B k = Some b /\ bucket_ok (ids c) k b;
  sh_inos k : is_index k -> is_list (lists m) (inode_head (B k)) ((fun i => inode_link (at_ i)) <$> in_ino k (ids c));
  sh_uuids k : is_index k -> is_list (lists m) (uuid_head (B k)) ((fun i => uuid_link (at_ i)) <$> in_uuid k (ids c));
  sh_entries i : i ∈ ids c ->
    exists r, refs c !! at_ i = Some r /\ 1 <= r < 2 ^ 64 /\ entries m !! at_ i = Some (entry_of i r);
  sh_ids : Forall ident_ok (ids c);
  sh_unique : NoDup (id_ino <$> ids c);
  sh_cells : NoDup (used (ids c));
  sh_lists p : p ∉ used (ids c) -> lists m !! p = lists m0 !! p;
  sh_fresh p : p ∈ used (ids c) -> lists m0 !! p = None;
  sh_others p : p ∉ at_ <$> ids c -> entries m !! p = entries m0 !! p;
  sh_new p : p ∈ at_ <$> ids c -> entries m0 !! p = None;
  sh_buckets p : p ∉ addresses -> buckets m !! p = buckets m0 !! p;
  sh_free p : p ∈ addresses -> buckets m0 !! p = None;
  sh_table : tables m0 !! T = None;
  sh_locked : freed_list_locked m = freed_list_locked m0;
  sh_global : ObjectTable m = ObjectTable m0 }.

Definition quiet (m : memory) : Prop :=
  forall k, is_index k ->
    exists b, buckets m !! B k = Some b /\ Lock b = Free /\ bucket_hash (lists m) (B k) = Some (LastHashValue b).

(** * Facts about addresses *)

Lemma B_eq k : B k = T + 128 + 192 * k.
Proof. reflexivity. Qed.

Lemma B_inj k k' : B k = B k' -> k = k'.
Proof. rewrite !B_eq. lia. Qed.

Lemma elem_addresses p : p ∈ addresses <-> exists k, is_index k /\ p = B k.
Proof.
  unfold addresses, bucket_addresses. rewrite list_elem_of_fmap. split.
  - intros (k & -> & Hk%elem_of_seq). exists (Z.of_nat k). split; [unfold is_index; lia|done].
  - intros (k & Hk & ->). exists (Z.to_nat k). unfold is_index in Hk. split.
    + unfold B. f_equal. lia.
    + apply elem_of_seq. lia.
Qed.

Lemma B_address k : is_index k -> B k ∈ addresses.
Proof. intros Hk. apply elem_addresses. eauto. Qed.

Lemma elem_heads p : p ∈ heads <-> exists k, is_index k /\ (p = inode_head (B k) \/ p = uuid_head (B k)).
Proof.
  unfold heads. rewrite list_elem_of_bind. split.
  - intros (b & Hp & (k & Hk & ->)%elem_addresses). exists k. split; [done|set_solver].
  - intros (k & Hk & Hp). exists (B k). split; [set_solver|by apply B_address].
Qed.

Lemma elem_used l p :
  p ∈ used l <-> p ∈ heads \/ exists i, i ∈ l /\ (p = inode_link (at_ i) \/ p = uuid_link (at_ i)).
Proof.
  unfold used. rewrite elem_of_app, list_elem_of_bind. unfold cells. set_solver.
Qed.

Lemma used_snoc l i : used (l ++ [i]) = used l ++ cells i.
Proof. unfold used. rewrite bind_app. by rewrite app_assoc. Qed.

Lemma NoDup_heads : NoDup heads.
Proof.
  unfold heads, addresses, bucket_addresses.
  generalize (Z.to_nat (2 ^ shift)); intros n.
  assert (forall s, NoDup (((fun k => bucket_address (T + 128) (Z.of_nat k)) <$> seq s n) ≫= (fun b => [inode_head b; uuid_head b]))) as H;
    [|apply H].
  unfold bucket_address, SIZEOF_BUCKET, inode_head, uuid_head.
  induction n as [|n IH]; intros s; [constructor|].
  simpl. rewrite !NoDup_cons. split; [|split; [|apply IH]].
  - rewrite elem_of_cons, list_elem_of_bind. intros [H|(b & H & (k & -> & Hk%elem_of_seq)%list_elem_of_fmap)]; [lia|].
    apply elem_of_cons in H as [H|H%list_elem_of_singleton]; lia.
  - rewrite list_elem_of_bind. intros (b & H & (k & -> & Hk%elem_of_seq)%list_elem_of_fmap).
    apply elem_of_cons in H as [H|H%list_elem_of_singleton]; lia.
Qed.

Lemma index_run Key : key_index DEFAULT_SEED shift Key = Done (index_of Key) /\ is_index (index_of Key).
Proof.
  assert (exists i, key_index DEFAULT_SEED shift Key = Done i /\ 0 <= i < 2 ^ shift) as (i & Hi & Hr).
  { unfold key_index. destruct (MurmurHash3_x64_128 _ _ _) as [h1 h2].
    destruct (truncate_hash_done (Z.lxor h1 h2) shift) as (i & -> & Hi); [lia|].
    exists i. split; [|done]. simpl. unfold mbind, outcome_bind. rewrite wrap_small; [done|].
    pose proof (Z.pow_le_mono_r 2 shift 16). lia. }
  unfold index_of, is_index. rewrite Hi. done.
Qed.

Lemma index_range Key : is_index (index_of Key).
Proof. apply index_run. Qed.

Lemma at_inj l i j : NoDup (used l) -> i ∈ l -> j ∈ l -> at_ i = at_ j -> i = j.
Proof.
  unfold used. intros (_ & _ & H)%NoDup_app Hi Hj E. revert Hi Hj.
  induction l as [|x l IH]; [set_solver|]. simpl in H. apply NoDup_cons in H as [H1 [H2 H3]%NoDup_cons].
  assert (forall y, y ∈ l -> at_ x <> at_ y).
  { intros y Hy Ey. apply H1. right. apply list_elem_of_bind. exists y. unfold cells. rewrite Ey. set_solver. }
  intros [->|Hi]%elem_of_cons [->|Hj]%elem_of_cons; [done|..].
  - by destruct (H j).
  - by destruct (H i).
  - by apply IH.
Qed.

Lemma B_not_null k : is_index k -> B k <> NULL.
Proof. unfold is_index. rewrite B_eq. unfold NULL. lia. Qed.

Lemma null_uuid_null : uuid_is_null null_uuid = true.
Proof. by apply uuid_is_null_true. Qed.

Lemma not_null u : length u = 16%nat -> u <> replicate 16 0 -> uuid_is_null u = false.
Proof. intros Hl Hu. destruct (uuid_is_null u) eqn:E; [|done]. by apply uuid_is_null_true in E. Qed.

Lemma check_bucket_run l k b m :
  buckets m !! B k = Some b -> bucket_ok l k b -> check_bucket (B k) m = Done (tt, m).
Proof.
  intros Hb [Hm Ht _ _ _]. unfold check_bucket.
  run_step ltac:(by eapply CHECK_bucket_run). run_step ltac:(by apply fl_bucket_run). by rewrite Ht.
Qed.

Lemma shape_hashed l k b : bucket_ok l k b -> hashed b.
Proof. intros [? _ ? _ _]. by split. Qed.

(** A lookup in a bucket, by inode ([n <> 0]) or by UUID, in terms of the
    identities in the bucket's list: [Q] selects the ones wanted. *)
Lemma lookup_entry_run m0 m c k b n u (Q : ident -> bool) js :
  shape m0 m c -> is_index k -> buckets m !! B k = Some b ->
  (n <> 0 /\ uuid_is_null u = true /\ js = in_ino k (ids c) /\ (forall i, Q i = (id_ino i =? n)) \/
   n = 0 /\ uuid_is_null u = false /\ length u = 16%nat /\ js = in_uuid k (ids c) /\
     (forall i, Q i = bool_decide (id_uuid i = u))) ->
  (forall i, i ∈ ids c -> at_ i = LastEntry b -> Q i = true -> List.find Q js = Some i) ->
  lookup_entry (B k) n u m =
    Done (entry_ptr (List.find Q js), set_buckets <[B k := remember (entry_ptr (List.find Q js)) b]> m).
Proof.
  intros Hs Hk Hb Hmode Hcache.
  destruct (sh_bucket _ _ _ Hs k Hk) as (b' & Hb' & Hok). simplify_eq.
  assert (forall i, i ∈ ids c -> exists e, entries m !! at_ i = Some e /\
    inode (Object e) = id_ino i /\ uuid (Object e) = id_uuid i) as He.
  { intros i Hi. destruct (sh_entries _ _ _ Hs i Hi) as (r & _ & _ & ->). by eexists. }
  assert (forall i, i ∈ ids c -> ident_ok i) as Hio by apply Forall_forall, (sh_ids _ _ _ Hs).
  unfold lookup_entry.
  rewrite c_assert_bind by (destruct Hmode as [(? & -> & _)|(-> & _)]; [by rewrite orb_true_r|done]).
  rewrite c_assert_bind by (destruct Hmode as [(? & _)|(-> & -> & _)]; [by rewrite (proj2 (Z.eqb_neq n 0))|done]).
  rewrite c_assert_bind by (rewrite (proj2 (Z.eqb_neq _ _)); [done|by apply B_not_null]).
  run_step ltac:(by eapply check_bucket_run).
  run_step ltac:(by apply fl_bucket_run).
  set (P := if negb (n =? 0) then has_inode n else fun e => uuid_compare u (uuid (Object e)) =? 0).
  assert (forall i e, i ∈ ids c -> inode (Object e) = id_ino i -> uuid (Object e) = id_uuid i -> P e = Q i) as HP.
  { intros i e Hi E1 E2. unfold P. destruct Hmode as [(Hn & _ & _ & HQ)|(-> & _ & Hl & _ & HQ)]; rewrite HQ.
    - rewrite (proj2 (Z.eqb_neq n 0)) by done. simpl. unfold has_inode. by rewrite E1.
    - simpl. rewrite E2. pose proof (uuid_compare_0 u (id_uuid i) Hl (io_len _ (Hio i Hi))) as Hc.
      case_bool_decide; [apply Z.eqb_eq; naive_solver|apply Z.eqb_neq; naive_solver]. }
  assert (Hsearch : (entry ← (if negb (n =? 0) then search_list 16 (has_inode n) (inode_head (B k))
             else search_list 32 (has_uuid u) (uuid_head (B k)));
    (if negb (entry =? NULL) then update_bucket (B k) (with_last entry) else mret ());; mret entry) m =
    Done (entry_ptr (List.find Q js), set_buckets <[B k := remember (entry_ptr (List.find Q js)) b]> m)).
  { assert ((if negb (n =? 0) then search_list 16 (has_inode n) (inode_head (B k))
      else search_list 32 (has_uuid u) (uuid_head (B k))) m = Done (entry_ptr (List.find Q js), m)) as Hr.
    { destruct Hmode as [(Hn & _ & -> & HQ)|(-> & _ & _ & -> & HQ)].
      - rewrite (proj2 (Z.eqb_neq n 0)) by done. apply search_list_run; [by apply (sh_inos _ _ _ Hs)|].
        intros i [_ Hi]%list_elem_of_filter. destruct (He i Hi) as (e & ? & ? & _).
        exists e. split; [done|]. unfold has_inode. rewrite HQ. congruence.
      - apply search_list_run; [by apply (sh_uuids _ _ _ Hs)|].
        intros i [_ Hi]%list_elem_of_filter. destruct (He i Hi) as (e & ? & _ & Eu).
        exists e. split; [done|]. unfold has_uuid. by rewrite HQ, Eu. }
    run_step ltac:(exact Hr). unfold remember. destruct (_ =? NULL); simpl.
    - rewrite mret_bind. by rewrite set_buckets_same.
    - by run_step ltac:(by apply update_bucket_run). }
  destruct (bo_last _ _ _ Hok) as [Hl|(i & Hi & Hl)].
  { run_step ltac:(unfold cached; rewrite Hl; reflexivity). exact Hsearch. }
  destruct (He i Hi) as (e & Hie & E1 & E2). pose proof (io_at _ (Hio i Hi)) as Hpos.
  assert (cached (LastEntry b) P m = Done (if Q i then at_ i else NULL, m)) as Hrun.
  { unfold cached. rewrite <- Hl, (proj2 (Z.eqb_neq _ _)) by (unfold NULL; lia).
    run_step ltac:(by apply load_entry_run). by rewrite (HP i e). }
  run_step ltac:(exact Hrun). destruct (Q i) eqn:EQ; [|exact Hsearch].
  rewrite (Hcache i Hi Hl EQ). simpl. rewrite (proj2 (Z.eqb_neq _ _)) by (unfold NULL; lia). simpl.
  unfold remember. rewrite (proj2 (Z.eqb_neq _ _)) by (unfold NULL; lia).
  rewrite Hl. replace (with_last (LastEntry b) b) with b by (by destruct b). by rewrite set_buckets_same.
Qed.
Definition table_ok (m0 m : memory) (c : catalogue) : Prop := shape m0 m c /\ quiet m.

Lemma by_ino_bucket n l : List.find (fun i => id_ino i =? n) (in_ino (ino_index n) l) = by_ino n l.
Proof. apply find_filter. by intros i ->%Z.eqb_eq. Qed.

Lemma by_uuid_bucket u l :
  List.find (fun i => bool_decide (id_uuid i = u)) (in_uuid (index_of u) l) = by_uuid u l.
Proof. apply find_filter. by intros i ->%bool_decide_eq_true. Qed.

Lemma lookup_ino_run m0 m c b n :
  shape m0 m c -> n <> 0 -> buckets m !! B (ino_index n) = Some b ->
  lookup_entry (B (ino_index n)) n null_uuid m =
    Done (entry_ptr (by_ino n (ids c)),
          set_buckets <[B (ino_index n) := remember (entry_ptr (by_ino n (ids c))) b]> m).
Proof.
  intros Hs Hn Hb. rewrite <- by_ino_bucket.
  apply (lookup_entry_run m0 m c); [done|apply index_range|done| |].
  { left. eauto using null_uuid_null. }
  intros i Hi _ Hq%Z.eqb_eq. rewrite by_ino_bucket.
  apply (find_unique id_ino _ n); [by intros; apply Z.eqb_eq|apply Hs|done..].
Qed.

Lemma lookup_uuid_run m0 m c b u :
  shape m0 m c -> NoDup (id_uuid <$> ids c) -> length u = 16%nat -> u <> replicate 16 0 ->
  buckets m !! B (index_of u) = Some b ->
  lookup_entry (B (index_of u)) 0 u m =
    Done (entry_ptr (by_uuid u (ids c)),
          set_buckets <[B (index_of u) := remember (entry_ptr (by_uuid u (ids c))) b]> m).
Proof.
  intros Hs Hu Hl H0 Hb. rewrite <- by_uuid_bucket.
  apply (lookup_entry_run m0 m c); [done|apply index_range|done| |].
  { right. eauto 10 using not_null. }
  intros i Hi _ Hq%bool_decide_eq_true. rewrite by_uuid_bucket.
  apply (find_unique id_uuid _ u); [by intros; apply bool_decide_eq_true|done..].
Qed.

(** In a bucket whose list and cache do not have the UUID. *)
Lemma lookup_uuid_absent m0 m c k b u :
  shape m0 m c -> length u = 16%nat -> u <> replicate 16 0 -> is_index k -> buckets m !! B k = Some b ->
  (forall i, i ∈ ids c -> id_uuid i = u -> index_of u <> k /\ at_ i <> LastEntry b) ->
  lookup_entry (B k) 0 u m = Done (NULL, m).
Proof.
  intros Hs Hl H0 Hk Hb Habs.
  assert (List.find (fun i => bool_decide (id_uuid i = u)) (in_uuid k (ids c)) = None) as Hf.
  { apply find_none. intros i [Hi1 Hi2]%list_elem_of_filter. apply bool_decide_eq_false.
    intros E. destruct (Habs i Hi2 E) as [Hx _]. congruence. }
  erewrite (lookup_entry_run m0 m c k b 0 u _ (in_uuid k (ids c)) Hs Hk Hb).
  - rewrite Hf. unfold remember. simpl. by rewrite set_buckets_same.
  - right. eauto 10 using not_null.
  - intros i Hi E Hq%bool_decide_eq_true. by destruct (Habs i Hi Hq).
Qed.

Lemma shape_set_bucket m0 m c k b :
  shape m0 m c -> is_index k -> bucket_ok (ids c) k b -> shape m0 (set_buckets <[B k := b]> m) c.
Proof.
  intros Hs Hk Hb. destruct Hs. split; simpl; try done.
  - intros k' Hk'. destruct (decide (k' = k)) as [->|Hne].
    + exists b. by rewrite lookup_insert_eq.
    + rewrite lookup_insert_ne by (intros E%B_inj; congruence). by apply sh_bucket0.
  - intros p Hp. rewrite lookup_insert_ne; [by apply sh_buckets0|].
    intros <-. by apply Hp, B_address.
Qed.

Lemma quiet_set_bucket m k b :
  quiet m -> Lock b = Free -> bucket_hash (lists m) (B k) = Some (LastHashValue b) ->
  quiet (set_buckets <[B k := b]> m).
Proof.
  intros Hq Hl Hh k' Hk'. simpl. destruct (decide (k' = k)) as [->|Hne].
  - exists b. by rewrite lookup_insert_eq.
  - rewrite lookup_insert_ne by (intros E%B_inj; congruence). by apply Hq.
Qed.

Lemma shape_with_ref m0 m c i r :
  shape m0 m c -> i ∈ ids c -> 1 <= r < 2 ^ 64 ->
  shape m0 (set_entries <[at_ i := entry_of i r]> m) (with_ref (at_ i) r c).
Proof.
  intros Hs Hi Hr. destruct Hs. split; simpl; try done.
  - intros j Hj. destruct (decide (at_ j = at_ i)) as [E|Hne].
    + assert (j = i) as -> by (by apply (at_inj (ids c))).
      exists r. by rewrite !lookup_insert_eq.
    + rewrite !lookup_insert_ne by done. by apply sh_entries0.
  - intros p Hp. rewrite lookup_insert_ne; [by apply sh_others0|].
    intros <-. apply Hp, list_elem_of_fmap. eauto.
Qed.

Lemma load_table_run m0 m c : shape m0 m c -> load_table T m = Done (the_table, m).
Proof.
  intros Hs. unfold load_table. rewrite get_state_bind, (sh_tables _ _ _ Hs).
  by rewrite lookup_insert_eq.
Qed.

Lemma CHECK_table_run m0 m c : shape m0 m c -> CHECK_FAST_LOOKUP_TABLE_MAGIC T m = Done (tt, m).
Proof.
  intros Hs. unfold CHECK_FAST_LOOKUP_TABLE_MAGIC. by run_step ltac:(by eapply load_table_run).
Qed.

Lemma bucket_at_run m0 m c k : shape m0 m c -> bucket_at T k m = Done (B k, m).
Proof. intros Hs. unfold bucket_at. by run_step ltac:(by eapply load_table_run). Qed.

Lemma GetBucketIndex_run m0 m c Key :
  shape m0 m c -> Key <> [] -> GetBucketIndex T Key m = Done (index_of Key, m).
Proof.
  intros Hs HK. destruct (index_run Key) as [Hi Hr]. unfold GetBucketIndex.
  rewrite c_assert_bind by (rewrite (proj2 (Z.eqb_neq _ _)); [done|unfold NULL; lia]).
  rewrite c_assert_bind by (destruct Key; [done|apply Z.ltb_lt; simpl length; lia]).
  run_step ltac:(by eapply CHECK_table_run). run_step ltac:(by eapply load_table_run).
  run_step ltac:(unfold lift_outcome; simpl; rewrite Hi; reflexivity).
  rewrite c_assert_bind; [done|]. simpl. unfold is_index in Hr. apply Z.ltb_lt.
  rewrite Z.shiftl_1_l. lia.
Qed.

Lemma GetInode_run m0 m c n :
  shape m0 m c -> n <> 0 -> GetBucketIndexForInode T n m = Done (ino_index n, m).
Proof.
  intros Hs Hn. unfold GetBucketIndexForInode.
  rewrite c_assert_bind by (by rewrite (proj2 (Z.eqb_neq n 0))).
  by eapply GetBucketIndex_run.
Qed.

Lemma GetUuid_run m0 m c u :
  shape m0 m c -> length u = 16%nat -> u <> replicate 16 0 -> GetBucketIndexForUuid T u m = Done (index_of u, m).
Proof.
  intros Hs Hl Hu. unfold GetBucketIndexForUuid.
  rewrite c_assert_bind by (by rewrite not_null).
  eapply GetBucketIndex_run; [done|]. by intros ->.
Qed.

Lemma bucket_ok_lock l k b x : bucket_ok l k b -> bucket_ok l k (with_lock x b).
Proof. by intros []. Qed.

Lemma bucket_ok_remember l k b p :
  bucket_ok l k b -> (p = NULL \/ exists i, i ∈ l /\ at_ i = p) -> bucket_ok l k (remember p b).
Proof. intros Hb Hp. unfold remember. destruct (p =? NULL); [done|]. destruct Hb. by split. Qed.

Lemma relocked p l b :
  Lock b = Free -> with_lock Free (with_hash (LastHashValue b) (remember p (with_lock l b))) = remember p b.
Proof. intros Hl. unfold remember. destruct (p =? NULL), b; simpl in *; by subst. Qed.

Lemma hashed_remember p l b : hashed b -> hashed (remember p (with_lock l b)).
Proof. unfold remember. by destruct (p =? NULL), b. Qed.

(** What a reader of a bucket runs: it locks, finds an entry, changes
    reference counts, and unlocks. *)
Lemma reader_run {A} m0 m c k b n u p (body : ptr -> M memory A) a f {C} (K : ptr -> A -> M memory C) :
  shape m0 m c -> quiet m -> is_index k -> buckets m !! B k = Some b ->
  (forall x m1, shape m0 m1 c -> buckets m1 !! B k = Some (with_lock x b) ->
     lookup_entry (B k) n u m1 = Done (p, set_buckets <[B k := remember p (with_lock x b)]> m1)) ->
  (forall m1, entries m1 = entries m -> body p m1 = Done (a, set_entries f m1)) ->
  (LockBucket (B k) false;; entry ← lookup_entry (B k) n u; a ← body entry; UnlockBucket (B k);; K entry a) m =
    K p a (set_entries f (set_buckets <[B k := remember p b]> m)).
Proof.
  intros Hs Hq Hk Hb Hl Hbody.
  destruct (Hq k Hk) as (b' & Hb' & Hfree & Hh). simplify_eq.
  destruct (sh_bucket _ _ _ Hs k Hk) as (b' & Hb' & Hok). simplify_eq.
  run_step ltac:(eapply LockBucket_run; eauto using B_not_null, shape_hashed).
  run_step ltac:(apply Hl; [by apply shape_set_bucket; eauto using bucket_ok_lock|apply lookup_insert_eq]).
  rewrite set_buckets_twice.
  run_step ltac:(by apply Hbody).
  set (m2 := set_entries f _).
  assert (buckets m2 !! B k = Some (remember p (with_lock (Readers 0) b))) as Hb2 by apply lookup_insert_eq.
  run_step ltac:(apply (UnlockBucket_run (B k) (remember p (with_lock (Readers 0) b)) (LastHashValue b) m2);
    [by apply B_not_null|exact Hb2|by apply hashed_remember, (shape_hashed _ _ _ Hok)
    |exact Hh|left; unfold remember; by destruct (p =? NULL)]).
  unfold m2. change (set_buckets ?g (set_entries f ?x)) with (set_entries f (set_buckets g x)).
  by rewrite set_buckets_twice, relocked.
Qed.
Lemma table_ok_remember m0 m c k b p :
  table_ok m0 m c -> is_index k -> buckets m !! B k = Some b ->
  (p = NULL \/ exists i, i ∈ ids c /\ at_ i = p) ->
  table_ok m0 (set_buckets <[B k := remember p b]> m) c.
Proof.
  intros [Hs Hq] Hk Hb Hp. destruct (Hq k Hk) as (b' & Hb' & Hl & Hh). simplify_eq.
  destruct (sh_bucket _ _ _ Hs k Hk) as (b' & Hb' & Hok). simplify_eq. split.
  - apply shape_set_bucket; [done..|]. by apply bucket_ok_remember.
  - unfold remember. destruct (p =? NULL); by apply quiet_set_bucket.
Qed.

(** ** Acquiring and releasing references *)

Definition acquire (o : option ident) (c : catalogue) : option catalogue :=
  match o with
  | None => Some c
  | Some i =>
      r ← refs c !! at_ i;
      if r + 1 <? 2 ^ 64 then Some (with_ref (at_ i) (r + 1) c) else None
  end.

Definition released (r : Z) : Z := if r =? 1 then 1 else r - 1.

Definition good_uuid (u : list Z) : bool :=
  bool_decide (length u = 16%nat) && negb (bool_decide (u = replicate 16 0)).

Lemma good_uuid_true u : good_uuid u = true -> length u = 16%nat /\ u <> replicate 16 0.
Proof.
  unfold good_uuid. intros [H1%bool_decide_eq_true H2]%andb_prop. split; [done|].
  by apply negb_true_iff, bool_decide_eq_false in H2.
Qed.

Lemma table_ok_entries m0 m c i r :
  table_ok m0 m c -> i ∈ ids c -> 1 <= r < 2 ^ 64 ->
  table_ok m0 (set_entries <[at_ i := entry_of i r]> m) (with_ref (at_ i) r c).
Proof. intros [Hs Hq] Hi Hr. split; [by apply shape_with_ref|done]. Qed.

Lemma set_entries_id m : set_entries id m = m.
Proof. by destruct m. Qed.

Lemma entry_ptr_found m0 m c o :
  shape m0 m c -> (forall i, o = Some i -> i ∈ ids c) ->
  entry_ptr o = NULL \/ exists i, i ∈ ids c /\ at_ i = entry_ptr o.
Proof. intros Hs Ho. destruct o as [i|]; [right; exists i; auto|by left]. Qed.

Lemma entry_ptr_not_null m0 m c i : shape m0 m c -> i ∈ ids c -> (at_ i =? NULL) = false.
Proof.
  intros Hs Hi. pose proof (io_at i). pose proof (sh_ids _ _ _ Hs) as Hok.
  rewrite Forall_forall in Hok. specialize (Hok i Hi) as [? _ _ _].
  apply Z.eqb_neq. unfold NULL. lia.
Qed.

Lemma with_refs_entry i r r' : with_refs r' (entry_of i r) = entry_of i r'.
Proof. reflexivity. Qed.

(** The body of the two lookups. *)
Lemma acquire_run m0 m c o c' k b n u {A} (body : ptr -> M memory A) (x : A) {C} (K : ptr -> A -> M memory C) :
  table_ok m0 m c -> is_index k -> buckets m !! B k = Some b ->
  (forall i, o = Some i -> i ∈ ids c) -> acquire o c = Some c' ->
  (forall y m1, shape m0 m1 c -> buckets m1 !! B k = Some (with_lock y b) ->
     lookup_entry (B k) n u m1 =
       Done (entry_ptr o, set_buckets <[B k := remember (entry_ptr o) (with_lock y b)]> m1)) ->
  (forall m1, body NULL m1 = Done (x, m1)) ->
  (forall i r m1, at_ i <> NULL -> 1 <= r -> entries m1 !! at_ i = Some (entry_of i r) ->
     body (at_ i) m1 = Done (x, set_entries <[at_ i := entry_of i (u64 (r + 1))]> m1)) ->
  exists m', (LockBucket (B k) false;; entry ← lookup_entry (B k) n u; a ← body entry; UnlockBucket (B k);; K entry a) m =
    K (entry_ptr o) x m' /\ table_ok m0 m' c'.
Proof.
  intros [Hs Hq] Hk Hb Ho Hacq Hl Hnull Hbody.
  assert (table_ok m0 (set_buckets <[B k := remember (entry_ptr o) b]> m) c) as Hok.
  { apply table_ok_remember; [by split|done..|]. by eapply entry_ptr_found. }
  destruct o as [i|]; simpl in *.
  - specialize (Ho i eq_refl). destruct (sh_entries _ _ _ Hs i Ho) as (r & Hr & Hr1 & He).
    rewrite Hr in Hacq. simpl in Hacq. destruct (Z.ltb_spec (r + 1) (2 ^ 64)); [|done]. simplify_eq.
    eexists. split.
    + apply (reader_run m0 m c k b n u (at_ i) body x <[at_ i := entry_of i (u64 (r + 1))]>); [done..|].
      intros m1 E. apply Hbody; [apply Z.eqb_neq; by eapply entry_ptr_not_null|lia|by rewrite E].
    + rewrite wrap_small by lia. apply table_ok_entries; [done|done|lia].
  - injection Hacq as <-. eexists. split.
    + apply (reader_run m0 m c k b n u NULL body x id); [done..|].
      intros m1 _. rewrite Hnull. by rewrite set_entries_id.
    + by rewrite set_entries_id.
Qed.

Lemma LookupByIno_ok m0 m c c' n :
  table_ok m0 m c -> n <> 0 -> acquire (by_ino n (ids c)) c = Some c' ->
  exists m', FinesseObjectLookupByIno T n m = Done (answer (by_ino n (ids c)), m') /\ table_ok m0 m' c'.
Proof.
  intros Hok Hn Hacq. pose proof Hok as [Hs Hq]. pose proof (index_range (word_bytes n)) as Hk.
  destruct (sh_bucket _ _ _ Hs _ Hk) as (b & Hb & Hbo).
  unfold FinesseObjectLookupByIno.
  rewrite c_assert_bind by (rewrite (proj2 (Z.eqb_neq _ _)); [done|unfold NULL; lia]).
  run_step ltac:(by eapply CHECK_table_run). run_step ltac:(by eapply GetInode_run).
  run_step ltac:(by eapply bucket_at_run). run_step ltac:(by eapply check_bucket_run).
  assert (forall i, by_ino n (ids c) = Some i -> i ∈ ids c) as Hin by (intros i Hi; by eapply find_elem).
  pose proof (acquire_run m0 m c (by_ino n (ids c)) c' (ino_index n) b n null_uuid
    (fun entry => if negb (entry =? NULL) then fetch_add_refs entry 1;; mret () else mret ()) ()
    (fun entry _ => mret (if negb (entry =? NULL) then object_of entry else NULL)) Hok Hk Hb Hin Hacq) as Hrun.
  odestruct (Hrun _ _ _) as (m' & Hr & Hok').
  - intros y m1 Hs1 Hb1. by apply (lookup_ino_run m0 m1 c).
  - done.
  - intros i r m1 Hi _ He. rewrite (proj2 (Z.eqb_neq _ _)) by done. simpl.
    by run_step ltac:(by apply fetch_add_refs_run).
  - exists m'. split; [|done]. rewrite Hr. unfold answer.
    destruct (by_ino n (ids c)) as [i|] eqn:E; simpl; [|done].
    erewrite entry_ptr_not_null; [done|done|by apply Hin].
Qed.

Lemma LookupByUuid_ok m0 m c c' u :
  table_ok m0 m c -> NoDup (id_uuid <$> ids c) -> length u = 16%nat -> u <> replicate 16 0 ->
  acquire (by_uuid u (ids c)) c = Some c' ->
  exists m', FinesseObjectLookupByUuid T u m = Done (answer (by_uuid u (ids c)), m') /\ table_ok m0 m' c'.
Proof.
  intros Hok Hnd Hl Hu Hacq. pose proof Hok as [Hs Hq]. pose proof (index_range u) as Hk.
  destruct (sh_bucket _ _ _ Hs _ Hk) as (b & Hb & Hbo).
  unfold FinesseObjectLookupByUuid.
  rewrite c_assert_bind by (rewrite (proj2 (Z.eqb_neq _ _)); [done|unfold NULL; lia]).
  run_step ltac:(by eapply CHECK_table_run). run_step ltac:(by eapply GetUuid_run).
  run_step ltac:(by eapply bucket_at_run). run_step ltac:(by eapply check_bucket_run).
  assert (forall i, by_uuid u (ids c) = Some i -> i ∈ ids c) as Hin by (intros i Hi; by eapply find_elem).
  pose proof (acquire_run m0 m c (by_uuid u (ids c)) c' (index_of u) b 0 u
    (fun entry => if negb (entry =? NULL) then refcount ← fetch_add_refs entry 1; c_assert (0 <? refcount) else mret ()) ()
    (fun entry _ => mret (if negb (entry =? NULL) then object_of entry else NULL)) Hok Hk Hb Hin Hacq) as Hrun.
  odestruct (Hrun _ _ _) as (m' & Hr & Hok').
  - intros y m1 Hs1 Hb1. by apply (lookup_uuid_run m0 m1 c).
  - done.
  - intros i r m1 Hi Hr He. rewrite (proj2 (Z.eqb_neq _ _)) by done. simpl.
    run_step ltac:(by apply fetch_add_refs_run). simpl.
    by rewrite (proj2 (Z.ltb_lt 0 r)) by lia.
  - exists m'. split; [|done]. rewrite Hr. unfold answer.
    destruct (by_uuid u (ids c)) as [i|] eqn:E; simpl; [|done].
    erewrite entry_ptr_not_null; [done|done|by apply Hin].
Qed.

(** A release takes one reference, except the last one: then the count is put
    back and the value compared with 1 is the one before that addition, 0. *)
Lemma Release_ok m0 m c i r :
  table_ok m0 m c -> NoDup (id_uuid <$> ids c) -> i ∈ ids c -> refs c !! at_ i = Some r ->
  exists m', FinesseObjectRelease T (object_of (at_ i)) m = Done (tt, m') /\
    table_ok m0 m' (with_ref (at_ i) (released r) c).
Proof.
  intros Hok Hnd Hi Hr. pose proof Hok as [Hs Hq].
  pose proof (sh_ids _ _ _ Hs) as Hids. rewrite Forall_forall in Hids.
  destruct (Hids i Hi) as [Hpos _ Hl Hu]. pose proof (index_range (id_uuid i)) as Hk.
  destruct (sh_bucket _ _ _ Hs _ Hk) as (b & Hb & Hbo).
  destruct (sh_entries _ _ _ Hs i Hi) as (r' & Hr' & Hr1 & He). simplify_eq.
  assert (by_uuid (id_uuid i) (ids c) = Some i) as Hfind.
  { apply (find_unique id_uuid _ (id_uuid i)); [by intros; apply bool_decide_eq_true|done..]. }
  unfold FinesseObjectRelease.
  rewrite c_assert_bind by (rewrite (proj2 (Z.eqb_neq _ _)); [done|unfold object_of, NULL; lia]).
  rewrite c_assert_bind by (rewrite (proj2 (Z.eqb_neq _ _)); [done|unfold NULL; lia]).
  run_step ltac:(by eapply CHECK_table_run).
  replace (object_of (at_ i) - 48) with (at_ i) by (unfold object_of; lia).
  run_step ltac:(by apply load_entry_run). cbn [Object uuid entry_of].
  run_step ltac:(by eapply GetUuid_run). run_step ltac:(by eapply bucket_at_run).
  run_step ltac:(eapply CHECK_bucket_run; [done|by eapply bo_magic]).
  set (body := fun entry => c_assert (negb (entry =? NULL));; refCount ← fetch_add_refs entry (-1);
    c_assert (negb (refCount =? 0));; if refCount =? 1 then fetch_add_refs entry 1 else mret refCount).
  assert (forall m1, entries m1 = entries m -> body (at_ i) m1 =
    Done (if r =? 1 then 0 else r, set_entries <[at_ i := entry_of i (released r)]> m1)) as Hbody.
  { intros m1 E. unfold body. erewrite entry_ptr_not_null by done. rewrite c_assert_bind by done.
    run_step ltac:(apply fetch_add_refs_run; by rewrite E). cbn [ReferenceCount entry_of].
    rewrite c_assert_bind by (rewrite (proj2 (Z.eqb_neq r 0)); [done|lia]).
    unfold released. destruct (Z.eqb_spec r 1) as [->|Hne].
    - erewrite fetch_add_refs_run by (apply lookup_insert_eq).
      unfold set_entries. simpl. by rewrite insert_insert_eq.
    - rewrite with_refs_entry, wrap_small by lia. done. }
  pose proof (reader_run m0 m c (index_of (id_uuid i)) b 0 (id_uuid i) (at_ i) body
    (if r =? 1 then 0 else r) <[at_ i := entry_of i (released r)]>
    (fun entry refCount => if refCount =? 1 then release_entry T entry else mret ()) Hs Hq Hk Hb) as Hrun.
  ospecialize (Hrun _ Hbody).
  { intros y m1 Hs1 Hb1. erewrite lookup_uuid_run by eauto. by rewrite Hfind. }
  eexists. split.
  - etrans; [|etrans; [exact Hrun|]].
    + do 2 (apply M_bind_ext; intros ? ?). unfold body. rewrite M_assoc.
      apply M_bind_ext; intros ? ?. rewrite M_assoc.
      apply M_bind_ext; intros ? ?. by rewrite M_assoc.
    + by destruct (Z.eqb_spec r 1); [|rewrite (proj2 (Z.eqb_neq r 1))].
  - apply table_ok_entries; [|done|unfold released; case_match; lia].
    apply table_ok_remember; eauto.
Qed.
(** ** Both buckets of an entry *)

Definition touch (f : ptr -> lookup_bucket -> lookup_bucket) (i u : Z) (bs : gmap ptr lookup_bucket) :
    gmap ptr lookup_bucket :=
  if decide (i = u) then alter (f (B i)) (B i) bs else alter (f (B u)) (B u) (alter (f (B i)) (B i) bs).

Lemma touch_lookup f i u bs p :
  touch f i u bs !! p = if decide (p = B i \/ p = B u) then f p <$> bs !! p else bs !! p.
Proof.
  unfold touch. destruct (decide (i = u)) as [->|Hne].
  - rewrite lookup_alter. destruct (decide (B u = p)) as [->|]; [by rewrite decide_True by auto|].
    rewrite decide_False; naive_solver.
  - rewrite !lookup_alter. destruct (decide (B u = p)) as [<-|Nu].
    + rewrite (decide_True (P := B u = B i \/ B u = B u)) by auto.
      rewrite decide_False; [done|]. intros E%B_inj. congruence.
    + destruct (decide (B i = p)) as [<-|Ni]; [by rewrite decide_True by auto|].
      rewrite decide_False; naive_solver.
Qed.

Lemma touch_comm f i u bs : touch f i u bs = touch f u i bs.
Proof. apply map_eq. intros p. rewrite !touch_lookup. repeat case_decide; tauto. Qed.

Lemma touch_step f i u bs b b' :
  bs !! B i = Some b -> bs !! B u = Some b' -> i <> u ->
  <[B u := f (B u) b']> (<[B i := f (B i) b]> bs) = touch f i u bs.
Proof.
  intros Hb Hb' Hne. apply map_eq. intros p. rewrite touch_lookup, !lookup_insert.
  destruct (decide (B u = p)) as [<-|Nu]; [by rewrite decide_True, Hb' by auto|].
  destruct (decide (B i = p)) as [<-|Ni]; [by rewrite decide_True, Hb by auto|].
  rewrite decide_False; naive_solver.
Qed.

Lemma touch_once f i bs b : bs !! B i = Some b -> <[B i := f (B i) b]> bs = touch f i i bs.
Proof. intros Hb. unfold touch. rewrite decide_True by done. symmetry. by apply alter_known. Qed.

Lemma bucket_at_table m k : tables m !! T = Some the_table -> bucket_at T k m = Done (B k, m).
Proof. intros Ht. unfold bucket_at, load_table. rewrite M_assoc, get_state_bind. by rewrite Ht. Qed.

Lemma shape_the_table m0 m c : shape m0 m c -> tables m !! T = Some the_table.
Proof. intros Hs. rewrite (sh_tables _ _ _ Hs). apply lookup_insert_eq. Qed.

Lemma lock_both_run m0 m c i u :
  shape m0 m c -> quiet m -> is_index i -> is_index u ->
  lock_both T i u m = Done (tt, set_buckets (touch (fun _ => with_lock Writer) i u) m).
Proof.
  intros Hs Hq Hi Hu. pose proof (shape_the_table _ _ _ Hs) as Ht.
  destruct (Hq i Hi) as (b & Hb & Hf & Hh). destruct (sh_bucket _ _ _ Hs i Hi) as (b' & Hb' & Hok). simplify_eq.
  unfold lock_both. run_step ltac:(by apply bucket_at_table).
  run_step ltac:(eapply LockBucket_run; eauto using B_not_null, shape_hashed).
  destruct (Z.eqb_spec i u) as [->|Hne]; simpl.
  { unfold set_buckets. by rewrite (touch_once (fun _ => with_lock Writer)). }
  destruct (Hq u Hu) as (b1 & Hb1 & Hf1 & Hh1). destruct (sh_bucket _ _ _ Hs u Hu) as (b' & Hb1' & Hok1). simplify_eq.
  assert (buckets (set_buckets <[B i := with_lock Writer b]> m) !! B u = Some b1) as Hb2.
  { simpl. rewrite lookup_insert_ne; [done|]. intros E%B_inj. done. }
  run_step ltac:(by apply bucket_at_table).
  run_step ltac:(eapply LockBucket_run; eauto using B_not_null, shape_hashed).
  unfold set_buckets; simpl. by rewrite (touch_step (fun _ => with_lock Writer)).
Qed.

Definition hash_at (h : heap) (p : ptr) : Z := default 0 (bucket_hash h p).
Definition seal (h : heap) (p : ptr) (b : lookup_bucket) : lookup_bucket := with_lock Free (with_hash (hash_at h p) b).

(** A bucket that its writer may unlock. *)
Definition held (m : memory) (k : Z) : Prop :=
  exists b, buckets m !! B k = Some b /\ hashed b /\ Lock b = Writer /\ is_Some (bucket_hash (lists m) (B k)).

Lemma unlock_run m k b :
  is_index k -> buckets m !! B k = Some b -> hashed b -> Lock b = Writer -> is_Some (bucket_hash (lists m) (B k)) ->
  UnlockBucket (B k) m = Done (tt, set_buckets <[B k := seal (lists m) (B k) b]> m).
Proof.
  intros Hk Hb Hh Hl [h Hbh]. rewrite (UnlockBucket_run (B k) b h m) by eauto using B_not_null.
  unfold seal, hash_at. by rewrite Hbh.
Qed.

Lemma unlock_both_run m i u :
  tables m !! T = Some the_table -> is_index i -> is_index u -> held m i -> held m u ->
  unlock_both T i u m = Done (tt, set_buckets (touch (seal (lists m)) i u) m).
Proof.
  intros Ht Hi Hu (b & Hb & Hbh & Hl & Hx) (b1 & Hb1 & Hbh1 & Hl1 & Hx1).
  unfold unlock_both. destruct (Z.eqb_spec i u) as [->|Hne]; simpl.
  - rewrite mret_bind. run_step ltac:(by apply bucket_at_table).
    erewrite unlock_run by eauto. unfold set_buckets. by rewrite touch_once.
  - rewrite M_assoc. run_step ltac:(by apply bucket_at_table).
    run_step ltac:(by eapply unlock_run). run_step ltac:(by apply bucket_at_table).
    erewrite (unlock_run _ i b).
    + unfold set_buckets; simpl. rewrite touch_comm. by rewrite (touch_step (seal (lists m))).
    + done.
    + simpl. rewrite lookup_insert_ne; [done|]. intros E%B_inj. congruence.
    + done.
    + done.
    + done.
Qed.

Lemma shape_touch m0 m c f i u :
  shape m0 m c -> is_index i -> is_index u ->
  (forall k b, bucket_ok (ids c) k b -> bucket_ok (ids c) k (f (B k) b)) ->
  shape m0 (set_buckets (touch f i u) m) c.
Proof.
  intros Hs Hi Hu Hf. destruct Hs. split; simpl; try done.
  - intros k Hk. destruct (sh_bucket0 k Hk) as (b & Hb & Hok). rewrite touch_lookup, Hb.
    case_decide; simpl; eauto.
  - intros p Hp. rewrite touch_lookup, decide_False; [by apply sh_buckets0|].
    intros [->| ->]; by apply Hp, B_address.
Qed.

Lemma bucket_ok_seal l k h b : bucket_ok l k b -> bucket_ok l k (seal h (B k) b).
Proof. by intros []. Qed.

Lemma shape_bucket_hash m0 m c k : shape m0 m c -> is_index k -> is_Some (bucket_hash (lists m) (B k)).
Proof.
  intros Hs Hk.
  destruct (sh_inos _ _ _ Hs k Hk) as [_ Hc]. destruct (sh_uuids _ _ _ Hs k Hk) as [_ Hc'].
  destruct (chain_nx _ _ _ _ (inode_head (B k)) Hc) as [a Ha]; [by left|].
  destruct (chain_pv _ _ _ _ (inode_head (B k)) Hc) as [x Hx]; [set_solver|].
  destruct (chain_nx _ _ _ _ (uuid_head (B k)) Hc') as [d Hd]; [by left|].
  destruct (chain_pv _ _ _ _ (uuid_head (B k)) Hc') as [y Hy]; [set_solver|].
  unfold bucket_hash. rewrite Ha. simpl. rewrite Hx. simpl. rewrite Hd. simpl. rewrite Hy. simpl. eauto.
Qed.

Lemma quiet_seal m0 m c i u :
  shape m0 m c ->
  (forall k, is_index k -> k <> i -> k <> u -> exists b, buckets m !! B k = Some b /\ Lock b = Free /\
     bucket_hash (lists m) (B k) = Some (LastHashValue b)) ->
  quiet (set_buckets (touch (seal (lists m)) i u) m).
Proof.
  intros Hs Hq k Hk. simpl. rewrite touch_lookup. case_decide as D.
  - destruct (sh_bucket _ _ _ Hs k Hk) as (b & Hb & _).
    destruct (shape_bucket_hash _ _ _ k Hs Hk) as [h Hh].
    exists (seal (lists m) (B k) b). rewrite Hb. split; [done|]. split; [done|].
    unfold seal, hash_at. by rewrite Hh.
  - apply Hq; [done|..]; intros ->; apply D; auto.
Qed.

Lemma bucket_hash_agree h h' k :
  h' !! inode_head (B k) = h !! inode_head (B k) -> h' !! uuid_head (B k) = h !! uuid_head (B k) ->
  bucket_hash h' (B k) = bucket_hash h (B k).
Proof. intros E1 E2. unfold bucket_hash, nx, pv. by rewrite E1, E2. Qed.

(** ** A new entry in memory *)

Definition init (p n : Z) (u : list Z) (m : memory) : memory :=
  set_lists (<[uuid_link p := {| next := uuid_link p; prev := uuid_link p |}]>
    (<[inode_link p := {| next := inode_link p; prev := inode_link p |}]> (lists m)))
    (set_entries <[p := new_entry n u]> m).

Definition freed_of (p : Z) (m : memory) : memory :=
  set_lists (delete (uuid_link p) (delete (inode_link p) (lists m))) (set_entries (delete p) m).

(** Where the memory beside the table has room for an entry, and the
    catalogue does not use it. *)
Definition room (m0 : memory) (p : Z) : Prop :=
  0 < p /\ entries m0 !! p = None /\ lists m0 !! inode_link p = None /\ lists m0 !! uuid_link p = None.
Definition apart (l : list ident) (p : Z) : Prop := inode_link p ∉ used l /\ uuid_link p ∉ used l.

Lemma apart_at l p i : apart l p -> i ∈ l -> at_ i <> p.
Proof. intros [Ha _] Hi <-. apply Ha, elem_used. right. eauto. Qed.

Lemma shape_agree m0 m c m0' m' :
  shape m0 m c ->
  tables m' = tables m -> tables m0' = tables m0 -> buckets m' = buckets m -> buckets m0' = buckets m0 ->
  freed_list_locked m' = freed_list_locked m -> freed_list_locked m0' = freed_list_locked m0 ->
  ObjectTable m' = ObjectTable m -> ObjectTable m0' = ObjectTable m0 ->
  (forall p, p ∈ used (ids c) -> lists m' !! p = lists m !! p /\ lists m0' !! p = None) ->
  (forall p, p ∉ used (ids c) -> lists m' !! p = lists m0' !! p) ->
  (forall p, p ∈ at_ <$> ids c -> entries m' !! p = entries m !! p /\ entries m0' !! p = None) ->
  (forall p, p ∉ at_ <$> ids c -> entries m' !! p = entries m0' !! p) ->
  shape m0' m' c.
Proof.
  intros [] E1 E2 E3 E4 E5 E6 E7 E8 Hl Hl' He He'. split; try congruence; try done.
  - intros k Hk. rewrite E3. by apply sh_bucket0.
  - intros k Hk. eapply is_list_agree, sh_inos0; [|done]. intros x Hx. apply Hl, elem_used.
    apply elem_of_cons in Hx as [->|(i & -> & [_ Hi]%list_elem_of_filter)%list_elem_of_fmap].
    + left. apply elem_heads. eauto.
    + right. eauto.
  - intros k Hk. eapply is_list_agree, sh_uuids0; [|done]. intros x Hx. apply Hl, elem_used.
    apply elem_of_cons in Hx as [->|(i & -> & [_ Hi]%list_elem_of_filter)%list_elem_of_fmap].
    + left. apply elem_heads. eauto.
    + right. eauto.
  - intros i Hi. destruct (He (at_ i)) as [-> _]; [apply list_elem_of_fmap; eauto|]. by apply sh_entries0.
  - intros p Hp. by apply Hl.
  - intros p Hp. by apply He.
  - intros p Hp. rewrite E3, E4. by apply sh_buckets0.
  - intros p Hp. rewrite E4. by apply sh_free0.
Qed.

Lemma shape_init m0 m c p n u :
  shape m0 m c -> room m0 p -> apart (ids c) p -> shape (init p n u m0) (init p n u m) c.
Proof.
  intros Hs Hr Ha. assert (forall i, i ∈ ids c -> at_ i <> p) as Hat by (intros i; by apply apart_at).
  destruct Ha as [A1 A2].
  eapply shape_agree; [exact Hs|done..| | | |]; unfold init; simpl; intros q Hq.
  - rewrite !lookup_insert_ne by (by intros <-). split; [done|by apply (sh_fresh _ _ _ Hs)].
  - rewrite !lookup_insert. repeat case_decide; [done..|by apply (sh_lists _ _ _ Hs)].
  - pose proof Hq as (i & -> & Hi)%list_elem_of_fmap. specialize (Hat i Hi).
    rewrite !lookup_insert_ne by done. split; [done|by apply (sh_new _ _ _ Hs)].
  - rewrite !lookup_insert. case_decide; [done|by apply (sh_others _ _ _ Hs)].
Qed.

Lemma shape_free m0 m c p n u :
  shape (init p n u m0) m c -> room m0 p -> apart (ids c) p -> shape m0 (freed_of p m) c.
Proof.
  intros Hs (_ & R1 & R2 & R3) Ha. assert (forall i, i ∈ ids c -> at_ i <> p) as Hat by (intros i; by apply apart_at).
  destruct Ha as [A1 A2].
  eapply shape_agree; [exact Hs|done..| | | |]; unfold freed_of; simpl; intros q Hq.
  - rewrite !lookup_delete_ne by (by intros <-). split; [done|].
    pose proof (sh_fresh _ _ _ Hs q Hq) as Hf. simpl in Hf.
    by rewrite !lookup_insert_ne in Hf by (by intros <-).
  - destruct (decide (q = uuid_link p)) as [->|N1]; [by rewrite lookup_delete_eq|].
    rewrite lookup_delete_ne by done.
    destruct (decide (q = inode_link p)) as [->|N2]; [by rewrite lookup_delete_eq|].
    rewrite lookup_delete_ne by done.
    rewrite (sh_lists _ _ _ Hs q Hq). simpl. by rewrite !lookup_insert_ne.
  - pose proof Hq as (i & -> & Hi)%list_elem_of_fmap. pose proof (Hat i Hi).
    rewrite lookup_delete_ne by done. split; [done|].
    pose proof (sh_new _ _ _ Hs (at_ i) Hq) as Hf. simpl in Hf. by rewrite lookup_insert_ne in Hf.
  - destruct (decide (q = p)) as [->|N]; [by rewrite lookup_delete_eq|].
    rewrite lookup_delete_ne, (sh_others _ _ _ Hs q Hq) by done. simpl. by rewrite lookup_insert_ne.
Qed.
(** ** Insertion into the two lists *)

Lemma used_apart l : NoDup (used l) -> 
  (forall p i, p ∈ heads -> i ∈ l -> p <> inode_link (at_ i) /\ p <> uuid_link (at_ i)) /\
  (forall i j, i ∈ l -> j ∈ l -> inode_link (at_ i) <> uuid_link (at_ j)).
Proof.
  unfold used. intros (_ & Hd & Hnd)%NoDup_app. split.
  - intros p i Hp Hi. split; intros ->; apply (Hd _ Hp), list_elem_of_bind; exists i; unfold cells; set_solver.
  - clear Hd. induction l as [|x l IH]; [set_solver|]. simpl in Hnd.
    apply NoDup_cons in Hnd as [N1 [N2 N3]%NoDup_cons].
    assert (forall y, y ∈ l -> inode_link (at_ x) <> uuid_link (at_ y) /\ inode_link (at_ y) <> uuid_link (at_ x)) as Hx.
    { intros y Hy. split; intros E.
      - apply N1. right. apply list_elem_of_bind. exists y. unfold cells. rewrite E. set_solver.
      - apply N2, list_elem_of_bind. exists y. unfold cells. rewrite E. set_solver. }
    intros i j [->|Hi]%elem_of_cons [->|Hj]%elem_of_cons; [unfold inode_link, uuid_link; lia|by apply Hx..|].
    by apply IH.
Qed.

Definition ino_cell (l : list ident) (k : Z) (x : ptr) : Prop :=
  x = inode_head (B k) \/ exists i, i ∈ l /\ ino_index (id_ino i) = k /\ x = inode_link (at_ i).
Definition uuid_cell (l : list ident) (k : Z) (x : ptr) : Prop :=
  x = uuid_head (B k) \/ exists i, i ∈ l /\ index_of (id_uuid i) = k /\ x = uuid_link (at_ i).

Lemma ino_cell_elem l k x :
  x ∈ inode_head (B k) :: ((fun i => inode_link (at_ i)) <$> in_ino k l) <-> ino_cell l k x.
Proof.
  unfold ino_cell, in_ino. rewrite elem_of_cons, list_elem_of_fmap. setoid_rewrite list_elem_of_filter. naive_solver.
Qed.

Lemma uuid_cell_elem l k x :
  x ∈ uuid_head (B k) :: ((fun i => uuid_link (at_ i)) <$> in_uuid k l) <-> uuid_cell l k x.
Proof.
  unfold uuid_cell, in_uuid. rewrite elem_of_cons, list_elem_of_fmap. setoid_rewrite list_elem_of_filter. naive_solver.
Qed.

Lemma head_in k : is_index k -> inode_head (B k) ∈ heads /\ uuid_head (B k) ∈ heads.
Proof. intros Hk. split; apply elem_heads; eauto. Qed.

Lemma ino_cells_disjoint l k k' x :
  NoDup (used l) -> is_index k -> is_index k' -> ino_cell l k x -> ino_cell l k' x -> k = k'.
Proof.
  intros Hnd Hk Hk'. destruct (used_apart l Hnd) as [Hh Hl].
  destruct (head_in k Hk) as [H1 _], (head_in k' Hk') as [H2 _].
  intros [->|(i & Hi & <- & ->)] [E|(j & Hj & <- & E)].
  - apply B_inj. unfold inode_head in E. lia.
  - by destruct (Hh _ j H1 Hj).
  - by destruct (Hh _ i H2 Hi).
  - f_equal. f_equal. apply (at_inj l); [done..|]. unfold inode_link in E. lia.
Qed.

Lemma uuid_cells_disjoint l k k' x :
  NoDup (used l) -> is_index k -> is_index k' -> uuid_cell l k x -> uuid_cell l k' x -> k = k'.
Proof.
  intros Hnd Hk Hk'. destruct (used_apart l Hnd) as [Hh Hl].
  destruct (head_in k Hk) as [_ H1], (head_in k' Hk') as [_ H2].
  intros [->|(i & Hi & <- & ->)] [E|(j & Hj & <- & E)].
  - apply B_inj. unfold uuid_head in E. lia.
  - by destruct (Hh _ j H1 Hj).
  - by destruct (Hh _ i H2 Hi).
  - f_equal. f_equal. apply (at_inj l); [done..|]. unfold uuid_link in E. lia.
Qed.

Lemma ino_uuid_disjoint l k k' x :
  NoDup (used l) -> is_index k -> is_index k' -> ino_cell l k x -> uuid_cell l k' x -> False.
Proof.
  intros Hnd Hk Hk'. destruct (used_apart l Hnd) as [Hh Hl].
  destruct (head_in k Hk) as [H1 _], (head_in k' Hk') as [_ H2].
  intros [->|(i & Hi & _ & ->)] [E|(j & Hj & _ & E)].
  - rewrite !B_eq in E. unfold inode_head, uuid_head in E. lia.
  - by destruct (Hh _ j H1 Hj).
  - by destruct (Hh _ i H2 Hi).
  - by destruct (Hl i j Hi Hj).
Qed.

Lemma in_ino_snoc k l j : in_ino k (l ++ [j]) = in_ino k l ++ if decide (ino_index (id_ino j) = k) then [j] else [].
Proof. unfold in_ino. rewrite filter_app, filter_cons. by case_decide. Qed.

Lemma in_uuid_snoc k l j : in_uuid k (l ++ [j]) = in_uuid k l ++ if decide (index_of (id_uuid j) = k) then [j] else [].
Proof. unfold in_uuid. rewrite filter_app, filter_cons. by case_decide. Qed.

Lemma insert_links m0 m c j :
  shape m0 m c -> NoDup (used (ids c ++ [j])) ->
  is_Some (lists m !! inode_link (at_ j)) -> is_Some (lists m !! uuid_link (at_ j)) ->
  let i := ino_index (id_ino j) in
  let u := index_of (id_uuid j) in
  exists h h', insert_list_tail (inode_head (B i)) (inode_link (at_ j)) (lists m) = Done (tt, h) /\
    insert_list_tail (uuid_head (B u)) (uuid_link (at_ j)) h = Done (tt, h') /\
    (forall k, is_index k ->
       is_list h' (inode_head (B k)) ((fun i => inode_link (at_ i)) <$> in_ino k (ids c ++ [j])) /\
       is_list h' (uuid_head (B k)) ((fun i => uuid_link (at_ i)) <$> in_uuid k (ids c ++ [j]))) /\
    (forall p, p ∉ used (ids c ++ [j]) -> h' !! p = lists m !! p) /\
    (forall k, is_index k -> k <> i -> k <> u -> bucket_hash h' (B k) = bucket_hash (lists m) (B k)).
Proof.
  intros Hs Hnd Hc1 Hc2 i u. set (l := ids c ++ [j]).
  assert (is_index i /\ is_index u) as [Hi Hu] by (split; apply index_range).
  assert (j ∈ l) as Hj by (apply elem_of_app; right; by left).
  assert (ino_cell l i (inode_link (at_ j))) as Cj by (right; eauto).
  assert (uuid_cell l u (uuid_link (at_ j))) as Cj' by (right; eauto).
  assert (forall k x, ino_cell (ids c) k x -> ino_cell l k x) as Sub.
  { intros k x [->|(y & Hy & ?)]; [by left|right; exists y; split; [apply elem_of_app; auto|done]]. }
  assert (forall k x, uuid_cell (ids c) k x -> uuid_cell l k x) as Sub'.
  { intros k x [->|(y & Hy & ?)]; [by left|right; exists y; split; [apply elem_of_app; auto|done]]. }
  assert (at_ j ∉ at_ <$> ids c) as Hat.
  { intros (y & E & Hy)%list_elem_of_fmap.
    unfold l in Hnd. rewrite used_snoc in Hnd. apply NoDup_app in Hnd as (_ & Hd & _).
    apply (Hd (inode_link (at_ y))); [apply elem_used; eauto|]. unfold cells. rewrite E. set_solver. }
  assert (forall y, y ∈ ids c -> at_ y <> at_ j) as Hat'.
  { intros y Hy E. apply Hat, list_elem_of_fmap. eauto. }
  destruct (insert_list_tail_spec (lists m) _ _ (inode_link (at_ j)) (sh_inos _ _ _ Hs i Hi)) as (h & Hr & Hl & Hf).
  { rewrite ino_cell_elem. intros [E|(y & Hy & _ & E)].
    - destruct (used_apart l Hnd) as [Hh _]. destruct (head_in i Hi) as [H1 _]. by destruct (Hh _ j H1 Hj).
    - apply (Hat' y Hy). unfold inode_link in E. lia. }
  { done. }
  assert (forall x, x ∈ inode_head (B i) :: inode_link (at_ j) :: ((fun i => inode_link (at_ i)) <$> in_ino i (ids c)) ->
    ino_cell l i x) as F1.
  { intros x. rewrite elem_of_cons, elem_of_cons. intros [->|[->|Hx]]; [by left|done|].
    apply Sub, ino_cell_elem. by right. }
  assert (forall k x, is_index k -> uuid_cell l k x -> h !! x = lists m !! x) as A1.
  { intros k x Hk Hx. apply Hf. intros Hin%F1. by eapply (ino_uuid_disjoint l i k x). }
  assert (forall k x, is_index k -> k <> i -> ino_cell l k x -> h !! x = lists m !! x) as A2.
  { intros k x Hk Hne Hx. apply Hf. intros Hin%F1. apply Hne. by eapply (ino_cells_disjoint l k i x). }
  assert (forall k, is_index k -> is_list h (uuid_head (B k)) ((fun i => uuid_link (at_ i)) <$> in_uuid k (ids c))) as L1.
  { intros k Hk. eapply is_list_agree, (sh_uuids _ _ _ Hs k Hk). intros x Hx%uuid_cell_elem. by eapply A1, Sub'. }
  destruct (insert_list_tail_spec h _ _ (uuid_link (at_ j)) (L1 u Hu)) as (h' & Hr' & Hl' & Hf').
  { rewrite uuid_cell_elem. intros [E|(y & Hy & _ & E)].
    - destruct (used_apart l Hnd) as [Hh _]. destruct (head_in u Hu) as [_ H1]. by destruct (Hh _ j H1 Hj).
    - apply (Hat' y Hy). unfold uuid_link in E. lia. }
  { by rewrite (A1 u). }
  assert (forall x, x ∈ uuid_head (B u) :: uuid_link (at_ j) :: ((fun i => uuid_link (at_ i)) <$> in_uuid u (ids c)) ->
    uuid_cell l u x) as F2.
  { intros x. rewrite elem_of_cons, elem_of_cons. intros [->|[->|Hx]]; [by left|done|].
    apply Sub', uuid_cell_elem. by right. }
  assert (forall k x, is_index k -> ino_cell l k x -> h' !! x = h !! x) as A3.
  { intros k x Hk Hx. apply Hf'. intros Hin%F2. by eapply (ino_uuid_disjoint l k u x). }
  assert (forall k x, is_index k -> k <> u -> uuid_cell l k x -> h' !! x = h !! x) as A4.
  { intros k x Hk Hne Hx. apply Hf'. intros Hin%F2. apply Hne. by eapply (uuid_cells_disjoint l k u x). }
  exists h, h'. split; [done|]. split; [done|]. split; [|split].
  - intros k Hk. fold l. split.
    + unfold l. rewrite in_ino_snoc. fold i. destruct (decide (i = k)) as [<-|Hne].
      * rewrite fmap_app. eapply is_list_agree, Hl. intros x Hx. apply (A3 i); [done|].
        apply elem_of_cons in Hx as [->|[Hx|Hx%list_elem_of_singleton]%elem_of_app]; [by left| |by subst].
        apply Sub, ino_cell_elem. by right.
      * rewrite app_nil_r. eapply is_list_agree, (sh_inos _ _ _ Hs k Hk).
        intros x Hx%ino_cell_elem%Sub. rewrite (A3 k), (A2 k); [done..|congruence|done|done|done].
    + unfold l. rewrite in_uuid_snoc. fold u. destruct (decide (u = k)) as [<-|Hne].
      * by rewrite fmap_app.
      * rewrite app_nil_r. eapply is_list_agree, (L1 k Hk).
        intros x Hx%uuid_cell_elem%Sub'. by eapply A4.
  - intros p Hp. rewrite Hf', Hf; [done|..].
    + intros [->|(y & Hy & _ & ->)]%F1; apply Hp, elem_used; [left; by apply head_in|right; eauto].
    + intros [->|(y & Hy & _ & ->)]%F2; apply Hp, elem_used; [left; by apply head_in|right; eauto].
  - intros k Hk N1 N2. apply bucket_hash_agree.
    + rewrite (A3 k), (A2 k); [done..|by left|done|by left].
    + rewrite (A4 k), (A1 k); [done..|by left|done|done|by left].
Qed.
(** ** Creating an object *)

Definition created (c : catalogue) (j : ident) : catalogue :=
  {| ids := ids c ++ [j]; refs := <[at_ j := 2]> (refs c) |}.

Lemma used_created c j : NoDup (used (ids c)) -> apart (ids c) (at_ j) -> NoDup (used (ids c ++ [j])).
Proof.
  intros Hnd [A1 A2]. rewrite used_snoc. apply NoDup_app. split; [done|]. split.
  - intros x Hx. unfold cells. intros [->|Hy%list_elem_of_singleton]%elem_of_cons; [done|by subst].
  - unfold cells. apply NoDup_cons. split; [|apply NoDup_singleton].
    intros Hy%list_elem_of_singleton. unfold inode_link, uuid_link in Hy. lia.
Qed.

Lemma shape_created m0 m c j m' :
  shape m0 m c -> ident_ok j -> room m0 (at_ j) -> apart (ids c) (at_ j) -> id_ino j ∉ id_ino <$> ids c ->
  tables m' = tables m -> freed_list_locked m' = freed_list_locked m -> ObjectTable m' = ObjectTable m ->
  entries m' = <[at_ j := entry_of j 2]> (entries m) ->
  (forall k, is_index k ->
     is_list (lists m') (inode_head (B k)) ((fun i => inode_link (at_ i)) <$> in_ino k (ids c ++ [j])) /\
     is_list (lists m') (uuid_head (B k)) ((fun i => uuid_link (at_ i)) <$> in_uuid k (ids c ++ [j]))) ->
  (forall p, p ∉ used (ids c ++ [j]) -> lists m' !! p = lists m !! p) ->
  (forall k, is_index k -> exists b, buckets m' !! B k = Some b /\ bucket_ok (ids c ++ [j]) k b) ->
  (forall p, p ∉ addresses -> buckets m' !! p = buckets m !! p) ->
  shape m0 m' (created c j).
Proof.
  intros [] Hj (_ & R1 & R2 & R3) Ha Hino E1 E2 E3 E4 Hl Hf Hb Hbf.
  pose proof (fun i => apart_at (ids c) (at_ j) i Ha) as Hat.
  assert (forall p, p ∉ used (ids c ++ [j]) -> p ∉ used (ids c)) as Hsub.
  { intros p Hp Hin. apply Hp. rewrite used_snoc. apply elem_of_app. by left. }
  split; simpl; try congruence.
  - done.
  - intros k Hk. by apply Hl.
  - intros k Hk. by apply Hl.
  - intros i [Hi| ->%list_elem_of_singleton]%elem_of_app; rewrite E4.
    + rewrite !lookup_insert_ne by (by apply not_eq_sym, Hat). by apply sh_entries0.
    + exists 2. rewrite !lookup_insert_eq. split; [done|]. split; [lia|done].
  - apply Forall_app. split; [done|by apply Forall_singleton].
  - rewrite fmap_app. apply NoDup_app. split; [done|]. split; [|apply NoDup_singleton].
    intros x Hx ->%list_elem_of_singleton. done.
  - by apply used_created.
  - intros p Hp. rewrite Hf, sh_lists0; auto.
  - intros p. rewrite used_snoc. intros [Hp|Hp]%elem_of_app; [by apply sh_fresh0|].
    apply elem_of_cons in Hp as [->|Hp%list_elem_of_singleton]; [done|by subst].
  - intros p Hp. rewrite fmap_app in Hp. apply not_elem_of_app in Hp as [H1 H2].
    rewrite E4, lookup_insert_ne; [by apply sh_others0|]. intros <-. apply H2. by left.
  - intros p. rewrite fmap_app. intros [Hp| ->%list_elem_of_singleton]%elem_of_app; [by apply sh_new0|done].
  - intros p Hp. rewrite Hbf; auto.
  - done.
Qed.

Lemma initialize_entry_run p n u m : initialize_entry p n u m = Done (tt, init p n u m).
Proof. reflexivity. Qed.

Lemma free_entry_run p m : free_entry p m = Done (tt, freed_of p m).
Proof. reflexivity. Qed.

Lemma add_bucket_count_run p d b m :
  buckets m !! p = Some b ->
  add_bucket_count p d m = Done (tt, set_buckets <[p := with_count (u64 (b_EntryCount b + d)) b]> m).
Proof.
  intros Hb. unfold add_bucket_count. run_step ltac:(by apply fl_bucket_run). by apply update_bucket_run.
Qed.

(** The state in which both buckets are locked and the new entry is
    initialised. *)
Definition opened (p n : Z) (u : list Z) (m : memory) : memory :=
  set_buckets (touch (fun _ => with_lock Writer) (ino_index n) (index_of u)) (init p n u m).

Lemma opened_bucket p n u m k b :
  buckets m !! B k = Some b ->
  buckets (opened p n u m) !! B k =
    Some (if decide (k = ino_index n \/ k = index_of u) then with_lock Writer b else b).
Proof.
  intros Hb. simpl. rewrite touch_lookup, Hb. destruct (decide (k = ino_index n \/ k = index_of u)) as [D|D].
  - rewrite decide_True; [done|]. destruct D as [-> | ->]; auto.
  - rewrite decide_False; [done|]. intros [E|E]; apply D; [left|right]; by apply B_inj.
Qed.

Lemma shape_opened m0 m c p n u :
  shape m0 m c -> room m0 p -> apart (ids c) p -> shape (init p n u m0) (opened p n u m) c.
Proof.
  intros Hs Hr Ha. apply shape_touch; [by apply shape_init|apply index_range..|].
  intros k b. apply bucket_ok_lock.
Qed.

(** Other buckets' hashes are not affected by the memory of the new entry. *)
Lemma bucket_hash_opened m0 m c p n u k :
  shape m0 m c -> apart (ids c) p -> is_index k ->
  bucket_hash (lists (opened p n u m)) (B k) = bucket_hash (lists m) (B k) /\
  bucket_hash (lists (freed_of p (opened p n u m))) (B k) = bucket_hash (lists m) (B k).
Proof.
  intros Hs [A1 A2] Hk. destruct (head_in k Hk) as [H1 H2].
  assert (forall x, x ∈ heads -> inode_link p <> x /\ uuid_link p <> x) as N.
  { intros x Hx. split; intros <-; [apply A1|apply A2]; apply elem_used; by left. }
  destruct (N _ H1), (N _ H2).
  split; apply bucket_hash_agree; simpl; by simplify_map_eq.
Qed.
Lemma held_writer m0 m c k b :
  shape m0 m c -> is_index k -> buckets m !! B k = Some b -> Lock b = Writer -> held m k.
Proof.
  intros Hs Hk Hb Hl. destruct (sh_bucket _ _ _ Hs k Hk) as (b' & Hb' & Hok).
  assert (b' = b) as -> by congruence. exists b. split; [done|]. split; [by eapply shape_hashed|]. split; [done|]. by eapply shape_bucket_hash.
Qed.

(** The prefix of [insert_entry]: both buckets are found and locked. *)
Lemma insert_entry_start m0 m c p n u :
  shape m0 m c -> quiet m -> n <> 0 -> length u = 16%nat -> u <> replicate 16 0 -> room m0 p -> apart (ids c) p ->
  exists first second,
    (forall f bs, touch f first second bs = touch f (ino_index n) (index_of u) bs) /\
    is_index first /\ is_index second /\
    (forall P : Z -> Prop, P (ino_index n) -> P (index_of u) -> P first /\ P second) /\
    forall A (K : ptr -> ptr -> Z -> Z -> M memory A),
    (first ← GetBucketIndexForInode T n; inode_bucket ← bucket_at T first;
     second ← GetBucketIndexForUuid T u; uuid_bucket ← bucket_at T second;
     let '(first, second) := if second <? first then (second, first) else (first, second) in
     c_assert (negb (p =? NULL));; initialize_entry p n u;; lock_both T first second;;
     K inode_bucket uuid_bucket first second) m =
    K (B (ino_index n)) (B (index_of u)) first second (opened p n u m).
Proof.
  intros Hs Hq Hn Hl Hu Hr Ha.
  assert (is_index (ino_index n) /\ is_index (index_of u)) as [Hi Hi'] by (split; apply index_range).
  assert (forall f bs i i', touch f i i' bs = touch f i' i bs) as Hc by (intros; apply touch_comm).
  assert (quiet (init p n u m)) as Hq'.
  { intros k Hk. destruct (Hq k Hk) as (b & Hb & Hf & Hh). exists b. split; [done|]. split; [done|].
    rewrite <- Hh. by apply (bucket_hash_opened m0 m c p n u k). }
  set (lo := if index_of u <? ino_index n then index_of u else ino_index n).
  set (hi := if index_of u <? ino_index n then ino_index n else index_of u).
  exists lo, hi. split; [|split; [|split; [|split]]].
  - intros f bs. unfold lo, hi. by destruct (_ <? _).
  - unfold lo. by destruct (_ <? _).
  - unfold hi. by destruct (_ <? _).
  - intros P. unfold lo, hi. by destruct (_ <? _).
  - intros A K. run_step ltac:(by eapply GetInode_run). run_step ltac:(by eapply bucket_at_run).
    run_step ltac:(by eapply GetUuid_run). run_step ltac:(by eapply bucket_at_run).
    replace (if index_of u <? ino_index n then (index_of u, ino_index n) else (ino_index n, index_of u))
      with (lo, hi) by (unfold lo, hi; by destruct (_ <? _)).
    rewrite c_assert_bind by (rewrite (proj2 (Z.eqb_neq _ _)); [done|destruct Hr; unfold NULL; lia]).
    run_step ltac:(by apply initialize_entry_run).
    run_step ltac:(apply (lock_both_run (init p n u m0) _ c); [by apply shape_init|done|unfold lo, hi; by destruct (_ <? _)..]).
    f_equal. unfold opened, set_buckets. unfold lo, hi. destruct (_ <? _); [|done]. by rewrite touch_comm.
Qed.

Lemma check_type_run l k b m {A} (f : M memory A) :
  buckets m !! B k = Some b -> bucket_ok l k b ->
  (b ← load_bucket (B k); c_assert (LookupEntryType b =? LookupEntryTypeLinkedLists);; f) m = f m.
Proof.
  intros Hb Hok. run_step ltac:(by apply fl_bucket_run).
  by rewrite c_assert_bind by (rewrite (bo_type _ _ _ Hok); done).
Qed.

Lemma opened_writer m0 m c p n u bi bv :
  shape m0 m c ->
  buckets (opened p n u m) !! B (ino_index n) = Some bi ->
  buckets (opened p n u m) !! B (index_of u) = Some bv -> Lock bi = Writer /\ Lock bv = Writer.
Proof.
  intros Hs Hi Hv. simpl in Hi, Hv.
  rewrite touch_lookup, decide_True in Hi by auto. rewrite touch_lookup, decide_True in Hv by auto.
  apply fmap_Some in Hi as (? & _ & ->), Hv as (? & _ & ->). done.
Qed.

(** The inode number is known: its entry gets a reference, whatever the UUID. *)
Lemma insert_existing_ok m0 m c c' p n u x :
  table_ok m0 m c -> n <> 0 -> length u = 16%nat -> u <> replicate 16 0 -> room m0 p -> apart (ids c) p ->
  by_ino n (ids c) = Some x -> acquire (Some x) c = Some c' ->
  exists m', insert_entry T n u p m = Done (at_ x, m') /\ table_ok m0 m' c'.
Proof.
  intros [Hs Hq] Hn Hl Hu Hr Ha Hx Hacq. pose proof (proj1 (find_elem _ _ _ Hx)) as Hin.
  destruct (sh_entries _ _ _ Hs x Hin) as (r & Hrx & Hr1 & He).
  cbn [acquire] in Hacq. rewrite Hrx in Hacq. simpl in Hacq.
  destruct (Z.ltb_spec (r + 1) (2 ^ 64)); [|done]. injection Hacq as <-.
  set (i := ino_index n). set (v := index_of u).
  assert (is_index i /\ is_index v) as [Hi Hv] by (split; apply index_range).
  pose proof (shape_opened m0 m c p n u Hs Hr Ha) as Hs2.
  destruct (sh_bucket _ _ _ Hs2 i Hi) as (bi & Hbi & Hoi). destruct (sh_bucket _ _ _ Hs2 v Hv) as (bv & Hbv & Hov).
  unfold insert_entry.
  rewrite c_assert_bind by (rewrite (proj2 (Z.eqb_neq _ _)); [done|unfold NULL; lia]).
  rewrite c_assert_bind by (by rewrite (proj2 (Z.eqb_neq n 0))).
  rewrite c_assert_bind by (by rewrite not_null).
  destruct (insert_entry_start m0 m c p n u) as (lo & hi & Htouch & Hlo & Hhi & Hends & Hrun); [done..|].
  rewrite Hrun. clear Hrun. fold i v.
  rewrite (check_type_run (ids c) i bi) by done. rewrite (check_type_run (ids c) v bv) by done.
  run_step ltac:(eapply lookup_ino_run; [exact Hs2|done|exact Hbi]). rewrite Hx. cbn [entry_ptr]. fold i.
  erewrite entry_ptr_not_null by done. cbn [negb]. rewrite M_assoc.
  set (m3 := set_buckets <[B i := remember (at_ x) bi]> (opened p n u m)).
  assert (shape (init p n u m0) m3 c) as Hs3.
  { apply shape_set_bucket; [done..|]. apply bucket_ok_remember; eauto. }
  run_step ltac:(apply free_entry_run).
  pose proof (shape_free m0 m3 c p n u Hs3 Hr Ha) as Hs4. set (m4 := freed_of p m3) in *.
  assert (entries m4 !! at_ x = Some (entry_of x r)) as He4.
  { simpl. pose proof (apart_at _ _ _ Ha Hin). by simplify_map_eq. }
  rewrite M_assoc. run_step ltac:(by apply load_entry_run). rewrite M_assoc.
  rewrite c_assert_bind by done. rewrite M_assoc.
  run_step ltac:(by apply fetch_add_refs_run). rewrite mret_bind. cbn [ReferenceCount entry_of].
  rewrite with_refs_entry, wrap_small by lia.
  pose proof (shape_with_ref m0 m4 c x (r + 1) Hs4 Hin ltac:(lia)) as Hs5.
  set (m5 := set_entries <[at_ x := entry_of x (r + 1)]> m4) in *.
  assert (Lock bi = Writer /\ Lock bv = Writer) as [Wi Wv].
  { by apply (opened_writer m0 m c p n u bi bv). }
  assert (held m5 i) as Hi5.
  { eapply held_writer; [done|done|apply lookup_insert_eq|]. unfold remember. by destruct (_ =? NULL). }
  assert (held m5 v) as Hv5.
  { destruct (decide (v = i)) as [->|Hne]; [done|].
    eapply (held_writer _ _ _ _ bv); [done|done| |done].
    simpl. rewrite lookup_insert_ne by (intros E%B_inj; congruence). exact Hbv. }
  assert (held m5 lo /\ held m5 hi) as [Hlo5 Hhi5] by (by apply Hends).
  rewrite (M_bind_done _ _ _ _ _ (unlock_both_run m5 lo hi (shape_the_table _ _ _ Hs5) Hlo Hhi Hlo5 Hhi5)).
  eexists. split; [reflexivity|]. unfold set_buckets. rewrite Htouch. fold i v. split.
  - apply (shape_touch m0 m5 _ (seal (lists m5)) i v); [done..|]. intros k b. apply bucket_ok_seal.
  - apply (quiet_seal m0 m5 _ i v Hs5). intros k Hk N1 N2.
    destruct (Hq k Hk) as (b & Hb & Hf & Hh). exists b.
    split; [|split; [done|etrans; [exact (proj2 (bucket_hash_opened m0 m c p n u k Hs Ha Hk))|exact Hh]]].
    simpl. rewrite lookup_insert_ne by (intros E%B_inj; congruence).
    pose proof (opened_bucket p n u m k b Hb) as Ho. rewrite decide_False in Ho by (by intros [?|?]). exact Ho.
Qed.
Definition counted (i v : Z) (b : lookup_bucket) : lookup_bucket :=
  with_count (u64 (b_EntryCount b + (if decide (i = v) then 2 else 1))) b.

Lemma add_counts_run m i v bi bv {A} (K : M memory A) :
  buckets m !! B i = Some bi -> buckets m !! B v = Some bv ->
  (add_bucket_count (B i) 1;; add_bucket_count (B v) 1;; K) m =
    K (set_buckets (touch (fun _ => counted i v) i v) m).
Proof.
  intros Hbi Hbv. run_step ltac:(by apply add_bucket_count_run).
  destruct (decide (i = v)) as [->|Hne].
  - assert (bi = bv) as -> by congruence.
    run_step ltac:(apply add_bucket_count_run, lookup_insert_eq).
    f_equal. unfold set_buckets; simpl. rewrite insert_insert_eq, wrap_add_l.
    rewrite <- (touch_once (fun _ => counted v v) v _ _ Hbv). unfold counted. rewrite decide_True by done.
    replace (b_EntryCount bv + 1 + 1) with (b_EntryCount bv + 2) by lia. done.
  - run_step ltac:(apply add_bucket_count_run; simpl; rewrite lookup_insert_ne; [done|intros E%B_inj; done]).
    f_equal. unfold set_buckets; simpl. rewrite <- (touch_step (fun _ => counted i v) i v _ _ _ Hbi Hbv Hne).
    unfold counted. by rewrite decide_False.
Qed.

Lemma bucket_ok_counted c j k b :
  bucket_ok (ids c) k b ->
  bucket_ok (ids c ++ [j]) k
    (if decide (k = ino_index (id_ino j) \/ k = index_of (id_uuid j))
     then counted (ino_index (id_ino j)) (index_of (id_uuid j)) b else b).
Proof.
  intros [H1 H2 H3 H4 H5].
  assert (LastEntry b = NULL \/ exists i, i ∈ ids c ++ [j] /\ at_ i = LastEntry b) as H5'.
  { destruct H5 as [|(i & Hi & E)]; [by left|right; exists i; split; [apply elem_of_app; auto|done]]. }
  case_decide as D; split; try done; simpl; rewrite H4, ?wrap_add_l, in_ino_snoc, in_uuid_snoc, !length_app.
  - destruct (decide (ino_index (id_ino j) = index_of (id_uuid j))) as [E|E];
      repeat case_decide; simpl; (f_equal; lia) || (exfalso; naive_solver).
  - rewrite !decide_False by naive_solver. simpl. f_equal. lia.
Qed.

(** The inode number is new, and neither the list nor the cache of its
    bucket has the UUID: a new entry. *)
Lemma insert_new_ok m0 m c p n u :
  table_ok m0 m c -> n <> 0 -> length u = 16%nat -> u <> replicate 16 0 -> room m0 p -> apart (ids c) p ->
  by_ino n (ids c) = None ->
  (forall i b, i ∈ ids c -> id_uuid i = u -> buckets m !! B (ino_index n) = Some b ->
     index_of u <> ino_index n /\ at_ i <> LastEntry b) ->
  exists m', insert_entry T n u p m = Done (p, m') /\
    table_ok m0 m' (created c {| at_ := p; id_ino := n; id_uuid := u |}).
Proof.
  intros [Hs Hq] Hn Hl Hu Hr Ha Hx Habs.
  set (i := ino_index n). set (v := index_of u). set (j := {| at_ := p; id_ino := n; id_uuid := u |}).
  assert (is_index i /\ is_index v) as [Hi Hv] by (split; apply index_range).
  pose proof (shape_opened m0 m c p n u Hs Hr Ha) as Hs2.
  destruct (sh_bucket _ _ _ Hs2 i Hi) as (bi & Hbi & Hoi). destruct (sh_bucket _ _ _ Hs2 v Hv) as (bv & Hbv & Hov).
  unfold insert_entry.
  rewrite c_assert_bind by (rewrite (proj2 (Z.eqb_neq _ _)); [done|unfold NULL; lia]).
  rewrite c_assert_bind by (by rewrite (proj2 (Z.eqb_neq n 0))).
  rewrite c_assert_bind by (by rewrite not_null).
  destruct (insert_entry_start m0 m c p n u) as (lo & hi & Htouch & Hlo & Hhi & Hends & Hrun); [done..|].
  rewrite Hrun. clear Hrun. fold i v.
  rewrite (check_type_run (ids c) i bi) by done. rewrite (check_type_run (ids c) v bv) by done.
  run_step ltac:(eapply lookup_ino_run; [exact Hs2|done|exact Hbi]). rewrite Hx. cbn [entry_ptr].
  change (remember NULL bi) with bi. rewrite set_buckets_same by done. cbn [negb Z.eqb NULL]. rewrite M_assoc.
  assert (lookup_entry (B i) 0 u (opened p n u m) = Done (NULL, opened p n u m)) as Habsent.
  { apply (lookup_uuid_absent (init p n u m0) _ c i bi); [done..|].
    intros y Hy Ey. destruct (sh_bucket _ _ _ Hs i Hi) as (b & Hb & _).
    destruct (Habs y b Hy Ey Hb) as [N1 N2]. split; [done|].
    pose proof (opened_bucket p n u m i b Hb) as Ho. rewrite decide_True in Ho by auto.
    rewrite Hbi in Ho. by injection Ho as ->. }
  run_step ltac:(exact Habsent). rewrite M_assoc, c_assert_bind by done.
  pose proof (used_created c j (sh_cells _ _ _ Hs) Ha) as Hnd.
  destruct (insert_links (init p n u m0) (opened p n u m) c j Hs2 Hnd) as (h & h' & Hr1 & Hr2 & Hlists & Hrest & Hhash);
    [simpl; rewrite !lookup_insert; by repeat case_decide..|].
  simpl id_ino in *. simpl id_uuid in *. simpl at_ in *. fold i v in Hr1, Hr2, Hhash.
  rewrite M_assoc. run_step ltac:(apply lift_list_run; exact Hr1).
  rewrite M_assoc. run_step ltac:(apply lift_list_run; exact Hr2).
  set (m3 := set_lists h' (set_lists h (opened p n u m))).
  assert (Hk3 : forall A (K : Z -> M memory A),
    ((add_bucket_count (B i) 1;; add_bucket_count (B v) 1;; mret p) ≫= K) m3 =
      K p (set_buckets (touch (fun _ => counted i v) i v) m3)).
  { intros A K. rewrite M_assoc.
    etrans; [|exact (add_counts_run m3 i v bi bv (K p) Hbi Hbv)].
    apply M_bind_ext; intros ? ?. by rewrite M_assoc. }
  rewrite Hk3. set (m4 := set_buckets _ m3).
  assert (forall k b, buckets (opened p n u m) !! B k = Some b ->
    buckets m4 !! B k = Some (if decide (k = i \/ k = v) then counted i v b else b)) as Hb4.
  { intros k b Hb. change (buckets m4) with (touch (fun _ => counted i v) i v (buckets (opened p n u m))).
    rewrite touch_lookup, Hb.
    destruct (decide (k = i \/ k = v)) as [D|D].
    - rewrite decide_True; [done|]. destruct D as [-> | ->]; auto.
    - rewrite decide_False; [done|]. intros [E%B_inj|E%B_inj]; apply D; auto. }
  assert (shape m0 m4 (created c j)) as Hs4.
  { apply (shape_created m0 m); try done.
    - destruct Hr as [Hp _]. by split.
    - intros (y & E & Hy)%list_elem_of_fmap. pose proof (find_absent _ _ Hx y Hy) as Hf.
      apply Z.eqb_neq in Hf. by apply Hf.
    - intros q Hq'. simpl. rewrite Hrest by done. simpl. pose proof Hq' as Hq''. rewrite used_snoc in Hq''.
      unfold cells in Hq''. simpl in Hq''. rewrite !lookup_insert_ne by set_solver. done.
    - intros k Hk. destruct (sh_bucket _ _ _ Hs2 k Hk) as (b & Hb & Hok). eexists. split; [by apply Hb4|].
      by apply (bucket_ok_counted c j).
    - intros q Hq'. simpl. rewrite !touch_lookup, !decide_False; [done|..];
        intros [-> | ->]; by apply Hq', B_address. }
  assert (Lock bi = Writer /\ Lock bv = Writer) as [Wi Wv] by (by apply (opened_writer m0 m c p n u bi bv)).
  assert (held m4 i) as Hi4.
  { eapply held_writer; [exact Hs4|done|by apply Hb4|]. rewrite decide_True by auto. done. }
  assert (held m4 v) as Hv4.
  { eapply held_writer; [exact Hs4|done|by apply Hb4|]. rewrite decide_True by auto. done. }
  assert (held m4 lo /\ held m4 hi) as [Hlo4 Hhi4] by (by apply Hends).
  rewrite (M_bind_done _ _ _ _ _ (unlock_both_run m4 lo hi (shape_the_table _ _ _ Hs4) Hlo Hhi Hlo4 Hhi4)).
  eexists. split; [reflexivity|]. unfold set_buckets at 1. rewrite Htouch. fold i v. split.
  - apply (shape_touch m0 m4 _ (seal (lists m4)) i v); [done..|]. intros k b. apply bucket_ok_seal.
  - apply (quiet_seal m0 m4 _ i v Hs4). intros k Hk N1 N2.
    destruct (Hq k Hk) as (b & Hb & Hf & Hh). exists b. split; [|split; [done|]].
    + pose proof (opened_bucket p n u m k b Hb) as Ho. rewrite decide_False in Ho by (by intros [?|?]).
      rewrite (Hb4 k b Ho). by rewrite decide_False by (by intros [?|?]).
    + etrans; [exact (Hhash k Hk N1 N2)|].
      etrans; [exact (proj1 (bucket_hash_opened m0 m c p n u k Hs Ha Hk))|exact Hh].
Qed.
End Table.
