(* ===== verification/LookupLife.v ===== *)
(** Creating and destroying a lookup table (FastLookup.v): a new table is
    empty, in the sense of LookupTable.v, and destroying a table gives the
    memory back as it was before the table was created. *)

From stdpp Require Import gmap.
From S2P Require Import Prelude ListEntry Murmur FastLookup LookupTable.

#[local] Open Scope word_scope.

#[local] Opaque instance_hash MurmurHash3_x64_128 truncate_hash.

(** * The number of buckets *)

(** The logarithm of the number of buckets for an estimated size. *)
Definition buckets_wanted (EstimatedSize : Z) : Z :=
  let n := EstimatedSize / 1024 in Z.max 1024 (Z.min 32768 (if n =? 0 then 10240 else n)).
Definition table_shift (EstimatedSize : Z) : Z := Z.log2 (buckets_wanted EstimatedSize).

Lemma lookup_shift_range s : 10 <= table_shift s <= 15.
Proof.
  unfold table_shift. split.
  - apply (Z.log2_le_mono 1024). unfold buckets_wanted. lia.
  - apply (Z.log2_le_mono _ 32768). unfold buckets_wanted. lia.
Qed.

Lemma highest_bit_run n fuel i :
  0 < n -> 0 <= i <= Z.log2 n -> Z.log2 n - i < Z.of_nat fuel -> highest_bit fuel n i = Done (Z.log2 n).
Proof.
  intros Hn. revert i. induction fuel as [|fuel IH]; intros i Hi Hf; [lia|]. simpl.
  destruct (decide (i = Z.log2 n)) as [->|Hne].
  - assert (Z.shiftr n (Z.log2 n) = 1) as ->; [|done].
    rewrite Z.shiftr_div_pow2 by apply Z.log2_nonneg. destruct (Z.log2_spec n Hn) as [H1 H2].
    rewrite Z.pow_succ_r in H2 by apply Z.log2_nonneg.
    symmetry. apply (Z.div_unique _ _ _ (n - 2 ^ Z.log2 n)); lia.
  - rewrite (proj2 (Z.eqb_neq _ _)); [apply IH; lia|].
    rewrite Z.shiftr_div_pow2 by lia. destruct (Z.log2_spec n Hn) as [H1 _].
    assert (2 <= n / 2 ^ i); [|lia].
    apply Z.div_le_lower_bound; [lia|].
    rewrite Z.mul_comm, <- Z.pow_succ_r by lia. etrans; [|done]. apply Z.pow_le_mono_r; lia.
Qed.

Lemma table_buckets_run s : 0 <= s -> table_buckets s = Done (2 ^ table_shift s).
Proof.
  intros Hs. unfold table_buckets.
  assert ((if 32768 <? (if (if s / 1024 =? 0 then 10240 else s / 1024) <? 1024 then 1024
             else if s / 1024 =? 0 then 10240 else s / 1024) then 32768
           else if (if s / 1024 =? 0 then 10240 else s / 1024) <? 1024 then 1024
             else if s / 1024 =? 0 then 10240 else s / 1024) = buckets_wanted s) as ->.
  { unfold buckets_wanted. destruct (Z.eqb_spec (s / 1024) 0); [done|].
    destruct (Z.ltb_spec (s / 1024) 1024); destruct (Z.ltb_spec 32768 (s / 1024));
      try destruct (Z.ltb_spec 32768 1024); lia. }
  pose proof (lookup_shift_range s) as Hr. unfold table_shift in *.
  rewrite highest_bit_run; [|unfold buckets_wanted; lia|lia..].
  simpl. by rewrite Z.shiftl_1_l.
Qed.

Lemma count_shift_run k : 10 <= k <= 15 -> count_shift (2 ^ k) = Done k.
Proof.
  intros Hk. assert (k = 10 \/ k = 11 \/ k = 12 \/ k = 13 \/ k = 14 \/ k = 15) as H by lia.
  by destruct H as [->|[->|[->|[->|[->| ->]]]]].
Qed.

(** * Initialising buckets *)

Definition heads_of (bs : list ptr) : list ptr := b ← bs; [inode_head b; uuid_head b].

Lemma elem_heads_of bs p : p ∈ heads_of bs <-> exists b, b ∈ bs /\ (p = inode_head b \/ p = uuid_head b).
Proof. unfold heads_of. rewrite list_elem_of_bind. set_solver. Qed.

(** Memory with the lists and buckets replaced. *)
Definition with_new (h : heap) (bs : gmap ptr lookup_bucket) (m : memory) : memory :=
  set_lists h (set_buckets (fun _ => bs) m).

Definition self_linked (p : ptr) : list_entry := {| next := p; prev := p |}.

Definition empty_hash (b : ptr) : Z := instance_hash (inode_head b) (inode_head b) (uuid_head b) (uuid_head b).

Lemma initialize_bucket_run b m :
  b <> NULL ->
  initialize_bucket b m =
    Done (tt, with_new (<[uuid_head b := self_linked (uuid_head b)]>
                         (<[inode_head b := self_linked (inode_head b)]> (lists m)))
                       (<[b := new_bucket (empty_hash b)]> (buckets m)) m).
Proof.
  intros Hb. unfold initialize_bucket. rewrite !modify_bind.
  set (m1 := set_lists _ _).
  assert (buckets m1 !! b = Some (new_bucket 0)) as Hb1 by apply lookup_insert_eq.
  assert (bucket_hash (lists m1) b = Some (empty_hash b)) as Hh.
  { unfold bucket_hash, nx, pv, m1. cbn [lists set_lists set_buckets].
    assert (inode_head b <> uuid_head b) by (unfold inode_head, uuid_head; lia).
    by simplify_map_eq. }
  run_step ltac:(by apply (hash_run b (new_bucket 0))).
  rewrite (update_bucket_run b _ (new_bucket 0)) by done.
  unfold m1, with_new, set_buckets, set_lists. simpl. by rewrite insert_insert_eq.
Qed.

Lemma initialize_buckets_run bs : forall m,
  (forall b, b ∈ bs -> b <> NULL) -> NoDup bs -> NoDup (heads_of bs) ->
  exists h g, initialize_buckets bs m = Done (tt, with_new h g m) /\
    (forall b, b ∈ bs -> g !! b = Some (new_bucket (empty_hash b)) /\
       h !! inode_head b = Some (self_linked (inode_head b)) /\ h !! uuid_head b = Some (self_linked (uuid_head b))) /\
    (forall p, p ∉ bs -> g !! p = buckets m !! p) /\
    (forall p, p ∉ heads_of bs -> h !! p = lists m !! p).
Proof.
  induction bs as [|b bs IH]; intros m Hpos Hnd Hh.
  { exists (lists m), (buckets m). split; [by destruct m|]. set_solver. }
  simpl. run_step ltac:(apply initialize_bucket_run, Hpos; by left). set (m1 := with_new _ _ m).
  apply NoDup_cons in Hnd as [Hb Hnd].
  unfold heads_of in Hh. simpl in Hh. apply NoDup_cons in Hh as [N1 [N2 N3]%NoDup_cons].
  destruct (IH m1) as (h & g & Hr & Hin & Hg & Hl); [set_solver|done|done|].
  exists h, g. split; [rewrite Hr; by destruct m|]. split; [|split].
  - intros x [->|Hx]%elem_of_cons; [|by apply Hin].
    rewrite Hg, !Hl by (done || set_solver). simpl.
    assert (inode_head b <> uuid_head b) by (unfold inode_head, uuid_head; lia).
    by rewrite !lookup_insert_eq, lookup_insert_ne, lookup_insert_eq by done.
  - intros p Hp. rewrite Hg by set_solver. simpl. rewrite lookup_insert_ne; set_solver.
  - intros p Hp. assert (p ∉ heads_of bs /\ p <> inode_head b /\ p <> uuid_head b) as (P1 & P2 & P3).
    { change (heads_of (b :: bs)) with (inode_head b :: uuid_head b :: heads_of bs) in Hp. set_solver. }
    rewrite Hl by done. simpl. by rewrite !lookup_insert_ne.
Qed.

Section Life.
Context {UU : Libuuid} {UL : LibuuidLaws} {ST : Statics}.

Definition no_objects : catalogue := {| ids := []; refs := ∅ |}.

(** Where a memory has room for a table of [2 ^ shift] buckets. *)
Record room_for_table (T shift : Z) (m0 : memory) : Prop := {
  rt_pos : 0 < T;
  rt_table : tables m0 !! T = None;
  rt_buckets p : p ∈ addresses T shift -> buckets m0 !! p = None;
  rt_lists p : p ∈ heads T shift -> lists m0 !! p = None }.

Lemma NoDup_addresses T shift : NoDup (addresses T shift).
Proof.
  unfold addresses, bucket_addresses. apply NoDup_fmap_2_strong, NoDup_seq.
  intros x y _ _ E. unfold bucket_address, SIZEOF_BUCKET in E. lia.
Qed.

Lemma self_list h p : h !! p = Some (self_linked p) -> is_list h p [].
Proof. intros Hp. split; [apply NoDup_singleton|]. simpl. unfold linked, nx, pv. by rewrite Hp. Qed.

Lemma create_shape m0 T shift h g :
  room_for_table T shift m0 -> 10 <= shift <= 15 ->
  (forall b, b ∈ addresses T shift -> g !! b = Some (new_bucket (empty_hash b)) /\
     h !! inode_head b = Some (self_linked (inode_head b)) /\ h !! uuid_head b = Some (self_linked (uuid_head b))) ->
  (forall p, p ∉ addresses T shift -> g !! p = buckets m0 !! p) ->
  (forall p, p ∉ heads_of (addresses T shift) -> h !! p = lists m0 !! p) ->
  table_ok T shift m0 (with_new h g (set_tables <[T := the_table T shift]> m0)) no_objects.
Proof.
  intros [Hpos Ht Hb Hl] Hshift Hin Hg Hh.
  assert (forall k, is_index shift k -> B T k ∈ addresses T shift) as Hk by (intros; by apply B_address).
  assert (used T shift [] = heads_of (addresses T shift)) as Hu by (unfold used; simpl; by rewrite app_nil_r).
  split; [split; simpl; try done|].
  - intros k Hx. eexists. split; [by apply Hin, Hk|]. split; [done..| |by left].
    simpl. by rewrite wrap_small by lia.
  - intros k Hx. apply self_list. by apply Hin, Hk.
  - intros k Hx. apply self_list. by apply Hin, Hk.
  - set_solver.
  - constructor.
  - rewrite Hu. apply NoDup_heads.
  - by rewrite Hu.
  - rewrite Hu. done.
  - set_solver.
  - intros k Hx. eexists. split; [by apply Hin, Hk|]. split; [done|]. simpl.
    unfold bucket_hash, nx, pv. destruct (Hin _ (Hk k Hx)) as (_ & -> & ->). done.
Qed.

Lemma create_table_ok m0 T s :
  0 <= s -> room_for_table T (table_shift s) m0 ->
  exists m, FinesseCreateTable s T m0 = Done (T, m) /\ table_ok T (table_shift s) m0 m no_objects.
Proof.
  intros Hs Hroom. pose proof (lookup_shift_range s) as Hr. pose proof (rt_pos _ _ _ Hroom) as Hpos.
  unfold FinesseCreateTable.
  run_step ltac:(unfold lift_outcome; rewrite table_buckets_run by done; reflexivity).
  assert (0 < 2 ^ table_shift s <= 2 ^ 15) as Hb.
  { split; [apply Z.pow_pos_nonneg; lia|apply Z.pow_le_mono_r; lia]. }
  rewrite wrap_small by lia. unfold CreateLookupTable.
  rewrite c_assert_bind by (rewrite (proj2 (Z.eqb_neq _ _)); [done|unfold NULL; lia]).
  run_step ltac:(unfold lift_outcome; rewrite count_shift_run by done; reflexivity).
  rewrite modify_bind.
  change (Z.land (SIZEOF_TABLE + 63) (wnot 64 63)) with 128. change (0 =? 0) with true. cbv iota.
  destruct (initialize_buckets_run (addresses T (table_shift s)) (set_tables <[T := the_table T (table_shift s)]> m0))
    as (h & g & Hrun & Hin & Hg & Hl).
  - intros b (k & Hk & ->)%(elem_addresses T _ Hr). by apply (B_not_null T (table_shift s)).
  - apply NoDup_addresses.
  - apply NoDup_heads.
  - run_step ltac:(exact Hrun). eexists. split; [reflexivity|]. by apply create_shape.
Qed.

(** * Destroying a table *)

Definition links (js : list ident) : list ptr := (fun i => inode_link (at_ i)) <$> js.
Definition all_cells (js : list ident) : list ptr := i ← js; cells i.

Lemma elem_all_cells js p :
  p ∈ all_cells js <-> exists i, i ∈ js /\ (p = inode_link (at_ i) \/ p = uuid_link (at_ i)).
Proof. unfold all_cells. rewrite list_elem_of_bind. unfold cells. set_solver. Qed.

(** Memory that lost the entries [js], and whose list [hd] was emptied. *)
Record drained (js : list ident) (hds : list ptr) (m m' : memory) : Prop := {
  dr_tables : tables m' = tables m;
  dr_buckets : buckets m' = buckets m;
  dr_locked : freed_list_locked m' = freed_list_locked m;
  dr_global : ObjectTable m' = ObjectTable m;
  dr_gone p : p ∈ at_ <$> js -> entries m' !! p = None;
  dr_kept p : p ∉ at_ <$> js -> entries m' !! p = entries m !! p;
  dr_cells p : p ∈ all_cells js -> lists m' !! p = None;
  dr_other p : p ∉ all_cells js -> p ∉ hds -> lists m' !! p = lists m !! p }.

Lemma empty_list_run hd n m : nx (lists m) hd = Some n -> lift_list (empty_list hd) m = Done (n =? hd, m).
Proof.
  intros Hn. erewrite lift_list_run; [by rewrite set_lists_same|].
  unfold empty_list. by rewrite (M_bind_done _ _ _ _ _ (get_next_run _ _ _ Hn)).
Qed.

Lemma drain_run hd js : forall fuel m,
  is_list (lists m) hd (links js) -> NoDup (hd :: all_cells js) -> (length js < fuel)%nat ->
  exists m', drain fuel hd m = Done (tt, m') /\ drained js [hd] m m'.
Proof.
  induction js as [|j js IH]; intros fuel m Hl Hnd Hf; (destruct fuel as [|fuel]; [simpl in Hf; lia|]); simpl.
  - exists m. destruct Hl as [_ [Hn _]]. split.
    + by rewrite (M_bind_done _ _ _ _ _ (empty_list_run hd hd m Hn)), Z.eqb_refl.
    + split; set_solver.
  - simpl in Hl, Hnd. apply NoDup_cons in Hnd as [N1 [N2 [N3 N4]%NoDup_cons]%NoDup_cons].
    pose proof (is_list_first _ _ _ Hl) as [Hn _]. simpl in Hn.
    rewrite (M_bind_done _ _ _ _ _ (empty_list_run hd _ m Hn)).
    rewrite (proj2 (Z.eqb_neq _ _)) by (intros E; apply N1; rewrite <- E; by left).
    destruct (remove_list_entry_spec (lists m) hd [] (inode_link (at_ j)) (links js) Hl) as (h & Hr & Hl' & _ & Hsame).
    simpl in Hl', Hsame.
    assert (lift_list (remove_list_head hd) m = Done (inode_link (at_ j), set_lists h m)) as Hrh.
    { apply lift_list_run. unfold remove_list_head. rewrite (M_bind_done _ _ _ _ _ (get_next_run _ _ _ Hn)).
      by rewrite (M_bind_done _ _ _ _ _ Hr). }
    rewrite (M_bind_done _ _ _ _ _ Hrh).
    replace (inode_link (at_ j) - 16) with (at_ j) by (unfold inode_link; lia).
    rewrite (M_bind_done _ _ _ _ _ (free_entry_run (at_ j) _)). set (m1 := freed_of (at_ j) (set_lists h m)).
    assert (forall x, x ∈ hd :: links js -> x <> inode_link (at_ j) /\ x <> uuid_link (at_ j)) as Hne.
    { intros x Hx. apply elem_of_cons in Hx as [->|(i & -> & Hi)%list_elem_of_fmap].
      - set_solver.
      - split; intros E; [apply N2; right|apply N3]; apply elem_all_cells; exists i; eauto. }
    destruct (IH fuel m1) as (m' & Hrun & [D1 D2 D3 D4 D5 D6 D7 D8]).
    + eapply is_list_agree, Hl'. intros x Hx. destruct (Hne x Hx). simpl. by rewrite !lookup_delete_ne.
    + apply NoDup_cons. split; [set_solver|done].
    + simpl in Hf. lia.
    + exists m'. split; [exact Hrun|].
      assert (forall p, p ∈ links js -> p ∈ all_cells js) as Hsub.
      { intros p (i & -> & Hi)%list_elem_of_fmap. apply elem_all_cells. eauto. }
      split; [done..| | | |].
      * intros p [->|Hp]%elem_of_cons; [|by apply D5].
        destruct (decide (at_ j ∈ at_ <$> js)); [by apply D5|]. rewrite D6 by done. simpl. apply lookup_delete_eq.
      * intros p [P1 P2]%not_elem_of_cons. rewrite D6 by done. simpl. by rewrite lookup_delete_ne.
      * intros p Hp. change (p ∈ inode_link (at_ j) :: uuid_link (at_ j) :: all_cells js) in Hp.
        destruct (decide (p ∈ all_cells js)) as [|Hn']; [by apply D7|].
        rewrite D8 by set_solver. simpl. apply lookup_delete_None.
        rewrite lookup_delete_None. set_solver.
      * intros p Hp1 Hp2. change (p ∉ inode_link (at_ j) :: uuid_link (at_ j) :: all_cells js) in Hp1.
        rewrite D8 by set_solver. simpl. rewrite !lookup_delete_ne by set_solver.
        apply Hsame. set_solver.
Qed.
Lemma drained_trans js1 js2 h1 h2 m1 m2 m3 :
  drained js1 h1 m1 m2 -> drained js2 h2 m2 m3 -> (forall p, p ∈ h2 -> p ∉ all_cells js1) ->
  drained (js1 ++ js2) (h1 ++ h2) m1 m3.
Proof.
  intros [] [] Hd.
  assert (forall p, p ∈ all_cells (js1 ++ js2) <-> p ∈ all_cells js1 \/ p ∈ all_cells js2) as Happ.
  { intros p. unfold all_cells. rewrite bind_app. apply elem_of_app. }
  split; try congruence.
  - intros p. rewrite fmap_app, elem_of_app. intros Hp.
    destruct (decide (p ∈ at_ <$> js2)) as [|N]; [auto|]. rewrite dr_kept1 by done. naive_solver.
  - intros p. rewrite fmap_app, not_elem_of_app. intros [N1 N2]. by rewrite dr_kept1, dr_kept0.
  - intros p Hp%Happ. destruct (decide (p ∈ all_cells js2)) as [|N]; [auto|].
    destruct Hp as [Hp|]; [|done]. rewrite dr_other1; [auto|done|]. intros Hh. by apply (Hd p).
  - intros p. rewrite Happ. intros N1 [N2 N3]%not_elem_of_app. rewrite dr_other1, dr_other0; naive_solver.
Qed.

Section Destroy.
Variables (T shift : Z).
Hypothesis T_pos : 0 < T.
Hypothesis shift_range : 10 <= shift <= 15.

Lemma NoDup_cells_sublist (l l' : list ident) :
  NoDup (at_ <$> l') -> (forall i, i ∈ l' -> i ∈ l) -> NoDup (used T shift l) -> NoDup (all_cells l').
Proof.
  intros Hat Hsub Hnd. destruct (used_apart T shift T_pos shift_range l Hnd) as [_ Hne].
  assert (forall i, i ∈ l' -> forall p, p ∈ cells i -> p = inode_link (at_ i) \/ p = uuid_link (at_ i)) as Hc
    by (unfold cells; set_solver).
  induction l' as [|i l' IH]; [constructor|]. simpl in Hat. apply NoDup_cons in Hat as [Hi Hat].
  assert (forall j, j ∈ l' -> at_ j <> at_ i) as Hij.
  { intros j Hj E. apply Hi. rewrite <- E. apply list_elem_of_fmap. eauto. }
  change (NoDup (inode_link (at_ i) :: uuid_link (at_ i) :: all_cells l')).
  apply NoDup_cons. split; [|apply NoDup_cons; split].
  - intros [E|(j & Hj & [E|E])%elem_all_cells]%elem_of_cons.
    + unfold inode_link, uuid_link in E. lia.
    + apply (Hij j Hj). unfold inode_link in E. lia.
    + apply (Hne i j); [apply Hsub; by left|apply Hsub; by right|done].
  - intros (j & Hj & [E|E])%elem_all_cells.
    + apply (Hne j i); [apply Hsub; by right|apply Hsub; by left|done].
    + apply (Hij j Hj). unfold uuid_link in E. lia.
  - apply IH; [done|set_solver|set_solver].
Qed.

Lemma at_NoDup l : NoDup (used T shift l) -> NoDup (at_ <$> l).
Proof.
  unfold used. intros (_ & _ & Hnd)%NoDup_app. induction l as [|i l IH]; [constructor|].
  simpl in Hnd. apply NoDup_cons in Hnd as [N1 [N2 N3]%NoDup_cons]. simpl. apply NoDup_cons. split; [|by apply IH].
  intros (j & E & Hj)%list_elem_of_fmap. apply N1. right. apply (elem_all_cells l). exists j. rewrite E. auto.
Qed.

Notation idents k l := (in_ino shift k l).

Lemma drain_buckets_run l : NoDup (used T shift l) -> forall ks m,
  NoDup ks -> (forall k, k ∈ ks -> is_index shift k /\ is_list (lists m) (inode_head (B T k)) (links (idents k l))) ->
  exists m', drain_buckets (B T <$> ks) m = Done (tt, m') /\
    drained (k ← ks; idents k l) ((fun k => inode_head (B T k)) <$> ks) m m'.
Proof.
  intros Hnd ks. destruct (used_apart T shift T_pos shift_range l Hnd) as [Hh Hne].
  induction ks as [|k ks IH]; intros m Hks Hl.
  { exists m. split; [done|]. split; set_solver. }
  apply NoDup_cons in Hks as [Hk Hks]. destruct (Hl k) as [Hki Hkl]; [by left|].
  assert (forall i, i ∈ idents k l -> i ∈ l /\ ino_index shift (id_ino i) = k) as Hin.
  { intros i [? ?]%list_elem_of_filter. done. }
  assert (forall k' x, is_index shift k' -> ino_cell T shift l k' x -> k' <> k ->
    x <> inode_head (B T k) /\ x ∉ all_cells (idents k l)) as Hapart.
  { intros k' x Hk' Hx Hkk. split.
    - intros ->. apply Hkk, (ino_cells_disjoint T shift T_pos shift_range l k' k (inode_head (B T k))); [done..|by left].
    - intros (i & [Hi Ei]%Hin & [-> | ->])%elem_all_cells.
      + apply Hkk, (ino_cells_disjoint T shift T_pos shift_range l k' k (inode_link (at_ i))); [done..|right; eauto].
      + apply (ino_uuid_disjoint T shift T_pos shift_range l k' (index_of shift (id_uuid i)) (uuid_link (at_ i)));
          [done|done|by apply index_range|done|right; eauto]. }
  destruct (drain_run (inode_head (B T k)) (idents k l) (S (size (lists m))) m) as (m1 & Hrun & Hdr); [done| | |].
  - apply NoDup_cons. split.
    + intros (i & [Hi _]%Hin & Hx)%elem_all_cells. destruct (head_in T shift T_pos shift_range k Hki) as [Hhd _].
      destruct (Hh _ i Hhd Hi). naive_solver.
    + apply (NoDup_cells_sublist l); [|by intros i [? _]%Hin|done].
      eapply sublist_NoDup; [apply at_NoDup, Hnd|]. apply fmap_sublist, sublist_filter.
  - pose proof (is_list_length _ _ _ Hkl) as Hlen. unfold links in Hlen. rewrite length_fmap in Hlen. lia.
  - simpl. rewrite get_state_bind, (M_bind_done _ _ _ _ _ Hrun).
    destruct (IH m1 Hks) as (m2 & Hrun2 & Hdr2).
    { intros k' Hk'. destruct (Hl k') as [Hki' Hkl']; [by right|]. split; [done|].
      eapply is_list_agree, Hkl'. intros x Hx%(ino_cell_elem T shift shift_range).
      destruct (Hapart k' x Hki' Hx) as [H1 H2]; [intros ->; done|].
      apply (dr_other _ _ _ _ Hdr); [done|]. set_solver. }
    exists m2. split; [exact Hrun2|].
    apply (drained_trans (idents k l) _ [inode_head (B T k)] _ m m1 m2 Hdr Hdr2).
    intros p (k' & -> & Hk')%list_elem_of_fmap. destruct (Hl k') as [Hki' _]; [by right|].
    apply (Hapart k'); [done|by left|]. intros ->. done.
Qed.

(** Deleting the memory of the table itself. *)
Lemma foldr_delete_lookup {A} (l : list ptr) (g : gmap Z A) p :
  foldr delete g l !! p = if decide (p ∈ l) then None else g !! p.
Proof.
  induction l as [|x l IH]; simpl; [done|]. destruct (decide (p = x)) as [->|Hne].
  - rewrite lookup_delete_eq, decide_True; [done|by left].
  - rewrite lookup_delete_ne, IH by done. repeat case_decide; set_solver.
Qed.

Lemma foldr_delete_heads (l : list ptr) (h : heap) p :
  foldr (fun b h => delete (uuid_head b) (delete (inode_head b) h)) h l !! p =
    if decide (p ∈ heads_of l) then None else h !! p.
Proof.
  induction l as [|x l IH]; [done|]. cbn [foldr].
  change (heads_of (x :: l)) with (inode_head x :: uuid_head x :: heads_of l).
  destruct (decide (p = uuid_head x)) as [->|N1]; [rewrite lookup_delete_eq, decide_True; [done|set_solver]|].
  rewrite lookup_delete_ne by done.
  destruct (decide (p = inode_head x)) as [->|N2]; [rewrite lookup_delete_eq, decide_True; [done|set_solver]|].
  rewrite lookup_delete_ne, IH by done. repeat case_decide; set_solver.
Qed.

Lemma memory_eq (m m' : memory) :
  lists m = lists m' -> entries m = entries m' -> buckets m = buckets m' -> tables m = tables m' ->
  freed_list_locked m = freed_list_locked m' -> ObjectTable m = ObjectTable m' -> m = m'.
Proof. destruct m, m'. simpl. congruence. Qed.

Lemma destroy_ok m0 m c : table_ok T shift m0 m c -> FinesseDestroyTable T m = Done (tt, m0).
Proof.
  intros [Hs _]. unfold FinesseDestroyTable, DestroyLookupTable.
  rewrite c_assert_bind by (rewrite (proj2 (Z.eqb_neq _ _)); [done|unfold NULL; lia]).
  run_step ltac:(by eapply CHECK_table_run). run_step ltac:(by eapply load_table_run).
  cbn [tbl_BucketCountShift tbl_Buckets the_table]. rewrite Z.shiftl_1_l.
  set (ks := Z.of_nat <$> seq 0 (Z.to_nat (2 ^ shift))).
  assert (bucket_addresses (T + 128) (Z.to_nat (2 ^ shift)) = B T <$> ks) as Hbs by (unfold ks; by rewrite <- list_fmap_compose).
  assert (forall k, k ∈ ks <-> is_index shift k) as Hks.
  { intros k. unfold ks. rewrite list_elem_of_fmap. unfold is_index. split.
    - intros (x & -> & Hx%elem_of_seq). lia.
    - intros Hk. exists (Z.to_nat k). split; [lia|]. apply elem_of_seq. lia. }
  destruct (drain_buckets_run (ids c) (sh_cells _ _ _ _ _ Hs) ks m) as (m1 & Hrun & [D1 D2 D3 D4 D5 D6 D7 D8]).
  { apply NoDup_fmap_2; [apply _|apply NoDup_seq]. }
  { intros k Hk%Hks. split; [done|]. by apply (sh_inos _ _ _ _ _ Hs). }
  assert (forall i, i ∈ (k ← ks; idents k (ids c)) <-> i ∈ ids c) as Hall.
  { intros i. rewrite list_elem_of_bind. unfold in_ino. setoid_rewrite list_elem_of_filter. split; [naive_solver|].
    intros Hi. exists (ino_index shift (id_ino i)). split; [done|]. by apply Hks, (index_range shift shift_range). }
  rewrite Hbs. run_step ltac:(exact Hrun).
  fold (addresses T shift). unfold free_table. rewrite !modify_bind. unfold modify_state. f_equal. f_equal.
  apply memory_eq; simpl.
  - apply map_eq. intros p. rewrite foldr_delete_heads.
    change (heads_of (addresses T shift)) with (heads T shift).
    assert (forall q, q ∈ used T shift (ids c) <-> q ∈ heads T shift \/ q ∈ all_cells (ids c)) as Hu.
    { intros q. unfold used. apply elem_of_app. }
    case_decide as Hp; [symmetry; apply (sh_fresh _ _ _ _ _ Hs), Hu; auto|].
    destruct (decide (p ∈ all_cells (ids c))) as [Hc|Hc].
    + rewrite D7; [symmetry; apply (sh_fresh _ _ _ _ _ Hs), Hu; auto|].
      apply elem_all_cells in Hc as (i & Hi & ?). apply elem_all_cells. exists i. split; [by apply Hall|done].
    + rewrite D8; [apply (sh_lists _ _ _ _ _ Hs); rewrite Hu; tauto|..].
      * intros (i & Hi%Hall & ?)%elem_all_cells. apply Hc, elem_all_cells. eauto.
      * intros (k & -> & Hk%Hks)%list_elem_of_fmap. apply Hp, head_in; done.
  - apply map_eq. intros p. destruct (decide (p ∈ at_ <$> ids c)) as [Hp|Hp].
    + rewrite D5; [symmetry; by apply (sh_new _ _ _ _ _ Hs)|].
      apply list_elem_of_fmap in Hp as (i & -> & Hi). apply list_elem_of_fmap. exists i. split; [done|by apply Hall].
    + rewrite D6; [by apply (sh_others _ _ _ _ _ Hs)|].
      intros (i & -> & Hi%Hall)%list_elem_of_fmap. apply Hp, list_elem_of_fmap. eauto.
  - apply map_eq. intros p. rewrite foldr_delete_lookup, D2. fold (addresses T shift).
    case_decide; [symmetry; by apply (sh_free _ _ _ _ _ Hs)|by apply (sh_buckets _ _ _ _ _ Hs)].
  - rewrite D1, (sh_tables _ _ _ _ _ Hs). apply delete_insert_id, (sh_table _ _ _ _ _ Hs).
  - rewrite D3. apply (sh_locked _ _ _ _ _ Hs).
  - rewrite D4. apply (sh_global _ _ _ _ _ Hs).
Qed.
End Destroy.
End Life.
