(* ===== verification/LookupSpec.v ===== *)
(** The specification of the lookup table (FastLookup.v): operations on a
    catalogue of objects.  Tables refine it, and a table that is created,
    used and destroyed leaves the memory as it was.  Releases never remove an
    object, and an object with a UUID that is in use is accepted. *)

From stdpp Require Import gmap.
From S2P Require Import Prelude ListEntry Murmur FastLookup LookupTable LookupLife.

#[local] Open Scope word_scope.

#[local] Opaque instance_hash MurmurHash3_x64_128 truncate_hash.

(** [new] is what malloc returns for the entry of a new object. *)
Inductive table_op : Type :=
  | ByIno (InodeNumber : Z)
  | ByUuid (Uuid : list Z)
  | Release (obj : ptr)
  | Create (InodeNumber : Z) (Uuid : list Z) (new : ptr)
  | TableSize.

Section Code.
Context {UU : Libuuid} {ST : Statics}.

Definition run_table_op (T : ptr) (op : table_op) : M memory Z :=
  match op with
  | ByIno n => FinesseObjectLookupByIno T n
  | ByUuid u => FinesseObjectLookupByUuid T u
  | Release obj => FinesseObjectRelease T obj;; mret NULL
  | Create n u new => FinesseObjectCreate T n u new
  | TableSize => FinesseObjectGetTableSize T
  end.

Fixpoint run_table_ops (T : ptr) (ops : list table_op) : M memory (list Z) :=
  match ops with
  | [] => mret []
  | op :: ops => r ← run_table_op T op; rs ← run_table_ops T ops; mret (r :: rs)
  end.

(** The same operations on the table of the server, which is created by the
    first call, at [newtable]; the size is asked of a table that exists. *)
Definition run_global_op (newtable : ptr) (op : table_op) : M memory Z :=
  match op with
  | ByIno n => finesse_object_lookup_by_ino newtable n
  | ByUuid u => finesse_object_lookup_by_uuid newtable u
  | Release obj => finesse_object_release newtable obj;; mret NULL
  | Create n u new => finesse_object_create newtable n u new
  | TableSize => finesse_object_get_table_size
  end.

Fixpoint run_global_ops (newtable : ptr) (ops : list table_op) : M memory (list Z) :=
  match ops with
  | [] => mret []
  | op :: ops => r ← run_global_op newtable op; rs ← run_global_ops newtable ops; mret (r :: rs)
  end.

(** A table from its creation to its destruction. *)
Definition table_life (EstimatedSize : Z) (new : ptr) (ops : list table_op) : M memory (list Z) :=
  t ← FinesseCreateTable EstimatedSize new;
  rs ← run_table_ops t ops;
  FinesseDestroyTable t;;
  mret rs.
End Code.

(** * The specification *)

#[export] Instance apart_dec T shift l p : Decision (apart T shift l p).
Proof. unfold apart. apply _. Defined.

(** An operation on a catalogue; [None] where the code stops, a count would
    overflow, or a UUID would have two objects. *)
Definition catalogue_op (T shift : Z) (op : table_op) (c : catalogue) : option (catalogue * Z) :=
  match op with
  | ByIno n =>
      if n =? 0 then None else
      c' ← acquire (by_ino n (ids c)) c; Some (c', answer (by_ino n (ids c)))
  | ByUuid u =>
      if good_uuid u then c' ← acquire (by_uuid u (ids c)) c; Some (c', answer (by_uuid u (ids c))) else None
  | Release obj =>
      i ← List.find (fun i => object_of (at_ i) =? obj) (ids c);
      r ← refs c !! at_ i; Some (with_ref (at_ i) (released r) c, NULL)
  | Create n u new =>
      if (n =? 0) || negb (good_uuid u) || negb (bool_decide (apart T shift (ids c) new)) then None else
      match by_ino n (ids c), by_uuid u (ids c) with
      | Some i, _ => c' ← acquire (Some i) c; Some (c', object_of (at_ i))
      | None, Some _ => None
      | None, None => Some (created c {| at_ := new; id_ino := n; id_uuid := u |}, object_of new)
      end
  | TableSize => Some (c, 0)
  end.

Fixpoint catalogue_ops (T shift : Z) (ops : list table_op) (c : catalogue) : option (catalogue * list Z) :=
  match ops with
  | [] => Some (c, [])
  | op :: ops =>
      p ← catalogue_op T shift op c; q ← catalogue_ops T shift ops p.1; Some (q.1, p.2 :: q.2)
  end.

(** The memory beside the table has room where malloc puts an entry. *)
Definition op_room (m0 : memory) (op : table_op) : Prop :=
  match op with Create _ _ new => room m0 new | _ => True end.

Section Refinement.
Context {UU : Libuuid} {UL : LibuuidLaws} {ST : Statics}.
Variables (T shift : Z).
Hypothesis T_pos : 0 < T.
Hypothesis shift_range : 10 <= shift <= 15.

Definition stands_for (m0 m : memory) (c : catalogue) : Prop :=
  table_ok T shift m0 m c /\ NoDup (id_uuid <$> ids c).

Lemma acquire_ids o c c' : acquire o c = Some c' -> ids c' = ids c.
Proof.
  unfold acquire. destruct o as [i|]; [|by intros [= <-]].
  intros (r & _ & H)%bind_Some. destruct (r + 1 <? 2 ^ 64); [|done]. by injection H as <-.
Qed.

Lemma FinesseObjectCreate_run m m' n u p x :
  n <> 0 -> length u = 16%nat -> u <> replicate 16 0 -> x <> NULL ->
  insert_entry T n u p m = Done (x, m') -> FinesseObjectCreate T n u p m = Done (object_of x, m').
Proof.
  intros Hn Hl Hu Hx Hr. unfold FinesseObjectCreate.
  rewrite c_assert_bind by (by rewrite (proj2 (Z.eqb_neq n 0))).
  rewrite c_assert_bind by (by rewrite not_null).
  run_step ltac:(exact Hr). by rewrite c_assert_bind by (by rewrite (proj2 (Z.eqb_neq x NULL))).
Qed.

Lemma create_op_ok m0 m c c' n u new r :
  stands_for m0 m c -> room m0 new -> catalogue_op T shift (Create n u new) c = Some (c', r) ->
  exists m', FinesseObjectCreate T n u new m = Done (r, m') /\ stands_for m0 m' c'.
Proof.
  intros [Hok Hnd] Hroom. pose proof Hok as [Hs _]. simpl.
  destruct (Z.eqb_spec n 0) as [|Hn]; [done|]. destruct (good_uuid u) eqn:Hu; [|done].
  case_bool_decide as Ha; [|done]. cbn [orb negb]. apply good_uuid_true in Hu as [Hl Hu].
  destruct (by_ino n (ids c)) as [x|] eqn:Hx.
  - intros (c1 & Hacq & [= -> <-])%bind_Some. change (acquire (Some x) c = Some c') in Hacq.
    destruct (insert_existing_ok T shift T_pos shift_range m0 m c c' new n u x) as (m' & Hr & Hok'); [done..|].
    exists m'. split; [|split; [done|by rewrite (acquire_ids _ _ _ Hacq)]].
    apply FinesseObjectCreate_run; [done..| |done].
    apply find_elem in Hx as [Hin _]. apply Z.eqb_neq. by eapply entry_ptr_not_null.
  - destruct (by_uuid u (ids c)) eqn:Hy; [done|]. intros [= <- <-].
    pose proof (find_absent _ _ Hy) as Habs.
    destruct (insert_new_ok T shift T_pos shift_range m0 m c new n u) as (m' & Hr & Hok'); [done..| |].
    { intros i b Hi E. apply Habs in Hi. by apply bool_decide_eq_false in Hi. }
    exists m'. split; [|split; [done|]].
    + apply FinesseObjectCreate_run; [done..| |done]. destruct Hroom. unfold NULL. lia.
    + simpl. rewrite fmap_app. apply NoDup_app. split; [done|]. split; [|apply NoDup_singleton].
      intros v (i & -> & Hi)%list_elem_of_fmap E%list_elem_of_singleton. simpl in E.
      apply Habs in Hi. by apply bool_decide_eq_false in Hi.
Qed.

Lemma table_op_ok m0 m c c' op r :
  stands_for m0 m c -> op_room m0 op -> catalogue_op T shift op c = Some (c', r) ->
  exists m', run_table_op T op m = Done (r, m') /\ stands_for m0 m' c'.
Proof.
  intros Hst Hroom Hop. pose proof Hst as [Hok Hnd]. destruct op as [n|u|obj|n u new|]; simpl in *.
  - destruct (Z.eqb_spec n 0); [done|]. apply bind_Some in Hop as (c1 & Hacq & [= -> <-]).
    destruct (LookupByIno_ok T shift T_pos shift_range m0 m c c' n) as (m' & Hr & Hok'); [done..|].
    exists m'. split; [done|]. split; [done|]. by rewrite (acquire_ids _ _ _ Hacq).
  - destruct (good_uuid u) eqn:Hu; [|done]. apply good_uuid_true in Hu as [Hl Hu].
    apply bind_Some in Hop as (c1 & Hacq & [= -> <-]).
    destruct (LookupByUuid_ok T shift T_pos shift_range m0 m c c' u) as (m' & Hr & Hok'); [done..|].
    exists m'. split; [done|]. split; [done|]. by rewrite (acquire_ids _ _ _ Hacq).
  - apply bind_Some in Hop as (i & [Hi E%Z.eqb_eq]%find_elem & Hop).
    apply bind_Some in Hop as (x & Hx & [= <- <-]). rewrite <- E.
    destruct (Release_ok T shift T_pos shift_range m0 m c i x) as (m' & Hr & Hok'); [done..|].
    exists m'. split; [by run_step ltac:(exact Hr)|]. by split.
  - by apply (create_op_ok m0 m c c' n u new r).
  - injection Hop as <- <-. exists m. split; [|done]. unfold FinesseObjectGetTableSize.
    destruct Hok as [Hs _]. by run_step ltac:(by eapply load_table_run).
Qed.

Lemma acquire_answer o c c' :
  acquire o c = Some c' -> (forall i, o = Some i -> i ∈ ids c) ->
  answer o = NULL \/ exists i, i ∈ ids c' /\ answer o = object_of (at_ i).
Proof. intros Ha Ho. rewrite (acquire_ids _ _ _ Ha). destruct o as [i|]; [right; exists i; auto|by left]. Qed.

(** The objects that operations answer are objects of the catalogue. *)
Lemma catalogue_op_answer op c c' r :
  catalogue_op T shift op c = Some (c', r) -> r = 0 \/ exists i, i ∈ ids c' /\ r = object_of (at_ i).
Proof.
  assert (forall (P : ident -> bool) i, List.find P (ids c) = Some i -> i ∈ ids c) as Hfind
    by (intros P i Hi; by apply (find_elem P)).
  destruct op as [n|u|obj|n u new|]; simpl.
  - destruct (n =? 0); [done|]. intros (c1 & Ha & [= -> <-])%bind_Some.
    eapply acquire_answer; [exact Ha|]. intros i Hi. by eapply Hfind.
  - destruct (good_uuid u); [|done]. intros (c1 & Ha & [= -> <-])%bind_Some.
    eapply acquire_answer; [exact Ha|]. intros i Hi. by eapply Hfind.
  - intros (i & _ & (x & _ & [= _ <-])%bind_Some)%bind_Some. by left.
  - destruct (_ || _); [done|]. destruct (by_ino n (ids c)) as [x|] eqn:Hx.
    + intros (c1 & Ha & [= -> <-])%bind_Some. change (acquire (Some x) c = Some c') in Ha.
      right. exists x. rewrite (acquire_ids _ _ _ Ha). split; [by eapply Hfind|done].
    + destruct (by_uuid u (ids c)); [done|]. intros [= <- <-]. right.
      exists {| at_ := new; id_ino := n; id_uuid := u |}. split; [|done]. apply elem_of_app. right. by left.
  - intros [= _ <-]. by left.
Qed.

Lemma not_freed_run m0 m c r :
  stands_for m0 m c -> (r = 0 \/ exists i, i ∈ ids c /\ r = object_of (at_ i)) -> not_freed r m = Done (tt, m).
Proof.
  intros [[Hs _] _] [->|(i & Hi & ->)]; [done|]. unfold not_freed.
  destruct (sh_entries _ _ _ _ _ Hs i Hi) as (x & _ & _ & He).
  destruct (object_of (at_ i) =? NULL); [done|].
  replace (object_of (at_ i) - 48) with (at_ i) by (unfold object_of; lia).
  by run_step ltac:(by apply load_entry_run).
Qed.

Lemma with_table_run m {A} newtable (k : ptr -> M memory A) :
  ObjectTable m = T -> with_table newtable k m = k T m.
Proof.
  intros HT. unfold with_table, create_lookup_table. rewrite M_assoc, get_state_bind, HT.
  rewrite (proj2 (Z.eqb_neq T NULL)) by (unfold NULL; lia). rewrite mret_bind, get_state_bind. by rewrite HT.
Qed.

Lemma global_op_ok newtable m0 m c c' op r :
  stands_for m0 m c -> ObjectTable m = T -> op_room m0 op -> catalogue_op T shift op c = Some (c', r) ->
  exists m', run_global_op newtable op m = Done (r, m') /\ stands_for m0 m' c' /\ ObjectTable m' = T.
Proof.
  intros Hst HT Hroom Hop. destruct (table_op_ok m0 m c c' op r Hst Hroom Hop) as (m' & Hr & Hst').
  exists m'. split; [|split; [done|]].
  2: { destruct Hst as [[Hs _] _], Hst' as [[Hs' _] _]. by rewrite (sh_global _ _ _ _ _ Hs'), <- (sh_global _ _ _ _ _ Hs). }
  pose proof (not_freed_run m0 m' c' r Hst' (catalogue_op_answer op c c' r Hop)) as Hnf.
  destruct op as [n|u|obj|n u new|]; simpl in Hr |- *.
  - unfold finesse_object_lookup_by_ino. run_step ltac:(rewrite with_table_run by done; exact Hr). by run_step ltac:(exact Hnf).
  - unfold finesse_object_lookup_by_uuid.
    assert (uuid_is_null u = false) as Hu.
    { simpl in Hop. destruct (good_uuid u) eqn:Hg; [|done]. apply good_uuid_true in Hg as [? ?]. by apply not_null. }
    run_step ltac:(rewrite with_table_run, Hu, c_assert_bind by done; exact Hr). by run_step ltac:(exact Hnf).
  - unfold finesse_object_release. simpl in Hop. apply bind_Some in Hop as (i & [Hi E%Z.eqb_eq]%find_elem & Hop).
    destruct Hst as [[Hs _] _]. destruct (sh_entries _ _ _ _ _ Hs i Hi) as (x & _ & _ & He).
    rewrite <- E in Hr |- *.
    assert (forall A (k : unit -> M memory A), (with_table newtable (fun t =>
      e ← load_entry (object_of (at_ i) - 48);
      c_assert ((UseFreedLists =? 0) || (freed (Object e) =? 0));; FinesseObjectRelease t (object_of (at_ i))) ≫= k) m =
      (FinesseObjectRelease T (object_of (at_ i)) ≫= k) m) as ->; [|exact Hr].
    intros A k. unfold mbind at 1, M_bind at 1. rewrite with_table_run by done.
    replace (object_of (at_ i) - 48) with (at_ i) by (unfold object_of; lia).
    run_step ltac:(by apply load_entry_run). by rewrite c_assert_bind by done.
  - unfold finesse_object_create. run_step ltac:(rewrite with_table_run by done; exact Hr). by run_step ltac:(exact Hnf).
  - unfold finesse_object_get_table_size. rewrite get_state_bind, HT. exact Hr.
Qed.


Lemma global_ops_ok newtable m0 ops : forall m c c' rs,
  stands_for m0 m c -> ObjectTable m = T -> Forall (op_room m0) ops -> catalogue_ops T shift ops c = Some (c', rs) ->
  exists m', run_global_ops newtable ops m = Done (rs, m') /\ stands_for m0 m' c'.
Proof.
  induction ops as [|op ops IH]; intros m c c' rs Hst HT Hroom Hops; simpl in *.
  - injection Hops as <- <-. eauto.
  - apply Forall_cons in Hroom as [H1 H2].
    apply bind_Some in Hops as ([c1 r] & Hop & Hops). apply bind_Some in Hops as ([c2 rs'] & Hops & [= <- <-]).
    destruct (global_op_ok newtable m0 m c c1 op r) as (m1 & Hr & Hst1 & HT1); [done..|].
    destruct (IH m1 c1 c2 rs') as (m2 & Hr2 & Hst2); [done..|].
    exists m2. split; [|done]. run_step ltac:(exact Hr). by run_step ltac:(exact Hr2).
Qed.

Lemma table_ops_ok m0 ops : forall m c c' rs,
  stands_for m0 m c -> Forall (op_room m0) ops -> catalogue_ops T shift ops c = Some (c', rs) ->
  exists m', run_table_ops T ops m = Done (rs, m') /\ stands_for m0 m' c'.
Proof.
  induction ops as [|op ops IH]; intros m c c' rs Hst Hroom Hops; simpl in *.
  - injection Hops as <- <-. eauto.
  - apply Forall_cons in Hroom as [H1 H2].
    apply bind_Some in Hops as ([c1 r] & Hop & Hops). apply bind_Some in Hops as ([c2 rs'] & Hops & [= <- <-]).
    destruct (table_op_ok m0 m c c1 op r) as (m1 & Hr & Hst1); [done..|].
    destruct (IH m1 c1 c2 rs') as (m2 & Hr2 & Hst2); [done..|].
    exists m2. split; [|done]. run_step ltac:(exact Hr). by run_step ltac:(exact Hr2).
Qed.
End Refinement.

(** * What the table promises *)

Section Theorems.
Context {UU : Libuuid} {UL : LibuuidLaws} {ST : Statics}.

(** a table refines the catalogue: any sequence of lookups, creations,
    releases and size queries that the specification allows runs to its end
    without a failed assertion (the hashes of the buckets included), answers
    what the catalogue answers, and leaves a table that stands for the final
    catalogue, with no bucket locked. *)
Theorem table_refines_catalogue T shift m0 m c c' ops rs :
  0 < T -> 10 <= shift <= 15 -> stands_for T shift m0 m c -> Forall (op_room m0) ops ->
  catalogue_ops T shift ops c = Some (c', rs) ->
  exists m', run_table_ops T ops m = Done (rs, m') /\ stands_for T shift m0 m' c'.
Proof. intros HT Hshift. by apply table_ops_ok. Qed.

(** C27: the life of a table, from any estimated size: created in a memory
    that has room for it, used, destroyed.  The answers are those of a
    catalogue that starts empty, and the memory is afterwards exactly what it
    was before: every entry, bucket and list head is freed, whatever
    references were not given back. *)
Theorem table_leaves_no_trace s T m0 ops c rs :
  0 <= s -> room_for_table T (table_shift s) m0 -> Forall (op_room m0) ops ->
  catalogue_ops T (table_shift s) ops no_objects = Some (c, rs) ->
  table_life s T ops m0 = Done (rs, m0).
Proof.
  intros Hs Hroom Hops Hrun. pose proof (rt_pos _ _ _ Hroom) as HT. pose proof (lookup_shift_range s) as Hr.
  destruct (create_table_ok m0 T s Hs Hroom) as (m & Hc & Hok).
  destruct (table_ops_ok T (table_shift s) HT Hr m0 ops m no_objects c rs) as (m' & Hrs & [Hok' _]); [split; [done|constructor]|done..|].
  unfold table_life. run_step ltac:(exact Hc). run_step ltac:(exact Hrs).
  by run_step ltac:(by apply (destroy_ok T (table_shift s) HT Hr m0 m' c)).
Qed.

Lemma table_ok_global T shift p m0 m c :
  table_ok T shift m0 m c -> table_ok T shift (set_object_table p m0) (set_object_table p m) c.
Proof. intros [[] Hq]. split; [by split|exact Hq]. Qed.

Lemma with_table_start T m m1 {A} (k : ptr -> M memory A) :
  0 < T -> ObjectTable m = NULL -> FinesseCreateTable 0 T m = Done (T, m1) ->
  with_table T k m = with_table T k (set_object_table T m1).
Proof.
  intros HT HN Hc. rewrite (with_table_run T HT (set_object_table T m1)) by done.
  unfold with_table, create_lookup_table. rewrite M_assoc, get_state_bind, HN. simpl.
  rewrite M_assoc. run_step ltac:(exact Hc). rewrite M_assoc, modify_bind, c_assert_bind, get_state_bind; [done|].
  by rewrite (proj2 (Z.eqb_neq T NULL)) by (unfold NULL; lia).
Qed.

(** C26: the table of the server: from a memory without one, any sequence of
    calls the specification allows (it creates no object with the UUID of
    another), the first of which is not a question for the size, creates a
    table of 8192 buckets and then answers as a catalogue that starts empty;
    no object it hands out is a freed one.  The catalogue is what the code
    does and not what it means to do: a new object has two references, the
    last release removes nothing, and the size is 0. *)
Theorem server_table_refines T m0 op ops c rs :
  ObjectTable m0 = NULL -> room_for_table T 13 m0 -> Forall (op_room m0) (op :: ops) -> op <> TableSize ->
  catalogue_ops T 13 (op :: ops) no_objects = Some (c, rs) ->
  exists m', run_global_ops T (op :: ops) m0 = Done (rs, m') /\
    stands_for T 13 (set_object_table T m0) m' c.
Proof.
  intros HN Hroom Hops Hfirst Hrun. pose proof (rt_pos _ _ _ Hroom) as HT.
  destruct (create_table_ok m0 T 0) as (m1 & Hc & Hok); [lia|exact Hroom|].
  apply (table_ok_global _ _ T) in Hok. change (table_shift 0) with 13 in Hok.
  destruct (global_ops_ok T 13 HT ltac:(lia) T (set_object_table T m0) (op :: ops) (set_object_table T m1) no_objects c rs)
    as (m' & Hr & Hst); [split; [exact Hok|constructor]|done|exact Hops|exact Hrun|].
  exists m'. split; [|exact Hst]. rewrite <- Hr. cbn [run_global_ops].
  assert (run_global_op T op m0 = run_global_op T op (set_object_table T m1)) as Hop.
  { destruct op as [n|u|obj|n u new|]; [..|done]; cbn [run_global_op];
      [unfold finesse_object_lookup_by_ino|unfold finesse_object_lookup_by_uuid
      |unfold finesse_object_release|unfold finesse_object_create];
      unfold mbind, M_bind; by rewrite (with_table_start T m0 m1 _ HT HN Hc). }
  unfold mbind, M_bind. by rewrite Hop.
Qed.

(** The number of buckets is the largest power of two not above the number
    wanted, between 1024 and 32768. *)
Theorem table_buckets_spec s :
  0 <= s ->
  table_buckets s = Done (2 ^ table_shift s) /\ 10 <= table_shift s <= 15 /\
  2 ^ table_shift s <= buckets_wanted s < 2 ^ (table_shift s + 1).
Proof.
  intros Hs. split; [by apply table_buckets_run|]. split; [apply lookup_shift_range|].
  apply Z.log2_spec. unfold buckets_wanted. lia.
Qed.

Lemma catalogue_releases T shift k i : forall c r,
  List.find (fun j => object_of (at_ j) =? object_of (at_ i)) (ids c) = Some i ->
  refs c !! at_ i = Some r -> 1 <= r < 2 ^ 64 ->
  exists c', catalogue_ops T shift (replicate k (Release (object_of (at_ i)))) c = Some (c', replicate k NULL) /\
    ids c' = ids c /\ refs c' !! at_ i = Some (Z.max 1 (r - Z.of_nat k)).
Proof.
  induction k as [|k IH]; intros c r Hf Hr Hb.
  - exists c. simpl. rewrite Hr. split; [done|]. split; [done|]. f_equal. lia.
  - cbn [replicate catalogue_ops catalogue_op]. rewrite Hf. simpl. rewrite Hr. simpl.
    destruct (IH (with_ref (at_ i) (released r) c) (released r)) as (c' & -> & Hids & Hr'); [done|apply lookup_insert_eq| |].
    { unfold released. destruct (Z.eqb_spec r 1); lia. }
    exists c'. simpl. split; [done|]. split; [done|]. rewrite Hr'. f_equal. unfold released.
    destruct (Z.eqb_spec r 1); lia.
Qed.

Lemma catalogue_ops_app T shift ops1 ops2 c c1 c2 rs1 rs2 :
  catalogue_ops T shift ops1 c = Some (c1, rs1) -> catalogue_ops T shift ops2 c1 = Some (c2, rs2) ->
  catalogue_ops T shift (ops1 ++ ops2) c = Some (c2, rs1 ++ rs2).
Proof.
  revert c rs1. induction ops1 as [|op ops1 IH]; intros c rs1; simpl.
  - intros [= <- <-] H. rewrite H. by destruct rs2.
  - intros ([c' r] & Hop & ([c'' rs] & Hops & [= <- <-])%bind_Some)%bind_Some H2.
    rewrite Hop. simpl. simpl in Hops. by rewrite (IH c' rs Hops H2).
Qed.

(** releases never remove an object: given back any number of times, it
    is still found by its inode number (the code compares with 1 a count read
    after it was put back), so [release_entry] is never called and a table
    only grows. *)
Theorem releases_never_remove T shift m0 m c i k :
  0 < T -> 10 <= shift <= 15 -> stands_for T shift m0 m c -> i ∈ ids c -> (0 < k)%nat ->
  exists m', run_table_ops T (replicate k (Release (object_of (at_ i))) ++ [ByIno (id_ino i)]) m =
    Done (replicate k NULL ++ [object_of (at_ i)], m').
Proof.
  intros HT Hshift Hst Hi Hk. pose proof Hst as [[Hs _] _].
  destruct (sh_entries _ _ _ _ _ Hs i Hi) as (r & Hr & Hb & _).
  assert (List.find (fun j => object_of (at_ j) =? object_of (at_ i)) (ids c) = Some i) as Hf.
  { apply (find_unique at_ _ (at_ i)); [|by eapply at_NoDup, sh_cells|done..].
    intros j. rewrite Z.eqb_eq. unfold object_of. lia. }
  destruct (catalogue_releases T shift k i c r Hf Hr Hb) as (c1 & Hrel & Hids & Hr1).
  assert (by_ino (id_ino i) (ids c1) = Some i) as Hby.
  { rewrite Hids. apply (find_unique id_ino _ (id_ino i)); [by intros; apply Z.eqb_eq|apply (sh_unique _ _ _ _ _ Hs)|done..]. }
  assert (id_ino i <> 0) as Hino.
  { pose proof (sh_ids _ _ _ _ _ Hs) as Hall. rewrite Forall_forall in Hall. by apply Hall. }
  edestruct (table_ops_ok T shift HT Hshift m0) as (m' & Hrun & _); [exact Hst| | |exists m'; exact Hrun].
  - apply Forall_app. split; [by apply Forall_replicate|by apply Forall_singleton].
  - eapply catalogue_ops_app; [exact Hrel|]. simpl. rewrite (proj2 (Z.eqb_neq (id_ino i) 0)) by done.
    rewrite Hby. simpl. rewrite Hr1. simpl.
    rewrite (proj2 (Z.ltb_lt _ _)) by lia. reflexivity.
Qed.

(** a second object with a UUID that is in use is accepted, although the
    code asserts that this does not happen: it looks for the UUID in the
    bucket of the new inode number and not in the bucket of the UUID.  The
    assertion only sees the UUID when both are the same bucket, or when the
    object was the last one found in the inode's bucket. *)
Theorem duplicate_uuid_accepted T shift m0 m c i n new :
  0 < T -> 10 <= shift <= 15 -> stands_for T shift m0 m c -> i ∈ ids c -> n <> 0 ->
  by_ino n (ids c) = None -> room m0 new -> apart T shift (ids c) new ->
  index_of shift (id_uuid i) <> ino_index shift n ->
  (forall b, buckets m !! B T (ino_index shift n) = Some b -> LastEntry b <> at_ i) ->
  exists m', FinesseObjectCreate T n (id_uuid i) new m = Done (object_of new, m') /\
    table_ok T shift m0 m' (created c {| at_ := new; id_ino := n; id_uuid := id_uuid i |}) /\
    ~ NoDup (id_uuid <$> ids (created c {| at_ := new; id_ino := n; id_uuid := id_uuid i |})).
Proof.
  intros HT Hshift [Hok Hnd] Hi Hn Hx Hroom Ha Hidx Hlast. pose proof Hok as [Hs _].
  pose proof (sh_ids _ _ _ _ _ Hs) as Hall. rewrite Forall_forall in Hall.
  destruct (Hall i Hi) as [_ _ Hl Hu].
  destruct (insert_new_ok T shift HT Hshift m0 m c new n (id_uuid i)) as (m' & Hr & Hok'); [done..| |].
  { intros j b Hj E Hb. split; [done|]. assert (j = i) as ->; [|intros E'; by apply (Hlast b)].
    pose proof (find_unique id_uuid (fun x => bool_decide (id_uuid x = id_uuid i)) (id_uuid i) (ids c)) as Hf.
    assert (forall x, bool_decide (id_uuid x = id_uuid i) = true <-> id_uuid x = id_uuid i) as Hd
      by (intros; apply bool_decide_eq_true).
    pose proof (Hf j Hd Hnd Hj E). pose proof (Hf i Hd Hnd Hi eq_refl). congruence. }
  exists m'. split; [|split; [done|]].
  - apply FinesseObjectCreate_run; [done..| |done]. destruct Hroom. unfold NULL. lia.
  - simpl. rewrite fmap_app. intros (_ & Hd & _)%NoDup_app.
    apply (Hd (id_uuid i)); [apply list_elem_of_fmap; eauto|by left].
Qed.
End Theorems.

(** * Examples *)

#[local] Instance example_libuuid : Libuuid :=
  {| uuid_is_null u := bool_decide (u = replicate 16 0); uuid_compare u v := if bool_decide (u = v) then 0 else 1 |}.

#[local] Instance example_libuuid_laws : LibuuidLaws.
Proof.
  split; intros; simpl.
  - by rewrite bool_decide_eq_true.
  - case_bool_decide; naive_solver.
Qed.

#[local] Instance example_statics : Statics := {| FreedInodeList := 16; FreedUuidList := 32 |}.

Definition no_memory : memory :=
  {| lists := ∅; entries := ∅; buckets := ∅; tables := ∅; freed_list_locked := false; ObjectTable := NULL |}.

Definition example_uuid (k : Z) : list Z := replicate 15 0 ++ [k].

Definition example_table_ops : list table_op :=
  [Create 5 (example_uuid 1) 1000; Create 6 (example_uuid 2) 1100; Create 5 (example_uuid 3) 1200;
   ByUuid (example_uuid 2); Release (object_of 1000); ByIno 7; TableSize].

Lemma example_room : room_for_table 4096 (table_shift 1048576) no_memory.
Proof. by split. Qed.

Lemma example_op_room ops :
  Forall (fun op => match op with Create _ _ new => 0 < new | _ => True end) ops -> Forall (op_room no_memory) ops.
Proof. intros H. eapply Forall_impl; [exact H|]. intros []; simpl; try done. Qed.

(** The third creation finds the first object: the inode number decides,
    and the UUID it was given is ignored. *)
Lemma table_leaves_no_trace_witness :
  table_life 1048576 4096 example_table_ops no_memory =
    Done ([object_of 1000; object_of 1100; object_of 1000; object_of 1100; 0; 0; 0], no_memory).
Proof.
  assert (exists c, catalogue_ops 4096 (table_shift 1048576) example_table_ops no_objects =
    Some (c, [object_of 1000; object_of 1100; object_of 1000; object_of 1100; 0; 0; 0])) as [c Hc].
  { change (table_shift 1048576) with 10. eexists. vm_compute. reflexivity. }
  apply (table_leaves_no_trace 1048576 4096 no_memory example_table_ops c);
    [lia|exact example_room|apply example_op_room; repeat constructor|exact Hc].
Defined.

Definition example_server_ops : list table_op :=
  [ByUuid (example_uuid 1); Release (object_of 1000); TableSize].

Lemma server_table_refines_witness :
  exists m', run_global_ops 4096 (Create 5 (example_uuid 1) 1000 :: example_server_ops) no_memory =
    Done ([object_of 1000; object_of 1000; 0; 0], m').
Proof.
  assert (exists c, catalogue_ops 4096 13 (Create 5 (example_uuid 1) 1000 :: example_server_ops) no_objects =
    Some (c, [object_of 1000; object_of 1000; 0; 0])) as [c Hc].
  { eexists. vm_compute. reflexivity. }
  destruct (server_table_refines 4096 no_memory (Create 5 (example_uuid 1) 1000) example_server_ops c
    [object_of 1000; object_of 1000; 0; 0]) as (m' & Hr & _).
  - reflexivity.
  - by split.
  - apply example_op_room. repeat constructor.
  - intros [=].
  - exact Hc.
  - exists m'. exact Hr.
Defined.

Lemma example_started (ops : list table_op) c rs :
  Forall (fun op => match op with Create _ _ new => 0 < new | _ => True end) ops ->
  catalogue_ops 4096 10 ops no_objects = Some (c, rs) ->
  exists m, (t ← FinesseCreateTable 1048576 4096; run_table_ops t ops) no_memory = Done (rs, m) /\
    stands_for 4096 10 no_memory m c.
Proof.
  intros Hops Hc. destruct (create_table_ok no_memory 4096 1048576) as (m & Hr & Hok); [lia|exact example_room|].
  destruct (table_ops_ok 4096 10 ltac:(lia) ltac:(lia) no_memory ops m no_objects c rs) as (m' & Hr' & Hst);
    [split; [exact Hok|constructor]|by apply example_op_room|exact Hc|].
  exists m'. split; [|exact Hst]. by run_step ltac:(exact Hr).
Qed.

Definition example_catalogue : catalogue :=
  {| ids := [{| at_ := 1000; id_ino := 5; id_uuid := example_uuid 1 |}]; refs := {[1000 := 2]} |}.

Lemma example_one_object :
  exists m, (t ← FinesseCreateTable 1048576 4096; run_table_ops t [Create 5 (example_uuid 1) 1000]) no_memory =
      Done ([object_of 1000], m) /\
    stands_for 4096 10 no_memory m example_catalogue.
Proof. apply example_started; [repeat constructor|]. vm_compute. reflexivity. Qed.

Lemma table_refines_catalogue_witness :
  exists m m' c', stands_for 4096 10 no_memory m example_catalogue /\
    run_table_ops 4096 [ByUuid (example_uuid 1); ByIno 6] m = Done ([object_of 1000; NULL], m') /\
    stands_for 4096 10 no_memory m' c'.
Proof.
  destruct example_one_object as (m & _ & Hst).
  assert (exists c', catalogue_ops 4096 10 [ByUuid (example_uuid 1); ByIno 6] example_catalogue =
    Some (c', [object_of 1000; NULL])) as [c' Hc'].
  { eexists. vm_compute. reflexivity. }
  destruct (table_refines_catalogue 4096 10 no_memory m example_catalogue c'
    [ByUuid (example_uuid 1); ByIno 6] [object_of 1000; NULL]) as (m' & Hr & Hst');
    [lia|lia|exact Hst|by repeat constructor|exact Hc'|].
  exists m, m', c'. exact (conj Hst (conj Hr Hst')).
Defined.

(** Created with two references, given back three times, still there. *)
Lemma releases_never_remove_witness :
  exists m m', run_table_ops 4096
    [Release (object_of 1000); Release (object_of 1000); Release (object_of 1000); ByIno 5] m =
    Done ([0; 0; 0; object_of 1000], m').
Proof.
  destruct example_one_object as (m & _ & Hst). exists m.
  refine (releases_never_remove 4096 10 no_memory m example_catalogue
    {| at_ := 1000; id_ino := 5; id_uuid := example_uuid 1 |} 3 _ _ Hst _ _); [lia|lia|by left|lia].
Defined.

(** Inode numbers 5 and 7 with one UUID. *)
Lemma duplicate_uuid_accepted_witness :
  exists m m', FinesseObjectCreate 4096 7 (example_uuid 1) 1200 m = Done (object_of 1200, m').
Proof.
  destruct example_one_object as (m & Hrun & Hst). exists m.
  assert (match (t ← FinesseCreateTable 1048576 4096; run_table_ops t [Create 5 (example_uuid 1) 1000]) no_memory with
    | Done (_, m) => LastEntry <$> (buckets m !! B 4096 (ino_index 10 7)) | Fail _ => None end = Some NULL) as E
    by (vm_compute; reflexivity).
  rewrite Hrun in E.
  destruct (duplicate_uuid_accepted 4096 10 no_memory m example_catalogue
    {| at_ := 1000; id_ino := 5; id_uuid := example_uuid 1 |} 7 1200) as (m' & Hr & _).
  - lia.
  - lia.
  - exact Hst.
  - by left.
  - lia.
  - reflexivity.
  - by repeat split.
  - apply (bool_decide_eq_true (apart 4096 10 (ids example_catalogue) 1200)). vm_compute. reflexivity.
  - vm_compute. intros [=].
  - intros b Hb. rewrite Hb in E. injection E as ->. intros [=].
  - exists m'. exact Hr.
Defined.
