(* ===== verification/Bitmap.v ===== *)
(** 64-bit allocation bitmaps.

    The shared message region and the arena of src/finesse/communications/
    both record what is in use as bits of a [u_int64_t].  This file holds the
    macro [make_mask64] and the laws of setting, clearing and testing a bit
    that Region.v, RegionThreads.v and Arena.v share. *)

From stdpp Require Import list.
From S2P Require Import Prelude.

Open Scope word_scope.

(** [(((u_int64_t)1) << index)]; undefined in C from 64 on, which the
    operations check where they use it ([shift_ok]). *)
Definition make_mask64 (index : Z) : Z := u64 (Z.shiftl 1 index).

Definition shift_ok {MM : Type -> Type} `{MRet MM, MThrow failure MM} (index : Z) : MM unit :=
  if index <? 64 then mret () else mthrow Undefined.

Definition set_bit64 (b i : Z) : Z := Z.lor b (make_mask64 i).
Definition clear_bit64 (b i : Z) : Z := Z.land b (wnot 64 (make_mask64 i)).
Definition bit_set (b i : Z) : bool := negb (Z.land b (make_mask64 i) =? 0).

Lemma make_mask64_spec i j :
  0 <= i < 64 -> 0 <= j -> Z.testbit (make_mask64 i) j = (j =? i).
Proof.
  intros Hi Hj. unfold make_mask64. rewrite Z.shiftl_1_l, wrap_small.
  - by rewrite Z.pow2_bits_eqb, Z.eqb_sym by lia.
  - split; [apply Z.pow_nonneg; lia|apply Z.pow_lt_mono_r; lia].
Qed.

Lemma in_word_make_mask64 i : in_word 64 (make_mask64 i).
Proof. unfold make_mask64. auto with bits. Qed.

Lemma make_mask64_nonzero i : 0 <= i < 64 -> make_mask64 i <> 0.
Proof.
  intros Hi E. pose proof (make_mask64_spec i i Hi ltac:(lia)) as H.
  by rewrite E, Z.testbit_0_l, Z.eqb_refl in H.
Qed.

Lemma bitmap_ext a b :
  in_word 64 a -> in_word 64 b ->
  (forall i, 0 <= i < 64 -> Z.testbit a i = Z.testbit b i) -> a = b.
Proof.
  intros Ha Hb H. apply Z.bits_inj'. intros i Hi. destruct (Z.lt_ge_cases i 64); [by apply H|].
  by rewrite (word_high 64 a), (word_high 64 b) by (done || lia).
Qed.

Lemma set_bit64_spec b i j :
  0 <= i < 64 -> 0 <= j -> Z.testbit (set_bit64 b i) j = (j =? i) || Z.testbit b j.
Proof. intros. unfold set_bit64. by rewrite Z.lor_spec, make_mask64_spec, orb_comm by lia. Qed.

Lemma clear_bit64_spec b i j :
  0 <= i < 64 -> 0 <= j < 64 -> Z.testbit (clear_bit64 b i) j = negb (j =? i) && Z.testbit b j.
Proof.
  intros. unfold clear_bit64, wnot.
  rewrite Z.land_spec, wrap_spec, Z.lnot_spec, make_mask64_spec by lia.
  destruct (Z.ltb_spec j 64); [|lia]. by rewrite andb_comm.
Qed.

Lemma bit_set_spec b i : in_word 64 b -> 0 <= i < 64 -> bit_set b i = Z.testbit b i.
Proof.
  intros Hb Hi. unfold bit_set. destruct (Z.eqb_spec (Z.land b (make_mask64 i)) 0) as [E|E]; simpl.
  - assert (Z.testbit (Z.land b (make_mask64 i)) i = false) as H by (by rewrite E, Z.testbit_0_l).
    by rewrite Z.land_spec, make_mask64_spec, Z.eqb_refl, andb_true_r in H by lia.
  - destruct (Z.testbit b i) eqn:T; [done|]. exfalso. apply E.
    apply Z.bits_inj'. intros j Hj. rewrite Z.land_spec, make_mask64_spec, Z.testbit_0_l by lia.
    destruct (Z.eqb_spec j i) as [->|]; [by rewrite T|apply andb_false_r].
Qed.

Lemma land_mask_zero b i :
  in_word 64 b -> 0 <= i < 64 -> (Z.land b (make_mask64 i) =? 0) = negb (Z.testbit b i).
Proof. intros Hb Hi. rewrite <- bit_set_spec by done. unfold bit_set. by rewrite negb_involutive. Qed.

Lemma in_word_set_bit64 b i : in_word 64 b -> in_word 64 (set_bit64 b i).
Proof. intros. unfold set_bit64. apply word_lor; [lia|done|apply in_word_make_mask64]. Qed.

Lemma in_word_clear_bit64 b i : in_word 64 b -> in_word 64 (clear_bit64 b i).
Proof. intros. unfold clear_bit64, wnot. apply word_land; [lia|done|]. apply wrap_range. lia. Qed.

#[export] Hint Resolve in_word_make_mask64 in_word_set_bit64 in_word_clear_bit64 : bits.

(** Setting a bit that is set changes nothing, and only then. *)
Lemma set_bit64_same b i :
  in_word 64 b -> 0 <= i < 64 -> (b =? set_bit64 b i) = Z.testbit b i.
Proof.
  intros Hb Hi. destruct (Z.eqb_spec b (set_bit64 b i)) as [E|E].
  - by rewrite E, set_bit64_spec, Z.eqb_refl by lia.
  - destruct (Z.testbit b i) eqn:T; [|done]. exfalso. apply E.
    apply bitmap_ext; [auto with bits..|]. intros j Hj. rewrite set_bit64_spec by lia.
    destruct (Z.eqb_spec j i) as [->|]; [by rewrite T|done].
Qed.

Lemma clear_bit64_same b i :
  in_word 64 b -> 0 <= i < 64 -> (b =? clear_bit64 b i) = negb (Z.testbit b i).
Proof.
  intros Hb Hi. destruct (Z.eqb_spec b (clear_bit64 b i)) as [E|E].
  - by rewrite E, clear_bit64_spec, Z.eqb_refl by lia.
  - destruct (Z.testbit b i) eqn:T; [done|]. exfalso. apply E.
    apply bitmap_ext; [auto with bits..|]. intros j Hj. rewrite clear_bit64_spec by lia.
    destruct (Z.eqb_spec j i) as [->|]; [by rewrite T|done].
Qed.

Lemma clear_set_bit64 b i :
  in_word 64 b -> 0 <= i < 64 -> Z.testbit b i = false -> clear_bit64 (set_bit64 b i) i = b.
Proof.
  intros Hb Hi T. apply bitmap_ext; [auto with bits..|]. intros j Hj.
  rewrite clear_bit64_spec, set_bit64_spec by lia.
  destruct (Z.eqb_spec j i) as [->|]; [by rewrite T|done].
Qed.

(** [mask << 1] in a loop that starts at [make_mask64 0]. *)
Lemma make_mask64_succ i : 0 <= i -> u64 (Z.shiftl (make_mask64 i) 1) = make_mask64 (i + 1).
Proof.
  intros Hi. unfold make_mask64. rewrite !Z.shiftl_1_l, Z.shiftl_mul_pow2 by lia.
  unfold wrap. rewrite Z.mul_mod_idemp_l by lia. by rewrite Z.pow_add_r by lia.
Qed.

Lemma full_bitmap b :
  in_word 64 b -> (forall i, 0 <= i < 64 -> Z.testbit b i = true) -> b = wnot 64 0.
Proof.
  intros Hb H. apply bitmap_ext; [done|unfold wnot; auto with bits|]. intros i Hi.
  rewrite H by done. unfold wnot. rewrite wrap_spec by lia. destruct (Z.ltb_spec i 64); [|lia].
  by rewrite Z.lnot_spec, Z.testbit_0_l by lia.
Qed.

Lemma zero_bitmap b : in_word 64 b -> (forall i, 0 <= i < 64 -> Z.testbit b i = false) -> b = 0.
Proof.
  intros Hb H. apply bitmap_ext; [done|auto with bits|]. intros i Hi. by rewrite H, Z.testbit_0_l.
Qed.

Lemma nonzero_bitmap b :
  in_word 64 b -> b <> 0 -> exists i, 0 <= i < 64 /\ Z.testbit b i = true.
Proof.
  intros Hb Hn.
  destruct (existsb (fun i => Z.testbit b (Z.of_nat i)) (seq 0 64)) eqn:E.
  - apply existsb_exists in E as (i & Hi%in_seq & T). exists (Z.of_nat i). split; [lia|done].
  - exfalso. apply Hn, zero_bitmap; [done|]. intros i Hi.
    destruct (Z.testbit b i) eqn:T; [|done].
    assert (existsb (fun i => Z.testbit b (Z.of_nat i)) (seq 0 64) = true) as C; [|congruence].
    apply existsb_exists. exists (Z.to_nat i). split; [apply in_seq; lia|]. by rewrite Z2Nat.id by lia.
Qed.
