(* ===== verification/Message.v ===== *)
(** The messages of the shared memory protocol and their statistics.

    The data of src/finesse/include/fincomm.h (message blocks, the union of
    requests and responses, the call types) and the call statistics of
    src/finesse/communications/commstat.c.  A message block is a record; the
    union [Message] of the C structure is its first word [Type], which all
    four of its members share, and the member last written ([params]).
    Reading another member than the one last written is left undefined.

    The clock is not under src/: the functions that read it take the value
    [now] that [clock_gettime] stores. *)

From stdpp Require Import list strings.
From S2P Require Import Prelude.

Definition SHM_MESSAGE_COUNT : Z := 64.
Definition SHM_PAGE_SIZE : Z := 4096.
Definition MAX_SHM_PATH_NAME : Z := 128.

Definition FINESSE_MESSAGE_VERSION : Z := 0xbeef0cabbad1dead.

(** FINESSE_MESSAGE_TYPE and FINESSE_MESSAGE_CLASS *)
Definition FINESSE_REQUEST : Z := 241.
Definition FINESSE_RESPONSE : Z := 242.
Definition FINESSE_FUSE_MESSAGE : Z := 251.
Definition FINESSE_NATIVE_MESSAGE : Z := 252.

Definition FINESSE_FUSE_REQ_BASE_TYPE : Z := 42.
Definition FINESSE_NATIVE_REQ_BASE_TYPE : Z := 1024.

Inductive FINESSE_FUSE_REQ_TYPE : Type :=
  | FINESSE_FUSE_REQ_LOOKUP | FINESSE_FUSE_REQ_FORGET | FINESSE_FUSE_REQ_STAT
  | FINESSE_FUSE_REQ_GETATTR | FINESSE_FUSE_REQ_SETATTR | FINESSE_FUSE_REQ_READLINK
  | FINESSE_FUSE_REQ_MKNOD | FINESSE_FUSE_REQ_MKDIR | FINESSE_FUSE_REQ_UNLINK
  | FINESSE_FUSE_REQ_RMDIR | FINESSE_FUSE_REQ_SYMLINK | FINESSE_FUSE_REQ_RENAME
  | FINESSE_FUSE_REQ_LINK | FINESSE_FUSE_REQ_OPEN | FINESSE_FUSE_REQ_READ
  | FINESSE_FUSE_REQ_WRITE | FINESSE_FUSE_REQ_FLUSH | FINESSE_FUSE_REQ_RELEASE
  | FINESSE_FUSE_REQ_FSYNC | FINESSE_FUSE_REQ_OPENDIR | FINESSE_FUSE_REQ_READDIR
  | FINESSE_FUSE_REQ_RELEASEDIR | FINESSE_FUSE_REQ_FSYNCDIR | FINESSE_FUSE_REQ_STATFS
  | FINESSE_FUSE_REQ_SETXATTR | FINESSE_FUSE_REQ_GETXATTR | FINESSE_FUSE_REQ_LISTXATTR
  | FINESSE_FUSE_REQ_REMOVEXATTR | FINESSE_FUSE_REQ_ACCESS | FINESSE_FUSE_REQ_CREATE
  | FINESSE_FUSE_REQ_GETLK | FINESSE_FUSE_REQ_SETLK | FINESSE_FUSE_REQ_BMAP
  | FINESSE_FUSE_REQ_IOCTL | FINESSE_FUSE_REQ_POLL | FINESSE_FUSE_REQ_WRITE_BUF
  | FINESSE_FUSE_REQ_RETRIEVE_REPLY | FINESSE_FUSE_REQ_FORGET_MULTI | FINESSE_FUSE_REQ_FLOCK
  | FINESSE_FUSE_REQ_FALLOCATE | FINESSE_FUSE_REQ_READDIRPLUS
  | FINESSE_FUSE_REQ_COPY_FILE_RANGE | FINESSE_FUSE_REQ_LSEEK.

#[export] Instance fuse_req_eq_dec : EqDecision FINESSE_FUSE_REQ_TYPE.
Proof. solve_decision. Defined.

(** The request types in the order of the enumeration. *)
Definition fuse_reqs : list FINESSE_FUSE_REQ_TYPE :=
  [FINESSE_FUSE_REQ_LOOKUP; FINESSE_FUSE_REQ_FORGET; FINESSE_FUSE_REQ_STAT;
   FINESSE_FUSE_REQ_GETATTR; FINESSE_FUSE_REQ_SETATTR; FINESSE_FUSE_REQ_READLINK;
   FINESSE_FUSE_REQ_MKNOD; FINESSE_FUSE_REQ_MKDIR; FINESSE_FUSE_REQ_UNLINK;
   FINESSE_FUSE_REQ_RMDIR; FINESSE_FUSE_REQ_SYMLINK; FINESSE_FUSE_REQ_RENAME;
   FINESSE_FUSE_REQ_LINK; FINESSE_FUSE_REQ_OPEN; FINESSE_FUSE_REQ_READ;
   FINESSE_FUSE_REQ_WRITE; FINESSE_FUSE_REQ_FLUSH; FINESSE_FUSE_REQ_RELEASE;
   FINESSE_FUSE_REQ_FSYNC; FINESSE_FUSE_REQ_OPENDIR; FINESSE_FUSE_REQ_READDIR;
   FINESSE_FUSE_REQ_RELEASEDIR; FINESSE_FUSE_REQ_FSYNCDIR; FINESSE_FUSE_REQ_STATFS;
   FINESSE_FUSE_REQ_SETXATTR; FINESSE_FUSE_REQ_GETXATTR; FINESSE_FUSE_REQ_LISTXATTR;
   FINESSE_FUSE_REQ_REMOVEXATTR; FINESSE_FUSE_REQ_ACCESS; FINESSE_FUSE_REQ_CREATE;
   FINESSE_FUSE_REQ_GETLK; FINESSE_FUSE_REQ_SETLK; FINESSE_FUSE_REQ_BMAP;
   FINESSE_FUSE_REQ_IOCTL; FINESSE_FUSE_REQ_POLL; FINESSE_FUSE_REQ_WRITE_BUF;
   FINESSE_FUSE_REQ_RETRIEVE_REPLY; FINESSE_FUSE_REQ_FORGET_MULTI; FINESSE_FUSE_REQ_FLOCK;
   FINESSE_FUSE_REQ_FALLOCATE; FINESSE_FUSE_REQ_READDIRPLUS;
   FINESSE_FUSE_REQ_COPY_FILE_RANGE; FINESSE_FUSE_REQ_LSEEK].

Definition FINESSE_FUSE_REQ_MAX : Z := FINESSE_FUSE_REQ_BASE_TYPE + Z.of_nat (length fuse_reqs).

(** The value of an enumerator, and the enumerator of a value. *)
Fixpoint index_of {A} `{EqDecision A} (x : A) (l : list A) : Z :=
  match l with [] => 0 | y :: l => if decide (x = y) then 0 else 1 + index_of x l end.

Definition fuse_req_code (t : FINESSE_FUSE_REQ_TYPE) : Z :=
  FINESSE_FUSE_REQ_BASE_TYPE + index_of t fuse_reqs.

Definition fuse_req_of_code (z : Z) : option FINESSE_FUSE_REQ_TYPE :=
  if (FINESSE_FUSE_REQ_BASE_TYPE <=? z) && (z <? FINESSE_FUSE_REQ_MAX)
  then fuse_reqs !! Z.to_nat (z - FINESSE_FUSE_REQ_BASE_TYPE) else None.

Inductive FINESSE_NATIVE_REQ_TYPE : Type :=
  | FINESSE_NATIVE_REQ_TEST | FINESSE_NATIVE_REQ_SERVER_STAT | FINESSE_NATIVE_REQ_MAP
  | FINESSE_NATIVE_REQ_MAP_RELEASE | FINESSE_NATIVE_REQ_DIRMAP
  | FINESSE_NATIVE_REQ_DIRMAPRELEASE.

#[export] Instance native_req_eq_dec : EqDecision FINESSE_NATIVE_REQ_TYPE.
Proof. solve_decision. Defined.

Definition native_reqs : list FINESSE_NATIVE_REQ_TYPE :=
  [FINESSE_NATIVE_REQ_TEST; FINESSE_NATIVE_REQ_SERVER_STAT; FINESSE_NATIVE_REQ_MAP;
   FINESSE_NATIVE_REQ_MAP_RELEASE; FINESSE_NATIVE_REQ_DIRMAP; FINESSE_NATIVE_REQ_DIRMAPRELEASE].

Definition FINESSE_NATIVE_REQ_MAX : Z := FINESSE_NATIVE_REQ_BASE_TYPE + Z.of_nat (length native_reqs).

Definition native_req_code (t : FINESSE_NATIVE_REQ_TYPE) : Z :=
  FINESSE_NATIVE_REQ_BASE_TYPE + index_of t native_reqs.

Definition native_req_of_code (z : Z) : option FINESSE_NATIVE_REQ_TYPE :=
  if (FINESSE_NATIVE_REQ_BASE_TYPE <=? z) && (z <? FINESSE_NATIVE_REQ_MAX)
  then native_reqs !! Z.to_nat (z - FINESSE_NATIVE_REQ_BASE_TYPE) else None.

(** The response types the modelled calls use. *)
Definition FINESSE_FUSE_RSP_NONE : Z := 512.
Definition FINESSE_FUSE_RSP_ERR : Z := 513.
Definition FINESSE_FUSE_RSP_ATTR : Z := 516.
Definition FINESSE_FUSE_RSP_STATFS : Z := 523.
Definition FINESSE_FUSE_RSP_MAX : Z := 536.
Definition FINESSE_NATIVE_RSP_ERR : Z := 1152.
Definition FINESSE_NATIVE_RSP_TEST : Z := 1153.
Definition FINESSE_NATIVE_RSP_SERVER_STAT : Z := 1154.
Definition FINESSE_NATIVE_RSP_MAP : Z := 1155.
Definition FINESSE_NATIVE_RSP_MAP_RELEASE : Z := 1156.
Definition FINESSE_NATIVE_RSP_MAX : Z := 1159.

(** * Times *)

Record timespec := { tv_sec : Z; tv_nsec : Z }.

Definition zero_time : timespec := {| tv_sec := 0; tv_nsec := 0 |}.

Definition timespec_diff (begin_ end_ : timespec) : timespec :=
  if (tv_sec begin_ <? tv_sec end_) ||
     ((tv_sec end_ =? tv_sec begin_) && (tv_nsec begin_ <=? tv_nsec end_)) then
    let sec := tv_sec end_ - tv_sec begin_ in
    if tv_nsec end_ <? tv_nsec begin_ then
      {| tv_sec := sec - 1; tv_nsec := 1000000000 + tv_nsec end_ - tv_nsec begin_ |}
    else {| tv_sec := sec; tv_nsec := 0 |}
  else zero_time.

(** The loop that carries whole seconds out of [tv_nsec]. *)
Fixpoint carry_seconds (fuel : nat) (t : timespec) : outcome timespec :=
  match fuel with
  | O => Fail OutOfFuel
  | S fuel =>
      if 1000000000 <=? tv_nsec t then
        carry_seconds fuel {| tv_sec := tv_sec t + 1; tv_nsec := tv_nsec t - 1000000000 |}
      else Done t
  end.

(** The number of iterations is known from the sum. *)
Definition timespec_add_diff (acc start end_ : timespec) : outcome timespec :=
  let diff := timespec_diff start end_ in
  let sum := {| tv_sec := tv_sec acc + tv_sec diff; tv_nsec := tv_nsec acc + tv_nsec diff |} in
  carry_seconds (S (Z.to_nat (tv_nsec sum / 1000000000))) sum.

Definition is_zero_time (t : timespec) : bool := (tv_sec t =? 0) && (tv_nsec t =? 0).

(** * Messages *)

(** The Stats member of a message. *)
Record msg_stats := {
  RequestClass : Z; RequestType : Z;
  RequestStartTime : timespec; RequestQueueTime : timespec; RequestDequeueTime : timespec;
  ResponseQueueTime : timespec; ResponseReceiptTime : timespec; RequestCompletionTime : timespec }.

(** A uuid_t is a 128-bit number, null being 0; other structures that are
    only copied are their bytes. *)
Abbreviation uuid := Z (only parsing).
Definition uuid_is_null (u : uuid) : bool := u =? 0.
Abbreviation blob := (list Z) (only parsing).

(** The statistics that the server keeps; its counters are 64-bit. *)
Record FinesseServerStat := {
  stat_Version : Z; stat_Length : Z;
  ClientConnectionCount : Z; ActiveNameMaps : Z;
  FuseRequests : list Z; FuseResponses : list Z;
  NativeRequests : list Z; NativeResponses : list Z }.

(** The Parameters unions of the four request and response structures, for
    the calls of namemap.c, unlink.c, testmsg.c, stat.c, access.c, statfs.c
    and serverstat.c.  In an access request the member Mask lies in the name:
    [Behind] is what the block holds behind the NUL of the name. *)
Inductive params : Type :=
  | NoParams
  | ReqMap (Parent : uuid) (Flags : Z) (Name : string)
  | ReqMapRelease (Key : uuid)
  | ReqTest (Version : Z)
  | ReqUnlink (Parent : uuid) (Name : string)
  | ReqStat (ParentInode Inode : uuid) (Flags : Z) (Name : string)
  | RspMap (Result : Z) (Key : option uuid)
  | RspMapRelease (Result : Z)
  | RspTest (Version : Z)
  | RspAttr (Attr Timeout : blob)
  | ReqAccess (ParentInode : uuid) (Name : string) (Behind : list Z)
  | ReqStatfs (Path : string)
  | ReqFstatfs (Inode : uuid)
  | ReqServerStat (Version : Z)
  | RspStatfs (StatBuffer : blob)
  | RspServerStat (Result : Z) (Data : FinesseServerStat).

Record finesse_msg := {
  Version : Z;
  MessageClass : Z;
  Result : Z;
  Stats : msg_stats;
  Type_ : Z;
  Parameters : params }.

Record fincomm_message_block := {
  RequestId : Z;
  blk_Result : Z;
  MessageType : Z;
  Data : finesse_msg }.

(** ** Stores to one member *)

Definition set_Stats (f : msg_stats -> msg_stats) (m : finesse_msg) : finesse_msg :=
  {| Version := Version m; MessageClass := MessageClass m; Result := Result m;
     Stats := f (Stats m); Type_ := Type_ m; Parameters := Parameters m |}.

Definition set_header (v c : Z) (m : finesse_msg) : finesse_msg :=
  {| Version := v; MessageClass := c; Result := Result m;
     Stats := Stats m; Type_ := Type_ m; Parameters := Parameters m |}.

Definition set_Type (t : Z) (m : finesse_msg) : finesse_msg :=
  {| Version := Version m; MessageClass := MessageClass m; Result := Result m;
     Stats := Stats m; Type_ := t; Parameters := Parameters m |}.

Definition set_Result (r : Z) (m : finesse_msg) : finesse_msg :=
  {| Version := Version m; MessageClass := MessageClass m; Result := r;
     Stats := Stats m; Type_ := Type_ m; Parameters := Parameters m |}.

Definition set_Parameters (p : params) (m : finesse_msg) : finesse_msg :=
  {| Version := Version m; MessageClass := MessageClass m; Result := Result m;
     Stats := Stats m; Type_ := Type_ m; Parameters := p |}.

Definition set_Data (f : finesse_msg -> finesse_msg) (b : fincomm_message_block) :
    fincomm_message_block :=
  {| RequestId := RequestId b; blk_Result := blk_Result b; MessageType := MessageType b;
     Data := f (Data b) |}.

Definition set_RequestId (i : Z) (b : fincomm_message_block) : fincomm_message_block :=
  {| RequestId := i; blk_Result := blk_Result b; MessageType := MessageType b; Data := Data b |}.

Definition set_block_header (t r : Z) (b : fincomm_message_block) : fincomm_message_block :=
  {| RequestId := RequestId b; blk_Result := r; MessageType := t; Data := Data b |}.

(** * Stamping a message *)

Definition valid_fuse_type (t : Z) : bool :=
  (FINESSE_FUSE_REQ_BASE_TYPE <=? t) && (t <? FINESSE_FUSE_REQ_MAX).
Definition valid_native_type (t : Z) : bool :=
  (FINESSE_NATIVE_REQ_BASE_TYPE <=? t) && (t <? FINESSE_NATIVE_REQ_MAX).

Definition FincommCallStatRequestStart (now : timespec) (b : fincomm_message_block) :
    outcome fincomm_message_block :=
  c_assert (FINESSE_REQUEST =? MessageType b);;
  let m := Data b in
  c_assert (if MessageClass m =? FINESSE_FUSE_MESSAGE then valid_fuse_type (Type_ m)
            else if MessageClass m =? FINESSE_NATIVE_MESSAGE then
              negb (Type_ m =? 0) && valid_native_type (Type_ m)
            else false);;
  Done (set_Data (set_Stats (fun _ =>
    {| RequestClass := MessageClass m; RequestType := Type_ m;
       RequestStartTime := now; RequestQueueTime := zero_time; RequestDequeueTime := zero_time;
       ResponseQueueTime := zero_time; ResponseReceiptTime := zero_time;
       RequestCompletionTime := zero_time |})) b).

Definition FincommCallStatQueueRequest (now : timespec) : fincomm_message_block -> fincomm_message_block :=
  set_Data (set_Stats (fun s =>
    {| RequestClass := RequestClass s; RequestType := RequestType s;
       RequestStartTime := RequestStartTime s; RequestQueueTime := now;
       RequestDequeueTime := RequestDequeueTime s; ResponseQueueTime := ResponseQueueTime s;
       ResponseReceiptTime := ResponseReceiptTime s;
       RequestCompletionTime := RequestCompletionTime s |})).

Definition FincommCallStatDequeueRequest (now : timespec) : fincomm_message_block -> fincomm_message_block :=
  set_Data (set_Stats (fun s =>
    {| RequestClass := RequestClass s; RequestType := RequestType s;
       RequestStartTime := RequestStartTime s; RequestQueueTime := RequestQueueTime s;
       RequestDequeueTime := now; ResponseQueueTime := ResponseQueueTime s;
       ResponseReceiptTime := ResponseReceiptTime s;
       RequestCompletionTime := RequestCompletionTime s |})).

Definition FincommCallStatQueueResponse (now : timespec) : fincomm_message_block -> fincomm_message_block :=
  set_Data (set_Stats (fun s =>
    {| RequestClass := RequestClass s; RequestType := RequestType s;
       RequestStartTime := RequestStartTime s; RequestQueueTime := RequestQueueTime s;
       RequestDequeueTime := RequestDequeueTime s; ResponseQueueTime := now;
       ResponseReceiptTime := ResponseReceiptTime s;
       RequestCompletionTime := RequestCompletionTime s |})).

Definition FincommCallStatDequeueResponse (now : timespec) : fincomm_message_block -> fincomm_message_block :=
  set_Data (set_Stats (fun s =>
    {| RequestClass := RequestClass s; RequestType := RequestType s;
       RequestStartTime := RequestStartTime s; RequestQueueTime := RequestQueueTime s;
       RequestDequeueTime := RequestDequeueTime s; ResponseQueueTime := ResponseQueueTime s;
       ResponseReceiptTime := now; RequestCompletionTime := RequestCompletionTime s |})).

Definition FincommCallStatCompleteRequest (now : timespec) : fincomm_message_block -> fincomm_message_block :=
  set_Data (set_Stats (fun s =>
    {| RequestClass := RequestClass s; RequestType := RequestType s;
       RequestStartTime := RequestStartTime s; RequestQueueTime := RequestQueueTime s;
       RequestDequeueTime := RequestDequeueTime s; ResponseQueueTime := ResponseQueueTime s;
       ResponseReceiptTime := ResponseReceiptTime s; RequestCompletionTime := now |})).

(** * The call statistics *)

Record fincomm_call_time := {
  RequestCreateTime : timespec; RequestQueueDelay : timespec;
  ResponseProcessingTime : timespec; ResponseQueueDelay : timespec;
  RequestTotalTime : timespec }.

Record fincomm_api_call_statistics := {
  Calls : Z; Success : Z; Failure : Z;
  SuccessTimings : fincomm_call_time; FailureTimings : fincomm_call_time }.

Record fincomm_call_data := {
  Fuse : list fincomm_api_call_statistics;
  Native : list fincomm_api_call_statistics }.

Definition add_interval (acc start end_ : timespec) : outcome timespec :=
  if negb (is_zero_time start) && negb (is_zero_time end_) then timespec_add_diff acc start end_
  else Done acc.

(** The five accumulations, the same for the two timings of an entry. *)
Definition accumulate (t : fincomm_call_time) (s : msg_stats) : outcome fincomm_call_time :=
  a ← add_interval (RequestCreateTime t) (RequestStartTime s) (RequestQueueTime s);
  b ← add_interval (RequestQueueDelay t) (RequestQueueTime s) (RequestDequeueTime s);
  c ← add_interval (ResponseProcessingTime t) (RequestDequeueTime s) (ResponseQueueTime s);
  d ← add_interval (ResponseQueueDelay t) (ResponseQueueTime s) (ResponseReceiptTime s);
  e ← add_interval (RequestTotalTime t) (RequestStartTime s) (RequestCompletionTime s);
  Done {| RequestCreateTime := a; RequestQueueDelay := b; ResponseProcessingTime := c;
          ResponseQueueDelay := d; RequestTotalTime := e |}.

(** The counters are 64-bit. *)
Definition record_entry (result : Z) (s : msg_stats) (e : fincomm_api_call_statistics) :
    outcome fincomm_api_call_statistics :=
  if result =? 0 then
    t ← accumulate (SuccessTimings e) s;
    Done {| Calls := wrap 64 (Calls e + 1); Success := wrap 64 (Success e + 1); Failure := Failure e;
            SuccessTimings := t; FailureTimings := FailureTimings e |}
  else
    t ← accumulate (FailureTimings e) s;
    Done {| Calls := wrap 64 (Calls e + 1); Success := Success e; Failure := wrap 64 (Failure e + 1);
            SuccessTimings := SuccessTimings e; FailureTimings := t |}.

Definition record_at (index : Z) (m : finesse_msg) (l : list fincomm_api_call_statistics) :
    outcome (list fincomm_api_call_statistics) :=
  e ← deref (l !! Z.to_nat index);
  c_assert (0 <? tv_sec (RequestStartTime (Stats m)));;
  c_assert (tv_sec (timespec_diff (RequestStartTime (Stats m)) (RequestCompletionTime (Stats m))) <=? 3600);;
  e ← record_entry (Result m) (Stats m) e;
  Done (<[Z.to_nat index := e]> l).

Definition FincommRecordStats (m : finesse_msg) (d : fincomm_call_data) : outcome fincomm_call_data :=
  let index := wrap 32 (RequestType (Stats m)) in
  if RequestClass (Stats m) =? FINESSE_FUSE_MESSAGE then
    c_assert (valid_fuse_type index);;
    l ← record_at (index - FINESSE_FUSE_REQ_BASE_TYPE) m (Fuse d);
    Done {| Fuse := l; Native := Native d |}
  else
    c_assert (valid_native_type index);;
    l ← record_at (index - FINESSE_NATIVE_REQ_BASE_TYPE) m (Native d);
    Done {| Fuse := Fuse d; Native := l |}.

(** * The enumerations *)

Lemma index_of_lookup {A} `{EqDecision A} (x : A) (l : list A) :
  x ∈ l -> l !! Z.to_nat (index_of x l) = Some x /\ 0 <= index_of x l < Z.of_nat (length l).
Proof.
  induction l as [|y l IH]; [by intros ?%elem_of_nil|]. intros Hx. cbn [index_of length].
  destruct (decide (x = y)) as [->|Hne]; [split; [done|lia]|].
  apply elem_of_cons in Hx as [->|Hx]; [done|]. destruct (IH Hx) as [Hl Hr].
  replace (Z.to_nat (1 + index_of x l)) with (S (Z.to_nat (index_of x l))) by lia. split; [done|lia].
Qed.

Lemma index_of_nth {A} `{EqDecision A} (x : A) (l : list A) i :
  NoDup l -> l !! i = Some x -> index_of x l = Z.of_nat i.
Proof.
  revert i. induction l as [|y l IH]; intros i Hnd Hi; [done|].
  apply NoDup_cons in Hnd as [Hy Hnd]. cbn [index_of]. destruct i as [|i]; simplify_eq/=.
  - by destruct (decide (x = x)).
  - destruct (decide (x = y)) as [->|]; [exfalso; by eapply Hy, list_elem_of_lookup_2|].
    rewrite (IH i) by done. lia.
Qed.

(** The value of every enumerator of the two request types decodes to it,
    and every value that decodes is the value of what it decodes to: the
    range tests of the code accept the values of the enumerators and nothing
    else. *)
Theorem request_codes_roundtrip :
  (forall t, fuse_req_of_code (fuse_req_code t) = Some t) /\
  (forall z t, fuse_req_of_code z = Some t -> fuse_req_code t = z) /\
  (forall z, valid_fuse_type z = true <-> exists t, z = fuse_req_code t) /\
  (forall t, native_req_of_code (native_req_code t) = Some t) /\
  (forall z t, native_req_of_code z = Some t -> native_req_code t = z) /\
  (forall z, valid_native_type z = true <-> exists t, z = native_req_code t).
Proof.
  assert (forall t, fuse_req_of_code (fuse_req_code t) = Some t) as F1 by (by intros []).
  assert (forall z t, fuse_req_of_code z = Some t -> fuse_req_code t = z) as F2.
  { intros z t. unfold fuse_req_of_code, fuse_req_code. destruct (_ && _) eqn:E; [|done].
    intros ->%index_of_nth; [lia|]. by apply (bool_decide_unpack (NoDup fuse_reqs)). }
  assert (forall t, native_req_of_code (native_req_code t) = Some t) as N1 by (by intros []).
  assert (forall z t, native_req_of_code z = Some t -> native_req_code t = z) as N2.
  { intros z t. unfold native_req_of_code, native_req_code. destruct (_ && _) eqn:E; [|done].
    intros ->%index_of_nth; [lia|]. by apply (bool_decide_unpack (NoDup native_reqs)). }
  repeat split; try done.
  - intros E. destruct (fuse_req_of_code z) as [t|] eqn:H; [exists t; symmetry; by apply F2|].
    exfalso. unfold fuse_req_of_code in H. unfold valid_fuse_type in E. rewrite E in H.
    apply lookup_ge_None in H. unfold FINESSE_FUSE_REQ_MAX in E. lia.
  - intros [t ->]. by destruct t.
  - intros E. destruct (native_req_of_code z) as [t|] eqn:H; [exists t; symmetry; by apply N2|].
    exfalso. unfold native_req_of_code in H. unfold valid_native_type in E. rewrite E in H.
    apply lookup_ge_None in H. unfold FINESSE_NATIVE_REQ_MAX in E. lia.
  - intros [t ->]. by destruct t.
Qed.

(** * Times *)

Definition nanoseconds (t : timespec) : Z := tv_sec t * 1000000000 + tv_nsec t.
Definition normal (t : timespec) : Prop := 0 <= tv_nsec t < 1000000000.

Lemma normal_zero : normal zero_time.
Proof. unfold normal; simpl; lia. Qed.

(** [timespec_diff] is exact only when the nanoseconds have to borrow: when
    the nanoseconds of the end are not below those of the beginning, their
    difference is never stored, and the result is short by it. *)
Theorem timespec_diff_loses b e :
  normal b -> normal e ->
  normal (timespec_diff b e) /\
  nanoseconds (timespec_diff b e) =
    (if nanoseconds b <=? nanoseconds e then
       nanoseconds e - nanoseconds b - Z.max 0 (tv_nsec e - tv_nsec b)
     else 0).
Proof.
  unfold normal, nanoseconds, timespec_diff. intros Hb He.
  destruct (Z.ltb_spec (tv_sec b) (tv_sec e)), (Z.eqb_spec (tv_sec e) (tv_sec b)),
    (Z.leb_spec (tv_nsec b) (tv_nsec e)), (Z.ltb_spec (tv_nsec e) (tv_nsec b));
    simpl; try lia;
    match goal with |- context [?x <=? ?y] => destruct (Z.leb_spec x y) end; simpl; lia.
Qed.


Lemma timespec_diff_normal b e : normal b -> normal e -> normal (timespec_diff b e).
Proof.
  unfold normal, timespec_diff. intros Hb He.
  destruct (_ || _); [|simpl; lia]. destruct (Z.ltb_spec (tv_nsec e) (tv_nsec b)); simpl; lia.
Qed.

Lemma carry_seconds_total fuel t :
  0 <= tv_nsec t -> tv_nsec t / 1000000000 < Z.of_nat fuel ->
  exists t', carry_seconds fuel t = Done t' /\ normal t' /\ nanoseconds t' = nanoseconds t.
Proof.
  unfold normal, nanoseconds.
  revert t. induction fuel as [|fuel IH]; intros t H0 Hf; [pose proof (Z.div_pos (tv_nsec t) 1000000000); lia|].
  simpl. destruct (Z.leb_spec 1000000000 (tv_nsec t)).
  - destruct (IH {| tv_sec := tv_sec t + 1; tv_nsec := tv_nsec t - 1000000000 |}) as (t' & -> & Hn & Hv);
      simpl in *; [lia| |].
    + replace (tv_nsec t - 1000000000) with (tv_nsec t + (-1) * 1000000000) by lia.
      rewrite Z.div_add by lia. lia.
    + exists t'. split; [done|]. split; [done|]. rewrite Hv. lia.
  - exists t. split; [done|]. lia.
Qed.

Lemma timespec_add_diff_spec acc s e :
  normal acc -> normal s -> normal e ->
  exists t, timespec_add_diff acc s e = Done t /\ normal t /\
    nanoseconds t = nanoseconds acc + nanoseconds (timespec_diff s e).
Proof.
  intros Ha Hs He. pose proof (timespec_diff_normal _ _ Hs He) as Hd.
  unfold timespec_add_diff. generalize dependent (timespec_diff s e). intros d Hd.
  unfold normal in Ha, Hd.
  set (sum := {| tv_sec := tv_sec acc + tv_sec d; tv_nsec := tv_nsec acc + tv_nsec d |}).
  assert (0 <= tv_nsec sum / 1000000000) by (apply Z.div_pos; simpl; lia).
  destruct (carry_seconds_total (S (Z.to_nat (tv_nsec sum / 1000000000))) sum)
    as (t & Ht & Hn & Hv); [simpl; lia|lia|].
  exists t. split; [done|]. split; [done|]. rewrite Hv. unfold nanoseconds, sum. simpl. lia.
Qed.

(** * Recording *)

Record normal_stats (s : msg_stats) : Prop := {
  ns_start : normal (RequestStartTime s); ns_queue : normal (RequestQueueTime s);
  ns_dequeue : normal (RequestDequeueTime s); ns_rqueue : normal (ResponseQueueTime s);
  ns_receipt : normal (ResponseReceiptTime s); ns_done : normal (RequestCompletionTime s) }.

Record normal_times (t : fincomm_call_time) : Prop := {
  nt_create : normal (RequestCreateTime t); nt_delay : normal (RequestQueueDelay t);
  nt_processing : normal (ResponseProcessingTime t); nt_rdelay : normal (ResponseQueueDelay t);
  nt_total : normal (RequestTotalTime t) }.

(** An entry counts every call once, as a success or as a failure. *)
Record entry_ok (e : fincomm_api_call_statistics) : Prop := {
  eo_calls : Calls e = wrap 64 (Success e + Failure e);
  eo_success : normal_times (SuccessTimings e);
  eo_failure : normal_times (FailureTimings e) }.

Record call_data_ok (d : fincomm_call_data) : Prop := {
  cd_fuse_length : length (Fuse d) = length fuse_reqs;
  cd_native_length : length (Native d) = length native_reqs;
  cd_fuse : Forall entry_ok (Fuse d);
  cd_native : Forall entry_ok (Native d) }.

Lemma add_interval_spec acc s e :
  normal acc -> normal s -> normal e -> exists t, add_interval acc s e = Done t /\ normal t.
Proof.
  intros Ha Hs He. unfold add_interval. destruct (_ && _); [|eauto].
  destruct (timespec_add_diff_spec acc s e) as (t & ? & ? & _); eauto.
Qed.

Lemma accumulate_spec t s :
  normal_times t -> normal_stats s -> exists t', accumulate t s = Done t' /\ normal_times t'.
Proof.
  intros [] []. unfold accumulate.
  repeat match goal with
  | |- context [add_interval ?a ?b ?c] =>
      destruct (add_interval_spec a b c) as (? & -> & ?); [assumption..|]
  end.
  eexists. split; [reflexivity|]. by constructor.
Qed.

Lemma wrap_succ_l a b : wrap 64 (wrap 64 (a + b) + 1) = wrap 64 (wrap 64 (a + 1) + b).
Proof. unfold wrap. rewrite !Z.add_mod_idemp_l by lia. f_equal. lia. Qed.

Lemma wrap_succ_r a b : wrap 64 (wrap 64 (a + b) + 1) = wrap 64 (a + wrap 64 (b + 1)).
Proof. unfold wrap. rewrite Z.add_mod_idemp_l, Z.add_mod_idemp_r by lia. f_equal. lia. Qed.

Lemma record_entry_spec r s e :
  entry_ok e -> normal_stats s ->
  exists e', record_entry r s e = Done e' /\ entry_ok e' /\ Calls e' = wrap 64 (Calls e + 1).
Proof.
  intros [Hc Hs Hf] Hn. unfold record_entry. destruct (r =? 0).
  - destruct (accumulate_spec _ s Hs Hn) as (t & -> & Ht).
    eexists. split; [reflexivity|]. split; [|done]. constructor; simpl; try done.
    by rewrite Hc, wrap_succ_l.
  - destruct (accumulate_spec _ s Hf Hn) as (t & -> & Ht).
    eexists. split; [reflexivity|]. split; [|done]. constructor; simpl; try done.
    by rewrite Hc, wrap_succ_r.
Qed.

(** What [FincommRecordStats] requires of a message. *)
Record recordable (m : finesse_msg) : Prop := {
  rc_type : if RequestClass (Stats m) =? FINESSE_FUSE_MESSAGE
            then valid_fuse_type (RequestType (Stats m)) = true
            else valid_native_type (RequestType (Stats m)) = true;
  rc_times : normal_stats (Stats m);
  rc_started : 0 < tv_sec (RequestStartTime (Stats m));
  rc_recent : tv_sec (timespec_diff (RequestStartTime (Stats m)) (RequestCompletionTime (Stats m))) <= 3600 }.

Lemma record_at_spec i m l :
  recordable m -> Forall entry_ok l -> 0 <= i < Z.of_nat (length l) ->
  exists l', record_at i m l = Done l' /\ Forall entry_ok l' /\ length l' = length l /\
    (forall e, l !! Z.to_nat i = Some e -> exists e', l' !! Z.to_nat i = Some e' /\
       Calls e' = wrap 64 (Calls e + 1)) /\
    (forall j, j <> Z.to_nat i -> l' !! j = l !! j).
Proof.
  intros [_ Ht Hs Hr] Hl Hi. unfold record_at.
  destruct (lookup_lt_is_Some_2 l (Z.to_nat i)) as [e He]; [lia|]. rewrite He.
  unfold c_assert. destruct (Z.ltb_spec 0 (tv_sec (RequestStartTime (Stats m)))); [|lia].
  destruct (Z.leb_spec (tv_sec (timespec_diff (RequestStartTime (Stats m))
    (RequestCompletionTime (Stats m)))) 3600); [|lia].
  assert (entry_ok e) as Hok by (eapply Forall_lookup_1; eauto).
  destruct (record_entry_spec (Result m) (Stats m) e Hok Ht) as (e' & Hre & Hok' & Hcalls).
  cbn. rewrite Hre. cbn. eexists. split; [reflexivity|].
  split; [by apply Forall_insert|]. split; [by rewrite length_insert|]. split.
  - intros e0 [= <-]. exists e'. split; [|done]. apply list_lookup_insert_eq. lia.
  - intros j Hj. by apply list_lookup_insert_ne.
Qed.

Lemma fuse_max : FINESSE_FUSE_REQ_MAX = 85.
Proof. reflexivity. Qed.

Lemma native_max : FINESSE_NATIVE_REQ_MAX = 1030.
Proof. reflexivity. Qed.

Lemma valid_fuse_wrap t : valid_fuse_type t = true -> wrap 32 t = t.
Proof.
  unfold valid_fuse_type. rewrite fuse_max. unfold FINESSE_FUSE_REQ_BASE_TYPE. intros H.
  apply wrap_small. lia.
Qed.

Lemma valid_native_wrap t : valid_native_type t = true -> wrap 32 t = t.
Proof.
  unfold valid_native_type. rewrite native_max. unfold FINESSE_NATIVE_REQ_BASE_TYPE. intros H.
  apply wrap_small. lia.
Qed.

Definition stat_slot (d : fincomm_call_data) (m : finesse_msg) : option fincomm_api_call_statistics :=
  if RequestClass (Stats m) =? FINESSE_FUSE_MESSAGE
  then Fuse d !! Z.to_nat (RequestType (Stats m) - FINESSE_FUSE_REQ_BASE_TYPE)
  else Native d !! Z.to_nat (RequestType (Stats m) - FINESSE_NATIVE_REQ_BASE_TYPE).

Lemma FincommRecordStats_spec m d :
  call_data_ok d -> recordable m ->
  exists d' e e', FincommRecordStats m d = Done d' /\ call_data_ok d' /\
    stat_slot d m = Some e /\ stat_slot d' m = Some e' /\ Calls e' = wrap 64 (Calls e + 1).
Proof.
  intros [Lf Ln Hf Hn] Hm. pose proof (rc_type _ Hm) as Ht.
  unfold FincommRecordStats, stat_slot.
  destruct (RequestClass (Stats m) =? FINESSE_FUSE_MESSAGE).
  - rewrite valid_fuse_wrap, Ht by done. unfold c_assert; cbn [mbind outcome_bind mret outcome_ret].
    set (i := RequestType (Stats m) - FINESSE_FUSE_REQ_BASE_TYPE).
    assert (0 <= i < Z.of_nat (length (Fuse d))) as Hi.
    { rewrite Lf. unfold valid_fuse_type, FINESSE_FUSE_REQ_MAX in Ht. lia. }
    destruct (record_at_spec i m (Fuse d) Hm Hf Hi) as (l & -> & Hl & Hlen & Hc & _).
    destruct (lookup_lt_is_Some_2 (Fuse d) (Z.to_nat i)) as [e He]; [lia|].
    destruct (Hc e He) as (e' & He' & Hcalls).
    eexists _, e, e'. split; [reflexivity|]. split; [constructor; cbn [Fuse Native]; congruence || done|]. done.
  - rewrite valid_native_wrap, Ht by done. unfold c_assert; cbn [mbind outcome_bind mret outcome_ret].
    set (i := RequestType (Stats m) - FINESSE_NATIVE_REQ_BASE_TYPE).
    assert (0 <= i < Z.of_nat (length (Native d))) as Hi.
    { rewrite Ln. unfold valid_native_type, FINESSE_NATIVE_REQ_MAX in Ht. lia. }
    destruct (record_at_spec i m (Native d) Hm Hn Hi) as (l & -> & Hl & Hlen & Hc & _).
    destruct (lookup_lt_is_Some_2 (Native d) (Z.to_nat i)) as [e He]; [lia|].
    destruct (Hc e He) as (e' & He' & Hcalls).
    eexists _, e, e'. split; [reflexivity|]. split; [constructor; cbn [Fuse Native]; congruence || done|]. done.
Qed.

Lemma FincommRecordStats_run m d :
  call_data_ok d -> recordable m -> exists d', FincommRecordStats m d = Done d' /\ call_data_ok d'.
Proof. intros Hd Hm. destruct (FincommRecordStats_spec m d Hd Hm) as (d' & e & e' & ? & ? & _). eauto. Qed.

(** Recording a message that was stamped on its way runs to the end without
    a failed assertion, keeps every entry consistent (calls are successes
    plus failures, all accumulated times normalised) and counts one more call
    for the type of the request. *)
Theorem FincommRecordStats_counts m d :
  call_data_ok d -> recordable m ->
  exists d' e e', FincommRecordStats m d = Done d' /\ call_data_ok d' /\
    stat_slot d m = Some e /\ stat_slot d' m = Some e' /\ Calls e' = wrap 64 (Calls e + 1).
Proof. apply FincommRecordStats_spec. Qed.

(** A process that has made no call yet. *)
Definition no_call_time : fincomm_call_time :=
  {| RequestCreateTime := zero_time; RequestQueueDelay := zero_time;
     ResponseProcessingTime := zero_time; ResponseQueueDelay := zero_time;
     RequestTotalTime := zero_time |}.

Definition no_calls : fincomm_api_call_statistics :=
  {| Calls := 0; Success := 0; Failure := 0;
     SuccessTimings := no_call_time; FailureTimings := no_call_time |}.

Definition initial_call_data : fincomm_call_data :=
  {| Fuse := replicate (length fuse_reqs) no_calls;
     Native := replicate (length native_reqs) no_calls |}.

Lemma call_data_ok_initial : call_data_ok initial_call_data.
Proof.
  assert (entry_ok no_calls) as E.
  { assert (normal_times no_call_time) by (constructor; apply normal_zero).
    by constructor. }
  constructor; try done; apply Forall_replicate; exact E.
Qed.

Definition sample_stats : msg_stats :=
  {| RequestClass := FINESSE_NATIVE_MESSAGE; RequestType := native_req_code FINESSE_NATIVE_REQ_MAP;
     RequestStartTime := {| tv_sec := 7; tv_nsec := 10 |};
     RequestQueueTime := {| tv_sec := 7; tv_nsec := 500 |};
     RequestDequeueTime := {| tv_sec := 8; tv_nsec := 20 |};
     ResponseQueueTime := {| tv_sec := 8; tv_nsec := 30 |};
     ResponseReceiptTime := {| tv_sec := 9; tv_nsec := 0 |};
     RequestCompletionTime := {| tv_sec := 9; tv_nsec := 1 |} |}.

Definition sample_msg : finesse_msg :=
  {| Version := FINESSE_MESSAGE_VERSION; MessageClass := FINESSE_NATIVE_MESSAGE; Result := 0;
     Stats := sample_stats; Type_ := FINESSE_NATIVE_RSP_MAP; Parameters := RspMap 0 (Some 5) |}.

Lemma FincommRecordStats_counts_witness :
  exists d' e e', FincommRecordStats sample_msg initial_call_data = Done d' /\ call_data_ok d' /\
    stat_slot initial_call_data sample_msg = Some e /\ stat_slot d' sample_msg = Some e' /\
    Calls e' = wrap 64 (Calls e + 1).
Proof.
  apply FincommRecordStats_counts; [apply call_data_ok_initial|].
  constructor; try reflexivity; [|discriminate].
  constructor; unfold normal; simpl; lia.
Defined.

(** Two instants 900 ms apart in the same second: the difference is zero. *)
Lemma timespec_diff_loses_witness :
  timespec_diff {| tv_sec := 1; tv_nsec := 0 |} {| tv_sec := 1; tv_nsec := 900000000 |} = zero_time /\
  nanoseconds (timespec_diff {| tv_sec := 1; tv_nsec := 0 |} {| tv_sec := 1; tv_nsec := 900000000 |}) = 0.
Proof.
  split; [reflexivity|].
  refine (eq_trans (proj2 (timespec_diff_loses _ _ _ _)) _); try reflexivity;
    unfold normal; simpl; lia.
Defined.
