(* ===== verification/Region.v ===== *)
(** The shared memory region of src/finesse/communications/fincomm.c.

    A client and the server exchange messages through a region of 64 message
    blocks and three bitmaps: which blocks are allocated, which hold a request
    the server has not taken, which hold a response the client has not taken.
    The operations are those of fincomm.c, with [FinesseReleaseRequestBuffer]
    of fcc.c, each run to its end by one thread; what other threads may do
    between their atomic steps is in RegionThreads.v.

    Result: the operations implement a life cycle of slots (free, allocated,
    ready, taken, responded, answered): an operation the life cycle allows
    runs with every assertion true and moves its slot as the cycle says.

    Addresses: the region is mapped at [base]; block [i] is at
    [base + 4096 * (1 + i)].  The values that come from outside are
    arguments: [now] is what [clock_gettime] stores, [rnd] what [random]
    returns, the two UUIDs what [uuid_generate] stores.  Mutexes and
    conditions are those of one thread running alone: a wait whose condition
    does not hold is [Blocked]. *)

From stdpp Require Import list strings.
From S2P Require Import Prelude Bitmap Message.

Open Scope word_scope.

(** fincomm_shared_memory_region, the fields the code uses *)
Record region := {
  Signature : list Z;
  ClientId : uuid; ServerId : uuid;
  RequestBitmap : Z; RequestWaiters : Z;
  ResponseBitmap : Z;
  LastBufferAllocated : Z;
  AllocationBitmap : Z;
  next_RequestId : Z;
  ShutdownRequested : Z;
  Messages : list fincomm_message_block }.

(** The state of a process: the region and the static call statistics. *)
Record world := { shm : region; calls : fincomm_call_data }.

Definition FinesseSharedMemoryRegionSignature : list Z := [70; 105; 110; 101; 115; 115; 101; 0].

(** ** Stores to one field *)

Definition with_bitmaps (a rq rs : Z) (r : region) : region :=
  {| Signature := Signature r; ClientId := ClientId r; ServerId := ServerId r;
     RequestBitmap := rq; RequestWaiters := RequestWaiters r; ResponseBitmap := rs;
     LastBufferAllocated := LastBufferAllocated r; AllocationBitmap := a;
     next_RequestId := next_RequestId r; ShutdownRequested := ShutdownRequested r;
     Messages := Messages r |}.

Definition with_counters (last id sd : Z) (r : region) : region :=
  {| Signature := Signature r; ClientId := ClientId r; ServerId := ServerId r;
     RequestBitmap := RequestBitmap r; RequestWaiters := RequestWaiters r;
     ResponseBitmap := ResponseBitmap r; LastBufferAllocated := last;
     AllocationBitmap := AllocationBitmap r; next_RequestId := id; ShutdownRequested := sd;
     Messages := Messages r |}.

Definition with_Messages (m : list fincomm_message_block) (r : region) : region :=
  {| Signature := Signature r; ClientId := ClientId r; ServerId := ServerId r;
     RequestBitmap := RequestBitmap r; RequestWaiters := RequestWaiters r;
     ResponseBitmap := ResponseBitmap r; LastBufferAllocated := LastBufferAllocated r;
     AllocationBitmap := AllocationBitmap r; next_RequestId := next_RequestId r;
     ShutdownRequested := ShutdownRequested r; Messages := m |}.

Definition on_region (f : region -> region) : M world unit :=
  modify_state (fun w => {| shm := f (shm w); calls := calls w |}).
Definition field {A} (f : region -> A) : M world A := gets (fun w => f (shm w)).

Definition set_AllocationBitmap (b : Z) : M world unit :=
  on_region (fun r => with_bitmaps b (RequestBitmap r) (ResponseBitmap r) r).
Definition set_RequestBitmap (b : Z) : M world unit :=
  on_region (fun r => with_bitmaps (AllocationBitmap r) b (ResponseBitmap r) r).
Definition set_ResponseBitmap (b : Z) : M world unit :=
  on_region (fun r => with_bitmaps (AllocationBitmap r) (RequestBitmap r) b r).
Definition set_LastBufferAllocated (i : Z) : M world unit :=
  on_region (fun r => with_counters i (next_RequestId r) (ShutdownRequested r) r).
Definition set_next_RequestId (i : Z) : M world unit :=
  on_region (fun r => with_counters (LastBufferAllocated r) i (ShutdownRequested r) r).
Definition set_ShutdownRequested (i : Z) : M world unit :=
  on_region (fun r => with_counters (LastBufferAllocated r) (next_RequestId r) i r).

(** ** Blocks and their addresses *)

Definition block_addr (base index : Z) : ptr := base + SHM_PAGE_SIZE * (1 + index).

(** [(unsigned)((((uintptr_t)Message - (uintptr_t)RequestRegion) / SHM_PAGE_SIZE) - 1)] *)
Definition block_index (base : Z) (Message : ptr) : Z :=
  u32 (u64 (Message - base) / SHM_PAGE_SIZE - 1).

Definition load_block (index : Z) : M world fincomm_message_block :=
  ms ← field Messages; deref (if 0 <=? index then ms !! Z.to_nat index else None).

Definition store_block (index : Z) (b : fincomm_message_block) : M world unit :=
  load_block index;;
  on_region (fun r => with_Messages (<[Z.to_nat index := b]> (Messages r)) r).

Definition update_block (index : Z) (f : fincomm_message_block -> fincomm_message_block) : M world unit :=
  b ← load_block index; store_block index (f b).

Definition lift_outcome {A} (o : outcome A) : M world A :=
  fun w => match o with Done a => Done (a, w) | Fail f => Fail f end.

Definition CHECK_SHM_SIGNATURE : M world unit :=
  s ← field Signature; c_assert (bool_decide (s = FinesseSharedMemoryRegionSignature)).

(** __sync_bool_compare_and_swap on AllocationBitmap *)
Definition cas_AllocationBitmap (old new : Z) : M world bool :=
  b ← field AllocationBitmap;
  if b =? old then set_AllocationBitmap new;; mret true else mret false.

(** * The operations *)

(** The loop runs again only when the number it took was 0, so at most
    twice. *)
Fixpoint request_number_loop (fuel : nat) (request_number : Z) : M world Z :=
  match fuel with
  | O => mthrow OutOfFuel
  | S fuel =>
      if request_number =? 0 then
        n ← field next_RequestId; set_next_RequestId (u64 (n + 1));; request_number_loop fuel n
      else mret request_number
  end.

Definition get_request_number : M world Z :=
  request_number ← request_number_loop 3 0;
  c_assert (negb (request_number =? 0));; mret request_number.

(** The slow path of the allocation: the index found, or 64. *)
Fixpoint scan_free (n : nat) (index mask : Z) : M world Z :=
  match n with
  | O => mret index
  | S n =>
      bitmap ← field AllocationBitmap;
      let new_bitmap := Z.lor bitmap mask in
      if bitmap =? new_bitmap then scan_free n (index + 1) (u64 (Z.shiftl mask 1))
      else
        ok ← cas_AllocationBitmap bitmap new_bitmap;
        if (ok : bool) then mret index else scan_free n (index + 1) (u64 (Z.shiftl mask 1))
  end.

(** The message as the allocation leaves it: the union keeps what it held. *)
Definition init_request (MessageClass_ MessageType_ : Z) (now : timespec) (b : fincomm_message_block) :
    outcome fincomm_message_block :=
  let b := set_block_header FINESSE_REQUEST ENOSYS b in
  let b := set_Data (set_header FINESSE_MESSAGE_VERSION MessageClass_) b in
  if MessageClass_ =? FINESSE_FUSE_MESSAGE then
    c_assert (valid_fuse_type MessageType_);;
    FincommCallStatRequestStart now (set_Data (set_Type MessageType_) b)
  else if MessageClass_ =? FINESSE_NATIVE_MESSAGE then
    c_assert (valid_native_type MessageType_);;
    FincommCallStatRequestStart now (set_Data (set_Type MessageType_) b)
  else mthrow AssertFailed.

Definition FinesseGetRequestBuffer (base MessageClass_ MessageType_ : Z) (now : timespec) :
    M world ptr :=
  CHECK_SHM_SIGNATURE;;
  c_assert (negb (base =? NULL));;
  bitmap ← field AllocationBitmap;
  last ← field LastBufferAllocated;
  let index := u32 (last + 1) mod SHM_MESSAGE_COUNT in
  let new_bitmap := Z.lor bitmap (make_mask64 index) in
  index ← (if bitmap =? new_bitmap then scan_free 64 0 1
           else
             ok ← cas_AllocationBitmap bitmap new_bitmap;
             if (ok : bool) then mret index else scan_free 64 0 1);
  if index <? SHM_MESSAGE_COUNT then
    set_LastBufferAllocated index;;
    rb ← field RequestBitmap;
    c_assert (Z.land rb (make_mask64 index) =? 0);;
    b ← load_block index;
    b ← lift_outcome (init_request MessageClass_ MessageType_ now b);
    store_block index b;;
    mret (block_addr base index)
  else mret NULL.

Definition FinesseRequestReady (base : Z) (Message : ptr) (now : timespec) : M world Z :=
  let index := block_index base Message in
  CHECK_SHM_SIGNATURE;;
  c_assert (block_addr base index =? Message);;
  ab ← field AllocationBitmap;
  shift_ok index;;
  if Z.land ab (make_mask64 index) =? 0 then mret 0
  else
    request_id ← get_request_number;
    update_block index (set_RequestId request_id);;
    update_block index (FincommCallStatQueueRequest now);;
    rb ← field RequestBitmap;
    c_assert (Z.land rb (make_mask64 index) =? 0);;
    set_RequestBitmap (Z.lor rb (make_mask64 index));;
    mret request_id.

Definition FinesseResponseReady (base : Z) (Message : ptr) (now : timespec) : M world unit :=
  let index := block_index base Message in
  c_assert (block_addr base index =? Message);;
  CHECK_SHM_SIGNATURE;;
  update_block index (FincommCallStatQueueResponse now);;
  rb ← field ResponseBitmap;
  shift_ok index;;
  c_assert (Z.land rb (make_mask64 index) =? 0);;
  set_ResponseBitmap (Z.lor rb (make_mask64 index)).

Definition FinesseGetResponse (base : Z) (Message : ptr) (wait : Z) (now : timespec) : M world Z :=
  let index := block_index base Message in
  CHECK_SHM_SIGNATURE;;
  c_assert (block_addr base index =? Message);;
  c_assert (negb (base =? NULL));;
  c_assert (negb (Message =? NULL));;
  rb ← field ResponseBitmap;
  shift_ok index;;
  status ←
    (if wait =? 0 then
       if negb (Z.land rb (make_mask64 index) =? 0) then
         set_ResponseBitmap (Z.land rb (wnot 64 (make_mask64 index)));; mret 1
       else mret 0
     else if Z.land rb (make_mask64 index) =? 0 then mthrow Blocked
     else set_ResponseBitmap (Z.land rb (wnot 64 (make_mask64 index)));; mret 1);
  update_block index (FincommCallStatDequeueResponse now);;
  mret status.

Definition FinesseReadyRequestWait : M world Z :=
  CHECK_SHM_SIGNATURE;;
  rb ← field RequestBitmap;
  sd ← field ShutdownRequested;
  if (rb =? 0) && (sd =? 0) then mthrow Blocked
  else mret (if negb (sd =? 0) then ENOTCONN else 0).

(** [for (i = i; i < limit; i++)]: the index of the first set bit and its
    mask, or [limit]. *)
Fixpoint find_request (n : nat) (i mask bitmap : Z) : Z * Z :=
  match n with
  | O => (i, mask)
  | S n =>
      if negb (Z.land bitmap mask =? 0) then (i, mask)
      else find_request n (i + 1) (u64 (Z.shiftl mask 1)) bitmap
  end.

(** The loop of [FinesseGetReadyRequest] under the mutex: its status, index
    and the bitmap before the bit was cleared. *)
Fixpoint ready_loop (fuel : nat) (rnd : Z) : M world (Z * Z * Z) :=
  match fuel with
  | O => mthrow OutOfFuel
  | S fuel =>
      sd ← field ShutdownRequested;
      if negb (sd =? 0) then mret (ENOTCONN, SHM_MESSAGE_COUNT, 0)
      else
        rb ← field RequestBitmap;
        if rb =? 0 then mret (ENOENT, SHM_MESSAGE_COUNT, 0)
        else
          let '(i, mask) := find_request (Z.to_nat (SHM_MESSAGE_COUNT - rnd)) rnd (make_mask64 rnd) rb in
          if i <? SHM_MESSAGE_COUNT then
            set_RequestBitmap (Z.land rb (wnot 64 mask));; mret (0, i, rb)
          else
            let '(i, mask) := find_request (Z.to_nat rnd) 0 1 rb in
            if i <? rnd then set_RequestBitmap (Z.land rb (wnot 64 mask));; mret (0, i, rb)
            else ready_loop fuel rnd
  end.

(** The pair of the status and [*message]. *)
Definition FinesseGetReadyRequest (base random_ : Z) (now : timespec) : M world (Z * ptr) :=
  let rnd := random_ mod SHM_MESSAGE_COUNT in
  c_assert (rnd <? SHM_MESSAGE_COUNT);;
  '(status, index, original_bitmap) ← ready_loop 1 rnd;
  c_assert (if index <? SHM_MESSAGE_COUNT
            then negb (Z.land original_bitmap (make_mask64 index) =? 0) else true);;
  if status =? 0 then
    c_assert (index <? SHM_MESSAGE_COUNT);;
    b ← load_block index;
    c_assert (negb (RequestId b =? 0));;
    update_block index (FincommCallStatDequeueRequest now);;
    mret (status, block_addr base index)
  else
    c_assert (SHM_MESSAGE_COUNT =? index);; mret (status, NULL).

Definition FinesseInitializeMemoryRegion (base : Z) (client_id server_id : uuid) : M world Z :=
  c_assert (negb (base =? NULL));;
  on_region (fun r =>
    {| Signature := FinesseSharedMemoryRegionSignature; ClientId := client_id;
       ServerId := server_id; RequestBitmap := 0; RequestWaiters := 0; ResponseBitmap := 0;
       LastBufferAllocated := SHM_MESSAGE_COUNT - 1; AllocationBitmap := 0;
       next_RequestId := u64 (-10); ShutdownRequested := 0; Messages := Messages r |});;
  mret 0.

(** The wait for the waiters to leave: [waiters k] is the value of
    RequestWaiters when the mutex is taken for the [k]-th time; the result is
    how often the broadcast was sent. *)
Fixpoint drain_waiters (fuel : nat) (waiters : nat -> Z) (k : nat) (retry : Z) : outcome Z :=
  match fuel with
  | O => Fail OutOfFuel
  | S fuel =>
      if 0 <? waiters k then
        if 5 <? retry then Done (retry + 1) else drain_waiters fuel waiters (S k) (retry + 1)
      else Done retry
  end.

Definition FinesseDestroyMemoryRegion (base : Z) (waiters : nat -> Z) : M world Z :=
  CHECK_SHM_SIGNATURE;;
  c_assert (negb (base =? NULL));;
  sd ← field ShutdownRequested; c_assert (sd =? 0);;
  ab ← field AllocationBitmap; c_assert (ab =? 0);;
  set_ShutdownRequested 1;;
  lift_outcome (drain_waiters 8 waiters 0 0);;
  mret 0.

(** The compare-and-swap loop; alone, a thread succeeds the second time at
    the latest. *)
Fixpoint release_loop (fuel : nat) (index bitmap new_bitmap : Z) : M world unit :=
  match fuel with
  | O => mthrow OutOfFuel
  | S fuel =>
      ok ← cas_AllocationBitmap bitmap new_bitmap;
      if (ok : bool) then mret ()
      else
        bitmap ← field AllocationBitmap;
        release_loop fuel index bitmap (Z.land bitmap (wnot 64 (make_mask64 index)))
  end.

Definition FinesseReleaseRequestBuffer (base : Z) (Message : ptr) (now : timespec) : M world unit :=
  let index := block_index base Message in
  c_assert (negb (base =? NULL));;
  c_assert (index <? SHM_MESSAGE_COUNT);;
  c_assert (negb (Message =? NULL));;
  (if block_addr base index =? Message then update_block index (set_RequestId 0)
   else mthrow BadPointer);;
  bitmap ← field AllocationBitmap;
  let new_bitmap := Z.land bitmap (wnot 64 (make_mask64 index)) in
  c_assert (negb (bitmap =? new_bitmap));;
  c_assert (block_addr base index =? Message);;
  update_block index (FincommCallStatCompleteRequest now);;
  b ← load_block index;
  w ← get_state;
  d ← lift_outcome (FincommRecordStats (Data b) (calls w));
  modify_state (fun w => {| shm := shm w; calls := d |});;
  release_loop 2 index bitmap new_bitmap.

(** * Running the commands *)

Lemma field_bind {A B} (f : region -> A) (k : A -> M world B) w :
  (field f ≫= k) w = k (f (shm w)) w.
Proof. done. Qed.

Lemma on_region_bind {B} f (k : unit -> M world B) w :
  (on_region f ≫= k) w = k tt {| shm := f (shm w); calls := calls w |}.
Proof. done. Qed.

Lemma load_block_run index b w :
  0 <= index -> Messages (shm w) !! Z.to_nat index = Some b -> load_block index w = Done (b, w).
Proof.
  intros Hi Hb. unfold load_block. rewrite field_bind.
  destruct (Z.leb_spec 0 index); [|lia]. by rewrite Hb.
Qed.

Definition put_block (index : Z) (b : fincomm_message_block) (w : world) : world :=
  {| shm := with_Messages (<[Z.to_nat index := b]> (Messages (shm w))) (shm w); calls := calls w |}.

Lemma store_block_run index b b0 w :
  0 <= index -> Messages (shm w) !! Z.to_nat index = Some b0 ->
  store_block index b w = Done (tt, put_block index b w).
Proof. intros Hi Hb. unfold store_block. by run_step ltac:(by apply (load_block_run index b0)). Qed.

Lemma update_block_run index f b w :
  0 <= index -> Messages (shm w) !! Z.to_nat index = Some b ->
  update_block index f w = Done (tt, put_block index (f b) w).
Proof.
  intros Hi Hb. unfold update_block. run_step ltac:(by apply (load_block_run index b)).
  by apply (store_block_run index _ b).
Qed.

Definition set_alloc (a : Z) (w : world) : world :=
  {| shm := with_bitmaps a (RequestBitmap (shm w)) (ResponseBitmap (shm w)) (shm w); calls := calls w |}.

Lemma cas_run old new w :
  cas_AllocationBitmap old new w =
    if AllocationBitmap (shm w) =? old then Done (true, set_alloc new w) else Done (false, w).
Proof. unfold cas_AllocationBitmap. rewrite field_bind. by destruct (_ =? _). Qed.

(** The scan takes the first free block from [index] on. *)
Lemma scan_free_run n index w :
  in_word 64 (AllocationBitmap (shm w)) -> 0 <= index -> index + Z.of_nat n = 64 ->
  let a := AllocationBitmap (shm w) in
  exists j, index <= j <= 64 /\ (forall k, index <= k < j -> Z.testbit a k = true) /\
    ((j = 64 /\ scan_free n index (make_mask64 index) w = Done (j, w)) \/
     (j < 64 /\ Z.testbit a j = false /\
      scan_free n index (make_mask64 index) w = Done (j, set_alloc (set_bit64 a j) w))).
Proof.
  intros Hw. revert index. induction n as [|n IH]; intros index Hi Hn a; cbn [scan_free].
  - exists 64. split; [lia|]. split; [lia|]. left. split; [done|]. by replace index with 64 by lia.
  - rewrite field_bind. fold a. fold (set_bit64 a index).
    rewrite set_bit64_same by (done || lia).
    destruct (Z.testbit a index) eqn:T.
    + rewrite make_mask64_succ by lia.
      destruct (IH (index + 1)) as (j & Hj & Hk & Hr); [lia..|].
      exists j. split; [lia|]. split; [|done]. intros k Hk'.
      destruct (decide (k = index)) as [->|]; [done|]. apply Hk. lia.
    + exists index. split; [lia|]. split; [lia|]. right. split; [lia|]. split; [done|].
      erewrite M_bind_done by (rewrite cas_run; by rewrite Z.eqb_refl). done.
Qed.

(** The search finds the first set bit of the range. *)
Lemma find_request_run n i b :
  in_word 64 b -> 0 <= i -> i + Z.of_nat n <= 64 ->
  exists j, find_request n i (make_mask64 i) b = (j, make_mask64 j) /\ i <= j <= i + Z.of_nat n /\
    (forall k, i <= k < j -> Z.testbit b k = false) /\
    (j < i + Z.of_nat n -> Z.testbit b j = true).
Proof.
  intros Hb. revert i. induction n as [|n IH]; intros i Hi Hn; cbn [find_request].
  - exists i. repeat split; lia.
  - fold (bit_set b i). rewrite bit_set_spec by (done || lia).
    destruct (Z.testbit b i) eqn:T.
    + exists i. split; [done|]. split; [lia|]. split; [lia|done].
    + rewrite make_mask64_succ by lia. destruct (IH (i + 1)) as (j & -> & Hj & Hk & Ht); [lia..|].
      exists j. split; [done|]. split; [lia|]. split; [|intros; apply Ht; lia].
      intros k Hk'. destruct (decide (k = i)) as [->|]; [done|]. apply Hk. lia.
Qed.

(** * The life cycle of a block *)

Inductive slot : Type :=
  | Free        (* not allocated *)
  | Allocated   (* the client fills in the request *)
  | Ready       (* the request waits for the server *)
  | Taken       (* the server works on it *)
  | Responded   (* the response waits for the client *)
  | Answered.   (* the client has the response *)

#[export] Instance slot_eq_dec : EqDecision slot.
Proof. solve_decision. Defined.

Definition slots : Type := Z -> slot.
Definition move (i : Z) (s : slot) (sl : slots) : slots := fun j => if j =? i then s else sl j.

Definition is_slot (i : Z) : Prop := 0 <= i < SHM_MESSAGE_COUNT.

(** What the protocol keeps true of a block that is in use: its statistics
    can be recorded, and a request that was made ready has a number. *)
Record block_in_use (s : slot) (b : fincomm_message_block) : Prop := {
  bu_type : if RequestClass (Stats (Data b)) =? FINESSE_FUSE_MESSAGE
            then valid_fuse_type (RequestType (Stats (Data b))) = true
            else valid_native_type (RequestType (Stats (Data b))) = true;
  bu_times : normal_stats (Stats (Data b));
  bu_started : 0 < tv_sec (RequestStartTime (Stats (Data b)));
  bu_number : s <> Allocated -> RequestId b <> 0 }.

Record represents (base : Z) (w : world) (sl : slots) : Prop := {
  rp_signature : Signature (shm w) = FinesseSharedMemoryRegionSignature;
  rp_base : 0 < base /\ base + SHM_PAGE_SIZE * 65 < 2 ^ 64;
  rp_running : ShutdownRequested (shm w) = 0;
  rp_last : in_word 32 (LastBufferAllocated (shm w));
  rp_alloc_word : in_word 64 (AllocationBitmap (shm w));
  rp_request_word : in_word 64 (RequestBitmap (shm w));
  rp_response_word : in_word 64 (ResponseBitmap (shm w));
  rp_alloc : forall i, is_slot i -> Z.testbit (AllocationBitmap (shm w)) i = bool_decide (sl i <> Free);
  rp_request : forall i, is_slot i -> Z.testbit (RequestBitmap (shm w)) i = bool_decide (sl i = Ready);
  rp_response : forall i, is_slot i -> Z.testbit (ResponseBitmap (shm w)) i = bool_decide (sl i = Responded);
  rp_length : length (Messages (shm w)) = 64%nat;
  rp_blocks : forall i b, is_slot i -> sl i <> Free ->
    Messages (shm w) !! Z.to_nat i = Some b -> block_in_use (sl i) b;
  rp_calls : call_data_ok (calls w) }.

Lemma block_index_addr base i :
  0 < base /\ base + SHM_PAGE_SIZE * 65 < 2 ^ 64 -> is_slot i -> block_index base (block_addr base i) = i.
Proof.
  unfold block_index, block_addr, is_slot, SHM_PAGE_SIZE, SHM_MESSAGE_COUNT. intros Hb Hi.
  replace (base + 4096 * (1 + i) - base) with ((1 + i) * 4096) by lia.
  rewrite (wrap_small 64) by lia. rewrite Z.div_mul by lia. rewrite wrap_small by lia. lia.
Qed.

Lemma represents_block base w sl i :
  represents base w sl -> is_slot i -> exists b, Messages (shm w) !! Z.to_nat i = Some b.
Proof.
  intros H Hi. apply lookup_lt_is_Some_2. rewrite (rp_length _ _ _ H).
  unfold is_slot, SHM_MESSAGE_COUNT in Hi. lia.
Qed.

(** Moving one slot: its three bits and its block change, the rest does not. *)
Lemma represents_move base w w' sl i s b :
  represents base w sl -> is_slot i ->
  Signature (shm w') = Signature (shm w) ->
  ShutdownRequested (shm w') = ShutdownRequested (shm w) ->
  in_word 32 (LastBufferAllocated (shm w')) ->
  in_word 64 (AllocationBitmap (shm w')) -> in_word 64 (RequestBitmap (shm w')) ->
  in_word 64 (ResponseBitmap (shm w')) ->
  (forall j, is_slot j -> Z.testbit (AllocationBitmap (shm w')) j =
     if j =? i then bool_decide (s <> Free) else Z.testbit (AllocationBitmap (shm w)) j) ->
  (forall j, is_slot j -> Z.testbit (RequestBitmap (shm w')) j =
     if j =? i then bool_decide (s = Ready) else Z.testbit (RequestBitmap (shm w)) j) ->
  (forall j, is_slot j -> Z.testbit (ResponseBitmap (shm w')) j =
     if j =? i then bool_decide (s = Responded) else Z.testbit (ResponseBitmap (shm w)) j) ->
  Messages (shm w') = <[Z.to_nat i := b]> (Messages (shm w)) ->
  (s <> Free -> block_in_use s b) -> call_data_ok (calls w') ->
  represents base w' (move i s sl).
Proof.
  intros [] Hi Hsig Hsd Hlast Ha Hrq Hrs Ba Brq Brs Hm Hb Hc.
  constructor; try congruence; try done; unfold move.
  - intros j Hj. rewrite Ba by done. destruct (Z.eqb_spec j i); [done|by apply rp_alloc0].
  - intros j Hj. rewrite Brq by done. destruct (Z.eqb_spec j i); [done|by apply rp_request0].
  - intros j Hj. rewrite Brs by done. destruct (Z.eqb_spec j i); [done|by apply rp_response0].
  - rewrite Hm, length_insert. done.
  - intros j c Hj Hs Hl. rewrite Hm in Hl. unfold is_slot in *. destruct (Z.eqb_spec j i) as [->|Hne].
    + rewrite list_lookup_insert_eq in Hl by (rewrite rp_length0; unfold SHM_MESSAGE_COUNT in *; lia).
      injection Hl as <-. by apply Hb.
    + rewrite list_lookup_insert_ne in Hl by lia. by apply rp_blocks0.
Qed.

(** ** Messages are left alone

    The operations write the number of a block and its statistics, of which
    the start time stays; the rest of it belongs to the two sides. *)

Definition payload (b : fincomm_message_block) :=
  (blk_Result b, MessageType b, Version (Data b), MessageClass (Data b), Result (Data b),
   Type_ (Data b), Parameters (Data b), RequestStartTime (Stats (Data b))).

Definition same_payload (w w' : world) : Prop :=
  forall j, payload <$> Messages (shm w') !! j = payload <$> Messages (shm w) !! j.

Lemma same_payload_insert w w' i b b' :
  Messages (shm w) !! Z.to_nat i = Some b ->
  Messages (shm w') = <[Z.to_nat i := b']> (Messages (shm w)) ->
  payload b' = payload b -> same_payload w w'.
Proof.
  intros Hb Hm Hp j. rewrite Hm. destruct (decide (j = Z.to_nat i)) as [->|].
  - rewrite list_lookup_insert_eq by (by eapply lookup_lt_Some). rewrite Hb. by apply (f_equal Some).
  - by rewrite list_lookup_insert_ne.
Qed.

Lemma same_payload_refl w : same_payload w w.
Proof. by intros j. Qed.

Lemma same_payload_trans w1 w2 w3 : same_payload w1 w2 -> same_payload w2 w3 -> same_payload w1 w3.
Proof. intros H1 H2 j. by rewrite H2, H1. Qed.

Lemma same_payload_lookup w w' j b :
  same_payload w w' -> Messages (shm w) !! j = Some b ->
  exists b', Messages (shm w') !! j = Some b' /\ payload b' = payload b.
Proof.
  intros H Hb. specialize (H j). rewrite Hb in H.
  destruct (Messages (shm w') !! j) as [b'|]; [|discriminate H].
  exists b'. split; [done|]. exact (inj Some _ _ H).
Qed.

Lemma put_block_lookup i b b0 w :
  0 <= i -> Messages (shm w) !! Z.to_nat i = Some b0 ->
  Messages (shm (put_block i b w)) !! Z.to_nat i = Some b.
Proof. intros Hi Hb. apply list_lookup_insert_eq. by eapply lookup_lt_Some. Qed.


(** * Each operation on its slot *)

Definition valid_call (MessageClass_ MessageType_ : Z) : bool :=
  if MessageClass_ =? FINESSE_FUSE_MESSAGE then valid_fuse_type MessageType_
  else if MessageClass_ =? FINESSE_NATIVE_MESSAGE then valid_native_type MessageType_ else false.

Lemma init_request_run c t now b :
  valid_call c t = true -> normal now -> 0 < tv_sec now ->
  exists b', init_request c t now b = Done b' /\ block_in_use Allocated b' /\
    payload b' = (ENOSYS, FINESSE_REQUEST, FINESSE_MESSAGE_VERSION, c, Result (Data b), t,
                  Parameters (Data b), now).
Proof.
  unfold valid_call, init_request, FincommCallStatRequestStart. intros Hv Hn Hs.
  destruct (Z.eqb_spec c FINESSE_FUSE_MESSAGE) as [->|].
  - rewrite Hv. cbn. rewrite Hv. cbn. eexists. split; [reflexivity|]. split; [|done].
    constructor; simpl; [done| |done|done]. constructor; simpl; try done; apply normal_zero.
  - destruct (Z.eqb_spec c FINESSE_NATIVE_MESSAGE) as [->|]; [|done].
    rewrite Hv. cbn. rewrite Hv.
    assert ((t =? 0) = false) as ->.
    { unfold valid_native_type, FINESSE_NATIVE_REQ_BASE_TYPE in Hv. lia. }
    cbn. eexists. split; [reflexivity|]. split; [|done].
    constructor; simpl; [done| |done|done]. constructor; simpl; try done; apply normal_zero.
Qed.

Lemma signature_check base w sl :
  represents base w sl -> CHECK_SHM_SIGNATURE w = Done (tt, w).
Proof.
  intros H. unfold CHECK_SHM_SIGNATURE. rewrite field_bind, (rp_signature _ _ _ H).
  by rewrite bool_decide_true.
Qed.

Lemma base_not_null base w sl : represents base w sl -> negb (base =? NULL) = true.
Proof.
  intros H. destruct (rp_base _ _ _ H). unfold NULL. by destruct (Z.eqb_spec base 0); [lia|].
Qed.

Lemma choose_block base w sl :
  represents base w sl ->
  let bitmap := AllocationBitmap (shm w) in
  let index := u32 (LastBufferAllocated (shm w) + 1) mod SHM_MESSAGE_COUNT in
  let new_bitmap := Z.lor bitmap (make_mask64 index) in
  let choice := (if bitmap =? new_bitmap then scan_free 64 0 1
     else ok ← cas_AllocationBitmap bitmap new_bitmap;
          if (ok : bool) then mret index else scan_free 64 0 1) in
  (exists j, is_slot j /\ sl j = Free /\ choice w = Done (j, set_alloc (set_bit64 bitmap j) w)) \/
  ((forall j, is_slot j -> sl j <> Free) /\ choice w = Done (64, w)).
Proof.
  intros H bitmap index new_bitmap choice. unfold choice.
  assert (is_slot index) as Hi by (apply Z.mod_pos_bound; unfold SHM_MESSAGE_COUNT; lia).
  pose proof (rp_alloc_word _ _ _ H) as Hw. fold bitmap in Hw.
  assert (forall j, is_slot j -> Z.testbit bitmap j = bool_decide (sl j <> Free)) as Hbits
    by apply (rp_alloc _ _ _ H).
  unfold new_bitmap. fold (set_bit64 bitmap index).
  rewrite set_bit64_same by (done || (unfold is_slot, SHM_MESSAGE_COUNT in Hi; lia)).
  destruct (Z.testbit bitmap index) eqn:T.
  - change 1 with (make_mask64 0).
    destruct (scan_free_run 64 0 w Hw) as (j & Hj & Hk & [[-> Hr]|(Hlt & Hf & Hr)]); [lia..| |].
    + right. split; [|done]. intros j Hj'. specialize (Hk j Hj').
      change (Z.testbit bitmap j = true) in Hk. rewrite Hbits in Hk by done.
      by apply bool_decide_eq_true in Hk.
    + left. exists j. assert (is_slot j) as Hs by (unfold is_slot, SHM_MESSAGE_COUNT; lia).
      split; [done|]. split; [|done]. change (Z.testbit bitmap j = false) in Hf.
      rewrite Hbits in Hf by done. apply bool_decide_eq_false in Hf. by apply dec_stable.
  - left. exists index. split; [done|]. split.
    + rewrite Hbits in T by done. apply bool_decide_eq_false in T. by apply dec_stable.
    + erewrite M_bind_done by (rewrite cas_run; by rewrite Z.eqb_refl). done.
Qed.

Lemma FinesseGetRequestBuffer_run base w sl c t now :
  represents base w sl -> valid_call c t = true -> normal now -> 0 < tv_sec now ->
  (exists j w', is_slot j /\ sl j = Free /\
     FinesseGetRequestBuffer base c t now w = Done (block_addr base j, w') /\
     represents base w' (move j Allocated sl) /\
     exists b, Messages (shm w') !! Z.to_nat j = Some b /\ MessageType b = FINESSE_REQUEST /\
       MessageClass (Data b) = c /\ Type_ (Data b) = t /\ RequestStartTime (Stats (Data b)) = now) \/
  ((forall j, is_slot j -> sl j <> Free) /\ FinesseGetRequestBuffer base c t now w = Done (NULL, w)).
Proof.
  intros H Hv Hn Hs. unfold FinesseGetRequestBuffer.
  run_step ltac:(by eapply signature_check).
  rewrite c_assert_bind by (by eapply base_not_null).
  rewrite !field_bind.
  destruct (choose_block base w sl H) as [(j & Hj & Hfree & Hr)|[Hfull Hr]].
  - left. run_step ltac:(exact Hr).
    destruct (Z.ltb_spec j SHM_MESSAGE_COUNT) as [_|]; [|unfold is_slot in Hj; lia].
    unfold set_LastBufferAllocated. rewrite on_region_bind, field_bind.
    cbn [shm calls set_alloc with_counters with_bitmaps RequestBitmap].
    rewrite c_assert_bind.
    2:{ rewrite land_mask_zero by (apply (rp_request_word _ _ _ H) || apply Hj).
        rewrite (rp_request _ _ _ H) by done. by rewrite Hfree. }
    destruct (represents_block _ _ _ _ H Hj) as [b Hb].
    run_step ltac:(apply (load_block_run j b); [apply Hj|exact Hb]).
    destruct (init_request_run c t now b Hv Hn Hs) as (b' & Hb' & Hok & Hpay).
    run_step ltac:(unfold lift_outcome; by rewrite Hb').
    run_step ltac:(apply (store_block_run j b' b); [apply Hj|exact Hb]).
    eexists j, _. split; [done|]. split; [done|]. split; [reflexivity|]. split; cycle 1.
    { exists b'. split; [by eapply put_block_lookup; [apply Hj|exact Hb]|]. unfold payload in Hpay. by simplify_eq. }
    eapply (represents_move base w _ sl j Allocated b'); try done; try apply H.
    + cbn. unfold is_slot, SHM_MESSAGE_COUNT in Hj. unfold in_word. lia.
    + cbn. apply in_word_set_bit64, H.
    + cbn. intros k Hk. rewrite set_bit64_spec by (apply Hj || apply Hk).
      by destruct (Z.eqb_spec k j).
    + cbn. intros k Hk. destruct (Z.eqb_spec k j) as [->|]; [|done].
      rewrite (rp_request _ _ _ H) by done. by rewrite Hfree.
    + cbn. intros k Hk. destruct (Z.eqb_spec k j) as [->|]; [|done].
      rewrite (rp_response _ _ _ H) by done. by rewrite Hfree.
  - right. split; [done|]. by run_step ltac:(exact Hr).
Qed.

Definition set_number (n : Z) (w : world) : world :=
  {| shm := with_counters (LastBufferAllocated (shm w)) n (ShutdownRequested (shm w)) (shm w);
     calls := calls w |}.

(** A request number is never 0, even when the counter wraps. *)
Lemma get_request_number_run w :
  exists n m, get_request_number w = Done (n, set_number m w) /\ n <> 0 /\
    (next_RequestId (shm w) <> 0 -> n = next_RequestId (shm w) /\ m = u64 (n + 1)).
Proof.
  unfold get_request_number.
  destruct (Z.eqb_spec (next_RequestId (shm w)) 0) as [E|E].
  - exists 1, 2. split; [|done].
    assert (request_number_loop 3 0 w = Done (1, set_number 2 w)) as R.
    { cbn. unfold mbind, M_bind, field, gets, mret, M_ret. cbn. by rewrite E. }
    by run_step ltac:(exact R).
  - exists (next_RequestId (shm w)), (u64 (next_RequestId (shm w) + 1)). split; [|done].
    assert (request_number_loop 3 0 w = Done (next_RequestId (shm w),
      set_number (u64 (next_RequestId (shm w) + 1)) w)) as R.
    { cbn. unfold mbind, M_bind, field, gets, mret, M_ret. cbn.
      by destruct (Z.eqb_spec (next_RequestId (shm w)) 0). }
    run_step ltac:(exact R).
    by rewrite c_assert_bind by (by destruct (Z.eqb_spec (next_RequestId (shm w)) 0)).
Qed.

Lemma is_slot_word i : is_slot i -> 0 <= i < 64.
Proof. done. Qed.

Lemma shift_ok_bind {B} i (k : unit -> M world B) w : is_slot i -> (shift_ok i ≫= k) w = k tt w.
Proof. intros Hi%is_slot_word. unfold shift_ok. by destruct (Z.ltb_spec i 64); [|lia]. Qed.

Lemma block_in_use_number s s' n b :
  block_in_use s b -> n <> 0 -> block_in_use s' (set_RequestId n b).
Proof. intros [] Hn. by constructor. Qed.

Lemma block_in_use_keep s s' b b' :
  block_in_use s b -> s <> Allocated -> RequestId b' = RequestId b ->
  RequestClass (Stats (Data b')) = RequestClass (Stats (Data b)) ->
  RequestType (Stats (Data b')) = RequestType (Stats (Data b)) ->
  RequestStartTime (Stats (Data b')) = RequestStartTime (Stats (Data b)) ->
  normal_stats (Stats (Data b')) -> block_in_use s' b'.
Proof. intros [] Hs Hi Hc Ht Hst Hn. constructor; rewrite ?Hi, ?Hc, ?Ht, ?Hst; auto. Qed.

Lemma put_put i b b' w : put_block i b' (put_block i b w) = put_block i b' w.
Proof. unfold put_block, with_Messages. cbn. by rewrite list_insert_insert_eq. Qed.

Lemma FinesseRequestReady_run base w sl i now :
  represents base w sl -> is_slot i -> sl i = Allocated -> normal now ->
  exists id w', FinesseRequestReady base (block_addr base i) now w = Done (id, w') /\
    id <> 0 /\ represents base w' (move i Ready sl) /\ same_payload w w'.
Proof.
  intros H Hi Ha Hn. unfold FinesseRequestReady.
  rewrite block_index_addr by (apply H || done).
  run_step ltac:(by eapply signature_check).
  rewrite c_assert_bind by apply Z.eqb_refl. rewrite field_bind, shift_ok_bind by done.
  rewrite land_mask_zero by (apply H || done). rewrite (rp_alloc _ _ _ H), Ha by done. cbn [negb bool_decide].
  rewrite bool_decide_true by done. cbn [negb].
  destruct (get_request_number_run w) as (id & m & Hr & Hid & _). run_step ltac:(exact Hr).
  destruct (represents_block _ _ _ _ H Hi) as [b Hb].
  run_step ltac:(apply (update_block_run i _ b); [apply Hi|exact Hb]).
  run_step ltac:(eapply update_block_run; [apply Hi|by eapply put_block_lookup; [apply Hi|exact Hb]]).
  rewrite put_put, field_bind. cbn [shm put_block set_number with_Messages with_counters RequestBitmap].
  rewrite c_assert_bind.
  2:{ rewrite land_mask_zero by (apply H || done). by rewrite (rp_request _ _ _ H), Ha by done. }
  unfold set_RequestBitmap. rewrite on_region_bind.
  eexists id, _. split; [reflexivity|]. split; [done|].
  split; [|by eapply (same_payload_insert w _ i b); [exact Hb|reflexivity|]].
  eapply (represents_move base w _ sl i Ready); try done; try apply H.
  - cbn. apply in_word_set_bit64, H.
  - cbn. intros k Hk. destruct (Z.eqb_spec k i) as [->|]; [|done].
    by rewrite (rp_alloc _ _ _ H), Ha by done.
  - cbn. intros k Hk. fold (set_bit64 (RequestBitmap (shm w)) i).
    rewrite set_bit64_spec by (apply Hi || apply Hk). by destruct (Z.eqb_spec k i).
  - cbn. intros k Hk. destruct (Z.eqb_spec k i) as [->|]; [|done].
    by rewrite (rp_response _ _ _ H), Ha by done.
  - intros _. pose proof (rp_blocks _ _ _ H i b Hi ltac:(by rewrite Ha) Hb) as Hu.
    apply (block_in_use_keep Ready _ (set_RequestId id b)); try done.
    + by eapply block_in_use_number.
    + destruct (bu_times _ _ Hu). by constructor.
Qed.

(** A block that is not allocated is refused, with number 0. *)
Lemma FinesseRequestReady_free base w sl i now :
  represents base w sl -> is_slot i -> sl i = Free ->
  FinesseRequestReady base (block_addr base i) now w = Done (0, w).
Proof.
  intros H Hi Ha. unfold FinesseRequestReady.
  rewrite block_index_addr by (apply H || done).
  run_step ltac:(by eapply signature_check).
  rewrite c_assert_bind by apply Z.eqb_refl. rewrite field_bind, shift_ok_bind by done.
  rewrite land_mask_zero by (apply H || done). by rewrite (rp_alloc _ _ _ H), Ha by done.
Qed.

Lemma find_ready base w sl rnd :
  represents base w sl -> 0 <= rnd < 64 -> RequestBitmap (shm w) <> 0 ->
  exists i, is_slot i /\ sl i = Ready /\
    ready_loop 1 rnd w = Done ((0, i, RequestBitmap (shm w)),
      {| shm := with_bitmaps (AllocationBitmap (shm w)) (clear_bit64 (RequestBitmap (shm w)) i)
                  (ResponseBitmap (shm w)) (shm w); calls := calls w |}).
Proof.
  intros H Hr Hn. unfold ready_loop. rewrite field_bind, (rp_running _ _ _ H). cbn [negb Z.eqb].
  rewrite field_bind. destruct (Z.eqb_spec (RequestBitmap (shm w)) 0); [done|].
  assert (forall j, is_slot j -> Z.testbit (RequestBitmap (shm w)) j = true -> sl j = Ready) as Hsl.
  { intros j Hj T. rewrite (rp_request _ _ _ H) in T by done. by apply bool_decide_eq_true in T. }
  pose proof (rp_request_word _ _ _ H) as Hw.
  destruct (find_request_run (Z.to_nat (SHM_MESSAGE_COUNT - rnd)) rnd (RequestBitmap (shm w)) Hw)
    as (j & -> & Hj & Hk & Ht); [unfold SHM_MESSAGE_COUNT; lia..|].
  unfold SHM_MESSAGE_COUNT in *. destruct (Z.ltb_spec j 64).
  - exists j. split; [unfold is_slot, SHM_MESSAGE_COUNT; lia|]. split; [|done].
    apply Hsl; [unfold is_slot, SHM_MESSAGE_COUNT; lia|apply Ht; lia].
  - change 1 with (make_mask64 0).
    destruct (find_request_run (Z.to_nat rnd) 0 (RequestBitmap (shm w)) Hw)
      as (i & -> & Hi & Hk' & Ht'); [lia..|].
    destruct (Z.ltb_spec i rnd).
    + exists i. split; [unfold is_slot, SHM_MESSAGE_COUNT; lia|]. split; [|done].
      apply Hsl; [unfold is_slot, SHM_MESSAGE_COUNT; lia|apply Ht'; lia].
    + exfalso. apply Hn, zero_bitmap; [done|]. intros k Hk''.
      destruct (Z.lt_ge_cases k rnd); [apply Hk'|apply Hk]; lia.
Qed.

Lemma FinesseGetReadyRequest_run base w sl rnd now :
  represents base w sl -> normal now ->
  (exists i w', is_slot i /\ sl i = Ready /\
     FinesseGetReadyRequest base rnd now w = Done ((0, block_addr base i), w') /\
     represents base w' (move i Taken sl) /\ same_payload w w') \/
  ((forall i, is_slot i -> sl i <> Ready) /\
     FinesseGetReadyRequest base rnd now w = Done ((ENOENT, NULL), w)).
Proof.
  intros H Hn. unfold FinesseGetReadyRequest.
  assert (0 <= rnd mod SHM_MESSAGE_COUNT < 64) as Hr by (apply Z.mod_pos_bound; done).
  rewrite c_assert_bind by (unfold SHM_MESSAGE_COUNT in *; lia).
  destruct (Z.eqb_spec (RequestBitmap (shm w)) 0) as [E|E].
  - right. split.
    + intros i Hi Hs. pose proof (rp_request _ _ _ H i Hi) as T. by rewrite E, Hs, Z.testbit_0_l in T.
    + erewrite M_bind_done; cycle 1.
      { unfold ready_loop. rewrite field_bind, (rp_running _ _ _ H). cbn [negb Z.eqb].
        rewrite field_bind, E. reflexivity. }
      reflexivity.
  - left. destruct (find_ready base w sl _ H Hr E) as (i & Hi & Hs & Hl). exists i.
    run_step ltac:(exact Hl). cbv beta iota. pose proof (is_slot_word i Hi).
    assert (Z.testbit (RequestBitmap (shm w)) i = true) as T by (by rewrite (rp_request _ _ _ H), Hs).
    rewrite c_assert_bind.
    2:{ destruct (Z.ltb_spec i SHM_MESSAGE_COUNT); [|done].
        rewrite land_mask_zero by (apply H || done). by rewrite T. }
    cbn [Z.eqb]. rewrite c_assert_bind by (unfold SHM_MESSAGE_COUNT; lia).
    destruct (represents_block _ _ _ _ H Hi) as [b Hb].
    run_step ltac:(apply (load_block_run i b); [lia|exact Hb]).
    pose proof (rp_blocks _ _ _ H i b Hi ltac:(by rewrite Hs) Hb) as Hu. rewrite Hs in Hu.
    rewrite c_assert_bind.
    2:{ pose proof (bu_number _ _ Hu ltac:(done)). by destruct (Z.eqb_spec (RequestId b) 0). }
    run_step ltac:(apply (update_block_run i _ b); [lia|exact Hb]).
    eexists. split; [done|]. split; [done|]. split; [reflexivity|].
    split; [|by eapply (same_payload_insert w _ i b); [exact Hb|reflexivity|]].
    eapply (represents_move base w _ sl i Taken); try done; try apply H.
    + cbn. apply in_word_clear_bit64, H.
    + cbn. intros k Hk. destruct (Z.eqb_spec k i) as [->|]; [|done].
      by rewrite (rp_alloc _ _ _ H), Hs by done.
    + cbn. intros k Hk. rewrite clear_bit64_spec by (apply Hi || apply Hk).
      by destruct (Z.eqb_spec k i).
    + cbn. intros k Hk. destruct (Z.eqb_spec k i) as [->|]; [|done].
      by rewrite (rp_response _ _ _ H), Hs by done.
    + intros _. apply (block_in_use_keep Ready _ b); try done.
      destruct (bu_times _ _ Hu). by constructor.
Qed.

Lemma FinesseResponseReady_run base w sl i now :
  represents base w sl -> is_slot i -> sl i = Taken -> normal now ->
  exists w', FinesseResponseReady base (block_addr base i) now w = Done (tt, w') /\
    represents base w' (move i Responded sl) /\ same_payload w w'.
Proof.
  intros H Hi Hs Hn. unfold FinesseResponseReady.
  rewrite block_index_addr by (apply H || done).
  rewrite c_assert_bind by apply Z.eqb_refl. run_step ltac:(by eapply signature_check).
  destruct (represents_block _ _ _ _ H Hi) as [b Hb].
  run_step ltac:(apply (update_block_run i _ b); [apply Hi|exact Hb]).
  rewrite field_bind, shift_ok_bind by done. cbn [shm put_block with_Messages ResponseBitmap].
  rewrite c_assert_bind.
  2:{ rewrite land_mask_zero by (apply H || done). by rewrite (rp_response _ _ _ H), Hs by done. }
  eexists. split; [reflexivity|]. split; [|by eapply (same_payload_insert w _ i b); [exact Hb|reflexivity|]].
  eapply (represents_move base w _ sl i Responded); try done; try apply H.
  - cbn. apply in_word_set_bit64, H.
  - cbn. intros k Hk. destruct (Z.eqb_spec k i) as [->|]; [|done].
    by rewrite (rp_alloc _ _ _ H), Hs by done.
  - cbn. intros k Hk. destruct (Z.eqb_spec k i) as [->|]; [|done].
    by rewrite (rp_request _ _ _ H), Hs by done.
  - cbn. intros k Hk. fold (set_bit64 (ResponseBitmap (shm w)) i).
    rewrite set_bit64_spec by (apply Hi || apply Hk). by destruct (Z.eqb_spec k i).
  - intros _. pose proof (rp_blocks _ _ _ H i b Hi ltac:(by rewrite Hs) Hb) as Hu. rewrite Hs in Hu.
    apply (block_in_use_keep Taken _ b); try done. destruct (bu_times _ _ Hu). by constructor.
Qed.

Lemma addr_not_null base w sl i :
  represents base w sl -> is_slot i -> negb (block_addr base i =? NULL) = true.
Proof.
  intros H Hi. destruct (rp_base _ _ _ H). unfold block_addr, NULL, SHM_PAGE_SIZE, is_slot in *.
  by destruct (Z.eqb_spec (base + 4096 * (1 + i)) 0); [lia|].
Qed.

Lemma FinesseGetResponse_run base w sl i wait now :
  represents base w sl -> is_slot i -> sl i = Responded -> normal now ->
  exists w', FinesseGetResponse base (block_addr base i) wait now w = Done (1, w') /\
    represents base w' (move i Answered sl) /\ same_payload w w'.
Proof.
  intros H Hi Hs Hn. unfold FinesseGetResponse.
  rewrite block_index_addr by (apply H || done).
  run_step ltac:(by eapply signature_check).
  rewrite c_assert_bind by apply Z.eqb_refl.
  rewrite c_assert_bind by (by eapply base_not_null).
  rewrite c_assert_bind by (by eapply addr_not_null).
  rewrite field_bind, shift_ok_bind by done.
  rewrite land_mask_zero by (apply H || done).
  rewrite (rp_response _ _ _ H), Hs by done. rewrite bool_decide_true by done. cbn [negb].
  fold (clear_bit64 (ResponseBitmap (shm w)) i).
  set (w1 := {| shm := with_bitmaps (AllocationBitmap (shm w)) (RequestBitmap (shm w))
                  (clear_bit64 (ResponseBitmap (shm w)) i) (shm w); calls := calls w |}).
  erewrite M_bind_done by (instantiate (1 := w1); instantiate (1 := 1); by destruct (wait =? 0)).
  destruct (represents_block _ _ _ _ H Hi) as [b Hb].
  run_step ltac:(apply (update_block_run i _ b); [apply Hi|exact Hb]).
  eexists. split; [reflexivity|]. split; [|by eapply (same_payload_insert w _ i b); [exact Hb|reflexivity|]].
  eapply (represents_move base w _ sl i Answered); try done; try apply H.
  - cbn. apply in_word_clear_bit64, H.
  - cbn. intros k Hk. destruct (Z.eqb_spec k i) as [->|]; [|done].
    by rewrite (rp_alloc _ _ _ H), Hs by done.
  - cbn. intros k Hk. destruct (Z.eqb_spec k i) as [->|]; [|done].
    by rewrite (rp_request _ _ _ H), Hs by done.
  - cbn. intros k Hk. rewrite clear_bit64_spec by (apply Hi || apply Hk).
    by destruct (Z.eqb_spec k i).
  - intros _. pose proof (rp_blocks _ _ _ H i b Hi ltac:(by rewrite Hs) Hb) as Hu. rewrite Hs in Hu.
    apply (block_in_use_keep Responded _ b); try done. destruct (bu_times _ _ Hu). by constructor.
Qed.

(** Without a response, polling says so; waiting blocks. *)
Lemma FinesseGetResponse_none base w sl i wait now :
  represents base w sl -> is_slot i -> sl i <> Responded ->
  FinesseGetResponse base (block_addr base i) wait now w =
    if wait =? 0 then
      match Messages (shm w) !! Z.to_nat i with
      | Some b => Done (0, put_block i (FincommCallStatDequeueResponse now b) w)
      | None => Fail BadPointer
      end
    else Fail Blocked.
Proof.
  intros H Hi Hs. unfold FinesseGetResponse.
  rewrite block_index_addr by (apply H || done).
  run_step ltac:(by eapply signature_check).
  rewrite c_assert_bind by apply Z.eqb_refl.
  rewrite c_assert_bind by (by eapply base_not_null).
  rewrite c_assert_bind by (by eapply addr_not_null).
  rewrite field_bind, shift_ok_bind by done.
  rewrite land_mask_zero by (apply H || done).
  rewrite (rp_response _ _ _ H) by done. rewrite bool_decide_false by done. cbn [negb].
  destruct (wait =? 0); [|done]. rewrite mret_bind.
  destruct (represents_block _ _ _ _ H Hi) as [b Hb]. rewrite Hb.
  by run_step ltac:(apply (update_block_run i _ b); [apply Hi|exact Hb]).
Qed.

(** What the recording of the statistics needs from the clock. *)
Definition answered_within_the_hour (now : timespec) (b : fincomm_message_block) : Prop :=
  tv_sec (timespec_diff (RequestStartTime (Stats (Data b))) now) <= 3600.

Lemma FinesseReleaseRequestBuffer_run base w sl i b now :
  represents base w sl -> is_slot i -> (sl i = Allocated \/ sl i = Answered) -> normal now ->
  Messages (shm w) !! Z.to_nat i = Some b -> answered_within_the_hour now b ->
  exists w', FinesseReleaseRequestBuffer base (block_addr base i) now w = Done (tt, w') /\
    represents base w' (move i Free sl).
Proof.
  intros H Hi Hs Hn Hb Hrec. unfold FinesseReleaseRequestBuffer.
  assert (sl i <> Free) as Hnf by (by destruct Hs as [-> | ->]).
  rewrite block_index_addr by (apply H || done). cbv zeta.
  rewrite c_assert_bind by (by eapply base_not_null).
  rewrite c_assert_bind by (by apply Z.ltb_lt, Hi).
  rewrite c_assert_bind by (by eapply addr_not_null).
  rewrite Z.eqb_refl.
  run_step ltac:(apply (update_block_run i _ b); [apply Hi|exact Hb]).
  rewrite field_bind. cbn [shm put_block with_Messages AllocationBitmap].
  fold (clear_bit64 (AllocationBitmap (shm w)) i).
  rewrite c_assert_bind.
  2:{ rewrite clear_bit64_same by (apply H || done). rewrite (rp_alloc _ _ _ H) by done.
      by rewrite bool_decide_true. }
  rewrite c_assert_bind by done.
  run_step ltac:(eapply update_block_run; [apply Hi|by eapply put_block_lookup; [apply Hi|exact Hb]]).
  rewrite put_put.
  run_step ltac:(eapply load_block_run; [apply Hi|by eapply put_block_lookup; [apply Hi|exact Hb]]).
  pose proof (rp_blocks _ _ _ H i b Hi Hnf Hb) as [Bt Bn Bs _].
  set (b' := FincommCallStatCompleteRequest now (set_RequestId 0 b)).
  assert (recordable (Data b')) as Hrc.
  { constructor; try done. destruct Bn. by constructor. }
  destruct (FincommRecordStats_run (Data b') (calls w)) as (d' & Hd & Hok); [apply H|done|].
  unfold get_state. unfold mbind at 1, M_bind at 1. cbn [calls put_block].
  run_step ltac:(unfold lift_outcome; by rewrite Hd).
  unfold modify_state. unfold mbind at 1, M_bind at 1.
  eexists. split.
  { unfold release_loop. erewrite M_bind_done by (rewrite cas_run; cbn; by rewrite Z.eqb_refl). reflexivity. }
  eapply (represents_move base w _ sl i Free b'); try done; try apply H.
  - cbn. apply in_word_clear_bit64, H.
  - cbn. intros k Hk. rewrite clear_bit64_spec by (apply Hi || apply Hk).
    by destruct (Z.eqb_spec k i).
  - cbn. intros k Hk. destruct (Z.eqb_spec k i) as [->|]; [|done].
    rewrite (rp_request _ _ _ H) by done. by destruct Hs as [-> | ->].
  - cbn. intros k Hk. destruct (Z.eqb_spec k i) as [->|]; [|done].
    rewrite (rp_response _ _ _ H) by done. by destruct Hs as [-> | ->].
Qed.

(** * The protocol

    The commands of the two sides, what the life cycle allows, and what it
    says a command answers and does. *)

Inductive command : Type :=
  | GetRequestBuffer (MessageClass_ MessageType_ : Z) (now : timespec)
  | WriteMessage (i : Z) (f : fincomm_message_block -> fincomm_message_block)
  | RequestReady (i : Z) (now : timespec)
  | GetReadyRequest (random_ : Z) (now : timespec)
  | ResponseReady (i : Z) (now : timespec)
  | GetResponse (i wait : Z) (now : timespec)
  | ReleaseRequestBuffer (i : Z) (now : timespec).

(** The int and the pointer a command gives back (0 where there is none). *)
Definition run_command (base : Z) (c : command) : M world (Z * ptr) :=
  match c with
  | GetRequestBuffer c t now => p ← FinesseGetRequestBuffer base c t now; mret (0, p)
  | WriteMessage i f => update_block i f;; mret (0, NULL)
  | RequestReady i now => n ← FinesseRequestReady base (block_addr base i) now; mret (n, NULL)
  | GetReadyRequest r now => FinesseGetReadyRequest base r now
  | ResponseReady i now => FinesseResponseReady base (block_addr base i) now;; mret (0, NULL)
  | GetResponse i wait now =>
      s ← FinesseGetResponse base (block_addr base i) wait now; mret (s, NULL)
  | ReleaseRequestBuffer i now => FinesseReleaseRequestBuffer base (block_addr base i) now;; mret (0, NULL)
  end.

(** A command its caller may issue: the client writes and readies a block it
    allocated and releases it before it was made ready or after it was
    answered; the server writes and answers a block it took.  A caller that
    waits does so for a response that has arrived. *)
Definition allowed (w : world) (sl : slots) (c : command) : Prop :=
  match c with
  | GetRequestBuffer c t now => valid_call c t = true /\ normal now /\ 0 < tv_sec now
  | WriteMessage i f =>
      is_slot i /\ (sl i = Allocated \/ sl i = Taken) /\
      forall b, RequestId (f b) = RequestId b /\ Stats (Data (f b)) = Stats (Data b)
  | RequestReady i now => is_slot i /\ (sl i = Allocated \/ sl i = Free) /\ normal now
  | GetReadyRequest _ now => normal now
  | ResponseReady i now => is_slot i /\ sl i = Taken /\ normal now
  | GetResponse i wait now =>
      is_slot i /\ sl i <> Free /\ (sl i = Allocated -> wait <> 0) /\
      (wait <> 0 -> sl i = Responded) /\ normal now
  | ReleaseRequestBuffer i now =>
      is_slot i /\ (sl i = Allocated \/ sl i = Answered) /\ normal now /\
      forall b, Messages (shm w) !! Z.to_nat i = Some b -> answered_within_the_hour now b
  end.

(** What the protocol promises: the answer and the life cycle. *)
Inductive promised (base : Z) (sl : slots) : command -> Z * ptr -> slots -> Prop :=
  | promised_buffer c t now i :
      is_slot i -> sl i = Free ->
      promised base sl (GetRequestBuffer c t now) (0, block_addr base i) (move i Allocated sl)
  | promised_no_buffer c t now :
      (forall i, is_slot i -> sl i <> Free) ->
      promised base sl (GetRequestBuffer c t now) (0, NULL) sl
  | promised_write i f :
      promised base sl (WriteMessage i f) (0, NULL) (move i (sl i) sl)
  | promised_ready i now n :
      sl i = Allocated -> n <> 0 ->
      promised base sl (RequestReady i now) (n, NULL) (move i Ready sl)
  | promised_refused i now :
      sl i = Free -> promised base sl (RequestReady i now) (0, NULL) sl
  | promised_request r now i :
      is_slot i -> sl i = Ready ->
      promised base sl (GetReadyRequest r now) (0, block_addr base i) (move i Taken sl)
  | promised_no_request r now :
      (forall i, is_slot i -> sl i <> Ready) ->
      promised base sl (GetReadyRequest r now) (ENOENT, NULL) sl
  | promised_respond i now :
      sl i = Taken -> promised base sl (ResponseReady i now) (0, NULL) (move i Responded sl)
  | promised_response i wait now :
      sl i = Responded -> promised base sl (GetResponse i wait now) (1, NULL) (move i Answered sl)
  | promised_no_response i now :
      sl i <> Responded -> promised base sl (GetResponse i 0 now) (0, NULL) (move i (sl i) sl)
  | promised_release i now :
      promised base sl (ReleaseRequestBuffer i now) (0, NULL) (move i Free sl).

(** Changing the contents of a block in use keeps every slot where it is. *)
Lemma represents_write base w sl i b b' :
  represents base w sl -> is_slot i -> sl i <> Free ->
  Messages (shm w) !! Z.to_nat i = Some b ->
  (block_in_use (sl i) b -> block_in_use (sl i) b') ->
  represents base (put_block i b' w) (move i (sl i) sl).
Proof.
  intros H Hi Hf Hb Hu. eapply (represents_move base w _ sl i (sl i) b'); try done; try apply H.
  - cbn. intros k Hk. destruct (Z.eqb_spec k i) as [->|]; [by apply (rp_alloc _ _ _ H)|done].
  - cbn. intros k Hk. destruct (Z.eqb_spec k i) as [->|]; [by apply (rp_request _ _ _ H)|done].
  - cbn. intros k Hk. destruct (Z.eqb_spec k i) as [->|]; [by apply (rp_response _ _ _ H)|done].
  - intros _. apply Hu. by apply (rp_blocks _ _ _ H).
Qed.

Lemma block_in_use_receipt s now b :
  block_in_use s b -> normal now -> block_in_use s (FincommCallStatDequeueResponse now b).
Proof. intros [] Hn. constructor; try done. destruct bu_times0. by constructor. Qed.

(** One command of the life cycle: it runs to its end, no assertion fails,
    and its answer and the state it leaves are promised ones. *)
Lemma command_promised base w sl c :
  represents base w sl -> allowed w sl c ->
  exists r w' sl', run_command base c w = Done (r, w') /\ promised base sl c r sl' /\
    represents base w' sl'.
Proof.
  intros H Ha. destruct c as [c t now|i f|i now|rnd now|i now|i wait now|i now]; simpl in *.
  - destruct Ha as (Hv & Hn & Hs).
    destruct (FinesseGetRequestBuffer_run base w sl c t now H Hv Hn Hs)
      as [(j & w' & Hj & Hf & Hr & Hw & _)|[Hf Hr]].
    + eexists _, w', _. split; [by run_step eassumption|]. split; [by apply promised_buffer|done].
    + eexists _, w, sl. split; [by run_step eassumption|]. split; [by apply promised_no_buffer|done].
  - destruct Ha as (Hi & Hs & Hk). destruct (represents_block _ _ _ _ H Hi) as [b Hb].
    eexists _, _, _. split.
    { run_step ltac:(apply (update_block_run i f b); [apply Hi|exact Hb]). reflexivity. }
    split; [apply promised_write|]. eapply represents_write; [done|done| |exact Hb|].
    + by destruct Hs as [-> | ->].
    + destruct (Hk b) as [K1 K2]. intros []. constructor; rewrite ?K1, ?K2; done.
  - destruct Ha as (Hi & [Hs|Hs] & Hn).
    + destruct (FinesseRequestReady_run base w sl i now H Hi Hs Hn) as (n & w' & Hr & Hn0 & Hw & _).
      eexists _, w', _. split; [by run_step eassumption|]. split; [by apply promised_ready|done].
    + eexists _, w, sl. split; [run_step ltac:(by eapply FinesseRequestReady_free); reflexivity|].
      split; [by apply promised_refused|done].
  - destruct (FinesseGetReadyRequest_run base w sl rnd now H Ha) as [(i & w' & Hi & Hs & Hr & Hw & _)|[Hs Hr]].
    + eexists _, w', _. split; [exact Hr|]. split; [by apply promised_request|done].
    + eexists _, w, sl. split; [exact Hr|]. split; [by apply promised_no_request|done].
  - destruct Ha as (Hi & Hs & Hn).
    destruct (FinesseResponseReady_run base w sl i now H Hi Hs Hn) as (w' & Hr & Hw & _).
    eexists _, w', _. split; [by run_step eassumption|]. split; [by apply promised_respond|done].
  - destruct Ha as (Hi & Hf & _ & Hwait & Hn). destruct (decide (sl i = Responded)) as [Hs|Hs].
    + destruct (FinesseGetResponse_run base w sl i wait now H Hi Hs Hn) as (w' & Hr & Hw & _).
      eexists _, w', _. split; [by run_step eassumption|]. split; [by apply promised_response|done].
    + assert (wait = 0) as -> by (destruct (decide (wait = 0)); [done|exfalso; by apply Hs, Hwait]).
      destruct (represents_block _ _ _ _ H Hi) as [b Hb].
      eexists _, _, _. split.
      { run_step ltac:(rewrite (FinesseGetResponse_none base w sl i 0 now H Hi Hs); cbn; by rewrite Hb).
        reflexivity. }
      split; [by apply promised_no_response|]. eapply represents_write; [done|done|done|exact Hb|].
      intros Hu. by apply block_in_use_receipt.
  - destruct Ha as (Hi & Hs & Hn & Hh). destruct (represents_block _ _ _ _ H Hi) as [b Hb].
    destruct (FinesseReleaseRequestBuffer_run base w sl i b now H Hi Hs Hn Hb (Hh b Hb)) as (w' & Hr & Hw).
    eexists _, w', _. split; [by run_step eassumption|]. split; [by apply promised_release|done].
Qed.

(** The states a region goes through: it is initialised with nothing in use,
    then commands the life cycle allows run on it. *)
Inductive reachable (base : Z) : world -> slots -> Prop :=
  | reachable_init w0 client server w :
      0 < base -> base + SHM_PAGE_SIZE * 65 < 2 ^ 64 ->
      length (Messages (shm w0)) = 64%nat -> call_data_ok (calls w0) ->
      FinesseInitializeMemoryRegion base client server w0 = Done (0, w) ->
      reachable base w (fun _ => Free)
  | reachable_step w sl c r w' sl' :
      reachable base w sl -> allowed w sl c -> run_command base c w = Done (r, w') ->
      promised base sl c r sl' -> reachable base w' sl'.

Lemma represents_initial base client server w0 w :
  0 < base -> base + SHM_PAGE_SIZE * 65 < 2 ^ 64 ->
  length (Messages (shm w0)) = 64%nat -> call_data_ok (calls w0) ->
  FinesseInitializeMemoryRegion base client server w0 = Done (0, w) ->
  represents base w (fun _ => Free).
Proof.
  intros Hb Hb' Hl Hc. unfold FinesseInitializeMemoryRegion.
  rewrite c_assert_bind by (unfold NULL; by destruct (Z.eqb_spec base 0); [lia|]).
  rewrite on_region_bind. intros [= <-]. constructor; cbn; try done.
  - intros i Hi. by rewrite Z.testbit_0_l.
  - intros i Hi. by rewrite Z.testbit_0_l.
  - intros i Hi. by rewrite Z.testbit_0_l.
Qed.

Lemma block_addr_inj base i j : block_addr base i = block_addr base j -> i = j.
Proof. unfold block_addr, SHM_PAGE_SIZE. lia. Qed.

Lemma block_addr_null base i : 0 < base -> is_slot i -> block_addr base i <> NULL.
Proof. unfold block_addr, NULL, SHM_PAGE_SIZE, is_slot. lia. Qed.

(** A command and its answer determine what the life cycle does. *)
Lemma promised_det base w sl c r sl1 sl2 :
  0 < base -> allowed w sl c -> promised base sl c r sl1 -> promised base sl c r sl2 ->
  forall i, sl1 i = sl2 i.
Proof.
  intros Hb _ H1 H2 k.
  destruct H1; inversion H2; subst; try done;
    repeat match goal with
    | H : block_addr _ _ = block_addr _ _ |- _ => apply block_addr_inj in H as ->
    | H : block_addr _ _ = NULL |- _ => exfalso; by eapply block_addr_null in H
    | H : NULL = block_addr _ _ |- _ => exfalso; symmetry in H; by eapply block_addr_null in H
    end; done.
Qed.

Lemma represents_ext base w sl sl' :
  (forall i, sl i = sl' i) -> represents base w sl -> represents base w sl'.
Proof.
  intros He []. constructor; try done; intros i; rewrite <- ?He; eauto.
Qed.

Lemma reachable_represents base w sl : reachable base w sl -> represents base w sl.
Proof.
  induction 1 as [|w sl c r w' sl' _ IH Ha Hr Hp]; [by eapply represents_initial|].
  destruct (command_promised base w sl c IH Ha) as (r1 & w1 & sl1 & Hr1 & Hp1 & Hw1).
  rewrite Hr in Hr1. simplify_eq. eapply represents_ext; [|exact Hw1].
  eapply promised_det; [apply IH|exact Ha|done..].
Qed.

(** C18: The protocol is safe: from the initialisation on, whatever commands the
    life cycle allows the two sides issue, in whatever order, each runs to
    its end with every assertion of the code true, answers what the life
    cycle promises (a request buffer whenever one is free, a waiting request
    whenever there is one, a number that is not 0) and leaves a region that
    represents the new life cycle. *)
Theorem region_refines_protocol base w sl c :
  reachable base w sl -> allowed w sl c ->
  exists r w' sl', run_command base c w = Done (r, w') /\ promised base sl c r sl' /\
    reachable base w' sl' /\ represents base w' sl'.
Proof.
  intros Hre Ha.
  destruct (command_promised base w sl c) as (r & w' & sl' & Hr & Hp & Hw);
    [by apply reachable_represents|done|].
  exists r, w', sl'. split; [done|]. split; [done|]. split; [by eapply reachable_step|done].
Qed.

(** In every reachable region a block is in one bitmap of waiting messages
    at most, and only while it is allocated. *)
Theorem bitmaps_exclusive base w sl i :
  reachable base w sl -> is_slot i ->
  let a := Z.testbit (AllocationBitmap (shm w)) i in
  let q := Z.testbit (RequestBitmap (shm w)) i in
  let p := Z.testbit (ResponseBitmap (shm w)) i in
  implb q a = true /\ implb p a = true /\ q && p = false.
Proof.
  intros H%reachable_represents Hi. cbv zeta.
  rewrite (rp_alloc _ _ _ H), (rp_request _ _ _ H), (rp_response _ _ _ H) by done.
  by destruct (sl i).
Qed.

(** A fresh region at a page of its own. *)
Definition blank_stats : msg_stats :=
  {| RequestClass := 0; RequestType := 0; RequestStartTime := zero_time;
     RequestQueueTime := zero_time; RequestDequeueTime := zero_time;
     ResponseQueueTime := zero_time; ResponseReceiptTime := zero_time;
     RequestCompletionTime := zero_time |}.

Definition blank_block : fincomm_message_block :=
  {| RequestId := 0; blk_Result := 0; MessageType := 0;
     Data := {| Version := 0; MessageClass := 0; Result := 0; Stats := blank_stats;
                Type_ := 0; Parameters := NoParams |} |}.

Definition blank_world : world :=
  {| shm := {| Signature := []; ClientId := 0; ServerId := 0; RequestBitmap := 0;
               RequestWaiters := 0; ResponseBitmap := 0; LastBufferAllocated := 0;
               AllocationBitmap := 0; next_RequestId := 0; ShutdownRequested := 0;
               Messages := replicate 64 blank_block |};
     calls := initial_call_data |}.

Definition example_base : Z := 0x10000.

Definition fresh_world : world :=
  match FinesseInitializeMemoryRegion example_base 11 12 blank_world with
  | Done (_, w) => w
  | Fail _ => blank_world
  end.

Lemma fresh_reachable : reachable example_base fresh_world (fun _ => Free).
Proof.
  apply (reachable_init example_base blank_world 11 12); try done.
  apply call_data_ok_initial.
Qed.

Definition clock (s : Z) : timespec := {| tv_sec := s; tv_nsec := 0 |}.

(** The first command of a client: a buffer for a name map request. *)
Lemma region_refines_protocol_witness :
  exists r w' sl',
    run_command example_base (GetRequestBuffer FINESSE_NATIVE_MESSAGE 1026 (clock 5)) fresh_world =
      Done (r, w') /\
    promised example_base (fun _ => Free) (GetRequestBuffer FINESSE_NATIVE_MESSAGE 1026 (clock 5)) r sl' /\
    reachable example_base w' sl' /\ represents example_base w' sl'.
Proof.
  apply region_refines_protocol; [apply fresh_reachable|].
  split; [reflexivity|]. split; [unfold normal; simpl; lia|simpl; lia].
Defined.

Lemma bitmaps_exclusive_witness :
  let a := Z.testbit (AllocationBitmap (shm fresh_world)) 3 in
  let q := Z.testbit (RequestBitmap (shm fresh_world)) 3 in
  let p := Z.testbit (ResponseBitmap (shm fresh_world)) 3 in
  implb q a = true /\ implb p a = true /\ q && p = false.
Proof. apply (bitmaps_exclusive example_base fresh_world (fun _ => Free) 3 fresh_reachable). done. Defined.

(** A whole call, by evaluation: the request of a client is taken, answered
    and received, the block is free again, and the next call gets the next
    block. *)
Definition one_call : M world (list (Z * ptr)) :=
  a ← run_command example_base (GetRequestBuffer FINESSE_NATIVE_MESSAGE 1026 (clock 5));
  b ← run_command example_base (RequestReady 0 (clock 6));
  c ← run_command example_base (GetReadyRequest 40 (clock 7));
  d ← run_command example_base (ResponseReady 0 (clock 8));
  e ← run_command example_base (GetResponse 0 1 (clock 9));
  f ← run_command example_base (ReleaseRequestBuffer 0 (clock 10));
  g ← run_command example_base (GetRequestBuffer FINESSE_FUSE_MESSAGE 44 (clock 11));
  mret [a; b; c; d; e; f; g].

Example one_call_runs :
  match one_call fresh_world with
  | Done (l, w) => (l, AllocationBitmap (shm w)) =
      ([(0, example_base + 4096); (2 ^ 64 - 10, 0); (0, example_base + 4096); (0, 0); (1, 0);
        (0, 0); (0, example_base + 8192)], 2)
  | Fail _ => False
  end.
Proof. vm_compute. reflexivity. Qed.

(** * Shutting down *)

Lemma drain_waiters_total fuel waiters k retry :
  0 <= retry -> 7 - retry < Z.of_nat fuel -> retry <= 6 ->
  exists n, drain_waiters fuel waiters k retry = Done n /\ n <= 7.
Proof.
  revert k retry. induction fuel as [|fuel IH]; intros k retry H0 Hf Hr; [lia|]. cbn [drain_waiters].
  destruct (0 <? waiters k); [|exists retry; split; [done|lia]].
  destruct (Z.ltb_spec 5 retry); [exists (retry + 1); split; [done|lia]|].
  apply IH; lia.
Qed.

(** A region with nothing allocated can be destroyed, whatever its waiters
    do: at most seven broadcasts are sent.  From then on the server is told
    to disconnect, and a second destruction fails its assertion. *)
Theorem FinesseDestroyMemoryRegion_stops base w waiters :
  reachable base w (fun _ => Free) ->
  exists w', FinesseDestroyMemoryRegion base waiters w = Done (0, w') /\
    FinesseReadyRequestWait w' = Done (ENOTCONN, w') /\
    (forall r now, FinesseGetReadyRequest base r now w' = Done ((ENOTCONN, NULL), w')) /\
    FinesseDestroyMemoryRegion base waiters w' = Fail AssertFailed.
Proof.
  intros H%reachable_represents. unfold FinesseDestroyMemoryRegion at 1.
  run_step ltac:(by eapply signature_check).
  rewrite c_assert_bind by (by eapply base_not_null).
  rewrite field_bind, (rp_running _ _ _ H), c_assert_bind, field_bind by done.
  rewrite c_assert_bind.
  2:{ apply Z.eqb_eq, zero_bitmap; [apply H|]. intros i Hi.
      by rewrite (rp_alloc _ _ _ H). }
  unfold set_ShutdownRequested. rewrite on_region_bind.
  destruct (drain_waiters_total 8 waiters 0 0) as (n & Hn & _); [lia..|].
  run_step ltac:(unfold lift_outcome; by rewrite Hn).
  set (w' := {| shm := with_counters _ _ 1 _; calls := calls w |}).
  assert (CHECK_SHM_SIGNATURE w' = Done (tt, w')) as Hsig.
  { unfold CHECK_SHM_SIGNATURE. rewrite field_bind. cbn. rewrite (rp_signature _ _ _ H).
    by rewrite bool_decide_true. }
  exists w'. split; [done|]. split; [|split].
  - unfold FinesseReadyRequestWait. run_step ltac:(exact Hsig). rewrite !field_bind.
    cbn. by rewrite andb_false_r.
  - intros r now. unfold FinesseGetReadyRequest.
    rewrite c_assert_bind.
    2:{ apply Z.ltb_lt. by apply Z.mod_pos_bound. }
    erewrite M_bind_done; cycle 1.
    { unfold ready_loop. rewrite field_bind. reflexivity. }
    reflexivity.
  - unfold FinesseDestroyMemoryRegion. run_step ltac:(exact Hsig).
    rewrite c_assert_bind by (by eapply base_not_null). by rewrite field_bind.
Qed.

Lemma FinesseDestroyMemoryRegion_stops_witness :
  exists w', FinesseDestroyMemoryRegion example_base (fun _ => 1) fresh_world = Done (0, w') /\
    FinesseReadyRequestWait w' = Done (ENOTCONN, w') /\
    (forall r now, FinesseGetReadyRequest example_base r now w' = Done ((ENOTCONN, NULL), w')) /\
    FinesseDestroyMemoryRegion example_base (fun _ => 1) w' = Fail AssertFailed.
Proof. apply FinesseDestroyMemoryRegion_stops, fresh_reachable. Defined.
