(* ===== verification/RegionThreads.v ===== *)
(** Threads that allocate, exchange and release message blocks at the same time.

    The bitmaps of the shared memory region are what the threads of fincomm.c
    and fcc.c share.  The allocation bitmap is changed without a mutex, by
    compare-and-swap: every load, store and compare-and-swap on it is a step of
    its own.  The request and the response bitmap are changed under their
    mutexes: every critical section is a step.  The steps of any number of
    threads, clients and workers of the server, interleave.  The program
    counter of a thread holds the locals it still needs; where a thread may go
    on in several ways the step takes a [choice].  Of the blocks only the
    request numbers are here; the rest of what the threads write into them,
    with the assertions on it, and the shutdown of the region are in Region.v.

    Results: a set bit has exactly one owner, so no block is handed to two
    threads; when every client waits for its response, no assertion on the
    bitmaps or the request numbers fails and the server works only for clients
    that wait; one client that gives its block back without waiting, as
    [internal_open] does, is enough to stop a worker or another client, or to
    hand the other client an answer that is not its own; and an allocation that races may miss a free block. *)

From stdpp Require Import list.
From S2P Require Import Prelude Bitmap Message Region.

Open Scope word_scope.

(** AllocationBitmap, LastBufferAllocated, RequestBitmap, ResponseBitmap, the
    counter RequestId of the region, and the RequestId of every block *)
Record mem := { bitmap : Z; hint : Z; requests : Z; responses : Z; next_id : Z; ids : Z -> Z }.

Definition with_bitmap (b : Z) (m : mem) : mem :=
  {| bitmap := b; hint := hint m; requests := requests m; responses := responses m;
     next_id := next_id m; ids := ids m |}.
Definition with_hint (i : Z) (m : mem) : mem :=
  {| bitmap := bitmap m; hint := i; requests := requests m; responses := responses m;
     next_id := next_id m; ids := ids m |}.
Definition with_requests (b : Z) (m : mem) : mem :=
  {| bitmap := bitmap m; hint := hint m; requests := b; responses := responses m;
     next_id := next_id m; ids := ids m |}.
Definition with_responses (b : Z) (m : mem) : mem :=
  {| bitmap := bitmap m; hint := hint m; requests := requests m; responses := b;
     next_id := next_id m; ids := ids m |}.
Definition with_next_id (n : Z) (m : mem) : mem :=
  {| bitmap := bitmap m; hint := hint m; requests := requests m; responses := responses m;
     next_id := n; ids := ids m |}.
Definition with_id (i n : Z) (m : mem) : mem :=
  {| bitmap := bitmap m; hint := hint m; requests := requests m; responses := responses m;
     next_id := next_id m; ids := fun j => if j =? i then n else ids m j |}.

Inductive pc : Type :=
  | Outside                          (* not in a call, no block *)
  | LoadedBitmap (b : Z)             (* FinesseGetRequestBuffer *)
  | TryHint (b index : Z)
  | Scan (index : Z)
  | TryScan (b index : Z)
  | Claimed (index : Z)
  | Checking (index : Z)
  | Full                             (* about to return NULL *)
  | Owner (index : Z)                (* has the block *)
  | Numbering (index : Z)            (* FinesseRequestReady *)
  | Sending (index : Z)
  | Waiting (index : Z)              (* FinesseGetResponse *)
  | Freeing (index : Z)              (* FinesseReleaseRequestBuffer *)
  | Release (b index : Z)
  | Reload (index : Z)
  | Taken (index : Z)                (* FinesseGetReadyRequest *)
  | Serving (index : Z).             (* a worker that has the request *)

(** What a thread does next where it has a choice. *)
Inductive choice : Type :=
  | Go                               (* allocate; release; test; answer *)
  | Send                             (* make the own block a request *)
  | Abandon                          (* release the block without waiting *)
  | Take (random_ : Z)               (* look for a request *)
  | Unanswered.                      (* end the work without an answer *)

Definition cas (m : mem) (old new : Z) : mem * bool :=
  if bitmap m =? old then (with_bitmap new m, true) else (m, false).

(** FinesseRequestReady: its check, the loop of [get_request_number] and its
    critical section. *)
Definition send_request (index : Z) (m : mem) : outcome (mem * pc) :=
  Done (m, if Z.land (bitmap m) (make_mask64 index) =? 0 then Owner index else Numbering index).

Definition number_request (index : Z) (m : mem) : outcome (mem * pc) :=
  let n := next_id m in
  let m := with_next_id (u64 (n + 1)) m in
  Done (if n =? 0 then (m, Numbering index) else (with_id index n m, Sending index)).

Definition queue_request (index : Z) (m : mem) : outcome (mem * pc) :=
  c_assert (Z.land (requests m) (make_mask64 index) =? 0);;
  Done (with_requests (Z.lor (requests m) (make_mask64 index)) m, Waiting index).

(** One test of the loop of FinesseGetResponse. *)
Definition poll_response (index : Z) (m : mem) : outcome (mem * pc) :=
  if Z.land (responses m) (make_mask64 index) =? 0 then Done (m, Waiting index)
  else Done (with_responses (Z.land (responses m) (wnot 64 (make_mask64 index))) m, Owner index).

(** The critical section of FinesseGetReadyRequest, and what it asserts of
    the request it took.  Where neither half of
    the bitmap has a request the loop would go round with the mutex held. *)
Definition take_index (index mask : Z) (m : mem) : outcome (mem * pc) :=
  c_assert (negb (Z.land (requests m) (make_mask64 index) =? 0));;
  Done (with_requests (Z.land (requests m) (wnot 64 mask)) m, Taken index).

Definition take_request (random_ : Z) (m : mem) : outcome (mem * pc) :=
  let rnd := random_ mod SHM_MESSAGE_COUNT in
  if requests m =? 0 then Done (m, Outside)
  else
    let '(i, mask) := find_request (Z.to_nat (SHM_MESSAGE_COUNT - rnd)) rnd (make_mask64 rnd) (requests m) in
    if i <? SHM_MESSAGE_COUNT then take_index i mask m
    else
      let '(i, mask) := find_request (Z.to_nat rnd) 0 1 (requests m) in
      if i <? rnd then take_index i mask m else Fail Blocked.

Definition check_taken (index : Z) (m : mem) : outcome (mem * pc) :=
  c_assert (negb (ids m index =? 0));; Done (m, Serving index).

(** The critical section of FinesseResponseReady. *)
Definition queue_response (index : Z) (m : mem) : outcome (mem * pc) :=
  c_assert (Z.land (responses m) (make_mask64 index) =? 0);;
  Done (with_responses (Z.lor (responses m) (make_mask64 index)) m, Outside).

(** FinesseReleaseRequestBuffer: the request number is cleared; the first
    load; one compare-and-swap. *)
Definition clear_number (index : Z) (m : mem) : outcome (mem * pc) :=
  Done (with_id index 0 m, Freeing index).

Definition begin_release (index : Z) (m : mem) : outcome (mem * pc) :=
  let b := bitmap m in
  c_assert (negb (b =? clear_bit64 b index));; Done (m, Release b index).

Definition try_release (b index : Z) (m : mem) : outcome (mem * pc) :=
  let '(m, ok) := cas m b (clear_bit64 b index) in
  Done (m, if (ok : bool) then Outside else Reload index).

(** The next atomic step of a thread. *)
Definition thread_step (c : choice) (m : mem) (p : pc) : outcome (mem * pc) :=
  match p with
  | Outside =>
      match c with
      | Take random_ => take_request random_ m
      | _ => Done (m, LoadedBitmap (bitmap m))
      end
  | LoadedBitmap b =>
      let index := u32 (hint m + 1) mod SHM_MESSAGE_COUNT in
      Done (m, if b =? set_bit64 b index then Scan 0 else TryHint b index)
  | TryHint b index =>
      let '(m, ok) := cas m b (set_bit64 b index) in
      Done (m, if (ok : bool) then Claimed index else Scan 0)
  | Scan index =>
      if index <? SHM_MESSAGE_COUNT then
        let b := bitmap m in
        Done (m, if b =? set_bit64 b index then Scan (index + 1) else TryScan b index)
      else Done (m, Full)
  | TryScan b index =>
      let '(m, ok) := cas m b (set_bit64 b index) in
      Done (m, if (ok : bool) then Claimed index else Scan (index + 1))
  | Claimed index => Done (with_hint index m, Checking index)
  | Checking index =>
      c_assert (Z.land (requests m) (make_mask64 index) =? 0);; Done (m, Owner index)
  | Full => Done (m, Outside)
  | Owner index => match c with Send => send_request index m | _ => clear_number index m end
  | Numbering index => number_request index m
  | Sending index => queue_request index m
  | Waiting index => match c with Abandon => clear_number index m | _ => poll_response index m end
  | Freeing index => begin_release index m
  | Release b index => try_release b index m
  | Reload index => Done (m, Release (bitmap m) index)
  | Taken index => check_taken index m
  | Serving index => match c with Unanswered => Done (m, Outside) | _ => queue_response index m end
  end.

(** A region and its threads. *)
Record system := { memory : mem; threads : nat -> pc }.

Definition set_thread (t : nat) (p : pc) (ts : nat -> pc) : nat -> pc :=
  fun u => if decide (u = t) then p else ts u.

Definition system_step (t : nat) (c : choice) (s : system) : outcome system :=
  '(m, p) ← thread_step c (memory s) (threads s t);
  Done {| memory := m; threads := set_thread t p (threads s) |}.

(** As [FinesseInitializeMemoryRegion] leaves the region. *)
Definition initial : system :=
  {| memory := {| bitmap := 0; hint := SHM_MESSAGE_COUNT - 1; requests := 0; responses := 0;
                next_id := u64 (-10); ids := fun _ => 0 |};
     threads := fun _ => Outside |}.

(** [abandons]: whether clients may release a block without waiting. *)
Inductive reachable_system (abandons : bool) : system -> Prop :=
  | rs_initial : reachable_system abandons initial
  | rs_step t c s s' : reachable_system abandons s -> (abandons = false -> c <> Abandon) ->
      system_step t c s = Done s' -> reachable_system abandons s'.

(** A schedule: which thread makes the next step, and its choice. *)
Fixpoint run_schedule (ts : list (nat * choice)) (s : system) : outcome system :=
  match ts with
  | [] => Done s
  | (t, c) :: ts => s ← system_step t c s; run_schedule ts s
  end.

(** * Ownership *)

Definition owns (p : pc) (i : Z) : bool :=
  match p with
  | Claimed j | Checking j | Owner j | Numbering j | Sending j | Waiting j
  | Freeing j | Release _ j | Reload j => i =? j
  | _ => false
  end.

(** What a thread knows of its locals. *)
Definition local_ok (p : pc) : Prop :=
  match p with
  | Outside | Full => True
  | LoadedBitmap b => in_word 64 b
  | TryHint b i | TryScan b i => in_word 64 b /\ is_slot i /\ Z.testbit b i = false
  | Scan i => 0 <= i
  | Claimed i | Checking i | Owner i | Numbering i | Sending i | Waiting i
  | Freeing i | Reload i | Taken i | Serving i => is_slot i
  | Release b i => in_word 64 b /\ is_slot i
  end.

Record words (m : mem) : Prop := {
  wd_bitmap : in_word 64 (bitmap m);
  wd_requests : in_word 64 (requests m);
  wd_responses : in_word 64 (responses m) }.

Record ownership (s : system) : Prop := {
  ow_words : words (memory s);
  ow_local : forall t, local_ok (threads s t);
  ow_owner : forall i, is_slot i -> Z.testbit (bitmap (memory s)) i = true ->
    exists t, owns (threads s t) i = true;
  ow_bit : forall t i, owns (threads s t) i = true -> Z.testbit (bitmap (memory s)) i = true;
  ow_unique : forall t u i, owns (threads s t) i = true -> owns (threads s u) i = true -> t = u }.

Lemma set_thread_same t p ts : set_thread t p ts t = p.
Proof. unfold set_thread. by rewrite decide_True. Qed.

Lemma set_thread_other t p ts u : u <> t -> set_thread t p ts u = ts u.
Proof. intros. unfold set_thread. by rewrite decide_False. Qed.

(** A step that changes neither the bitmap nor what its thread owns. *)
Lemma ownership_local s t p m :
  ownership s -> words m -> bitmap m = bitmap (memory s) ->
  local_ok p -> (forall i, owns p i = owns (threads s t) i) ->
  ownership {| memory := m; threads := set_thread t p (threads s) |}.
Proof.
  intros [] Hw Hm Hp Ho.
  assert (forall u i, owns (set_thread t p (threads s) u) i = owns (threads s u) i) as E.
  { intros u i. destruct (decide (u = t)) as [->|].
    - by rewrite set_thread_same.
    - by rewrite set_thread_other. }
  constructor; cbn; rewrite ?Hm; try done.
  - intros u. destruct (decide (u = t)) as [->|]; [by rewrite set_thread_same|by rewrite set_thread_other].
  - intros i Hi Hb. destruct (ow_owner0 i Hi Hb) as [u Hu]. exists u. by rewrite E.
  - intros u i. rewrite E. apply ow_bit0.
  - intros u v i. rewrite !E. apply ow_unique0.
Qed.

(** A successful claim. *)
Lemma ownership_claim s t i :
  ownership s -> is_slot i -> Z.testbit (bitmap (memory s)) i = false ->
  (forall j, owns (threads s t) j = false) ->
  ownership {| memory := with_bitmap (set_bit64 (bitmap (memory s)) i) (memory s);
               threads := set_thread t (Claimed i) (threads s) |}.
Proof.
  intros [] Hi Hb Hn. constructor; cbn.
  - destruct ow_words0. constructor; cbn; auto with bits.
  - intros u. destruct (decide (u = t)) as [->|]; [by rewrite set_thread_same|by rewrite set_thread_other].
  - intros j Hj. rewrite set_bit64_spec by (apply Hi || apply Hj).
    destruct (Z.eqb_spec j i) as [->|Hne]; simpl.
    + intros _. exists t. rewrite set_thread_same. simpl. apply Z.eqb_refl.
    + intros Hbit. destruct (ow_owner0 j Hj Hbit) as [u Hu]. exists u.
      rewrite set_thread_other; [done|]. intros ->. congruence.
  - intros u j. destruct (decide (u = t)) as [->|Hne].
    + rewrite set_thread_same. simpl. intros ->%Z.eqb_eq.
      rewrite set_bit64_spec by (apply Hi). by rewrite Z.eqb_refl.
    + rewrite set_thread_other by done. intros Ho%ow_bit0.
      destruct (Z.lt_ge_cases j 0); [by rewrite Z.testbit_neg_r in Ho|].
      rewrite set_bit64_spec by (apply Hi || done). rewrite Ho. apply orb_true_r.
  - assert (forall u, owns (threads s u) i = true -> False) as F.
    { intros u Hu%ow_bit0. congruence. }
    intros u v j. destruct (decide (u = t)) as [->|]; destruct (decide (v = t)) as [->|];
      rewrite ?set_thread_same, ?set_thread_other by done; simpl; try done.
    + intros ->%Z.eqb_eq Hv. by apply F in Hv.
    + intros Hu ->%Z.eqb_eq. by apply F in Hu.
    + apply ow_unique0.
Qed.

(** A successful release. *)
Lemma ownership_release s t i :
  ownership s -> is_slot i -> (forall j, owns (threads s t) j = (j =? i)) ->
  ownership {| memory := with_bitmap (clear_bit64 (bitmap (memory s)) i) (memory s);
               threads := set_thread t Outside (threads s) |}.
Proof.
  intros [] Hi Ho. assert (owns (threads s t) i = true) as Hti by (rewrite Ho; apply Z.eqb_refl).
  assert (forall u, u <> t -> owns (threads s u) i = false) as F.
  { intros u Hne. destruct (owns (threads s u) i) eqn:E; [|done]. by destruct Hne; eapply ow_unique0. }
  assert (forall u j, owns (threads s u) j = true -> is_slot j) as G.
  { intros u j. pose proof (ow_local0 u) as L. destruct (threads s u); simpl in *; try done;
      intros ->%Z.eqb_eq; (done || by apply L). }
  constructor; cbn.
  - destruct ow_words0. constructor; cbn; auto with bits.
  - intros u. destruct (decide (u = t)) as [->|]; [by rewrite set_thread_same|by rewrite set_thread_other].
  - intros j Hj. rewrite clear_bit64_spec by (apply Hi || apply Hj).
    destruct (Z.eqb_spec j i) as [->|Hne]; simpl; [done|].
    intros Hbit. destruct (ow_owner0 j Hj Hbit) as [u Hu]. exists u.
    rewrite set_thread_other; [done|]. intros ->. rewrite Ho in Hu. by apply Z.eqb_eq in Hu.
  - intros u j. destruct (decide (u = t)) as [->|Hne]; [by rewrite set_thread_same|].
    rewrite set_thread_other by done. intros Hj.
    rewrite clear_bit64_spec by (apply Hi || by apply (G u)). rewrite (ow_bit0 u j Hj), andb_true_r.
    destruct (Z.eqb_spec j i) as [->|]; [|done]. by rewrite F in Hj.
  - intros u v j. destruct (decide (u = t)) as [->|]; destruct (decide (v = t)) as [->|];
      rewrite ?set_thread_same, ?set_thread_other by done; simpl; try done. apply ow_unique0.
Qed.

Lemma ownership_initial : ownership initial.
Proof. constructor; cbn; try done. intros i _. by rewrite Z.testbit_0_l. Qed.


Lemma is_slot_succ h : is_slot (u32 (h + 1) mod SHM_MESSAGE_COUNT).
Proof. by apply Z.mod_pos_bound. Qed.

(** A step that leaves the memory alone. *)
Lemma ownership_stay s t p :
  ownership s -> local_ok p -> (forall i, owns p i = owns (threads s t) i) ->
  ownership {| memory := memory s; threads := set_thread t p (threads s) |}.
Proof. intros H. apply ownership_local; [done|apply H|done]. Qed.

(** ** The critical sections, on bits *)

Lemma mask_test b i : in_word 64 b -> is_slot i -> (Z.land b (make_mask64 i) =? 0) = negb (Z.testbit b i).
Proof. intros Hb Hi. by apply land_mask_zero. Qed.

Lemma take_index_run i m :
  in_word 64 (requests m) -> is_slot i -> Z.testbit (requests m) i = true ->
  take_index i (make_mask64 i) m = Done (with_requests (clear_bit64 (requests m) i) m, Taken i).
Proof. intros Hw Hi T. unfold take_index. by rewrite mask_test, T by done. Qed.

(** A search finds a request exactly when there is one. *)
Lemma take_request_run r m :
  in_word 64 (requests m) ->
  (requests m = 0 /\ take_request r m = Done (m, Outside)) \/
  (exists i, is_slot i /\ Z.testbit (requests m) i = true /\
     take_request r m = Done (with_requests (clear_bit64 (requests m) i) m, Taken i)).
Proof.
  intros Hw. unfold take_request. destruct (Z.eqb_spec (requests m) 0) as [E|E]; [by left|].
  right. pose proof (Z.mod_pos_bound r SHM_MESSAGE_COUNT eq_refl) as Hr.
  set (rnd := r mod SHM_MESSAGE_COUNT) in *. change SHM_MESSAGE_COUNT with 64 in *.
  destruct (find_request_run (Z.to_nat (64 - rnd)) rnd (requests m)) as (j & -> & Hj & Hn & Ht); [done|lia..|].
  destruct (Z.ltb_spec j 64).
  { exists j. assert (Z.testbit (requests m) j = true) by (apply Ht; lia).
    assert (is_slot j) by (unfold is_slot, SHM_MESSAGE_COUNT; lia). by rewrite take_index_run. }
  change 1 with (make_mask64 0).
  destruct (find_request_run (Z.to_nat rnd) 0 (requests m)) as (k & -> & Hk & Hm & Hs); [done|lia..|].
  destruct (Z.ltb_spec k rnd).
  { exists k. assert (Z.testbit (requests m) k = true) by (apply Hs; lia).
    assert (is_slot k) by (unfold is_slot, SHM_MESSAGE_COUNT; lia). by rewrite take_index_run. }
  destruct E. apply zero_bitmap; [done|]. intros i Hi.
  destruct (Z.lt_ge_cases i rnd); [apply Hm; lia|apply Hn; lia].
Qed.

Lemma ownership_release_begins s t i s' :
  ownership s -> is_slot i -> threads s t = Freeing i ->
  ('(m, p) ← begin_release i (memory s); Done {| memory := m; threads := set_thread t p (threads s) |})
    = Done s' -> ownership s'.
Proof.
  intros H Hi E. unfold begin_release. destruct (negb _); [|done].
  intros [= <-]. apply ownership_stay; [done|split; [apply H|done]|by rewrite E].
Qed.

Lemma words_claim m i : words m -> words (with_bitmap (set_bit64 (bitmap m) i) m).
Proof. intros []. constructor; cbn; auto with bits. Qed.

Lemma words_requests m b : words m -> in_word 64 b -> words (with_requests b m).
Proof. intros []. by constructor. Qed.

Lemma words_responses m b : words m -> in_word 64 b -> words (with_responses b m).
Proof. intros []. by constructor. Qed.

Lemma words_id m i n : words m -> words (with_id i n m).
Proof. intros []. by constructor. Qed.

Lemma words_next_id m n : words m -> words (with_next_id n m).
Proof. intros []. by constructor. Qed.

(** An owner clears the number of its block. *)
Lemma ownership_clears s t i :
  ownership s -> is_slot i -> (forall j, owns (threads s t) j = (j =? i)) ->
  ownership {| memory := with_id i 0 (memory s); threads := set_thread t (Freeing i) (threads s) |}.
Proof.
  intros H Hi Ho. apply ownership_local; [done|apply words_id, H|done|done|].
  intros j. by rewrite Ho.
Qed.

Lemma ownership_polls s t i s' :
  ownership s -> is_slot i -> threads s t = Waiting i ->
  ('(m, p) ← poll_response i (memory s); Done {| memory := m; threads := set_thread t p (threads s) |})
    = Done s' -> ownership s'.
Proof.
  intros H Hi E. pose proof (wd_responses _ (ow_words _ H)) as Wr.
  unfold poll_response. destruct (_ =? 0); intros [= <-].
  - apply ownership_stay; [done|done|by rewrite E].
  - apply ownership_local; [done| |done|done|by rewrite E].
    apply words_responses; [apply H|by apply in_word_clear_bit64].
Qed.

Lemma ownership_answers s t i s' :
  ownership s -> threads s t = Serving i ->
  ('(m, p) ← queue_response i (memory s); Done {| memory := m; threads := set_thread t p (threads s) |})
    = Done s' -> ownership s'.
Proof.
  intros H E. pose proof (wd_responses _ (ow_words _ H)) as Wr.
  unfold queue_response. destruct (_ =? 0); [|done]. intros [= <-].
  apply ownership_local; [done| |done|done|by rewrite E].
  apply words_responses; [apply H|by apply in_word_set_bit64].
Qed.

(** Every step of every thread keeps the ownership, whatever it chooses. *)
Lemma ownership_step t c s s' : ownership s -> system_step t c s = Done s' -> ownership s'.
Proof.
  intros H. pose proof (ow_local _ H t) as L. pose proof (ow_words _ H) as W.
  pose proof (wd_bitmap _ W) as Wb. pose proof (wd_requests _ W) as Wq. pose proof (wd_responses _ W) as Wr.
  unfold system_step.
  destruct (threads s t) as [|b|b i|i|b i|i|i| |i|i|i|i|i|b i|i|i|i] eqn:E; cbn [thread_step local_ok] in L |- *.
  - destruct c; try (intros [= <-]; apply ownership_stay; [done|done|by rewrite E]).
    destruct (take_request_run random_ (memory s) Wq) as [[_ ->]|(i & Hi & _ & ->)]; intros [= <-].
    + apply ownership_stay; [done|done|by rewrite E].
    + apply ownership_local; [done|apply words_requests; auto with bits|done|done|by rewrite E].
  - intros [= <-]. pose proof (is_slot_succ (hint (memory s))) as Hi.
    rewrite set_bit64_same by (done || apply Hi). apply ownership_stay; [done| |].
    + destruct (Z.testbit b _) eqn:T; [simpl; lia|done].
    + intros j. rewrite E. by destruct (Z.testbit b _).
  - destruct L as (Hb & Hi & T). unfold cas. destruct (Z.eqb_spec (bitmap (memory s)) b) as [<-|]; intros [= <-].
    + apply ownership_claim; try done. by rewrite E.
    + apply ownership_stay; [done|simpl; lia|by rewrite E].
  - destruct (Z.ltb_spec i SHM_MESSAGE_COUNT); intros [= <-].
    + assert (is_slot i) as Hi by done.
      rewrite set_bit64_same by (done || apply Hi). apply ownership_stay; [done| |].
      * destruct (Z.testbit (bitmap (memory s)) i) eqn:T; [simpl; lia|done].
      * intros j. rewrite E. by destruct (Z.testbit (bitmap (memory s)) i).
    + apply ownership_stay; [done|done|by rewrite E].
  - destruct L as (Hb & Hi & T). unfold cas. destruct (Z.eqb_spec (bitmap (memory s)) b) as [<-|]; intros [= <-].
    + apply ownership_claim; try done. by rewrite E.
    + unfold is_slot in Hi. apply ownership_stay; [done|simpl; lia|by rewrite E].
  - intros [= <-]. apply ownership_local; [done|by destruct W|done|done|by rewrite E].
  - destruct (_ =? 0); [|done]. intros [= <-]. apply ownership_stay; [done|done|by rewrite E].
  - intros [= <-]. apply ownership_stay; [done|done|by rewrite E].
  - destruct c; try (intros [= <-]; apply ownership_clears; [done|done|by rewrite E]).
    intros [= <-]. apply ownership_stay; [done|by destruct (_ =? 0)|]. rewrite E. by destruct (_ =? 0).
  - unfold number_request. destruct (_ =? 0); intros [= <-];
      (apply ownership_local; [done|auto using words_id, words_next_id|done|done|by rewrite E]).
  - unfold queue_request. destruct (_ =? 0); [|done]. intros [= <-].
    apply ownership_local; [done|apply words_requests; [done|by apply in_word_set_bit64]|done|done|by rewrite E].
  - destruct c; try by apply ownership_polls. intros [= <-]. apply ownership_clears; [done|done|by rewrite E].
  - by apply ownership_release_begins.
  - destruct L as (Hb & Hi). unfold try_release, cas.
    destruct (Z.eqb_spec (bitmap (memory s)) b) as [<-|]; intros [= <-].
    + apply ownership_release; try done. by rewrite E.
    + apply ownership_stay; [done|done|by rewrite E].
  - intros [= <-]. apply ownership_stay; [done|done|by rewrite E].
  - unfold check_taken. destruct (negb _); [|done]. intros [= <-]. apply ownership_stay; [done|done|by rewrite E].
  - destruct c; try by apply (ownership_answers s t i).
    intros [= <-]. apply ownership_stay; [done|done|by rewrite E].
Qed.

Lemma reachable_ownership a s : reachable_system a s -> ownership s.
Proof. induction 1; [apply ownership_initial|by eapply ownership_step]. Qed.

(** * The exchange of requests and responses *)

Definition waits (p : pc) (i : Z) : bool := match p with Waiting j => i =? j | _ => false end.
Definition serves (p : pc) (i : Z) : bool := match p with Taken j | Serving j => i =? j | _ => false end.
Definition numbered (p : pc) (i : Z) : bool := match p with Sending j | Taken j => i =? j | _ => false end.

(** A request is queued, in work or answered, one at a time, and its client
    waits for it; it has a number from before it is queued until after it is
    taken. *)
Record exchange (s : system) : Prop := {
  ex_request : forall i, is_slot i -> Z.testbit (requests (memory s)) i = true ->
    Z.testbit (responses (memory s)) i = false /\ (forall u, serves (threads s u) i = false);
  ex_response : forall i, is_slot i -> Z.testbit (responses (memory s)) i = true ->
    forall u, serves (threads s u) i = false;
  ex_client : forall i, is_slot i ->
    Z.testbit (requests (memory s)) i = true \/ Z.testbit (responses (memory s)) i = true \/
      (exists u, serves (threads s u) i = true) ->
    exists t, waits (threads s t) i = true;
  ex_worker : forall u v i, serves (threads s u) i = true -> serves (threads s v) i = true -> u = v;
  ex_number : forall i, is_slot i ->
    Z.testbit (requests (memory s)) i = true \/ (exists u, numbered (threads s u) i = true) ->
    ids (memory s) i <> 0 }.

(** Only one thread can wait for a block, its owner. *)
Lemma waits_owns p i : waits p i = true -> owns p i = true.
Proof. by destruct p. Qed.

(** Who owns a block without waiting has no request in it. *)
Lemma exchange_idle s t i :
  ownership s -> exchange s -> is_slot i -> owns (threads s t) i = true -> waits (threads s t) i = false ->
  Z.testbit (requests (memory s)) i = false /\ Z.testbit (responses (memory s)) i = false /\
  (forall u, serves (threads s u) i = false).
Proof.
  intros Ho Hx Hi Hown Hw.
  assert (~ (Z.testbit (requests (memory s)) i = true \/ Z.testbit (responses (memory s)) i = true \/
             (exists u, serves (threads s u) i = true))) as N.
  { intros (v & Hv)%(ex_client _ Hx i Hi).
    assert (t = v) as -> by (apply (ow_unique _ Ho t v i Hown); by apply waits_owns). congruence. }
  split; [|split].
  - destruct (Z.testbit (requests _) i); [|done]. destruct N. by left.
  - destruct (Z.testbit (responses _) i); [|done]. destruct N. right. by left.
  - intros u. destruct (serves (threads s u) i) eqn:E; [|done]. destruct N. right. right. by exists u.
Qed.

Ltac each_thread t :=
  repeat match goal with
  | |- context [set_thread t ?p ?ts ?u] =>
      destruct (decide (u = t)) as [->|]; [rewrite !set_thread_same|rewrite !(set_thread_other t p ts u) by done]
  | H : context [set_thread t ?p ?ts ?u] |- _ =>
      destruct (decide (u = t)) as [->|];
      [rewrite !set_thread_same in H|rewrite !(set_thread_other t p ts u) in H by done]
  end.

(** A step that changes neither these bitmaps nor what its thread waits for
    or serves, and sets numbers of its own block only. *)
Lemma exchange_local s t p m :
  exchange s -> requests m = requests (memory s) -> responses m = responses (memory s) ->
  (forall i, is_slot i ->
     Z.testbit (requests (memory s)) i = true \/ numbered p i = true \/
       (exists u, u <> t /\ numbered (threads s u) i = true) -> ids m i <> 0) ->
  (forall i, waits p i = waits (threads s t) i) -> (forall i, serves p i = serves (threads s t) i) ->
  exchange {| memory := m; threads := set_thread t p (threads s) |}.
Proof.
  intros [] Hq Hr Hn Hw Hs.
  assert (forall u i, waits (set_thread t p (threads s) u) i = waits (threads s u) i) as Ew.
  { intros u i. by each_thread t. }
  assert (forall u i, serves (set_thread t p (threads s) u) i = serves (threads s u) i) as Es.
  { intros u i. by each_thread t. }
  constructor; cbn; rewrite ?Hq, ?Hr.
  - intros i Hi Hb. destruct (ex_request0 i Hi Hb) as [? F]. split; [done|]. intros u. by rewrite Es.
  - intros i Hi Hb u. rewrite Es. by apply ex_response0.
  - intros i Hi Hor. destruct (ex_client0 i Hi) as [v Hv]; [|exists v; by rewrite Ew].
    destruct Hor as [?|[?|[u Hu]]]; [by left|right; by left|]. right. right. exists u. by rewrite <- Es.
  - intros u v i. rewrite !Es. apply ex_worker0.
  - intros i Hi Hor. apply Hn; [done|]. destruct Hor as [?|[u Hu]]; [by left|right].
    destruct (decide (u = t)) as [->|]; [rewrite set_thread_same in Hu; by left|].
    rewrite set_thread_other in Hu by done. right. by exists u.
Qed.

(** Numbers are kept where the new requests and the new place of the thread
    ask for no more than before. *)
Lemma numbers_kept s t p q :
  exchange s ->
  (forall i, is_slot i -> Z.testbit q i = true \/ numbered p i = true ->
     Z.testbit (requests (memory s)) i = true \/ numbered (threads s t) i = true) ->
  forall i, is_slot i ->
    Z.testbit q i = true \/ (exists u, numbered (set_thread t p (threads s) u) i = true) ->
    ids (memory s) i <> 0.
Proof.
  intros Hx Hq i Hi Hor. apply (ex_number _ Hx i Hi).
  assert (Z.testbit q i = true \/ numbered p i = true -> Z.testbit (requests (memory s)) i = true \/
    (exists u, numbered (threads s u) i = true)) as F.
  { intros [?|Hn]%(Hq i Hi); [by left|right; by exists t]. }
  destruct Hor as [?|[u Hu]]; [by apply F; left|]. each_thread t; [by apply F; right|right; by exists u].
Qed.

(** The client queues its request. *)
Lemma exchange_send s t i :
  ownership s -> exchange s -> threads s t = Sending i -> is_slot i ->
  exchange {| memory := with_requests (set_bit64 (requests (memory s)) i) (memory s);
              threads := set_thread t (Waiting i) (threads s) |}.
Proof.
  intros Ho Hx E Hi. destruct (exchange_idle s t i Ho Hx Hi) as (Hq & Hr & Hs);
    [rewrite E; apply Z.eqb_refl|by rewrite E|].
  pose proof Hx as []. constructor; cbn.
  - intros j Hj. rewrite set_bit64_spec by (apply Hi || apply Hj).
    destruct (Z.eqb_spec j i) as [->|]; simpl; intros Hb.
    + split; [done|]. intros u. by each_thread t.
    + destruct (ex_request0 j Hj Hb) as [? F]. split; [done|]. intros u. by each_thread t.
  - intros j Hj Hb u. each_thread t; [done|by apply ex_response0].
  - intros j Hj. rewrite set_bit64_spec by (apply Hi || apply Hj).
    destruct (Z.eqb_spec j i) as [->|]; simpl; intros Hor.
    + exists t. rewrite set_thread_same. apply Z.eqb_refl.
    + destruct (ex_client0 j Hj) as [v Hv].
      { destruct Hor as [?|[?|[u Hu]]]; [by left|right; by left|]. each_thread t; [done|]. right. right. by exists u. }
      exists v. each_thread t; [|done]. by rewrite E in Hv.
  - intros u v j. each_thread t; try done. apply ex_worker0.
  - apply (numbers_kept s t); [done|]. intros j Hj. rewrite set_bit64_spec by (apply Hi || apply Hj).
    rewrite E. simpl. intros [[?|?]%orb_true_iff|?]; [by right|by left|done].
Qed.

(** The client takes its response. *)
Lemma exchange_receive s t i :
  ownership s -> exchange s -> threads s t = Waiting i -> is_slot i ->
  Z.testbit (responses (memory s)) i = true ->
  exchange {| memory := with_responses (clear_bit64 (responses (memory s)) i) (memory s);
              threads := set_thread t (Owner i) (threads s) |}.
Proof.
  intros Ho Hx E Hi Hb. pose proof Hx as []. constructor; cbn.
  - intros j Hj Hq. rewrite clear_bit64_spec by (apply Hi || apply Hj).
    destruct (ex_request0 j Hj Hq) as [-> F]. split; [apply andb_false_r|]. intros u. by each_thread t.
  - intros j Hj. rewrite clear_bit64_spec by (apply Hi || apply Hj).
    intros [_ Hr]%andb_true_iff u. each_thread t; [done|by apply ex_response0].
  - intros j Hj. rewrite clear_bit64_spec by (apply Hi || apply Hj). intros Hor.
    destruct (decide (j = i)) as [->|Hne].
    { exfalso. destruct Hor as [Hq|[Hr|[u Hu]]].
      - destruct (ex_request0 i Hj Hq). congruence.
      - by rewrite Z.eqb_refl in Hr.
      - each_thread t; [done|]. by rewrite ex_response0 in Hu. }
    destruct (ex_client0 j Hj) as [v Hv].
    { destruct Hor as [?|[Hr|[u Hu]]]; [by left| |].
      - right. left. by apply andb_true_iff in Hr as [_ Hr].
      - each_thread t; [done|]. right. right. by exists u. }
    exists v. each_thread t; [|done]. rewrite E in Hv. by apply Z.eqb_eq in Hv.
  - intros u v j. each_thread t; try done. apply ex_worker0.
  - apply (numbers_kept s t); [done|]. intros j _ [?|?]; [by left|done].
Qed.

(** A worker takes a request. *)
Lemma exchange_take s t i :
  exchange s -> threads s t = Outside -> is_slot i -> Z.testbit (requests (memory s)) i = true ->
  exchange {| memory := with_requests (clear_bit64 (requests (memory s)) i) (memory s);
              threads := set_thread t (Taken i) (threads s) |}.
Proof.
  intros Hx E Hi Hb. pose proof Hx as []. destruct (ex_request0 i Hi Hb) as [Hr Hs].
  constructor; cbn.
  - intros j Hj. rewrite clear_bit64_spec by (apply Hi || apply Hj).
    intros [Hne Hq]%andb_true_iff. destruct (ex_request0 j Hj Hq) as [? F]. split; [done|].
    intros u. each_thread t; [|done]. simpl. by destruct (j =? i).
  - intros j Hj Hp u. each_thread t; [|by apply ex_response0]. simpl.
    destruct (Z.eqb_spec j i) as [->|]; [congruence|done].
  - intros j Hj. rewrite clear_bit64_spec by (apply Hi || apply Hj). intros Hor.
    destruct (ex_client0 j Hj) as [v Hv].
    { destruct Hor as [Hq|[?|[u Hu]]]; [left; by apply andb_true_iff in Hq as [_ Hq]|right; by left|].
      each_thread t; [simpl in Hu; apply Z.eqb_eq in Hu as ->; by left|]. right. right. by exists u. }
    exists v. each_thread t; [by rewrite E in Hv|done].
  - assert (forall u j, serves (threads s u) j = true -> (j =? i) = true -> False) as F.
    { intros u j Hu ->%Z.eqb_eq. by rewrite Hs in Hu. }
    intros u v j. each_thread t; simpl; try done.
    + intros Hj Hv. by destruct (F v j Hv).
    + intros Hu Hj. by destruct (F u j Hu).
    + apply ex_worker0.
  - apply (numbers_kept s t); [done|]. intros j Hj. rewrite clear_bit64_spec by (apply Hi || apply Hj).
    intros [[_ ?]%andb_true_iff|Hji]; left; [done|]. simpl in Hji. by apply Z.eqb_eq in Hji as ->.
Qed.

(** A worker ends its work, with an answer ([b] has the bit of its block)
    or without one ([b] is as it was). *)
Lemma exchange_respond s t i b :
  exchange s -> threads s t = Serving i -> is_slot i ->
  (forall j, is_slot j -> Z.testbit b j = true -> j = i \/ Z.testbit (responses (memory s)) j = true) ->
  exchange {| memory := with_responses b (memory s); threads := set_thread t Outside (threads s) |}.
Proof.
  intros Hx E Hi Hb. pose proof Hx as [].
  assert (serves (threads s t) i = true) as Ht by (rewrite E; apply Z.eqb_refl).
  assert (Z.testbit (requests (memory s)) i = false) as Hq.
  { destruct (Z.testbit (requests (memory s)) i) eqn:Hq; [|done].
    destruct (ex_request0 i Hi Hq) as [_ F]. by rewrite F in Ht. }
  constructor; cbn.
  - intros j Hj Hqj. destruct (ex_request0 j Hj Hqj) as [Hr F]. split.
    + destruct (Z.testbit b j) eqn:Hbj; [|done]. destruct (Hb j Hj Hbj) as [->|]; congruence.
    + intros u. by each_thread t.
  - intros j Hj Hbj u. each_thread t; [done|]. destruct (Hb j Hj Hbj) as [->|Hr]; [|by apply ex_response0].
    destruct (serves (threads s u) i) eqn:Hu; [|done]. by destruct (ex_worker0 u t i Hu Ht).
  - intros j Hj Hor. destruct (ex_client0 j Hj) as [v Hv].
    { destruct Hor as [?|[Hbj|[u Hu]]]; [by left| |].
      - destruct (Hb j Hj Hbj) as [->|]; [right; right; by exists t|right; by left].
      - each_thread t; [done|]. right. right. by exists u. }
    exists v. each_thread t; [by rewrite E in Hv|done].
  - intros u v j. each_thread t; try done. apply ex_worker0.
  - apply (numbers_kept s t); [done|]. intros j _ [?|?]; [by left|done].
Qed.

Lemma exchange_initial : exchange initial.
Proof. constructor; cbn; try done; intros i Hi; rewrite ?Z.testbit_0_l; naive_solver. Qed.

(** A step that leaves these bitmaps and the numbers alone. *)
Lemma exchange_stay s t p m :
  exchange s -> m = memory s \/ (exists b, m = with_bitmap b (memory s)) \/
    (exists h, m = with_hint h (memory s)) \/ (exists n, m = with_next_id n (memory s)) ->
  (forall i, waits p i = waits (threads s t) i) -> (forall i, serves p i = serves (threads s t) i) ->
  (forall i, numbered p i = true -> numbered (threads s t) i = true) ->
  exchange {| memory := m; threads := set_thread t p (threads s) |}.
Proof.
  intros Hx Hm Hw Hs Hn.
  assert (requests m = requests (memory s) /\ responses m = responses (memory s) /\
          ids m = ids (memory s)) as (Hq & Hr & Hi).
  { by destruct Hm as [->|[[? ->]|[[? ->]|[? ->]]]]. }
  apply exchange_local; try done. intros i Hsl Hor. rewrite Hi. apply (ex_number _ Hx i Hsl).
  destruct Hor as [?|[?|[u [_ ?]]]]; [by left|right; exists t; by apply Hn|right; by exists u].
Qed.

(** An owner that does not wait gives its block a number, or clears it. *)
Lemma exchange_owner_number s t i n p m :
  ownership s -> exchange s -> is_slot i -> owns (threads s t) i = true ->
  (forall j, waits (threads s t) j = false) -> (forall j, serves (threads s t) j = false) ->
  m = with_id i n (memory s) \/ (exists k, m = with_id i n (with_next_id k (memory s))) ->
  (p = Freeing i \/ p = Sending i /\ n <> 0) ->
  exchange {| memory := m; threads := set_thread t p (threads s) |}.
Proof.
  intros Ho Hx Hi Hown Hw Hs Hm Hp.
  destruct (exchange_idle s t i Ho Hx Hi Hown (Hw i)) as (Hq & _ & Hv).
  assert (requests m = requests (memory s) /\ responses m = responses (memory s) /\
          ids m = (fun j => if j =? i then n else ids (memory s) j)) as (Hmq & Hmr & Hid).
  { by destruct Hm as [->|[? ->]]. }
  apply exchange_local; try done.
  - intros j Hj Hor. rewrite Hid. destruct (Z.eqb_spec j i) as [->|Hne].
    + destruct Hor as [?|[Hn|[u [Hu Hn]]]]; [congruence| |].
      * by destruct Hp as [->|[-> ?]].
      * exfalso. destruct (threads s u) eqn:E; try done.
        -- apply Hu. apply (ow_unique _ Ho u t i); [by rewrite E|done].
        -- specialize (Hv u). rewrite E in Hv. simpl in Hn, Hv. congruence.
    + apply (ex_number _ Hx j Hj). destruct Hor as [?|[Hn|[u [_ ?]]]]; [by left| |right; by exists u].
      destruct Hp as [->|[-> _]]; [done|]. by apply Z.eqb_neq in Hne; simpl in Hn; rewrite Hne in Hn.
  - intros j. rewrite Hw. by destruct Hp as [->|[-> _]].
  - intros j. rewrite Hs. by destruct Hp as [->|[-> _]].
Qed.

(** Steps of the allocation and of the release: they end where no thread
    waits or serves. *)
Ltac quiet E := intros [= <-]; apply exchange_stay; [done|eauto 6|rewrite E; by repeat case_match..].

Lemma exchange_step t c s s' :
  ownership s -> exchange s -> c <> Abandon -> system_step t c s = Done s' -> exchange s'.
Proof.
  intros Ho Hx Hc. pose proof (ow_local _ Ho t) as L. pose proof (ow_words _ Ho) as W.
  pose proof (wd_requests _ W) as Wq. pose proof (wd_responses _ W) as Wr.
  unfold system_step.
  destruct (threads s t) as [|b|b i|i|b i|i|i| |i|i|i|i|i|b i|i|i|i] eqn:E; cbn [thread_step local_ok] in L |- *.
  - destruct c; try by quiet E.
    destruct (take_request_run random_ (memory s) Wq) as [[_ ->]|(i & Hi & Hb & ->)]; [by quiet E|].
    intros [= <-]. by apply exchange_take.
  - quiet E.
  - unfold cas. destruct (_ =? _); quiet E.
  - destruct (_ <? _); quiet E.
  - unfold cas. destruct (_ =? _); quiet E.
  - quiet E.
  - destruct (_ =? _); [quiet E|done].
  - quiet E.
  - destruct c; try (intros [= <-]; apply (exchange_owner_number s t i 0);
      solve [rewrite E; (done || apply Z.eqb_refl) | auto]). quiet E.
  - unfold number_request. destruct (Z.eqb_spec (next_id (memory s)) 0); [quiet E|].
    intros [= <-]. apply (exchange_owner_number s t i (next_id (memory s)));
      solve [rewrite E; (done || apply Z.eqb_refl) | eauto].
  - unfold queue_request. destruct (_ =? 0); [|done]. intros [= <-]. by apply exchange_send.
  - assert (forall s', ('(m, p) ← poll_response i (memory s);
      Done {| memory := m; threads := set_thread t p (threads s) |}) = Done s' -> exchange s') as P.
    { intros s1. unfold poll_response. rewrite mask_test by done.
      destruct (Z.testbit _ i) eqn:Hb; simpl; [|quiet E].
      intros [= <-]. by apply exchange_receive. }
    by destruct c; try apply P.
  - unfold begin_release. destruct (negb _); [quiet E|done].
  - unfold try_release, cas. destruct (_ =? _); quiet E.
  - quiet E.
  - unfold check_taken. destruct (negb _); [quiet E|done].
  - destruct c; try (unfold queue_response; destruct (_ =? 0); [|done]; intros [= <-];
      apply (exchange_respond s t i); [done..|]; intros j Hj;
      fold (set_bit64 (responses (memory s)) i); rewrite set_bit64_spec by (apply L || apply Hj);
      destruct (Z.eqb_spec j i); auto).
    intros [= <-]. destruct (memory s) as [b h q r n f] eqn:Em.
    replace {| bitmap := b; hint := h; requests := q; responses := r; next_id := n; ids := f |}
      with (with_responses (responses (memory s)) (memory s)) by (by rewrite Em).
    apply (exchange_respond s t i); [done..|auto].
Qed.

Lemma reachable_exchange s : reachable_system false s -> exchange s.
Proof.
  induction 1 as [|t c s s' H IH Hc Hs]; [apply exchange_initial|].
  eapply exchange_step; [by eapply reachable_ownership|done|by apply Hc|done].
Qed.

(** With both invariants no assertion fails. *)
Lemma step_done t c s : ownership s -> exchange s -> is_done (system_step t c s) = true.
Proof.
  intros Ho Hx. pose proof (ow_local _ Ho t) as L. pose proof (ow_words _ Ho) as W.
  pose proof (wd_bitmap _ W) as Wb. pose proof (wd_requests _ W) as Wq. pose proof (wd_responses _ W) as Wr.
  assert (forall i, is_slot i -> owns (threads s t) i = true -> waits (threads s t) i = false ->
    (Z.land (requests (memory s)) (make_mask64 i) =? 0) = true) as Q.
  { intros i Hi Hown Hw. rewrite mask_test by done. by destruct (exchange_idle s t i) as (-> & _). }
  assert (is_done (thread_step c (memory s) (threads s t)) = true ->
    is_done (system_step t c s) = true) as S.
  { unfold system_step. by destruct (thread_step _ _ _) as [[]|]. }
  apply S. clear S.
  destruct (threads s t) as [|b|b i|i|b i|i|i| |i|i|i|i|i|b i|i|i|i] eqn:E; cbn [thread_step local_ok] in L |- *; try done.
  - destruct c; try done. by destruct (take_request_run random_ (memory s) Wq) as [[_ ->]|(i & _ & _ & ->)].
  - unfold cas. by destruct (_ =? _).
  - by destruct (_ <? _).
  - unfold cas. by destruct (_ =? _).
  - by rewrite Q by (done || apply Z.eqb_refl).
  - by destruct c.
  - unfold queue_request. by rewrite Q by (done || apply Z.eqb_refl).
  - destruct c; try done; unfold poll_response; by destruct (_ =? 0).
  - unfold begin_release. rewrite clear_bit64_same by (done || apply L).
    rewrite (ow_bit _ Ho t i) by (rewrite E; apply Z.eqb_refl). done.
  - unfold try_release, cas. by destruct (_ =? _).
  - unfold check_taken. assert (ids (memory s) i <> 0) as N%Z.eqb_neq; [|by rewrite N].
    apply (ex_number _ Hx i L). right. exists t. rewrite E. apply Z.eqb_refl.
  - assert (Z.testbit (responses (memory s)) i = false) as Hr.
    { destruct (Z.testbit (responses (memory s)) i) eqn:Hr; [|done].
      pose proof (ex_response _ Hx i L Hr t) as F. rewrite E in F. simpl in F. by rewrite Z.eqb_refl in F. }
    destruct c; try done; unfold queue_response; by rewrite mask_test, Hr.
Qed.

(** C20: However the steps of the threads interleave, a block is never in the
    hands of two threads, and its bit in the allocation bitmap is set exactly
    while it is in the hands of one.  When no client gives a block back
    without waiting for its response, a queued request, a queued response and
    a worker that has taken a request all belong to a client that waits, and
    no step of any thread fails: neither the assertions on the three bitmaps
    nor that on the request number.  (The assertions on the other contents of
    the blocks are not part of these steps.) *)
Theorem blocks_exclusive abandons s :
  reachable_system abandons s ->
  (forall t u i, owns (threads s t) i = true -> owns (threads s u) i = true -> t = u) /\
  (forall i, is_slot i ->
     (Z.testbit (bitmap (memory s)) i = true <-> exists t, owns (threads s t) i = true)) /\
  (abandons = false ->
     (forall i, is_slot i ->
        Z.testbit (requests (memory s)) i = true \/ Z.testbit (responses (memory s)) i = true \/
          (exists u, threads s u = Taken i \/ threads s u = Serving i) ->
        exists t, threads s t = Waiting i) /\
     (forall t c, is_done (system_step t c s) = true)).
Proof.
  intros H. pose proof (reachable_ownership _ _ H) as Ho. split; [|split].
  - apply (ow_unique _ Ho).
  - intros i Hi. split; [by apply (ow_owner _ Ho)|]. intros [t Ht]. by eapply (ow_bit _ Ho).
  - intros ->. pose proof (reachable_exchange _ H) as Hx. split; [|by intros; apply step_done].
    intros i Hi Hor. destruct (ex_client _ Hx i Hi) as [t Ht].
    { destruct Hor as [?|[?|[u Hu]]]; [by left|right; by left|right; right].
      exists u. destruct Hu as [-> | ->]; apply Z.eqb_refl. }
    exists t. destruct (threads s t); try done. by apply Z.eqb_eq in Ht as ->.
Qed.

(** * Schedules *)

Lemma run_schedule_reachable a ts s s' :
  reachable_system a s -> forallb (fun tc => a || negb (match tc.2 with Abandon => true | _ => false end)) ts = true ->
  run_schedule ts s = Done s' -> reachable_system a s'.
Proof.
  revert s. induction ts as [|[t c] ts IH]; intros s Hs; simpl; [by intros _ [= <-]|].
  intros [Hc Hts]%andb_true_iff. destruct (system_step t c s) as [s1|] eqn:E; [|done].
  apply IH; [|done]. eapply rs_step; [done| |done]. intros ->. by destruct c.
Qed.

Definition take_block (t : nat) : list (nat * choice) := replicate 5 (t, Go).

(** A worker has the request of client 0, the request of client 1 is queued,
    and client 2 is releasing its block. *)
Definition send_block (t : nat) : list (nat * choice) := [(t, Send); (t, Go); (t, Go)].

Definition busy : list (nat * choice) :=
  take_block 0 ++ send_block 0 ++ take_block 1 ++ [(8%nat, Take 3); (8%nat, Go)] ++
  send_block 1 ++ take_block 2 ++ [(2, Go); (2, Go)]%nat.

Definition busy_system : system :=
  match run_schedule busy initial with Done s => s | Fail _ => initial end.

Lemma busy_state :
  threads busy_system 0 = Waiting 0 /\ threads busy_system 8 = Serving 0 /\
  threads busy_system 1 = Waiting 1 /\ threads busy_system 2 = Release 7 2 /\
  requests (memory busy_system) = 2.
Proof. vm_compute. auto. Qed.

Lemma busy_reachable : reachable_system false busy_system.
Proof.
  unfold busy_system. destruct (run_schedule busy initial) as [s|] eqn:E; [|apply rs_initial].
  by eapply run_schedule_reachable; [apply rs_initial| |exact E].
Qed.

Lemma blocks_exclusive_witness :
  threads busy_system 2 = Release 7 2 /\
  (forall t u i, owns (threads busy_system t) i = true -> owns (threads busy_system u) i = true -> t = u) /\
  (forall i, is_slot i ->
     (Z.testbit (bitmap (memory busy_system)) i = true <-> exists t, owns (threads busy_system t) i = true)) /\
  (forall t c, is_done (system_step t c busy_system) = true).
Proof.
  destruct (blocks_exclusive false busy_system busy_reachable) as (H1 & H2 & H3).
  split; [apply busy_state|]. split; [exact H1|]. split; [exact H2|]. by apply H3.
Defined.

(** * A client that does not wait

    Client 0 gives block 0 back while its request is queued or in work.  A
    client that takes and releases the other 63 blocks gets block 0 next. *)

Definition use_block (t : nat) : list (nat * choice) := take_block t ++ replicate 3 (t, Go).

Definition give_back (t : nat) : list (nat * choice) := (t, Abandon) :: replicate 2 (t, Go).

Definition claim_again : list (nat * choice) :=
  mjoin (replicate 63 (use_block 1)) ++ replicate 4 (1%nat, Go).

(** The request is queued when its block is given back, and the block is
    given to client 1. *)
Definition queued : list (nat * choice) :=
  take_block 0 ++ send_block 0 ++ give_back 0 ++ claim_again.

(** The request is queued when its block is given back, and a worker takes
    it. *)
Definition taken_late : list (nat * choice) :=
  take_block 0 ++ send_block 0 ++ give_back 0 ++ [(8%nat, Take 0)].

(** A worker has the request when its block is given back; it answers when
    client 1 has sent a request of its own. *)
Definition answered_late : list (nat * choice) :=
  take_block 0 ++ send_block 0 ++ [(8%nat, Take 0); (8%nat, Go)] ++ give_back 0 ++ claim_again ++
  [(1%nat, Go)] ++ send_block 1 ++ [(8%nat, Go)].

Lemma run_then (P : system -> Prop) o :
  match o with Done s => P s | Fail _ => False end -> exists s, o = Done s /\ P s.
Proof. destruct o as [s|]; [by exists s|done]. Qed.


(** * A free block that is missed

    Threads 0 to 62 take blocks 0 to 62; thread 100 is about to try block 63
    when thread 99 takes it, so that thread 100 scans from block 0; once it
    has passed block 0 that block is released.  Thread 100 gets to the end of
    the scan and returns NULL with block 0 free. *)

Definition race : list (nat * choice) :=
  flat_map take_block (seq 0 63) ++ [(100, Go); (100, Go)]%nat ++ take_block 99 ++
  [(100, Go); (100, Go)]%nat ++ [(0, Go); (0, Go); (0, Go)]%nat ++ replicate 64 (100%nat, Go).

Definition is_full (p : pc) : bool := match p with Full => true | _ => false end.

Definition missed (o : outcome system) : bool :=
  match o with
  | Done s => is_full (threads s 100%nat) && negb (Z.testbit (bitmap (memory s)) 0)
  | Fail _ => false
  end.

Lemma race_misses : missed (run_schedule race initial) = true.
Proof. vm_compute. reflexivity. Qed.

Lemma race_waits : forallb (fun tc => negb (match tc.2 with Abandon => true | _ => false end)) race = true.
Proof. vm_compute. reflexivity. Qed.

(** Allocation is not exact when threads race: a thread can be told that
    there is no buffer while one is free. *)
Theorem allocation_may_miss :
  exists s t i, reachable_system false s /\ is_slot i /\
    is_full (threads s t) = true /\ Z.testbit (bitmap (memory s)) i = false.
Proof.
  pose proof race_misses as C. pose proof (run_schedule_reachable false race initial) as R.
  generalize dependent (run_schedule race initial). intros [s|f] C R; [|discriminate C].
  apply andb_true_iff in C as [C1 C2]. exists s, 100%nat, 0.
  split; [apply R; [apply rs_initial|exact race_waits|done]|].
  split; [done|]. split; [done|]. by apply negb_true_iff.
Qed.
