(* ===== verification/Calls.v ===== *)
(** The calls of the client library over the shared memory region.

    The senders and receivers of src/finesse/communications/namemap.c,
    unlink.c, testmsg.c and stat.c, with [FinesseGetReplyErrResponse] and
    [FinesseFreeClientResponse] of fcc.c: four calls, each a request and a
    response written into one block of the region of Region.v.

    A client handle is the address of its region (NULL when there is none);
    the server finds the region of client [index] in its table [regions]
    ([FcGetSharedMemoryRegion] of fcs.c).  A name is written at the end of the
    message; [DATA_SIZE] bytes of the block follow its header.

    Results: a call that succeeds on the server delivers its answer to the
    client and frees its block; and what these wrappers lose: the directory
    of a name map request, the result of an unlink, sixteen bytes behind a
    block, and the client itself when a name map fails. *)

From stdpp Require Import list strings.
From S2P Require Import Prelude Bitmap Message Region.

Open Scope word_scope.

(** ** Addresses of messages *)

Definition on_message (base : Z) (m : ptr) (f : fincomm_message_block -> fincomm_message_block) :
    M world unit :=
  let index := block_index base m in
  if block_addr base index =? m then update_block index f else mthrow BadPointer.

Definition read_message (base : Z) (m : ptr) : M world fincomm_message_block :=
  let index := block_index base m in
  if block_addr base index =? m then load_block index else mthrow BadPointer.

(** sizeof (Data), and the offsets of the names in a [finesse_msg]. *)
Definition DATA_SIZE : Z := SHM_PAGE_SIZE - 16.
Definition offsetof_Map_Name : Z := 148.
Definition offsetof_Unlink_Name : Z := 144.
Definition offsetof_Stat_Name : Z := 164.

(** The copy of a name of the message at [offset], after the check of its
    length against the page: a copy that leaves the block is undefined. *)
Definition check_name (offset : Z) (name : string) : M world unit :=
  let nameLength := Z.of_nat (String.length name) in
  let bufSize := SHM_PAGE_SIZE - offset in
  c_assert (nameLength <? bufSize);;
  if offset + nameLength + 1 <=? DATA_SIZE then mret () else mthrow Undefined.

Definition not_null (p : ptr) : bool := negb (p =? NULL).

(** The common end of the senders. *)
Definition send_request (base : Z) (m : ptr) (now : timespec) : M world (Z * ptr) :=
  status ← FinesseRequestReady base m now;
  c_assert (negb (status =? 0));; mret (0, m).

(** * The server side of a region *)

Definition FcGetSharedMemoryRegion (regions : Z -> ptr) (index : Z) : M world ptr :=
  c_assert (index <? SHM_MESSAGE_COUNT);; mret (regions index).

(** The common frame of the responders: [fill] writes the response. *)
Definition send_response (regions : Z -> ptr) (client : Z) (m : ptr) (result : Z)
    (fill : finesse_msg -> finesse_msg) (check : bool) (now : timespec) : M world Z :=
  let index := u32 client in
  fsmr ← FcGetSharedMemoryRegion regions index;
  c_assert (not_null fsmr);;
  c_assert (index <? SHM_MESSAGE_COUNT);;
  c_assert (not_null m);;
  b ← read_message fsmr m;
  c_assert (FINESSE_REQUEST =? MessageType b);;
  on_message fsmr m (fun b => set_Data fill (set_block_header FINESSE_RESPONSE (u32 result) b));;
  c_assert check;;
  FinesseResponseReady fsmr m now;;
  mret 0.

(** The common start of the receivers: wait and load. *)
Definition get_response (base : Z) (m : ptr) (now : timespec) : M world fincomm_message_block :=
  c_assert (not_null base);;
  c_assert (not_null m);;
  status ← FinesseGetResponse base m 1 now;
  c_assert (negb (status =? 0));;
  b ← read_message base m;
  c_assert (FINESSE_RESPONSE =? MessageType b);;
  mret b.

Definition FinesseFreeClientResponse (base : Z) (m : ptr) (now : timespec) : M world unit :=
  c_assert (not_null base);; FinesseReleaseRequestBuffer base m now.

(** * namemap.c *)

(** [Map.Parent] is written twice: with the directory, then with zeros. *)
Definition FinesseSendNameMapRequest (base : Z) (ParentDir : option uuid) (NameToMap : string)
    (Flags : Z) (t0 t1 : timespec) : M world (Z * ptr) :=
  c_assert (not_null base);;
  message ← FinesseGetRequestBuffer base FINESSE_NATIVE_MESSAGE (native_req_code FINESSE_NATIVE_REQ_MAP) t0;
  c_assert (not_null message);;
  let parent := default 0 ParentDir in
  check_name offsetof_Map_Name NameToMap;;
  on_message base message (set_Data (set_Parameters (ReqMap parent Flags NameToMap)));;
  on_message base message (set_Data (set_Parameters (ReqMap 0 Flags NameToMap)));;
  send_request base message t1.

Definition FinesseSendNameMapResponse (regions : Z -> ptr) (client : Z) (m : ptr)
    (MapKey : option uuid) (result : Z) (now : timespec) : M world Z :=
  send_response regions client m result
    (fun d => set_Parameters (RspMap result MapKey)
                (set_Type FINESSE_NATIVE_RSP_MAP
                   (set_header FINESSE_MESSAGE_VERSION FINESSE_NATIVE_MESSAGE d)))
    (negb (result =? 0) || match MapKey with Some _ => true | None => false end) now.

(** Without a key in the response the client reads whatever the block held. *)
Definition FinesseGetNameMapResponse (base : Z) (m : ptr) (now : timespec) : M world (Z * uuid) :=
  b ← get_response base m now;
  c_assert (0 =? blk_Result b);;
  let d := Data b in
  c_assert (FINESSE_NATIVE_MESSAGE =? MessageClass d);;
  c_assert (FINESSE_NATIVE_RSP_MAP =? Type_ d);;
  match Parameters d with
  | RspMap r (Some key) =>
      c_assert (0 =? r);; c_assert (negb (uuid_is_null key));; mret (0, key)
  | _ => mthrow Undefined
  end.

Definition FinesseFreeNameMapResponse := FinesseFreeClientResponse.

Definition FinesseSendNameMapReleaseRequest (base : Z) (MapKey : uuid) (t0 t1 : timespec) :
    M world (Z * ptr) :=
  c_assert (not_null base);;
  message ← FinesseGetRequestBuffer base FINESSE_NATIVE_MESSAGE
              (native_req_code FINESSE_NATIVE_REQ_MAP_RELEASE) t0;
  c_assert (not_null message);;
  on_message base message (set_Data (set_Parameters (ReqMapRelease MapKey)));;
  send_request base message t1.

Definition FinesseSendNameMapReleaseResponse (regions : Z -> ptr) (client : Z) (m : ptr)
    (result : Z) (now : timespec) : M world Z :=
  send_response regions client m result
    (fun d => set_Parameters (RspMapRelease result)
                (set_Type FINESSE_NATIVE_RSP_MAP_RELEASE
                   (set_header FINESSE_MESSAGE_VERSION FINESSE_NATIVE_MESSAGE d)))
    true now.

Definition FinesseGetNameMapReleaseResponse (base : Z) (m : ptr) (now : timespec) : M world Z :=
  b ← get_response base m now;
  c_assert (0 =? blk_Result b);;
  let d := Data b in
  c_assert (FINESSE_NATIVE_MESSAGE =? MessageClass d);;
  c_assert (FINESSE_NATIVE_RSP_MAP_RELEASE =? Type_ d);;
  match Parameters d with
  | RspMapRelease r => c_assert (0 =? r);; mret 0
  | _ => mthrow Undefined
  end.

Definition FinesseFreeNameMapReleaseResponse := FinesseFreeClientResponse.

(** * unlink.c *)

Definition FinesseSendUnlinkRequest (base : Z) (Parent : option uuid) (NameToUnlink : string)
    (t0 t1 : timespec) : M world (Z * ptr) :=
  c_assert (not_null base);;
  message ← FinesseGetRequestBuffer base FINESSE_FUSE_MESSAGE (fuse_req_code FINESSE_FUSE_REQ_UNLINK) t0;
  c_assert (not_null message);;
  parent ← deref Parent;
  check_name offsetof_Unlink_Name NameToUnlink;;
  on_message base message (set_Data (set_Parameters (ReqUnlink parent NameToUnlink)));;
  send_request base message t1.

Definition FinesseSendUnlinkResponse (regions : Z -> ptr) (client : Z) (m : ptr)
    (result : Z) (now : timespec) : M world Z :=
  send_response regions client m result
    (fun d => set_Type FINESSE_FUSE_RSP_ERR
                (set_header FINESSE_MESSAGE_VERSION FINESSE_FUSE_MESSAGE d)) true now.

Definition check_fuse (type : Z) (d : finesse_msg) : M world unit :=
  c_assert (FINESSE_MESSAGE_VERSION =? Version d);;
  c_assert (FINESSE_FUSE_MESSAGE =? MessageClass d);;
  c_assert (type =? Type_ d).

Definition FinesseGetUnlinkResponse (base : Z) (m : ptr) (now : timespec) : M world Z :=
  b ← get_response base m now;
  check_fuse FINESSE_FUSE_RSP_ERR (Data b);; mret 0.

Definition FinesseFreeUnlinkResponse := FinesseFreeClientResponse.

(** fcc.c: status and [*Result] *)
Definition FinesseGetReplyErrResponse (base : Z) (m : ptr) (now : timespec) : M world (Z * Z) :=
  b ← get_response base m now;
  check_fuse FINESSE_FUSE_RSP_ERR (Data b);; mret (0, Result (Data b)).

(** * testmsg.c *)

Definition TEST_VERSION : Z := 0x10.

Definition FinesseSendTestRequest (base : Z) (t0 t1 : timespec) : M world (Z * ptr) :=
  c_assert (not_null base);;
  message ← FinesseGetRequestBuffer base FINESSE_NATIVE_MESSAGE (native_req_code FINESSE_NATIVE_REQ_TEST) t0;
  c_assert (not_null message);;
  on_message base message (set_Data (set_Parameters (ReqTest TEST_VERSION)));;
  send_request base message t1.

Definition FinesseSendTestResponse (regions : Z -> ptr) (client : Z) (m : ptr)
    (result : Z) (now : timespec) : M world Z :=
  send_response regions client m result
    (fun d => set_Parameters (RspTest TEST_VERSION)
                (set_Type FINESSE_NATIVE_RSP_TEST
                   (set_header FINESSE_MESSAGE_VERSION FINESSE_NATIVE_MESSAGE d)))
    true now.

Definition FinesseGetTestResponse (base : Z) (m : ptr) (now : timespec) : M world Z :=
  b ← get_response base m now;
  match Parameters (Data b) with
  | RspTest v => c_assert (TEST_VERSION =? v);; mret 0
  | _ => mthrow Undefined
  end.

Definition FinesseFreeTestResponse := FinesseFreeClientResponse.

(** * stat.c *)

Definition FinesseSendCommonStatRequest (base : Z) (Parent Inode : option uuid) (Flags : Z)
    (Path : option string) (t0 t1 : timespec) : M world (Z * ptr) :=
  c_assert (not_null base);;
  message ← FinesseGetRequestBuffer base FINESSE_FUSE_MESSAGE (fuse_req_code FINESSE_FUSE_REQ_STAT) t0;
  c_assert (not_null message);;
  let parent := default 0 Parent in
  let inode := default 0 Inode in
  c_assert (match Path, Inode with None, None => false | _, _ => true end);;
  on_message base message (set_Data (set_Parameters (ReqStat parent inode Flags EmptyString)));;
  match Path with
  | None => mret ()
  | Some path =>
      check_name offsetof_Stat_Name path;;
      on_message base message (set_Data (set_Parameters (ReqStat parent inode Flags path)))
  end;;
  send_request base message t1.

Definition FinesseSendStatResponse (regions : Z -> ptr) (client : Z) (m : ptr)
    (Stat : option blob) (Timeout : blob) (result : Z) (now : timespec) : M world Z :=
  send_response regions client m result
    (fun d => set_Parameters (RspAttr (default [] Stat) Timeout)
                (set_Type FINESSE_FUSE_RSP_ATTR
                   (set_Result result
                      (set_header FINESSE_MESSAGE_VERSION FINESSE_FUSE_MESSAGE d))))
    (match Stat with Some _ => true | None => false end) now.

(** status, [*Attr], [*Timeout] and [*Result] *)
Definition FinesseGetStatResponse (base : Z) (m : ptr) (now : timespec) :
    M world (Z * blob * blob * Z) :=
  b ← get_response base m now;
  let d := Data b in
  check_fuse FINESSE_FUSE_RSP_ATTR d;;
  match Parameters d with
  | RspAttr attr timeout => mret (0, attr, timeout, Result d)
  | _ => mthrow Undefined
  end.

Definition FinesseFreeStatResponse := FinesseFreeClientResponse.

(** * One block on its way *)

(** Block [i] is the one slot in which the region differs from [sl], where
    it is free; it is in state [s] and holds a block with payload [p]. *)
Definition in_transit (base : Z) (w : world) (sl : slots) (i : Z) (s : slot)
    (p : Z * Z * Z * Z * Z * Z * params * timespec) : Prop :=
  represents base w (move i s sl) /\ is_slot i /\ sl i = Free /\
  exists b, Messages (shm w) !! Z.to_nat i = Some b /\ payload b = p.

Lemma move_here i s sl : move i s sl i = s.
Proof. unfold move. by rewrite Z.eqb_refl. Qed.

Lemma move_move i s s' sl j : move i s' (move i s sl) j = move i s' sl j.
Proof. unfold move. by destruct (j =? i). Qed.

Lemma in_transit_move base w w' sl i s s' p :
  in_transit base w sl i s p -> represents base w' (move i s' (move i s sl)) -> same_payload w w' ->
  in_transit base w' sl i s' p.
Proof.
  intros (H & Hi & Hf & b & Hb & Hp) H' Hsame.
  destruct (same_payload_lookup _ _ _ _ Hsame Hb) as (b' & Hb' & Hp').
  split; [|split; [done|split; [done|exists b'; split; [done|by rewrite Hp']]]].
  eapply represents_ext; [|exact H']. apply move_move.
Qed.

Lemma transit_buffer base w sl c t now :
  represents base w sl -> valid_call c t = true -> normal now -> 0 < tv_sec now ->
  (exists j, is_slot j /\ sl j = Free) ->
  exists i w' br v r p, FinesseGetRequestBuffer base c t now w = Done (block_addr base i, w') /\
    in_transit base w' sl i Allocated (br, FINESSE_REQUEST, v, c, r, t, p, now).
Proof.
  intros H Hv Hn Hs (j & Hj & Hf).
  destruct (FinesseGetRequestBuffer_run base w sl c t now H Hv Hn Hs)
    as [(i & w' & Hi & Hfi & Hr & Hw & b & Hb & Hmt & Hc & Ht & Hst)|[Hfull _]];
    [|by destruct (Hfull j Hj)].
  exists i, w', (blk_Result b), (Version (Data b)), (Result (Data b)), (Parameters (Data b)).
  split; [done|]. split; [done|]. split; [done|]. split; [done|].
  exists b. split; [done|]. unfold payload. by rewrite Hmt, Hc, Ht, Hst.
Qed.

Lemma transit_write base w sl i s p f p' :
  in_transit base w sl i s p -> s <> Free ->
  (forall b, RequestId (f b) = RequestId b /\ Stats (Data (f b)) = Stats (Data b)) ->
  (forall b, payload b = p -> payload (f b) = p') ->
  exists w', on_message base (block_addr base i) f w = Done (tt, w') /\ in_transit base w' sl i s p'.
Proof.
  intros (H & Hi & Hf & b & Hb & Hp) Hs Hk Hp'. unfold on_message.
  rewrite block_index_addr, Z.eqb_refl by (apply H || done).
  exists (put_block i (f b) w). split; [apply update_block_run; [apply Hi|done]|].
  split; [|split; [done|split; [done|exists (f b); split; [by eapply put_block_lookup; [apply Hi|]|by apply Hp']]]].
  assert (represents base (put_block i (f b) w) (move i (move i s sl i) (move i s sl))) as R.
  { eapply represents_write; [exact H|done|by rewrite move_here|exact Hb|].
    destruct (Hk b) as [K1 K2]. intros []. constructor; rewrite ?K1, ?K2; done. }
  eapply represents_ext; [|exact R]. intros j. by rewrite move_move, move_here.
Qed.

Lemma transit_read base w sl i s p :
  in_transit base w sl i s p ->
  exists b, read_message base (block_addr base i) w = Done (b, w) /\ payload b = p.
Proof.
  intros (H & Hi & Hf & b & Hb & Hp). exists b. split; [|done]. unfold read_message.
  rewrite block_index_addr, Z.eqb_refl by (apply H || done). by apply load_block_run; [apply Hi|].
Qed.

Lemma transit_send base w sl i p now :
  in_transit base w sl i Allocated p -> normal now ->
  exists w', send_request base (block_addr base i) now w = Done ((0, block_addr base i), w') /\
    in_transit base w' sl i Ready p.
Proof.
  intros T Hn. pose proof T as (H & Hi & Hf & _). unfold send_request.
  destruct (FinesseRequestReady_run base w _ i now H Hi (move_here _ _ _) Hn) as (id & w' & Hr & Hid & Hw & Hsame).
  exists w'. split; [|by eapply in_transit_move].
  run_step ltac:(exact Hr). by rewrite c_assert_bind by (by destruct (Z.eqb_spec id 0)).
Qed.

(** The server takes the request when no other one is waiting. *)
Lemma transit_take base w sl i p rnd now :
  in_transit base w sl i Ready p -> normal now -> (forall j, is_slot j -> sl j <> Ready) ->
  exists w', FinesseGetReadyRequest base rnd now w = Done ((0, block_addr base i), w') /\
    in_transit base w' sl i Taken p.
Proof.
  intros T Hn Hno. pose proof T as (H & Hi & Hf & _).
  destruct (FinesseGetReadyRequest_run base w _ rnd now H Hn) as [(j & w' & Hj & Hs & Hr & Hw & Hsame)|[Hnone _]].
  - assert (j = i) as ->.
    { destruct (decide (j = i)) as [->|Hne]; [done|]. unfold move in Hs.
      destruct (Z.eqb_spec j i); [done|]. by destruct (Hno j Hj). }
    exists w'. split; [done|]. by eapply in_transit_move.
  - by destruct (Hnone i Hi); rewrite move_here.
Qed.

Lemma transit_respond base w sl i p fill result check regions client now p' :
  in_transit base w sl i Taken p -> normal now ->
  0 <= client < SHM_MESSAGE_COUNT -> regions client = base -> check = true ->
  p.1.1.1.1.1.1.2 = FINESSE_REQUEST ->
  (forall d, Stats (fill d) = Stats d) ->
  (forall b, payload b = p ->
     payload (set_Data fill (set_block_header FINESSE_RESPONSE (u32 result) b)) = p') ->
  exists w', send_response regions client (block_addr base i) result fill check now w = Done (0, w') /\
    in_transit base w' sl i Responded p'.
Proof.
  intros T Hn Hc Hr -> Hreq Hfill Hp'. pose proof T as (H & Hi & Hf & _). unfold send_response, FcGetSharedMemoryRegion. cbv zeta.
  rewrite (wrap_small 32 client) by (unfold SHM_MESSAGE_COUNT in Hc; lia).
  rewrite M_assoc, c_assert_bind, mret_bind, Hr by lia.
  rewrite c_assert_bind by (by eapply base_not_null).
  rewrite c_assert_bind by lia.
  rewrite c_assert_bind by (by eapply addr_not_null).
  destruct (transit_read _ _ _ _ _ _ T) as (b & Hb & Hpb). run_step ltac:(exact Hb).
  rewrite c_assert_bind.
  2:{ subst p. unfold payload in Hreq. simpl in Hreq. by rewrite Hreq. }
  destruct (transit_write base w sl i Taken p
    (fun b => set_Data fill (set_block_header FINESSE_RESPONSE (u32 result) b)) p' T) as (w1 & Hw1 & T1);
    [done|intros b'; split; [done|apply Hfill]|done|].
  run_step ltac:(exact Hw1). rewrite c_assert_bind by done.
  pose proof T1 as (H1 & _ & _ & _).
  destruct (FinesseResponseReady_run base w1 _ i now H1 Hi (move_here _ _ _) Hn) as (w2 & Hr2 & Hw2 & Hsame).
  exists w2. split; [by run_step ltac:(exact Hr2)|]. by eapply in_transit_move.
Qed.

Lemma transit_receive base w sl i p now :
  in_transit base w sl i Responded p -> normal now -> p.1.1.1.1.1.1.2 = FINESSE_RESPONSE ->
  exists b w', get_response base (block_addr base i) now w = Done (b, w') /\ payload b = p /\
    in_transit base w' sl i Answered p.
Proof.
  intros T Hn Hrsp. pose proof T as (H & Hi & Hf & _). unfold get_response.
  rewrite c_assert_bind by (by eapply base_not_null).
  rewrite c_assert_bind by (by eapply addr_not_null).
  destruct (FinesseGetResponse_run base w _ i 1 now H Hi (move_here _ _ _) Hn) as (w' & Hr & Hw & Hsame).
  run_step ltac:(exact Hr). rewrite c_assert_bind by done.
  assert (in_transit base w' sl i Answered p) as T' by (by eapply in_transit_move).
  destruct (transit_read _ _ _ _ _ _ T') as (b & Hb & Hpb). exists b, w'.
  split; [|done]. run_step ltac:(exact Hb). rewrite c_assert_bind; [done|].
  subst p. unfold payload in Hrsp. simpl in Hrsp. by rewrite Hrsp.
Qed.

Lemma transit_free base w sl i s p now :
  in_transit base w sl i s p -> s = Allocated \/ s = Answered -> normal now ->
  tv_sec (timespec_diff p.2 now) <= 3600 ->
  exists w', FinesseFreeClientResponse base (block_addr base i) now w = Done (tt, w') /\
    represents base w' sl.
Proof.
  intros (H & Hi & Hf & b & Hb & Hp) Hs Hn Ht. unfold FinesseFreeClientResponse.
  rewrite c_assert_bind by (by eapply base_not_null).
  destruct (FinesseReleaseRequestBuffer_run base w _ i b now H Hi) as (w' & Hr & Hw); rewrite ?move_here;
    [done|done|done| |].
  { unfold answered_within_the_hour. by subst p. }
  exists w'. split; [done|]. eapply represents_ext; [|exact Hw].
  intros j. rewrite move_move. unfold move. by destruct (Z.eqb_spec j i) as [->|].
Qed.

(** * Whole calls *)

Definition fits (offset : Z) (name : string) : Prop :=
  offset + Z.of_nat (String.length name) + 1 <= DATA_SIZE.

Lemma check_name_run offset name w : fits offset name -> check_name offset name w = Done (tt, w).
Proof.
  unfold fits, DATA_SIZE, check_name. intros H.
  rewrite c_assert_bind by (apply Z.ltb_lt; lia).
  destruct (Z.leb_spec (offset + Z.of_nat (String.length name) + 1) DATA_SIZE); [done|].
  unfold DATA_SIZE in *. lia.
Qed.

(** The times of a call are normalised, it starts at a positive time and is
    released within the hour. *)
Record call_times (t0 : timespec) (ts : list timespec) (last : timespec) : Prop := {
  ct_start : normal t0 /\ 0 < tv_sec t0;
  ct_rest : Forall normal ts;
  ct_hour : tv_sec (timespec_diff t0 last) <= 3600 }.

(** The region can take a call of this client: a block is free and no other
    request waits. *)
Record can_call (base : Z) (regions : Z -> ptr) (client : Z) (w : world) (sl : slots) : Prop := {
  cc_region : represents base w sl;
  cc_client : 0 <= client < SHM_MESSAGE_COUNT;
  cc_server : regions client = base;
  cc_free : exists j, is_slot j /\ sl j = Free;
  cc_idle : forall j, is_slot j -> sl j <> Ready }.

Ltac times H := destruct H as [[? ?] H ?]; repeat (apply Forall_cons in H as [? H]).

Lemma payload_set_Parameters a b c d e f p q t blk :
  payload blk = (a, b, c, d, e, f, p, t) ->
  payload (set_Data (set_Parameters q) blk) = (a, b, c, d, e, f, q, t).
Proof. unfold payload. cbn. congruence. Qed.

(** A name map call: what the server reads, and what the client gets. *)
Definition name_map_call (base : Z) (regions : Z -> ptr) (client : Z) (dir : option uuid)
    (name : string) (flags rnd : Z) (key : option uuid) (result : Z)
    (t0 t1 t2 t3 t4 t5 : timespec) : M world (params * (Z * uuid)) :=
  '(_, m) ← FinesseSendNameMapRequest base dir name flags t0 t1;
  '(_, m') ← FinesseGetReadyRequest base rnd t2;
  b ← read_message base m';
  FinesseSendNameMapResponse regions client m' key result t3;;
  r ← FinesseGetNameMapResponse base m t4;
  FinesseFreeNameMapResponse base m t5;;
  mret (Parameters (Data b), r).

Lemma name_map_request base regions client w sl dir name flags t0 t1 ts t5 :
  can_call base regions client w sl -> call_times t0 (t1 :: ts) t5 -> fits offsetof_Map_Name name ->
  exists i w' br v r, FinesseSendNameMapRequest base dir name flags t0 t1 w = Done ((0, block_addr base i), w') /\
    in_transit base w' sl i Ready
      (br, FINESSE_REQUEST, v, FINESSE_NATIVE_MESSAGE, r, native_req_code FINESSE_NATIVE_REQ_MAP,
       ReqMap 0 flags name, t0).
Proof.
  intros [H Hc Hr Hf Hi] Ht Hname. times Ht. unfold FinesseSendNameMapRequest.
  rewrite c_assert_bind by (by eapply base_not_null).
  destruct (transit_buffer base w sl FINESSE_NATIVE_MESSAGE (native_req_code FINESSE_NATIVE_REQ_MAP) t0)
    as (i & w1 & br & v & r & p & Hb & T); [done..|].
  run_step ltac:(exact Hb). pose proof T as (Hrep & Hslot & _).
  rewrite c_assert_bind by (by eapply addr_not_null). cbv zeta.
  run_step ltac:(by apply check_name_run).
  edestruct transit_write with (1 := T) as (w2 & Hw2 & T2); cycle 3.
  { run_step ltac:(exact Hw2).
    edestruct transit_write with (1 := T2) as (w3 & Hw3 & T3); cycle 3.
    { run_step ltac:(exact Hw3).
      edestruct transit_send with (1 := T3) as (w4 & Hw4 & T4); [done|].
      exists i, w4, br, v, r. split; [exact Hw4|exact T4]. }
    all: try done. apply payload_set_Parameters. }
  all: try done. apply payload_set_Parameters.
Qed.

(** A name map that the server answers with a key delivers the key and
    leaves the region as it was; but the server never learns the directory:
    whatever directory the client names, the request says none (0), because
    it is overwritten with zeros before the request is sent. *)
Theorem name_map_call_answers base regions client w sl dir name flags rnd key t0 t1 t2 t3 t4 t5 :
  can_call base regions client w sl -> call_times t0 [t1; t2; t3; t4; t5] t5 ->
  fits offsetof_Map_Name name -> uuid_is_null key = false ->
  exists w', name_map_call base regions client dir name flags rnd (Some key) 0 t0 t1 t2 t3 t4 t5 w =
      Done ((ReqMap 0 flags name, (0, key)), w') /\ represents base w' sl.
Proof.
  intros Hcan Ht Hname Hkey. pose proof Hcan as [_ Hc Hr _ Hidle].
  destruct (name_map_request base regions client w sl dir name flags t0 t1 [t2; t3; t4; t5] t5)
    as (i & w1 & br & v & r & Hw1 & T1); [done|done|done|].
  times Ht. unfold name_map_call. run_step ltac:(exact Hw1). cbv beta iota.
  destruct (transit_take _ _ _ _ _ rnd t2 T1) as (w2 & Hw2 & T2); [done..|].
  run_step ltac:(exact Hw2). cbv beta iota.
  destruct (transit_read _ _ _ _ _ _ T2) as (b & Hb & Hpb). run_step ltac:(exact Hb).
  edestruct transit_respond with (1 := T2) (result := 0) (check := true) (now := t3)
    (p' := (u32 0, FINESSE_RESPONSE, FINESSE_MESSAGE_VERSION, FINESSE_NATIVE_MESSAGE, r,
            FINESSE_NATIVE_RSP_MAP, RspMap 0 (Some key), t0))
    (fill := fun d => set_Parameters (RspMap 0 (Some key)) (set_Type FINESSE_NATIVE_RSP_MAP
                   (set_header FINESSE_MESSAGE_VERSION FINESSE_NATIVE_MESSAGE d)))
    as (w3 & Hw3 & T3); [done|exact Hc|exact Hr|done|done|done| |].
  { intros blk. unfold payload. cbn. congruence. }
  run_step ltac:(exact Hw3).
  destruct (transit_receive _ _ _ _ _ t4 T3) as (b' & w4 & Hw4 & Hpb' & T4); [done|done|].
  unfold payload in Hpb, Hpb'. cbn in Hpb, Hpb'.
  injection Hpb as _ _ _ _ _ _ -> _. injection Hpb' as Hbr _ _ Hcl _ Hty Hpar _.
  erewrite M_bind_done.
  2:{ unfold FinesseGetNameMapResponse. run_step ltac:(exact Hw4).
      rewrite Hbr, Hcl, Hty, Hpar. rewrite !c_assert_bind by done. rewrite Hkey. reflexivity. }
  destruct (transit_free _ _ _ _ _ _ t5 T4) as (w5 & Hw5 & Hrep); [by right|done|done|].
  exists w5. split; [|done]. by run_step ltac:(exact Hw5).
Qed.

(** A name map that the server answers with an error kills the client: the
    first thing the receiver does with the error is to assert that there is
    none. *)
Theorem name_map_call_error base regions client w sl dir name flags rnd key result t0 t1 t2 t3 t4 t5 :
  can_call base regions client w sl -> call_times t0 [t1; t2; t3; t4; t5] t5 ->
  fits offsetof_Map_Name name -> in_word 32 result -> result <> 0 ->
  name_map_call base regions client dir name flags rnd key result t0 t1 t2 t3 t4 t5 w =
    Fail AssertFailed.
Proof.
  intros Hcan Ht Hname Hw Hne. pose proof Hcan as [_ Hc Hr _ Hidle].
  destruct (name_map_request base regions client w sl dir name flags t0 t1 [t2; t3; t4; t5] t5)
    as (i & w1 & br & v & r & Hw1 & T1); [done|done|done|].
  times Ht. unfold name_map_call. run_step ltac:(exact Hw1). cbv beta iota.
  destruct (transit_take _ _ _ _ _ rnd t2 T1) as (w2 & Hw2 & T2); [done..|].
  run_step ltac:(exact Hw2). cbv beta iota.
  destruct (transit_read _ _ _ _ _ _ T2) as (b & Hb & Hpb). run_step ltac:(exact Hb).
  edestruct transit_respond with (1 := T2) (result := result) (now := t3)
    (p' := (u32 result, FINESSE_RESPONSE, FINESSE_MESSAGE_VERSION, FINESSE_NATIVE_MESSAGE, r,
            FINESSE_NATIVE_RSP_MAP, RspMap result key, t0))
    (check := negb (result =? 0) || match key with Some _ => true | None => false end)
    (fill := fun d => set_Parameters (RspMap result key) (set_Type FINESSE_NATIVE_RSP_MAP
                   (set_header FINESSE_MESSAGE_VERSION FINESSE_NATIVE_MESSAGE d)))
    as (w3 & Hw3 & T3); [done|exact Hc|exact Hr| |done|done| |].
  { by destruct (Z.eqb_spec result 0). }
  { intros blk. unfold payload. cbn. congruence. }
  run_step ltac:(exact Hw3).
  destruct (transit_receive _ _ _ _ _ t4 T3) as (b' & w4 & Hw4 & Hpb' & T4); [done|done|].
  apply M_bind_fail. unfold FinesseGetNameMapResponse. run_step ltac:(exact Hw4).
  unfold payload in Hpb'. injection Hpb' as Hbr _ _ _ _ _ _ _. rewrite Hbr.
  rewrite (wrap_small 32) by apply Hw. by destruct (Z.eqb_spec 0 result).
Qed.

(** * Unlink *)

Definition unlink_call (base : Z) (regions : Z -> ptr) (client : Z) (parent : option uuid)
    (name : string) (rnd result : Z) (t0 t1 t2 t3 t4 t5 : timespec) : M world (params * Z) :=
  '(_, m) ← FinesseSendUnlinkRequest base parent name t0 t1;
  '(_, m') ← FinesseGetReadyRequest base rnd t2;
  b ← read_message base m';
  FinesseSendUnlinkResponse regions client m' result t3;;
  r ← FinesseGetUnlinkResponse base m t4;
  FinesseFreeUnlinkResponse base m t5;;
  mret (Parameters (Data b), r).

Lemma unlink_request base regions client w sl dir name t0 t1 ts t5 :
  can_call base regions client w sl -> call_times t0 (t1 :: ts) t5 -> fits offsetof_Unlink_Name name ->
  exists i w' br v r, FinesseSendUnlinkRequest base (Some dir) name t0 t1 w = Done ((0, block_addr base i), w') /\
    in_transit base w' sl i Ready
      (br, FINESSE_REQUEST, v, FINESSE_FUSE_MESSAGE, r, fuse_req_code FINESSE_FUSE_REQ_UNLINK,
       ReqUnlink dir name, t0).
Proof.
  intros [H Hc Hr Hf Hi] Ht Hname. times Ht. unfold FinesseSendUnlinkRequest.
  rewrite c_assert_bind by (by eapply base_not_null).
  destruct (transit_buffer base w sl FINESSE_FUSE_MESSAGE (fuse_req_code FINESSE_FUSE_REQ_UNLINK) t0)
    as (i & w1 & br & v & r & p & Hb & T); [done..|].
  run_step ltac:(exact Hb). pose proof T as (Hrep & Hslot & _).
  rewrite c_assert_bind by (by eapply addr_not_null). cbn [deref]. rewrite mret_bind.
  run_step ltac:(by apply check_name_run).
  edestruct transit_write with (1 := T) as (w2 & Hw2 & T2); cycle 3.
  { run_step ltac:(exact Hw2).
    edestruct transit_send with (1 := T2) as (w4 & Hw4 & T4); [done|].
    exists i, w4, br, v, r. split; [exact Hw4|exact T4]. }
  all: try done. apply payload_set_Parameters.
Qed.

(** An unlink delivers the directory and the name to the server, but not the
    server's result to the client: the receiver answers 0 whatever the
    result was. *)
Theorem unlink_call_loses_result base regions client w sl dir name rnd result t0 t1 t2 t3 t4 t5 :
  can_call base regions client w sl -> call_times t0 [t1; t2; t3; t4; t5] t5 ->
  fits offsetof_Unlink_Name name ->
  exists w', unlink_call base regions client (Some dir) name rnd result t0 t1 t2 t3 t4 t5 w =
      Done ((ReqUnlink dir name, 0), w') /\ represents base w' sl.
Proof.
  intros Hcan Ht Hname. pose proof Hcan as [_ Hc Hr _ Hidle].
  destruct (unlink_request base regions client w sl dir name t0 t1 [t2; t3; t4; t5] t5)
    as (i & w1 & br & v & r & Hw1 & T1); [done|done|done|].
  times Ht. unfold unlink_call. run_step ltac:(exact Hw1). cbv beta iota.
  destruct (transit_take _ _ _ _ _ rnd t2 T1) as (w2 & Hw2 & T2); [done..|].
  run_step ltac:(exact Hw2). cbv beta iota.
  destruct (transit_read _ _ _ _ _ _ T2) as (b & Hb & Hpb). run_step ltac:(exact Hb).
  edestruct transit_respond with (1 := T2) (result := result) (check := true) (now := t3)
    (p' := (u32 result, FINESSE_RESPONSE, FINESSE_MESSAGE_VERSION, FINESSE_FUSE_MESSAGE, r,
            FINESSE_FUSE_RSP_ERR, ReqUnlink dir name, t0))
    (fill := fun d => set_Type FINESSE_FUSE_RSP_ERR
                   (set_header FINESSE_MESSAGE_VERSION FINESSE_FUSE_MESSAGE d))
    as (w3 & Hw3 & T3); [done|exact Hc|exact Hr|done|done|done| |].
  { intros blk. unfold payload. cbn. congruence. }
  run_step ltac:(exact Hw3).
  destruct (transit_receive _ _ _ _ _ t4 T3) as (b' & w4 & Hw4 & Hpb' & T4); [done|done|].
  unfold payload in Hpb, Hpb'. cbn in Hpb, Hpb'.
  injection Hpb as _ _ _ _ _ _ -> _. injection Hpb' as _ _ Hver Hcl _ Hty _ _.
  erewrite M_bind_done.
  2:{ unfold FinesseGetUnlinkResponse, check_fuse. run_step ltac:(exact Hw4).
      rewrite Hver, Hcl, Hty. reflexivity. }
  destruct (transit_free _ _ _ _ _ _ t5 T4) as (w5 & Hw5 & Hrep); [by right|done|done|].
  exists w5. split; [|done]. by run_step ltac:(exact Hw5).
Qed.

(** * Stat *)

Definition stat_call (base : Z) (regions : Z -> ptr) (client : Z) (parent inode : option uuid)
    (flags : Z) (path : option string) (rnd : Z) (attr timeout : blob) (result : Z)
    (t0 t1 t2 t3 t4 t5 : timespec) : M world (params * (Z * blob * blob * Z)) :=
  '(_, m) ← FinesseSendCommonStatRequest base parent inode flags path t0 t1;
  '(_, m') ← FinesseGetReadyRequest base rnd t2;
  b ← read_message base m';
  FinesseSendStatResponse regions client m' (Some attr) timeout result t3;;
  r ← FinesseGetStatResponse base m t4;
  FinesseFreeStatResponse base m t5;;
  mret (Parameters (Data b), r).

Lemma stat_request base regions client w sl parent inode flags path t0 t1 ts t5 :
  can_call base regions client w sl -> call_times t0 (t1 :: ts) t5 ->
  (path <> None \/ inode <> None) -> (forall p, path = Some p -> fits offsetof_Stat_Name p) ->
  exists i w' br v r,
    FinesseSendCommonStatRequest base parent inode flags path t0 t1 w = Done ((0, block_addr base i), w') /\
    in_transit base w' sl i Ready
      (br, FINESSE_REQUEST, v, FINESSE_FUSE_MESSAGE, r, fuse_req_code FINESSE_FUSE_REQ_STAT,
       ReqStat (default 0 parent) (default 0 inode) flags (default EmptyString path), t0).
Proof.
  intros [H Hc Hr Hf Hi] Ht Hargs Hname. times Ht. unfold FinesseSendCommonStatRequest.
  rewrite c_assert_bind by (by eapply base_not_null).
  destruct (transit_buffer base w sl FINESSE_FUSE_MESSAGE (fuse_req_code FINESSE_FUSE_REQ_STAT) t0)
    as (i & w1 & br & v & r & p & Hb & T); [done..|].
  run_step ltac:(exact Hb). pose proof T as (Hrep & Hslot & _).
  rewrite c_assert_bind by (by eapply addr_not_null). cbv zeta.
  rewrite c_assert_bind by (by destruct path, inode, Hargs).
  edestruct transit_write with (1 := T)
    (p' := (br, FINESSE_REQUEST, v, FINESSE_FUSE_MESSAGE, r, fuse_req_code FINESSE_FUSE_REQ_STAT,
            ReqStat (default 0 parent) (default 0 inode) flags EmptyString, t0)) as (w2 & Hw2 & T2); cycle 3.
  { run_step ltac:(exact Hw2). destruct path as [path|].
    - rewrite M_assoc. run_step ltac:(by apply check_name_run, Hname).
      edestruct transit_write with (1 := T2) as (w3 & Hw3 & T3); cycle 3.
      { run_step ltac:(exact Hw3).
        edestruct transit_send with (1 := T3) as (w4 & Hw4 & T4); [done|].
        exists i, w4, br, v, r. split; [exact Hw4|exact T4]. }
      all: try done. apply payload_set_Parameters.
    - rewrite mret_bind. edestruct transit_send with (1 := T2) as (w4 & Hw4 & T4); [done|].
      exists i, w4, br, v, r. split; [exact Hw4|exact T4]. }
  all: try done. apply payload_set_Parameters.
Qed.

(** A stat delivers its arguments to the server and the attributes, the
    timeout and the result, success or error, back to the client. *)
Theorem stat_call_answers base regions client w sl parent inode flags path rnd attr timeout result
    t0 t1 t2 t3 t4 t5 :
  can_call base regions client w sl -> call_times t0 [t1; t2; t3; t4; t5] t5 ->
  (path <> None \/ inode <> None) -> (forall p, path = Some p -> fits offsetof_Stat_Name p) ->
  exists w', stat_call base regions client parent inode flags path rnd attr timeout result
      t0 t1 t2 t3 t4 t5 w =
      Done ((ReqStat (default 0 parent) (default 0 inode) flags (default EmptyString path),
             (0, attr, timeout, result)), w') /\ represents base w' sl.
Proof.
  intros Hcan Ht Hargs Hname. pose proof Hcan as [_ Hc Hr _ Hidle].
  destruct (stat_request base regions client w sl parent inode flags path t0 t1 [t2; t3; t4; t5] t5)
    as (i & w1 & br & v & r & Hw1 & T1); [done|done|done|done|].
  times Ht. unfold stat_call. run_step ltac:(exact Hw1). cbv beta iota.
  destruct (transit_take _ _ _ _ _ rnd t2 T1) as (w2 & Hw2 & T2); [done..|].
  run_step ltac:(exact Hw2). cbv beta iota.
  destruct (transit_read _ _ _ _ _ _ T2) as (b & Hb & Hpb). run_step ltac:(exact Hb).
  edestruct transit_respond with (1 := T2) (result := result) (check := true) (now := t3)
    (p' := (u32 result, FINESSE_RESPONSE, FINESSE_MESSAGE_VERSION, FINESSE_FUSE_MESSAGE, result,
            FINESSE_FUSE_RSP_ATTR, RspAttr attr timeout, t0))
    (fill := fun d => set_Parameters (RspAttr attr timeout) (set_Type FINESSE_FUSE_RSP_ATTR
                   (set_Result result (set_header FINESSE_MESSAGE_VERSION FINESSE_FUSE_MESSAGE d))))
    as (w3 & Hw3 & T3); [done|exact Hc|exact Hr|done|done|done| |].
  { intros blk. unfold payload. cbn. congruence. }
  run_step ltac:(exact Hw3).
  destruct (transit_receive _ _ _ _ _ t4 T3) as (b' & w4 & Hw4 & Hpb' & T4); [done|done|].
  unfold payload in Hpb, Hpb'. cbn in Hpb, Hpb'.
  injection Hpb as _ _ _ _ _ _ -> _. injection Hpb' as _ _ Hver Hcl Hres Hty Hpar _.
  erewrite M_bind_done.
  2:{ unfold FinesseGetStatResponse, check_fuse. run_step ltac:(exact Hw4).
      rewrite Hver, Hcl, Hty, Hpar, Hres. reflexivity. }
  destruct (transit_free _ _ _ _ _ _ t5 T4) as (w5 & Hw5 & Hrep); [by right|done|done|].
  exists w5. split; [|done]. by run_step ltac:(exact Hw5).
Qed.

(** What the length of a name at an offset comes to: [None] when the name
    and its NUL stay inside the data of the block, [Undefined] when they
    reach into the 16 bytes behind it, [AssertFailed] when they are longer. *)
Definition name_fault (offset : Z) (name : string) : option failure :=
  let size := offset + Z.of_nat (String.length name) + 1 in
  if size <=? DATA_SIZE then None else if size <=? DATA_SIZE + 16 then Some Undefined else Some AssertFailed.

Lemma name_fits offset name : name_fault offset name = None -> fits offset name.
Proof. unfold name_fault, fits. repeat case_match; try done. lia. Qed.

Lemma check_name_fails offset name e w : name_fault offset name = Some e -> check_name offset name w = Fail e.
Proof.
  unfold name_fault, check_name, DATA_SIZE. set (n := Z.of_nat (String.length name)). intros H.
  destruct (Z.leb_spec (offset + n + 1) (SHM_PAGE_SIZE - 16)) as [|Hd]; [done|].
  destruct (Z.leb_spec (offset + n + 1) (SHM_PAGE_SIZE - 16 + 16)); injection H as <-.
  - by rewrite c_assert_bind by lia.
  - by destruct (Z.ltb_spec n (SHM_PAGE_SIZE - offset)); [lia|].
Qed.

(** The start of a sender. *)
Lemma sender_start base regions client w sl class type t0 t1 ts t5 :
  can_call base regions client w sl -> call_times t0 (t1 :: ts) t5 -> valid_call class type = true ->
  not_null base = true /\ exists i w1 p, FinesseGetRequestBuffer base class type t0 w = Done (block_addr base i, w1) /\
    not_null (block_addr base i) = true /\ in_transit base w1 sl i Allocated p.
Proof.
  intros [H _ _ Hf _] Ht Hv. times Ht. split; [by eapply base_not_null|].
  destruct (transit_buffer base w sl class type t0) as (i & w1 & br & v & r & p & Hb & T); [done..|].
  pose proof T as (Hrep & Hslot & _). do 3 eexists. split; [exact Hb|]. split; [by eapply addr_not_null|exact T].
Qed.

Lemma name_map_fails base regions client w sl dir name flags t0 t1 ts t5 e :
  can_call base regions client w sl -> call_times t0 (t1 :: ts) t5 -> name_fault offsetof_Map_Name name = Some e ->
  FinesseSendNameMapRequest base dir name flags t0 t1 w = Fail e.
Proof.
  intros Hcan Ht He. unfold FinesseSendNameMapRequest.
  destruct (sender_start _ _ _ _ _ FINESSE_NATIVE_MESSAGE (native_req_code FINESSE_NATIVE_REQ_MAP) _ _ _ _ Hcan Ht eq_refl)
    as (Hbase & i & w1 & p & Hb & Haddr & T).
  rewrite c_assert_bind by done. run_step ltac:(exact Hb). rewrite c_assert_bind by done.
  by apply M_bind_fail, check_name_fails.
Qed.

Lemma unlink_fails base regions client w sl dir name t0 t1 ts t5 e :
  can_call base regions client w sl -> call_times t0 (t1 :: ts) t5 -> name_fault offsetof_Unlink_Name name = Some e ->
  FinesseSendUnlinkRequest base (Some dir) name t0 t1 w = Fail e.
Proof.
  intros Hcan Ht He. unfold FinesseSendUnlinkRequest.
  destruct (sender_start _ _ _ _ _ FINESSE_FUSE_MESSAGE (fuse_req_code FINESSE_FUSE_REQ_UNLINK) _ _ _ _ Hcan Ht eq_refl)
    as (Hbase & i & w1 & p & Hb & Haddr & T).
  rewrite c_assert_bind by done. run_step ltac:(exact Hb). rewrite c_assert_bind by done.
  cbn [deref]. rewrite mret_bind. by apply M_bind_fail, check_name_fails.
Qed.

Lemma stat_fails base regions client w sl parent inode flags name t0 t1 ts t5 e :
  can_call base regions client w sl -> call_times t0 (t1 :: ts) t5 -> name_fault offsetof_Stat_Name name = Some e ->
  FinesseSendCommonStatRequest base parent inode flags (Some name) t0 t1 w = Fail e.
Proof.
  intros Hcan Ht He. unfold FinesseSendCommonStatRequest.
  destruct (sender_start _ _ _ _ _ FINESSE_FUSE_MESSAGE (fuse_req_code FINESSE_FUSE_REQ_STAT) _ _ _ _ Hcan Ht eq_refl)
    as (Hbase & i & w1 & p & Hb & Haddr & T).
  rewrite c_assert_bind by done. run_step ltac:(exact Hb). rewrite c_assert_bind by done.
  cbv zeta. rewrite c_assert_bind by done.
  destruct p as [[[[[[[p1 p2] p3] p4] p5] p6] p7] p8].
  set (q := ReqStat (default 0 parent) (default 0 inode) flags EmptyString).
  destruct (transit_write _ _ _ _ _ _ (set_Data (set_Parameters q)) (p1, p2, p3, p4, p5, p6, q, p8) T)
    as (w2 & Hw2 & _); [done|done|intros b; apply payload_set_Parameters|].
  run_step ltac:(exact Hw2). apply M_bind_fail. cbv iota. by apply M_bind_fail, check_name_fails.
Qed.

(** What a sender should do with a name: send it, or fail. *)
Definition sends_or_fails (base : Z) (fault : option failure) (sent : outcome (Z * ptr * world)) : Prop :=
  match fault with None => exists i w', sent = Done ((0, block_addr base i), w') | Some e => sent = Fail e end.

(** C40: The senders of namemap.c, unlink.c and stat.c compare the length of
    a name with the page, not with the data of the block, which is 16 bytes
    shorter.  A name that fits is sent, a name that is longer than the page
    fails an assertion; but the 16 lengths between pass the assertion, and
    the sender writes past the end of the block. *)
Theorem senders_overrun base regions client w sl dir parent inode flags name t0 t1 ts t5 :
  can_call base regions client w sl -> call_times t0 (t1 :: ts) t5 ->
  sends_or_fails base (name_fault offsetof_Map_Name name) (FinesseSendNameMapRequest base parent name flags t0 t1 w) /\
  sends_or_fails base (name_fault offsetof_Unlink_Name name) (FinesseSendUnlinkRequest base (Some dir) name t0 t1 w) /\
  sends_or_fails base (name_fault offsetof_Stat_Name name) (FinesseSendCommonStatRequest base parent inode flags (Some name) t0 t1 w).
Proof.
  intros Hcan Ht. split; [|split]; (destruct (name_fault _ name) as [e|] eqn:He; cbn; [|apply name_fits in He]).
  - by eapply name_map_fails.
  - destruct (name_map_request base regions client w sl parent name flags t0 t1 ts t5) as (i & w' & _ & _ & _ & Hs & _); eauto.
  - by eapply unlink_fails.
  - destruct (unlink_request base regions client w sl dir name t0 t1 ts t5) as (i & w' & _ & _ & _ & Hs & _); eauto.
  - by eapply stat_fails.
  - destruct (stat_request base regions client w sl parent inode flags (Some name) t0 t1 ts t5) as (i & w' & _ & _ & _ & Hs & _); eauto.
    by intros ? [= <-].
Qed.

(** * The theorems at a fresh region *)

Lemma fresh_can_call :
  can_call example_base (fun _ => example_base) 3 fresh_world (fun _ => Free).
Proof.
  constructor; try done.
  - apply reachable_represents, fresh_reachable.
  - by exists 0.
Qed.

Lemma clock_times :
  call_times (clock 5) [clock 6; clock 7; clock 8; clock 9; clock 10] (clock 10).
Proof.
  assert (forall s, normal (clock s)) as N by (intros s; unfold normal; simpl; lia).
  constructor; [split; [apply N|reflexivity]|by repeat constructor|discriminate].
Qed.

Open Scope string_scope.

Lemma name_map_call_answers_witness :
  exists w', name_map_call example_base (fun _ => example_base) 3 (Some 99) "/tmp/x" 0 17 (Some 4242) 0
      (clock 5) (clock 6) (clock 7) (clock 8) (clock 9) (clock 10) fresh_world =
      Done ((ReqMap 0 0 "/tmp/x", (0, 4242)), w') /\ represents example_base w' (fun _ => Free).
Proof.
  apply name_map_call_answers; [apply fresh_can_call|apply clock_times|discriminate|reflexivity].
Defined.

Lemma name_map_call_error_witness :
  name_map_call example_base (fun _ => example_base) 3 None "/tmp/x" 0 17 None ENOENT
      (clock 5) (clock 6) (clock 7) (clock 8) (clock 9) (clock 10) fresh_world = Fail AssertFailed.
Proof.
  apply (name_map_call_error _ _ _ _ (fun _ => Free)); [apply fresh_can_call|apply clock_times|discriminate| |discriminate].
  split; [discriminate|reflexivity].
Defined.

Lemma unlink_call_loses_result_witness :
  exists w', unlink_call example_base (fun _ => example_base) 3 (Some 99) "x" 17 ENOENT
      (clock 5) (clock 6) (clock 7) (clock 8) (clock 9) (clock 10) fresh_world =
      Done ((ReqUnlink 99 "x", 0), w') /\ represents example_base w' (fun _ => Free).
Proof. apply unlink_call_loses_result; [apply fresh_can_call|apply clock_times|discriminate]. Defined.

Lemma stat_call_answers_witness :
  exists w', stat_call example_base (fun _ => example_base) 3 None None 0 (Some "/tmp/x") 17 [1; 2] [3] ENOENT
      (clock 5) (clock 6) (clock 7) (clock 8) (clock 9) (clock 10) fresh_world =
      Done ((ReqStat 0 0 0 "/tmp/x", (0, [1; 2], [3], ENOENT)), w') /\
    represents example_base w' (fun _ => Free).
Proof.
  apply stat_call_answers; [apply fresh_can_call|apply clock_times|by left|].
  intros p [= <-]. discriminate.
Defined.

(** A name of 3932 characters is accepted for a name map and overwrites the
    header of the next block; in the request for an unlink it fits. *)
Lemma senders_overrun_witness :
  let name := String.concat "" (replicate 3932 "a") in
  FinesseSendNameMapRequest example_base (Some 99) name 0 (clock 5) (clock 6) fresh_world = Fail Undefined /\
  exists i w', FinesseSendUnlinkRequest example_base (Some 99) name (clock 5) (clock 6) fresh_world = Done ((0, block_addr example_base i), w').
Proof.
  intros name.
  destruct (senders_overrun example_base (fun _ => example_base) 3 fresh_world (fun _ => Free) 99 (Some 99) None 0 name
    (clock 5) (clock 6) [clock 7; clock 8; clock 9; clock 10] (clock 10) fresh_can_call clock_times) as (Hmap & Hunlink & _).
  split; [exact Hmap|exact Hunlink].
Defined.
