(* ===== verification/FuseCalls.v ===== *)
(** More calls over the shared memory region: the senders and receivers of
    src/finesse/communications/access.c, statfs.c and serverstat.c, with
    [FinesseSendResponse] and [FinesseGetActiveClientCount] of fcs.c.

    The structure of an access request has its name, declared with one
    character, before its mask: a longer name overwrites the mask, and the
    sender stores no other.  [access_mask] is what the server reads. *)

From stdpp Require Import list strings.
From S2P Require Import Prelude Bitmap Message Region Calls.

#[local] Open Scope Z_scope.
#[local] Open Scope word_scope.

Definition offsetof_Access_Name : Z := 144.
Definition offsetof_Statfs_Name : Z := 132.

(** * access.c *)

(** Neither [Parent] nor [Mode] reaches the message; [behind] is what the
    block held behind the name. *)
Definition FinesseSendAccessRequest (base : Z) (Parent : option uuid) (Path : string) (Mode : Z) (behind : list Z)
    (t0 t1 : timespec) : M world (Z * ptr) :=
  c_assert (not_null base);;
  message ← FinesseGetRequestBuffer base FINESSE_FUSE_MESSAGE (fuse_req_code FINESSE_FUSE_REQ_ACCESS) t0;
  c_assert (not_null message);;
  check_name offsetof_Access_Name Path;;
  on_message base message (set_Data (set_Parameters (ReqAccess 0 Path behind)));;
  send_request base message t1.

(** The bytes of the union from the name on; a signed 32-bit number from the
    four at offset 4. *)
Definition name_bytes (Name : string) (Behind : list Z) : list Z :=
  ((fun c => Z.of_nat (Ascii.nat_of_ascii c)) <$> String.list_ascii_of_string Name) ++ 0 :: Behind.

Definition signed32 (x : Z) : Z := if x <? 2 ^ 31 then x else x - 2 ^ 32.

Definition access_mask (Name : string) (Behind : list Z) : Z :=
  let byte i := default 0 (name_bytes Name Behind !! i) in
  signed32 (byte 4%nat + 2 ^ 8 * byte 5%nat + 2 ^ 16 * byte 6%nat + 2 ^ 24 * byte 7%nat).

Definition FinesseSendAccessResponse (regions : Z -> ptr) (client : Z) (m : ptr) (result : Z) (now : timespec) : M world Z :=
  send_response regions client m result
    (fun d => set_Type FINESSE_FUSE_RSP_ERR (set_header FINESSE_MESSAGE_VERSION FINESSE_FUSE_MESSAGE d)) true now.

(** status and [*Result], which is a member that the server does not set *)
Definition FinesseGetAccessResponse (base : Z) (m : ptr) (now : timespec) : M world (Z * Z) :=
  b ← get_response base m now;
  check_fuse FINESSE_FUSE_RSP_ERR (Data b);; mret (0, Result (Data b)).

Definition FinesseFreeAccessResponse := FinesseFreeClientResponse.

(** * statfs.c *)

Definition FinesseSendStatfsRequest (base : Z) (path : string) (t0 t1 : timespec) : M world (Z * ptr) :=
  c_assert (not_null base);;
  message ← FinesseGetRequestBuffer base FINESSE_FUSE_MESSAGE (fuse_req_code FINESSE_FUSE_REQ_STATFS) t0;
  c_assert (not_null message);;
  check_name offsetof_Statfs_Name path;;
  on_message base message (set_Data (set_Parameters (ReqStatfs path)));;
  send_request base message t1.

(** The buffer is copied when the result is 0. *)
Definition FinesseSendStatfsResponse (regions : Z -> ptr) (client : Z) (m : ptr) (buf : option blob) (result : Z) (now : timespec) : M world Z :=
  send_response regions client m result
    (fun d =>
       let d := set_Type FINESSE_FUSE_RSP_STATFS (set_header FINESSE_MESSAGE_VERSION FINESSE_FUSE_MESSAGE d) in
       if result =? 0 then set_Parameters (RspStatfs (default [] buf)) d else d)
    (negb (result =? 0) || match buf with Some _ => true | None => false end) now.

(** status and [*buf], [None] for what the block held before *)
Definition FinesseGetStatfsResponse (base : Z) (m : ptr) (now : timespec) : M world (Z * option blob) :=
  b ← get_response base m now;
  check_fuse FINESSE_FUSE_RSP_STATFS (Data b);;
  mret (0, match Parameters (Data b) with RspStatfs buf => Some buf | _ => None end).

Definition FinesseFreeStatfsResponse := FinesseFreeClientResponse.

Definition FinesseSendFstatfsRequest (base : Z) (Inode : uuid) (t0 t1 : timespec) : M world (Z * ptr) :=
  c_assert (not_null base);;
  message ← FinesseGetRequestBuffer base FINESSE_FUSE_MESSAGE (fuse_req_code FINESSE_FUSE_REQ_STATFS) t0;
  c_assert (not_null message);;
  c_assert (negb (uuid_is_null Inode));;
  on_message base message (set_Data (set_Parameters (ReqFstatfs Inode)));;
  send_request base message t1.

Definition FinesseSendFstatfsResponse := FinesseSendStatfsResponse.
Definition FinesseGetFstatfsResponse := FinesseGetStatfsResponse.
Definition FinesseFreeFstatfsResponse := FinesseFreeClientResponse.

(** * serverstat.c *)

Definition FINESSE_SERVERSTATS_VERSION : Z := 1.
Definition FINESSE_SERVER_STAT_VERSION : Z := 1.

(** sizeof (FinesseServerStat) *)
Definition FINESSE_SERVER_STAT_LENGTH : Z :=
  16 + 8 * (Z.of_nat (length fuse_reqs) + (FINESSE_FUSE_RSP_MAX - FINESSE_FUSE_RSP_NONE) + Z.of_nat (length native_reqs) +
    (FINESSE_NATIVE_RSP_MAX - FINESSE_NATIVE_RSP_ERR)) + 8.

Definition FinesseSendServerStatRequest (base : Z) (t0 t1 : timespec) : M world (Z * ptr) :=
  c_assert (not_null base);;
  message ← FinesseGetRequestBuffer base FINESSE_NATIVE_MESSAGE (native_req_code FINESSE_NATIVE_REQ_SERVER_STAT) t0;
  c_assert (not_null message);;
  on_message base message (set_Data (set_Parameters (ReqServerStat FINESSE_SERVERSTATS_VERSION)));;
  send_request base message t1.

Definition FinesseSendServerStatResponse (regions : Z -> ptr) (client : Z) (m : ptr) (ServerStats : FinesseServerStat) (result : Z)
    (now : timespec) : M world Z :=
  send_response regions client m result
    (fun d => set_Parameters (RspServerStat 0 ServerStats)
                (set_Type FINESSE_NATIVE_RSP_SERVER_STAT (set_header FINESSE_MESSAGE_VERSION FINESSE_NATIVE_MESSAGE d))) true now.

Definition FinesseGetServerStatResponse (base : Z) (m : ptr) (now : timespec) : M world (Z * FinesseServerStat) :=
  b ← get_response base m now;
  match Parameters (Data b) with
  | RspServerStat _ data =>
      c_assert (FINESSE_SERVER_STAT_VERSION =? stat_Version data);;
      c_assert (FINESSE_SERVER_STAT_LENGTH =? stat_Length data);; mret (0, data)
  | _ => mthrow Undefined
  end.

Definition FinesseFreeServerStatResponse := FinesseFreeClientResponse.

(** * fcs.c *)

(** The connection state of a client that left is NULL, as its region is.
    The header of the block is not touched. *)
Definition FinesseSendResponse (regions : Z -> ptr) (client : Z) (m : ptr) (now : timespec) : M world Z :=
  let index := u32 client in
  c_assert (not_null m);;
  c_assert (index <? SHM_MESSAGE_COUNT);;
  if regions index =? NULL then mret ENOTCONN
  else FinesseResponseReady (regions index) m now;; mret 0.

Definition FinesseGetActiveClientCount (regions : Z -> ptr) : Z :=
  Z.of_nat (length (filter (fun i => negb (regions i =? NULL)) (seqZ 0 SHM_MESSAGE_COUNT))).
