(* ===== verification/PathName.v ===== *)
(** Path names in the server: src/finesse/server/pathname.c, and
    [FinesseServerInternalNameLookup] of namemap.c.

    The server resolves a path by asking the file system for one component
    after the other.  The file system is a parameter: the type class
    [FileSystem] says what its operations answer ([finesse_original_ops],
    with the reply that the server captures).

    A pointer into a string is an offset; [from n s] is the string at such a
    pointer.  The working copy of the path is cut at its separators, but each
    piece is only read once, so that it is modelled as the path itself.

    Results: on paths with proper components the resolution is a walk along
    the components ([resolve_walks]); the name
    that it leaves in the parameters lacks its first character; and a path
    that begins with the letters of the mount point, but is not below it,
    stops the server ([mount_prefix_stops]). *)

From stdpp Require Import gmap list strings.
From Stdlib Require Import Strings.Ascii.
From S2P Require Import Prelude.

Open Scope word_scope.

Definition S_ISLNK (mode : Z) : bool := Z.land mode S_IFMT =? S_IFLNK.

Definition slash : ascii := "/"%char.

(** * C strings *)

Fixpoint from (n : nat) (s : string) : string :=
  match n, s with O, s => s | S n, EmptyString => EmptyString | S n, String.String _ s => from n s end.

Fixpoint upto (n : nat) (s : string) : string :=
  match n, s with S n, String.String c s => String.String c (upto n s) | _, _ => EmptyString end.

(** index and rindex *)
Fixpoint index (c : ascii) (s : string) : option nat :=
  match s with
  | EmptyString => None
  | String.String d s => if decide (c = d) then Some O else S <$> index c s
  end.

Fixpoint rindex (c : ascii) (s : string) : option nat :=
  match s with
  | EmptyString => None
  | String.String d s => match rindex c s with Some n => Some (S n) | None => if decide (c = d) then Some O else None end
  end.

(** The character at a pointer; [None] is the NUL at the end. *)
Definition char_at (n : nat) (s : string) : option ascii := match from n s with String.String c _ => Some c | EmptyString => None end.

(** * The file system *)

(** struct fuse_attr, fuse_entry_out, fuse_attr_out and statx, as far as
    they are used. *)
Record fuse_attr := { a_ino : Z; a_mode : Z; a_nlink : Z; a_size : Z }.
Record entry_out := { nodeid : Z; e_attr : fuse_attr }.
Record attr_out := { attr_valid : Z; at_attr : fuse_attr }.
Record statx := { stx_ino : Z; stx_mode : Z; stx_nlink : Z; stx_size : Z }.

Definition zero_statx : statx := {| stx_ino := 0; stx_mode := 0; stx_nlink := 0; stx_size := 0 |}.

(** A captured reply: the error of its header, which is 0 or a negative
    number, and what follows it. *)
Record captured (A : Type) := { out_error : Z; out_arg : option A }.
Arguments out_error {A} _.
Arguments out_arg {A} _.
Arguments Build_captured {A} _ _.

(** What the server asks of a file system in the state [S]. *)
Class FileSystem (S : Type) := {
  fs_lookup : Z -> string -> M S (captured entry_out);
  fs_getattr : Z -> M S (captured attr_out);
  fs_access : Z -> Z -> M S (captured unit);
  fs_unlink : Z -> string -> M S (captured unit);
  fs_forget : Z -> Z -> M S unit }.

Section Code.
Context {S : Type} `{!FileSystem S}.

(** The answer is the status and [*attr]. *)
Definition FinesseServerInternalNameLookup (Parent : Z) (Name : string) : M S (Z * statx) :=
  c_assert (bool_decide (index slash Name = None));;
  out ← fs_lookup Parent Name;
  match out_arg out with
  | Some arg =>
      if negb (0 =? out_error out) then mret (out_error out, zero_statx)
      else
        let attr := e_attr arg in
        c_assert (nodeid arg =? a_ino attr);;
        mret (0, {| stx_ino := nodeid arg; stx_mode := a_mode attr; stx_nlink := a_nlink attr; stx_size := a_size attr |})
  | None => mret (out_error out, zero_statx)
  end.

(** A pointer that is stored in the parameters: NULL, into the path name, or
    into the working copy, which is freed. *)
Inductive cursor : Type := NoCursor | InPathName (off : nat) | InWorkPath (off : nat).

(** FinesseServerPathResolutionParameters_t *)
Record parameters := {
  FollowSymlinks : bool;
  CheckSecurity : bool;
  GetFinalParent : bool;
  Parent : Z;
  PathName : string;
  Cursor : cursor;
  FinalName : cursor;
  StatxBuffer : statx;
  PathNameBufferLength : Z }.

Definition FINESSE_SERVER_PATH_RESOLUTION_FOLLOW_SYMLINKS : Z := 1.
Definition FINESSE_SERVER_PATH_RESOLUTION_CHECK_SECURITY : Z := 2.
Definition FINESSE_SERVER_PATH_RESOLUTION_GET_FINAL_PARENT : Z := 4.

Definition set_statx (x : statx) (p : parameters) : parameters :=
  {| FollowSymlinks := FollowSymlinks p; CheckSecurity := CheckSecurity p; GetFinalParent := GetFinalParent p; Parent := Parent p;
     PathName := PathName p; Cursor := Cursor p; FinalName := FinalName p; StatxBuffer := x; PathNameBufferLength := PathNameBufferLength p |}.
Definition set_found (parent : Z) (c : cursor) (p : parameters) : parameters :=
  {| FollowSymlinks := FollowSymlinks p; CheckSecurity := CheckSecurity p; GetFinalParent := GetFinalParent p; Parent := parent;
     PathName := PathName p; Cursor := c; FinalName := FinalName p; StatxBuffer := StatxBuffer p; PathNameBufferLength := PathNameBufferLength p |}.
Definition set_final (c : cursor) (p : parameters) : parameters :=
  {| FollowSymlinks := FollowSymlinks p; CheckSecurity := CheckSecurity p; GetFinalParent := GetFinalParent p; Parent := Parent p;
     PathName := PathName p; Cursor := Cursor p; FinalName := c; StatxBuffer := StatxBuffer p; PathNameBufferLength := PathNameBufferLength p |}.

Definition FinesseAllocateServerPathResolutionParameters (ParentInode : Z) (Path : string) (Flags : Z) : parameters :=
  {| FollowSymlinks := negb (Z.land Flags FINESSE_SERVER_PATH_RESOLUTION_FOLLOW_SYMLINKS =? 0);
     CheckSecurity := negb (Z.land Flags FINESSE_SERVER_PATH_RESOLUTION_CHECK_SECURITY =? 0);
     GetFinalParent := negb (Z.land Flags FINESSE_SERVER_PATH_RESOLUTION_GET_FINAL_PARENT =? 0);
     Parent := ParentInode; PathName := Path; Cursor := NoCursor; FinalName := NoCursor; StatxBuffer := zero_statx;
     PathNameBufferLength := Z.of_nat (String.length Path) + 1 |}.

Definition not_found (status : Z) : bool := (ENOENT =? status) || (- ENOENT =? status).

(** The loop over the components before the last one, which ends at
    [workend]; [fuel] bounds its iterations.  The answer is the status, the
    inode reached and the parameters. *)
Fixpoint resolve_loop (fuel : nat) (workpath : string) (workend workcurrent : nat) (ino status : Z) (p : parameters) : M S (Z * Z * parameters) :=
  if decide (workcurrent = workend) then mret (status, ino, p)
  else
    match fuel with
    | O => mthrow OutOfFuel
    | Datatypes.S fuel =>
        c_assert (negb (bool_decide (char_at workcurrent workpath = Some slash)));;
        match index slash (from workcurrent workpath) with
        | None => mthrow AssertFailed
        | Some seglen =>
            c_assert (negb (CheckSecurity p));;
            let component := upto seglen (from workcurrent workpath) in
            '(status, x) ← FinesseServerInternalNameLookup ino component;
            let p := set_statx x p in
            if negb (status =? 0) then
              c_assert (not_found status);;
              mret (status, ino, set_found ino (InPathName workcurrent) p)
            else if S_ISLNK (stx_mode x) then
              '(status2, _) ← FinesseServerInternalNameLookup ino component;
              c_assert (status2 =? 0);; mthrow AssertFailed
            else
              c_assert (negb (0 =? stx_ino x));;
              resolve_loop fuel workpath workend (workcurrent + seglen + 1) (stx_ino x) status p
        end
    end.

Definition FinesseServerResolvePathName (mountpoint : string) (p : parameters) : M S (Z * parameters) :=
  let parentino := if 0 =? Parent p then FUSE_ROOT_ID else Parent p in
  if 0 =? PathNameBufferLength p then mret (EINVAL, p)
  else
    let mp_length := String.length mountpoint in
    let strip := if (PathNameBufferLength p <? Z.of_nat mp_length) || negb (String.prefix mountpoint (PathName p)) then O else mp_length in
    let workpath := from strip (PathName p) in
    match rindex slash workpath with
    | None => mret (EINVAL, p)
    | Some O =>
        '(status, x) ← FinesseServerInternalNameLookup parentino (from 1 workpath);
        let p := set_statx x p in
        if negb (0 =? status) then c_assert (not_found status);; mret (status, set_found 0 (InWorkPath 1) p)
        else c_assert (negb (0 =? stx_ino x));; mret (status, p)
    | Some finalsep =>
        let workend := Datatypes.S finalsep in
        c_assert (bool_decide (char_at 0 workpath = Some slash));;
        '(status, ino, p) ← resolve_loop (String.length workpath) workpath workend 1 parentino EINVAL p;
        if negb (0 =? status) then mret (status, p)
        else
          let p := set_final (InPathName (workend + 1)) (set_found ino (InPathName workend) p) in
          '(status, x) ← FinesseServerInternalNameLookup ino (from workend workpath);
          let p := set_statx x p in
          if negb (0 =? status) then c_assert (not_found status);; mret (if GetFinalParent p then 0 else status, p)
          else mret (status, p)
    end.

Definition FinesseGetResolvedStatx (p : parameters) : Z * statx :=
  if 0 =? stx_ino (StatxBuffer p) then (EINVAL, zero_statx) else (0, StatxBuffer p).

Definition FinesseGetResolvedInode (p : parameters) : Z * Z :=
  let '(status, x) := FinesseGetResolvedStatx p in if status =? 0 then (status, stx_ino x) else (status, 0).
End Code.

(** * Paths and components *)

Definition component (d : string) : Prop := d <> EmptyString /\ index slash d = None.

(** The components before the last one, each with its separator. *)
Fixpoint prefix_of (dirs : list string) : string :=
  match dirs with [] => EmptyString | d :: dirs => (d ++ "/" ++ prefix_of dirs)%string end.

(** What is left of a path below a mount point. *)
Definition stripped (mountpoint path : string) : string :=
  if String.prefix mountpoint path then from (String.length mountpoint) path else path.

Lemma cons_append c a b : (String.String c a ++ b)%string = String.String c (a ++ b)%string.
Proof. done. Qed.

Lemma nil_append b : (EmptyString ++ b)%string = b.
Proof. done. Qed.

Lemma append_nil a : (a ++ EmptyString)%string = a.
Proof. induction a as [|c a IH]; [done|]. by rewrite cons_append, IH. Qed.

Lemma from_app a b : from (String.length a) (a ++ b) = b.
Proof. induction a as [|c a IH]; [by destruct b|]. rewrite cons_append. exact IH. Qed.

Lemma from_plus n m s : from (n + m) s = from m (from n s).
Proof. revert s. induction n as [|n IH]; intros s; [by destruct s, m|]. destruct s as [|c s]; [by destruct m|apply IH]. Qed.

Lemma upto_app a b : upto (String.length a) (a ++ b) = a.
Proof. induction a as [|c a IH]; [by destruct b|]. rewrite cons_append. cbn. by f_equal. Qed.

Lemma length_append a b : String.length (a ++ b) = (String.length a + String.length b)%nat.
Proof. induction a as [|c a IH]; [done|]. rewrite cons_append. cbn. by rewrite IH. Qed.

Lemma append_assoc a b c : ((a ++ b) ++ c = a ++ (b ++ c))%string.
Proof. induction a as [|x a IH]; [done|]. by rewrite !cons_append, IH. Qed.

Lemma index_app c a b : index c a = None -> index c (a ++ String.String c b) = Some (String.length a).
Proof.
  induction a as [|d a IH]; [intros _; rewrite nil_append; cbn; by rewrite decide_True|]. rewrite cons_append. cbn. destruct (decide (c = d)); [done|].
  intros Ha%fmap_None. by rewrite IH.
Qed.

Lemma index_rindex c s : index c s = None <-> rindex c s = None.
Proof.
  induction s as [|d s IH]; [done|]. cbn. destruct (decide (c = d)), (rindex c s); rewrite ?fmap_None; naive_solver.
Qed.

Lemma rindex_app c a b : index c b = None -> rindex c (a ++ String.String c b) = Some (String.length a).
Proof.
  intros Hb%index_rindex. induction a as [|d a IH]; [rewrite nil_append; cbn; by rewrite Hb, decide_True|]. rewrite cons_append. cbn. by rewrite IH.
Qed.

Lemma component_first d s : component d -> char_at 0 (d ++ s) <> Some slash.
Proof.
  intros [Hne Hd]. destruct d as [|c d]; [done|]. cbn in Hd. destruct (decide (slash = c)); [done|]. rewrite cons_append. unfold char_at. cbn. congruence.
Qed.

Lemma prefix_of_end dirs : dirs <> [] -> exists a, prefix_of dirs = (a ++ "/")%string.
Proof.
  induction dirs as [|d [|d' dirs] IH]; intros Hne; [done|by exists d|]. destruct IH as [a Ha]; [done|]. exists (d ++ "/" ++ a)%string.
  change (prefix_of (d :: d' :: dirs)) with (d ++ "/" ++ prefix_of (d' :: dirs))%string. rewrite Ha. by rewrite !append_assoc.
Qed.

Section Resolution.
Context {S : Type} `{!FileSystem S}.
Implicit Types (s : S) (p : parameters).

(** The lookups of the directories of a path, one in the other. *)
Inductive walked : S -> Z -> list string -> S -> Z -> Prop :=
  | walked_here s i : walked s i [] s i
  | walked_down s i d dirs s1 x s2 j :
      FinesseServerInternalNameLookup i d s = Done ((0, x), s1) -> S_ISLNK (stx_mode x) = false -> stx_ino x <> 0 ->
      walked s1 (stx_ino x) dirs s2 j -> walked s i (d :: dirs) s2 j.

(** The loop walks along the directories, and stops at one that is missing. *)
Lemma loop_step fuel pre d rest i status p s st x s1 :
  component d -> CheckSecurity p = false -> FinesseServerInternalNameLookup i d s = Done ((st, x), s1) ->
  let workpath := (pre ++ d ++ "/" ++ rest)%string in
  forall workend, workend <> String.length pre ->
  (st <> 0 -> not_found st = true ->
     resolve_loop (Datatypes.S fuel) workpath workend (String.length pre) i status p s =
       Done ((st, i, set_found i (InPathName (String.length pre)) (set_statx x p)), s1)) /\
  (st = 0 -> S_ISLNK (stx_mode x) = false -> stx_ino x <> 0 ->
     resolve_loop (Datatypes.S fuel) workpath workend (String.length pre) i status p s =
       resolve_loop fuel workpath workend (String.length pre + String.length d + 1) (stx_ino x) 0 (set_statx x p) s1).
Proof.
  intros Hd Hsec Hl workpath workend Hne. cbn [resolve_loop].
  assert (from (String.length pre) workpath = (d ++ "/" ++ rest)%string) as Hfrom by apply from_app.
  assert (char_at (String.length pre) workpath <> Some slash) as Hc.
  { unfold char_at. rewrite Hfrom. pose proof (component_first d ("/" ++ rest) Hd) as Hc. exact Hc. }
  rewrite decide_False by done. rewrite (bool_decide_false _ Hc), Hfrom.
  change ("/" ++ rest)%string with (String.String slash rest). rewrite (index_app slash d rest (proj2 Hd)), Hsec, upto_app. cbn [negb].
  rewrite !(c_assert_bind true) by done. rewrite (M_bind_done _ _ _ _ _ Hl). split.
  - intros Hst Hnf. rewrite (proj2 (Z.eqb_neq _ _) Hst). cbn [negb]. by rewrite c_assert_bind.
  - intros -> Hlink Hz. change (0 =? 0) with true. cbn [negb]. rewrite Hlink. by rewrite c_assert_bind by (by rewrite (proj2 (Z.eqb_neq 0 (stx_ino x)) (not_eq_sym Hz))).
Qed.

Lemma walked_loop dirs : forall fuel pre final i status p s s1 j,
  Forall component dirs -> CheckSecurity p = false -> walked s i dirs s1 j -> (length dirs <= fuel)%nat ->
  exists p', resolve_loop fuel (pre ++ prefix_of dirs ++ final) (String.length (pre ++ prefix_of dirs)) (String.length pre) i status p s =
    Done ((if decide (dirs = []) then status else 0, j, p'), s1) /\ GetFinalParent p' = GetFinalParent p /\ CheckSecurity p' = false.
Proof.
  induction dirs as [|d dirs IH]; intros fuel pre final i status p s s1 j Hc Hsec Hw Hf.
  - inversion Hw; subst. exists p. split; [|done]. cbn [prefix_of]. rewrite (append_nil pre). destruct fuel; cbn [resolve_loop]; by rewrite decide_True.
  - inversion Hw as [|? ? ? ? s2 x ? ? Hl Hlink Hz Hrest]; subst. apply Forall_cons in Hc as [Hd Hc].
    destruct fuel as [|fuel]; [cbn in Hf; lia|]. cbn [prefix_of].
    destruct (loop_step fuel pre d (prefix_of dirs ++ final) i status p s 0 x s2 Hd Hsec Hl (String.length (pre ++ d ++ "/" ++ prefix_of dirs)))
      as [_ Hstep]; [rewrite !length_append; destruct d; [by destruct (proj1 Hd)|cbn; lia]|].
    rewrite !append_assoc. rewrite (Hstep eq_refl Hlink Hz).
    destruct (IH fuel (pre ++ d ++ "/")%string final (stx_ino x) 0 (set_statx x p) s2 s1 j Hc Hsec Hrest ltac:(cbn in Hf; lia))
      as (p' & Hr & Hg & Hs').
    exists p'. rewrite decide_False by done. split; [|done]. rewrite !append_assoc in Hr.
    replace (String.length pre + String.length d + 1)%nat with (String.length (pre ++ d ++ "/")) by (rewrite !length_append; cbn; lia).
    rewrite Hr. by case_decide.
Qed.

(** ** What a resolution should be *)

(** The components are looked up one in the other, up to the first that is
    missing.  The answer is the status, the directory of the last lookup,
    what the lookup said, and whether it was for the last component. *)
Fixpoint resolve_reference (i : Z) (dirs : list string) (final : string) : M S (Z * Z * statx * bool) :=
  match dirs with
  | [] => '(status, x) ← FinesseServerInternalNameLookup i final; mret (status, i, x, true)
  | d :: dirs =>
      '(status, x) ← FinesseServerInternalNameLookup i d;
      if status =? 0 then
        c_assert (negb (S_ISLNK (stx_mode x)));; c_assert (negb (stx_ino x =? 0));;
        resolve_reference (stx_ino x) dirs final
      else mret (status, i, x, false)
  end.

(** It ends in the last directory, or at one that is missing. *)
Lemma reference_inv dirs final : forall i s st j x last s',
  resolve_reference i dirs final s = Done ((st, j, x, last), s') ->
  (last = true /\ exists s1, walked s i dirs s1 j /\ FinesseServerInternalNameLookup j final s1 = Done ((st, x), s')) \/
  (last = false /\ st <> 0 /\ exists pre d post s1, dirs = pre ++ d :: post /\ walked s i pre s1 j /\
    FinesseServerInternalNameLookup j d s1 = Done ((st, x), s')).
Proof.
  induction dirs as [|d dirs IH]; intros i s st j x last s' Hr; cbn [resolve_reference] in Hr.
  - apply M_bind_inv in Hr as ([st1 x1] & s1 & Hl & [= -> -> -> -> ->]). left. split; [done|]. exists s. split; [constructor|done].
  - apply M_bind_inv in Hr as ([st1 x1] & s1 & Hl & Hr). destruct (Z.eqb_spec st1 0) as [->|Hne].
    + apply M_bind_inv in Hr as ([] & s2 & [Hlink ->]%c_assert_inv & Hr). apply M_bind_inv in Hr as ([] & s3 & [Hz ->]%c_assert_inv & Hr).
      apply negb_true_iff in Hlink, Hz. apply Z.eqb_neq in Hz.
      destruct (IH _ _ _ _ _ _ _ Hr) as [(-> & s4 & Hw & Hf)|(-> & Hst & pre & d' & post & s4 & -> & Hw & Hf)].
      * left. split; [done|]. exists s4. split; [|done]. by eapply walked_down.
      * right. split; [done|]. split; [done|]. exists (d :: pre), d', post, s4. split; [done|]. split; [|done]. by eapply walked_down.
    + injection Hr as -> -> -> -> ->. right. split; [done|]. split; [done|]. exists [], d, dirs, s. split; [done|]. split; [constructor|done].
Qed.

Lemma missing_loop d post dirs : forall fuel pre final i status p s s1 j st x s2,
  Forall component (dirs ++ d :: post) -> CheckSecurity p = false -> walked s i dirs s1 j ->
  FinesseServerInternalNameLookup j d s1 = Done ((st, x), s2) -> st <> 0 -> not_found st = true -> (length dirs < fuel)%nat ->
  exists p', resolve_loop fuel (pre ++ prefix_of (dirs ++ d :: post) ++ final) (String.length (pre ++ prefix_of (dirs ++ d :: post))) (String.length pre)
    i status p s = Done ((st, j, p'), s2) /\ StatxBuffer p' = x /\ Parent p' = j.
Proof.
  induction dirs as [|d' dirs IH]; intros fuel pre final i status p s s1 j st x s2 Hc Hsec Hw Hl Hst Hnf Hf;
    apply Forall_cons in Hc as [Hd Hc]; (destruct fuel as [|fuel]; [cbn in Hf; lia|]); inversion Hw; subst; cbn [app prefix_of].
  - destruct (loop_step fuel pre d (prefix_of post ++ final) j status p s1 st x s2 Hd Hsec Hl (String.length (pre ++ d ++ "/" ++ prefix_of post)))
      as [Hstep _]; [rewrite !length_append; destruct d; [by destruct (proj1 Hd)|cbn; lia]|].
    rewrite !append_assoc, (Hstep Hst Hnf). by eexists.
  - match goal with H1 : FinesseServerInternalNameLookup i d' s = Done ((0, ?y), ?s3), Hy : S_ISLNK (stx_mode ?y) = false, Hz : stx_ino ?y <> 0 |- _ =>
      destruct (loop_step fuel pre d' (prefix_of (dirs ++ d :: post) ++ final) i status p s 0 y s3 Hd Hsec H1
        (String.length (pre ++ d' ++ "/" ++ prefix_of (dirs ++ d :: post))))
        as [_ Hstep]; [rewrite !length_append; destruct d'; [by destruct (proj1 Hd)|cbn; lia]|];
      specialize (Hstep eq_refl Hy Hz);
      destruct (IH fuel (pre ++ d' ++ "/")%string final (stx_ino y) 0 (set_statx y p) s3 s1 j st x s2 Hc Hsec ltac:(assumption) Hl Hst Hnf ltac:(cbn in Hf; lia))
        as (p' & Hr & Hp') end.
    exists p'. split; [|done]. rewrite !append_assoc in *. rewrite Hstep.
    replace (String.length pre + String.length d' + 1)%nat with (String.length (pre ++ d' ++ "/")) by (rewrite !length_append; cbn; lia).
    exact Hr.
Qed.

(** A path below the mount point, from its components. *)
Definition is_path (mountpoint : string) (p : parameters) (dirs : list string) (final : string) : Prop :=
  stripped mountpoint (PathName p) = ("/" ++ prefix_of dirs ++ final)%string /\ Forall component dirs /\ index slash final = None /\
  PathNameBufferLength p = Z.of_nat (String.length (PathName p)) + 1 /\ CheckSecurity p = false.

Definition start (p : parameters) : Z := if 0 =? Parent p then FUSE_ROOT_ID else Parent p.

Lemma prefix_length a b : String.prefix a b = true -> (String.length a <= String.length b)%nat.
Proof.
  revert b. induction a as [|c a IH]; intros [|d b]; cbn; try done; [lia|]. destruct (Ascii.ascii_dec c d); [|done]. intros Hp%IH. lia.
Qed.

Lemma prefix_append a b : String.prefix a (a ++ b) = true.
Proof. induction a as [|d a IH]; [by destruct b|]. rewrite cons_append. cbn. by destruct (Ascii.ascii_dec d d). Qed.

Lemma strip_path mountpoint p :
  PathNameBufferLength p = Z.of_nat (String.length (PathName p)) + 1 ->
  from (if (PathNameBufferLength p <? Z.of_nat (String.length mountpoint)) || negb (String.prefix mountpoint (PathName p)) then O
        else String.length mountpoint) (PathName p) = stripped mountpoint (PathName p).
Proof.
  intros ->. unfold stripped. destruct (String.prefix mountpoint (PathName p)) eqn:E; [|by rewrite orb_true_r].
  apply prefix_length in E. by rewrite orb_false_r, (proj2 (Z.ltb_ge _ _)) by lia.
Qed.

Lemma length_prefix_of dirs : Forall component dirs -> (length dirs <= String.length (prefix_of dirs))%nat.
Proof. induction 1; [done|]. cbn [prefix_of length]. rewrite !length_append. cbn. lia. Qed.

Lemma path_end dirs final : dirs <> [] -> index slash final = None ->
  exists k, rindex slash ("/" ++ prefix_of dirs ++ final) = Some (Datatypes.S k) /\
    Datatypes.S (Datatypes.S k) = String.length ("/" ++ prefix_of dirs).
Proof.
  intros Hne Hf. destruct (prefix_of_end dirs Hne) as [a ->]. exists (String.length a). split.
  - replace ("/" ++ (a ++ "/") ++ final)%string with (("/" ++ a) ++ String.String slash final)%string by (by rewrite !append_assoc).
    by rewrite rindex_app.
  - rewrite !length_append. cbn. lia.
Qed.

Lemma resolve_walked mountpoint p dirs final s st j x last s' :
  is_path mountpoint p dirs final -> resolve_reference (start p) dirs final s = Done ((st, j, x, last), s') ->
  (st <> 0 -> not_found st = true) -> (st = 0 -> stx_ino x <> 0) ->
  exists p', FinesseServerResolvePathName mountpoint p s =
      Done ((if bool_decide (dirs <> []) && last && GetFinalParent p then 0 else st, p'), s') /\
    StatxBuffer p' = x /\ (dirs <> [] -> Parent p' = j) /\
    (dirs <> [] -> last = true -> let k := String.length ("/" ++ prefix_of dirs) in
       from k (stripped mountpoint (PathName p)) = final /\ Cursor p' = InPathName k /\ FinalName p' = InPathName (k + 1)).
Proof.
  intros (Hpath & Hc & Hfin & Hlen & Hsec) Hr Hnf Hz. unfold FinesseServerResolvePathName. fold (start p).
  rewrite (proj2 (Z.eqb_neq 0 (PathNameBufferLength p))) by lia. cbv zeta. rewrite strip_path, Hpath by done.
  destruct (decide (dirs = [])) as [->|Hne].
  - cbn [resolve_reference] in Hr. apply M_bind_inv in Hr as ([st1 x1] & s1 & Hl & [= -> <- -> <- ->]).
    rewrite (rindex_app slash EmptyString final Hfin : rindex slash ("/" ++ prefix_of [] ++ final) = Some O).
    change (from 1 ("/" ++ prefix_of [] ++ final)) with (from 0 final). rewrite (M_bind_done _ _ _ _ _ (Hl : _ (from 0 final) s = _)).
    rewrite bool_decide_false by (by intros []). cbn [andb]. destruct (Z.eqb_spec 0 st) as [<-|Hst]; cbn [negb].
    + exists (set_statx x p). by rewrite c_assert_bind by (by rewrite (proj2 (Z.eqb_neq 0 (stx_ino x)) (not_eq_sym (Hz eq_refl)))).
    + exists (set_found 0 (InWorkPath 1) (set_statx x p)). by rewrite c_assert_bind by auto.
  - rewrite (bool_decide_true _ Hne). cbn [andb].
    assert (from (String.length ("/" ++ prefix_of dirs)) ("/" ++ prefix_of dirs ++ final) = final) as Hlast by (by rewrite <- append_assoc, from_app).
    destruct (path_end dirs final Hne Hfin) as (k & -> & Hk). cbv zeta. rewrite Hk.
    rewrite c_assert_bind by done. set (fuel := String.length ("/" ++ prefix_of dirs ++ final)).
    assert (length dirs < fuel)%nat as Hfuel
      by (unfold fuel; rewrite !length_append; pose proof (length_prefix_of dirs Hc); cbn; lia).
    destruct (reference_inv dirs final _ _ _ _ _ _ _ Hr) as [(-> & s1 & Hw & Hl)|(-> & Hst & pre & d & post & s1 & -> & Hw & Hl)].
    + destruct (walked_loop dirs fuel "/" final (start p) EINVAL p s s1 j Hc Hsec Hw ltac:(lia)) as (p1 & Hrun & Hg & _).
      rewrite (M_bind_done _ _ _ _ _ Hrun), decide_False by done. change (0 =? 0) with true. cbn [negb].
      rewrite Hlast, (M_bind_done _ _ _ _ _ Hl). cbv zeta. cbn [GetFinalParent set_statx set_final set_found]. rewrite Hg.
      destruct (Z.eqb_spec 0 st) as [<-|Hst]; cbn [negb].
      * eexists. split; [by destruct (GetFinalParent p)|done].
      * rewrite c_assert_bind by auto. eexists. split; [done|done].
    + destruct (missing_loop d post pre fuel "/" final (start p) EINVAL p s s1 j st x s' Hc Hsec Hw Hl Hst (Hnf Hst)) as (p1 & Hrun & Hx & Hj).
      { rewrite length_app in Hfuel. lia. }
      rewrite (M_bind_done _ _ _ _ _ Hrun). rewrite (proj2 (Z.eqb_neq 0 st)) by congruence. cbn [negb]. by exists p1.
Qed.

(** Security checks are not written: a path with a directory in it stops the
    server when it asks for them. *)
Lemma resolve_secured mountpoint p d dirs final s :
  stripped mountpoint (PathName p) = ("/" ++ prefix_of (d :: dirs) ++ final)%string -> component d -> index slash final = None ->
  PathNameBufferLength p = Z.of_nat (String.length (PathName p)) + 1 -> CheckSecurity p = true ->
  FinesseServerResolvePathName mountpoint p s = Fail AssertFailed.
Proof.
  intros Hpath Hd Hfin Hlen Hsec. unfold FinesseServerResolvePathName. fold (start p).
  rewrite (proj2 (Z.eqb_neq 0 (PathNameBufferLength p))) by lia. cbv zeta. rewrite strip_path, Hpath by done.
  destruct (path_end (d :: dirs) final ltac:(done) Hfin) as (k & -> & Hk). cbv zeta. rewrite Hk. rewrite c_assert_bind by done.
  apply M_bind_fail. cbn [prefix_of]. rewrite !append_assoc.
  change (String.length ("/" ++ d ++ "/" ++ prefix_of dirs ++ final)) with (Datatypes.S (String.length (d ++ "/" ++ prefix_of dirs ++ final))).
  cbn [resolve_loop]. rewrite decide_False by (rewrite !length_append; cbn; pose proof (proj1 Hd); destruct d; [done|cbn; lia]).
  assert (from 1 (String.String slash (d ++ "/" ++ prefix_of dirs ++ final)) = (d ++ "/" ++ prefix_of dirs ++ final)%string) as Hfrom
    by (by destruct d).
  assert (char_at 1 (String.String slash (d ++ "/" ++ prefix_of dirs ++ final)) <> Some slash) as Hc
    by (unfold char_at; rewrite Hfrom; exact (component_first d ("/" ++ prefix_of dirs ++ final) Hd)).
  change (("/" ++ d ++ "/" ++ prefix_of dirs ++ final)%string) with (String.String slash (d ++ "/" ++ prefix_of dirs ++ final)).
  rewrite (bool_decide_false _ Hc), Hfrom. rewrite c_assert_bind by done.
  change ("/" ++ prefix_of dirs ++ final)%string with (String.String slash (prefix_of dirs ++ final)).
  by rewrite (index_app slash d _ (proj2 Hd)), Hsec.
Qed.

(** Where the offset that is stored leads to in the whole path. *)
Lemma stored_offset mountpoint p rest k : stripped mountpoint (PathName p) = rest ->
  (String.prefix mountpoint (PathName p) = false -> from k (PathName p) = from k rest) /\
  (String.prefix mountpoint (PathName p) = true -> from (String.length mountpoint + k) (PathName p) = from k rest).
Proof. intros <-. unfold stripped. split; intros ->; [done|]. apply from_plus. Qed.

(** C5: Resolving a path walks along it.  A path below the mount point,
    whose components are not empty, is resolved as the reference says, one
    lookup per component up to the first that is missing: the status is that
    of the last lookup, or 0 when only the last component is missing and the
    caller asked for its directory; the directory that was reached and the
    attributes of the last lookup are stored.  The cursor and the final name
    are stored as the offsets [k] and [k + 1] into the path of the caller,
    where the last name is at [k] only when the path has no mount point; then
    the final name lacks its first character.  In a path with the mount point
    the last name is further on, at [k] plus the length of the mount point. *)
Theorem resolve_walks mountpoint p dirs final s st j x last s' :
  is_path mountpoint p dirs final -> resolve_reference (start p) dirs final s = Done ((st, j, x, last), s') ->
  (st <> 0 -> not_found st = true) -> (st = 0 -> stx_ino x <> 0) ->
  exists p', FinesseServerResolvePathName mountpoint p s =
      Done ((if bool_decide (dirs <> []) && last && GetFinalParent p then 0 else st, p'), s') /\
    StatxBuffer p' = x /\ (dirs <> [] -> Parent p' = j) /\
    (dirs <> [] -> last = true -> let k := String.length ("/" ++ prefix_of dirs) in
       from k (stripped mountpoint (PathName p)) = final /\ Cursor p' = InPathName k /\ FinalName p' = InPathName (k + 1) /\
       (String.prefix mountpoint (PathName p) = false -> from k (PathName p) = final /\ from (k + 1) (PathName p) = from 1 final) /\
       (String.prefix mountpoint (PathName p) = true -> from (String.length mountpoint + k) (PathName p) = final)).
Proof.
  intros Hpath Hr Hnf Hz. destruct (resolve_walked mountpoint p dirs final s st j x last s' Hpath Hr Hnf Hz) as (p' & Hrun & Hx & Hp & Hc).
  exists p'. do 3 (split; [done|]). intros Hne Hl. destruct (Hc Hne Hl) as (Hk & Hcur & Hfin). cbv zeta. do 3 (split; [done|]).
  destruct (stored_offset mountpoint p _ (String.length ("/" ++ prefix_of dirs)) eq_refl) as [Hno Hyes].
  split; [|intros Hm; by rewrite Hyes]. intros Hm. rewrite Hno by done. split; [done|]. by rewrite from_plus, Hno, Hk.
Qed.

(** The letters of the mount point are stripped from paths that are not
    below it.  Where the mount point is not followed by a separator in a path,
    the server goes on to the rest of the name and fails an assertion. *)
Theorem mount_prefix_stops mountpoint p c rest s :
  PathName p = (mountpoint ++ String.String c rest)%string -> c <> slash -> index slash rest <> None ->
  PathNameBufferLength p = Z.of_nat (String.length (PathName p)) + 1 ->
  FinesseServerResolvePathName mountpoint p s = Fail AssertFailed.
Proof.
  intros Hp Hc Hr Hlen. unfold FinesseServerResolvePathName. rewrite (proj2 (Z.eqb_neq 0 (PathNameBufferLength p))) by lia.
  cbv zeta. rewrite strip_path by done.
  assert (stripped mountpoint (PathName p) = String.String c rest) as ->.
  { unfold stripped. rewrite Hp, prefix_append. apply from_app. }
  cbn [rindex]. destruct (rindex slash rest) as [k|] eqn:E; [|by apply index_rindex in E]. cbn.
  unfold char_at. cbn. assert (Some c <> Some slash) as Hs by (intros [= Ec]; exact (Hc Ec)). rewrite (bool_decide_false _ Hs). done.
Qed.
End Resolution.

(** * A file system with the file "/a/b" *)

Definition toy_inode (ino : Z) : option fuse_attr :=
  if ino =? 2 then Some {| a_ino := 2; a_mode := 0x41ff; a_nlink := 2; a_size := 0 |}
  else if ino =? 3 then Some {| a_ino := 3; a_mode := 0x81ff; a_nlink := 1; a_size := 5 |}
  else None.

Definition toy_lookup (parent : Z) (name : string) : option entry_out :=
  let entry ino := (fun a => {| nodeid := ino; e_attr := a |}) <$> toy_inode ino in
  if (parent =? 1) && bool_decide (name = "a"%string) then entry 2
  else if (parent =? 2) && bool_decide (name = "b"%string) then entry 3
  else None.

(** The state counts the lookups. *)
#[global] Instance toy_files : FileSystem nat := {|
  fs_lookup parent name n := Done (match toy_lookup parent name with
    | None => Build_captured (- ENOENT) None | Some a => Build_captured 0 (Some a) end, Datatypes.S n);
  fs_getattr ino n := Done (match toy_inode ino with
    | None => Build_captured (- ENOENT) None | Some a => Build_captured 0 (Some {| attr_valid := 1; at_attr := a |}) end, n);
  fs_access _ _ n := Done (Build_captured 0 None, n);
  fs_unlink _ _ n := Done (Build_captured (- ENOENT) None, n);
  fs_forget _ _ n := Done (tt, n) |}.

Definition toy_parameters (path : string) : parameters :=
  FinesseAllocateServerPathResolutionParameters 0 path FINESSE_SERVER_PATH_RESOLUTION_GET_FINAL_PARENT.

(** "/mnt/a/c": the directory is found, the last name is missing.  What is
    stored as the final name is "/a/c". *)
Lemma resolve_walks_witness :
  is_path "/mnt" (toy_parameters "/mnt/a/c") ["a"%string] "c" /\
  exists  p', FinesseServerResolvePathName "/mnt" (toy_parameters "/mnt/a/c") 0%nat = Done ((0, p'), 2%nat) /\
    StatxBuffer p' = zero_statx /\ Parent p' = 2 /\ Cursor p' = InPathName 3 /\ FinalName p' = InPathName 4 /\
    from 4 "/mnt/a/c" = "/a/c"%string /\ from 7 "/mnt/a/c" = "c"%string.
Proof.
  assert (is_path "/mnt" (toy_parameters "/mnt/a/c") ["a"%string] "c") as H.
  { split; [vm_compute; reflexivity|]. split; [|split; [vm_compute; reflexivity|split; vm_compute; reflexivity]].
    constructor; [|constructor]. split; [discriminate|vm_compute; reflexivity]. }
  split; [exact H|].
  destruct (resolve_walks "/mnt" (toy_parameters "/mnt/a/c") ["a"%string] "c" 0%nat (- ENOENT) 2 zero_statx true 2%nat H) as (p' & Hr & Hx & Hp & Hc).
  - vm_compute. reflexivity.
  - intros _. vm_compute. reflexivity.
  - vm_compute. discriminate.
  - exists p'. split; [exact Hr|]. split; [exact Hx|]. split; [apply Hp; discriminate|]. destruct (Hc ltac:(discriminate) eq_refl) as (_ & Hcur & Hfin & _ & Htext).
    split; [exact Hcur|]. split; [exact Hfin|]. split; [reflexivity|exact (Htext eq_refl)].
Defined.

(** "/mntextra/a" is not below "/mnt". *)
Lemma mount_prefix_stops_witness :
  FinesseServerResolvePathName "/mnt" (toy_parameters "/mntextra/a") 0%nat = Fail AssertFailed.
Proof.
  apply (mount_prefix_stops "/mnt" (toy_parameters "/mntextra/a") "e"%char "xtra/a").
  - vm_compute. reflexivity.
  - discriminate.
  - vm_compute. discriminate.
  - vm_compute. reflexivity.
Defined.
