(* ===== verification/Server.v ===== *)
(** The server's handlers of client requests: src/finesse/server/namemap.c,
    stat.c, unlink.c, access.c, statfs.c, test.c, serverstat.c, the switches
    of fuse.c and native.c, the counters of fs-internal.h, and one turn of the
    worker of src/lib/finesse.c.

    The state of the server has four parts: the region that it shares with a
    client (Region.v), the table of the objects that it gave to clients
    (FastLookup.v), the file system that it serves (a [FileSystem], see
    PathName.v) and its statistics.  An operation of one of them is lifted to
    the server by [on_channel], [on_objects] or [on_files].

    What comes from outside is an argument: [Session] is the struct
    fuse_session with the table of client regions, and where malloc puts the
    object table; [supply] is what uuid_generate_time_safe, malloc and
    clock_gettime give during a request.  [Layout] is how a structure that is
    only copied lies in memory.

    A file system answers while it is called, so that the waits for the
    completion of a request are over when they begin; but nobody answers a
    forget, and the wait for it is [Blocked].  The request structures
    themselves (finesse-req.c) are not modelled. *)

From stdpp Require Import gmap list strings.
From S2P Require Import Prelude Bitmap FastLookup Message Region Calls FuseCalls PathName.

#[local] Open Scope Z_scope.
#[local] Open Scope word_scope.

Definition ENOTSUP : Z := 95.

(** A UUID in a message, a number, as the bytes that the object table
    compares, and back. *)
Definition uuid_bytes (u : Z) : list Z := (fun i => Z.shiftr u (8 * Z.of_nat i) mod 256) <$> seq 0 16.
Definition uuid_number (l : list Z) : Z := foldr (fun b acc => b + 256 * acc) 0 l.

(** struct fuse_kstatfs *)
Record kstatfs := {
  bsize : Z; frsize : Z; blocks : Z; bfree : Z; bavail : Z; f_files : Z; ffree : Z; namelen : Z }.

(** The bytes of a struct stat, of the double that is computed from the
    seconds of a timeout, and of a struct statvfs. *)
Class Layout := {
  stat_blob : fuse_attr -> list Z;
  timeout_blob : Z -> list Z;
  statvfs_blob : kstatfs -> list Z }.

(** The statfs request of a file system.  Its answer may be short. *)
Class Statfs (S : Type) := { fs_statfs : Z -> M S (captured (option kstatfs)) }.

Class Session := { mountpoint : string; server_handle : ptr; regions : Z -> ptr; newtable : ptr }.

Record supply := { s_uuid : list Z; s_entry : ptr; s_now : timespec }.

Record server (F : Type) := { channel : Region.world; objects : FastLookup.memory; files : F; stats : FinesseServerStat }.
Arguments channel {F} _.
Arguments objects {F} _.
Arguments files {F} _.
Arguments stats {F} _.
Arguments Build_server {F} _ _ _ _.

Section Code.
Context {F : Type} `{!FileSystem F, !Statfs F, !Libuuid, !Statics, !Layout, !Session}.
#[local] Notation MS := (M (server F)).

Definition on_channel {A} (m : M Region.world A) : MS A := fun s =>
  match m (channel s) with Done (a, w) => Done (a, Build_server w (objects s) (files s) (stats s)) | Fail f => Fail f end.
Definition on_objects {A} (m : M FastLookup.memory A) : MS A := fun s =>
  match m (objects s) with Done (a, o) => Done (a, Build_server (channel s) o (files s) (stats s)) | Fail f => Fail f end.
Definition on_files {A} (m : M F A) : MS A := fun s =>
  match m (files s) with Done (a, f) => Done (a, Build_server (channel s) (objects s) f (stats s)) | Fail f => Fail f end.
Definition on_stats (f : FinesseServerStat -> FinesseServerStat) : MS unit := fun s =>
  Done (tt, Build_server (channel s) (objects s) (files s) (f (stats s))).

(** ** fs-internal.h *)

Definition bump (index : Z) (l : list Z) : list Z := alter (fun n => u64 (n + 1)) (Z.to_nat index) l.

Definition FinesseCountNativeRequest (Type_ : Z) : MS unit :=
  c_assert (FINESSE_NATIVE_REQ_BASE_TYPE <=? Type_);; c_assert (Type_ <? FINESSE_NATIVE_REQ_MAX);;
  on_stats (fun s => {| stat_Version := stat_Version s; stat_Length := stat_Length s; ClientConnectionCount := ClientConnectionCount s;
    ActiveNameMaps := ActiveNameMaps s; FuseRequests := FuseRequests s; FuseResponses := FuseResponses s;
    NativeRequests := bump (Type_ - FINESSE_NATIVE_REQ_BASE_TYPE) (NativeRequests s); NativeResponses := NativeResponses s |}).

Definition FinesseCountNativeResponse (Type_ : Z) : MS unit :=
  c_assert (FINESSE_NATIVE_RSP_ERR <=? Type_);; c_assert (Type_ <? FINESSE_NATIVE_RSP_MAX);;
  on_stats (fun s => {| stat_Version := stat_Version s; stat_Length := stat_Length s; ClientConnectionCount := ClientConnectionCount s;
    ActiveNameMaps := ActiveNameMaps s; FuseRequests := FuseRequests s; FuseResponses := FuseResponses s;
    NativeRequests := NativeRequests s; NativeResponses := bump (Type_ - FINESSE_NATIVE_RSP_ERR) (NativeResponses s) |}).

Definition FinesseCountFuseRequest (Type_ : Z) : MS unit :=
  c_assert (FINESSE_FUSE_REQ_BASE_TYPE <=? Type_);; c_assert (Type_ <? FINESSE_FUSE_REQ_MAX);;
  on_stats (fun s => {| stat_Version := stat_Version s; stat_Length := stat_Length s; ClientConnectionCount := ClientConnectionCount s;
    ActiveNameMaps := ActiveNameMaps s; FuseRequests := bump (Type_ - FINESSE_FUSE_REQ_BASE_TYPE) (FuseRequests s);
    FuseResponses := FuseResponses s; NativeRequests := NativeRequests s; NativeResponses := NativeResponses s |}).

Definition FinesseCountFuseResponse (Type_ : Z) : MS unit :=
  c_assert (FINESSE_FUSE_RSP_NONE <=? Type_);; c_assert (Type_ <? FINESSE_FUSE_RSP_MAX);;
  on_stats (fun s => {| stat_Version := stat_Version s; stat_Length := stat_Length s; ClientConnectionCount := ClientConnectionCount s;
    ActiveNameMaps := ActiveNameMaps s; FuseRequests := FuseRequests s;
    FuseResponses := bump (Type_ - FINESSE_FUSE_RSP_NONE) (FuseResponses s);
    NativeRequests := NativeRequests s; NativeResponses := NativeResponses s |}).

(** ** Objects *)

Definition load_object (p : ptr) : MS finesse_object := on_objects (e ← load_entry (p - 48); mret (Object e)).
Definition lookup_object (u : Z) : MS ptr := on_objects (finesse_object_lookup_by_uuid newtable (uuid_bytes u)).
Definition release_object (p : ptr) : MS unit := on_objects (finesse_object_release newtable p).
Definition create_object (ino : Z) (x : supply) : MS ptr := on_objects (finesse_object_create newtable ino (s_uuid x) (s_entry x)).
Definition release_if_any (p : ptr) : MS unit := if p =? NULL then mret () else release_object p.

(** The inode number of a parent that is given as a UUID. *)
Definition parent_inode (u : Z) : MS (option Z) :=
  p ← lookup_object u;
  if p =? NULL then mret None else o ← load_object p; release_object p;; mret (Some (inode o)).

(** ** namemap.c *)

(** The answers of the name map functions are the status and [*Finobj]. *)
Definition FinsesseServerInternalPathMapRequest (ParentInode : Z) (ParentUuid : option Z) (Name : string) (Flags : Z) (x : supply) : MS (Z * ptr) :=
  let mp_length := String.length mountpoint in
  c_assert (bool_decide (mp_length < String.length Name)%nat || negb (String.prefix mountpoint Name));;
  let ParentInode := if 0 =? ParentInode then FUSE_ROOT_ID else ParentInode in
  let relative := match ParentUuid with Some u => negb (Message.uuid_is_null u) | None => false end in
  c_assert ((FUSE_ROOT_ID =? ParentInode) || negb relative);;
  parent ← (match ParentUuid with Some u => if relative then parent_inode u else mret (Some ParentInode) | None => mret (Some ParentInode) end);
  match parent with
  | None => mret (EBADF, NULL)
  | Some ParentInode =>
      c_assert (negb (0 =? ParentInode));;
      '(status, parameters) ← on_files (FinesseServerResolvePathName mountpoint
        (FinesseAllocateServerPathResolutionParameters ParentInode Name Flags));
      if negb (0 =? status) then mret (status, NULL)
      else
        let '(status, ino) := FinesseGetResolvedInode parameters in
        if negb (0 =? status) then mret (status, NULL)
        else
          c_assert (negb (0 =? ino));;
          c_assert (negb (FastLookup.uuid_is_null (s_uuid x)));;
          finobj ← create_object ino x;
          c_assert (not_null finobj);;
          o ← load_object finobj;
          c_assert (negb (FastLookup.uuid_is_null (FastLookup.uuid o)));;
          c_assert (negb (0 =? inode o));;
          (if uuid_compare (FastLookup.uuid o) (s_uuid x) =? 0 then release_object finobj else mret ());;
          mret (0, finobj)
  end.

Definition FinesseServerInternalNameMapRequest (ParentInode : Z) (ParentUuid : option Z) (Name : string) (x : supply) : MS (Z * ptr) :=
  parent ← (if negb (0 =? ParentInode) then
      u ← deref ParentUuid;
      if negb (Message.uuid_is_null u) then parent_inode u else mret (Some FUSE_ROOT_ID)
    else mret (Some FUSE_ROOT_ID));
  match parent with
  | None => mret (EBADF, NULL)
  | Some parent_ino =>
      if negb (String.prefix mountpoint Name) then mret (ENOTDIR, NULL)
      else
        '(status, statxbuf) ← on_files (FinesseServerInternalNameLookup parent_ino Name);
        if negb (0 =? status) then mret (status, NULL)
        else
          let ino := stx_ino statxbuf in
          c_assert (negb (0 =? ino));;
          finobj ← create_object ino x;
          c_assert (not_null finobj);;
          o ← load_object finobj;
          if uuid_compare (s_uuid x) (FastLookup.uuid o) =? 0 then
            c_assert (inode o =? ino);; release_object finobj;; mret (0, finobj)
          else
            on_files (fs_forget ino 1);; mthrow Blocked
  end.

Definition FinesseServerInternalMapRequest (ParentInode : Z) (ParentUuid : option Z) (Name : string) (Flags : Z) (x : supply) : MS (Z * ptr) :=
  let mp_length := String.length mountpoint in
  let absolute := bool_decide (mp_length < String.length Name)%nat && String.prefix mountpoint Name in
  let ParentInode := if absolute && (0 =? ParentInode) then FUSE_ROOT_ID else ParentInode in
  (if absolute then
     c_assert (FUSE_ROOT_ID =? ParentInode);;
     c_assert (match ParentUuid with Some u => Message.uuid_is_null u | None => true end)
   else mret ());;
  let name_to_parse := if absolute then from mp_length Name else Name in
  match index slash name_to_parse with
  | Some _ => FinsesseServerInternalPathMapRequest ParentInode ParentUuid name_to_parse Flags x
  | None => FinesseServerInternalNameMapRequest ParentInode ParentUuid name_to_parse x
  end.

(** The handlers get the client and the message, which is in the region of
    the client. *)
Definition read_request (client : Z) (m : ptr) : MS params :=
  b ← on_channel (read_message (regions client) m); mret (Parameters (Data b)).

Definition FinesseServerNativeMapRequest (client : Z) (m : ptr) (x : supply) : MS Z :=
  request ← read_request client m;
  match request with
  | ReqMap Parent Flags Name =>
      if server_handle =? NULL then mret ENOTCONN
      else
        c_assert (bool_decide (index slash Name <> None));;
        '(status, finobj) ← FinesseServerInternalMapRequest 0 (Some Parent) Name Flags x;
        status ← (if 0 =? status then
            c_assert (not_null finobj);;
            o ← load_object finobj;
            on_channel (FinesseSendNameMapResponse regions client m (Some (uuid_number (FastLookup.uuid o))) 0 (s_now x))
          else
            c_assert (finobj =? NULL);;
            on_channel (FinesseSendNameMapResponse regions client m None ENOENT (s_now x)));
        (if 0 =? status then FinesseCountNativeResponse FINESSE_NATIVE_RSP_MAP else mret ());;
        mret 0
  | _ => mthrow Undefined
  end.

Definition FinesseServerNativeMapReleaseRequest (client : Z) (m : ptr) (x : supply) : MS Z :=
  request ← read_request client m;
  match request with
  | ReqMapRelease Key =>
      object ← lookup_object Key;
      release_if_any object;;
      if negb (server_handle =? NULL) then
        status ← on_channel (FinesseSendNameMapReleaseResponse regions client m 0 (s_now x));
        (if 0 =? status then FinesseCountNativeResponse FINESSE_NATIVE_RSP_MAP_RELEASE else mret ());;
        mret status
      else mret 0
  | _ => mthrow Undefined
  end.

(** ** stat.c *)

Definition zerostat : fuse_attr := {| a_ino := 0; a_mode := 0; a_nlink := 0; a_size := 0 |}.

Definition send_stat (client : Z) (m : ptr) (stat : option fuse_attr) (timeout result : Z) (x : supply) : MS Z :=
  on_channel (FinesseSendStatResponse regions client m (stat_blob <$> stat) (timeout_blob timeout) result (s_now x)).

Definition Stat (client : Z) (m : ptr) (x : supply) : MS Z :=
  request ← read_request client m;
  match request with
  | ReqStat ParentInode Inode Flags Name =>
      let parentino := if Message.uuid_is_null ParentInode then FUSE_ROOT_ID else 0 in
      '(status, finobj, found) ← (
        if (String.length Name =? 0)%nat then
          if Message.uuid_is_null ParentInode || negb (Message.uuid_is_null Inode) then
            status ← send_stat client m (Some zerostat) 0 EINVAL x;
            c_assert (status =? 0);; mret (status, NULL, false)
          else finobj ← lookup_object Inode; mret (0, finobj, true)
        else
          c_assert (Message.uuid_is_null ParentInode || (0 =? parentino));;
          '(status, finobj) ← FinesseServerInternalMapRequest parentino (Some ParentInode) Name 0 x;
          if negb (0 =? status) then
            status ← send_stat client m (Some zerostat) 0 status x;
            c_assert (status =? 0);; mret (status, finobj, false)
          else mret (status, finobj, true));
      status ← (
        if negb found then release_if_any finobj;; mret status
        else
          c_assert (0 =? Flags);;
          c_assert (not_null finobj);;
          o ← load_object finobj;
          let ino := inode o in
          release_object finobj;;
          out ← on_files (fs_getattr ino);
          match (if 0 =? out_error out then out_arg out else None) with
          | None => send_stat client m None 0 (out_error out) x
          | Some arg =>
              c_assert (negb (S_ISLNK (a_mode (at_attr arg))));;
              status ← send_stat client m (Some (at_attr arg)) (attr_valid arg) (out_error out) x;
              c_assert (status =? 0);; mret status
          end);
      FinesseCountFuseResponse FINESSE_FUSE_RSP_ATTR;;
      mret status
  | _ => mthrow Undefined
  end.

(** ** unlink.c *)

Definition Unlink (client : Z) (m : ptr) (x : supply) : MS Z :=
  request ← read_request client m;
  match request with
  | ReqUnlink Parent Name =>
      let parent_ino := if Message.uuid_is_null Parent then FUSE_ROOT_ID else 0 in
      c_assert (Message.uuid_is_null Parent || (0 =? parent_ino));;
      '(status, finobj) ← FinesseServerInternalMapRequest parent_ino (Some Parent) Name 0 x;
      status ← (if negb (0 =? status) then on_channel (FinesseSendUnlinkResponse regions client m status (s_now x))
        else
          o ← load_object finobj;
          out ← on_files (fs_unlink (inode o) Name);
          on_channel (FinesseSendUnlinkResponse regions client m (out_error out) (s_now x)));
      c_assert (status =? 0);;
      release_if_any finobj;;
      FinesseCountFuseResponse FINESSE_FUSE_RSP_ATTR;;
      mret status
  | _ => mthrow Undefined
  end.

(** ** access.c *)

Definition Access (client : Z) (m : ptr) (x : supply) : MS Z :=
  request ← read_request client m;
  match request with
  | ReqAccess ParentInode Name Behind =>
      let parent := FUSE_ROOT_ID in
      '(known, finobj) ← (if Message.uuid_is_null ParentInode then mret (true, NULL)
        else finobj ← lookup_object ParentInode; mret (negb (finobj =? NULL), finobj));
      if negb known then
        status ← on_channel (FinesseSendAccessResponse regions client m EBADF (s_now x));
        c_assert (status =? 0);;
        FinesseCountFuseResponse FINESSE_FUSE_RSP_ERR;;
        mret 0
      else
        out ← on_files (fs_access parent (access_mask Name Behind));
        status ← on_channel (FinesseSendStatfsResponse regions client m None (out_error out) (s_now x));
        c_assert (status =? 0);;
        FinesseCountFuseResponse FINESSE_FUSE_RSP_STATFS;;
        release_if_any finobj;;
        mret 0
  | _ => mthrow Undefined
  end.

(** ** statfs.c *)

(** The early returns leave the reference of the lookup. *)
Definition finesse_fstatfs_handler (client : Z) (m : ptr) (key : Z) (x : supply) : MS Z :=
  c_assert (negb (Message.uuid_is_null key));;
  finobj ← lookup_object key;
  if finobj =? NULL then
    status ← on_channel (FinesseSendFstatfsResponse regions client m None EBADF (s_now x));
    c_assert (status =? 0);;
    FinesseCountFuseResponse FINESSE_FUSE_RSP_STATFS;;
    mret 0
  else
    o ← load_object finobj;
    out ← on_files (fs_statfs (inode o));
    if negb (0 =? out_error out) then
      status ← on_channel (FinesseSendStatfsResponse regions client m None (out_error out) (s_now x));
      c_assert (status =? 0);;
      FinesseCountFuseResponse FINESSE_FUSE_RSP_STATFS;;
      mret 0
    else
      match out_arg out with
      | None => mthrow AssertFailed
      | Some arg =>
          status ← on_channel (match arg with
            | None => FinesseSendStatfsResponse regions client m None EOVERFLOW (s_now x)
            | Some st => FinesseSendStatfsResponse regions client m (Some (statvfs_blob st)) 0 (s_now x) end);
          (if 0 =? status then FinesseCountFuseResponse FINESSE_FUSE_RSP_STATFS else mret ());;
          release_object finobj;;
          mret 0
      end.

Definition finesse_statfs_handler (client : Z) (m : ptr) (PathName : string) (x : supply) : MS Z :=
  '(status, finobj) ← FinesseServerInternalMapRequest 0 None PathName 0 x;
  (if 0 =? status then
     c_assert (not_null finobj);;
     o ← load_object finobj;
     status ← finesse_fstatfs_handler client m (uuid_number (FastLookup.uuid o)) x;
     c_assert (status =? 0)
   else mret ());;
  release_if_any finobj;;
  mret 0.

Definition FinesseServerFuseStatFs (client : Z) (m : ptr) (x : supply) : MS unit :=
  request ← read_request client m;
  match request with
  | ReqStatfs Path => status ← finesse_statfs_handler client m Path x; c_assert (status =? 0)
  | ReqFstatfs Inode => status ← finesse_fstatfs_handler client m Inode x; c_assert (status =? 0)
  | _ => mthrow Undefined
  end.

(** ** test.c and serverstat.c *)

Definition FinesseServerNativeTestRequest (client : Z) (m : ptr) (x : supply) : MS Z :=
  status ← on_channel (FinesseSendTestResponse regions client m 0 (s_now x));
  (if 0 =? status then FinesseCountNativeResponse FINESSE_NATIVE_RSP_TEST else mret ());;
  mret status.

Definition FinesseServerNativeServerStatRequest (client : Z) (m : ptr) (x : supply) : MS Z :=
  on_stats (fun s => {| stat_Version := stat_Version s; stat_Length := stat_Length s;
    ClientConnectionCount := u16 (FinesseGetActiveClientCount regions); ActiveNameMaps := ActiveNameMaps s;
    FuseRequests := FuseRequests s; FuseResponses := FuseResponses s;
    NativeRequests := NativeRequests s; NativeResponses := NativeResponses s |});;
  size ← on_objects finesse_object_get_table_size;
  on_stats (fun s => {| stat_Version := stat_Version s; stat_Length := stat_Length s;
    ClientConnectionCount := ClientConnectionCount s; ActiveNameMaps := u32 size;
    FuseRequests := FuseRequests s; FuseResponses := FuseResponses s;
    NativeRequests := NativeRequests s; NativeResponses := NativeResponses s |});;
  s ← gets stats;
  status ← on_channel (FinesseSendServerStatResponse regions client m s 0 (s_now x));
  (if 0 =? status then FinesseCountNativeResponse FINESSE_NATIVE_RSP_SERVER_STAT else mret ());;
  mret status.

(** ** fuse.c, native.c and the worker *)

Definition read_block (client : Z) (m : ptr) : MS fincomm_message_block := on_channel (read_message (regions client) m).

(** The header of the block keeps saying that it is a request. *)
Definition send_unsupported (client : Z) (m : ptr) (type : Z) (x : supply) : MS unit :=
  on_channel (on_message (regions client) m (set_Data (fun d => set_Result ENOTSUP (set_Type type d))));;
  on_channel (FinesseSendResponse regions client m (s_now x));; mret ().

Definition FinesseServerHandleFuseRequest (client : Z) (m : ptr) (x : supply) : MS Z :=
  if server_handle =? NULL then mret ENOTCONN
  else
    b ← read_block client m;
    c_assert (FINESSE_REQUEST =? MessageType b);;
    c_assert (not_null m);;
    c_assert (FINESSE_FUSE_MESSAGE =? MessageClass (Data b));;
    let type := Type_ (Data b) in
    FinesseCountFuseRequest type;;
    (if type =? fuse_req_code FINESSE_FUSE_REQ_STATFS then FinesseServerFuseStatFs client m x
     else if type =? fuse_req_code FINESSE_FUSE_REQ_STAT then Stat client m x;; mret ()
     else if type =? fuse_req_code FINESSE_FUSE_REQ_ACCESS then Access client m x;; mret ()
     else if type =? fuse_req_code FINESSE_FUSE_REQ_UNLINK then Unlink client m x;; mret ()
     else send_unsupported client m FINESSE_FUSE_RSP_ERR x);;
    mret 0.

Definition FinesseServerHandleNativeRequest (client : Z) (m : ptr) (x : supply) : MS Z :=
  if server_handle =? NULL then mret ENOTCONN
  else
    b ← read_block client m;
    c_assert (FINESSE_REQUEST =? MessageType b);;
    c_assert (not_null m);;
    c_assert (FINESSE_NATIVE_MESSAGE =? MessageClass (Data b));;
    let type := Type_ (Data b) in
    FinesseCountNativeRequest type;;
    (if type =? native_req_code FINESSE_NATIVE_REQ_TEST then
       status ← FinesseServerNativeTestRequest client m x; c_assert (0 =? status)
     else if type =? native_req_code FINESSE_NATIVE_REQ_SERVER_STAT then
       status ← FinesseServerNativeServerStatRequest client m x; c_assert (0 =? status)
     else if type =? native_req_code FINESSE_NATIVE_REQ_MAP then
       status ← FinesseServerNativeMapRequest client m x; c_assert (0 =? status)
     else if type =? native_req_code FINESSE_NATIVE_REQ_MAP_RELEASE then
       status ← FinesseServerNativeMapReleaseRequest client m x; c_assert (0 =? status)
     else
       send_unsupported client m FINESSE_NATIVE_RSP_ERR x;;
       FinesseCountNativeResponse FINESSE_NATIVE_RSP_ERR);;
    mret 0.

(** One turn of the worker, which takes its request from the region of
    [client]. *)
Definition finesse_process_request_worker (client rnd : Z) (x : supply) (now : timespec) : MS unit :=
  '(status, request) ← on_channel (FinesseGetReadyRequest (regions client) rnd now);
  c_assert (status =? 0);;
  c_assert (not_null request);;
  c_assert (client <? SHM_MESSAGE_COUNT);;
  b ← read_block client request;
  c_assert (negb (RequestId b =? 0));;
  c_assert (FINESSE_REQUEST =? MessageType b);;
  let class := MessageClass (Data b) in
  status ← (
    if class =? FINESSE_FUSE_MESSAGE then FinesseServerHandleFuseRequest client request x
    else if class =? FINESSE_NATIVE_MESSAGE then FinesseServerHandleNativeRequest client request x
    else
      on_channel (on_message (regions client) request (set_block_header FINESSE_RESPONSE EINVAL));;
      status ← on_channel (FinesseSendResponse regions client request (s_now x));
      c_assert (status =? 0);; mret status);
  c_assert (status =? 0).
End Code.
