(* ===== verification/ServerRules.v ===== *)
(** What the handlers of Server.v do: rules for the objects, for names that
    are mapped to objects, and for the way of a request through the region. *)

From stdpp Require Import gmap list strings.
From S2P Require Import Prelude Bitmap FastLookup LookupTable LookupSpec Message Region Calls FuseCalls PathName Server.

#[local] Open Scope Z_scope.
#[local] Open Scope word_scope.

(** * The parts of the state *)

Section Lift.
Context {F : Type}.

Lemma on_channel_run {A} (m : M Region.world A) w o (f : F) st a w' :
  m w = Done (a, w') -> on_channel m (Build_server w o f st) = Done (a, Build_server w' o f st).
Proof. intros Hm. unfold on_channel. cbn. by rewrite Hm. Qed.

Lemma on_channel_fail {A} (m : M Region.world A) w o (f : F) st e :
  m w = Fail e -> on_channel m (Build_server w o f st) = Fail e.
Proof. intros Hm. unfold on_channel. cbn. by rewrite Hm. Qed.

Lemma on_objects_run {A} (m : M FastLookup.memory A) w o (f : F) st a o' :
  m o = Done (a, o') -> on_objects m (Build_server w o f st) = Done (a, Build_server w o' f st).
Proof. intros Hm. unfold on_objects. cbn. by rewrite Hm. Qed.

Lemma on_files_run {A} (m : M F A) w o f st a f' :
  m f = Done (a, f') -> on_files m (Build_server w o f st) = Done (a, Build_server w o f' st).
Proof. intros Hm. unfold on_files. cbn. by rewrite Hm. Qed.

Lemma on_files_fail {A} (m : M F A) w o f st e :
  m f = Fail e -> on_files m (Build_server w o f st) = Fail e.
Proof. intros Hm. unfold on_files. cbn. by rewrite Hm. Qed.
End Lift.

(** The counters never stop the server. *)
Lemma count_response_run {F} type w o (f : F) st :
  FINESSE_FUSE_RSP_NONE <= type < FINESSE_FUSE_RSP_MAX ->
  exists st', FinesseCountFuseResponse type (Build_server w o f st) = Done (tt, Build_server w o f st').
Proof.
  intros Ht. unfold FinesseCountFuseResponse. rewrite c_assert_bind by lia. rewrite c_assert_bind by lia. by eexists.
Qed.

Lemma count_request_run {F} type w o (f : F) st :
  FINESSE_FUSE_REQ_BASE_TYPE <= type < FINESSE_FUSE_REQ_MAX ->
  exists st', FinesseCountFuseRequest type (Build_server w o f st) = Done (tt, Build_server w o f st').
Proof.
  intros Ht. unfold FinesseCountFuseRequest. rewrite c_assert_bind by lia. rewrite c_assert_bind by lia. by eexists.
Qed.

Section Rules.
Context {F : Type} `{!FileSystem F, !Statfs F} {UU : Libuuid} {UL : LibuuidLaws} {ST : Statics} `{!Layout, !Session}.
Variables (T shift : Z) (m0 : FastLookup.memory).
Hypothesis T_pos : 0 < T.
Hypothesis shift_range : 10 <= shift <= 15.
Implicit Types (f : F) (w : Region.world) (o : FastLookup.memory) (c : catalogue) (x : supply).

(** * The objects *)

(** The object table stands for the catalogue [c]. *)
Definition objects_ok (o : FastLookup.memory) (c : catalogue) : Prop :=
  stands_for T shift m0 o c /\ ObjectTable o = T.

Lemma finobj_load_run w o f st c i :
  objects_ok o c -> i ∈ ids c ->
  load_object (object_of (at_ i)) (Build_server w o f st) =
    Done ({| inode := id_ino i; FastLookup.uuid := id_uuid i; freed := 0 |}, Build_server w o f st) /\
  0 < at_ i /\ id_ino i <> 0 /\ length (id_uuid i) = 16%nat /\ FastLookup.uuid_is_null (id_uuid i) = false.
Proof.
  intros [[[Hs _] _] _] Hi. destruct (sh_entries _ _ _ _ _ Hs i Hi) as (r & _ & _ & He).
  destruct (proj1 (Forall_forall _ _) (sh_ids _ _ _ _ _ Hs) i Hi) as [Hat Hino Hlen Hnull].
  split; [|split; [done|split; [done|split; [done|by apply LookupTable.not_null]]]]. unfold load_object.
  replace (object_of (at_ i) - 48) with (at_ i) by (unfold object_of; lia).
  apply on_objects_run. by run_step ltac:(by apply load_entry_run).
Qed.

Lemma release_object_run w o f st c i :
  objects_ok o c -> i ∈ ids c ->
  exists o' c', release_object (object_of (at_ i)) (Build_server w o f st) = Done (tt, Build_server w o' f st) /\
    objects_ok o' c' /\ ids c' = ids c.
Proof.
  intros [Hst HT] Hi. pose proof Hst as [[Hs _] _]. destruct (sh_entries _ _ _ _ _ Hs i Hi) as (r & Hr & _ & _).
  destruct (List.find (fun j => object_of (at_ j) =? object_of (at_ i)) (ids c)) as [j|] eqn:E.
  - pose proof (find_elem _ _ _ E) as [Hj Heq%Z.eqb_eq]. assert (at_ j = at_ i) as Hat by (unfold object_of in Heq; lia).
    destruct (global_op_ok T shift T_pos shift_range newtable m0 o c (with_ref (at_ j) (released r) c) (Release (object_of (at_ i))) NULL)
      as (o' & Hrun & Hst' & HT'); [done|done|done| |].
    { cbn. rewrite E. cbn. by rewrite Hat, Hr. }
    cbn in Hrun. apply M_bind_inv in Hrun as ([] & o1 & Hrel & [= ->]). exists o', (with_ref (at_ j) (released r) c).
    split; [by apply on_objects_run|]. by split.
  - exfalso. apply list_elem_of_In in Hi. pose proof (List.find_none _ _ E i Hi) as Hn. cbn in Hn. by rewrite Z.eqb_refl in Hn.
Qed.

(** An object for an inode number: the one there is, or a new one. *)
Lemma create_object_run w o f st c c1 r ino x :
  objects_ok o c -> op_room m0 (Create ino (s_uuid x) (s_entry x)) ->
  catalogue_op T shift (Create ino (s_uuid x) (s_entry x)) c = Some (c1, r) ->
  exists o' i, create_object ino x (Build_server w o f st) = Done (object_of (at_ i), Build_server w o' f st) /\
    objects_ok o' c1 /\ i ∈ ids c1 /\ id_ino i = ino.
Proof.
  intros [Hst HT] Hroom Hop. destruct (global_op_ok T shift T_pos shift_range newtable m0 o c c1 _ r Hst HT Hroom Hop) as (o' & Hrun & Hst' & HT').
  cbn in Hrun. cbn in Hop. destruct (_ || _) in Hop; [done|].
  assert (exists i, r = object_of (at_ i) /\ i ∈ ids c1 /\ id_ino i = ino) as (i & -> & Hi & Hino).
  { destruct (by_ino ino (ids c)) as [i|] eqn:E.
    - apply bind_Some in Hop as (c2 & Ha & [= -> <-]). exists i. split; [done|]. change (acquire (Some i) c = Some c1) in Ha.
      rewrite (acquire_ids _ _ _ Ha). pose proof (find_elem _ _ _ E) as [? ?%Z.eqb_eq]. done.
    - destruct (by_uuid (s_uuid x) (ids c)); [done|]. injection Hop as <- <-. eexists {| at_ := s_entry x; id_ino := ino; id_uuid := s_uuid x |}.
      split; [done|]. split; [|done]. apply elem_of_app. right. by left. }
  exists o', i. split; [by apply on_objects_run|]. done.
Qed.

(** * Names *)

(** A parent that is not given. *)
Definition no_parent (ParentUuid : option Z) : Prop := match ParentUuid with Some u => u = 0 | None => True end.

Lemma prefix_same_length a b : String.prefix a b = true -> (String.length b <= String.length a)%nat -> from (String.length a) b = EmptyString.
Proof.
  revert b. induction a as [|d a IH]; intros [|e b]; cbn; try done; try lia. destruct (Ascii.ascii_dec d e); [|done].
  intros Hp Hl. apply IH; [done|lia].
Qed.

Lemma stripped_longer mount Name s : stripped mount Name = String.String slash s ->
  bool_decide (String.length mount < String.length Name)%nat || negb (String.prefix mount Name) = true.
Proof.
  unfold stripped. destruct (String.prefix mount Name) eqn:E; [|by rewrite orb_true_r]. intros Hs.
  destruct (decide (String.length mount < String.length Name)%nat) as [Hl|Hl]; [by rewrite bool_decide_true|].
  rewrite (prefix_same_length mount Name) in Hs; [done|done|lia].
Qed.

Definition allocated (Name : string) (Flags : Z) : parameters := FinesseAllocateServerPathResolutionParameters FUSE_ROOT_ID Name Flags.

Lemma resolved_inode p : stx_ino (StatxBuffer p) <> 0 -> FinesseGetResolvedInode p = (0, stx_ino (StatxBuffer p)).
Proof. intros Hz. unfold FinesseGetResolvedInode, FinesseGetResolvedStatx. by rewrite (proj2 (Z.eqb_neq 0 _)) by congruence. Qed.

Lemma path_map_start ParentInode ParentUuid Name Flags x dirs final w o f st :
  is_path mountpoint (allocated Name Flags) dirs final -> no_parent ParentUuid -> ParentInode = 0 \/ ParentInode = FUSE_ROOT_ID ->
  forall p f1 status,
  FinesseServerResolvePathName mountpoint (allocated Name Flags) f = Done ((status, p), f1) ->
  (status <> 0 -> FinsesseServerInternalPathMapRequest ParentInode ParentUuid Name Flags x (Build_server w o f st) =
     Done ((status, NULL), Build_server w o f1 st)) /\
  (status = 0 -> stx_ino (StatxBuffer p) <> 0 -> FastLookup.uuid_is_null (s_uuid x) = false ->
   FinsesseServerInternalPathMapRequest ParentInode ParentUuid Name Flags x (Build_server w o f st) =
     (finobj ← create_object (stx_ino (StatxBuffer p)) x;
      c_assert (not_null finobj);;
      o ← load_object finobj;
      c_assert (negb (FastLookup.uuid_is_null (FastLookup.uuid o)));;
      c_assert (negb (0 =? inode o));;
      (if uuid_compare (FastLookup.uuid o) (s_uuid x) =? 0 then release_object finobj else mret ());;
      mret (0, finobj)) (Build_server w o f1 st)).
Proof.
  intros (Hpath & _) Hpar Hino p f1 status Hres. unfold FinsesseServerInternalPathMapRequest. cbv zeta.
  rewrite c_assert_bind by (eapply stripped_longer; exact Hpath).
  assert ((if 0 =? ParentInode then FUSE_ROOT_ID else ParentInode) = FUSE_ROOT_ID) as -> by (by destruct Hino as [-> | ->]).
  assert (match ParentUuid with Some u => negb (Message.uuid_is_null u) | None => false end = false) as Hrel
    by (destruct ParentUuid; [by rewrite Hpar|done]).
  rewrite Hrel. rewrite c_assert_bind by done.
  assert (forall B (k : option Z -> M (server F) B) s, ((match ParentUuid with Some u => mret (Some FUSE_ROOT_ID) | None => mret (Some FUSE_ROOT_ID) end) ≫= k) s = k (Some FUSE_ROOT_ID) s) as ->
    by (intros; by destruct ParentUuid).
  rewrite c_assert_bind by done. fold (allocated Name Flags). run_step ltac:(by apply on_files_run).
  split; [intros Hs; by rewrite (proj2 (Z.eqb_neq 0 status)) by congruence|]. intros -> Hz Hu. change (0 =? 0) with true. cbn [negb].
  rewrite (resolved_inode p Hz). change (0 =? 0) with true. cbn [negb].
  rewrite c_assert_bind by (by rewrite (proj2 (Z.eqb_neq 0 _)) by congruence). by rewrite c_assert_bind by (by rewrite Hu).
Qed.

(** A path whose inode is found gets the object of the inode. *)
Lemma path_map_found ParentInode ParentUuid Name Flags x dirs final w o f st c c1 r j xs last f1 :
  is_path mountpoint (allocated Name Flags) dirs final -> no_parent ParentUuid -> ParentInode = 0 \/ ParentInode = FUSE_ROOT_ID ->
  resolve_reference FUSE_ROOT_ID dirs final f = Done ((0, j, xs, last), f1) -> stx_ino xs <> 0 ->
  objects_ok o c -> op_room m0 (Create (stx_ino xs) (s_uuid x) (s_entry x)) ->
  catalogue_op T shift (Create (stx_ino xs) (s_uuid x) (s_entry x)) c = Some (c1, r) ->
  exists o' c' i, FinsesseServerInternalPathMapRequest ParentInode ParentUuid Name Flags x (Build_server w o f st) =
      Done ((0, object_of (at_ i)), Build_server w o' f1 st) /\
    objects_ok o' c' /\ ids c' = ids c1 /\ i ∈ ids c' /\ id_ino i = stx_ino xs.
Proof.
  intros Hpath Hpar Hino Href Hz Hok Hroom Hop.
  destruct (resolve_walked mountpoint _ _ _ _ _ _ _ _ _ Hpath Href) as (p & Hres & Hx & _); [done|by intros _|]. subst xs.
  assert ((if bool_decide (dirs <> []) && last && GetFinalParent (allocated Name Flags) then 0 else 0) = 0) as E by (by case_match).
  rewrite E in Hres. clear E.
  assert (FastLookup.uuid_is_null (s_uuid x) = false) as Hu.
  { cbn in Hop. destruct (good_uuid (s_uuid x)) eqn:G; [|by rewrite orb_true_r in Hop]. apply good_uuid_true in G as [? ?]. by apply LookupTable.not_null. }
  destruct (path_map_start ParentInode ParentUuid Name Flags x dirs final w o f st Hpath Hpar Hino p f1 0 Hres) as [_ Hrun].
  rewrite (Hrun eq_refl Hz Hu). clear Hrun.
  destruct (create_object_run w o f1 st c c1 r (stx_ino (StatxBuffer p)) x Hok Hroom Hop) as (o1 & i & Hc & Hok1 & Hi & Hn).
  run_step ltac:(exact Hc). destruct (finobj_load_run w o1 f1 st c1 i Hok1 Hi) as (Hl & Hat & Hnz & Hlen & Hnull).
  rewrite c_assert_bind by (unfold not_null; rewrite (proj2 (Z.eqb_neq _ NULL)) by (unfold object_of, NULL; lia); done).
  run_step ltac:(exact Hl). cbn [FastLookup.uuid inode]. rewrite c_assert_bind by (by rewrite Hnull).
  rewrite c_assert_bind by (by rewrite (proj2 (Z.eqb_neq 0 _)) by congruence). case_match.
  - destruct (release_object_run w o1 f1 st c1 i Hok1 Hi) as (o2 & c2 & Hr & Hok2 & Hids). run_step ltac:(exact Hr).
    exists o2, c2, i. rewrite Hids. done.
  - rewrite mret_bind. exists o1, c1, i. done.
Qed.

(** A resolution that stops the server. *)
Lemma path_map_stops ParentInode ParentUuid Name Flags x dirs final w o f st e :
  stripped mountpoint Name = ("/" ++ prefix_of dirs ++ final)%string -> no_parent ParentUuid -> ParentInode = 0 \/ ParentInode = FUSE_ROOT_ID ->
  FinesseServerResolvePathName mountpoint (allocated Name Flags) f = Fail e ->
  FinsesseServerInternalPathMapRequest ParentInode ParentUuid Name Flags x (Build_server w o f st) = Fail e.
Proof.
  intros Hpath Hpar Hino Hres. unfold FinsesseServerInternalPathMapRequest. cbv zeta.
  rewrite c_assert_bind by (eapply stripped_longer; exact Hpath).
  assert ((if 0 =? ParentInode then FUSE_ROOT_ID else ParentInode) = FUSE_ROOT_ID) as -> by (by destruct Hino as [-> | ->]).
  rewrite c_assert_bind by done. assert (match ParentUuid with Some u => negb (Message.uuid_is_null u) | None => false end = false) as ->
    by (destruct ParentUuid; [by rewrite Hpar|done]).
  assert (forall B (k : option Z -> M (server F) B) s, ((match ParentUuid with Some u => mret (Some FUSE_ROOT_ID) | None => mret (Some FUSE_ROOT_ID) end) ≫= k) s = k (Some FUSE_ROOT_ID) s) as ->
    by (intros; by destruct ParentUuid).
  rewrite c_assert_bind by done. fold (allocated Name Flags). apply M_bind_fail, on_files_fail, Hres.
Qed.

Lemma path_map_missing ParentInode ParentUuid Name Flags x dirs final w o f st status j xs last f1 :
  is_path mountpoint (allocated Name Flags) dirs final -> no_parent ParentUuid -> ParentInode = 0 \/ ParentInode = FUSE_ROOT_ID ->
  resolve_reference FUSE_ROOT_ID dirs final f = Done ((status, j, xs, last), f1) -> status <> 0 -> not_found status = true ->
  GetFinalParent (allocated Name Flags) = false ->
  FinsesseServerInternalPathMapRequest ParentInode ParentUuid Name Flags x (Build_server w o f st) = Done ((status, NULL), Build_server w o f1 st).
Proof.
  intros Hpath Hpar Hino Href Hz Hnf Hgfp.
  destruct (resolve_walked mountpoint _ _ _ _ _ _ _ _ _ Hpath Href) as (p & Hres & _); [done|done|].
  rewrite Hgfp, andb_false_r in Hres.
  by apply (path_map_start ParentInode ParentUuid Name Flags x dirs final w o f st Hpath Hpar Hino p f1 status Hres).
Qed.

(** ** Without the mount point *)

Definition below (Name : string) : string :=
  if bool_decide (String.length mountpoint < String.length Name)%nat && String.prefix mountpoint Name
  then from (String.length mountpoint) Name else Name.

Lemma index_from (a : Ascii.ascii) n s : index a (from n s) <> None -> index a s <> None.
Proof.
  revert s. induction n as [|n IH]; intros [|d s]; cbn; try done. intros Hi. destruct (decide (a = d)); [done|].
  intros E%fmap_None. by apply (IH s).
Qed.

Lemma map_is_path_map ParentInode ParentUuid Name Flags x dirs final s :
  stripped mountpoint (below Name) = ("/" ++ prefix_of dirs ++ final)%string -> no_parent ParentUuid -> ParentInode = 0 \/ ParentInode = FUSE_ROOT_ID ->
  exists ParentInode', (ParentInode' = 0 \/ ParentInode' = FUSE_ROOT_ID) /\
    FinesseServerInternalMapRequest ParentInode ParentUuid Name Flags x s =
    FinsesseServerInternalPathMapRequest ParentInode' ParentUuid (below Name) Flags x s.
Proof.
  intros Hpath Hpar Hino.
  unfold FinesseServerInternalMapRequest. cbv zeta. fold (below Name).
  assert (exists k, index slash (below Name) = Some k) as [k Hk].
  { destruct (index slash (below Name)) eqn:E; [eauto|]. exfalso. unfold stripped in Hpath. case_match.
    - apply (index_from slash (String.length mountpoint) (below Name)); [|done]. by rewrite Hpath.
    - by rewrite Hpath in E. }
  rewrite Hk. eexists (if bool_decide (String.length mountpoint < String.length Name)%nat && String.prefix mountpoint Name && (0 =? ParentInode) then FUSE_ROOT_ID else ParentInode).
  split; [by case_match; [right|]|]. destruct (bool_decide _ && String.prefix mountpoint Name) eqn:E; cbn [andb].
  - rewrite M_assoc, c_assert_bind by (by destruct Hino as [-> | ->]). by rewrite c_assert_bind by (destruct ParentUuid; [by rewrite Hpar|done]).
  - by rewrite mret_bind.
Qed.

Lemma map_found ParentInode ParentUuid Name x dirs final w o f st c c1 r j xs last f1 :
  is_path mountpoint (allocated (below Name) 0) dirs final -> no_parent ParentUuid -> ParentInode = 0 \/ ParentInode = FUSE_ROOT_ID ->
  resolve_reference FUSE_ROOT_ID dirs final f = Done ((0, j, xs, last), f1) -> stx_ino xs <> 0 ->
  objects_ok o c -> op_room m0 (Create (stx_ino xs) (s_uuid x) (s_entry x)) ->
  catalogue_op T shift (Create (stx_ino xs) (s_uuid x) (s_entry x)) c = Some (c1, r) ->
  exists o' c' i, FinesseServerInternalMapRequest ParentInode ParentUuid Name 0 x (Build_server w o f st) =
      Done ((0, object_of (at_ i)), Build_server w o' f1 st) /\
    objects_ok o' c' /\ ids c' = ids c1 /\ i ∈ ids c' /\ id_ino i = stx_ino xs.
Proof.
  intros Hpath Hpar Hino. destruct (map_is_path_map _ ParentUuid Name 0 x dirs final (Build_server w o f st) (proj1 Hpath) Hpar Hino) as (pi & Hpi & ->).
  by apply path_map_found.
Qed.

Lemma map_missing_with ParentInode ParentUuid Name Flags x dirs final w o f st status j xs last f1 :
  is_path mountpoint (allocated (below Name) Flags) dirs final -> no_parent ParentUuid -> ParentInode = 0 \/ ParentInode = FUSE_ROOT_ID ->
  resolve_reference FUSE_ROOT_ID dirs final f = Done ((status, j, xs, last), f1) -> status <> 0 -> not_found status = true ->
  GetFinalParent (allocated (below Name) Flags) = false ->
  FinesseServerInternalMapRequest ParentInode ParentUuid Name Flags x (Build_server w o f st) = Done ((status, NULL), Build_server w o f1 st).
Proof.
  intros Hpath Hpar Hino. destruct (map_is_path_map _ ParentUuid Name Flags x dirs final (Build_server w o f st) (proj1 Hpath) Hpar Hino) as (pi & Hpi & ->).
  by apply path_map_missing.
Qed.

Lemma map_missing ParentInode ParentUuid Name x dirs final w o f st status j xs last f1 :
  is_path mountpoint (allocated (below Name) 0) dirs final -> no_parent ParentUuid -> ParentInode = 0 \/ ParentInode = FUSE_ROOT_ID ->
  resolve_reference FUSE_ROOT_ID dirs final f = Done ((status, j, xs, last), f1) -> status <> 0 -> not_found status = true ->
  FinesseServerInternalMapRequest ParentInode ParentUuid Name 0 x (Build_server w o f st) = Done ((status, NULL), Build_server w o f1 st).
Proof. intros. by eapply map_missing_with. Qed.

(** * A request on its way *)

Variables (base client : Z) (sl : slots).
Hypothesis Hclient : 0 <= client < SHM_MESSAGE_COUNT.
Hypothesis Hbase : regions client = base.
Hypothesis Hserver : server_handle <> NULL.

(** A request of a class whose type and parameters are these, in block [i]. *)
Definition asked_as (class : Z) (w : Region.world) (i : Z) (s : slot) (type : Z) (par : params) (t0 : timespec) : Prop :=
  exists br v r, in_transit base w sl i s (br, FINESSE_REQUEST, v, class, r, type, par, t0).

(** A FUSE request. *)
Definition asked := asked_as FINESSE_FUSE_MESSAGE.

(** The response in block [i]. *)
Definition answered (w : Region.world) (i : Z) (header result type : Z) (par : params) (t0 : timespec) : Prop :=
  in_transit base w sl i Responded (u32 header, FINESSE_RESPONSE, FINESSE_MESSAGE_VERSION, FINESSE_FUSE_MESSAGE, result, type, par, t0).

Lemma worker_turn class w i type par t0 rnd x now o f st :
  asked_as class w i Ready type par t0 -> class = FINESSE_FUSE_MESSAGE \/ class = FINESSE_NATIVE_MESSAGE ->
  normal now -> (forall j, is_slot j -> sl j <> Ready) ->
  exists w', asked_as class w' i Taken type par t0 /\
    finesse_process_request_worker client rnd x now (Build_server w o f st) =
      (status ← (if class =? FINESSE_FUSE_MESSAGE then FinesseServerHandleFuseRequest client (block_addr base i) x
                 else FinesseServerHandleNativeRequest client (block_addr base i) x);
       c_assert (status =? 0)) (Build_server w' o f st).
Proof.
  intros (br & v & r & Ht) Hclass Hn Hidle. destruct (transit_take _ _ _ _ _ rnd now Ht Hn Hidle) as (w' & Hrun & Ht'). exists w'.
  split; [by exists br, v, r|]. unfold finesse_process_request_worker. rewrite Hbase. run_step ltac:(apply on_channel_run; exact Hrun).
  cbv iota. rewrite c_assert_bind by done. pose proof Ht' as (Hrep & Hi & _ & b0 & Hb0 & Hp0).
  rewrite c_assert_bind by (by eapply addr_not_null). rewrite c_assert_bind by lia.
  destruct (transit_read _ _ _ _ _ _ Ht') as (b & Hb & Hpb). unfold read_block. rewrite Hbase.
  run_step ltac:(apply on_channel_run; exact Hb).
  assert (b = b0) as ->.
  { unfold read_message in Hb. rewrite block_index_addr, Z.eqb_refl in Hb by (apply Hrep || done).
    rewrite (load_block_run i b0 w') in Hb by (apply Hi || done). by injection Hb as ->. }
  assert (block_in_use Taken b0) as Huse.
  { replace Taken with (move i Taken sl i) by apply move_here. eapply (rp_blocks _ _ _ Hrep); [exact Hi|by rewrite move_here|exact Hb0]. }
  unfold payload in Hpb. injection Hpb as _ Hty _ Hcl _ _ _ _.
  rewrite c_assert_bind by (rewrite (proj2 (Z.eqb_neq _ 0)); [done|by apply (bu_number _ _ Huse)]).
  rewrite c_assert_bind by (by rewrite Hty). cbv zeta. rewrite Hcl. by destruct Hclass as [-> | ->].
Qed.

Lemma worker_takes w i type par t0 rnd x now o f st :
  asked w i Ready type par t0 -> normal now -> (forall j, is_slot j -> sl j <> Ready) ->
  exists w', asked w' i Taken type par t0 /\
    finesse_process_request_worker client rnd x now (Build_server w o f st) =
      (status ← FinesseServerHandleFuseRequest client (block_addr base i) x; c_assert (status =? 0)) (Build_server w' o f st).
Proof. intros Ha Hn Hidle. apply (worker_turn FINESSE_FUSE_MESSAGE w i type par t0 rnd x now o f st Ha); [by left|done|done]. Qed.

(** The handler of a type. *)
Definition fuse_handler (type : Z) (m : ptr) (x : supply) : M (server F) unit :=
  if type =? fuse_req_code FINESSE_FUSE_REQ_STATFS then FinesseServerFuseStatFs client m x
  else if type =? fuse_req_code FINESSE_FUSE_REQ_STAT then Stat client m x;; mret ()
  else if type =? fuse_req_code FINESSE_FUSE_REQ_ACCESS then Access client m x;; mret ()
  else if type =? fuse_req_code FINESSE_FUSE_REQ_UNLINK then Unlink client m x;; mret ()
  else send_unsupported client m FINESSE_FUSE_RSP_ERR x.

Lemma handle_fuse w i type par t0 x o f st :
  asked w i Taken type par t0 -> FINESSE_FUSE_REQ_BASE_TYPE <= type < FINESSE_FUSE_REQ_MAX ->
  exists st', FinesseServerHandleFuseRequest client (block_addr base i) x (Build_server w o f st) =
    (fuse_handler type (block_addr base i) x;; mret 0) (Build_server w o f st').
Proof.
  intros (br & v & r & Ht) Hty. destruct (count_request_run type w o f st Hty) as [st' Hc]. exists st'.
  unfold FinesseServerHandleFuseRequest. rewrite (proj2 (Z.eqb_neq _ _) Hserver).
  destruct (transit_read _ _ _ _ _ _ Ht) as (b & Hb & Hpb). unfold read_block. rewrite Hbase.
  run_step ltac:(apply on_channel_run; exact Hb). unfold payload in Hpb. injection Hpb as _ Hmt _ Hcl _ Hbt _ _.
  pose proof Ht as (Hrep & Hi & _).
  rewrite c_assert_bind by (by rewrite Hmt). rewrite c_assert_bind by (by eapply addr_not_null). rewrite c_assert_bind by (by rewrite Hcl).
  cbv zeta. rewrite Hbt. run_step ltac:(exact Hc). done.
Qed.

(** A turn of the worker is a turn of the handler. *)
Lemma worker_serves w i type par t0 rnd x now o f st :
  asked w i Ready type par t0 -> normal now -> (forall j, is_slot j -> sl j <> Ready) ->
  FINESSE_FUSE_REQ_BASE_TYPE <= type < FINESSE_FUSE_REQ_MAX ->
  exists w' st', asked w' i Taken type par t0 /\
    (forall s, fuse_handler type (block_addr base i) x (Build_server w' o f st') = Done (tt, s) ->
       finesse_process_request_worker client rnd x now (Build_server w o f st) = Done (tt, s)) /\
    (forall e, fuse_handler type (block_addr base i) x (Build_server w' o f st') = Fail e ->
       finesse_process_request_worker client rnd x now (Build_server w o f st) = Fail e).
Proof.
  intros Ha Hn Hidle Hty. destruct (worker_takes w i type par t0 rnd x now o f st Ha Hn Hidle) as (w' & Ha' & Hw).
  destruct (handle_fuse w' i type par t0 x o f st Ha' Hty) as [st' Hf]. exists w', st'. split; [done|]. rewrite Hw.
  split; [intros s Hs|intros e He]; unfold mbind, M_bind in *; rewrite Hf; [by rewrite Hs|by rewrite He].
Qed.

Lemma read_request_run w i type par t0 o f st :
  asked w i Taken type par t0 ->
  read_request client (block_addr base i) (Build_server w o f st) = Done (par, Build_server w o f st).
Proof.
  intros (br & v & r & Ht). destruct (transit_read _ _ _ _ _ _ Ht) as (b & Hb & Hpb). unfold read_request. rewrite Hbase.
  run_step ltac:(apply on_channel_run; exact Hb). unfold payload in Hpb. by injection Hpb as _ _ _ _ _ _ -> _.
Qed.

Lemma send_stat_run w i type par t0 a timeout result x o f st :
  asked w i Taken type par t0 -> normal (s_now x) ->
  exists w', send_stat client (block_addr base i) (Some a) timeout result x (Build_server w o f st) = Done (0, Build_server w' o f st) /\
    answered w' i result result FINESSE_FUSE_RSP_ATTR (RspAttr (stat_blob a) (timeout_blob timeout)) t0.
Proof.
  intros (br & v & r & Ht) Hn. edestruct transit_respond with (1 := Ht) (result := result) (check := true) (now := s_now x)
    (p' := (u32 result, FINESSE_RESPONSE, FINESSE_MESSAGE_VERSION, FINESSE_FUSE_MESSAGE, result,
            FINESSE_FUSE_RSP_ATTR, RspAttr (stat_blob a) (timeout_blob timeout), t0))
    (fill := fun d => set_Parameters (RspAttr (stat_blob a) (timeout_blob timeout)) (set_Type FINESSE_FUSE_RSP_ATTR
                   (set_Result result (set_header FINESSE_MESSAGE_VERSION FINESSE_FUSE_MESSAGE d))))
    as (w' & Hw & Ht'); [done|exact Hclient|exact Hbase|done|done|done| |].
  - intros b Hb. unfold payload in *. cbn. congruence.
  - exists w'. split; [|exact Ht']. apply on_channel_run. exact Hw.
Qed.

Lemma send_err_run w i type par t0 result x o f st :
  asked w i Taken type par t0 -> normal (s_now x) ->
  exists w' r, on_channel (FinesseSendUnlinkResponse regions client (block_addr base i) result (s_now x)) (Build_server w o f st) =
      Done (0, Build_server w' o f st) /\
    answered w' i result r FINESSE_FUSE_RSP_ERR par t0.
Proof.
  intros (br & v & r & Ht) Hn. edestruct transit_respond with (1 := Ht) (result := result) (check := true) (now := s_now x)
    (p' := (u32 result, FINESSE_RESPONSE, FINESSE_MESSAGE_VERSION, FINESSE_FUSE_MESSAGE, r, FINESSE_FUSE_RSP_ERR, par, t0))
    (fill := fun d => set_Type FINESSE_FUSE_RSP_ERR (set_header FINESSE_MESSAGE_VERSION FINESSE_FUSE_MESSAGE d))
    as (w' & Hw & Ht'); [done|exact Hclient|exact Hbase|done|done|done| |].
  - intros b Hb. unfold payload in *. cbn. congruence.
  - exists w', r. split; [|exact Ht']. apply on_channel_run. exact Hw.
Qed.
End Rules.
