(* ===== verification/ServerCalls.v ===== *)
(** Whole calls: from a sender of the client library through the region to
    the worker of the server, through its object table to the file system, and
    back.

    [stat_via_server], [unlink_via_server], [access_via_server] and
    [statfs_via_server] compose the senders and receivers of Calls.v and
    FuseCalls.v with [finesse_process_request_worker].

    Results: a stat is answered as a reference on the file system says
    ([stat_served]); a mount point is stripped twice ([mount_point_twice]); no
    access call returns ([access_stops]); a statfs of a path that is missing
    is never answered ([statfs_unanswered]); and a request that the server
    does not support stops the client ([unsupported_stops]). *)

From stdpp Require Import gmap list strings.
From S2P Require Import Prelude Bitmap FastLookup LookupTable LookupLife LookupSpec Message Region Calls FuseCalls PathName Server ServerRules.

#[local] Open Scope Z_scope.
#[local] Open Scope word_scope.

Section Calls.
Context {F : Type} `{!FileSystem F, !Statfs F} {UU : Libuuid} {ST : Statics} `{!Layout, !Session}.
#[local] Notation MS := (M (server F)).

(** The times: [t0] and [t1] are taken while the request is sent, [t2] when
    the server takes it, [t4] when the response is received and [t5] when the
    block is freed; [x] has that of the response. *)
Definition stat_via_server (client : Z) (path : string) (rnd : Z) (x : supply) (t0 t1 t2 t4 t5 : timespec) : MS (Z * list Z * list Z * Z) :=
  let base := regions client in
  '(_, m) ← on_channel (FinesseSendCommonStatRequest base None None 0 (Some path) t0 t1);
  finesse_process_request_worker client rnd x t2;;
  r ← on_channel (FinesseGetStatResponse base m t4);
  on_channel (FinesseFreeStatResponse base m t5);;
  mret r.

(** unlink of the client library reads the result from the block, as an int. *)
Definition unlink_via_server (client : Z) (path : string) (rnd : Z) (x : supply) (t0 t1 t2 t4 t5 : timespec) : MS Z :=
  let base := regions client in
  '(_, m) ← on_channel (FinesseSendUnlinkRequest base (Some 0) path t0 t1);
  finesse_process_request_worker client rnd x t2;;
  status ← on_channel (FinesseGetUnlinkResponse base m t4);
  c_assert (0 =? status);;
  b ← on_channel (read_message base m);
  on_channel (FinesseFreeUnlinkResponse base m t5);;
  mret (signed32 (blk_Result b)).

Definition access_via_server (client : Z) (path : string) (mode : Z) (behind : list Z) (rnd : Z) (x : supply) (t0 t1 t2 t4 t5 : timespec) : MS Z :=
  let base := regions client in
  '(_, m) ← on_channel (FinesseSendAccessRequest base None path mode behind t0 t1);
  finesse_process_request_worker client rnd x t2;;
  '(status, result) ← on_channel (FinesseGetAccessResponse base m t4);
  c_assert (0 =? status);;
  on_channel (FinesseFreeAccessResponse base m t5);;
  mret result.

Definition statfs_via_server (client : Z) (path : string) (rnd : Z) (x : supply) (t0 t1 t2 t4 t5 : timespec) : MS (Z * option (list Z)) :=
  let base := regions client in
  '(_, m) ← on_channel (FinesseSendStatfsRequest base path t0 t1);
  finesse_process_request_worker client rnd x t2;;
  '(status, buf) ← on_channel (FinesseGetStatfsResponse base m t4);
  on_channel (FinesseFreeStatfsResponse base m t5);;
  mret (status, buf).

(** ** What a stat should do *)

(** The attributes, the seconds they are valid, and the result. *)
Definition stat_reference (dirs : list string) (final : string) : M F (fuse_attr * Z * Z) :=
  '(status, _, found, _) ← resolve_reference FUSE_ROOT_ID dirs final;
  if status =? 0 then
    c_assert (negb (stx_ino found =? 0));;
    out ← fs_getattr (stx_ino found);
    arg ← deref (if 0 =? out_error out then out_arg out else None);
    c_assert (negb (S_ISLNK (a_mode (at_attr arg))));;
    mret (at_attr arg, attr_valid arg, 0)
  else c_assert (not_found status);; mret (zerostat, 0, status).
End Calls.

Section Rules.
Context {F : Type} `{!FileSystem F, !Statfs F} {UU : Libuuid} {UL : LibuuidLaws} {ST : Statics} `{!Layout, !Session}.
Variables (T shift : Z) (m0 : FastLookup.memory).
Hypothesis T_pos : 0 < T.
Hypothesis shift_range : 10 <= shift <= 15.
Variables (client : Z) (sl : slots).
Implicit Types (f : F) (s : server F) (x : supply) (c : catalogue) (dirs : list string).
#[local] Notation base := (regions client).

(** The object table can name any inode. *)
Definition can_name c x : Prop := forall ino, ino <> 0 ->
  op_room m0 (Create ino (s_uuid x) (s_entry x)) /\ is_Some (catalogue_op T shift (Create ino (s_uuid x) (s_entry x)) c).

(** The server and the client are ready for a call: the region is idle, the
    object table stands for [c] and can name another inode. *)
Record ready s c x : Prop := {
  rd_call : can_call base regions client (channel s) sl;
  rd_handle : server_handle <> NULL;
  rd_objects : objects_ok T shift m0 (objects s) c;
  rd_names : can_name c x }.

(** What is left when a call is over. *)
Record left_by s c f : Prop := {
  lf_region : represents base (channel s) sl;
  lf_files : files s = f;
  lf_objects : objects_ok T shift m0 (objects s) c }.

Lemma Stat_found w i t0 path x dirs final o f st c a valid f2 :
  0 <= client < SHM_MESSAGE_COUNT -> server_handle <> NULL ->
  asked base sl w i Taken (fuse_req_code FINESSE_FUSE_REQ_STAT) (ReqStat 0 0 0 path) t0 -> normal (s_now x) ->
  is_path mountpoint (allocated (below path) 0) dirs final -> objects_ok T shift m0 o c -> can_name c x ->
  forall result, stat_reference dirs final f = Done ((a, valid, result), f2) ->
  exists w' o' c' st', Stat client (block_addr base i) x (Build_server w o f st) = Done (0, Build_server w' o' f2 st') /\
    answered base sl w' i result result FINESSE_FUSE_RSP_ATTR (RspAttr (stat_blob a) (timeout_blob valid)) t0 /\
    objects_ok T shift m0 o' c'.
Proof.
  intros Hclient Hserver Ha Hn Hpath Hok Hnames result Href. unfold Stat.
  run_step ltac:(by eapply (read_request_run base client)). cbv zeta iota. change (Message.uuid_is_null 0) with true. cbv iota.
  assert ((String.length path =? 0)%nat = false) as Hlen.
  { destruct Hpath as (Hp & _). unfold stripped, below in Hp. cbn [PathName allocated FinesseAllocateServerPathResolutionParameters] in Hp.
    destruct path; [|done]. exfalso. cbn in Hp. by destruct mountpoint. }
  rewrite Hlen. cbn [orb]. rewrite M_assoc, c_assert_bind, M_assoc by done.
  unfold stat_reference in Href. apply M_bind_inv in Href as ([[[status j] found] last] & f1 & Hres & Href).
  destruct (Z.eqb_spec status 0) as [->|Hst].
  - apply M_bind_inv in Href as ([] & f1' & [Hz ->]%c_assert_inv & Href). apply negb_true_iff, Z.eqb_neq in Hz.
    apply M_bind_inv in Href as (out & f2' & Hattr & Href). apply M_bind_inv in Href as (arg & f3 & Harg & Href).
    destruct (if 0 =? out_error out then out_arg out else None) as [arg'|] eqn:Hout; [|done]. injection Harg as -> ->.
    apply M_bind_inv in Href as ([] & f4 & [Hlink ->]%c_assert_inv & Href). injection Href as <- <- <- ->.
    destruct (Hnames (stx_ino found) Hz) as (Hroom & [[c1 r] Hop]).
    destruct (map_found T shift m0 T_pos shift_range FUSE_ROOT_ID (Some 0) path x dirs final w o f st c c1 r j found last f1
      Hpath eq_refl (or_intror eq_refl) Hres Hz Hok Hroom Hop) as (o1 & c2 & id & Hrun & Hok2 & Hids & Hin & Hino).
    run_step ltac:(exact Hrun). cbv beta iota. change (0 =? 0) with true. cbn [negb]. cbv iota. rewrite mret_bind. cbv beta iota. cbn [negb].
    destruct (finobj_load_run T shift m0 w o1 f1 st c2 id Hok2 Hin) as (Hl & Hat & _).
    destruct (release_object_run T shift m0 T_pos shift_range w o1 f1 st c2 id Hok2 Hin) as (o2 & c3 & Hrel & Hok3 & _).
    rewrite M_assoc. rewrite c_assert_bind by done. rewrite M_assoc.
    rewrite c_assert_bind by (unfold not_null; rewrite (proj2 (Z.eqb_neq _ NULL)) by (unfold object_of, NULL; lia); done).
    rewrite M_assoc. run_step ltac:(exact Hl). cbn [inode]. rewrite M_assoc. run_step ltac:(exact Hrel). rewrite Hino, M_assoc.
    run_step ltac:(apply on_files_run; exact Hattr). rewrite Hout, M_assoc, c_assert_bind by done. rewrite M_assoc.
    assert (out_error out = 0) as -> by (destruct (Z.eqb_spec 0 (out_error out)); [done|by destruct (0 =? out_error out)]).
    destruct (send_stat_run base client sl Hclient eq_refl w i _ _ t0 (at_attr arg) (attr_valid arg) 0 x o2 f2 st Ha Hn) as (w' & Hsend & Hans).
    run_step ltac:(exact Hsend). rewrite M_assoc, c_assert_bind, mret_bind by done.
    destruct (count_response_run FINESSE_FUSE_RSP_ATTR w' o2 f2 st ltac:(done)) as [st' Hc]. run_step ltac:(exact Hc).
    by exists w', o2, c3, st'.
  - apply M_bind_inv in Href as ([] & f1' & [Hnf ->]%c_assert_inv & [= <- <- <- ->]).
    pose proof (map_missing FUSE_ROOT_ID (Some 0) path x dirs final w o f st status j found last f2
      Hpath eq_refl (or_intror eq_refl) Hres Hst Hnf) as Hrun.
    run_step ltac:(exact Hrun). cbv beta iota. rewrite (proj2 (Z.eqb_neq 0 status)) by congruence. cbn [negb]. rewrite M_assoc.
    destruct (send_stat_run base client sl Hclient eq_refl w i _ _ t0 zerostat 0 status x o f2 st Ha Hn) as (w' & Hsend & Hans).
    run_step ltac:(exact Hsend). rewrite M_assoc, c_assert_bind, mret_bind by done. cbv beta iota. cbn [negb]. rewrite M_assoc.
    change (release_if_any NULL) with (mret () : M (server F) unit). rewrite !mret_bind. destruct (count_response_run FINESSE_FUSE_RSP_ATTR w' o f2 st ltac:(done)) as [st' Hc]. run_step ltac:(exact Hc).
    by exists w', o, c, st'.
Qed.

(** ** Whole calls *)

(** A request that the worker finds, and an answer that the client finds. *)
Lemma call_asked w i type par t0 br v r :
  in_transit base w sl i Ready (br, FINESSE_REQUEST, v, FINESSE_FUSE_MESSAGE, r, type, par, t0) -> asked base sl w i Ready type par t0.
Proof. intros Ht. by exists br, v, r. Qed.

Lemma response_received w i header result type par t0 t4 :
  answered base sl w i header result type par t0 -> normal t4 ->
  exists b w', get_response base (block_addr base i) t4 w = Done (b, w') /\
    in_transit base w' sl i Answered (u32 header, FINESSE_RESPONSE, FINESSE_MESSAGE_VERSION, FINESSE_FUSE_MESSAGE, result, type, par, t0) /\
    check_fuse type (Data b) w' = Done (tt, w') /\ Parameters (Data b) = par /\ Result (Data b) = result.
Proof.
  intros Ha Hn. destruct (transit_receive _ _ _ _ _ t4 Ha Hn eq_refl) as (b & w' & Hr & Hp & Ht). exists b, w'. split; [done|]. split; [done|].
  unfold payload in Hp. injection Hp as _ _ Hv Hc Hres Hty Hpar _. split; [|done]. unfold check_fuse. rewrite Hv, Hc, Hty.
  rewrite c_assert_bind by done. rewrite c_assert_bind by done. by rewrite Z.eqb_refl.
Qed.

(** The client's part is over: the block is free again. *)
Lemma call_freed w i header result type par t0 t5 :
  in_transit base w sl i Answered (u32 header, FINESSE_RESPONSE, FINESSE_MESSAGE_VERSION, FINESSE_FUSE_MESSAGE, result, type, par, t0) ->
  normal t5 -> tv_sec (timespec_diff t0 t5) <= 3600 ->
  exists w', FinesseFreeClientResponse base (block_addr base i) t5 w = Done (tt, w') /\ represents base w' sl.
Proof. intros Ht Hn Hh. by apply (transit_free _ _ _ _ _ _ t5 Ht); [right|..]. Qed.

Lemma stat_call_served path rnd x t0 t1 t2 t4 t5 s c dirs final a valid result f :
  ready s c x -> call_times t0 [t1; t2; s_now x; t4; t5] t5 -> fits offsetof_Stat_Name path ->
  is_path mountpoint (allocated (below path) 0) dirs final ->
  stat_reference dirs final (files s) = Done ((a, valid, result), f) ->
  exists s' c', stat_via_server client path rnd x t0 t1 t2 t4 t5 s = Done ((0, stat_blob a, timeout_blob valid, result), s') /\ left_by s' c' f.
Proof.
  intros [Hcall Hh Hok Hnames] Ht Hfit Hpath Href. destruct s as [w o f0 st]. cbn [channel objects files] in *.
  pose proof Hcall as [_ Hclient _ _ Hidle].
  destruct (stat_request base regions client w sl None None 0 (Some path) t0 t1 [t2; s_now x; t4; t5] t5 Hcall Ht) as (i & w1 & br & v & r & Hsend & T1);
    [by left|by intros p [= <-]|]. times Ht.
  unfold stat_via_server. cbv zeta. run_step ltac:(apply on_channel_run; exact Hsend). cbv beta iota. apply call_asked in T1.
  destruct (worker_serves base client sl Hclient eq_refl Hh w1 i _ _ t0 rnd x t2 o f0 st T1) as (w2 & st2 & T2 & Hdone & _); [done|done|done|].
  destruct (Stat_found w2 i t0 path x dirs final o f0 st2 c a valid f Hclient Hh T2) with (result := result) as (w3 & o' & c' & st3 & Hstat & Hans & Hok'); [done..|].
  run_step ltac:(apply Hdone; change (fuse_handler client (fuse_req_code FINESSE_FUSE_REQ_STAT) (block_addr base i) x) with (Stat client (block_addr base i) x;; mret () : M (server F) unit); run_step ltac:(exact Hstat); reflexivity).
  destruct (response_received w3 i _ _ _ _ t0 t4 Hans) as (b & w4 & Hrecv & T4 & Hcheck & Hpar & Hres); [done|].
  run_step ltac:(apply on_channel_run; unfold FinesseGetStatResponse; run_step ltac:(exact Hrecv); cbv zeta; run_step ltac:(exact Hcheck); rewrite Hpar, Hres; reflexivity).
  destruct (call_freed w4 i _ _ _ _ t0 t5 T4) as (w5 & Hfree & Hrep); [done|done|].
  run_step ltac:(apply on_channel_run; exact Hfree). eexists _, c'. split; [reflexivity|]. by split.
Qed.

(** ** Other senders *)

(** A response that is refused, and one that is not there. *)
Lemma respond_refused w i type par t0 fill result now :
  asked base sl w i Taken type par t0 -> 0 <= client < SHM_MESSAGE_COUNT ->
  send_response regions client (block_addr base i) result fill false now w = Fail AssertFailed.
Proof.
  intros (br & v & r & Ht) Hc. pose proof Ht as (H1 & Hi & _ & b0 & Hb0 & _). unfold send_response, FcGetSharedMemoryRegion. cbv zeta.
  rewrite (wrap_small 32 client) by (unfold SHM_MESSAGE_COUNT in Hc; lia).
  rewrite M_assoc, c_assert_bind, mret_bind by lia. rewrite c_assert_bind by (by eapply base_not_null). rewrite c_assert_bind by lia.
  rewrite c_assert_bind by (by eapply addr_not_null). destruct (transit_read _ _ _ _ _ _ Ht) as (b & Hb & Hpb). run_step ltac:(exact Hb).
  unfold payload in Hpb. injection Hpb as _ Hmt _ _ _ _ _ _. rewrite c_assert_bind by (by rewrite Hmt).
  unfold on_message. rewrite block_index_addr, Z.eqb_refl by (apply H1 || done).
  run_step ltac:(apply update_block_run; [apply Hi|exact Hb0]). done.
Qed.

Lemma no_response w i type par t0 now :
  asked base sl w i Taken type par t0 -> get_response base (block_addr base i) now w = Fail Blocked.
Proof.
  intros (br & v & r & Ht). pose proof Ht as (H1 & Hi & Hf & _). unfold get_response.
  rewrite c_assert_bind by (by eapply base_not_null). rewrite c_assert_bind by (by eapply addr_not_null).
  apply M_bind_fail. unfold FinesseGetResponse. rewrite block_index_addr by (apply H1 || done).
  run_step ltac:(by eapply signature_check). rewrite c_assert_bind by apply Z.eqb_refl.
  rewrite c_assert_bind by (by eapply base_not_null). rewrite c_assert_bind by (by eapply addr_not_null).
  rewrite field_bind, shift_ok_bind by done. rewrite land_mask_zero by (apply H1 || done).
  rewrite (rp_response _ _ _ H1), move_here by done. done.
Qed.

(** A sender whose request is written in one store. *)
Lemma request_sent w type offset name par t0 t1 ts t5 :
  can_call base regions client w sl -> call_times t0 (t1 :: ts) t5 -> fits offset name -> valid_call FINESSE_FUSE_MESSAGE type = true ->
  exists i w', (c_assert (not_null base);;
      message ← FinesseGetRequestBuffer base FINESSE_FUSE_MESSAGE type t0;
      c_assert (not_null message);;
      check_name offset name;;
      on_message base message (set_Data (set_Parameters par));;
      send_request base message t1) w = Done ((0, block_addr base i), w') /\
    asked base sl w' i Ready type par t0.
Proof.
  intros [H1 Hc Hr Hf Hi] Ht Hname Hv. times Ht. rewrite c_assert_bind by (by eapply base_not_null).
  destruct (transit_buffer base w sl FINESSE_FUSE_MESSAGE type t0) as (i & w1 & br & v & r & p & Hb & T1); [done..|].
  run_step ltac:(exact Hb). pose proof T1 as (Hrep & Hslot & _). rewrite c_assert_bind by (by eapply addr_not_null).
  run_step ltac:(by apply check_name_run). edestruct transit_write with (1 := T1) as (w2 & Hw2 & T2); cycle 3.
  { run_step ltac:(exact Hw2). edestruct transit_send with (1 := T2) as (w4 & Hw4 & T4); [done|].
    exists i, w4. split; [exact Hw4|]. by exists br, v, r. }
  all: try done. apply payload_set_Parameters.
Qed.

(** ** What goes wrong *)

(** A response of another type is refused by the receiver. *)
Lemma wrong_type w i header result type par t0 t4 want {A} (k : fincomm_message_block -> unit -> M Region.world A) :
  answered base sl w i header result type par t0 -> normal t4 -> want <> type ->
  (b ← get_response base (block_addr base i) t4; check_fuse want (Data b) ≫= k b) w = Fail AssertFailed.
Proof.
  intros Ha Hn Hne. destruct (transit_receive _ _ _ _ _ t4 Ha Hn eq_refl) as (b & w' & Hr & Hp & _). run_step ltac:(exact Hr).
  unfold payload in Hp. injection Hp as _ _ Hv Hc _ Hty _ _. unfold check_fuse. rewrite Hv, Hc, Hty. rewrite M_assoc, c_assert_bind by done.
  rewrite M_assoc, c_assert_bind by done. apply M_bind_fail. by rewrite (proj2 (Z.eqb_neq want type) Hne).
Qed.

Lemma access_call_stops path mode behind rnd x t0 t1 t2 t4 t5 s out f :
  can_call base regions client (channel s) sl -> server_handle <> NULL -> call_times t0 [t1; t2; s_now x; t4; t5] t5 ->
  fits offsetof_Access_Name path -> fs_access FUSE_ROOT_ID (access_mask path behind) (files s) = Done (out, f) ->
  access_via_server client path mode behind rnd x t0 t1 t2 t4 t5 s = Fail AssertFailed.
Proof.
  intros Hcall Hh Ht Hfit Hfs. destruct s as [w o f0 st]. cbn [channel files] in *. pose proof Hcall as [_ Hclient _ _ Hidle].
  destruct (request_sent w (fuse_req_code FINESSE_FUSE_REQ_ACCESS) offsetof_Access_Name path (ReqAccess 0 path behind) t0 t1 [t2; s_now x; t4; t5] t5
    Hcall Ht Hfit eq_refl) as (i & w1 & Hsend & T1). times Ht.
  unfold access_via_server. cbv zeta. run_step ltac:(apply on_channel_run; exact Hsend). cbv beta iota.
  destruct (worker_serves base client sl Hclient eq_refl Hh w1 i _ _ t0 rnd x t2 o f0 st T1) as (w2 & st2 & T2 & Hdone & Hfail); [done|done|done|].
  change (fuse_handler client (fuse_req_code FINESSE_FUSE_REQ_ACCESS) (block_addr base i) x)
    with (Access client (block_addr base i) x;; mret () : M (server F) unit) in Hdone, Hfail.
  assert (Access client (block_addr base i) x (Build_server w2 o f0 st2) =
    (status ← on_channel (FinesseSendStatfsResponse regions client (block_addr base i) None (out_error out) (s_now x));
     c_assert (status =? 0);; FinesseCountFuseResponse FINESSE_FUSE_RSP_STATFS;; release_if_any NULL;; mret 0) (Build_server w2 o f st2)) as Hacc.
  { unfold Access. run_step ltac:(by eapply (read_request_run base client)). cbv zeta iota. change (Message.uuid_is_null 0) with true. cbv iota.
    rewrite mret_bind. cbv beta iota. cbn [negb]. by run_step ltac:(apply on_files_run; exact Hfs). }
  destruct (Z.eqb_spec (out_error out) 0) as [E|E].
  - apply M_bind_fail, Hfail, M_bind_fail. rewrite Hacc. apply M_bind_fail, on_channel_fail. unfold FinesseSendStatfsResponse. rewrite E. cbv zeta.
    change (0 =? 0) with true. cbn [negb orb]. by eapply respond_refused.
  - assert (exists w3 result, on_channel (FinesseSendStatfsResponse regions client (block_addr base i) None (out_error out) (s_now x)) (Build_server w2 o f st2) =
      Done (0, Build_server w3 o f st2) /\ answered base sl w3 i (out_error out) result FINESSE_FUSE_RSP_STATFS (ReqAccess 0 path behind) t0) as (w3 & result & Hresp & Hans).
    { destruct T2 as (br & v & r & T2). unfold FinesseSendStatfsResponse. rewrite (proj2 (Z.eqb_neq _ 0) E). cbv zeta.
      edestruct transit_respond with (1 := T2) (result := out_error out) (check := true) (now := s_now x)
        (p' := (u32 (out_error out), FINESSE_RESPONSE, FINESSE_MESSAGE_VERSION, FINESSE_FUSE_MESSAGE, r, FINESSE_FUSE_RSP_STATFS, ReqAccess 0 path behind, t0))
        (fill := fun d => set_Type FINESSE_FUSE_RSP_STATFS (set_header FINESSE_MESSAGE_VERSION FINESSE_FUSE_MESSAGE d))
        as (w3 & Hw3 & T3); [done|exact Hclient|reflexivity|done|done|done| |].
      - intros b Hb. unfold payload in *. cbn. congruence.
      - exists w3, r. split; [|exact T3]. by apply on_channel_run. }
    destruct (count_response_run FINESSE_FUSE_RSP_STATFS w3 o f st2 ltac:(done)) as [st3 Hcount].
    run_step ltac:(apply Hdone; run_step ltac:(rewrite Hacc; run_step ltac:(exact Hresp); rewrite c_assert_bind by done; run_step ltac:(exact Hcount);
      change (release_if_any NULL) with (mret () : M (server F) unit); rewrite mret_bind; reflexivity); reflexivity).
    apply M_bind_fail, on_channel_fail. unfold FinesseGetAccessResponse. by eapply wrong_type.
Qed.

(** ** Unlink *)

(** What the handler asks of the file system: the whole path as a name in
    what the path leads to. *)
Lemma unlink_call_served path rnd x t0 t1 t2 t4 t5 s c dirs final j xs last f1 out f2 :
  ready s c x -> call_times t0 [t1; t2; s_now x; t4; t5] t5 -> fits offsetof_Unlink_Name path ->
  is_path mountpoint (allocated (below path) 0) dirs final ->
  resolve_reference FUSE_ROOT_ID dirs final (files s) = Done ((0, j, xs, last), f1) -> stx_ino xs <> 0 ->
  fs_unlink (stx_ino xs) path f1 = Done (out, f2) ->
  exists s' c', unlink_via_server client path rnd x t0 t1 t2 t4 t5 s = Done (signed32 (u32 (out_error out)), s') /\ left_by s' c' f2.
Proof.
  intros [Hcall Hh Hok Hnames] Ht Hfit Hpath Hres Hz Hfs. destruct s as [w o f st]. cbn [channel objects files] in *.
  pose proof Hcall as [_ Hclient _ _ Hidle].
  destruct (unlink_request base regions client w sl 0 path t0 t1 [t2; s_now x; t4; t5] t5 Hcall Ht Hfit) as (i & w1 & br & v & r & Hsend & T1). times Ht.
  unfold unlink_via_server. cbv zeta. run_step ltac:(apply on_channel_run; exact Hsend). cbv beta iota. apply call_asked in T1.
  destruct (worker_serves base client sl Hclient eq_refl Hh w1 i _ _ t0 rnd x t2 o f st T1) as (w2 & st2 & T2 & Hdone & _); [done|done|done|].
  change (fuse_handler client (fuse_req_code FINESSE_FUSE_REQ_UNLINK) (block_addr base i) x)
    with (Unlink client (block_addr base i) x;; mret () : M (server F) unit) in Hdone.
  destruct (Hnames (stx_ino xs) Hz) as (Hroom & [[c1 rr] Hop]).
  destruct (map_found T shift m0 T_pos shift_range FUSE_ROOT_ID (Some 0) path x dirs final w2 o f st2 c c1 rr j xs last f1
    Hpath eq_refl (or_intror eq_refl) Hres Hz Hok Hroom Hop) as (o1 & c2 & id & Hmap & Hok2 & _ & Hin & Hino).
  destruct (finobj_load_run T shift m0 w2 o1 f1 st2 c2 id Hok2 Hin) as (Hl & Hat & _).
  destruct (send_err_run base client sl Hclient eq_refl w2 i _ _ t0 (out_error out) x o1 f2 st2 T2) as (w3 & r3 & Hresp & Hans); [done|].
  destruct (release_object_run T shift m0 T_pos shift_range w3 o1 f2 st2 c2 id Hok2 Hin) as (o2 & c3 & Hrel & Hok3 & _).
  destruct (count_response_run FINESSE_FUSE_RSP_ATTR w3 o2 f2 st2 ltac:(done)) as [st3 Hcount].
  assert (Unlink client (block_addr base i) x (Build_server w2 o f st2) = Done (0, Build_server w3 o2 f2 st3)) as Hun.
  { unfold Unlink. run_step ltac:(by eapply (read_request_run base client)). cbv zeta iota. change (Message.uuid_is_null 0) with true. cbv iota.
    rewrite c_assert_bind by done. run_step ltac:(exact Hmap). cbv beta iota. change (0 =? 0) with true. cbn [negb]. cbv iota. rewrite M_assoc.
    run_step ltac:(exact Hl). cbn [inode]. rewrite Hino, M_assoc. run_step ltac:(apply on_files_run; exact Hfs).
    run_step ltac:(exact Hresp). rewrite c_assert_bind by done. unfold release_if_any.
    rewrite (proj2 (Z.eqb_neq _ NULL)) by (unfold object_of, NULL; lia). run_step ltac:(exact Hrel). by run_step ltac:(exact Hcount). }
  run_step ltac:(apply Hdone; run_step ltac:(exact Hun); reflexivity).
  destruct (response_received w3 i _ _ _ _ t0 t4 Hans) as (b & w4 & Hrecv & T4 & Hcheck & _); [done|].
  run_step ltac:(apply on_channel_run; unfold FinesseGetUnlinkResponse; run_step ltac:(exact Hrecv); run_step ltac:(exact Hcheck); reflexivity).
  rewrite c_assert_bind by done. destruct (transit_read _ _ _ _ _ _ T4) as (b' & Hb' & Hpb').
  run_step ltac:(apply on_channel_run; exact Hb'). unfold payload in Hpb'. injection Hpb' as -> _ _ _ _ _ _ _.
  destruct (call_freed w4 i _ _ _ _ t0 t5 T4) as (w5 & Hfree & Hrep); [done|done|].
  run_step ltac:(apply on_channel_run; exact Hfree). eexists _, c3. split; [reflexivity|]. by split.
Qed.

(** ** Statfs *)

Lemma statfs_call_unanswered path rnd x t0 t1 t2 t4 t5 s dirs final status j xs last f1 :
  can_call base regions client (channel s) sl -> server_handle <> NULL -> call_times t0 [t1; t2; s_now x; t4; t5] t5 ->
  fits offsetof_Statfs_Name path -> is_path mountpoint (allocated (below path) 0) dirs final ->
  resolve_reference FUSE_ROOT_ID dirs final (files s) = Done ((status, j, xs, last), f1) -> status <> 0 -> not_found status = true ->
  statfs_via_server client path rnd x t0 t1 t2 t4 t5 s = Fail Blocked.
Proof.
  intros Hcall Hh Ht Hfit Hpath Hres Hst Hnf. destruct s as [w o f st]. cbn [channel objects files] in *. pose proof Hcall as [_ Hclient _ _ Hidle].
  destruct (request_sent w (fuse_req_code FINESSE_FUSE_REQ_STATFS) offsetof_Statfs_Name path (ReqStatfs path) t0 t1 [t2; s_now x; t4; t5] t5
    Hcall Ht Hfit eq_refl) as (i & w1 & Hsend & T1). times Ht.
  unfold statfs_via_server. cbv zeta. run_step ltac:(apply on_channel_run; exact Hsend). cbv beta iota.
  destruct (worker_serves base client sl Hclient eq_refl Hh w1 i _ _ t0 rnd x t2 o f st T1) as (w2 & st2 & T2 & Hdone & _); [done|done|done|].
  change (fuse_handler client (fuse_req_code FINESSE_FUSE_REQ_STATFS) (block_addr base i) x)
    with (FinesseServerFuseStatFs client (block_addr base i) x) in Hdone.
  assert (finesse_statfs_handler client (block_addr base i) path x (Build_server w2 o f st2) = Done (0, Build_server w2 o f1 st2)) as Hhandler.
  { unfold finesse_statfs_handler.
    run_step ltac:(by eapply (map_missing 0 None path x dirs final w2 o f st2 status j xs last f1 Hpath I (or_introl eq_refl))).
    cbv beta iota. by rewrite (proj2 (Z.eqb_neq 0 status)) by congruence. }
  run_step ltac:(apply Hdone; unfold FinesseServerFuseStatFs; run_step ltac:(by eapply (read_request_run base client)); cbv iota;
    run_step ltac:(exact Hhandler); reflexivity).
  apply M_bind_fail, on_channel_fail. unfold FinesseGetStatfsResponse. apply M_bind_fail. by eapply no_response.
Qed.

(** ** Requests that the server does not know *)

Lemma unsupported_refused w i type par t0 rnd x t2 t4 o f st :
  asked base sl w i Ready type par t0 -> 0 <= client < SHM_MESSAGE_COUNT -> server_handle <> NULL -> (forall j, is_slot j -> sl j <> Ready) ->
  normal t2 -> normal (s_now x) -> normal t4 -> FINESSE_FUSE_REQ_BASE_TYPE <= type < FINESSE_FUSE_REQ_MAX ->
  type ∉ [fuse_req_code FINESSE_FUSE_REQ_STATFS; fuse_req_code FINESSE_FUSE_REQ_STAT; fuse_req_code FINESSE_FUSE_REQ_ACCESS;
    fuse_req_code FINESSE_FUSE_REQ_UNLINK] ->
  (finesse_process_request_worker client rnd x t2;; on_channel (get_response base (block_addr base i) t4)) (Build_server w o f st) =
    Fail AssertFailed.
Proof.
  clear T_pos shift_range. intros Ha Hclient Hh Hidle Hn2 Hnx Hn4 Hty Hnot. destruct (worker_serves base client sl Hclient eq_refl Hh w i _ _ t0 rnd x t2 o f st Ha) as (w2 & st2 & T2 & Hdone & _); [done|done|done|].
  assert (fuse_handler client type (block_addr base i) x = send_unsupported client (block_addr base i) FINESSE_FUSE_RSP_ERR x) as E.
  { unfold fuse_handler. rewrite !(proj2 (Z.eqb_neq type _)); [done|set_solver..]. }
  rewrite E in Hdone. clear E. destruct T2 as (br & v & r & T2). pose proof T2 as (H1 & Hi & Hf & _).
  destruct (transit_write base w2 sl i Taken _ (set_Data (fun d => set_Result ENOTSUP (set_Type FINESSE_FUSE_RSP_ERR d)))
    (br, FINESSE_REQUEST, v, FINESSE_FUSE_MESSAGE, ENOTSUP, FINESSE_FUSE_RSP_ERR, par, t0) T2) as (w3 & Hw3 & T3); [done|done| |].
  { intros b Hb. unfold payload in *. cbn. congruence. }
  pose proof T3 as (H3 & _). destruct (FinesseResponseReady_run base w3 _ i (s_now x) H3 Hi (move_here _ _ _) Hnx) as (w4 & Hr4 & Hw4 & Hsame).
  assert (in_transit base w4 sl i Responded (br, FINESSE_REQUEST, v, FINESSE_FUSE_MESSAGE, ENOTSUP, FINESSE_FUSE_RSP_ERR, par, t0)) as T4
    by (by eapply in_transit_move).
  run_step ltac:(apply Hdone; unfold send_unsupported; run_step ltac:(apply on_channel_run; exact Hw3);
    run_step ltac:(apply on_channel_run; unfold FinesseSendResponse; cbv zeta; rewrite (wrap_small 32 client) by (unfold SHM_MESSAGE_COUNT in Hclient; lia);
      rewrite c_assert_bind by (by eapply addr_not_null); rewrite c_assert_bind by lia;
      rewrite (proj2 (Z.eqb_neq base NULL)) by (pose proof (rp_base _ _ _ H1); unfold NULL; lia); run_step ltac:(exact Hr4); reflexivity); reflexivity).
  apply on_channel_fail. destruct (FinesseGetResponse_run base w4 _ i 1 t4 (proj1 T4) Hi (move_here _ _ _) Hn4) as (w5 & Hr5 & Hw5 & Hsame5).
  unfold get_response. rewrite c_assert_bind by (by eapply base_not_null). rewrite c_assert_bind by (by eapply addr_not_null).
  run_step ltac:(exact Hr5). rewrite c_assert_bind by done.
  assert (in_transit base w5 sl i Answered (br, FINESSE_REQUEST, v, FINESSE_FUSE_MESSAGE, ENOTSUP, FINESSE_FUSE_RSP_ERR, par, t0)) as T5
    by (by eapply in_transit_move).
  destruct (transit_read _ _ _ _ _ _ T5) as (b & Hb & Hpb). run_step ltac:(exact Hb). unfold payload in Hpb. injection Hpb as _ -> _ _ _ _ _ _. done.
Qed.

(** ** The mount point *)

Lemma append_eq_length a b : String.length (a ++ b) = (String.length a + String.length b)%nat.
Proof. apply length_append. Qed.

Lemma below_append rest : rest <> EmptyString -> below (mountpoint ++ rest) = rest.
Proof.
  intros Hne. unfold below. rewrite prefix_append, bool_decide_true, from_app; [done|]. rewrite append_eq_length. destruct rest; [done|cbn; lia].
Qed.

Lemma path_is_path Name dirs final :
  stripped mountpoint Name = ("/" ++ prefix_of dirs ++ final)%string -> Forall component dirs -> index slash final = None ->
  is_path mountpoint (allocated Name 0) dirs final.
Proof. intros Hs Hd Hf. split; [exact Hs|]. split; [done|]. split; [done|]. by split. Qed.

Lemma mount_twice rnd x t0 t1 t2 t4 t5 s c dirs final a valid result f :
  ready s c x -> call_times t0 [t1; t2; s_now x; t4; t5] t5 -> Forall component dirs -> index slash final = None ->
  let rest := ("/" ++ prefix_of dirs ++ final)%string in
  String.prefix mountpoint rest = false -> fits offsetof_Stat_Name (mountpoint ++ mountpoint ++ rest) ->
  stat_reference dirs final (files s) = Done ((a, valid, result), f) ->
  exists s1 s2,
    stat_via_server client (mountpoint ++ mountpoint ++ rest) rnd x t0 t1 t2 t4 t5 s = Done ((0, stat_blob a, timeout_blob valid, result), s1) /\
    stat_via_server client (mountpoint ++ rest) rnd x t0 t1 t2 t4 t5 s = Done ((0, stat_blob a, timeout_blob valid, result), s2).
Proof.
  intros Hready Ht Hd Hf rest Hpre Hfit Href.
  assert (stripped mountpoint rest = rest) as Hstrip by (unfold stripped; by rewrite Hpre).
  assert (mountpoint ++ rest <> EmptyString)%string as Hne by (by destruct mountpoint).
  destruct (stat_call_served (mountpoint ++ mountpoint ++ rest) rnd x t0 t1 t2 t4 t5 s c dirs final a valid result f) as (s1 & c1 & H1 & _); [done..| |done|].
  { rewrite below_append by done. apply path_is_path; [|done|done]. unfold stripped. by rewrite prefix_append, from_app. }
  destruct (stat_call_served (mountpoint ++ rest) rnd x t0 t1 t2 t4 t5 s c dirs final a valid result f) as (s2 & c2 & H2 & _); [done|done| | |done|].
  { unfold fits in *. rewrite !append_eq_length in *. lia. }
  { rewrite below_append by done. by apply path_is_path. }
  by exists s1, s2.
Qed.
End Rules.

(** * What the calls do *)

Section Theorems.
Context {F : Type} `{!FileSystem F, !Statfs F} {UU : Libuuid} {UL : LibuuidLaws} {ST : Statics} `{!Layout, !Session}.
Implicit Types (s : server F) (x : supply) (c : catalogue) (dirs : list string).

(** A stat of a path, from the sender in the client through the region,
    the worker, the resolution of the path, the object table and the file
    system back to the client, answers what the reference on the file system
    says: the attributes of what the components lead to, or the error of the
    first lookup that fails.  The block is free again, the table holds an
    object for what was found, and the file system has seen the lookups and
    the getattr, and nothing that takes the lookups back. *)
Theorem stat_served T shift m0 client sl path rnd x t0 t1 t2 t4 t5 s c dirs final a valid result f :
  0 < T -> 10 <= shift <= 15 -> ready T shift m0 client sl s c x -> call_times t0 [t1; t2; s_now x; t4; t5] t5 ->
  fits offsetof_Stat_Name path -> is_path mountpoint (allocated (below path) 0) dirs final ->
  stat_reference dirs final (files s) = Done ((a, valid, result), f) ->
  exists s' c', stat_via_server client path rnd x t0 t1 t2 t4 t5 s = Done ((0, stat_blob a, timeout_blob valid, result), s') /\
    left_by T shift m0 client sl s' c' f.
Proof. intros HT Hs. by apply stat_call_served. Qed.

(** The mount point is stripped from a path twice: a path with it two
    times is answered as the path with it once. *)
Theorem mount_point_twice T shift m0 client sl rnd x t0 t1 t2 t4 t5 s c dirs final a valid result f :
  0 < T -> 10 <= shift <= 15 -> ready T shift m0 client sl s c x -> call_times t0 [t1; t2; s_now x; t4; t5] t5 ->
  Forall component dirs -> index slash final = None ->
  let rest := ("/" ++ prefix_of dirs ++ final)%string in
  String.prefix mountpoint rest = false -> fits offsetof_Stat_Name (mountpoint ++ mountpoint ++ rest) ->
  stat_reference dirs final (files s) = Done ((a, valid, result), f) ->
  exists s1 s2,
    stat_via_server client (mountpoint ++ mountpoint ++ rest) rnd x t0 t1 t2 t4 t5 s = Done ((0, stat_blob a, timeout_blob valid, result), s1) /\
    stat_via_server client (mountpoint ++ rest) rnd x t0 t1 t2 t4 t5 s = Done ((0, stat_blob a, timeout_blob valid, result), s2).
Proof. intros HT Hs. by apply (mount_twice T shift m0 HT Hs). Qed.

(** C30: No access call returns.  Whatever the file system answers, the
    handler sends a response of the wrong kind: an answer of success without a
    buffer stops the server, and one of failure has a type that stops the
    client. *)
Theorem access_stops client sl path mode behind rnd x t0 t1 t2 t4 t5 s out f :
  can_call (regions client) regions client (channel s) sl -> server_handle <> NULL -> call_times t0 [t1; t2; s_now x; t4; t5] t5 ->
  fits offsetof_Access_Name path -> fs_access FUSE_ROOT_ID (access_mask path behind) (files s) = Done (out, f) ->
  access_via_server client path mode behind rnd x t0 t1 t2 t4 t5 s = Fail AssertFailed.
Proof. by apply access_call_stops. Qed.

(** C29: A statfs of a path that is missing is never answered: the handler is
    done without a response, and the client waits for one. *)
Theorem statfs_unanswered client sl path rnd x t0 t1 t2 t4 t5 s dirs final status j xs last f :
  can_call (regions client) regions client (channel s) sl -> server_handle <> NULL -> call_times t0 [t1; t2; s_now x; t4; t5] t5 ->
  fits offsetof_Statfs_Name path -> is_path mountpoint (allocated (below path) 0) dirs final ->
  resolve_reference FUSE_ROOT_ID dirs final (files s) = Done ((status, j, xs, last), f) -> status <> 0 -> not_found status = true ->
  statfs_via_server client path rnd x t0 t1 t2 t4 t5 s = Fail Blocked.
Proof. by apply statfs_call_unanswered. Qed.

(** A FUSE request of a type without a handler stops the client: the
    response that it gets still says that it is a request. *)
Theorem unsupported_stops client sl w i type par t0 rnd x t2 t4 o (f : F) st :
  asked (regions client) sl w i Ready type par t0 -> 0 <= client < SHM_MESSAGE_COUNT -> server_handle <> NULL ->
  (forall j, is_slot j -> sl j <> Ready) -> normal t2 -> normal (s_now x) -> normal t4 ->
  FINESSE_FUSE_REQ_BASE_TYPE <= type < FINESSE_FUSE_REQ_MAX ->
  type ∉ [fuse_req_code FINESSE_FUSE_REQ_STATFS; fuse_req_code FINESSE_FUSE_REQ_STAT; fuse_req_code FINESSE_FUSE_REQ_ACCESS;
    fuse_req_code FINESSE_FUSE_REQ_UNLINK] ->
  (finesse_process_request_worker client rnd x t2;; on_channel (get_response (regions client) (block_addr (regions client) i) t4))
    (Build_server w o f st) = Fail AssertFailed.
Proof. by apply unsupported_refused. Qed.
End Theorems.

(** * The theorems at a server that has just started *)

#[export] Instance example_session : Session :=
  {| mountpoint := "/mnt"; server_handle := 1; regions := fun _ => example_base; newtable := 4096 |}.

#[export] Instance example_layout : Layout :=
  {| stat_blob a := [a_ino a; a_mode a; a_nlink a; a_size a]; timeout_blob n := [n];
     statvfs_blob k := [bsize k; frsize k; blocks k; bfree k; bavail k; f_files k; ffree k; namelen k] |}.

#[export] Instance toy_statfs : Statfs nat := {| fs_statfs _ n := Done (Build_captured (- ENOSYS) None, n) |}.

#[local] Existing Instance example_libuuid.
#[local] Existing Instance example_libuuid_laws.
#[local] Existing Instance example_statics.

Definition example_supply : supply := {| s_uuid := example_uuid 1; s_entry := 10000000; s_now := clock 8 |}.

Definition no_stats : FinesseServerStat :=
  {| stat_Version := FINESSE_SERVER_STAT_VERSION; stat_Length := FINESSE_SERVER_STAT_LENGTH; ClientConnectionCount := 0; ActiveNameMaps := 0;
     FuseRequests := replicate 43 0; FuseResponses := replicate 24 0; NativeRequests := replicate 6 0; NativeResponses := replicate 7 0 |}.

Definition started_memory : FastLookup.memory := set_object_table 4096 no_memory.

Lemma example_objects : exists o, objects_ok 4096 13 started_memory o no_objects.
Proof.
  destruct (create_table_ok no_memory 4096 0 ltac:(lia)) as (m & _ & Hok); [by split|].
  exists (set_object_table 4096 m). split; [|reflexivity]. split; [|constructor]. apply (table_ok_global 4096 13 4096 no_memory m no_objects). exact Hok.
Qed.

Lemma example_can_name : can_name 4096 13 started_memory no_objects example_supply.
Proof.
  intros ino Hino. split; [by split|]. cbn [catalogue_op]. rewrite (proj2 (Z.eqb_neq ino 0) Hino).
  change (s_uuid example_supply) with (example_uuid 1). assert (good_uuid (example_uuid 1) = true) as -> by (vm_compute; reflexivity).
  assert (bool_decide (apart 4096 13 (ids no_objects) (s_entry example_supply)) = true) as -> by (vm_compute; reflexivity).
  cbn. by eexists.
Qed.

Lemma example_ready {F : Type} (f : F) : exists s, ready 4096 13 started_memory 3 (fun _ => Free) s no_objects example_supply /\
  channel s = fresh_world /\ files s = f.
Proof.
  destruct example_objects as [o Ho]. exists (Build_server fresh_world o f no_stats). split; [|done]. split.
  - exact fresh_can_call.
  - discriminate.
  - exact Ho.
  - exact example_can_name.
Qed.

(** "/mnt/a/b", a file of 5 bytes. *)
Lemma stat_served_witness :
  exists s s', files s = 0%nat /\
    stat_via_server 3 "/mnt/a/b" 17 example_supply (clock 5) (clock 6) (clock 7) (clock 9) (clock 10) s =
      Done ((0, [3; 0x81ff; 1; 5], [1], 0), s') /\ files s' = 2%nat.
Proof.
  destruct (example_ready 0%nat) as (s & Hs & Hw & Hf). exists s.
  destruct (stat_served 4096 13 started_memory 3 (fun _ => Free) "/mnt/a/b" 17 example_supply (clock 5) (clock 6) (clock 7) (clock 9) (clock 10)
    s no_objects ["a"%string] "b" {| a_ino := 3; a_mode := 0x81ff; a_nlink := 1; a_size := 5 |} 1 0 2%nat) as (s' & c' & Hr & Hl).
  - lia.
  - lia.
  - exact Hs.
  - exact clock_times.
  - vm_compute. discriminate.
  - apply path_is_path; [vm_compute; reflexivity| |vm_compute; reflexivity].
    constructor; [split; [discriminate|vm_compute; reflexivity]|constructor].
  - rewrite Hf. vm_compute. reflexivity.
  - exists s'. split; [exact Hf|]. split; [exact Hr|]. exact (lf_files _ _ _ _ _ _ _ _ Hl).
Defined.

Lemma mount_point_twice_witness :
  exists s s1 s2,
    stat_via_server 3 "/mnt/mnt/a/b" 17 example_supply (clock 5) (clock 6) (clock 7) (clock 9) (clock 10) s =
      Done ((0, [3; 0x81ff; 1; 5], [1], 0), s1) /\
    stat_via_server 3 "/mnt/a/b" 17 example_supply (clock 5) (clock 6) (clock 7) (clock 9) (clock 10) s =
      Done ((0, [3; 0x81ff; 1; 5], [1], 0), s2).
Proof.
  destruct (example_ready 0%nat) as (s & Hs & Hw & Hf). exists s.
  refine (mount_point_twice 4096 13 started_memory 3 (fun _ => Free) 17 example_supply (clock 5) (clock 6) (clock 7) (clock 9) (clock 10)
    s no_objects ["a"%string] "b" {| a_ino := 3; a_mode := 0x81ff; a_nlink := 1; a_size := 5 |} 1 0 2%nat _ _ Hs clock_times _ _ _ _ _).
  - lia.
  - lia.
  - constructor; [split; [discriminate|vm_compute; reflexivity]|constructor].
  - vm_compute. reflexivity.
  - vm_compute. reflexivity.
  - vm_compute. discriminate.
  - rewrite Hf. vm_compute. reflexivity.
Defined.

Lemma access_stops_witness :
  exists s, access_via_server 3 "/mnt/a/b" 0 (replicate 8 0) 17 example_supply (clock 5) (clock 6) (clock 7) (clock 9) (clock 10) s =
    Fail AssertFailed /\ files s = 0%nat.
Proof.
  destruct (example_ready 0%nat) as (s & Hs & Hw & Hf). exists s. split; [|exact Hf].
  refine (access_stops 3 (fun _ => Free) "/mnt/a/b" 0 (replicate 8 0) 17 example_supply (clock 5) (clock 6) (clock 7) (clock 9) (clock 10) s
    (Build_captured 0 None) 0%nat _ _ clock_times _ _).
  - rewrite Hw. exact fresh_can_call.
  - discriminate.
  - vm_compute. discriminate.
  - rewrite Hf. vm_compute. reflexivity.
Defined.

(** "/mnt/a/c" is missing. *)
Lemma statfs_unanswered_witness :
  exists s, statfs_via_server 3 "/mnt/a/c" 17 example_supply (clock 5) (clock 6) (clock 7) (clock 9) (clock 10) s = Fail Blocked /\ files s = 0%nat.
Proof.
  destruct (example_ready 0%nat) as (s & Hs & Hw & Hf). exists s. split; [|exact Hf].
  refine (statfs_unanswered 3 (fun _ => Free) "/mnt/a/c" 17 example_supply (clock 5) (clock 6) (clock 7) (clock 9) (clock 10) s
    ["a"%string] "c" (- ENOENT) 2 zero_statx true 2%nat _ _ clock_times _ _ _ _ _).
  - rewrite Hw. exact fresh_can_call.
  - discriminate.
  - vm_compute. discriminate.
  - apply path_is_path; [vm_compute; reflexivity| |vm_compute; reflexivity].
    constructor; [split; [discriminate|vm_compute; reflexivity]|constructor].
  - rewrite Hf. vm_compute. reflexivity.
  - discriminate.
  - vm_compute. reflexivity.
Defined.

(** A mkdir request. *)
Lemma unsupported_stops_witness :
  exists w i, (finesse_process_request_worker 3 17 example_supply (clock 7);; on_channel (get_response example_base (block_addr example_base i) (clock 9)))
    (Build_server w no_memory 0%nat no_stats) = Fail AssertFailed.
Proof.
  assert (can_call (regions 3) regions 3 fresh_world (fun _ => Free)) as Hcall by exact fresh_can_call.
  destruct (request_sent 3 (fun _ => Free) fresh_world (fuse_req_code FINESSE_FUSE_REQ_MKDIR) offsetof_Statfs_Name "x" (ReqStatfs "x")
    (clock 5) (clock 6) [clock 7; clock 8; clock 9; clock 10] (clock 10) Hcall clock_times) as (i & w & _ & Ha).
  - vm_compute. discriminate.
  - vm_compute. reflexivity.
  - exists w, i. refine (unsupported_stops 3 (fun _ => Free) w i _ _ _ 17 example_supply (clock 7) (clock 9) no_memory 0%nat no_stats Ha _ _ _ _ _ _ _ _).
    + split; [discriminate|reflexivity].
    + discriminate.
    + discriminate.
    + split; [discriminate|reflexivity].
    + split; [discriminate|reflexivity].
    + split; [discriminate|reflexivity].
    + split; [discriminate|reflexivity].
    + vm_compute. intros H. repeat (apply elem_of_cons in H as [H|H]; [discriminate|]). by apply elem_of_nil in H.
Defined.
