(* ===== verification/ClientLibrary.v ===== *)
(** The client library: src/finesse/api/stat.c, statfs.c, access.c, unlink.c,
    openclose.c and the search of mount points of init.c.

    A program's call is answered by the server when it is about a path below
    a mount point, or a descriptor that the library tracks (FileStates.v);
    otherwise the C library answers it.  The C library is a parameter that
    may change the file system too.  While a call waits for its response
    other threads run: [serve], usually a turn of the server's worker.  The
    time measurements and counters of the calls are left out. *)

From Stdlib Require Import Ascii String.
From stdpp Require Import gmap list strings.
From S2P Require Import Prelude FileStates Bitmap FastLookup Message Region Calls FuseCalls PathName Server.

#[local] Open Scope Z_scope.
#[local] Open Scope word_scope.

Definition O_CREAT : Z := 64.
Definition O_WRONLY : Z := 1.
Definition O_RDWR : Z := 2.
Definition O_TRUNC : Z := 512.
Definition O_RDONLY : Z := 0.
Definition O_EXCL : Z := 128.
Definition O_APPEND : Z := 1024.
Definition O_CLOEXEC : Z := 524288.
Definition AT_FDCWD : Z := - 100.
Definition AT_SYMLINK_NOFOLLOW : Z := 256.

(** The flags that openat does not pass on to the C library: O_WRONLY,
    O_RDWR, O_CREAT, O_NOCTTY, O_TRUNC, O_NONBLOCK, O_DIRECTORY, O_NOFOLLOW
    and O_CLOEXEC. *)
Definition handled_flags : Z := foldr Z.lor 0 [O_WRONLY; O_RDWR; O_CREAT; 256; O_TRUNC; 2048; 65536; 131072; O_CLOEXEC].

(** * The C library *)

(** What getcwd answers: the name, that the buffer is too small, or another
    error. *)
Inductive cwd : Type := Cwd (s : string) | TooSmall | NoCwd.

(** The functions that the library falls back to, over the file system [F]
    and the process [O].  A buffer is filled with bytes. *)
Class CLibrary (F O : Type) := {
  c_open : string -> Z -> Z -> M (F * O) Z;
  c_openat : Z -> string -> Z -> Z -> M (F * O) Z;
  c_close : Z -> M (F * O) Z;
  c_malloc : Z -> M (F * O) bool;                  (* whether there is memory *)
  c_getcwd : Z -> M (F * O) cwd;
  c_stat : string -> M (F * O) (Z * list Z);
  c_fstat : Z -> M (F * O) (Z * list Z);
  c_lstat : string -> M (F * O) (Z * list Z);
  c_fstatat : Z -> string -> Z -> M (F * O) (Z * list Z);
  c_statvfs : string -> M (F * O) (Z * option (list Z));
  c_fstatvfs : Z -> M (F * O) (Z * option (list Z));
  c_access : string -> Z -> M (F * O) Z;
  c_faccessat : Z -> string -> Z -> Z -> M (F * O) Z;
  c_unlink : string -> M (F * O) Z;
  c_unlinkat : Z -> string -> Z -> M (F * O) Z;
  c_fopen : string -> string -> M (F * O) ptr;
  c_freopen : string -> string -> ptr -> M (F * O) ptr;
  c_fileno : ptr -> M (F * O) Z }.

(** * State *)

(** An entry of finesse_prefix_table; a client handle is the address of its
    region. *)
Record prefix_entry := { prefix : string; client_handle : ptr }.

Record program (F O : Type) := {
  remote : server F;
  library : FileStates.memory;
  process : O;
  finesse_prefix_table : list prefix_entry;
  finesse_api_init_in_progress : bool;
  errno : Z }.
Arguments Build_program {F O}.
Arguments remote {F O}.
Arguments library {F O}.
Arguments process {F O}.
Arguments finesse_prefix_table {F O}.
Arguments finesse_api_init_in_progress {F O}.
Arguments errno {F O}.

(** The times at which a call takes a block, sends its request, takes the
    response and frees the block. *)
Record call_clock := { t_start : timespec; t_sent : timespec; t_answer : timespec; t_free : timespec }.

Section Library.
Context {F O : Type} `{!CLibrary F O}.
#[local] Notation MP := (M (program F O)).

Definition with_remote (s : server F) (p : program F O) : program F O :=
  Build_program s (library p) (process p) (finesse_prefix_table p) (finesse_api_init_in_progress p) (errno p).
Definition with_library (m : FileStates.memory) (p : program F O) : program F O :=
  Build_program (remote p) m (process p) (finesse_prefix_table p) (finesse_api_init_in_progress p) (errno p).
Definition with_errno (e : Z) (p : program F O) : program F O :=
  Build_program (remote p) (library p) (process p) (finesse_prefix_table p) (finesse_api_init_in_progress p) e.

Definition on_remote {A} (m : M (server F) A) : MP A := fun p =>
  match m (remote p) with Done (a, s) => Done (a, with_remote s p) | Fail e => Fail e end.
Definition on_region {A} (m : M Region.world A) : MP A := on_remote (on_channel m).
Definition on_library {A} (m : M FileStates.memory A) : MP A := fun p =>
  match m (library p) with Done (a, l) => Done (a, with_library l p) | Fail e => Fail e end.
Definition native {A} (m : M (F * O) A) : MP A := fun p =>
  match m (files (remote p), process p) with
  | Done (a, (f, o)) =>
      Done (a, Build_program (Build_server (channel (remote p)) (objects (remote p)) f (stats (remote p))) (library p) o
        (finesse_prefix_table p) (finesse_api_init_in_progress p) (errno p))
  | Fail e => Fail e
  end.
Definition set_errno (e : Z) : MP unit := modify_state (with_errno e).

(** ** init.c *)

Fixpoint search_prefixes (table : list prefix_entry) (name : string) : ptr :=
  match table with
  | [] => NULL
  | e :: table =>
      if client_handle e =? NULL then NULL
      else if (String.length name <? String.length (prefix e))%nat then search_prefixes table name
      else if String.prefix (prefix e) name then client_handle e
      else search_prefixes table name
  end.

(** The table has 64 entries; those after the list have no handle. *)
Definition check_prefixes (table : list prefix_entry) (name : string) : ptr :=
  search_prefixes (take 64 table) name.

Definition finesse_check_prefix (name : string) : MP ptr :=
  table ← gets finesse_prefix_table; mret (check_prefixes table name).

(** The client handle and the key of a descriptor that is tracked. *)
Definition lookup_descriptor (fd : Z) : MP (option finesse_file_state) :=
  p ← on_library (finesse_lookup_file_state fd);
  if p =? NULL then mret None else s ← on_library (FileStates.load_state p); mret (Some s).

(** * The calls *)

Variable serve : M (server F) unit.

(** ** stat.c *)

(** A negative or a positive result is an error number. *)
Definition stat_result (result : Z) : MP Z :=
  set_errno 0;;
  (if result <? 0 then set_errno (- result) else mret ());;
  (if 0 <? result then set_errno result else mret ());;
  mret (if result =? 0 then 0 else - 1).

(** A stat request and its response. *)
Definition ask_stat (handle : ptr) (Parent Inode : option Z) (Flags : Z) (Path : option string) (now : call_clock) : MP (Z * list Z) :=
  '(status, message) ← on_region (FinesseSendCommonStatRequest handle Parent Inode Flags Path (t_start now) (t_sent now));
  c_assert (0 =? status);;
  on_remote serve;;
  '(status, buf, _, result) ← on_region (FinesseGetStatResponse handle message (t_answer now));
  c_assert (0 =? status);;
  on_region (FinesseFreeStatResponse handle message (t_free now));;
  mret (result, buf).

Definition internal_stat (file_name : string) (now : call_clock) : MP (Z * list Z) :=
  handle ← finesse_check_prefix file_name;
  if handle =? NULL then native (c_stat file_name)
  else
    '(result, buf) ← ask_stat handle None None 0 (Some file_name) now;
    result ← stat_result result;
    mret (result, buf).

(** The client handle of fstat and fstatat is never set. *)
Definition internal_fstat (filedes : Z) (now : call_clock) : MP (Z * list Z) :=
  ffs ← lookup_descriptor filedes;
  match ffs with
  | None => native (c_fstat filedes)
  | Some ffs => ask_stat NULL None (Some (FileStates.key ffs)) 0 None now
  end.

Definition internal_lstat (pathname : string) (now : call_clock) : MP (Z * list Z) :=
  handle ← finesse_check_prefix pathname;
  if handle =? NULL then native (c_lstat pathname)
  else ask_stat handle None None AT_SYMLINK_NOFOLLOW (Some pathname) now.

Definition internal_fstatat (dirfd : Z) (pathname : string) (flags : Z) (now : call_clock) : MP (Z * list Z) :=
  ffs ← lookup_descriptor dirfd;
  match ffs with
  | None => native (c_fstatat dirfd pathname flags)
  | Some ffs => ask_stat NULL (Some (FileStates.key ffs)) None flags (Some pathname) now
  end.

(** ** statfs.c *)

Definition finesse_fstatvfs (fd : Z) (now : call_clock) : MP (Z * option (list Z)) :=
  file_state ← lookup_descriptor (finesse_nfd_to_fd fd);
  match file_state with
  | None => native (c_fstatvfs fd)
  | Some ffs =>
      let handle := FileStates.client ffs in
      '(status, message) ← on_region (FinesseSendFstatfsRequest handle (FileStates.key ffs) (t_start now) (t_sent now));
      c_assert (0 =? status);;
      on_remote serve;;
      '(status, buf) ← on_region (FinesseGetFstatfsResponse handle message (t_answer now));
      c_assert (0 =? status);;
      on_region (FinesseFreeStatfsResponse handle message (t_free now));;
      mret (0, buf)
  end.

Definition finesse_statvfs (path : string) (now : call_clock) : MP (Z * option (list Z)) :=
  handle ← finesse_check_prefix path;
  if handle =? NULL then native (c_statvfs path)
  else
    '(status, message) ← on_region (FinesseSendStatfsRequest handle path (t_start now) (t_sent now));
    c_assert (0 =? status);;
    on_remote serve;;
    '(status, buf) ← on_region (FinesseGetStatfsResponse handle message (t_answer now));
    c_assert (0 =? status);;
    on_region (FinesseFreeStatfsResponse handle message (t_free now));;
    mret (status, buf).

(** ** access.c; [behind] is what the block held behind the name *)

Definition ask_access (handle : ptr) (Parent : option Z) (pathname : string) (mode : Z) (behind : list Z) (now : call_clock) : MP Z :=
  '(status, message) ← on_region (FinesseSendAccessRequest handle Parent pathname mode behind (t_start now) (t_sent now));
  c_assert (0 =? status);;
  on_remote serve;;
  '(status, result) ← on_region (FinesseGetAccessResponse handle message (t_answer now));
  c_assert (0 =? status);;
  on_region (FinesseFreeAccessResponse handle message (t_free now));;
  mret result.

Definition internal_access (pathname : string) (mode : Z) (behind : list Z) (now : call_clock) : MP Z :=
  handle ← finesse_check_prefix pathname;
  if handle =? NULL then native (c_access pathname mode)
  else ask_access handle None pathname mode behind now.

Definition internal_faccessat (dirfd : Z) (pathname : string) (mode flags : Z) (behind : list Z) (now : call_clock) : MP Z :=
  handle ← finesse_check_prefix pathname;
  if handle =? NULL then native (if dirfd =? - 1 then c_access pathname mode else c_faccessat dirfd pathname mode flags)
  else
    file_state ← lookup_descriptor (finesse_nfd_to_fd dirfd);
    match file_state with
    | None => native (c_faccessat dirfd pathname mode flags)
    | Some ffs => ask_access handle (Some (FileStates.key ffs)) pathname mode behind now
    end.

(** ** unlink.c *)

(** The result is the word in the header of the block, as an int. *)
Definition ask_unlink (handle : ptr) (Parent : Z) (pathname : string) (now : call_clock) : MP Z :=
  '(status, message) ← on_region (FinesseSendUnlinkRequest handle (Some Parent) pathname (t_start now) (t_sent now));
  c_assert (0 =? status);;
  on_remote serve;;
  status ← on_region (FinesseGetUnlinkResponse handle message (t_answer now));
  c_assert (0 =? status);;
  b ← on_region (read_message handle message);
  on_region (FinesseFreeUnlinkResponse handle message (t_free now));;
  mret (signed32 (blk_Result b)).

Definition internal_unlink (file_name : string) (now : call_clock) : MP Z :=
  handle ← finesse_check_prefix file_name;
  if handle =? NULL then native (c_unlink file_name) else ask_unlink handle 0 file_name now.

Definition absolute (pathname : string) : bool := bool_decide (char_at 0 pathname = Some slash).

Definition internal_unlinkat (dirfd : Z) (pathname : string) (flags : Z) (now : call_clock) : MP Z :=
  if negb (0 =? flags) then native (c_unlinkat dirfd pathname flags)
  else if dirfd =? AT_FDCWD then
    if absolute pathname then internal_unlink pathname now else native (c_unlinkat dirfd pathname flags)
  else
    ffs ← lookup_descriptor (finesse_nfd_to_fd dirfd);
    match ffs with
    | None => native (c_unlinkat dirfd pathname flags)
    | Some ffs => ask_unlink (FileStates.client ffs) (FileStates.key ffs) pathname now
    end.

(** ** openclose.c *)

(** [now'] are the times of the release of a name map, which is sent when the
    C library cannot open the file; its response is not waited for.  The
    addresses are what malloc returns for a new state and its table entry. *)
Definition internal_open (pathname : string) (flags mode : Z) (new_state new_entry : ptr) (now now' : call_clock) : MP Z :=
  if negb (Z.land O_CREAT flags =? 0) then native (c_open pathname flags mode)
  else
    handle ← finesse_check_prefix pathname;
    if handle =? NULL then native (c_open pathname flags mode)
    else
      '(status, message) ← on_region (FinesseSendNameMapRequest handle (Some 0) pathname flags (t_start now) (t_sent now));
      if negb (0 =? status) then native (c_open pathname flags mode)
      else
        fd ← native (c_open pathname flags mode);
        on_remote serve;;
        '(status, uuid) ← on_region (FinesseGetNameMapResponse handle message (t_answer now));
        c_assert (0 =? status);;
        c_assert (negb (Message.uuid_is_null uuid));;
        on_region (FinesseFreeNameMapResponse handle message (t_free now));;
        (if fd <? 0 then
           '(_, message) ← on_region (FinesseSendNameMapReleaseRequest handle uuid (t_start now') (t_sent now'));
           on_region (FinesseFreeNameMapResponse handle message (t_free now'))
         else mret ());;
        ffs ← on_library (finesse_create_file_state fd handle uuid pathname flags new_state new_entry);
        c_assert (negb (ffs =? NULL));;
        mret (finesse_fd_to_nfd fd).

Definition finesse_open (pathname : string) (flags mode : Z) (new_state new_entry : ptr) (now now' : call_clock) : MP Z :=
  initializing ← gets finesse_api_init_in_progress;
  if initializing : bool then native (c_open pathname flags mode)
  else internal_open pathname flags mode new_state new_entry now now'.

Definition finesse_creat (pathname : string) (mode : Z) (new_state new_entry : ptr) (now now' : call_clock) : MP Z :=
  fd ← finesse_open pathname (Z.lor (Z.lor O_CREAT O_WRONLY) O_TRUNC) mode new_state new_entry now now';
  mret (finesse_fd_to_nfd fd).

Definition PATH_MAX : Z := 4096.

(** The working directory, or [None] when there is no memory.  The buffer is
    freed before the error is looked at, so an error other than ERANGE goes on
    with freed memory. *)
Fixpoint getcwd_loop (fuel : nat) (cwd_length : Z) : MP (option (string * Z)) :=
  match fuel with
  | Datatypes.O => mthrow OutOfFuel
  | Datatypes.S fuel =>
      ok ← native (c_malloc cwd_length);
      if negb ok then mret None
      else
        r ← native (c_getcwd cwd_length);
        match r with
        | Cwd s => mret (Some (s, cwd_length))
        | TooSmall => getcwd_loop fuel (u64 (cwd_length * 2))
        | NoCwd => mthrow BadPointer
        end
  end.

Definition internal_openat (dirfd : Z) (pathname : string) (flags mode : Z) (fuel : nat) (new_state new_entry : ptr)
    (now now' : call_clock) : MP Z :=
  if negb (Z.land flags (Z.lnot handled_flags) =? 0) then native (c_openat dirfd pathname flags mode)
  else if dirfd =? AT_FDCWD then
    if absolute pathname then internal_open pathname flags mode new_state new_entry now now'
    else
      found ← getcwd_loop fuel PATH_MAX;
      match found with
      | None => native (c_openat dirfd pathname flags mode)
      | Some (cwdbuf, cwd_length) =>
          c_assert (Z.of_nat (String.length cwdbuf + String.length pathname + 1) <? cwd_length);;
          let last := char_at (String.length cwdbuf - 1) cwdbuf in
          let cwdbuf := if negb (bool_decide (last = Some slash)) && negb (absolute pathname) then (cwdbuf ++ "/")%string else cwdbuf in
          internal_open (cwdbuf ++ pathname) flags mode new_state new_entry now now'
      end
  else
    ffs ← lookup_descriptor (finesse_nfd_to_fd dirfd);
    match ffs with
    | None => native (c_openat dirfd pathname flags mode)
    | Some ffs =>
        let handle := FileStates.client ffs in
        '(status, message) ← on_region (FinesseSendNameMapRequest handle (Some (FileStates.key ffs)) pathname flags (t_start now) (t_sent now));
        c_assert (0 =? status);;
        fd ← native (c_openat dirfd pathname flags mode);
        on_remote serve;;
        '(status, uuid) ← on_region (FinesseGetNameMapResponse handle message (t_answer now));
        c_assert (0 =? status);;
        b ← on_region (read_message handle message);
        on_region (FinesseFreeNameMapResponse handle message (t_free now));;
        if negb (signed32 (blk_Result b) =? 0) then mret fd
        else
          c_assert (0 <=? fd);;
          ffs2 ← on_library (finesse_create_file_state fd handle uuid pathname flags new_state new_entry);
          c_assert (negb (ffs2 =? NULL));;
          mret fd
    end.

Definition finesse_close (fd : Z) : MP Z :=
  initializing ← gets finesse_api_init_in_progress;
  if initializing : bool then native (c_close fd)
  else
    status ← native (c_close (finesse_nfd_to_fd fd));
    if negb (0 =? status) then mret status
    else
      file_state ← on_library (finesse_lookup_file_state (finesse_nfd_to_fd fd));
      (if negb (file_state =? NULL) then on_library (finesse_delete_file_state file_state) else mret ());;
      mret 0.
(** *** Streams *)

(** One character of the mode of fopen. *)
Definition mode_char (flags : Z) (c : Ascii.ascii) : Z :=
  match c with
  | "+"%char => Z.lor flags O_RDWR
  | "x"%char => Z.lor flags O_EXCL
  | "e"%char => Z.lor flags O_CLOEXEC
  | _ => flags
  end.

(** The flags of a mode, and the error number that is set. *)
Definition fopen_mode_to_flags (mode : string) : Z * option Z :=
  let chars := foldl mode_char in
  match String.list_ascii_of_string mode with
  | ("r"%char :: _) as l => (chars O_RDONLY (take 7 l), None)
  | ("w"%char :: _) as l => (chars O_WRONLY (take 7 l), None)
  | ("a"%char :: _) as l => (chars (Z.lor (Z.lor O_WRONLY O_CREAT) O_APPEND) (take 7 l), None)
  | _ => (- 1, Some EINVAL)
  end.

(** The file is opened a second time at the end; the first stream is the one
    whose descriptor is tracked. *)
Definition finesse_fopen (pathname mode : string) (new_state new_entry : ptr) (now now' : call_clock) : MP ptr :=
  handle ← finesse_check_prefix pathname;
  if handle =? NULL then native (c_fopen pathname mode)
  else
    let '(flags, error) := fopen_mode_to_flags mode in
    (if error is Some e then set_errno e else mret ());;
    c_assert (negb (flags =? - 1));;
    '(status, message) ← on_region (FinesseSendNameMapRequest handle (Some 0) pathname flags (t_start now) (t_sent now));
    if negb (0 =? status) then native (c_fopen pathname mode)
    else
      file ← native (c_fopen pathname mode);
      on_remote serve;;
      '(status, uuid) ← on_region (FinesseGetNameMapResponse handle message (t_answer now));
      on_region (FinesseFreeNameMapResponse handle message (t_free now));;
      if (file =? NULL) && negb (0 =? status) then mret file
      else
        status ← (if file =? NULL then
             '(status, message) ← on_region (FinesseSendNameMapReleaseRequest handle uuid (t_start now') (t_sent now'));
             on_region (FinesseFreeNameMapResponse handle message (t_free now'));;
             mret status
           else mret status);
        if negb (0 =? status) then mret file
        else if file =? NULL then mthrow BadPointer
        else
          fd ← native (c_fileno file);
          ffs ← on_library (finesse_create_file_state fd handle uuid pathname flags new_state new_entry);
          c_assert (negb (ffs =? NULL));;
          native (c_fopen pathname mode).

Definition internal_freopen (pathname mode : string) (stream : ptr) (new_state new_entry : ptr) (now : call_clock) : MP ptr :=
  fd ← native (c_fileno stream);
  ffs ← on_library (finesse_lookup_file_state (finesse_nfd_to_fd fd));
  if ffs =? NULL then native (c_freopen pathname mode stream)
  else
    s ← on_library (FileStates.load_state ffs);
    let flags := FileStates.flags s in
    on_library (finesse_delete_file_state ffs);;
    handle ← finesse_check_prefix pathname;
    '(status, message) ← (if negb (handle =? NULL)
       then on_region (FinesseSendNameMapRequest handle (Some 0) pathname flags (t_start now) (t_sent now))
       else mret (- 1, NULL));
    file ← native (c_freopen pathname mode stream);
    '(status, uuid) ← (if negb (handle =? NULL) && (0 =? status) then
        on_remote serve;;
        r ← on_region (FinesseGetNameMapResponse handle message (t_answer now));
        on_region (FinesseFreeNameMapResponse handle message (t_free now));;
        mret r
      else mret (status, 0));
    if (handle =? NULL) || negb (0 =? status) then mret file
    else if file =? NULL then mthrow BadPointer
    else
      fd ← native (c_fileno file);
      ffs ← on_library (finesse_create_file_state fd handle uuid pathname flags new_state new_entry);
      c_assert (negb (ffs =? NULL));;
      mret file.
End Library.
