(* ===== verification/ClientCalls.v ===== *)
(** What the calls of the client library do, over the server: programs whose
    calls of ClientLibrary.v are served by the worker of Server.v, with the
    table of descriptors of FileSpec.v.

    [MapRules] has the worker's turn on a name map request, [Program] the
    calls.  Results: stat answers as a reference on the file system says
    ([stat_answers]); an open descriptor is tracked with the UUID of the
    server's object, and closing it forgets it but leaves the object
    ([open_close]); opening a missing file, opening for reading and writing
    and opening relative to a tracked directory stop the program or the
    server ([open_missing_stops], [open_readwrite_stops], [openat_stops]). *)

From stdpp Require Import gmap list strings.
From S2P Require Import Prelude FileStates FileTable FileSpec Bitmap FastLookup LookupTable LookupLife LookupSpec Message Region Calls FuseCalls PathName Server ServerRules ServerCalls ClientLibrary.

#[local] Open Scope Z_scope.
#[local] Open Scope word_scope.

(** * Names are mapped *)

Definition is_uuid (u : list Z) : Prop := length u = 16%nat /\ Forall (fun b => 0 <= b < 256) u.

Lemma uuid_number_range u : Forall (fun b => 0 <= b < 256) u -> 0 <= uuid_number u /\ (uuid_number u = 0 -> u = replicate (length u) 0).
Proof.
  induction 1 as [|b u Hb _ [Hu Hz]]; [done|]. cbn. fold (uuid_number u). split; [lia|]. intros Hs. assert (b = 0) as -> by lia. f_equal. apply Hz. lia.
Qed.

Lemma uuid_number_not_null {UU : Libuuid} {UL : LibuuidLaws} u : is_uuid u -> FastLookup.uuid_is_null u = false -> Message.uuid_is_null (uuid_number u) = false.
Proof.
  intros [Hl Hu] Hn. apply Z.eqb_neq. intros Hz. apply (uuid_number_range u Hu) in Hz. rewrite Hl in Hz.
  by rewrite Hz, null_uuid_null in Hn.
Qed.

(** The UUIDs are those of libuuid. *)
Definition uuids_ok (c : catalogue) (x : supply) : Prop := Forall (fun i => is_uuid (id_uuid i)) (ids c) /\ is_uuid (s_uuid x).

Lemma created_uuid T shift ino u new c c1 r i :
  catalogue_op T shift (Create ino u new) c = Some (c1, r) -> Forall (fun i => is_uuid (id_uuid i)) (ids c) -> is_uuid u ->
  i ∈ ids c1 -> is_uuid (id_uuid i).
Proof.
  cbn. destruct (_ || _); [done|]. intros Hop Hc Hu Hi. rewrite Forall_forall in Hc.
  destruct (by_ino ino (ids c)) as [j|].
  - apply bind_Some in Hop as (c2 & Ha & [= -> _]). change (acquire (Some j) c = Some c1) in Ha. rewrite (acquire_ids _ _ _ Ha) in Hi. auto.
  - destruct (by_uuid u (ids c)); [done|]. injection Hop as <- _. apply elem_of_app in Hi as [Hi| ->%list_elem_of_singleton]; auto.
Qed.

Section MapRules.
Context {F : Type} `{!FileSystem F, !Statfs F} {UU : Libuuid} {UL : LibuuidLaws} {ST : Statics} `{!Layout, !Session}.
Variables (T shift : Z) (m0 : FastLookup.memory).
Hypothesis T_pos : 0 < T.
Hypothesis shift_range : 10 <= shift <= 15.
Variables (client : Z) (sl : slots).
Hypothesis Hclient : 0 <= client < SHM_MESSAGE_COUNT.
Hypothesis Hserver : server_handle <> NULL.
Implicit Types (f : F) (s : server F) (x : supply) (c : catalogue) (dirs : list string).
#[local] Notation base := (regions client).

Definition map_asked := asked_as base sl FINESSE_NATIVE_MESSAGE.

Lemma count_native_request_run type w o f st :
  FINESSE_NATIVE_REQ_BASE_TYPE <= type < FINESSE_NATIVE_REQ_MAX ->
  exists st', FinesseCountNativeRequest type (Build_server w o f st) = Done (tt, Build_server w o f st').
Proof. intros Ht. unfold FinesseCountNativeRequest. rewrite !c_assert_bind by lia. by eexists. Qed.

Lemma count_native_response_run type w o f st :
  FINESSE_NATIVE_RSP_ERR <= type < FINESSE_NATIVE_RSP_MAX ->
  exists st', FinesseCountNativeResponse type (Build_server w o f st) = Done (tt, Build_server w o f st').
Proof. intros Ht. unfold FinesseCountNativeResponse. rewrite !c_assert_bind by lia. by eexists. Qed.

(** A turn of the worker on a name map request is a turn of its handler. *)
Lemma worker_maps w i par t0 rnd x now o f st :
  map_asked w i Ready (native_req_code FINESSE_NATIVE_REQ_MAP) par t0 -> normal now -> (forall j, is_slot j -> sl j <> Ready) ->
  exists w' st', map_asked w' i Taken (native_req_code FINESSE_NATIVE_REQ_MAP) par t0 /\
    finesse_process_request_worker client rnd x now (Build_server w o f st) =
      (status ← FinesseServerNativeMapRequest client (block_addr base i) x; c_assert (0 =? status)) (Build_server w' o f st').
Proof.
  intros Ha Hn Hidle.
  destruct (worker_turn base client sl Hclient eq_refl FINESSE_NATIVE_MESSAGE w i _ par t0 rnd x now o f st Ha) as (w' & Ha' & Hw);
    [by right|done|done|].
  destruct (count_native_request_run (native_req_code FINESSE_NATIVE_REQ_MAP) w' o f st ltac:(done)) as [st' Hc].
  exists w', st'. split; [done|]. rewrite Hw. change (FINESSE_NATIVE_MESSAGE =? FINESSE_FUSE_MESSAGE) with false. cbv iota.
  destruct Ha' as (br & v & r & Ht). unfold FinesseServerHandleNativeRequest. rewrite (proj2 (Z.eqb_neq _ _) Hserver).
  destruct (transit_read _ _ _ _ _ _ Ht) as (b & Hb & Hpb). unfold read_block. rewrite !M_assoc.
  run_step ltac:(apply on_channel_run; exact Hb). unfold payload in Hpb. injection Hpb as _ Hmt _ Hcl _ Hbt _ _.
  pose proof Ht as (Hrep & Hi & _).
  rewrite !M_assoc, c_assert_bind by (by rewrite Hmt). rewrite !M_assoc, c_assert_bind by (by eapply addr_not_null).
  rewrite !M_assoc, c_assert_bind by (by rewrite Hcl).
  cbv zeta. rewrite Hbt, !M_assoc. run_step ltac:(exact Hc).
  change (native_req_code FINESSE_NATIVE_REQ_MAP =? native_req_code FINESSE_NATIVE_REQ_TEST) with false.
  change (native_req_code FINESSE_NATIVE_REQ_MAP =? native_req_code FINESSE_NATIVE_REQ_SERVER_STAT) with false.
  change (native_req_code FINESSE_NATIVE_REQ_MAP =? native_req_code FINESSE_NATIVE_REQ_MAP) with true. cbv iota.
  rewrite !M_assoc. apply M_bind_ext. intros status s'. unfold c_assert. by destruct (0 =? status).
Qed.

(** The response to a name map request in block [i]. *)
Definition map_answered (w : Region.world) (i : Z) (result : Z) (key : option Z) (t0 : timespec) : Prop :=
  exists r, in_transit base w sl i Responded
    (u32 result, FINESSE_RESPONSE, FINESSE_MESSAGE_VERSION, FINESSE_NATIVE_MESSAGE, r, FINESSE_NATIVE_RSP_MAP, RspMap result key, t0).

Lemma send_map_run w i par t0 key result x o f st :
  map_asked w i Taken (native_req_code FINESSE_NATIVE_REQ_MAP) par t0 -> normal (s_now x) -> result <> 0 \/ is_Some key ->
  exists w', on_channel (FinesseSendNameMapResponse regions client (block_addr base i) key result (s_now x)) (Build_server w o f st) =
      Done (0, Build_server w' o f st) /\ map_answered w' i result key t0.
Proof.
  intros (br & v & r & Ht) Hn Hok. edestruct transit_respond with (1 := Ht) (result := result) (now := s_now x)
    (check := negb (result =? 0) || match key with Some _ => true | None => false end)
    (p' := (u32 result, FINESSE_RESPONSE, FINESSE_MESSAGE_VERSION, FINESSE_NATIVE_MESSAGE, r,
            FINESSE_NATIVE_RSP_MAP, RspMap result key, t0))
    (fill := fun d => set_Parameters (RspMap result key) (set_Type FINESSE_NATIVE_RSP_MAP
                   (set_header FINESSE_MESSAGE_VERSION FINESSE_NATIVE_MESSAGE d)))
    as (w' & Hw & Ht'); [done|exact Hclient|done| |done|done| |].
  - destruct Hok as [Hr|[k ->]]; [by rewrite (proj2 (Z.eqb_neq _ _) Hr)|by rewrite orb_true_r].
  - intros b Hb. unfold payload in *. cbn. congruence.
  - exists w'. split; [|by exists r]. apply on_channel_run. exact Hw.
Qed.

Lemma read_map_run w i par t0 o f st :
  map_asked w i Taken (native_req_code FINESSE_NATIVE_REQ_MAP) par t0 ->
  read_request client (block_addr base i) (Build_server w o f st) = Done (par, Build_server w o f st).
Proof.
  intros (br & v & r & Ht). destruct (transit_read _ _ _ _ _ _ Ht) as (b & Hb & Hpb). unfold read_request.
  run_step ltac:(apply on_channel_run; exact Hb). unfold payload in Hpb. by injection Hpb as _ _ _ _ _ _ -> _.
Qed.

Lemma path_has_slash Name rest : stripped mountpoint (below Name) = String.String slash rest -> index slash Name <> None.
Proof.
  intros Hpath.
  assert (index slash (below Name) <> None) as Hb.
  { unfold stripped in Hpath. case_match; [apply (index_from slash (String.length mountpoint))|]; by rewrite Hpath. }
  unfold below in Hb. case_match; [by eapply index_from|done].
Qed.

(** What is found gets an object, whose UUID is the answer. *)
Lemma map_request_found w i t0 path flags x dirs final o f st c j xs last f1 :
  map_asked w i Taken (native_req_code FINESSE_NATIVE_REQ_MAP) (ReqMap 0 flags path) t0 -> normal (s_now x) ->
  is_path mountpoint (allocated (below path) flags) dirs final ->
  resolve_reference FUSE_ROOT_ID dirs final f = Done ((0, j, xs, last), f1) -> stx_ino xs <> 0 ->
  objects_ok T shift m0 o c -> can_name T shift m0 c x -> uuids_ok c x ->
  exists w' o' st' c' id, FinesseServerNativeMapRequest client (block_addr base i) x (Build_server w o f st) =
      Done (0, Build_server w' o' f1 st') /\
    objects_ok T shift m0 o' c' /\ id ∈ ids c' /\ id_ino id = stx_ino xs /\ Message.uuid_is_null (uuid_number (id_uuid id)) = false /\
    map_answered w' i 0 (Some (uuid_number (id_uuid id))) t0.
Proof.
  intros Ha Hn Hpath Hres Hz Hok Hnames [Hus Hu]. unfold FinesseServerNativeMapRequest. run_step ltac:(by eapply read_map_run).
  cbv iota. rewrite (proj2 (Z.eqb_neq _ _) Hserver). rewrite c_assert_bind by (by apply bool_decide_eq_true, (path_has_slash path _ (proj1 Hpath))).
  destruct (Hnames (stx_ino xs) Hz) as (Hroom & [[c1 rr] Hop]).
  destruct (map_is_path_map 0 (Some 0) path flags x dirs final (Build_server w o f st) (proj1 Hpath) eq_refl (or_introl eq_refl)) as (pi & Hpi & Hmap).
  destruct (path_map_found T shift m0 T_pos shift_range pi (Some 0) (below path) flags x dirs final w o f st c c1 rr j xs last f1
    Hpath eq_refl Hpi Hres Hz Hok Hroom Hop) as (o1 & c2 & id & Hrun & Hok2 & Hids & Hin & Hino).
  rewrite <- Hmap in Hrun. run_step ltac:(exact Hrun). cbv beta iota. change (0 =? 0) with true. cbv iota.
  destruct (finobj_load_run T shift m0 w o1 f1 st c2 id Hok2 Hin) as (Hl & Hat & _ & _ & Hnull).
  rewrite M_assoc, c_assert_bind by (unfold not_null; rewrite (proj2 (Z.eqb_neq _ NULL)) by (unfold object_of, NULL; lia); done).
  rewrite M_assoc. run_step ltac:(exact Hl). cbn [FastLookup.uuid].
  destruct (send_map_run w i _ t0 (Some (uuid_number (id_uuid id))) 0 x o1 f1 st Ha Hn) as (w' & Hsend & Hans); [by right|].
  run_step ltac:(exact Hsend). change (0 =? 0) with true. cbv iota.
  destruct (count_native_response_run FINESSE_NATIVE_RSP_MAP w' o1 f1 st ltac:(done)) as [st' Hc]. run_step ltac:(exact Hc).
  exists w', o1, st', c2, id. split_and!; [done..| |done]. apply uuid_number_not_null; [|done].
  rewrite Hids in Hin. by eapply created_uuid.
Qed.

(** What is missing is answered with ENOENT, and nothing but that. *)
Lemma map_request_missing w i t0 path flags x dirs final o f st status j xs last f1 :
  map_asked w i Taken (native_req_code FINESSE_NATIVE_REQ_MAP) (ReqMap 0 flags path) t0 -> normal (s_now x) ->
  is_path mountpoint (allocated (below path) flags) dirs final ->
  resolve_reference FUSE_ROOT_ID dirs final f = Done ((status, j, xs, last), f1) -> status <> 0 -> not_found status = true ->
  GetFinalParent (allocated (below path) flags) = false ->
  exists w' st', FinesseServerNativeMapRequest client (block_addr base i) x (Build_server w o f st) = Done (0, Build_server w' o f1 st') /\
    map_answered w' i ENOENT None t0.
Proof.
  intros Ha Hn Hpath Hres Hz Hnf Hgfp. unfold FinesseServerNativeMapRequest. run_step ltac:(by eapply read_map_run).
  cbv iota. rewrite (proj2 (Z.eqb_neq _ _) Hserver). rewrite c_assert_bind by (by apply bool_decide_eq_true, (path_has_slash path _ (proj1 Hpath))).
  pose proof (map_missing_with 0 (Some 0) path flags x dirs final w o f st status j xs last f1 Hpath eq_refl (or_introl eq_refl) Hres Hz Hnf Hgfp) as Hrun.
  run_step ltac:(exact Hrun). cbv beta iota. rewrite (proj2 (Z.eqb_neq 0 status)) by congruence. rewrite M_assoc, c_assert_bind by done.
  destruct (send_map_run w i _ t0 None ENOENT x o f1 st Ha Hn) as (w' & Hsend & Hans); [by left|].
  run_step ltac:(exact Hsend). change (0 =? 0) with true. cbv iota.
  destruct (count_native_response_run FINESSE_NATIVE_RSP_MAP w' o f1 st ltac:(done)) as [st' Hc]. run_step ltac:(exact Hc).
  by exists w', st'.
Qed.

(** The client takes the key, or stops. *)
Lemma map_received w i key t0 t4 : map_answered w i 0 (Some key) t0 -> normal t4 -> Message.uuid_is_null key = false ->
  exists w' p, FinesseGetNameMapResponse base (block_addr base i) t4 w = Done ((0, key), w') /\ in_transit base w' sl i Answered p /\ p.2 = t0.
Proof.
  intros [r Ha] Hn Hkey. destruct (transit_receive _ _ _ _ _ t4 Ha Hn eq_refl) as (b & w' & Hr & Hp & Ht). eexists w', _. split; [|by split].
  unfold FinesseGetNameMapResponse. run_step ltac:(exact Hr). unfold payload in Hp. injection Hp as Hbr _ _ Hcl _ Hty Hpar _.
  rewrite Hbr, Hcl, Hty, Hpar. rewrite !c_assert_bind by done. by rewrite Hkey.
Qed.

Lemma map_refused w i result key t0 t4 : map_answered w i result key t0 -> normal t4 -> u32 result <> 0 ->
  FinesseGetNameMapResponse base (block_addr base i) t4 w = Fail AssertFailed.
Proof.
  intros [r Ha] Hn Hres. destruct (transit_receive _ _ _ _ _ t4 Ha Hn eq_refl) as (b & w' & Hr & Hp & Ht).
  unfold FinesseGetNameMapResponse. run_step ltac:(exact Hr). unfold payload in Hp. injection Hp as Hbr _ _ _ _ _ _ _.
  rewrite Hbr. by rewrite (proj2 (Z.eqb_neq 0 _)) by congruence.
Qed.
End MapRules.

(** * The program *)

Section Program.
Context {F O : Type} `{!CLibrary F O, !FileSystem F, !Statfs F} {UU : Libuuid} {UL : LibuuidLaws} {ST : Statics} `{!Layout, !Session}.
Implicit Types (f : F) (s : server F) (p : program F O) (x : supply) (c : catalogue) (dirs : list string).

Lemma on_remote_run {A} (m : M (server F) A) p a s : m (remote p) = Done (a, s) -> on_remote m p = Done (a, with_remote s p).
Proof. intros Hm. unfold on_remote. by rewrite Hm. Qed.

Lemma on_remote_fail {A} (m : M (server F) A) p e : m (remote p) = Fail e -> on_remote m p = Fail e.
Proof. intros Hm. unfold on_remote. by rewrite Hm. Qed.

Lemma on_region_run {A} (m : M Region.world A) w o f st l (pr : O) tb ini er a w' :
  m w = Done (a, w') ->
  on_region m (Build_program (Build_server w o f st) l pr tb ini er) = Done (a, Build_program (Build_server w' o f st) l pr tb ini er).
Proof. intros Hm. unfold on_region. by erewrite on_remote_run by (by apply on_channel_run). Qed.

Lemma on_region_fail {A} (m : M Region.world A) w o f st l (pr : O) tb ini er e :
  m w = Fail e -> on_region m (Build_program (Build_server w o f st) l pr tb ini er) = Fail e.
Proof. intros Hm. unfold on_region. by apply on_remote_fail, on_channel_fail. Qed.

Lemma on_library_run {A} (m : M FileStates.memory A) p a l : m (library p) = Done (a, l) -> on_library m p = Done (a, with_library l p).
Proof. intros Hm. unfold on_library. by rewrite Hm. Qed.

Lemma native_run {A} (m : M (F * O) A) w o f st l pr tb ini er a f' pr' :
  m (f, pr) = Done (a, (f', pr')) ->
  native m (Build_program (Build_server w o f st) l pr tb ini er) = Done (a, Build_program (Build_server w o f' st) l pr' tb ini er).
Proof. intros Hm. unfold native. cbn. by rewrite Hm. Qed.

Lemma nfd_to_fd fd : finesse_nfd_to_fd fd = fd.
Proof. unfold finesse_nfd_to_fd, nic_fd_shift. change (Z.lnot 0) with (- 1). by rewrite Z.land_m1_r. Qed.

Lemma fd_to_nfd fd : finesse_fd_to_nfd fd = fd.
Proof. apply Z.lor_0_r. Qed.

(** A descriptor that is tracked, and one that is not. *)
Lemma lookup_descriptor_run Tt lost fm p n : Tt <> NULL -> tracked Tt fm lost (library p) -> is_int n ->
  lookup_descriptor n p = Done (fm !! n, p).
Proof.
  intros HT [l Htr] Hn. unfold lookup_descriptor. run_step ltac:(apply on_library_run; exact (find_state Tt HT l fm lost _ n Htr Hn)).
  pose proof (content_found Tt l fm lost _ n Htr) as Hc. unfold content in Hc.
  destruct p as [s lb pr tb ini er]. cbn [library with_library remote process finesse_prefix_table finesse_api_init_in_progress errno] in *.
  destruct (state_ptr (by_fd n l) =? NULL); [by injection Hc as <-|].
  apply M_bind_inv in Hc as (st & m' & Hst & Hm). injection Hm as Hf ->. rewrite <- Hf.
  by run_step ltac:(by apply on_library_run).
Qed.

(** ** open *)

(** Malloc has room for a state and for its entry. *)
Record can_track (new_state new_entry : ptr) (l : FileStates.memory) : Prop := {
  ct_state : new_state <> NULL /\ FileStates.states l !! new_state = None;
  ct_entry : new_entry <> NULL /\ FileStates.links l !! new_entry = None /\ FileStates.entries l !! new_entry = None }.

(** The times of a call. *)
Definition call_ok (now : call_clock) (turn sent : timespec) : Prop :=
  call_times (t_start now) [t_sent now; turn; sent; t_answer now; t_free now] (t_free now).

Variables (T shift : Z) (m0 : FastLookup.memory) (Tt : ptr) (lost : gmap ptr finesse_file_state).
Hypothesis T_pos : 0 < T.
Hypothesis shift_range : 10 <= shift <= 15.
Hypothesis Tt_not_null : Tt <> NULL.
Variables (client : Z) (sl : slots).
#[local] Notation base := (regions client).

Lemma handle_found p path : check_prefixes (finesse_prefix_table p) path = base -> finesse_check_prefix path p = Done (base, p).
Proof. intros <-. done. Qed.

(** A state is made for a descriptor that has none. *)
Lemma track_run p fm n key path flags ns ne : tracked Tt fm lost (library p) -> is_int n -> fm !! n = None -> can_track ns ne (library p) ->
  exists l', on_library (finesse_create_file_state n base key path flags ns ne) p = Done (ns, with_library l' p) /\
    tracked Tt (<[n := {| fd := n; FileStates.key := key; FileStates.client := base; pathname := path; current_offset := 0; FileStates.flags := flags |}]> fm) lost l'.
Proof.
  intros [l Htr] Hn Hnew [[Hs1 Hs2] [He1 He2]].
  destruct (create_state Tt Tt_not_null l fm lost _ n base key path flags ns ne Htr Hn) as (l' & m' & Hrun & Htr' & _); [done|done|].
  rewrite !bool_decide_true in Hrun, Htr' by done. cbn [andb] in *. exists m'. split; [by apply on_library_run|by exists l'].
Qed.

(** The request that open sends is on its way. *)
Lemma open_asks s l pr tb er path flags mode ns ne now now' rnd x turn :
  can_call base regions client (channel s) sl -> call_ok now turn (s_now x) -> fits offsetof_Map_Name path ->
  Z.land O_CREAT flags = 0 -> check_prefixes tb path = base ->
  exists i w1, map_asked client sl w1 i Ready (native_req_code FINESSE_NATIVE_REQ_MAP) (ReqMap 0 flags path) (t_start now) /\
    finesse_open (finesse_process_request_worker client rnd x turn) path flags mode ns ne now now' (Build_program s l pr tb false er) =
    (fd ← native (c_open path flags mode);
     on_remote (finesse_process_request_worker client rnd x turn);;
     '(status, uuid) ← on_region (FinesseGetNameMapResponse base (block_addr base i) (t_answer now));
     c_assert (0 =? status);;
     c_assert (negb (Message.uuid_is_null uuid));;
     on_region (FinesseFreeNameMapResponse base (block_addr base i) (t_free now));;
     (if fd <? 0 then
        '(_, message) ← on_region (FinesseSendNameMapReleaseRequest base uuid (t_start now') (t_sent now'));
        on_region (FinesseFreeNameMapResponse base message (t_free now'))
      else mret ());;
     ffs ← on_library (finesse_create_file_state fd base uuid path flags ns ne);
     c_assert (negb (ffs =? NULL));;
     mret (finesse_fd_to_nfd fd)) (Build_program (Build_server w1 (objects s) (files s) (stats s)) l pr tb false er).
Proof.
  intros Hcall Ht Hfit Hcreat Htb. destruct s as [w o f st]. cbn [channel objects files stats] in *.
  destruct (name_map_request base regions client w sl (Some 0) path flags _ _ _ _ Hcall Ht Hfit) as (i & w1 & br & v & r & Hsend & Hasked).
  exists i, w1. split; [by exists br, v, r|]. match goal with |- _ = ?r => set (rhs := r) end.
  unfold finesse_open. run_step ltac:(reflexivity). cbn [finesse_api_init_in_progress]. cbv iota. unfold internal_open.
  rewrite Hcreat. change (negb (0 =? 0)) with false. cbv iota.
  run_step ltac:(by apply handle_found). rewrite (proj2 (Z.eqb_neq base NULL)) by (pose proof (rp_base _ _ _ (cc_region _ _ _ _ _ Hcall)); unfold NULL; lia).
  run_step ltac:(apply on_region_run; exact Hsend). cbv beta iota. done.
Qed.

Definition opened (n key : Z) (path : string) (flags : Z) : finesse_file_state :=
  {| fd := n; FileStates.key := key; FileStates.client := base; pathname := path; current_offset := 0; FileStates.flags := flags |}.

(** The worker's turn on the request of open. *)
Lemma open_turn_found w i path flags x dirs final o f st c j xs last f1 rnd turn t0 :
  map_asked client sl w i Ready (native_req_code FINESSE_NATIVE_REQ_MAP) (ReqMap 0 flags path) t0 -> normal turn -> normal (s_now x) ->
  0 <= client < SHM_MESSAGE_COUNT -> server_handle <> NULL -> (forall j, is_slot j -> sl j <> Ready) ->
  is_path mountpoint (allocated (below path) flags) dirs final ->
  resolve_reference FUSE_ROOT_ID dirs final f = Done ((0, j, xs, last), f1) -> stx_ino xs <> 0 ->
  objects_ok T shift m0 o c -> can_name T shift m0 c x -> uuids_ok c x ->
  exists w' o' st' c' id, finesse_process_request_worker client rnd x turn (Build_server w o f st) = Done (tt, Build_server w' o' f1 st') /\
    objects_ok T shift m0 o' c' /\ id ∈ ids c' /\ id_ino id = stx_ino xs /\ Message.uuid_is_null (uuid_number (id_uuid id)) = false /\
    map_answered client sl w' i 0 (Some (uuid_number (id_uuid id))) t0.
Proof.
  intros Ha Hn Hnx Hc Hh Hidle Hpath Hres Hz Hok Hnames Hus.
  destruct (worker_maps client sl Hc Hh w i _ t0 rnd x turn o f st Ha Hn Hidle) as (w1 & st1 & Ha1 & Hw).
  destruct (map_request_found T shift m0 T_pos shift_range client sl Hc Hh w1 i t0 path flags x dirs final o f st1 c j xs last f1
    Ha1 Hnx Hpath Hres Hz Hok Hnames Hus) as (w' & o' & st' & c' & id & Hrun & Hrest).
  exists w', o', st', c', id. split; [|exact Hrest]. rewrite Hw. by run_step ltac:(exact Hrun).
Qed.

Lemma open_found s l pr tb er path flags mode ns ne now now' rnd x turn c fm dirs final n pr1 f0 j xs last f1 :
  ready T shift m0 client sl s c x -> uuids_ok c x -> call_ok now turn (s_now x) -> fits offsetof_Map_Name path ->
  Z.land O_CREAT flags = 0 -> check_prefixes tb path = base -> is_path mountpoint (allocated (below path) flags) dirs final ->
  c_open path flags mode (files s, pr) = Done (n, (f0, pr1)) -> 0 <= n < 2 ^ 31 -> fm !! n = None -> tracked Tt fm lost l -> can_track ns ne l ->
  resolve_reference FUSE_ROOT_ID dirs final f0 = Done ((0, j, xs, last), f1) -> stx_ino xs <> 0 ->
  exists s' l' c' id,
    finesse_open (finesse_process_request_worker client rnd x turn) path flags mode ns ne now now' (Build_program s l pr tb false er) =
      Done (n, Build_program s' l' pr1 tb false er) /\
    left_by T shift m0 client sl s' c' f1 /\ id ∈ ids c' /\ id_ino id = stx_ino xs /\
    tracked Tt (<[n := opened n (uuid_number (id_uuid id)) path flags]> fm) lost l'.
Proof.
  intros [Hcall Hh Hok Hnames] Hus Ht Hfit Hcreat Htb Hpath Hopen Hn Hnew Htr Hct Hres Hz.
  destruct (open_asks s l pr tb er path flags mode ns ne now now' rnd x turn Hcall Ht Hfit Hcreat Htb) as (i & w1 & Hasked & ->).
  destruct s as [w o f st]. cbn [channel objects files stats] in *. pose proof Hcall as [_ Hclient _ _ Hidle]. unfold call_ok in Ht. times Ht.
  run_step ltac:(apply native_run; exact Hopen).
  destruct (open_turn_found w1 i path flags x dirs final o f0 st c j xs last f1 rnd turn (t_start now))
    as (w2 & o2 & st2 & c2 & id & Hturn & Hok2 & Hin & Hino & Hnull & Hans); [done..|].
  run_step ltac:(apply on_remote_run; exact Hturn).
  destruct (map_received client sl w2 i _ _ (t_answer now) Hans) as (w3 & pl & Hget & Ht3 & Hpl); [done|done|].
  run_step ltac:(apply on_region_run; exact Hget). cbv beta iota. rewrite c_assert_bind by done. rewrite c_assert_bind by (by rewrite Hnull).
  destruct (transit_free base w3 sl i Answered pl (t_free now) Ht3) as (w4 & Hfree & Hrep); [by right|done|by rewrite Hpl|].
  run_step ltac:(apply on_region_run; exact Hfree). rewrite (proj2 (Z.ltb_ge n 0)) by lia. rewrite mret_bind.
  match goal with |- context [mbind _ _ ?p] => destruct (track_run p fm n (uuid_number (id_uuid id)) path flags ns ne) as (l' & Htrack & Htr') end;
    [exact Htr|unfold is_int; lia|exact Hnew|exact Hct|].
  run_step ltac:(exact Htrack). rewrite c_assert_bind by (by apply negb_true_iff, Z.eqb_neq, Hct).
  eexists _, l', c2, id. split; [by rewrite fd_to_nfd|]. by split_and!.
Qed.

(** A missing file: the response stops the program, although the C library
    has answered already. *)
Lemma open_missing s l pr tb er path flags mode ns ne now now' rnd x turn dirs final n pr1 f0 status j xs last f1 :
  can_call base regions client (channel s) sl -> server_handle <> NULL -> call_ok now turn (s_now x) -> fits offsetof_Map_Name path ->
  Z.land O_CREAT flags = 0 -> Z.land flags FINESSE_SERVER_PATH_RESOLUTION_GET_FINAL_PARENT = 0 ->
  check_prefixes tb path = base -> is_path mountpoint (allocated (below path) flags) dirs final ->
  c_open path flags mode (files s, pr) = Done (n, (f0, pr1)) ->
  resolve_reference FUSE_ROOT_ID dirs final f0 = Done ((status, j, xs, last), f1) -> status <> 0 -> not_found status = true ->
  finesse_open (finesse_process_request_worker client rnd x turn) path flags mode ns ne now now' (Build_program s l pr tb false er) =
    Fail AssertFailed.
Proof.
  intros Hcall Hh Ht Hfit Hcreat Hgfp Htb Hpath Hopen Hres Hz Hnf.
  destruct (open_asks s l pr tb er path flags mode ns ne now now' rnd x turn Hcall Ht Hfit Hcreat Htb) as (i & w1 & Hasked & ->).
  destruct s as [w o f st]. cbn [channel objects files stats] in *. pose proof Hcall as [_ Hclient _ _ Hidle]. unfold call_ok in Ht. times Ht.
  run_step ltac:(apply native_run; exact Hopen).
  destruct (worker_maps client sl Hclient Hh w1 i _ _ rnd x turn o f0 st Hasked) as (w2 & st2 & Ha2 & Hw); [done|done|].
  destruct (map_request_missing client sl Hclient Hh w2 i _ path flags x dirs final o f0 st2 status j xs last f1 Ha2)
    as (w3 & st3 & Hrun & Hans); [done..|cbn; by rewrite Hgfp|].
  run_step ltac:(apply on_remote_run; cbn [remote]; rewrite Hw; run_step ltac:(exact Hrun); reflexivity).
  apply M_bind_fail, on_region_fail. eapply map_refused; [exact Hans|done|done].
Qed.

(** The turn of the worker on a request that stops its handler. *)
Lemma open_turn_stops w i par x rnd turn t0 o f st :
  map_asked client sl w i Ready (native_req_code FINESSE_NATIVE_REQ_MAP) par t0 -> normal turn ->
  0 <= client < SHM_MESSAGE_COUNT -> server_handle <> NULL -> (forall j, is_slot j -> sl j <> Ready) ->
  (forall w' st', map_asked client sl w' i Taken (native_req_code FINESSE_NATIVE_REQ_MAP) par t0 ->
     FinesseServerNativeMapRequest client (block_addr base i) x (Build_server w' o f st') = Fail AssertFailed) ->
  finesse_process_request_worker client rnd x turn (Build_server w o f st) = Fail AssertFailed.
Proof.
  intros Ha Hn Hc Hh Hidle Hstops. destruct (worker_maps client sl Hc Hh w i par t0 rnd x turn o f st Ha Hn Hidle) as (w1 & st1 & Ha1 & ->).
  by apply M_bind_fail, Hstops.
Qed.

Lemma open_secured s l pr tb er path flags mode ns ne now now' rnd x turn d dirs final n pr1 f0 :
  can_call base regions client (channel s) sl -> server_handle <> NULL -> call_ok now turn (s_now x) -> fits offsetof_Map_Name path ->
  Z.land O_CREAT flags = 0 -> Z.land flags FINESSE_SERVER_PATH_RESOLUTION_CHECK_SECURITY <> 0 -> check_prefixes tb path = base ->
  stripped mountpoint (below path) = ("/" ++ prefix_of (d :: dirs) ++ final)%string -> component d -> index slash final = None ->
  c_open path flags mode (files s, pr) = Done (n, (f0, pr1)) ->
  finesse_open (finesse_process_request_worker client rnd x turn) path flags mode ns ne now now' (Build_program s l pr tb false er) =
    Fail AssertFailed.
Proof.
  intros Hcall Hh Ht Hfit Hcreat Hsec Htb Hpath Hd Hfin Hopen.
  destruct (open_asks s l pr tb er path flags mode ns ne now now' rnd x turn Hcall Ht Hfit Hcreat Htb) as (i & w1 & Hasked & ->).
  destruct s as [w o f st]. cbn [channel objects files stats] in *. pose proof Hcall as [_ Hclient _ _ Hidle]. unfold call_ok in Ht. times Ht.
  run_step ltac:(apply native_run; exact Hopen). apply M_bind_fail, on_remote_fail.
  eapply open_turn_stops; [exact Hasked|done..|]. intros w' st' Ha. unfold FinesseServerNativeMapRequest.
  run_step ltac:(by eapply read_map_run). cbv iota. rewrite (proj2 (Z.eqb_neq _ _) Hh).
  rewrite c_assert_bind by (by apply bool_decide_eq_true, (path_has_slash path _ Hpath)). apply M_bind_fail.
  destruct (map_is_path_map 0 (Some 0) path flags x (d :: dirs) final (Build_server w' o f0 st') Hpath eq_refl (or_introl eq_refl)) as (pi & Hpi & ->).
  apply (path_map_stops pi (Some 0) (below path) flags x (d :: dirs) final); [done..|].
  apply (resolve_secured mountpoint _ d dirs final); [done..|]. cbn. by rewrite (proj2 (Z.eqb_neq _ _) Hsec).
Qed.

(** ** openat *)

Lemma relative_stops path flags x w o f st : absolute path = false -> String.prefix mountpoint path = false ->
  index slash path <> None ->
  FinesseServerInternalMapRequest 0 (Some 0) path flags x (Build_server w o f st) = Fail AssertFailed.
Proof.
  intros Habs Hpre Hsl. unfold FinesseServerInternalMapRequest. rewrite Hpre, andb_false_r. cbv zeta iota. cbn [andb].
  rewrite mret_bind. destruct (index slash path) as [k|] eqn:Hk; [|done]. unfold FinsesseServerInternalPathMapRequest. cbv zeta.
  rewrite c_assert_bind by (by rewrite Hpre, orb_true_r). rewrite c_assert_bind by done.
  change (Message.uuid_is_null 0) with true. cbn [negb]. cbv iota. rewrite mret_bind. rewrite c_assert_bind by done.
  apply M_bind_fail, on_files_fail. unfold FinesseServerResolvePathName, FinesseAllocateServerPathResolutionParameters.
  cbn [PathNameBufferLength PathName Parent]. rewrite (proj2 (Z.eqb_neq 0 _)) by lia. cbv zeta.
  rewrite Hpre. cbn [negb]. rewrite orb_true_r. change (from 0 path) with path. destruct (rindex slash path) as [[|r]|] eqn:Hr.
  - exfalso. unfold absolute in Habs. apply bool_decide_eq_false in Habs. apply Habs. destruct path as [|d path]; [done|].
    cbn in Hr. unfold char_at. cbn. destruct (rindex slash path) eqn:E; [done|]. destruct (decide (d = slash)) as [->|Hne]; [done|].
    by rewrite ?decide_False in Hr.
  - unfold absolute in Habs. by rewrite Habs.
  - exfalso. assert (index slash path = None); [|congruence]. clear -Hr. induction path as [|d path IH]; [done|]. cbn in *.
    destruct (rindex slash path); [done|]. destruct (decide (slash = d)); [done|]. by rewrite IH.
Qed.

Lemma openat_stopped s l pr tb ini er dirfd d path flags mode fuel ns ne now now' rnd x turn n pr1 f0 fm :
  can_call base regions client (channel s) sl -> server_handle <> NULL -> call_ok now turn (s_now x) -> fits offsetof_Map_Name path ->
  Z.land flags (Z.lnot handled_flags) = 0 -> dirfd <> AT_FDCWD -> is_int dirfd -> tracked Tt fm lost l ->
  fm !! dirfd = Some d -> FileStates.client d = base -> absolute path = false -> String.prefix mountpoint path = false ->
  c_openat dirfd path flags mode (files s, pr) = Done (n, (f0, pr1)) ->
  internal_openat (finesse_process_request_worker client rnd x turn) dirfd path flags mode fuel ns ne now now' (Build_program s l pr tb ini er) =
    Fail AssertFailed.
Proof.
  intros Hcall Hh Ht Hfit Hflags Hcwd Hint Htr Hd Hcl Habs Hpre Hopen. unfold internal_openat. rewrite Hflags. change (negb (0 =? 0)) with false.
  cbv iota. rewrite (proj2 (Z.eqb_neq _ _) Hcwd), nfd_to_fd.
  run_step ltac:(exact (lookup_descriptor_run Tt lost fm (Build_program s l pr tb ini er) dirfd Tt_not_null Htr Hint)).
  rewrite Hd. cbv zeta. rewrite Hcl. destruct s as [w o f st]. cbn [channel objects files stats] in *.
  destruct (name_map_request base regions client w sl (Some (FileStates.key d)) path flags _ _ _ _ Hcall Ht Hfit) as (i & w1 & br & v & r & Hsend & Hasked).
  run_step ltac:(apply on_region_run; exact Hsend). cbv beta iota. rewrite c_assert_bind by done.
  run_step ltac:(apply native_run; exact Hopen). apply M_bind_fail, on_remote_fail. pose proof Hcall as [_ Hclient _ _ Hidle]. unfold call_ok in Ht. times Ht.
  eapply (open_turn_stops w1 i); [by exists br, v, r|done..|]. intros w' st' Ha. unfold FinesseServerNativeMapRequest.
  run_step ltac:(by eapply read_map_run). cbv iota. rewrite (proj2 (Z.eqb_neq _ _) Hh).
  destruct (decide (index slash path = None)) as [Hn|Hsome].
  - by rewrite bool_decide_false by (intros Hs; by apply Hs).
  - rewrite c_assert_bind by by apply bool_decide_eq_true. by apply M_bind_fail, relative_stops.
Qed.

(** ** close *)

Lemma close_run s l pr tb er fm n f0 pr1 :
  tracked Tt fm lost l -> is_int n -> c_close n (files s, pr) = Done (0, (f0, pr1)) ->
  exists l', finesse_close n (Build_program s l pr tb false er) =
      Done (0, Build_program (Build_server (channel s) (objects s) f0 (stats s)) l' pr1 tb false er) /\
    tracked Tt (delete n fm) lost l'.
Proof.
  intros [ll Htr] Hint Hclose. destruct s as [w o f st]. cbn [channel objects files stats] in *. unfold finesse_close.
  run_step ltac:(reflexivity). cbn [finesse_api_init_in_progress]. cbv iota. rewrite nfd_to_fd.
  run_step ltac:(apply native_run; exact Hclose). change (negb (0 =? 0)) with false. cbv iota.
  run_step ltac:(apply on_library_run; exact (find_state Tt Tt_not_null ll fm lost _ n Htr Hint)).
  pose proof (tracked_fd _ _ _ _ _ n Htr) as Hfd. destruct (by_fd n ll) as [i|]; cbn [state_ptr].
  - destruct Hfd as (s & Hs & _ & Hst & Hnn & Hi & <-). rewrite (proj2 (Z.eqb_neq _ _) Hnn). cbn [negb].
    destruct (delete_state Tt Tt_not_null ll fm lost l i Htr Hi) as (m' & Hrun & Htr'). exists m'.
    run_step ltac:(apply on_library_run; exact Hrun). split; [done|by eexists].
  - change (negb (NULL =? NULL)) with false. cbv iota. rewrite mret_bind. exists l. rewrite delete_id by done. split; [done|by eexists].
Qed.

(** ** stat *)

(** Nothing reaches the server without a client handle. *)
Lemma ask_stat_no_handle serve parent inode flags path now p : ask_stat serve NULL parent inode flags path now p = Fail AssertFailed.
Proof. unfold ask_stat. by apply M_bind_fail, on_remote_fail. Qed.

Lemma stat_result_run result p : stat_result result p = Done (if result =? 0 then 0 else - 1, with_errno (Z.abs result) p).
Proof.
  unfold stat_result, set_errno. rewrite modify_bind.
  destruct (Z.ltb_spec result 0), (Z.ltb_spec 0 result); try lia; rewrite ?modify_bind, ?mret_bind; unfold with_errno.
  - by replace (Z.abs result) with (- result) by lia.
  - by replace (Z.abs result) with result by lia.
  - by replace (Z.abs result) with 0 by lia.
Qed.

Lemma stat_asked path rnd x now turn s c dirs final a valid result f l (pr : O) tb ini er :
  ready T shift m0 client sl s c x -> call_ok now turn (s_now x) -> fits offsetof_Stat_Name path ->
  is_path mountpoint (allocated (below path) 0) dirs final -> stat_reference dirs final (files s) = Done ((a, valid, result), f) ->
  exists s' c', ask_stat (finesse_process_request_worker client rnd x turn) base None None 0 (Some path) now (Build_program s l pr tb ini er) =
      Done ((result, stat_blob a), Build_program s' l pr tb ini er) /\ left_by T shift m0 client sl s' c' f.
Proof.
  intros Hready Ht Hfit Hpath Href.
  destruct (stat_call_served T shift m0 T_pos shift_range client sl path rnd x _ _ turn _ _ s c dirs final a valid result f Hready Ht Hfit Hpath Href)
    as (s' & c' & Hrun & Hleft). exists s', c'. split; [|exact Hleft].
  destruct (stat_request base regions client (channel s) sl None None 0 (Some path) (t_start now) (t_sent now) [turn; s_now x; t_answer now; t_free now] (t_free now)
    (rd_call _ _ _ _ _ _ _ _ Hready) Ht) as (i & w1 & br & v & r & Hsend & _); [by left|by intros ? [= <-]|].
  unfold stat_via_server in Hrun. cbv zeta in Hrun. unfold ask_stat. destruct s as [w o f0 st]. cbn [channel] in Hsend.
  rewrite (M_bind_done _ _ _ _ _ (on_channel_run _ _ _ _ _ _ _ Hsend)) in Hrun. cbv beta iota in Hrun.
  run_step ltac:(apply on_region_run; exact Hsend). cbv beta iota. rewrite c_assert_bind by done.
  apply M_bind_inv in Hrun as ([] & s1 & Hturn & Hrun). run_step ltac:(apply on_remote_run; exact Hturn).
  apply M_bind_inv in Hrun as ([[[st1 buf] tm] res] & s2 & Hget & Hrun). unfold on_region at 1.
  run_step ltac:(apply on_remote_run; exact Hget). cbv beta iota.
  apply M_bind_inv in Hrun as ([] & s3 & Hfree & Hrun). injection Hrun as -> -> -> -> ->. rewrite c_assert_bind by done.
  unfold on_region. run_step ltac:(apply on_remote_run; exact Hfree). done.
Qed.
End Program.

(** * What the calls do *)

Section Theorems.
Context {F O : Type} `{!CLibrary F O, !FileSystem F, !Statfs F} {UU : Libuuid} {UL : LibuuidLaws} {ST : Statics} `{!Layout, !Session}.
Implicit Types (f : F) (s : server F) (x : supply) (c : catalogue) (dirs : list string).

(** C2: A stat of a path below the mount point, from the call of the program
    through the search of the mount points, the sender, the region, the
    worker, the resolution of the path, the object table and the file system
    back to the program, answers what the reference on the file system says:
    the attributes of what the components lead to and 0, or -1 with the error
    of the first lookup that fails in errno.  The block is free again, and
    nothing else of the program has changed. *)
Theorem stat_answers T shift m0 client sl path rnd x now turn s c dirs final a valid result f l (pr : O) tb ini er :
  0 < T -> 10 <= shift <= 15 -> ready T shift m0 client sl s c x -> call_ok now turn (s_now x) ->
  fits offsetof_Stat_Name path -> check_prefixes tb path = regions client ->
  is_path mountpoint (allocated (below path) 0) dirs final -> stat_reference dirs final (files s) = Done ((a, valid, result), f) ->
  exists s' c', internal_stat (finesse_process_request_worker client rnd x turn) path now (Build_program s l pr tb ini er) =
      Done ((if result =? 0 then 0 else - 1, stat_blob a), Build_program s' l pr tb ini (Z.abs result)) /\
    left_by T shift m0 client sl s' c' f.
Proof.
  intros HT Hshift Hready Ht Hfit Htb Hpath Href.
  destruct (stat_asked T shift m0 HT Hshift client sl path rnd x now turn s c dirs final a valid result f l pr tb ini er Hready Ht Hfit Hpath Href)
    as (s' & c' & Hrun & Hleft). exists s', c'. split; [|exact Hleft]. unfold internal_stat. run_step ltac:(by apply handle_found).
  rewrite (proj2 (Z.eqb_neq (regions client) NULL)) by (pose proof (rp_base _ _ _ (cc_region _ _ _ _ _ (rd_call _ _ _ _ _ _ _ _ Hready))); unfold NULL; lia).
  run_step ltac:(exact Hrun). cbv beta iota. run_step ltac:(apply stat_result_run). done.
Qed.

(** C3: Opening a path below the mount point that the server and the C
    library both find gives the descriptor of the C library, and the library
    tracks it: the key is the UUID of an object of the server for the inode
    of the path.  A fstat of that descriptor stops the program, since it asks
    the server without a client handle.  Closing it takes it out of the
    table; but the server is not told, so the object stays. *)
Theorem open_close T shift m0 Tt lost client sl path flags mode ns ne now now' rnd x turn s c l fm (pr : O) tb er dirs final n pr1 f0 j xs last f1 :
  0 < T -> 10 <= shift <= 15 -> Tt <> NULL -> ready T shift m0 client sl s c x -> uuids_ok c x -> call_ok now turn (s_now x) ->
  fits offsetof_Map_Name path -> Z.land O_CREAT flags = 0 -> check_prefixes tb path = regions client ->
  is_path mountpoint (allocated (below path) flags) dirs final ->
  c_open path flags mode (files s, pr) = Done (n, (f0, pr1)) -> 0 <= n < 2 ^ 31 ->
  tracked Tt fm lost l -> fm !! n = None -> can_track ns ne l ->
  resolve_reference FUSE_ROOT_ID dirs final f0 = Done ((0, j, xs, last), f1) -> stx_ino xs <> 0 ->
  let serve := finesse_process_request_worker client rnd x turn in
  exists s' l' c' id (p' := Build_program s' l' pr1 tb false er),
    finesse_open serve path flags mode ns ne now now' (Build_program s l pr tb false er) = Done (n, p') /\
    left_by T shift m0 client sl s' c' f1 /\ id ∈ ids c' /\ id_ino id = stx_ino xs /\
    tracked Tt (<[n := opened client n (uuid_number (id_uuid id)) path flags]> fm) lost l' /\
    (forall now2, internal_fstat serve n now2 p' = Fail AssertFailed) /\
    (forall f2 pr2, c_close n (f1, pr1) = Done (0, (f2, pr2)) -> exists l2,
       finesse_close n p' = Done (0, Build_program (Build_server (channel s') (objects s') f2 (stats s')) l2 pr2 tb false er) /\
       tracked Tt fm lost l2).
Proof.
  intros HT Hshift HTt Hready Hus Ht Hfit Hcreat Htb Hpath Hopen Hn Htr Hnew Hct Hres Hz serve.
  destruct (open_found T shift m0 Tt lost HT Hshift HTt client sl s l pr tb er path flags mode ns ne now now' rnd x turn c fm dirs final n pr1 f0 j xs last f1
    Hready Hus Ht Hfit Hcreat Htb Hpath Hopen Hn Hnew Htr Hct Hres Hz) as (s' & l' & c' & id & Hrun & Hleft & Hin & Hino & Htr').
  exists s', l', c', id. cbv zeta. split; [exact Hrun|]. split_and!; [done..| |].
  - intros now2. unfold internal_fstat.
    erewrite M_bind_done by (by eapply (lookup_descriptor_run Tt); [done|exact Htr'|unfold is_int; lia]).
    rewrite lookup_insert_eq. apply ask_stat_no_handle.
  - intros f2 pr2 Hclose. rewrite <- (lf_files _ _ _ _ _ _ _ _ Hleft) in Hclose.
    destruct (close_run Tt lost HTt s' l' pr1 tb er _ n f2 pr2 Htr') as (l2 & Hrun2 & Htr2); [unfold is_int; lia|exact Hclose|].
    exists l2. split; [exact Hrun2|]. by rewrite delete_insert_id in Htr2.
Qed.

(** C33: Opening a path below the mount point, without O_CREAT and without
    O_RDWR, that the server does not find stops the program: the error in the
    response fails an assertion of the receiver, although the C library has
    answered already.  ([is_path] excludes the bit of O_RDWR, which asks for
    security checks; no flag of open has the bit that asks for the directory
    of the path.) *)
Theorem open_missing_stops client sl path flags mode ns ne now now' rnd x turn s l (pr : O) tb er dirs final n pr1 f0 status j xs last f1 :
  can_call (regions client) regions client (channel s) sl -> server_handle <> NULL -> call_ok now turn (s_now x) ->
  fits offsetof_Map_Name path -> Z.land O_CREAT flags = 0 -> Z.land flags FINESSE_SERVER_PATH_RESOLUTION_GET_FINAL_PARENT = 0 ->
  check_prefixes tb path = regions client -> is_path mountpoint (allocated (below path) flags) dirs final ->
  c_open path flags mode (files s, pr) = Done (n, (f0, pr1)) ->
  resolve_reference FUSE_ROOT_ID dirs final f0 = Done ((status, j, xs, last), f1) -> status <> 0 -> not_found status = true ->
  finesse_open (finesse_process_request_worker client rnd x turn) path flags mode ns ne now now' (Build_program s l pr tb false er) =
    Fail AssertFailed.
Proof. by apply open_missing. Qed.

(** C34: The flags of open are sent as flags of the path resolution, where the
    bit of O_RDWR asks for security checks.  These are not written, so opening
    a path with a directory below the mount point for reading and writing
    stops the server. *)
Theorem open_readwrite_stops client sl path flags mode ns ne now now' rnd x turn s l (pr : O) tb er d dirs final n pr1 f0 :
  can_call (regions client) regions client (channel s) sl -> server_handle <> NULL -> call_ok now turn (s_now x) ->
  fits offsetof_Map_Name path -> Z.land O_CREAT flags = 0 -> Z.land flags O_RDWR <> 0 -> check_prefixes tb path = regions client ->
  stripped mountpoint (below path) = ("/" ++ prefix_of (d :: dirs) ++ final)%string -> component d -> index slash final = None ->
  c_open path flags mode (files s, pr) = Done (n, (f0, pr1)) ->
  finesse_open (finesse_process_request_worker client rnd x turn) path flags mode ns ne now now' (Build_program s l pr tb false er) =
    Fail AssertFailed.
Proof. by apply open_secured. Qed.

(** C35: Opening a relative path in a directory whose descriptor is tracked
    stops the server.  The directory is lost on the way, and the server
    asserts that the path has a separator and begins with one. *)
Theorem openat_stops Tt lost client sl dirfd d path flags mode fuel ns ne now now' rnd x turn s l fm (pr : O) tb ini er n pr1 f0 :
  Tt <> NULL -> can_call (regions client) regions client (channel s) sl -> server_handle <> NULL -> call_ok now turn (s_now x) ->
  fits offsetof_Map_Name path -> Z.land flags (Z.lnot handled_flags) = 0 -> dirfd <> AT_FDCWD -> is_int dirfd ->
  tracked Tt fm lost l -> fm !! dirfd = Some d -> FileStates.client d = regions client ->
  absolute path = false -> String.prefix mountpoint path = false ->
  c_openat dirfd path flags mode (files s, pr) = Done (n, (f0, pr1)) ->
  internal_openat (finesse_process_request_worker client rnd x turn) dirfd path flags mode fuel ns ne now now' (Build_program s l pr tb ini er) =
    Fail AssertFailed.
Proof.
  intros HT Hcall Hh Ht Hfit Hflags Hcwd Hint Htr Hd Hcl Habs Hpre Hopen.
  exact (openat_stopped Tt lost HT client sl s l pr tb ini er dirfd d path flags mode fuel ns ne now now' rnd x turn n pr1 f0 fm
    Hcall Hh Ht Hfit Hflags Hcwd Hint Htr Hd Hcl Habs Hpre Hopen).
Qed.
End Theorems.

(** * The theorems at a program that has just started *)

#[local] Existing Instance example_libuuid.
#[local] Existing Instance example_libuuid_laws.
#[local] Existing Instance example_statics.

(** The C library opens every file with descriptor 5. *)
#[local] Instance toy_library : CLibrary nat unit := {|
  c_open _ _ _ s := Done (5, s);
  c_openat _ _ _ _ s := Done (5, s);
  c_close _ s := Done (0, s);
  c_malloc _ s := Done (true, s);
  c_getcwd _ s := Done (Cwd "/", s);
  c_stat _ s := Done ((- 1, []), s);
  c_fstat _ s := Done ((- 1, []), s);
  c_lstat _ s := Done ((- 1, []), s);
  c_fstatat _ _ _ s := Done ((- 1, []), s);
  c_statvfs _ s := Done ((- 1, None), s);
  c_fstatvfs _ s := Done ((- 1, None), s);
  c_access _ _ s := Done (- 1, s);
  c_faccessat _ _ _ _ s := Done (- 1, s);
  c_unlink _ s := Done (- 1, s);
  c_unlinkat _ _ _ s := Done (- 1, s);
  c_fopen _ _ s := Done (NULL, s);
  c_freopen _ _ _ s := Done (NULL, s);
  c_fileno _ s := Done (5, s) |}.

Definition example_prefixes : list prefix_entry := [{| prefix := "/mnt"; client_handle := example_base |}].
Definition example_clock : call_clock := {| t_start := clock 5; t_sent := clock 6; t_answer := clock 9; t_free := clock 10 |}.

Lemma example_call : call_ok example_clock (clock 7) (s_now example_supply).
Proof. exact clock_times. Qed.

Lemma example_prefix path : String.prefix "/mnt" path = true -> check_prefixes example_prefixes path = regions 3.
Proof.
  intros Hp. unfold check_prefixes, example_prefixes. cbn [take search_prefixes client_handle prefix]. rewrite (proj2 (Z.eqb_neq _ NULL)) by done.
  apply prefix_length in Hp as Hl. rewrite (proj2 (Nat.ltb_ge _ _)) by exact Hl. by rewrite Hp.
Qed.

Lemma example_uuids : uuids_ok no_objects example_supply.
Proof. split; [constructor|]. split; [reflexivity|]. apply (bool_decide_eq_true_1 _). vm_compute. reflexivity. Qed.

Lemma example_table : exists l, tracked 65536 ∅ ∅ l.
Proof. destruct (init_run 65536 ltac:(done) ∅) as (m & _ & Htr). exists m, []. exact Htr. Qed.

Lemma example_can_track l : can_track (malloc_state l) (malloc_entry l) l.
Proof. split; [apply malloc_state_fresh|apply malloc_entry_fresh]. Qed.

Lemma example_is_path path dirs final flags : Z.land flags FINESSE_SERVER_PATH_RESOLUTION_CHECK_SECURITY = 0 ->
  stripped mountpoint (below path) = ("/" ++ prefix_of dirs ++ final)%string -> Forall component dirs -> index slash final = None ->
  is_path mountpoint (allocated (below path) flags) dirs final.
Proof. intros Hf Hs Hd Hfin. split; [exact Hs|]. split_and!; [done..|]. cbn. by rewrite Hf. Qed.

(** "/mnt/a/c" is missing: errno is ENOENT. *)
Lemma stat_answers_witness :
  exists (s s' : server nat) l, internal_stat (finesse_process_request_worker 3 17 example_supply (clock 7)) "/mnt/a/c" example_clock
      (Build_program s l tt example_prefixes false 0) = Done ((- 1, [0; 0; 0; 0]), Build_program s' l tt example_prefixes false ENOENT) /\
    files s' = 2%nat.
Proof.
  destruct (example_ready 0%nat) as (s & Hs & Hw & Hf). destruct example_table as [l Hl].
  destruct (stat_answers 4096 13 started_memory 3 (fun _ => Free) "/mnt/a/c" 17 example_supply example_clock (clock 7) s no_objects ["a"%string] "c"
    zerostat 0 (- ENOENT) 2%nat l tt example_prefixes false 0) as (s' & c' & Hr & Hleft).
  - lia.
  - lia.
  - exact Hs.
  - exact example_call.
  - vm_compute. discriminate.
  - apply example_prefix. vm_compute. reflexivity.
  - apply example_is_path; [reflexivity|vm_compute; reflexivity| |vm_compute; reflexivity].
    constructor; [split; [discriminate|vm_compute; reflexivity]|constructor].
  - rewrite Hf. vm_compute. reflexivity.
  - exists s, s', l. split; [exact Hr|exact (lf_files _ _ _ _ _ _ _ _ Hleft)].
Defined.

(** "/mnt/a/b" is opened and closed. *)
Lemma open_close_witness :
  exists (s s' : server nat) l l' l2 id, let serve := finesse_process_request_worker 3 17 example_supply (clock 7) in
    finesse_open serve "/mnt/a/b" O_RDONLY 0 (malloc_state l) (malloc_entry l) example_clock example_clock
      (Build_program s l tt example_prefixes false 0) = Done (5, Build_program s' l' tt example_prefixes false 0) /\
    id_ino id = 3 /\ tracked 65536 {[5 := opened 3 5 (uuid_number (id_uuid id)) "/mnt/a/b" O_RDONLY]} ∅ l' /\
    finesse_close 5 (Build_program s' l' tt example_prefixes false 0) =
      Done (0, Build_program (Build_server (channel s') (objects s') 2%nat (stats s')) l2 tt example_prefixes false 0) /\
    tracked 65536 ∅ ∅ l2.
Proof.
  destruct (example_ready 0%nat) as (s & Hs & Hw & Hf). destruct example_table as [l Hl].
  destruct (open_close 4096 13 started_memory 65536 ∅ 3 (fun _ => Free) "/mnt/a/b" O_RDONLY 0 (malloc_state l) (malloc_entry l) example_clock example_clock
    17 example_supply (clock 7) s no_objects l ∅ tt example_prefixes 0 ["a"%string] "b" 5 tt 0%nat 2
    {| stx_ino := 3; stx_mode := 0x81ff; stx_nlink := 1; stx_size := 5 |} true 2%nat) as (s' & l' & c' & id & Hrun & _ & _ & Hino & Htr & _ & Hclose).
  - lia.
  - lia.
  - discriminate.
  - exact Hs.
  - exact example_uuids.
  - exact example_call.
  - vm_compute. discriminate.
  - reflexivity.
  - apply example_prefix. vm_compute. reflexivity.
  - apply example_is_path; [reflexivity|vm_compute; reflexivity| |vm_compute; reflexivity].
    constructor; [split; [discriminate|vm_compute; reflexivity]|constructor].
  - rewrite Hf. reflexivity.
  - lia.
  - exact Hl.
  - reflexivity.
  - apply example_can_track.
  - vm_compute. reflexivity.
  - discriminate.
  - destruct (Hclose 2%nat tt eq_refl) as (l2 & Hc2 & Htr2). exists s, s', l, l', l2, id.
    split; [exact Hrun|]. split; [exact Hino|]. split; [exact Htr|]. split; [exact Hc2|exact Htr2].
Defined.

Lemma open_missing_stops_witness :
  exists (s : server nat) l, files s = 0%nat /\
    finesse_open (finesse_process_request_worker 3 17 example_supply (clock 7)) "/mnt/a/c" O_WRONLY 0 (malloc_state l) (malloc_entry l)
      example_clock example_clock (Build_program s l tt example_prefixes false 0) = Fail AssertFailed.
Proof.
  destruct (example_ready 0%nat) as (s & Hs & Hw & Hf). destruct example_table as [l Hl]. exists s, l. split; [exact Hf|].
  refine (open_missing_stops 3 (fun _ => Free) "/mnt/a/c" O_WRONLY 0 _ _ example_clock example_clock 17 example_supply (clock 7) s l tt example_prefixes 0
    ["a"%string] "c" 5 tt 0%nat (- ENOENT) 2 zero_statx true 2%nat _ _ example_call _ _ _ _ _ _ _ _ _).
  - rewrite Hw. exact fresh_can_call.
  - discriminate.
  - vm_compute. discriminate.
  - reflexivity.
  - reflexivity.
  - apply example_prefix. vm_compute. reflexivity.
  - apply example_is_path; [reflexivity|vm_compute; reflexivity| |vm_compute; reflexivity].
    constructor; [split; [discriminate|vm_compute; reflexivity]|constructor].
  - rewrite Hf. reflexivity.
  - vm_compute. reflexivity.
  - discriminate.
  - vm_compute. reflexivity.
Defined.

Lemma open_readwrite_stops_witness :
  exists (s : server nat) l, files s = 0%nat /\
    finesse_open (finesse_process_request_worker 3 17 example_supply (clock 7)) "/mnt/a/b" O_RDWR 0 (malloc_state l) (malloc_entry l)
      example_clock example_clock (Build_program s l tt example_prefixes false 0) = Fail AssertFailed.
Proof.
  destruct (example_ready 0%nat) as (s & Hs & Hw & Hf). destruct example_table as [l Hl]. exists s, l. split; [exact Hf|].
  refine (open_readwrite_stops 3 (fun _ => Free) "/mnt/a/b" O_RDWR 0 _ _ example_clock example_clock 17 example_supply (clock 7) s l tt example_prefixes 0
    "a" [] "b" 5 tt 0%nat _ _ example_call _ _ _ _ _ _ _ _).
  - rewrite Hw. exact fresh_can_call.
  - discriminate.
  - vm_compute. discriminate.
  - reflexivity.
  - discriminate.
  - apply example_prefix. vm_compute. reflexivity.
  - vm_compute. reflexivity.
  - split; [discriminate|vm_compute; reflexivity].
  - vm_compute. reflexivity.
  - rewrite Hf. reflexivity.
Defined.

(** The directory "/mnt/a" is open with descriptor 7. *)
Definition example_directory : finesse_file_state :=
  {| fd := 7; FileStates.key := 12; FileStates.client := example_base; pathname := "/mnt/a"; current_offset := 0; FileStates.flags := O_RDONLY |}.

Lemma example_directory_tracked : exists l, tracked 65536 {[7 := example_directory]} ∅ l.
Proof.
  destruct (init_run 65536 ltac:(done) ∅) as (m & _ & Htr).
  destruct (create_state 65536 ltac:(done) [] ∅ ∅ m 7 example_base 12 "/mnt/a" O_RDONLY (malloc_state m) (malloc_entry m) Htr)
    as (l' & m' & _ & Htr' & _); [unfold is_int; lia|intros _; apply malloc_state_fresh|intros _; apply malloc_entry_fresh|].
  rewrite !bool_decide_true in Htr' by (reflexivity || apply malloc_state_fresh || apply malloc_entry_fresh). exists m', l'. exact Htr'.
Qed.

Lemma openat_stops_witness :
  exists (s : server nat) l, files s = 0%nat /\
    internal_openat (finesse_process_request_worker 3 17 example_supply (clock 7)) 7 "b" O_RDONLY 0 1 (malloc_state l) (malloc_entry l)
      example_clock example_clock (Build_program s l tt example_prefixes false 0) = Fail AssertFailed.
Proof.
  destruct (example_ready 0%nat) as (s & Hs & Hw & Hf). destruct example_directory_tracked as [l Hl]. exists s, l. split; [exact Hf|].
  refine (openat_stops 65536 ∅ 3 (fun _ => Free) 7 example_directory "b" O_RDONLY 0 1 _ _ example_clock example_clock 17 example_supply (clock 7) s l
    {[7 := example_directory]} tt example_prefixes false 0 5 tt 0%nat _ _ _ example_call _ _ _ _ Hl _ _ _ _ _).
  - discriminate.
  - rewrite Hw. exact fresh_can_call.
  - discriminate.
  - vm_compute. discriminate.
  - reflexivity.
  - discriminate.
  - unfold is_int. lia.
  - apply lookup_singleton_eq.
  - reflexivity.
  - vm_compute. reflexivity.
  - vm_compute. reflexivity.
  - rewrite Hf. reflexivity.
Defined.
