(* ===== verification/Arena.v ===== *)
(** The buffer arenas of src/finesse/communications/buffer.c.

    An arena is a mapped file: a control page with a 64-bit allocation
    bitmap, then [Count] buffers of [Size] bytes.  The operations run one
    after the other; the compare-and-swap loops of the code then succeed at
    once.  What the operating system gives back (the file descriptor, the
    address of the mapping, the control block of a file that already has a
    size) are arguments of [FincommCreateArena].

    Results: live buffers are disjoint and inside the mapping; allocation
    finds a free buffer whenever there is one; it never returns once the
    buffers of an arena with fewer than 64 are all taken; freeing undoes
    allocation. *)

From stdpp Require Import list strings.
From S2P Require Import Prelude Bitmap.

Open Scope word_scope.

Definition ARENA_CONTROL_AREA_SIZE : Z := 4096.

(** static const char Signature[16] *)
Definition ArenaSignature : list Z :=
  [70; 105; 110; 99; 111; 109; 32; 65; 114; 101; 110; 97; 0; 0; 0; 0].

(** fincomm_arena_info_t *)
Record arena_info := {
  info_Signature : list Z;
  Name : string;
  Size : Z; Count : Z; Offset : Z;
  AllocationBitmap : Z;
  LastAllocated : Z }.

(** struct _fincomm_arena_handle; [Arena] is the address of the mapping
    (NULL when there is none), [info] the control block it holds. *)
Record arena_handle := {
  Signature : list Z;
  Arena : ptr;
  info : arena_info;
  FileDescriptor : Z }.

Definition with_info (f : arena_info -> arena_info) (h : arena_handle) : arena_handle :=
  {| Signature := Signature h; Arena := Arena h; info := f (info h); FileDescriptor := FileDescriptor h |}.

Definition set_bitmap (b : Z) (a : arena_info) : arena_info :=
  {| info_Signature := info_Signature a; Name := Name a; Size := Size a; Count := Count a;
     Offset := Offset a; AllocationBitmap := b; LastAllocated := LastAllocated a |}.

Definition set_last (l : Z) (a : arena_info) : arena_info :=
  {| info_Signature := info_Signature a; Name := Name a; Size := Size a; Count := Count a;
     Offset := Offset a; AllocationBitmap := AllocationBitmap a; LastAllocated := l |}.

Definition FincommCreateArena (name : string) (BufferSize Count_ fd : Z) (addr : ptr)
    (existing : option arena_info) : outcome arena_handle :=
  let BufferSize := if BufferSize =? 0 then 64 * 1024 * 1024 else BufferSize in
  let Count_ := if Count_ =? 0 then 64 else Count_ in
  let ArenaSize := u64 (ARENA_CONTROL_AREA_SIZE + u64 (BufferSize * Count_)) in
  c_assert (ARENA_CONTROL_AREA_SIZE <? ArenaSize);;
  c_assert (Count_ <=? 64);;
  c_assert (Z.of_nat (String.length name) <? 1024);;
  c_assert (0 <=? fd);;
  let i := match existing with
           | Some i => i
           | None =>
               {| info_Signature := ArenaSignature; Name := name; Size := BufferSize;
                  Count := Count_; Offset := ARENA_CONTROL_AREA_SIZE; AllocationBitmap := 0;
                  LastAllocated := u32 (Count_ - 1) |}
           end in
  c_assert (bool_decide (info_Signature i = ArenaSignature));;
  c_assert (bool_decide (Name i = name));;
  c_assert (Size i =? BufferSize);;
  c_assert (Count i =? Count_);;
  c_assert (Offset i =? ARENA_CONTROL_AREA_SIZE);;
  Done {| Signature := ArenaSignature; Arena := addr; info := i; FileDescriptor := fd |}.

(** The assertions every operation starts with. *)
Definition check_handle : M arena_handle unit :=
  h ← get_state;
  c_assert (bool_decide (Signature h = ArenaSignature));;
  c_assert (negb (Arena h =? NULL));;
  c_assert (0 <=? FileDescriptor h).

(** The handle after a release: no mapping, no descriptor, no signature. *)
Definition FincommReleaseArena : M arena_handle unit :=
  check_handle;;
  modify_state (fun h =>
    {| Signature := replicate 16 0; Arena := NULL; info := info h; FileDescriptor := -1 |}).

Definition cas_bitmap (old new : Z) : M arena_handle bool :=
  h ← get_state;
  if AllocationBitmap (info h) =? old then
    put_state (with_info (set_bitmap new) h);; mret true
  else mret false.

(** The search; NULL when the bitmap is full. *)
Fixpoint allocate_loop (fuel : nat) (index : Z) : M arena_handle ptr :=
  match fuel with
  | O => mthrow OutOfFuel
  | S fuel =>
      h ← get_state;
      let old_bitmap := AllocationBitmap (info h) in
      if wnot 64 0 =? old_bitmap then mret NULL
      else
        let index := u32 (u32 (index + 1) mod Count (info h)) in
        shift_ok index;;
        let new_bitmap := Z.lor old_bitmap (make_mask64 index) in
        if old_bitmap =? new_bitmap then allocate_loop fuel index
        else
          ok ← cas_bitmap old_bitmap new_bitmap;
          if (ok : bool) then
            modify_state (with_info (set_last index));;
            mret (u64 (Arena h + Offset (info h) + index * Size (info h)))
          else allocate_loop fuel index
  end.

Definition FincommAllocateBuffer (fuel : nat) : M arena_handle ptr :=
  check_handle;; h ← get_state; allocate_loop fuel (LastAllocated (info h)).

Definition FincommGetBufferOffset (Buffer : ptr) : M arena_handle Z :=
  check_handle;;
  h ← get_state;
  let StartOfArena := u64 (Arena h + ARENA_CONTROL_AREA_SIZE) in
  let EndOfArena := u64 (StartOfArena + Size (info h) * u64 (Count (info h) - 1)) in
  c_assert ((StartOfArena <=? Buffer) && (Buffer <=? EndOfArena));;
  mret (u64 (Buffer - StartOfArena)).

(** The loop recomputes both bitmaps and asserts that they differ. *)
Definition free_loop (index : Z) : M arena_handle unit :=
  h ← get_state;
  let old_bitmap := AllocationBitmap (info h) in
  let new_bitmap := Z.land (wnot 64 (make_mask64 index)) old_bitmap in
  c_assert (negb (old_bitmap =? new_bitmap));;
  ok ← cas_bitmap old_bitmap new_bitmap;
  if (ok : bool) then mret () else mthrow OutOfFuel.

Definition FincommFreeBuffer (Buffer : ptr) : M arena_handle unit :=
  check_handle;;
  h ← get_state;
  offset ← FincommGetBufferOffset Buffer;
  c_assert (u64 (Arena h + ARENA_CONTROL_AREA_SIZE + offset) =? Buffer);;
  offset ← FincommGetBufferOffset Buffer;
  (if Size (info h) =? 0 then mthrow Undefined else mret ());;
  let index := offset / Size (info h) in
  c_assert (u64 (Arena h + ARENA_CONTROL_AREA_SIZE + index * Size (info h)) =? Buffer);;
  shift_ok index;;
  c_assert (negb (Z.land (make_mask64 index) (AllocationBitmap (info h)) =? 0));;
  free_loop index.

(** The bytes copied to [Name] and the two sizes. *)
Definition FincommGetArenaInfo (NameSize : Z) : M arena_handle (string * Z * Z) :=
  check_handle;;
  h ← get_state;
  let len := Z.of_nat (String.length (Name (info h))) in
  let NameSize := if len <=? NameSize then len + 1 else NameSize in
  mret (String.substring 0 (Z.to_nat NameSize) (Name (info h)), Size (info h), Count (info h)).

(** * The invariant *)

Definition buffer_addr (h : arena_handle) (i : Z) : ptr :=
  Arena h + ARENA_CONTROL_AREA_SIZE + i * Size (info h).

Definition arena_size (h : arena_handle) : Z :=
  ARENA_CONTROL_AREA_SIZE + Size (info h) * Count (info h).

Record arena_ok (h : arena_handle) : Prop := {
  ao_signature : Signature h = ArenaSignature;
  ao_mapped : 0 < Arena h /\ Arena h + arena_size h < 2 ^ 64;
  ao_fd : 0 <= FileDescriptor h;
  ao_size : 0 < Size (info h);
  ao_count : 1 <= Count (info h) <= 64;
  ao_offset : Offset (info h) = ARENA_CONTROL_AREA_SIZE;
  ao_last : 0 <= LastAllocated (info h) < Count (info h);
  ao_word : in_word 64 (AllocationBitmap (info h));
  ao_bits : forall i, Count (info h) <= i < 64 -> Z.testbit (AllocationBitmap (info h)) i = false }.

Definition live (h : arena_handle) (i : Z) : Prop :=
  0 <= i < Count (info h) /\ Z.testbit (AllocationBitmap (info h)) i = true.

Lemma check_handle_run h : arena_ok h -> check_handle h = Done (tt, h).
Proof.
  intros []. unfold check_handle. rewrite get_state_bind.
  rewrite c_assert_bind by (by apply bool_decide_eq_true_2).
  rewrite c_assert_bind by (unfold NULL; by destruct (Z.eqb_spec (Arena h) 0); [lia|]).
  apply c_assert_true. by apply Z.leb_le.
Qed.

Lemma cas_bitmap_run new h :
  cas_bitmap (AllocationBitmap (info h)) new h = Done (true, with_info (set_bitmap new) h).
Proof. unfold cas_bitmap. rewrite get_state_bind. by rewrite Z.eqb_refl. Qed.

Lemma next_index_spec h i :
  1 <= Count (info h) <= 64 -> 0 <= i < Count (info h) ->
  u32 (u32 (i + 1) mod Count (info h)) = (i + 1) mod Count (info h) /\
  0 <= (i + 1) mod Count (info h) < Count (info h).
Proof.
  intros Hc Hi. rewrite (wrap_small 32 (i + 1)) by lia.
  pose proof (Z.mod_pos_bound (i + 1) (Count (info h)) ltac:(lia)).
  rewrite wrap_small by lia. done.
Qed.

(** The buffers visited from [index]: the [k]-th is [(index + k) mod Count]. *)
Lemma allocate_loop_finds fuel h index k :
  arena_ok h -> 0 <= index < Count (info h) -> 1 <= k <= Z.of_nat fuel ->
  Z.testbit (AllocationBitmap (info h)) ((index + k) mod Count (info h)) = false ->
  exists i, 0 <= i < Count (info h) /\ Z.testbit (AllocationBitmap (info h)) i = false /\
    allocate_loop fuel index h =
      Done (buffer_addr h i, with_info (set_last i) (with_info (set_bitmap (set_bit64 (AllocationBitmap (info h)) i)) h)).
Proof.
  intros H. pose proof H as []. revert index k. induction fuel as [|fuel IH]; intros index k Hi Hk Hb; [lia|].
  cbn [allocate_loop]. rewrite get_state_bind.
  destruct (next_index_spec h index) as [-> Hn]; [done|done|].
  set (n := (index + 1) mod Count (info h)) in *.
  destruct (Z.eqb_spec (wnot 64 0) (AllocationBitmap (info h))) as [E|_].
  { exfalso. rewrite <- E in Hb.
    pose proof (Z.mod_pos_bound (index + k) (Count (info h)) ltac:(lia)).
    unfold wnot in Hb. rewrite wrap_spec, Z.lnot_spec, Z.testbit_0_l in Hb by lia.
    destruct (Z.ltb_spec ((index + k) mod Count (info h)) 64); [done|lia]. }
  unfold shift_ok. destruct (Z.ltb_spec n 64); [|lia]. rewrite mret_bind.
  fold (set_bit64 (AllocationBitmap (info h)) n). rewrite set_bit64_same by (done || lia).
  destruct (Z.testbit (AllocationBitmap (info h)) n) eqn:T.
  - destruct (decide (k = 1)) as [->|].
    { exfalso. fold n in Hb. congruence. }
    apply (IH n (k - 1)); [done|lia|]. unfold n.
    rewrite Z.add_mod_idemp_l by lia. by replace (index + 1 + (k - 1)) with (index + k) by lia.
  - exists n. split; [done|]. split; [done|].
    run_step ltac:(apply cas_bitmap_run). cbv iota. rewrite modify_bind. unfold mret, M_ret.
    f_equal. f_equal. rewrite ao_offset0. unfold buffer_addr. apply wrap_small.
    unfold arena_size, ARENA_CONTROL_AREA_SIZE in *. nia.
Qed.

Lemma arena_ok_bitmap h b l :
  arena_ok h -> in_word 64 b -> (forall i, Count (info h) <= i < 64 -> Z.testbit b i = false) ->
  0 <= l < Count (info h) -> arena_ok (with_info (set_last l) (with_info (set_bitmap b) h)).
Proof. intros [] Hb Hbits Hl. constructor; done. Qed.

(** ** Allocation *)

Lemma allocate_free_exists h :
  arena_ok h -> (exists j, 0 <= j < Count (info h) /\ ~ live h j) ->
  exists i h', FincommAllocateBuffer 64 h = Done (buffer_addr h i, h') /\ arena_ok h' /\
    0 <= i < Count (info h) /\ ~ live h i /\
    (forall j, live h' j <-> j = i \/ live h j) /\
    Arena h' = Arena h /\ Size (info h') = Size (info h) /\ Count (info h') = Count (info h).
Proof.
  intros H (j & Hj & Hnl). pose proof H as [].
  assert (Z.testbit (AllocationBitmap (info h)) j = false) as Hb.
  { destruct (Z.testbit _ j) eqn:T; [|done]. by destruct Hnl. }
  set (k := (j - LastAllocated (info h) - 1) mod Count (info h) + 1).
  pose proof (Z.mod_pos_bound (j - LastAllocated (info h) - 1) (Count (info h)) ltac:(lia)) as Hm.
  destruct (allocate_loop_finds 64 h (LastAllocated (info h)) k) as (i & Hi & Hbi & Hr);
    [done|lia|lia| |].
  { replace ((LastAllocated (info h) + k) mod Count (info h)) with j; [done|].
    unfold k. rewrite Z.add_assoc, Z.add_shuffle0, Z.add_mod_idemp_r by lia.
    replace (LastAllocated (info h) + 1 + (j - LastAllocated (info h) - 1)) with j by lia.
    by rewrite Z.mod_small by lia. }
  eexists i, _. split.
  { unfold FincommAllocateBuffer. run_step ltac:(by apply check_handle_run).
    rewrite get_state_bind. exact Hr. }
  split; [|split; [done|split; [|split; [|done]]]].
  - apply arena_ok_bitmap; [done|by apply in_word_set_bit64| |lia].
    intros x Hx. rewrite set_bit64_spec by lia. destruct (Z.eqb_spec x i); [lia|]. by apply ao_bits0.
  - intros [_ C]. congruence.
  - intros x. unfold live. cbn. split.
    + intros [Hx T]. rewrite set_bit64_spec in T by lia. destruct (Z.eqb_spec x i); auto.
    + intros [->|[Hx T]]; rewrite set_bit64_spec by lia.
      * by rewrite Z.eqb_refl.
      * rewrite T. by rewrite orb_true_r.
Qed.

(** With every buffer taken, the loop visits taken buffers for ever, unless
    the bitmap is full. *)
Lemma allocate_loop_full fuel h index :
  arena_ok h -> 0 <= index < Count (info h) -> (forall j, 0 <= j < Count (info h) -> live h j) ->
  allocate_loop fuel index h =
    if decide (Count (info h) = 64 /\ fuel <> O) then Done (NULL, h) else Fail OutOfFuel.
Proof.
  intros H Hi Hl. pose proof H as []. revert index Hi.
  induction fuel as [|fuel IH]; intros index Hi; cbn [allocate_loop].
  - rewrite decide_False by (by intros [_ ?]). done.
  - rewrite get_state_bind. destruct (Z.eqb_spec (wnot 64 0) (AllocationBitmap (info h))) as [E|E].
    + assert (Count (info h) = 64) as C.
      { destruct (Z.lt_ge_cases (Count (info h)) 64) as [Hlt|]; [|lia]. exfalso.
        pose proof (ao_bits0 63 ltac:(lia)) as B. by rewrite <- E in B. }
      by rewrite decide_True.
    + assert (Count (info h) <> 64) as C.
      { intros C. apply E. symmetry. apply full_bitmap; [done|]. intros i Hi'. apply Hl. lia. }
      destruct (next_index_spec h index) as [-> Hn]; [done|done|].
      unfold shift_ok. destruct (Z.ltb_spec ((index + 1) mod Count (info h)) 64); [|lia]. rewrite mret_bind.
      fold (set_bit64 (AllocationBitmap (info h)) ((index + 1) mod Count (info h))).
      rewrite set_bit64_same by (done || lia). destruct (Hl _ Hn) as [_ ->].
      rewrite IH by done. by repeat (rewrite decide_False by (intros [? _]; done)).
Qed.

(** Allocation, completely: with a free buffer it hands out one that was
    free and changes nothing else; with none it returns NULL when the arena
    has 64 buffers, and does not return at all, whatever the fuel, when it
    has fewer, since the loop waits for the bits beyond the last buffer. *)
Theorem FincommAllocateBuffer_spec h :
  arena_ok h ->
  ((exists j, 0 <= j < Count (info h) /\ ~ live h j) ->
     exists i h', FincommAllocateBuffer 64 h = Done (buffer_addr h i, h') /\ arena_ok h' /\
       0 <= i < Count (info h) /\ ~ live h i /\ (forall j, live h' j <-> j = i \/ live h j)) /\
  ((forall j, 0 <= j < Count (info h) -> live h j) -> Count (info h) = 64 ->
     FincommAllocateBuffer 64 h = Done (NULL, h)) /\
  ((forall j, 0 <= j < Count (info h) -> live h j) -> Count (info h) < 64 ->
     forall fuel, FincommAllocateBuffer fuel h = Fail OutOfFuel).
Proof.
  intros H. split; [|split].
  - intros He. destruct (allocate_free_exists h H He) as (i & h' & ? & ? & ? & ? & ? & _). eauto 10.
  - intros Hl Hc. unfold FincommAllocateBuffer. run_step ltac:(by apply check_handle_run).
    rewrite get_state_bind, allocate_loop_full by (apply H || done).
    by rewrite decide_True.
  - intros Hl Hc fuel. unfold FincommAllocateBuffer. run_step ltac:(by apply check_handle_run).
    rewrite get_state_bind, allocate_loop_full by (apply H || done).
    rewrite decide_False by (intros [? _]; lia). done.
Qed.

(** ** Freeing *)

Lemma buffer_addr_range h i :
  arena_ok h -> 0 <= i < Count (info h) ->
  Arena h + ARENA_CONTROL_AREA_SIZE <= buffer_addr h i /\
  buffer_addr h i + Size (info h) <= Arena h + arena_size h.
Proof. intros [] Hi. unfold buffer_addr, arena_size, ARENA_CONTROL_AREA_SIZE. nia. Qed.

Lemma buffer_offset_run h i :
  arena_ok h -> 0 <= i < Count (info h) ->
  FincommGetBufferOffset (buffer_addr h i) h = Done (i * Size (info h), h).
Proof.
  intros H Hi. pose proof (buffer_addr_range h i H Hi) as R. pose proof H as [].
  assert (buffer_addr h i <= Arena h + ARENA_CONTROL_AREA_SIZE + Size (info h) * (Count (info h) - 1)) as U
    by (unfold buffer_addr; nia).
  unfold FincommGetBufferOffset. run_step ltac:(by apply check_handle_run). rewrite get_state_bind.
  unfold arena_size, ARENA_CONTROL_AREA_SIZE in *.
  rewrite (wrap_small 64 (Arena h + 4096)), (wrap_small 64 (Count (info h) - 1)) by nia.
  rewrite (wrap_small 64 (Arena h + 4096 + Size (info h) * (Count (info h) - 1))) by nia.
  rewrite c_assert_bind by lia. unfold mret, M_ret. f_equal. f_equal.
  unfold buffer_addr, ARENA_CONTROL_AREA_SIZE in *. rewrite wrap_small by nia. lia.
Qed.

Lemma clear_bit64_comm b i : Z.land (wnot 64 (make_mask64 i)) b = clear_bit64 b i.
Proof. apply Z.land_comm. Qed.

Lemma free_run h i :
  arena_ok h -> live h i ->
  exists h', FincommFreeBuffer (buffer_addr h i) h = Done (tt, h') /\
    h' = with_info (set_bitmap (clear_bit64 (AllocationBitmap (info h)) i)) h.
Proof.
  intros H [Hi T]. pose proof (buffer_addr_range h i H Hi) as R. pose proof H as [].
  unfold FincommFreeBuffer. run_step ltac:(by apply check_handle_run). rewrite get_state_bind.
  run_step ltac:(by apply buffer_offset_run).
  unfold arena_size in *. fold (buffer_addr h i). rewrite (wrap_small 64 (buffer_addr h i)).
  2:{ pose proof ao_mapped0. unfold ARENA_CONTROL_AREA_SIZE in *. lia. }
  rewrite c_assert_bind by apply Z.eqb_refl.
  run_step ltac:(by apply buffer_offset_run).
  destruct (Z.eqb_spec (Size (info h)) 0); [lia|]. rewrite mret_bind.
  rewrite Z.div_mul by lia. cbv zeta. fold (buffer_addr h i). rewrite (wrap_small 64 (buffer_addr h i)).
  2:{ pose proof ao_mapped0. unfold ARENA_CONTROL_AREA_SIZE in *. lia. }
  rewrite c_assert_bind by apply Z.eqb_refl.
  unfold shift_ok. destruct (Z.ltb_spec i 64); [|lia]. rewrite mret_bind.
  rewrite Z.land_comm, land_mask_zero, T by (done || lia). rewrite c_assert_bind by done.
  unfold free_loop. rewrite get_state_bind. cbv zeta. rewrite clear_bit64_comm.
  rewrite c_assert_bind by (by rewrite clear_bit64_same, T by (done || lia)).
  eexists. split; [|reflexivity]. by run_step ltac:(apply cas_bitmap_run).
Qed.

Lemma arena_ok_clear h i :
  arena_ok h -> 0 <= i < Count (info h) ->
  arena_ok (with_info (set_bitmap (clear_bit64 (AllocationBitmap (info h)) i)) h).
Proof.
  intros [] Hi. constructor; try done; cbn.
  - by apply in_word_clear_bit64.
  - intros j Hj. rewrite clear_bit64_spec by lia. rewrite ao_bits0 by done. apply andb_false_r.
Qed.

Lemma live_or_free h :
  (forall j, 0 <= j < Count (info h) -> live h j) \/ (exists j, 0 <= j < Count (info h) /\ ~ live h j).
Proof.
  destruct (decide (Forall (fun j => Z.testbit (AllocationBitmap (info h)) j = true)
    (seqZ 0 (Count (info h))))) as [F|F].
  - left. intros j Hj. split; [done|]. eapply Forall_forall in F; [exact F|]. apply elem_of_seqZ. lia.
  - right. apply not_Forall_Exists in F; [|intros ?; apply _].
    apply Exists_exists in F as (j & Hj%elem_of_seqZ & B). exists j. split; [lia|]. by intros [_ ?].
Qed.

(** Taking back the bit that an allocation set. *)
Lemma clear_allocated h h1 i :
  arena_ok h -> arena_ok h1 -> 0 <= i < Count (info h) -> ~ live h i ->
  (forall j, live h1 j <-> j = i \/ live h j) -> Count (info h1) = Count (info h) ->
  clear_bit64 (AllocationBitmap (info h1)) i = AllocationBitmap (info h).
Proof.
  intros H H1 Hi Hnl Hl HC. pose proof (ao_count _ H).
  apply bitmap_ext; [apply in_word_clear_bit64, H1|apply H|]. intros j Hj.
  rewrite clear_bit64_spec by (done || lia).
  destruct (Z.lt_ge_cases j (Count (info h))) as [Hjc|Hjc].
  2:{ rewrite (ao_bits _ H1), (ao_bits _ H) by lia. apply andb_false_r. }
  destruct (Z.eqb_spec j i) as [->|Hne]; simpl.
  - symmetry. destruct (Z.testbit _ i) eqn:B; [by destruct Hnl|done].
  - apply eq_true_iff_eq. split; intros B.
    + assert (live h1 j) as L by (split; [lia|done]). by apply Hl in L as [->|[_ ?]].
    + assert (live h j) as L by (split; [lia|done]). by destruct (proj2 (Hl j) (or_intror L)).
Qed.

(** Two different buffers of an arena never overlap, and all of them lie in
    the mapping, after the control page: what one owner writes into its
    buffer reaches neither another buffer nor the bitmap. *)
Theorem buffers_disjoint h i j :
  arena_ok h -> 0 <= i < Count (info h) -> 0 <= j < Count (info h) ->
  (i <> j -> buffer_addr h i + Size (info h) <= buffer_addr h j \/
             buffer_addr h j + Size (info h) <= buffer_addr h i) /\
  Arena h + ARENA_CONTROL_AREA_SIZE <= buffer_addr h i /\
  buffer_addr h i + Size (info h) <= Arena h + arena_size h.
Proof.
  intros H Hi Hj. split; [|by apply buffer_addr_range]. pose proof H as [].
  intros Hne. unfold buffer_addr. assert (i < j \/ j < i) as [|] by lia; nia.
Qed.

(** C31: Freeing a live buffer ends it and no other; freeing what an allocation
    just returned leaves the bitmap as it was before the allocation. *)
Theorem free_undoes_allocate h :
  arena_ok h ->
  (forall i, live h i -> exists h', FincommFreeBuffer (buffer_addr h i) h = Done (tt, h') /\ arena_ok h' /\
     forall j, live h' j <-> j <> i /\ live h j) /\
  (forall p h', FincommAllocateBuffer 64 h = Done (p, h') -> p <> NULL ->
     exists h'', FincommFreeBuffer p h' = Done (tt, h'') /\ arena_ok h'' /\
       AllocationBitmap (info h'') = AllocationBitmap (info h)).
Proof.
  intros H. pose proof H as []. split.
  - intros i Hl. destruct (free_run h i H Hl) as (h' & Hr & ->). destruct Hl as [Hi T].
    eexists. split; [exact Hr|]. split; [by apply arena_ok_clear|].
    intros j. unfold live. cbn. split.
    + intros [Hj B]. rewrite clear_bit64_spec in B by lia. destruct (Z.eqb_spec j i); [done|]. auto.
    + intros (Hne & Hj & B). rewrite clear_bit64_spec by lia.
      destruct (Z.eqb_spec j i); [done|]. auto.
  - intros p h' Ha Hp. destruct (live_or_free h) as [Hfull|He].
    { exfalso. unfold FincommAllocateBuffer in Ha.
      erewrite M_bind_done in Ha by (by apply check_handle_run).
      rewrite get_state_bind, allocate_loop_full in Ha by done. case_decide; congruence. }
    destruct (allocate_free_exists h H He) as (i & h1 & Hr & Hok & Hi & Hnl & Hl & HA & HS & HC).
    rewrite Ha in Hr. injection Hr as -> ->.
    replace (buffer_addr h i) with (buffer_addr h1 i) by (unfold buffer_addr; by rewrite HA, HS).
    destruct (free_run h1 i Hok ltac:(apply Hl; auto)) as (h2 & Hr2 & ->).
    eexists. split; [exact Hr2|]. split; [apply arena_ok_clear; [done|lia]|]. by apply clear_allocated.
Qed.

(** A new arena of five buffers. *)
Definition example_arena : arena_handle :=
  {| Signature := ArenaSignature; Arena := 0x20000;
     info := {| info_Signature := ArenaSignature; Name := "arena"; Size := 100; Count := 5;
                Offset := ARENA_CONTROL_AREA_SIZE; AllocationBitmap := 0; LastAllocated := 4 |};
     FileDescriptor := 7 |}.

Lemma example_arena_ok : arena_ok example_arena.
Proof. constructor; cbn; try (done || lia). intros i _. apply Z.testbit_0_l. Qed.

(** Creation gives an arena that satisfies the invariant. *)
Theorem FincommCreateArena_ok name size count fd addr :
  (String.length name < 1024)%nat -> 0 <= size -> 0 <= count <= 64 -> 0 <= fd ->
  0 < addr -> addr + 4096 + (if size =? 0 then 67108864 else size) * 64 < 2 ^ 64 ->
  exists h, FincommCreateArena name size count fd addr None = Done h /\ arena_ok h /\
    (forall i, ~ live h i).
Proof.
  intros Hn Hs Hc Hfd Ha Hb. unfold FincommCreateArena. change (64 * 1024 * 1024) with 67108864.
  set (S_ := if size =? 0 then 67108864 else size) in *.
  set (C_ := if count =? 0 then 64 else count).
  assert (0 < S_) by (unfold S_; destruct (Z.eqb_spec size 0); lia).
  assert (1 <= C_ <= 64) by (unfold C_; destruct (Z.eqb_spec count 0); lia).
  unfold ARENA_CONTROL_AREA_SIZE. rewrite (wrap_small 64 (S_ * C_)) by nia.
  rewrite (wrap_small 64 (4096 + S_ * C_)), (wrap_small 32 (C_ - 1)) by nia.
  unfold c_assert; cbn [info_Signature Name Size Count Offset].
  destruct (Z.ltb_spec 4096 (4096 + S_ * C_)); [|nia].
  destruct (Z.leb_spec C_ 64); [|lia]. destruct (Z.ltb_spec (Z.of_nat (String.length name)) 1024); [|lia].
  destruct (Z.leb_spec 0 fd); [|lia]. rewrite !bool_decide_true, !Z.eqb_refl by done. cbn.
  eexists. split; [reflexivity|]. split.
  - constructor; cbn; try (done || lia).
    + unfold arena_size, ARENA_CONTROL_AREA_SIZE. cbn. nia.
    + intros i _. apply Z.testbit_0_l.
  - intros i [_ B]. cbn in B. by rewrite Z.testbit_0_l in B.
Qed.

Lemma FincommCreateArena_ok_witness :
  exists h, FincommCreateArena "arena" 0 0 3 0x7f0000000000 None = Done h /\ arena_ok h /\ (forall i, ~ live h i).
Proof. apply FincommCreateArena_ok; cbn; lia. Defined.

Lemma FincommAllocateBuffer_spec_witness :
  exists i h', FincommAllocateBuffer 64 example_arena = Done (buffer_addr example_arena i, h') /\ arena_ok h' /\
    0 <= i < 5 /\ ~ live example_arena i /\ (forall j, live h' j <-> j = i \/ live example_arena j).
Proof.
  apply (FincommAllocateBuffer_spec example_arena example_arena_ok).
  exists 0. split; [cbn; lia|]. intros [_ B]. cbn in B. discriminate B.
Defined.

Lemma buffers_disjoint_witness :
  buffer_addr example_arena 1 + 100 <= buffer_addr example_arena 2 \/
  buffer_addr example_arena 2 + 100 <= buffer_addr example_arena 1.
Proof. apply (buffers_disjoint example_arena 1 2 example_arena_ok); cbn; lia. Defined.

Definition example_arena_2 : arena_handle :=
  with_info (set_last 2) (with_info (set_bitmap 6) example_arena).

Lemma free_undoes_allocate_witness :
  exists h', FincommFreeBuffer (buffer_addr example_arena_2 1) example_arena_2 = Done (tt, h') /\ arena_ok h' /\
    forall j, live h' j <-> j <> 1 /\ live example_arena_2 j.
Proof.
  apply (free_undoes_allocate example_arena_2).
  - constructor; cbn; try (done || lia). intros i Hi.
    assert (in_word 3 6) as W by done. apply (word_high 3); [done|lia].
  - split; [cbn; lia|reflexivity].
Defined.
