(* ===== verification/Object.v ===== *)
(** Reference counted objects: src/finesse/bitbucket/object.c.

    An object counts its references twice: in total, and for each reason a
    reference is held for.  Here one thread runs each operation to its end;
    ObjectThreads.v interleaves the atomic steps of several.

    The callbacks of the component that registers an object are reduced to
    what object.c relies on: which lock [Lock] and [Unlock] take (lock 0 is
    the global [DefaultObjectLock]) and whether [Deallocate] releases it, as
    bitbucketdata.h says it should ("the lock is assumed to be released upon
    return").  The address of a new object is what [malloc] returns.

    Results: an object is a multiset of reasons and lives exactly as long as
    the multiset is not empty; the default attributes never release the lock
    of a deleted object; the copy of the reason counts copies the wrong
    number of them. *)

From stdpp Require Import gmap list strings.
From S2P Require Import Prelude.

Open Scope word_scope.

Definition BITBUCKET_MAX_REFERENCE_REASONS : Z := 12.
Definition BITBUCKET_MAX_REFERENCE_REASON_NAME_LENGTH : Z := 32.
Definition BITBUCKET_OBJECT_HEADER_MAGIC : Z := 0xc24e22f696a3861d.
Definition BITBUCKET_OBJECT_ATTRIBUTES_MAGIC : Z := 0x1b126261e6db52cd.

(** bitbucket_object_attributes_t.  [Lock] stands for the callbacks Lock and
    Unlock, which are registered together: the lock they take and release, or
    no callbacks. *)
Record object_attributes := {
  attr_Magic : Z;
  ReasonCount : Z;
  ReferenceReasonsNames : list string;
  Lock : option Z;
  deallocate_unlocks : bool }.

(** bitbucket_object_header_t *)
Record object := {
  Magic : Z;
  ObjectAttributes : object_attributes;
  ReferenceCount : Z;
  ReferenceReasons : list Z;
  DataLength : Z }.

(** The reader-writer locks this thread holds. *)
Inductive lock_state : Type := Shared (n : nat) | Exclusive.

Record store := {
  objects : gmap Z object;
  ObjectCount : Z;
  locks : gmap Z lock_state }.

Definition DefaultObjectLock : Z := 0.

Definition default_object_attributes : object_attributes :=
  {| attr_Magic := BITBUCKET_OBJECT_ATTRIBUTES_MAGIC;
     ReasonCount := BITBUCKET_MAX_REFERENCE_REASONS;
     ReferenceReasonsNames :=
       ["ObjectReason0"; "ObjectReason1"; "ObjectReason2"; "ObjectReason3"; "ObjectReason4";
        "ObjectReason5"; "ObjectReason6"; "ObjectReason7"; ""; ""; ""; ""]%string;
     Lock := Some DefaultObjectLock;
     deallocate_unlocks := false |}.

Definition load_object (p : ptr) : M store object := s ← get_state; deref (objects s !! p).

Definition set_objects (f : gmap Z object -> gmap Z object) : M store unit :=
  modify_state (fun s => {| objects := f (objects s); ObjectCount := ObjectCount s; locks := locks s |}).
Definition set_ObjectCount (f : Z -> Z) : M store unit :=
  modify_state (fun s => {| objects := objects s; ObjectCount := u64 (f (ObjectCount s)); locks := locks s |}).
Definition set_locks (f : gmap Z lock_state -> gmap Z lock_state) : M store unit :=
  modify_state (fun s => {| objects := objects s; ObjectCount := ObjectCount s; locks := f (locks s) |}).

Definition with_counts (c : Z) (rs : list Z) (o : object) : object :=
  {| Magic := Magic o; ObjectAttributes := ObjectAttributes o; ReferenceCount := c;
     ReferenceReasons := rs; DataLength := DataLength o |}.

Definition CHECK_MAGIC (o : object) : M store unit := c_assert (Magic o =? BITBUCKET_OBJECT_HEADER_MAGIC).

(** A thread that asks for a lock it already holds in a conflicting mode
    does not go on. *)
Definition acquire (l : Z) (exclusive : bool) : M store unit :=
  s ← get_state;
  match locks s !! l, exclusive with
  | None, true => set_locks (<[l := Exclusive]>)
  | None, false => set_locks (<[l := Shared 0]>)
  | Some (Shared n), false => set_locks (<[l := Shared (S n)]>)
  | Some _, _ => mthrow Deadlock
  end.

(** The lock that LockObject and UnlockObject use. *)
Definition lock_id (a : object_attributes) : Z :=
  match Lock a with
  | None => DefaultObjectLock
  | Some l => l
  end.

Definition LockObject (o : object) (exclusive : bool) : M store unit :=
  CHECK_MAGIC o;; acquire (lock_id (ObjectAttributes o)) exclusive.

Definition release (l : Z) : M store unit :=
  s ← get_state;
  match locks s !! l with
  | None => mthrow AssertFailed
  | Some (Shared (S n)) => set_locks (<[l := Shared n]>)
  | Some _ => set_locks (delete l)
  end.

Definition UnlockObject (o : object) : M store unit :=
  CHECK_MAGIC o;; release (lock_id (ObjectAttributes o)).

(** [__atomic_fetch_add] and [__atomic_fetch_sub] on the two counters *)
Definition add_count (p : ptr) (d : Z) : M store Z :=
  o ← load_object p;
  set_objects (<[p := with_counts (u64 (ReferenceCount o + d)) (ReferenceReasons o) o]>);;
  mret (ReferenceCount o).

Definition add_reason (p : ptr) (reason d : Z) : M store Z :=
  o ← load_object p;
  r ← deref (ReferenceReasons o !! Z.to_nat reason);
  set_objects (<[p := with_counts (ReferenceCount o)
                       (<[Z.to_nat reason := u32 (r + d)]> (ReferenceReasons o)) o]>);;
  mret r.

Definition BitbucketObjectCreate (attributes : option object_attributes) (ObjectSize InitialReason : Z)
    (newobj : ptr) : M store ptr :=
  let a := default default_object_attributes attributes in
  c_assert (attr_Magic a =? BITBUCKET_OBJECT_ATTRIBUTES_MAGIC);;
  c_assert (ReasonCount a <=? BITBUCKET_MAX_REFERENCE_REASONS);;
  c_assert (forallb (fun n => Z.of_nat (String.length n) <=? BITBUCKET_MAX_REFERENCE_REASON_NAME_LENGTH)
              (take (Z.to_nat (ReasonCount a)) (ReferenceReasonsNames a)));;
  c_assert (InitialReason <? ReasonCount a);;
  (if newobj =? NULL then mthrow BadPointer else mret ());;
  set_objects (<[newobj :=
    {| Magic := BITBUCKET_OBJECT_HEADER_MAGIC; ObjectAttributes := a; ReferenceCount := 1;
       ReferenceReasons := <[Z.to_nat InitialReason := 1]> (replicate (Z.to_nat BITBUCKET_MAX_REFERENCE_REASONS) 0);
       DataLength := ObjectSize |}]>);;
  set_ObjectCount (fun n => n + 1);;
  mret newobj.

Definition BitbucketObjectReference (p : ptr) (reason : Z) : M store unit :=
  o ← load_object p;
  c_assert (reason <? ReasonCount (ObjectAttributes o));;
  LockObject o false;;
  refcount ← add_count p 1;
  reasonRefCount ← add_reason p reason 1;
  UnlockObject o;;
  c_assert (negb (refcount =? 0));;
  c_assert (reasonRefCount <=? refcount).

(** BitbucketObjectDereference up to where it decides whether to try again
    with the exclusive lock, then up to where it decides whether to delete
    the object, then the deletion. *)
Definition dereference_shared (p : ptr) (reason bias : Z) : M store bool :=
  o ← load_object p;
  CHECK_MAGIC o;;
  c_assert (reason <? ReasonCount (ObjectAttributes o));;
  c_assert (bias <=? ReferenceCount o);;
  r ← deref (ReferenceReasons o !! Z.to_nat reason);
  c_assert (bias <=? r);;
  LockObject o false;;
  refcount ← add_count p (- bias);
  (if bias =? refcount then add_count p bias;; mret ()
   else reasonRefCount ← add_reason p reason (- bias); c_assert (bias <=? reasonRefCount));;
  UnlockObject o;;
  mret (bias =? refcount).

Definition dereference_exclusive (p : ptr) (reason bias : Z) : M store bool :=
  o ← load_object p;
  LockObject o true;;
  refcount ← add_count p (- bias);
  c_assert (bias <=? refcount);;
  reasonRefCount ← add_reason p reason (- bias);
  c_assert (bias <=? reasonRefCount);;
  mret (bias =? refcount).

Definition free_object (p : ptr) : M store unit :=
  _ ← load_object p;
  set_objects (delete p);;
  set_ObjectCount (fun n => n - 1).

(** The whole function, in the state [W] of the component that registered
    the object, with its [Deallocate] callback. *)
Definition object_dereference {W : Type} (lift : forall A, M store A -> M W A) (Deallocate : ptr -> M W unit)
    (p : ptr) (reason bias : Z) : M W unit :=
  again ← lift bool (dereference_shared p reason bias);
  if (again : bool) then
    last ← lift bool (dereference_exclusive p reason bias);
    if (last : bool) then Deallocate p;; lift unit (free_object p) else mret ()
  else mret ().

(** A [Deallocate] that does nothing but, perhaps, release the lock. *)
Definition plain_deallocate (p : ptr) : M store unit :=
  o ← load_object p;
  if deallocate_unlocks (ObjectAttributes o) then release (lock_id (ObjectAttributes o)) else mret ().

Definition BitbucketObjectDereference (p : ptr) (reason bias : Z) : M store unit :=
  object_dereference (fun A m => m) plain_deallocate p reason bias.

Definition BitbucketObjectCount : M store Z := gets ObjectCount.

Definition BitbucketGetObjectReferenceCount (p : ptr) : M store Z :=
  c_assert (negb (p =? NULL));; o ← load_object p; CHECK_MAGIC o;; mret (ReferenceCount o).

Definition BitbucketGetObjectReasonReferenceCount (p : ptr) (reason : Z) : M store Z :=
  c_assert (negb (p =? NULL));; o ← load_object p; CHECK_MAGIC o;;
  c_assert (reason <? BITBUCKET_MAX_REFERENCE_REASONS);;
  deref (ReferenceReasons o !! Z.to_nat reason).

(** The counts copied to [Counts], which has room for [CountEntries]: the
    length of the copy is the reference count of the object. *)
Definition BitbucketGetObjectReasonReferenceCounts (p : ptr) (CountEntries : Z) : M store (list Z) :=
  c_assert (negb (p =? NULL));; o ← load_object p; CHECK_MAGIC o;;
  c_assert (CountEntries <=? BITBUCKET_MAX_REFERENCE_REASONS);;
  if (ReferenceCount o <=? CountEntries) && (ReferenceCount o <=? BITBUCKET_MAX_REFERENCE_REASONS)
  then mret (take (Z.to_nat (ReferenceCount o)) (ReferenceReasons o))
  else mthrow Undefined.

Definition BitbucketGetObjectReasonName (p : ptr) (reason : Z) : M store string :=
  c_assert (negb (p =? NULL));; o ← load_object p; CHECK_MAGIC o;;
  c_assert (reason <? ReasonCount (ObjectAttributes o));;
  deref (ReferenceReasonsNames (ObjectAttributes o) !! Z.to_nat reason).

(** * Objects as multisets of reasons *)

Definition sum (l : list Z) : Z := foldr Z.add 0 l.

Record object_ok (o : object) : Prop := {
  ob_magic : Magic o = BITBUCKET_OBJECT_HEADER_MAGIC;
  ob_attr : 0 <= ReasonCount (ObjectAttributes o) <= BITBUCKET_MAX_REFERENCE_REASONS;
  ob_length : length (ReferenceReasons o) = 12%nat;
  ob_reasons : Forall (fun r => 0 <= r) (ReferenceReasons o);
  ob_sum : ReferenceCount o = sum (ReferenceReasons o);
  ob_bound : 0 < ReferenceCount o < 2 ^ 32 }.

Record counted (s : store) : Prop := {
  st_objects : forall p o, objects s !! p = Some o -> p <> NULL /\ object_ok o;
  st_count : ObjectCount s = wrap 64 (Z.of_nat (size (objects s))) }.

(** No lock is held between operations. *)
Record store_ok (s : store) : Prop := {
  st_counted :> counted s;
  st_locks : locks s = ∅ }.

Lemma store_ok_unlocked s l : store_ok s -> locks s !! l = None.
Proof. intros [_ ->]. apply lookup_empty. Qed.

Lemma sum_insert l i x y : l !! i = Some y -> sum (<[i := x]> l) = sum l - y + x.
Proof.
  revert i. induction l as [|z l IH]; intros [|i] H; simplify_eq/=; [lia|]. rewrite (IH i); [lia|done].
Qed.

Lemma sum_nonneg l : Forall (fun r => 0 <= r) l -> 0 <= sum l.
Proof. induction 1; simpl; lia. Qed.

Lemma sum_ge l i y : Forall (fun r => 0 <= r) l -> l !! i = Some y -> 0 <= y <= sum l.
Proof.
  intros H. revert i. induction H as [|z l Hz Hl IH]; intros [|i] E; simplify_eq/=.
  - pose proof (sum_nonneg l Hl). lia.
  - specialize (IH i E). lia.
Qed.

(** The state that [add_count] and [add_reason] leave. *)
Definition put_object (p : ptr) (o : object) (s : store) : store :=
  {| objects := <[p := o]> (objects s); ObjectCount := ObjectCount s; locks := locks s |}.
Definition put_lock (l : Z) (k : lock_state) (s : store) : store :=
  {| objects := objects s; ObjectCount := ObjectCount s; locks := <[l := k]> (locks s) |}.

Lemma load_object_run p o s : objects s !! p = Some o -> load_object p s = Done (o, s).
Proof. intros H. unfold load_object. rewrite get_state_bind. by rewrite H. Qed.

Lemma add_count_run p d o s :
  objects s !! p = Some o ->
  add_count p d s = Done (ReferenceCount o, put_object p (with_counts (u64 (ReferenceCount o + d)) (ReferenceReasons o) o) s).
Proof. intros H. unfold add_count. by run_step ltac:(by apply load_object_run). Qed.

Lemma add_reason_run p reason d o r s :
  objects s !! p = Some o -> ReferenceReasons o !! Z.to_nat reason = Some r ->
  add_reason p reason d s = Done (r, put_object p (with_counts (ReferenceCount o)
     (<[Z.to_nat reason := u32 (r + d)]> (ReferenceReasons o)) o) s).
Proof. intros H Hr. unfold add_reason. run_step ltac:(by apply load_object_run). by rewrite Hr. Qed.

(** The lock is not held exclusively, and not held at all. *)
Definition readable (l : Z) (s : store) : Prop := locks s !! l <> Some Exclusive.

Lemma store_ok_readable s l : store_ok s -> readable l s.
Proof. intros H. unfold readable. by rewrite store_ok_unlocked. Qed.

Definition one_more_reader (k : option lock_state) : lock_state :=
  match k with Some (Shared n) => Shared (S n) | _ => Shared 0 end.

Lemma acquire_shared l s :
  readable l s -> acquire l false s = Done (tt, put_lock l (one_more_reader (locks s !! l)) s).
Proof. intros Hl. unfold acquire, readable in *. rewrite get_state_bind. by destruct (locks s !! _) as [[n|]|]. Qed.

Lemma acquire_exclusive l s : locks s !! l = None -> acquire l true s = Done (tt, put_lock l Exclusive s).
Proof. intros Hl. unfold acquire. by rewrite get_state_bind, Hl. Qed.

(** Releasing what was just locked. *)
Lemma release_shared l ob n (s : store) :
  readable l s ->
  release l {| objects := ob; ObjectCount := n; locks := <[l := one_more_reader (locks s !! l)]> (locks s) |}
  = Done (tt, {| objects := ob; ObjectCount := n; locks := locks s |}).
Proof.
  intros Hl. unfold release, readable in *. rewrite get_state_bind. cbn [locks]. rewrite lookup_insert_eq.
  destruct (locks s !! l) as [[k|]|] eqn:E; cbn; [|done|]; unfold set_locks, modify_state; cbn; do 3 f_equal.
  - rewrite insert_insert_eq. by apply insert_id.
  - by apply delete_insert_id.
Qed.

Lemma release_exclusive l ob n (s : store) :
  locks s !! l = None ->
  release l {| objects := ob; ObjectCount := n; locks := <[l := Exclusive]> (locks s) |}
  = Done (tt, {| objects := ob; ObjectCount := n; locks := locks s |}).
Proof.
  intros Hl. unfold release. rewrite get_state_bind. cbn [locks]. rewrite lookup_insert_eq.
  unfold set_locks, modify_state. cbn. do 3 f_equal. by apply delete_insert_id.
Qed.

Lemma LockObject_shared o s :
  Magic o = BITBUCKET_OBJECT_HEADER_MAGIC -> readable (lock_id (ObjectAttributes o)) s ->
  LockObject o false s = Done (tt, put_lock (lock_id (ObjectAttributes o))
    (one_more_reader (locks s !! lock_id (ObjectAttributes o))) s).
Proof.
  intros Hm Hl. unfold LockObject, CHECK_MAGIC. rewrite c_assert_bind by (by rewrite Hm). by apply acquire_shared.
Qed.

Lemma LockObject_exclusive o s :
  Magic o = BITBUCKET_OBJECT_HEADER_MAGIC -> locks s !! lock_id (ObjectAttributes o) = None ->
  LockObject o true s = Done (tt, put_lock (lock_id (ObjectAttributes o)) Exclusive s).
Proof.
  intros Hm Hl. unfold LockObject, CHECK_MAGIC. rewrite c_assert_bind by (by rewrite Hm). by apply acquire_exclusive.
Qed.

Lemma UnlockObject_shared o ob n (s : store) :
  Magic o = BITBUCKET_OBJECT_HEADER_MAGIC -> readable (lock_id (ObjectAttributes o)) s ->
  UnlockObject o {| objects := ob; ObjectCount := n;
      locks := <[lock_id (ObjectAttributes o) := one_more_reader (locks s !! lock_id (ObjectAttributes o))]> (locks s) |}
  = Done (tt, {| objects := ob; ObjectCount := n; locks := locks s |}).
Proof.
  intros Hm Hl. unfold UnlockObject, CHECK_MAGIC. rewrite c_assert_bind by (by rewrite Hm). by apply release_shared.
Qed.

Lemma reason_lookup o reason :
  object_ok o -> 0 <= reason < ReasonCount (ObjectAttributes o) ->
  exists r, ReferenceReasons o !! Z.to_nat reason = Some r /\ 0 <= r <= ReferenceCount o.
Proof.
  intros [] Hr. destruct (lookup_lt_is_Some_2 (ReferenceReasons o) (Z.to_nat reason)) as [r Hl].
  { unfold BITBUCKET_MAX_REFERENCE_REASONS in *. lia. }
  exists r. split; [done|]. rewrite ob_sum0. by eapply sum_ge.
Qed.

Lemma object_ok_change o reason r d :
  object_ok o -> ReferenceReasons o !! Z.to_nat reason = Some r -> 0 <= r + d ->
  0 < ReferenceCount o + d < 2 ^ 32 ->
  object_ok (with_counts (ReferenceCount o + d) (<[Z.to_nat reason := r + d]> (ReferenceReasons o)) o).
Proof.
  intros [] Hr Hd Hb. constructor; cbn; try done.
  - by rewrite length_insert.
  - by apply Forall_insert.
  - rewrite (sum_insert _ _ _ r) by done. lia.
Qed.

(** What the counts of the object at [p] are after adding [d] references for
    a reason. *)
Definition changed (p : ptr) (reason d : Z) (o : object) (r : Z) (s : store) : store :=
  {| objects := <[p := with_counts (ReferenceCount o + d)
                         (<[Z.to_nat reason := r + d]> (ReferenceReasons o)) o]> (objects s);
     ObjectCount := ObjectCount s; locks := locks s |}.

Lemma with_counts_twice c c' rs rs' o : with_counts c' rs' (with_counts c rs o) = with_counts c' rs' o.
Proof. done. Qed.

Lemma counted_changed p reason d o r s :
  counted s -> objects s !! p = Some o -> ReferenceReasons o !! Z.to_nat reason = Some r ->
  0 <= r + d -> 0 < ReferenceCount o + d < 2 ^ 32 -> counted (changed p reason d o r s).
Proof.
  intros H Ho Hr Hd Hb. destruct (st_objects _ H p o Ho) as [Hp Hok]. destruct H. constructor; cbn.
  - intros q x. rewrite lookup_insert. case_decide; subst; [|by apply st_objects0].
    intros [= <-]. split; [done|]. by apply object_ok_change.
  - rewrite map_size_insert_Some by (by rewrite Ho). done.
Qed.

Lemma store_ok_changed p reason d o r s :
  store_ok s -> objects s !! p = Some o -> ReferenceReasons o !! Z.to_nat reason = Some r ->
  0 <= r + d -> 0 < ReferenceCount o + d < 2 ^ 32 -> store_ok (changed p reason d o r s).
Proof. intros [H Hl] **. split; [by apply counted_changed|done]. Qed.

Lemma Reference_run p o r reason s :
  counted s -> objects s !! p = Some o -> 0 <= reason < ReasonCount (ObjectAttributes o) ->
  readable (lock_id (ObjectAttributes o)) s ->
  ReferenceReasons o !! Z.to_nat reason = Some r -> ReferenceCount o + 1 < 2 ^ 32 ->
  BitbucketObjectReference p reason s = Done (tt, changed p reason 1 o r s).
Proof.
  intros H Ho Hr Hk Hl Hb. destruct (st_objects _ H p o Ho) as [Hp Hok]. pose proof Hok as [].
  destruct (reason_lookup o reason Hok Hr) as (r' & Hl' & Hr'). rewrite Hl in Hl'. simplify_eq.
  unfold BitbucketObjectReference. run_step ltac:(by apply load_object_run).
  rewrite c_assert_bind by lia. run_step ltac:(by apply LockObject_shared).
  run_step ltac:(by apply (add_count_run _ _ o)).
  run_step ltac:(eapply add_reason_run; [by apply lookup_insert_eq|exact Hl]).
  run_step ltac:(by apply UnlockObject_shared).
  rewrite c_assert_bind by (by destruct (Z.eqb_spec (ReferenceCount o) 0); [lia|]).
  rewrite c_assert_true by lia. unfold changed. do 2 f_equal. cbn.
  rewrite insert_insert_eq, with_counts_twice, !wrap_small by lia. done.
Qed.

Lemma shared_keep p o r reason bias s :
  counted s -> objects s !! p = Some o -> 0 <= reason < ReasonCount (ObjectAttributes o) ->
  readable (lock_id (ObjectAttributes o)) s ->
  ReferenceReasons o !! Z.to_nat reason = Some r -> 0 <= bias <= r -> bias < ReferenceCount o ->
  dereference_shared p reason bias s = Done (false, changed p reason (- bias) o r s).
Proof.
  intros H Ho Hr Hk Hl Hb Hlt. destruct (st_objects _ H p o Ho) as [Hp Hok]. pose proof Hok as [].
  destruct (reason_lookup o reason Hok Hr) as (r' & Hl' & Hr'). rewrite Hl in Hl'. simplify_eq.
  unfold dereference_shared. run_step ltac:(by apply load_object_run).
  unfold CHECK_MAGIC at 1. rewrite c_assert_bind by lia. rewrite !c_assert_bind by lia.
  rewrite Hl. cbn [deref]. rewrite mret_bind, c_assert_bind by lia.
  run_step ltac:(by apply LockObject_shared). run_step ltac:(by apply (add_count_run _ _ o)).
  destruct (Z.eqb_spec bias (ReferenceCount o)); [lia|]. rewrite M_assoc.
  run_step ltac:(eapply add_reason_run; [by apply lookup_insert_eq|exact Hl]).
  rewrite c_assert_bind by lia. run_step ltac:(by apply UnlockObject_shared).
  unfold mret, M_ret, changed. do 2 f_equal. cbn.
  rewrite insert_insert_eq, with_counts_twice, !wrap_small by lia. done.
Qed.

(** Dropping the last references: the first phase takes the count to 0 and
    back. *)
Lemma shared_last p o reason s :
  counted s -> objects s !! p = Some o -> 0 <= reason < ReasonCount (ObjectAttributes o) ->
  readable (lock_id (ObjectAttributes o)) s ->
  ReferenceReasons o !! Z.to_nat reason = Some (ReferenceCount o) ->
  dereference_shared p reason (ReferenceCount o) s = Done (true, s).
Proof.
  intros H Ho Hr Hk Hl. destruct (st_objects _ H p o Ho) as [Hp Hok]. pose proof Hok as [].
  unfold dereference_shared. run_step ltac:(by apply load_object_run).
  unfold CHECK_MAGIC at 1. rewrite c_assert_bind by lia. rewrite !c_assert_bind by lia.
  rewrite Hl. cbn [deref]. rewrite mret_bind, c_assert_bind by lia.
  run_step ltac:(by apply LockObject_shared). run_step ltac:(by apply (add_count_run _ _ o)).
  rewrite Z.eqb_refl. rewrite M_assoc.
  run_step ltac:(eapply add_count_run; by apply lookup_insert_eq). rewrite mret_bind.
  run_step ltac:(by apply UnlockObject_shared). unfold mret, M_ret. do 2 f_equal. cbn.
  rewrite Z.add_opp_diag_r, (wrap_small 64 0), wrap_small, insert_insert_eq by lia.
  rewrite insert_id; [by destruct s|]. rewrite Ho. f_equal. by destruct o.
Qed.

(** What the second phase leaves to [Deallocate]. *)
Definition unreferenced (p : ptr) (reason : Z) (o : object) (s : store) : store :=
  {| objects := <[p := with_counts 0 (<[Z.to_nat reason := 0]> (ReferenceReasons o)) o]> (objects s);
     ObjectCount := ObjectCount s; locks := <[lock_id (ObjectAttributes o) := Exclusive]> (locks s) |}.

Lemma exclusive_last p o reason s :
  counted s -> objects s !! p = Some o -> 0 <= reason < ReasonCount (ObjectAttributes o) ->
  locks s !! lock_id (ObjectAttributes o) = None ->
  ReferenceReasons o !! Z.to_nat reason = Some (ReferenceCount o) ->
  dereference_exclusive p reason (ReferenceCount o) s = Done (true, unreferenced p reason o s).
Proof.
  intros H Ho Hr Hk Hl. destruct (st_objects _ H p o Ho) as [Hp Hok]. pose proof Hok as [].
  unfold dereference_exclusive. run_step ltac:(by apply load_object_run).
  run_step ltac:(by apply LockObject_exclusive). run_step ltac:(by apply (add_count_run _ _ o)).
  rewrite c_assert_bind by lia.
  run_step ltac:(eapply add_reason_run; [by apply lookup_insert_eq|exact Hl]).
  rewrite c_assert_bind by lia. rewrite Z.eqb_refl. unfold mret, M_ret, unreferenced, put_object, put_lock.
  cbn [objects ObjectCount locks ReferenceCount ReferenceReasons with_counts].
  by rewrite insert_insert_eq, with_counts_twice, !Z.add_opp_diag_r, (wrap_small 64 0), (wrap_small 32 0) by lia.
Qed.

Lemma free_object_run p o s :
  objects s !! p = Some o ->
  free_object p s = Done (tt, {| objects := delete p (objects s); ObjectCount := u64 (ObjectCount s - 1); locks := locks s |}).
Proof. intros Ho. unfold free_object. run_step ltac:(by apply load_object_run). done. Qed.

Lemma Dereference_keep p o r reason bias s :
  counted s -> objects s !! p = Some o -> 0 <= reason < ReasonCount (ObjectAttributes o) ->
  readable (lock_id (ObjectAttributes o)) s ->
  ReferenceReasons o !! Z.to_nat reason = Some r -> 0 <= bias <= r -> bias < ReferenceCount o ->
  BitbucketObjectDereference p reason bias s = Done (tt, changed p reason (- bias) o r s).
Proof. intros. unfold BitbucketObjectDereference, object_dereference. by run_step ltac:(by apply shared_keep). Qed.

Definition removed (p : ptr) (o : object) (s : store) : store :=
  {| objects := delete p (objects s); ObjectCount := u64 (ObjectCount s - 1);
     locks := if deallocate_unlocks (ObjectAttributes o) then locks s
              else <[lock_id (ObjectAttributes o) := Exclusive]> (locks s) |}.

Lemma Dereference_last p o reason s :
  counted s -> objects s !! p = Some o -> 0 <= reason < ReasonCount (ObjectAttributes o) ->
  locks s !! lock_id (ObjectAttributes o) = None ->
  ReferenceReasons o !! Z.to_nat reason = Some (ReferenceCount o) ->
  BitbucketObjectDereference p reason (ReferenceCount o) s = Done (tt, removed p o s).
Proof.
  intros H Ho Hr Hk Hl. unfold BitbucketObjectDereference, object_dereference.
  run_step ltac:(apply shared_last; try done; unfold readable; by rewrite Hk). cbv iota.
  run_step ltac:(by apply exclusive_last). cbv iota.
  unfold plain_deallocate. rewrite M_assoc. run_step ltac:(apply load_object_run; by apply lookup_insert_eq).
  cbn [ObjectAttributes with_counts]. unfold removed.
  destruct (deallocate_unlocks (ObjectAttributes o)).
  - run_step ltac:(by apply release_exclusive). erewrite free_object_run by (by apply lookup_insert_eq). cbn.
    by rewrite delete_insert_eq.
  - rewrite mret_bind. erewrite free_object_run by (by apply lookup_insert_eq). cbn. by rewrite delete_insert_eq.
Qed.

Lemma counted_removed p o s ob c l :
  counted s -> objects s !! p = Some o -> ob = delete p (objects s) -> c = u64 (ObjectCount s - 1) ->
  counted {| objects := ob; ObjectCount := c; locks := l |}.
Proof.
  intros [] Ho -> ->. constructor; cbn.
  - intros q x [_ Hx]%lookup_delete_Some. by apply st_objects0.
  - rewrite st_count0, map_size_delete_Some by (by rewrite Ho).
    assert (size (objects s) <> O) by (by eapply map_size_ne_0_lookup_2; rewrite Ho).
    unfold wrap. rewrite Zminus_mod_idemp_l. f_equal. lia.
Qed.

Lemma store_ok_removed p o s :
  store_ok s -> objects s !! p = Some o -> deallocate_unlocks (ObjectAttributes o) = true ->
  store_ok (removed p o s).
Proof.
  intros [H Hl] Ho Hd. split; [by eapply counted_removed|]. cbn. by rewrite Hd.
Qed.

(** ** The refinement

    What a client sees of an object: how many references of each reason it
    has, or that there is no object.  [client_ok] says that the client drops
    only references it has. *)

Inductive ref_op : Type :=
  | Reference (reason : Z)
  | Dereference (reason bias : Z).

Definition run_ref (p : ptr) (op : ref_op) : M store unit :=
  match op with
  | Reference reason => BitbucketObjectReference p reason
  | Dereference reason bias => BitbucketObjectDereference p reason bias
  end.

Fixpoint run_refs (p : ptr) (ops : list ref_op) : M store unit :=
  match ops with [] => mret () | op :: ops => run_ref p op;; run_refs p ops end.

(** The multiset as a list of multiplicities. *)
Abbreviation bag := (list Z) (only parsing).

Definition bag_add (reason d : Z) (b : bag) : bag :=
  <[Z.to_nat reason := (default 0 (b !! Z.to_nat reason) + d)]> b.

Fixpoint bag_run (reasons : Z) (ops : list ref_op) (b : bag) : option bag :=
  match ops with
  | [] => Some b
  | Reference reason :: ops =>
      if (0 <=? reason) && (reason <? reasons) && (0 <? sum b) && (sum b + 1 <? 2 ^ 32)
      then bag_run reasons ops (bag_add reason 1 b) else None
  | Dereference reason bias :: ops =>
      if (0 <=? reason) && (reason <? reasons) && (1 <=? bias) &&
         (bias <=? default 0 (b !! Z.to_nat reason))
      then bag_run reasons ops (bag_add reason (- bias) b) else None
  end.

Lemma bag_add_eq reason d b r : b !! Z.to_nat reason = Some r -> bag_add reason d b = <[Z.to_nat reason := r + d]> b.
Proof. intros H. unfold bag_add. by rewrite H. Qed.

(** The object at [p] holds the multiset [b], or is gone and [b] is empty. *)
Definition holds (s : store) (p : ptr) (a : object_attributes) (b : bag) : Prop :=
  store_ok s /\
  match objects s !! p with
  | Some o => ObjectAttributes o = a /\ ReferenceReasons o = b
  | None => sum b = 0 /\ length b = 12%nat /\ Forall (fun r => 0 <= r) b
  end.

Lemma changed_holds s p o r reason d a :
  store_ok (changed p reason d o r s) -> ObjectAttributes o = a ->
  ReferenceReasons o !! Z.to_nat reason = Some r ->
  holds (changed p reason d o r s) p a (bag_add reason d (ReferenceReasons o)).
Proof.
  intros H Ha Hl. split; [done|]. cbn. rewrite lookup_insert_eq. cbn. split; [done|].
  by rewrite (bag_add_eq _ _ _ _ Hl).
Qed.

(** What each operation does to an object that is there. *)
Lemma run_ref_holds s p a b op b' :
  holds s p a b -> deallocate_unlocks a = true -> bag_run (ReasonCount a) [op] b = Some b' ->
  exists s', run_ref p op s = Done (tt, s') /\ holds s' p a b' /\ 
    (forall q, q <> p -> objects s' !! q = objects s !! q).
Proof.
  intros [H Hb] Hd. destruct (objects s !! p) as [o|] eqn:Ho.
  - destruct Hb as [<- <-]. destruct (st_objects _ H p o Ho) as [Hp Hok]. pose proof Hok as [].
    destruct op as [reason|reason bias]; cbn [bag_run run_ref].
    + destruct (_ && _) eqn:E; [|done]. intros [= <-]. rewrite <- ob_sum0 in E.
      destruct (reason_lookup o reason Hok) as (r & Hl & Hr); [lia|].
      eexists. split; [eapply Reference_run; [apply H|done|lia|by apply store_ok_readable|done|lia]|]. split.
      * apply changed_holds; [|done|done]. apply store_ok_changed; [done..|lia|lia].
      * intros q Hq. cbn. by rewrite lookup_insert_ne.
    + destruct (_ && _) eqn:E; [|done]. intros [= <-].
      destruct (reason_lookup o reason Hok) as (r & Hl & Hr); [lia|]. rewrite Hl in E. cbn in E.
      destruct (decide (bias = ReferenceCount o)) as [->|Hne].
      * assert (r = ReferenceCount o) as -> by lia.
        eexists. split; [by eapply Dereference_last; [apply H|done|lia|by apply store_ok_unlocked|]|]. split.
        -- split; [by apply store_ok_removed|]. unfold removed, objects. rewrite lookup_delete_eq.
           rewrite (bag_add_eq _ _ _ _ Hl). split; [|split].
           ++ rewrite (sum_insert _ _ _ _ Hl). lia.
           ++ by rewrite length_insert.
           ++ apply Forall_insert; [done|lia].
        -- intros q Hq. cbn. by rewrite lookup_delete_ne.
      * eexists. split; [eapply Dereference_keep; [apply H|done|lia|by apply store_ok_readable|done|lia|lia]|]. split.
        -- apply changed_holds; [|done|done]. apply store_ok_changed; [done..|lia|lia].
        -- intros q Hq. cbn. by rewrite lookup_insert_ne.
  - destruct Hb as (Hsum & Hlen & Hall). destruct op as [reason|reason bias]; cbn [bag_run].
    + rewrite Hsum. cbn. by rewrite andb_false_r.
    + destruct (_ && _) eqn:E; [|done]. exfalso.
      destruct (b !! Z.to_nat reason) as [r|] eqn:Hl; cbn in E; [|lia].
      pose proof (sum_ge b _ r Hall Hl). lia.
Qed.

(** C22: Reference counting is exact: any sequence of references and
    dereferences in which the client only drops what it holds (and stays
    below 2^32 references) runs with every assertion true, the object counts
    exactly the multiset the client computes, it exists exactly as long as
    that multiset is not empty, and other objects are not touched. *)
Theorem object_refines_multiset ops s p a b b' :
  holds s p a b -> deallocate_unlocks a = true -> bag_run (ReasonCount a) ops b = Some b' ->
  exists s', run_refs p ops s = Done (tt, s') /\ holds s' p a b' /\
    (is_Some (objects s' !! p) <-> 0 < sum b') /\
    (forall q, q <> p -> objects s' !! q = objects s !! q).
Proof.
  intros H Hd. revert s b H. induction ops as [|op ops IH]; intros s b H Hr.
  - injection Hr as <-. exists s. split; [done|]. split; [done|]. split; [|done].
    destruct H as [H Hb]. destruct (objects s !! p) as [o|] eqn:Ho.
    + destruct Hb as [_ <-]. destruct (st_objects _ H p o Ho) as [_ []]. split; [lia|eauto].
    + destruct Hb as [Hs _]. split; [by intros [? ?]|lia].
  - assert (exists b1, bag_run (ReasonCount a) [op] b = Some b1 /\ bag_run (ReasonCount a) ops b1 = Some b')
      as (b1 & Hb1 & Hr1).
    { destruct op; cbn [bag_run] in *; destruct (_ && _); eauto; done. }
    destruct (run_ref_holds s p a b op b1 H Hd Hb1) as (s1 & Hs1 & H1 & Hq1).
    destruct (IH s1 b1 H1 Hr1) as (s2 & Hs2 & H2 & He & Hq2).
    exists s2. split; [cbn [run_refs]; by run_step ltac:(exact Hs1)|]. split; [done|]. split; [done|].
    intros q Hq. by rewrite Hq2, Hq1.
Qed.

(** A new object. *)
Definition new_object (a : object_attributes) (size InitialReason : Z) : object :=
  {| Magic := BITBUCKET_OBJECT_HEADER_MAGIC; ObjectAttributes := a; ReferenceCount := 1;
     ReferenceReasons := <[Z.to_nat InitialReason := 1]> (replicate 12 0); DataLength := size |}.

Lemma new_object_ok a size InitialReason :
  0 <= InitialReason < ReasonCount a -> ReasonCount a <= 12 -> object_ok (new_object a size InitialReason).
Proof.
  intros H Ha. constructor; cbn [Magic ObjectAttributes ReferenceCount ReferenceReasons new_object].
  - done.
  - unfold BITBUCKET_MAX_REFERENCE_REASONS. lia.
  - by rewrite length_insert.
  - apply Forall_insert; [by repeat constructor|lia].
  - rewrite (sum_insert _ _ _ 0); [by cbn|]. apply lookup_replicate_2. lia.
  - lia.
Qed.

(** What the creator of an object has to pass. *)
Definition attributes_ok (a : object_attributes) : bool :=
  (attr_Magic a =? BITBUCKET_OBJECT_ATTRIBUTES_MAGIC) && (0 <=? ReasonCount a) &&
  (ReasonCount a <=? BITBUCKET_MAX_REFERENCE_REASONS) &&
  forallb (fun n => Z.of_nat (String.length n) <=? BITBUCKET_MAX_REFERENCE_REASON_NAME_LENGTH)
    (take (Z.to_nat (ReasonCount a)) (ReferenceReasonsNames a)).

Definition created (newobj : ptr) (a : object_attributes) (size InitialReason : Z) (s : store) : store :=
  {| objects := <[newobj := new_object a size InitialReason]> (objects s);
     ObjectCount := u64 (ObjectCount s + 1); locks := locks s |}.

Lemma Create_run attributes size InitialReason newobj s :
  attributes_ok (default default_object_attributes attributes) = true ->
  0 <= InitialReason < ReasonCount (default default_object_attributes attributes) -> newobj <> NULL ->
  BitbucketObjectCreate attributes size InitialReason newobj s =
  Done (newobj, created newobj (default default_object_attributes attributes) size InitialReason s).
Proof.
  intros Ha Hr Hn. unfold attributes_ok in Ha. apply andb_prop in Ha as [Ha Hnames].
  unfold BitbucketObjectCreate. cbv zeta. rewrite !c_assert_bind by (done || lia).
  destruct (Z.eqb_spec newobj NULL); [done|]. rewrite mret_bind.
  unfold set_objects, set_ObjectCount. by rewrite !modify_bind.
Qed.

Lemma counted_created newobj a size InitialReason s :
  counted s -> attributes_ok a = true -> 0 <= InitialReason < ReasonCount a -> newobj <> NULL ->
  objects s !! newobj = None -> counted (created newobj a size InitialReason s).
Proof.
  intros [] Ha Hr Hn Hf. unfold attributes_ok, BITBUCKET_MAX_REFERENCE_REASONS in Ha.
  constructor; cbn; [|rewrite map_size_insert_None by done].
  - intros q o. rewrite lookup_insert. case_decide; [|by apply st_objects0]. intros [= <-]. subst.
    split; [done|]. apply new_object_ok; lia.
  - rewrite st_count0. unfold wrap. rewrite Zplus_mod_idemp_l. f_equal. lia.
Qed.

(** Creation makes an object with one reference, for the reason it is given,
    at the address malloc returned, and counts it; with [NULL] for the
    attributes the default ones are used. *)
Theorem BitbucketObjectCreate_spec attributes size InitialReason newobj s :
  store_ok s -> attributes_ok (default default_object_attributes attributes) = true ->
  0 <= InitialReason < ReasonCount (default default_object_attributes attributes) ->
  newobj <> NULL -> objects s !! newobj = None ->
  let a := default default_object_attributes attributes in
  exists s', BitbucketObjectCreate attributes size InitialReason newobj s = Done (newobj, s') /\
    holds s' newobj a (<[Z.to_nat InitialReason := 1]> (replicate 12 0)) /\
    objects s' = <[newobj := new_object a size InitialReason]> (objects s) /\
    BitbucketGetObjectReferenceCount newobj s' = Done (1, s') /\
    ObjectCount s' = u64 (ObjectCount s + 1).
Proof.
  intros H Ha Hr Hn Hf a. fold a in Ha, Hr. exists (created newobj a size InitialReason s).
  split; [by apply Create_run|]. split; [|split; [done|split; [|done]]].
  - split; [split; [apply counted_created; try done; apply H|apply H]|]. cbn. by rewrite lookup_insert_eq.
  - unfold BitbucketGetObjectReferenceCount, NULL in *. rewrite c_assert_bind by lia.
    run_step ltac:(apply load_object_run; by apply lookup_insert_eq). done.
Qed.

(** Deleting an object with the default attributes keeps [DefaultObjectLock]
    locked exclusively: the object is gone, and from then on no default
    object can be referenced or dereferenced. *)
Theorem default_lock_stays_held p o q o' reason s :
  store_ok s -> objects s !! p = Some o -> ObjectAttributes o = default_object_attributes ->
  0 <= reason < 12 -> ReferenceReasons o !! Z.to_nat reason = Some (ReferenceCount o) ->
  objects s !! q = Some o' -> ObjectAttributes o' = default_object_attributes -> q <> p ->
  exists s', BitbucketObjectDereference p reason (ReferenceCount o) s = Done (tt, s') /\
    objects s' !! p = None /\ locks s' !! 0 = Some Exclusive /\
    forall r, 0 <= r < 12 -> BitbucketObjectReference q r s' = Fail Deadlock.
Proof.
  intros H Ho Ha Hr Hl Hq Ha' Hne. exists (removed p o s). split.
  { apply Dereference_last; try done; [apply H|by rewrite Ha|by apply store_ok_unlocked]. }
  split; [cbn; by rewrite lookup_delete_eq|]. split; [cbn; rewrite Ha; by apply lookup_insert_eq|].
  intros r Hb. unfold BitbucketObjectReference.
  run_step ltac:(apply load_object_run; cbn; by rewrite lookup_delete_ne, Hq).
  rewrite c_assert_bind by (rewrite Ha'; cbn; unfold BITBUCKET_MAX_REFERENCE_REASONS; lia).
  apply M_bind_fail. destruct (st_objects _ H q o' Hq) as [_ []].
  unfold LockObject, CHECK_MAGIC, acquire. rewrite c_assert_bind by lia. rewrite get_state_bind. cbn.
  rewrite Ha, Ha'. cbn. by rewrite lookup_insert_eq.
Qed.

(** The copy of the reason counts has the reference count as its length: it
    returns the first [ReferenceCount] of the counts when they fit, and
    overruns the destination or the source otherwise, whatever room the
    caller announced. *)
Theorem reason_counts_length p o n s :
  store_ok s -> objects s !! p = Some o -> 0 <= n <= 12 ->
  BitbucketGetObjectReasonReferenceCounts p n s =
    if ReferenceCount o <=? n then Done (take (Z.to_nat (ReferenceCount o)) (ReferenceReasons o), s)
    else Fail Undefined.
Proof.
  intros H Ho Hn. destruct (st_objects _ H p o Ho) as [Hp []].
  unfold BitbucketGetObjectReasonReferenceCounts. unfold NULL, BITBUCKET_MAX_REFERENCE_REASONS in *.
  rewrite c_assert_bind by lia. run_step ltac:(by apply load_object_run).
  unfold CHECK_MAGIC. rewrite !c_assert_bind by lia.
  destruct (Z.leb_spec (ReferenceCount o) n); cbn; [|done].
  by destruct (Z.leb_spec (ReferenceCount o) 12); [|lia].
Qed.

(** * Witnesses *)

Definition example_attributes : object_attributes :=
  {| attr_Magic := BITBUCKET_OBJECT_ATTRIBUTES_MAGIC; ReasonCount := 3;
     ReferenceReasonsNames := ["Lookup"; "Parent"; "Table"]%string; Lock := Some 7; deallocate_unlocks := true |}.

Definition empty_store : store := {| objects := ∅; ObjectCount := 0; locks := ∅ |}.
Definition example_store (a : object_attributes) : store :=
  {| objects := {[64 := new_object a 8 1; 128 := new_object a 8 0]}; ObjectCount := 2; locks := ∅ |}.

Lemma example_store_ok a : 1 < ReasonCount a <= 12 -> store_ok (example_store a).
Proof.
  intros Ha. split; [constructor; [|done]|done]. intros p o Ho. cbn in Ho.
  apply lookup_insert_Some in Ho as [[<- <-]|[_ Ho]].
  - split; [done|]. apply new_object_ok; lia.
  - apply lookup_singleton_Some in Ho as [<- <-]. split; [done|]. apply new_object_ok; lia.
Qed.

Lemma object_refines_multiset_witness :
  exists s', run_refs 64 [Reference 2; Reference 2; Dereference 1 1; Dereference 2 2] (example_store example_attributes)
      = Done (tt, s') /\ objects s' !! 64 = None.
Proof.
  destruct (object_refines_multiset [Reference 2; Reference 2; Dereference 1 1; Dereference 2 2]
    (example_store example_attributes) 64 example_attributes (<[1%nat := 1]> (replicate 12 0)) (replicate 12 0))
    as (s' & Hr & _ & He & _).
  - split; [by apply example_store_ok|]. split; reflexivity.
  - reflexivity.
  - vm_compute. reflexivity.
  - exists s'. split; [exact Hr|]. apply eq_None_not_Some. intros Hs. by apply He in Hs.
Defined.

Lemma BitbucketObjectCreate_spec_witness :
  exists s', BitbucketObjectCreate None 8 1 192 empty_store = Done (192, s') /\ ObjectCount s' = 1.
Proof.
  destruct (BitbucketObjectCreate_spec None 8 1 192 empty_store) as (s' & Hr & _ & _ & _ & Hc).
  - split; [by constructor|reflexivity].
  - vm_compute. reflexivity.
  - split; [done|reflexivity].
  - done.
  - reflexivity.
  - exists s'. split; [exact Hr|exact Hc].
Defined.

Lemma default_lock_stays_held_witness :
  exists s', BitbucketObjectDereference 64 1 1 (example_store default_object_attributes) = Done (tt, s') /\
    BitbucketObjectReference 128 0 s' = Fail Deadlock.
Proof.
  destruct (default_lock_stays_held 64 (new_object default_object_attributes 8 1) 128
    (new_object default_object_attributes 8 0) 1 (example_store default_object_attributes)) as (s' & Hr & _ & _ & Hd).
  - apply example_store_ok. split; reflexivity || (intros [=]).
  - reflexivity.
  - reflexivity.
  - split; [done|reflexivity].
  - reflexivity.
  - reflexivity.
  - reflexivity.
  - done.
  - exists s'. split; [exact Hr|]. apply Hd. split; [done|reflexivity].
Defined.

Lemma reason_counts_length_witness :
  BitbucketGetObjectReasonReferenceCounts 64 12 (example_store example_attributes)
  = Done ([0], example_store example_attributes).
Proof.
  apply (reason_counts_length 64 (new_object example_attributes 8 1)); [by apply example_store_ok|reflexivity|split; intros [=]].
Defined.
