(* ===== verification/ObjectThreads.v ===== *)
(** Threads that reference and dereference one object at the same time:
    src/finesse/bitbucket/object.c at the level of its atomic steps.

    Every assertion on a shared counter, every lock operation and every
    atomic addition is one step, and the steps of any number of threads
    interleave.  The lock is the object's own reader-writer lock, as inodes
    have it.  [owned] records the references a thread may use, by reason: it
    gains one when its [BitbucketObjectReference] returns, gives up the ones
    it passes to [BitbucketObjectDereference] when it calls it, and may hand
    some to another thread.

    Results, for clients that only reference an object they own a reference
    of and only drop references they own: no step touches the object after it
    is freed, it is freed when nothing is owned any more and not before, no
    counter underflows, a thread that waits for the lock does not wait for
    ever, and the only assertion that may fail is the comparison of the two
    counters that [BitbucketObjectReference] read; it does fail.  For clients
    that find the object in a table (inode.c) a reference may see the count
    at 0, and the exclusive lock may be kept for ever. *)

From stdpp Require Import list.
From S2P Require Import Prelude Object.

Open Scope word_scope.

(** The object, [None] once it is freed, and its lock. *)
Record shared := { target : option object; readers : Z; writer : bool }.

(** Where a thread is in a call, with the locals that matter there: [reason],
    [bias] and the counter values it has read. *)
Inductive pc : Type :=
  | Idle
  (* BitbucketObjectReference *)
  | RefLock (reason : Z)
  | RefCount (reason : Z)
  | RefReason (reason refcount : Z)
  | RefUnlock (reason refcount reasonRefCount : Z)
  | RefCheck (reason refcount reasonRefCount : Z)
  (* BitbucketObjectDereference, first phase *)
  | DerefCheckCount (reason bias : Z)
  | DerefCheckReason (reason bias : Z)
  | DerefLock (reason bias : Z)
  | DerefSub (reason bias : Z)
  | DerefRestore (reason bias : Z)
  | DerefReason (reason bias : Z)
  | DerefUnlock (reason bias : Z) (again : bool)
  (* second phase *)
  | DerefXLock (reason bias : Z)
  | DerefXSub (reason bias : Z)
  | DerefXReason (reason bias refcount : Z)
  | DerefFree (reason bias refcount : Z).

Definition access (m : shared) : outcome object := deref (target m).

Definition set_target (o : object) (m : shared) : shared :=
  {| target := Some o; readers := readers m; writer := writer m |}.

Definition lock_shared (m : shared) : outcome shared :=
  o ← access m;
  c_assert (Magic o =? BITBUCKET_OBJECT_HEADER_MAGIC);;
  if writer m then Fail Blocked
  else Done {| target := target m; readers := readers m + 1; writer := false |}.

Definition lock_exclusive (m : shared) : outcome shared :=
  o ← access m;
  c_assert (Magic o =? BITBUCKET_OBJECT_HEADER_MAGIC);;
  if writer m || negb (readers m =? 0) then Fail Blocked
  else Done {| target := target m; readers := 0; writer := true |}.

Definition unlock_shared (m : shared) : outcome shared :=
  o ← access m;
  c_assert (Magic o =? BITBUCKET_OBJECT_HEADER_MAGIC);;
  Done {| target := target m; readers := readers m - 1; writer := writer m |}.

(** [__atomic_fetch_add] on ReferenceCount and on ReferenceReasons[reason] *)
Definition fetch_add_count (d : Z) (m : shared) : outcome (Z * shared) :=
  o ← access m;
  Done (ReferenceCount o, set_target (with_counts (u64 (ReferenceCount o + d)) (ReferenceReasons o) o) m).

Definition fetch_add_reason (reason d : Z) (m : shared) : outcome (Z * shared) :=
  o ← access m;
  r ← deref (ReferenceReasons o !! Z.to_nat reason);
  Done (r, set_target (with_counts (ReferenceCount o) (<[Z.to_nat reason := u32 (r + d)]> (ReferenceReasons o)) o) m).

Definition thread_step (m : shared) (p : pc) : outcome (shared * pc) :=
  match p with
  | Idle => Done (m, Idle)
  | RefLock reason =>
      o ← access m;
      c_assert (reason <? ReasonCount (ObjectAttributes o));;
      m ← lock_shared m; Done (m, RefCount reason)
  | RefCount reason => '(refcount, m) ← fetch_add_count 1 m; Done (m, RefReason reason refcount)
  | RefReason reason refcount =>
      '(reasonRefCount, m) ← fetch_add_reason reason 1 m; Done (m, RefUnlock reason refcount reasonRefCount)
  | RefUnlock reason refcount reasonRefCount =>
      m ← unlock_shared m; Done (m, RefCheck reason refcount reasonRefCount)
  | RefCheck reason refcount reasonRefCount =>
      c_assert (negb (refcount =? 0));; c_assert (reasonRefCount <=? refcount);; Done (m, Idle)
  | DerefCheckCount reason bias =>
      o ← access m;
      c_assert (Magic o =? BITBUCKET_OBJECT_HEADER_MAGIC);;
      c_assert (reason <? ReasonCount (ObjectAttributes o));;
      c_assert (bias <=? ReferenceCount o);; Done (m, DerefCheckReason reason bias)
  | DerefCheckReason reason bias =>
      o ← access m;
      r ← deref (ReferenceReasons o !! Z.to_nat reason);
      c_assert (bias <=? r);; Done (m, DerefLock reason bias)
  | DerefLock reason bias => m ← lock_shared m; Done (m, DerefSub reason bias)
  | DerefSub reason bias =>
      '(refcount, m) ← fetch_add_count (- bias) m;
      Done (m, if bias =? refcount then DerefRestore reason bias else DerefReason reason bias)
  | DerefRestore reason bias => '(_, m) ← fetch_add_count bias m; Done (m, DerefUnlock reason bias true)
  | DerefReason reason bias =>
      '(reasonRefCount, m) ← fetch_add_reason reason (- bias) m;
      c_assert (bias <=? reasonRefCount);; Done (m, DerefUnlock reason bias false)
  | DerefUnlock reason bias again =>
      m ← unlock_shared m; Done (m, if (again : bool) then DerefXLock reason bias else Idle)
  | DerefXLock reason bias => m ← lock_exclusive m; Done (m, DerefXSub reason bias)
  | DerefXSub reason bias =>
      '(refcount, m) ← fetch_add_count (- bias) m;
      c_assert (bias <=? refcount);; Done (m, DerefXReason reason bias refcount)
  | DerefXReason reason bias refcount =>
      '(reasonRefCount, m) ← fetch_add_reason reason (- bias) m;
      c_assert (bias <=? reasonRefCount);; Done (m, DerefFree reason bias refcount)
  | DerefFree reason bias refcount =>
      if bias =? refcount then
        o ← access m;
        Done ({| target := None; readers := readers m;
                 writer := if deallocate_unlocks (ObjectAttributes o) then false else writer m |}, Idle)
      else Done (m, Idle)
  end.

Record thread := { at_pc : pc; owned : list Z }.
Record world := { memory : shared; threads : list thread }.

(** A reference is owned once the call that made it returns. *)
Definition granted (p : pc) (own : list Z) : list Z :=
  match p with RefCheck reason _ _ => bag_add reason 1 own | _ => own end.

Definition world_step (i : nat) (w : world) : outcome world :=
  t ← deref (threads w !! i);
  '(m, p) ← thread_step (memory w) (at_pc t);
  Done {| memory := m;
          threads := <[i := {| at_pc := p; owned := granted (at_pc t) (owned t) |}]> (threads w) |}.

(** * Clients *)

(** The references for which the call a thread is in answers: of every kind
    ([claim]), the ones [ReferenceCount] does not show for a moment
    ([transient]), the ones [ReferenceReasons] shows for a reason
    ([in_reason]), and the most the call may need ([reserve]). *)
Definition pc_claim (p : pc) : Z :=
  match p with
  | RefReason _ _ | RefUnlock _ _ _ | RefCheck _ _ _ => 1
  | DerefCheckCount _ bias | DerefCheckReason _ bias | DerefLock _ bias | DerefSub _ bias
  | DerefRestore _ bias | DerefUnlock _ bias true | DerefXLock _ bias | DerefXSub _ bias
  | DerefXReason _ bias _ | DerefFree _ bias _ => bias
  | _ => 0
  end.

Definition transient (t : thread) : Z :=
  match at_pc t with
  | DerefRestore _ bias | DerefXReason _ bias _ | DerefFree _ bias _ => bias
  | _ => 0
  end.

Definition pc_reason (p : pc) : Z * Z :=
  match p with
  | RefUnlock reason _ _ | RefCheck reason _ _ => (reason, 1)
  | DerefCheckCount reason bias | DerefCheckReason reason bias | DerefLock reason bias
  | DerefSub reason bias | DerefRestore reason bias | DerefReason reason bias
  | DerefUnlock reason bias true | DerefXLock reason bias | DerefXSub reason bias
  | DerefXReason reason bias _ => (reason, bias)
  | _ => (0, 0)
  end.

Definition pc_reserve (p : pc) : Z :=
  match p with
  | RefLock _ | RefCount _ => 1
  | DerefReason _ bias => bias
  | _ => pc_claim p
  end.

(** How many references for a reason. *)
Definition held (own : list Z) (r : nat) : Z := default 0 (own !! r).

Definition claim (t : thread) : Z := sum (owned t) + pc_claim (at_pc t).
Definition reserve (t : thread) : Z := sum (owned t) + pc_reserve (at_pc t).
Definition in_reason (r : nat) (t : thread) : Z :=
  held (owned t) r + (if decide (Z.to_nat (pc_reason (at_pc t)).1 = r) then (pc_reason (at_pc t)).2 else 0).

Definition total (f : thread -> Z) (ts : list thread) : Z := sum (f <$> ts).

#[local] Arguments sum l : simpl never.
#[local] Arguments total f ts : simpl never.

Inductive event : Type :=
  | CallReference (i : nat) (reason : Z)
  | CallDereference (i : nat) (reason bias : Z)
  | Give (i j : nat) (reason n : Z)
  | Run (i : nat).

Definition is_idle (p : pc) : bool := match p with Idle => true | _ => false end.

(** What a client may do.  A strict client references an object only while
    it owns a reference; all clients stay below 2^32 references. *)
Definition permitted (a : object_attributes) (strict : bool) (e : event) (w : world) : bool :=
  match e with
  | CallReference i reason =>
      match threads w !! i with
      | Some t => is_idle (at_pc t) && (0 <=? reason) && (reason <? ReasonCount a) &&
                  (negb strict || (0 <? sum (owned t))) && (total reserve (threads w) + 1 <? 2 ^ 32)
      | None => false
      end
  | CallDereference i reason bias =>
      match threads w !! i with
      | Some t => is_idle (at_pc t) && (0 <=? reason) && (reason <? ReasonCount a) &&
                  (1 <=? bias) && (bias <=? held (owned t) (Z.to_nat reason))
      | None => false
      end
  | Give i j reason n =>
      match threads w !! i, threads w !! j with
      | Some t, Some _ => negb (i =? j)%nat && is_idle (at_pc t) && (0 <=? reason) && (reason <? ReasonCount a) &&
                          (1 <=? n) && (n <=? held (owned t) (Z.to_nat reason))
      | _, _ => false
      end
  | Run i => match threads w !! i with Some t => negb (is_idle (at_pc t)) | None => false end
  end.

Definition set_thread (i : nat) (t : thread) (w : world) : world :=
  {| memory := memory w; threads := <[i := t]> (threads w) |}.

Definition do_event (e : event) (w : world) : outcome world :=
  match e with
  | CallReference i reason =>
      t ← deref (threads w !! i); Done (set_thread i {| at_pc := RefLock reason; owned := owned t |} w)
  | CallDereference i reason bias =>
      t ← deref (threads w !! i);
      Done (set_thread i {| at_pc := DerefCheckCount reason bias; owned := bag_add reason (- bias) (owned t) |} w)
  | Give i j reason n =>
      t ← deref (threads w !! i);
      u ← deref (threads w !! j);
      Done (set_thread j {| at_pc := at_pc u; owned := bag_add reason n (owned u) |}
             (set_thread i {| at_pc := at_pc t; owned := bag_add reason (- n) (owned t) |} w))
  | Run i => world_step i w
  end.

(** As [BitbucketObjectCreate] leaves the object, with [n] threads, the first
    of which owns the initial reference. *)
Definition start (a : object_attributes) (size InitialReason : Z) (n : nat) : world :=
  {| memory := {| target := Some (new_object a size InitialReason); readers := 0; writer := false |};
     threads := {| at_pc := Idle; owned := <[Z.to_nat InitialReason := 1]> (replicate 12 0) |}
                :: replicate n {| at_pc := Idle; owned := replicate 12 0 |} |}.

Inductive reachable (a : object_attributes) (strict : bool) : world -> Prop :=
  | reach_start size InitialReason n :
      0 <= InitialReason < ReasonCount a -> reachable a strict (start a size InitialReason n)
  | reach_step e w w' :
      reachable a strict w -> permitted a strict e w = true -> do_event e w = Done w' -> reachable a strict w'.

Fixpoint run_events (a : object_attributes) (strict : bool) (es : list event) (w : world) : outcome world :=
  match es with
  | [] => Done w
  | e :: es => if permitted a strict e w then w ← do_event e w; run_events a strict es w else Fail Undefined
  end.

(** * Sums over the threads *)

Lemma total_cons f t ts : total f (t :: ts) = f t + total f ts.
Proof. done. Qed.

Lemma total_insert f ts i t t' : ts !! i = Some t -> total f (<[i := t']> ts) = total f ts - f t + f t'.
Proof.
  intros H. unfold total. rewrite list_fmap_insert. apply sum_insert. by rewrite list_lookup_fmap, H.
Qed.

Lemma total_nonneg f ts : Forall (fun t => 0 <= f t) ts -> 0 <= total f ts.
Proof. intros H. apply sum_nonneg. by apply Forall_fmap. Qed.

Lemma total_ge f ts i t : Forall (fun t => 0 <= f t) ts -> ts !! i = Some t -> 0 <= f t <= total f ts.
Proof.
  intros H Hi. apply (sum_ge _ i); [by apply Forall_fmap|]. by rewrite list_lookup_fmap, Hi.
Qed.

Lemma total_ge_two f ts i j t u :
  Forall (fun t => 0 <= f t) ts -> ts !! i = Some t -> ts !! j = Some u -> i <> j -> f t + f u <= total f ts.
Proof.
  revert i j. induction ts as [|x ts IH]; intros i j H Hi Hj Hne; [done|].
  apply Forall_cons in H as [Hx H]. rewrite total_cons.
  destruct i, j; cbn [lookup list_lookup] in Hi, Hj; simplify_eq.
  - pose proof (total_ge f ts j u H Hj). lia.
  - pose proof (total_ge f ts i t H Hi). lia.
  - specialize (IH i j H Hi Hj). lia.
Qed.

Lemma total_zero f ts : Forall (fun t => f t = 0) ts -> total f ts = 0.
Proof. induction 1; [done|]. rewrite total_cons. lia. Qed.

(** At most the thread at [i] counts. *)
Lemma total_only f ts i t :
  ts !! i = Some t -> (forall j u, ts !! j = Some u -> j <> i -> f u = 0) -> total f ts = f t.
Proof.
  intros Hi H. pose proof (total_insert f ts i t {| at_pc := Idle; owned := [] |} Hi) as E.
  set (t0 := {| at_pc := Idle; owned := [] |}) in *.
  enough (total f (<[i := t0]> ts) = f t0) by lia.
  clear E. clearbody t0. revert ts Hi H. induction i as [|i IH]; intros [|x ts] Hi H; simplify_eq/=.
  - rewrite total_cons, (total_zero f ts); [lia|].
    apply Forall_lookup. intros j u Hj. by apply (H (S j)).
  - rewrite total_cons, (H 0%nat x) by done. rewrite IH; [lia|done|].
    intros j u Hj Hne. apply (H (S j)); [done|congruence].
Qed.

(** * The invariant *)

(** Whether the thread holds the lock, shared and exclusively. *)
Definition shares (t : thread) : Z :=
  match at_pc t with
  | RefCount _ | RefReason _ _ | RefUnlock _ _ _
  | DerefSub _ _ | DerefRestore _ _ | DerefReason _ _ | DerefUnlock _ _ _ => 1
  | _ => 0
  end.

Definition excludes (t : thread) : Z :=
  match at_pc t with DerefXSub _ _ | DerefXReason _ _ _ | DerefFree _ _ _ => 1 | _ => 0 end.

(** A thread that found that it drops the last references. *)
Definition last_owner (p : pc) : bool :=
  match p with
  | DerefRestore _ _ | DerefUnlock _ _ true | DerefXLock _ _ | DerefXSub _ _
  | DerefXReason _ _ _ | DerefFree _ _ _ => true
  | _ => false
  end.

(** What a thread in a call knows of its locals. *)
Definition pc_ok (a : object_attributes) (own : list Z) (p : pc) : Prop :=
  match p with
  | Idle => True
  | RefLock reason | RefCount reason => 0 <= reason < ReasonCount a /\ 0 < sum own
  | RefReason reason refcount | RefUnlock reason refcount _ | RefCheck reason refcount _ =>
      0 <= reason < ReasonCount a /\ 0 < sum own /\ 0 < refcount
  | DerefCheckCount reason bias | DerefCheckReason reason bias | DerefLock reason bias
  | DerefSub reason bias | DerefRestore reason bias | DerefReason reason bias | DerefUnlock reason bias _
  | DerefXLock reason bias | DerefXSub reason bias => 0 <= reason < ReasonCount a /\ 1 <= bias
  | DerefXReason reason bias refcount | DerefFree reason bias refcount =>
      0 <= reason < ReasonCount a /\ 1 <= bias /\ refcount = bias
  end.

Record thread_ok (a : object_attributes) (t : thread) : Prop := {
  th_length : length (owned t) = 12%nat;
  th_owned : Forall (fun r => 0 <= r) (owned t);
  th_pc : pc_ok a (owned t) (at_pc t) }.

(** The object and the lock agree with the threads. *)
Record agrees (a : object_attributes) (o : object) (m : shared) (ts : list thread) : Prop := {
  ag_magic : Magic o = BITBUCKET_OBJECT_HEADER_MAGIC;
  ag_attr : ObjectAttributes o = a;
  ag_length : length (ReferenceReasons o) = 12%nat;
  ag_count : ReferenceCount o = total claim ts - total transient ts;
  ag_reason : forall r, (r < 12)%nat -> ReferenceReasons o !! r = Some (total (in_reason r) ts);
  ag_readers : readers m = total shares ts;
  ag_writer : Z.b2z (writer m) = total excludes ts;
  ag_lock : writer m = true -> readers m = 0;
  ag_live : 0 < total claim ts;
  ag_bound : total reserve ts < 2 ^ 32;
  ag_last : forall i t, ts !! i = Some t -> last_owner (at_pc t) = true -> total claim ts = pc_claim (at_pc t) }.

(** Nobody is in a call and nobody owns a reference. *)
Definition abandoned (ts : list thread) : Prop :=
  Forall (fun t => at_pc t = Idle /\ sum (owned t) = 0) ts.

Record safe (a : object_attributes) (w : world) : Prop := {
  sf_reasons : 0 <= ReasonCount a <= 12;
  sf_threads : Forall (thread_ok a) (threads w);
  sf_object : match target (memory w) with
              | Some o => agrees a o (memory w) (threads w)
              | None => abandoned (threads w)
              end }.

Section threads.
Context (a : object_attributes) (Ha : 0 <= ReasonCount a <= 12).

Lemma owned_nonneg t r : thread_ok a t -> 0 <= held (owned t) r <= sum (owned t).
Proof.
  intros []. unfold held. destruct (owned t !! r) as [x|] eqn:E; cbn.
  - by eapply sum_ge.
  - pose proof (sum_nonneg _ th_owned0). lia.
Qed.

Lemma measures_ok t :
  thread_ok a t ->
  0 <= claim t <= reserve t /\ 0 <= transient t <= claim t /\ 0 <= shares t /\ 0 <= excludes t /\
  (forall r, 0 <= in_reason r t <= reserve t) /\ 0 <= sum (owned t).
Proof.
  intros H. pose proof (fun r => owned_nonneg t r H) as Hr. pose proof H as [].
  pose proof (sum_nonneg _ th_owned0).
  unfold claim, reserve, transient, shares, excludes, in_reason.
  destruct (at_pc t) as [| | | | | | | | | | | |? ? []| | | |]; cbn in *;
    split_and!; try lia; intros k; specialize (Hr k); case_decide; lia.
Qed.

Lemma all_measures (f : thread -> Z) ts :
  (forall t, thread_ok a t -> 0 <= f t) -> Forall (thread_ok a) ts -> Forall (fun t => 0 <= f t) ts.
Proof. intros Hf H. eapply Forall_impl; [exact H|exact Hf]. Qed.

Lemma total_le f g ts :
  (forall t, thread_ok a t -> f t <= g t) -> Forall (thread_ok a) ts -> total f ts <= total g ts.
Proof.
  intros Hf. induction 1 as [|t ts Ht _ IH]; [done|]. rewrite !total_cons. specialize (Hf t Ht). lia.
Qed.

Lemma totals_ok ts :
  Forall (thread_ok a) ts ->
  total claim ts <= total reserve ts /\ 0 <= total transient ts <= total claim ts /\
  (forall r, 0 <= total (in_reason r) ts <= total reserve ts).
Proof.
  intros H. split; [|split; [split|]].
  - apply total_le; [|done]. intros t Ht. apply measures_ok in Ht as (? & ? & ?). lia.
  - apply total_nonneg. eapply all_measures; [|done]. intros t Ht. apply measures_ok in Ht as (? & ? & ?). lia.
  - apply total_le; [|done]. intros t Ht. apply measures_ok in Ht as (? & ? & ?). lia.
  - intros r. split.
    + apply total_nonneg. eapply all_measures; [|done]. intros t Ht.
      apply measures_ok in Ht as (_ & _ & _ & _ & Hr & _). specialize (Hr r). lia.
    + apply total_le; [|done]. intros t Ht. apply measures_ok in Ht as (_ & _ & _ & _ & Hr & _). specialize (Hr r). lia.
Qed.

(** A thread that claims something and is not the last owner: there is no
    last owner, and [ReferenceCount] is the number of claims. *)
Lemma no_last_owner o m ts i t :
  agrees a o m ts -> Forall (thread_ok a) ts -> ts !! i = Some t -> 0 < claim t -> last_owner (at_pc t) = false ->
  (forall j u, ts !! j = Some u -> last_owner (at_pc u) = false) /\ ReferenceCount o = total claim ts.
Proof.
  intros Hag Hts Hi Hc Hl.
  assert (forall j u, ts !! j = Some u -> last_owner (at_pc u) = false) as Hno.
  { intros j u Hj. destruct (last_owner (at_pc u)) eqn:E; [|done].
    pose proof (ag_last _ _ _ _ Hag j u Hj E).
    assert (i <> j) by (intros ->; simplify_eq; congruence).
    pose proof (total_ge_two claim ts i j t u) as Ht.
    assert (thread_ok a u) as Hu by (by eapply Forall_lookup_1).
    apply measures_ok in Hu as (? & ? & ? & ? & ? & ?). unfold claim in *.
    assert (0 < 0); [|lia]. apply Z.lt_le_trans with (claim t); [done|]. unfold claim.
    enough (claim t + claim u <= total claim ts) by (unfold claim in *; lia).
    apply Ht; try done. eapply all_measures; [|done]. intros t' Ht'. apply measures_ok in Ht' as (? & ? & ?).
    unfold claim in *. lia. }
  split; [done|]. rewrite (ag_count _ _ _ _ Hag). rewrite (total_zero transient); [lia|].
  apply Forall_lookup. intros j u Hj. specialize (Hno j u Hj). unfold transient.
  by destruct (at_pc u).
Qed.

(** With a last owner, no other thread claims anything. *)
Lemma other_claims o m ts i t j u :
  agrees a o m ts -> Forall (thread_ok a) ts -> ts !! i = Some t -> last_owner (at_pc t) = true ->
  ts !! j = Some u -> j <> i -> claim u = 0 /\ sum (owned t) = 0.
Proof.
  intros Hag Hts Hi Hl Hj Hne. pose proof (ag_last _ _ _ _ Hag i t Hi Hl) as E.
  assert (thread_ok a u) as Hu by (by eapply Forall_lookup_1).
  assert (thread_ok a t) as Ht by (by eapply Forall_lookup_1).
  apply measures_ok in Hu as (? & ? & ? & ? & ? & ?). apply measures_ok in Ht as (? & ? & ? & ? & ? & ?).
  assert (claim t + claim u <= total claim ts).
  { apply (total_ge_two claim ts i j); [|done..|congruence]. eapply all_measures; [|done].
    intros t' Ht'. apply measures_ok in Ht' as (? & ? & ?). lia. }
  unfold claim in *. lia.
Qed.

(** A step of the thread at [i] that takes it from [t] to [t'], the object
    from [o] to [o'] and the lock from [m] to [m']. *)
Lemma agrees_update o m ts i t o' m' t' :
  agrees a o m ts -> ts !! i = Some t ->
  Magic o' = Magic o -> ObjectAttributes o' = ObjectAttributes o ->
  length (ReferenceReasons o') = length (ReferenceReasons o) ->
  ReferenceCount o' = ReferenceCount o + (claim t' - transient t') - (claim t - transient t) ->
  (forall r x, ReferenceReasons o !! r = Some x ->
     ReferenceReasons o' !! r = Some (x + in_reason r t' - in_reason r t)) ->
  readers m' = readers m + shares t' - shares t ->
  Z.b2z (writer m') = Z.b2z (writer m) + excludes t' - excludes t ->
  (writer m' = true -> readers m' = 0) ->
  reserve t' <= reserve t ->
  0 < total claim ts - claim t + claim t' ->
  (claim t' = claim t \/ forall j u, ts !! j = Some u -> last_owner (at_pc u) = false) ->
  (last_owner (at_pc t') = true -> total claim ts - claim t + claim t' = pc_claim (at_pc t')) ->
  agrees a o' m' (<[i := t']> ts).
Proof.
  intros [] Hi H1 H2 H3 H4 H5 H6 H7 H8 H9 H10 H11 H12.
  constructor; rewrite ?(total_insert _ _ _ _ t' Hi); try congruence; try lia; try done.
  - intros r Hr. rewrite (total_insert _ _ _ _ t' Hi). erewrite H5 by (by apply ag_reason0). f_equal. lia.
  - intros j u Hj Hu. destruct (decide (j = i)) as [->|Hne].
    + rewrite list_lookup_insert_eq in Hj by (by eapply lookup_lt_Some). injection Hj as <-. by apply H12.
    + rewrite list_lookup_insert_ne in Hj by congruence. destruct H11 as [E|E].
      * rewrite (ag_last0 j u) by done. lia.
      * by rewrite (E j u) in Hu.
Qed.

Lemma safe_update ts i o' m' t' :
  Forall (thread_ok a) ts -> thread_ok a t' -> target m' = Some o' ->
  agrees a o' m' (<[i := t']> ts) -> safe a {| memory := m'; threads := <[i := t']> ts |}.
Proof.
  intros Hts Ht' Hm Hag. constructor; cbn; [done|by apply Forall_insert|]. by rewrite Hm.
Qed.

(** Only the thread that moves and the lock change. *)
Lemma agrees_lock o m ts i t m' t' :
  agrees a o m ts -> ts !! i = Some t ->
  claim t' = claim t -> transient t' = transient t -> (forall r, in_reason r t' = in_reason r t) ->
  reserve t' <= reserve t ->
  readers m' = readers m + shares t' - shares t ->
  Z.b2z (writer m') = Z.b2z (writer m) + excludes t' - excludes t ->
  (writer m' = true -> readers m' = 0) ->
  (last_owner (at_pc t') = true -> last_owner (at_pc t) = true /\ pc_claim (at_pc t') = pc_claim (at_pc t)) ->
  agrees a o m' (<[i := t']> ts).
Proof.
  intros Hag Hi H1 H2 H3 H4 H5 H6 H7 H8. pose proof Hag as [].
  apply (agrees_update o m ts i t); try done; try lia.
  - intros r x Hr. rewrite Hr, H3. f_equal. lia.
  - intros Hl. destruct (H8 Hl) as [Hl' ->]. rewrite <- (ag_last0 i t) by done. lia.
Qed.

Definition takes_lock (p : pc) : bool :=
  match p with RefLock _ | DerefLock _ _ | DerefXLock _ _ => true | _ => false end.

(** What a step of the thread at [i] may come to. *)
Definition step_result (p : pc) (r : outcome world) : Prop :=
  match r with
  | Done w' => safe a w'
  | Fail Blocked => takes_lock p = true
  | Fail AssertFailed => exists reason refcount reasonRefCount, p = RefCheck reason refcount reasonRefCount /\
                           0 < refcount < reasonRefCount
  | Fail _ => False
  end.

Lemma held_bag_add own reason d r :
  length own = 12%nat -> 0 <= reason < ReasonCount a ->
  held (bag_add reason d own) r = held own r + (if decide (Z.to_nat reason = r) then d else 0).
Proof.
  intros Hl Hr. unfold held, bag_add. destruct (decide (Z.to_nat reason = r)) as [<-|Hne].
  - rewrite list_lookup_insert_eq by lia. done.
  - rewrite list_lookup_insert_ne by done. lia.
Qed.

Lemma sum_bag_add own reason d :
  length own = 12%nat -> 0 <= reason < ReasonCount a -> sum (bag_add reason d own) = sum own + d.
Proof.
  intros Hl Hr. unfold bag_add. destruct (lookup_lt_is_Some_2 own (Z.to_nat reason)) as [x Hx]; [lia|].
  rewrite Hx, (sum_insert _ _ _ x) by done. cbn. lia.
Qed.

Lemma bag_add_ok own reason d :
  length own = 12%nat -> Forall (fun r => 0 <= r) own -> 0 <= held own (Z.to_nat reason) + d ->
  length (bag_add reason d own) = 12%nat /\ Forall (fun r => 0 <= r) (bag_add reason d own).
Proof.
  intros Hl Hf Hd. unfold bag_add. rewrite length_insert. split; [done|]. apply Forall_insert; done.
Qed.

Lemma assert_ok {B} (b : bool) (k : unit -> outcome B) : b = true -> (c_assert b ≫= k) = k tt.
Proof. by intros ->. Qed.

(** The lock as its holders see it. *)
Lemma holders o m ts i t :
  agrees a o m ts -> Forall (thread_ok a) ts -> ts !! i = Some t ->
  (shares t = 1 -> 1 <= readers m /\ writer m = false /\ forall j u, ts !! j = Some u -> excludes u = 0) /\
  (excludes t = 1 -> writer m = true /\ readers m = 0 /\
     forall j u, ts !! j = Some u -> j <> i -> shares u = 0 /\ excludes u = 0) /\
  0 <= readers m.
Proof.
  intros [] Hts Hi.
  assert (Forall (fun t => 0 <= shares t) ts) as Hs.
  { eapply all_measures; [|done]. intros u Hu. apply measures_ok in Hu as (_ & _ & ? & _). done. }
  assert (Forall (fun t => 0 <= excludes t) ts) as Hx.
  { eapply all_measures; [|done]. intros u Hu. apply measures_ok in Hu as (_ & _ & _ & ? & _). done. }
  pose proof (total_ge _ _ _ _ Hs Hi). pose proof (total_ge _ _ _ _ Hx Hi). split; [|split; [|lia]].
  - intros H1. destruct (writer m) eqn:Hw; [specialize (ag_lock0 eq_refl); lia|]. split; [lia|]. split; [done|].
    intros j u Hj. pose proof (total_ge _ _ _ _ Hx Hj). cbn in ag_writer0. lia.
  - intros H1. destruct (writer m) eqn:Hw; [|cbn in ag_writer0; lia]. specialize (ag_lock0 eq_refl).
    split; [done|]. split; [done|]. intros j u Hj Hne. pose proof (total_ge _ _ _ _ Hs Hj).
    pose proof (total_ge_two _ _ i j t u Hx Hi Hj). pose proof (total_ge _ _ _ _ Hx Hj). cbn in ag_writer0. lia.
Qed.

Section step.
Context (o : object) (rd : Z) (wr : bool) (ts : list thread) (i : nat) (own : list Z).
Let m : shared := {| target := Some o; readers := rd; writer := wr |}.
Let w : world := {| memory := m; threads := ts |}.
Context (Hag : agrees a o m ts) (Hts : Forall (thread_ok a) ts).

Lemma at_step p :
  ts !! i = Some {| at_pc := p; owned := own |} ->
  world_step i w = '(m', p') ← thread_step m p;
                   Done {| memory := m'; threads := <[i := {| at_pc := p'; owned := granted p own |}]> ts |}.
Proof. intros H. unfold world_step. cbn [threads w]. by rewrite H. Qed.

Lemma at_thread p : ts !! i = Some {| at_pc := p; owned := own |} -> thread_ok a {| at_pc := p; owned := own |}.
Proof. intros H. by eapply Forall_lookup_1. Qed.

Lemma moved p p' :
  ts !! i = Some {| at_pc := p; owned := own |} -> pc_ok a own p' -> thread_ok a {| at_pc := p'; owned := own |}.
Proof. intros H Hp. destruct (at_thread p H) as [H1 H2 H3]. by constructor. Qed.

Lemma own_reasons reason :
  0 <= reason < ReasonCount a -> exists r, ReferenceReasons o !! Z.to_nat reason = Some r /\
    r = total (in_reason (Z.to_nat reason)) ts.
Proof. intros Hr. eexists. split; [|done]. apply (ag_reason _ _ _ _ Hag). lia. Qed.

(** The reference count covers what the thread claims, the reason counts
    what the thread claims for a reason. *)
Lemma own_in_reason p r :
  ts !! i = Some {| at_pc := p; owned := own |} ->
  0 <= in_reason r {| at_pc := p; owned := own |} <= total (in_reason r) ts.
Proof.
  intros Hi. apply (total_ge _ _ i); [|done]. eapply all_measures; [|done].
  intros t Ht. apply measures_ok in Ht as (_ & _ & _ & _ & Hr & _). by specialize (Hr r) as [? _].
Qed.

Lemma own_claim p :
  ts !! i = Some {| at_pc := p; owned := own |} -> sum own + pc_claim p <= total claim ts.
Proof.
  intros Hi. refine (proj2 (total_ge claim ts i _ _ Hi)).
  eapply all_measures; [|done]. intros t Ht. by apply measures_ok in Ht as ((? & _) & _).
Qed.

Lemma count_is p :
  ts !! i = Some {| at_pc := p; owned := own |} -> 0 < sum own + pc_claim p -> last_owner p = false ->
  ReferenceCount o = total claim ts /\ forall j u, ts !! j = Some u -> last_owner (at_pc u) = false.
Proof.
  intros Hi Hc Hl. destruct (no_last_owner o m ts i _ Hag Hts Hi) as [? ?]; [done..|]. done.
Qed.

(** A thread that is in the last owner's part of the call is alone. *)
Lemma count_last p :
  ts !! i = Some {| at_pc := p; owned := own |} -> last_owner p = true ->
  ReferenceCount o = pc_claim p - transient {| at_pc := p; owned := own |} /\ total claim ts = pc_claim p /\ sum own = 0.
Proof.
  intros Hi Hl. pose proof (ag_last _ _ _ _ Hag i _ Hi Hl) as E. cbn in E.
  rewrite (ag_count _ _ _ _ Hag). rewrite (total_only transient ts i _ Hi).
  - split; [lia|]. split; [done|]. pose proof (own_claim p Hi).
    destruct (at_thread p Hi) as [_ Ho _]. cbn [owned] in Ho.
    pose proof (sum_nonneg _ Ho). lia.
  - intros j u Hj Hne. destruct (other_claims o m ts i _ j u Hag Hts Hi Hl Hj Hne) as [Hc _].
    assert (thread_ok a u) as Hu by (by eapply Forall_lookup_1).
    apply measures_ok in Hu as (? & ? & ?). lia.
Qed.

(** The measures of a thread, computed. *)
Ltac measures :=
  unfold claim, transient, reserve, shares, excludes, in_reason; cbn [at_pc owned pc_claim pc_reserve pc_reason fst snd].

Lemma moved_lock p p' m' :
  ts !! i = Some {| at_pc := p; owned := own |} -> pc_ok a own p' -> target m' = Some o ->
  let t := {| at_pc := p; owned := own |} in let t' := {| at_pc := p'; owned := own |} in
  pc_claim p' = pc_claim p -> transient t' = transient t -> pc_reason p' = pc_reason p ->
  pc_reserve p' <= pc_reserve p ->
  readers m' = rd + shares t' - shares t -> Z.b2z (writer m') = Z.b2z wr + excludes t' - excludes t ->
  (writer m' = true -> readers m' = 0) -> last_owner p' = last_owner p ->
  safe a {| memory := m'; threads := <[i := t']> ts |}.
Proof.
  intros Hi Hp Hm t t' H1 H2 H3 H4 H5 H6 H7 H8.
  apply (safe_update ts i o); [done|by apply (moved p)|done|].
  apply (agrees_lock o m ts i t); try done; unfold claim, reserve, in_reason, t, t'; cbn [at_pc owned].
  - by rewrite H1.
  - intros r. by rewrite H3.
  - lia.
  - by rewrite H8, H1.
Qed.

Lemma magic_ok : (Magic o =? BITBUCKET_OBJECT_HEADER_MAGIC) = true.
Proof. rewrite (ag_magic _ _ _ _ Hag). done. Qed.

Lemma reason_ok reason : 0 <= reason < ReasonCount a -> (reason <? ReasonCount (ObjectAttributes o)) = true.
Proof. rewrite (ag_attr _ _ _ _ Hag). lia. Qed.

Ltac lock_step :=
  unfold lock_shared, unlock_shared, lock_exclusive; cbn [access target m deref mret mbind outcome_ret outcome_bind];
  rewrite ?assert_ok by (apply magic_ok || (apply reason_ok; lia)); cbn [readers writer target m].

Lemma writer_cases : wr = true \/ wr = false.
Proof. clear. destruct wr; auto. Qed.

Lemma step_RefLock reason :
  ts !! i = Some {| at_pc := RefLock reason; owned := own |} -> step_result (RefLock reason) (world_step i w).
Proof.
  intros Hi. destruct (at_thread _ Hi) as [_ _ Hp]. cbn in Hp. rewrite (at_step _ Hi). cbn [thread_step granted].
  lock_step. destruct (holders o m ts i _ Hag Hts Hi) as (_ & _ & Hrd). cbn [readers m] in Hrd.
  destruct (writer_cases) as [Hw|Hw]; rewrite Hw; cbn; [done|]. apply (moved_lock (RefLock reason)); cbn; rewrite ?Hw; try done; cbn; lia.
Qed.

Lemma step_RefUnlock reason refcount rr :
  ts !! i = Some {| at_pc := RefUnlock reason refcount rr; owned := own |} ->
  step_result (RefUnlock reason refcount rr) (world_step i w).
Proof.
  intros Hi. destruct (at_thread _ Hi) as [_ _ Hp]. cbn in Hp. rewrite (at_step _ Hi). cbn [thread_step granted].
  lock_step. destruct (holders o m ts i _ Hag Hts Hi) as ((Hr & Hw & _) & _); [done|]. cbn [readers writer m] in Hr, Hw.
  cbn. apply (moved_lock (RefUnlock reason refcount rr)); cbn; rewrite ?Hw; try done; cbn; lia.
Qed.

Lemma step_DerefLock reason bias :
  ts !! i = Some {| at_pc := DerefLock reason bias; owned := own |} ->
  step_result (DerefLock reason bias) (world_step i w).
Proof.
  intros Hi. destruct (at_thread _ Hi) as [_ _ Hp]. cbn in Hp. rewrite (at_step _ Hi). cbn [thread_step granted].
  lock_step. destruct (holders o m ts i _ Hag Hts Hi) as (_ & _ & Hrd). cbn [readers m] in Hrd.
  destruct (writer_cases) as [Hw|Hw]; rewrite Hw; cbn; [done|]. apply (moved_lock (DerefLock reason bias)); cbn; rewrite ?Hw; try done; cbn; lia.
Qed.

Lemma step_DerefUnlock reason bias again :
  ts !! i = Some {| at_pc := DerefUnlock reason bias again; owned := own |} ->
  step_result (DerefUnlock reason bias again) (world_step i w).
Proof.
  intros Hi. destruct (at_thread _ Hi) as [_ _ Hp]. cbn in Hp. rewrite (at_step _ Hi). cbn [thread_step granted].
  lock_step. destruct (holders o m ts i _ Hag Hts Hi) as ((Hr & Hw & _) & _); [done|]. cbn [readers writer m] in Hr, Hw.
  cbn. destruct again; apply (moved_lock (DerefUnlock reason bias _)) with (1 := Hi); cbn; rewrite ?Hw; try done; cbn; lia.
Qed.

Lemma step_DerefXLock reason bias :
  ts !! i = Some {| at_pc := DerefXLock reason bias; owned := own |} ->
  step_result (DerefXLock reason bias) (world_step i w).
Proof.
  intros Hi. destruct (at_thread _ Hi) as [_ _ Hp]. cbn in Hp. rewrite (at_step _ Hi). cbn [thread_step granted].
  lock_step. destruct (writer_cases) as [Hw|Hw]; rewrite Hw; cbn [orb]; [done|]. destruct (Z.eqb_spec rd 0) as [Hrd|]; [|done]. cbn.
  apply (moved_lock (DerefXLock reason bias)); cbn; rewrite ?Hw; try done; cbn; lia.
Qed.

Lemma step_DerefCheckCount reason bias :
  ts !! i = Some {| at_pc := DerefCheckCount reason bias; owned := own |} ->
  step_result (DerefCheckCount reason bias) (world_step i w).
Proof.
  intros Hi. destruct (at_thread _ Hi) as [_ Ho Hp]. cbn in Hp, Ho. pose proof (sum_nonneg _ Ho).
  destruct (count_is _ Hi) as [Hc _]; [cbn; lia|done|]. pose proof (own_claim _ Hi) as Hcl. cbn in Hcl.
  rewrite (at_step _ Hi). cbn [thread_step granted]. lock_step.
  rewrite assert_ok by lia. cbn.
  apply (moved_lock (DerefCheckCount reason bias)); cbn; try done; try lia. apply (ag_lock _ _ _ _ Hag).
Qed.

Lemma step_DerefCheckReason reason bias :
  ts !! i = Some {| at_pc := DerefCheckReason reason bias; owned := own |} ->
  step_result (DerefCheckReason reason bias) (world_step i w).
Proof.
  intros Hi. pose proof (at_thread _ Hi) as Ht. pose proof (th_pc _ _ Ht) as Hp. cbn in Hp.
  destruct (own_reasons reason) as (r & Hr & Hr'); [lia|].
  pose proof (own_in_reason _ (Z.to_nat reason) Hi) as Hir. pose proof (owned_nonneg _ (Z.to_nat reason) Ht).
  unfold in_reason in Hir at 2. cbn [at_pc owned pc_reason fst snd] in *. rewrite decide_True in Hir by done.
  rewrite (at_step _ Hi). cbn [thread_step granted]. lock_step. rewrite Hr. cbn [deref mret outcome_ret mbind outcome_bind].
  rewrite assert_ok by lia. cbn.
  apply (moved_lock (DerefCheckReason reason bias)); cbn; try done; try lia. apply (ag_lock _ _ _ _ Hag).
Qed.

Lemma claim_at p own' : claim {| at_pc := p; owned := own' |} = sum own' + pc_claim p.
Proof. done. Qed.
Lemma reserve_at p own' : reserve {| at_pc := p; owned := own' |} = sum own' + pc_reserve p.
Proof. done. Qed.

Lemma moved_count p p' d :
  ts !! i = Some {| at_pc := p; owned := own |} -> pc_ok a own p' ->
  let t := {| at_pc := p; owned := own |} in let t' := {| at_pc := p'; owned := own |} in
  pc_claim p' - transient t' = pc_claim p - transient t + d -> pc_reason p' = pc_reason p ->
  pc_reserve p' <= pc_reserve p -> shares t' = shares t -> excludes t' = excludes t ->
  0 < total claim ts - pc_claim p + pc_claim p' ->
  (pc_claim p' = pc_claim p \/ forall j u, ts !! j = Some u -> last_owner (at_pc u) = false) ->
  (last_owner p' = true -> total claim ts - pc_claim p + pc_claim p' = pc_claim p') ->
  safe a {| memory := set_target (with_counts (u64 (ReferenceCount o + d)) (ReferenceReasons o) o) m;
            threads := <[i := t']> ts |}.
Proof.
  intros Hi Hp t t' H1 H2 H3 H4 H5 H6 H7 H8.
  set (o' := with_counts (ReferenceCount o + d) (ReferenceReasons o) o).
  assert (agrees a o' (set_target o' m) (<[i := t']> ts)) as Hag'.
  { apply (agrees_update o m ts i t); try done; unfold t, t' in *; rewrite ?claim_at, ?reserve_at;
      cbn [at_pc owned readers writer set_target m ReferenceCount ReferenceReasons with_counts o'] in *; try lia.
    - intros r x Hr. unfold in_reason. cbn [at_pc owned]. rewrite Hr, H2. f_equal. lia.
    - apply (ag_lock _ _ _ _ Hag).
    - destruct H7 as [->|?]; [by left|by right].
    - intros Hl. specialize (H8 Hl). lia. }
  assert (thread_ok a t') as Ht' by (by apply (moved p)).
  rewrite wrap_small; [apply (safe_update ts i o'); done|].
  assert (Forall (thread_ok a) (<[i := t']> ts)) as Hts' by (by apply Forall_insert).
  destruct (totals_ok _ Hts') as (? & ? & _). pose proof (ag_bound _ _ _ _ Hag').
  pose proof (ag_count _ _ _ _ Hag') as Hc. cbn in Hc. lia.
Qed.

Lemma moved_reason p p' reason d r :
  ts !! i = Some {| at_pc := p; owned := own |} -> pc_ok a own p' ->
  0 <= reason < ReasonCount a -> ReferenceReasons o !! Z.to_nat reason = Some r ->
  let t := {| at_pc := p; owned := own |} in let t' := {| at_pc := p'; owned := own |} in
  pc_claim p' = pc_claim p -> transient t' = transient t ->
  (forall k, in_reason k t' = in_reason k t + (if decide (Z.to_nat reason = k) then d else 0)) ->
  pc_reserve p' <= pc_reserve p -> shares t' = shares t -> excludes t' = excludes t ->
  last_owner p' = last_owner p ->
  safe a {| memory := set_target (with_counts (ReferenceCount o) (<[Z.to_nat reason := u32 (r + d)]> (ReferenceReasons o)) o) m;
            threads := <[i := t']> ts |}.
Proof.
  intros Hi Hp Hreason Hr t t' H1 H2 H3 H4 H5 H6 H7.
  set (o' := with_counts (ReferenceCount o) (<[Z.to_nat reason := r + d]> (ReferenceReasons o)) o).
  pose proof (own_claim _ Hi). pose proof (ag_live _ _ _ _ Hag).
  assert (agrees a o' (set_target o' m) (<[i := t']> ts)) as Hag'.
  { apply (agrees_update o m ts i t); try done; try rewrite H3; unfold t, t' in *; rewrite ?claim_at, ?reserve_at;
      cbn [at_pc owned readers writer set_target m ReferenceCount ReferenceReasons with_counts o'] in *; try lia.
    - by rewrite length_insert.
    - intros k x Hk. rewrite H3. destruct (decide (Z.to_nat reason = k)) as [<-|Hne].
      + rewrite list_lookup_insert_eq by (by eapply lookup_lt_Some). f_equal. simplify_eq. lia.
      + rewrite list_lookup_insert_ne, Hk by done. f_equal. lia.
    - apply (ag_lock _ _ _ _ Hag).
    - rewrite H7. intros Hl. pose proof (ag_last _ _ _ _ Hag _ _ Hi Hl) as E. cbn in E. lia. }
  assert (thread_ok a t') as Ht' by (by apply (moved p)).
  rewrite wrap_small; [apply (safe_update ts i o'); done|].
  assert (Forall (thread_ok a) (<[i := t']> ts)) as Hts' by (by apply Forall_insert).
  destruct (totals_ok _ Hts') as (_ & _ & Hb). specialize (Hb (Z.to_nat reason)). pose proof (ag_bound _ _ _ _ Hag').
  assert (ReferenceReasons o' !! Z.to_nat reason = Some (total (in_reason (Z.to_nat reason)) (<[i := t']> ts))) as E.
  { apply (ag_reason _ _ _ _ Hag'). lia. }
  cbn in E. rewrite list_lookup_insert_eq in E by (by eapply lookup_lt_Some). injection E as ->. lia.
Qed.

Ltac start Hi :=
  pose proof (at_thread _ Hi) as Ht; pose proof (th_pc _ _ Ht) as Hp; pose proof (sum_nonneg _ (th_owned _ _ Ht)) as Hsum;
  cbn in Hp, Hsum; pose proof (own_claim _ Hi) as Hcl; cbn [pc_claim] in Hcl;
  rewrite (at_step _ Hi); cbn [thread_step granted]; unfold fetch_add_count, fetch_add_reason;
  cbn [access target m deref mret mbind outcome_ret outcome_bind].

Lemma step_RefCount reason :
  ts !! i = Some {| at_pc := RefCount reason; owned := own |} -> step_result (RefCount reason) (world_step i w).
Proof.
  intros Hi. destruct (count_is _ Hi) as [Hc Hl].
  { destruct (at_thread _ Hi) as [_ _ Hp]. cbn [at_pc owned pc_ok pc_claim] in *. lia. } { done. }
  start Hi. apply (moved_count (RefCount reason) (RefReason reason _)); cbn; try done; try lia. by right.
Qed.

Lemma step_RefReason reason refcount :
  ts !! i = Some {| at_pc := RefReason reason refcount; owned := own |} ->
  step_result (RefReason reason refcount) (world_step i w).
Proof.
  intros Hi. start Hi. destruct (own_reasons reason) as (r & Hr & _); [lia|].
  rewrite Hr. cbn. apply (moved_reason (RefReason reason refcount)); cbn; try done; try lia.
  intros k. unfold in_reason. cbn. repeat case_decide; lia.
Qed.

Lemma step_DerefSub reason bias :
  ts !! i = Some {| at_pc := DerefSub reason bias; owned := own |} ->
  step_result (DerefSub reason bias) (world_step i w).
Proof.
  intros Hi. destruct (count_is _ Hi) as [Hc Hl].
  { pose proof (at_thread _ Hi) as Ht. pose proof (sum_nonneg _ (th_owned _ _ Ht)). destruct Ht as [_ _ Hp]. cbn [at_pc owned pc_ok pc_claim] in *. lia. } { done. }
  start Hi. destruct (Z.eqb_spec bias (ReferenceCount o)) as [Hb|Hb]; cbn;
    apply (moved_count (DerefSub reason bias) _) with (1 := Hi); cbn; try done; try lia. by right.
Qed.

Lemma step_DerefRestore reason bias :
  ts !! i = Some {| at_pc := DerefRestore reason bias; owned := own |} ->
  step_result (DerefRestore reason bias) (world_step i w).
Proof.
  intros Hi. destruct (count_last _ Hi eq_refl) as (Hc & Htot & _). start Hi.
  apply (moved_count (DerefRestore reason bias)); cbn in *; try done; try lia.
Qed.

Lemma step_DerefReason reason bias :
  ts !! i = Some {| at_pc := DerefReason reason bias; owned := own |} ->
  step_result (DerefReason reason bias) (world_step i w).
Proof.
  intros Hi. start Hi. destruct (own_reasons reason) as (r & Hr & Hr'); [lia|].
  pose proof (own_in_reason _ (Z.to_nat reason) Hi) as Hir. pose proof (owned_nonneg _ (Z.to_nat reason) Ht) as Ho.
  rewrite Hr. cbn. rewrite assert_ok.
  2:{ unfold in_reason at 2 in Hir. cbn [at_pc owned pc_reason fst snd] in *. rewrite decide_True in Hir by done. lia. }
  apply (moved_reason (DerefReason reason bias)); cbn; try done; try lia.
  intros k. unfold in_reason. cbn. repeat case_decide; lia.
Qed.

Lemma step_DerefXSub reason bias :
  ts !! i = Some {| at_pc := DerefXSub reason bias; owned := own |} ->
  step_result (DerefXSub reason bias) (world_step i w).
Proof.
  intros Hi. destruct (count_last _ Hi eq_refl) as (Hc & Htot & _). cbn in Hc. start Hi.
  rewrite assert_ok by lia. apply (moved_count (DerefXSub reason bias) (DerefXReason _ _ _)); cbn in *; try done; try lia.
Qed.

Lemma step_DerefXReason reason bias refcount :
  ts !! i = Some {| at_pc := DerefXReason reason bias refcount; owned := own |} ->
  step_result (DerefXReason reason bias refcount) (world_step i w).
Proof.
  intros Hi. start Hi. destruct (own_reasons reason) as (r & Hr & Hr'); [lia|].
  pose proof (own_in_reason _ (Z.to_nat reason) Hi) as Hir. pose proof (owned_nonneg _ (Z.to_nat reason) Ht) as Ho.
  rewrite Hr. cbn. rewrite assert_ok.
  2:{ unfold in_reason at 2 in Hir. cbn [at_pc owned pc_reason fst snd] in *. rewrite decide_True in Hir by done. lia. }
  apply (moved_reason (DerefXReason reason bias refcount)); cbn; try done; try lia.
  intros k. unfold in_reason. cbn. repeat case_decide; lia.
Qed.

Lemma step_RefCheck reason refcount rr :
  ts !! i = Some {| at_pc := RefCheck reason refcount rr; owned := own |} ->
  step_result (RefCheck reason refcount rr) (world_step i w).
Proof.
  intros Hi. start Hi. destruct Ht as [Hlen Hown _]. cbn in Hlen, Hown.
  rewrite assert_ok by lia. unfold c_assert. destruct (Z.leb_spec rr refcount); cbn.
  2:{ exists reason, refcount, rr. split; [done|lia]. }
  assert (0 <= held own (Z.to_nat reason)) as Hh.
  { apply (owned_nonneg {| at_pc := Idle; owned := own |}). by constructor. }
  destruct (bag_add_ok own reason 1 Hlen Hown) as [Hlen' Hown']; [lia|].
  apply (safe_update ts i o); [done|by constructor|done|].
  apply (agrees_lock o m ts i _ _ _ Hag Hi); try done.
  - rewrite !claim_at, sum_bag_add by (done || lia). cbn. lia.
  - intros r. unfold in_reason. cbn. rewrite held_bag_add by (done || lia). repeat case_decide; lia.
  - rewrite !reserve_at, sum_bag_add by (done || lia). cbn. lia.
  - cbn. lia.
  - cbn. lia.
  - apply (ag_lock _ _ _ _ Hag).
Qed.

(** When the last owner deletes the object, nobody else is in a call. *)
Lemma last_alone p j u :
  ts !! i = Some {| at_pc := p; owned := own |} -> last_owner p = true ->
  excludes {| at_pc := p; owned := own |} = 1 ->
  ts !! j = Some u -> j <> i -> at_pc u = Idle /\ sum (owned u) = 0.
Proof.
  intros Hi Hl Hx Hj Hne.
  destruct (other_claims o m ts i _ j u Hag Hts Hi Hl Hj Hne) as [Hc _].
  destruct (holders o m ts i _ Hag Hts Hi) as (_ & Hh & _). destruct (Hh Hx) as (_ & _ & Ho).
  destruct (Ho j u Hj Hne) as [Hs Hex].
  assert (thread_ok a u) as Hu by (by eapply Forall_lookup_1).
  pose proof (measures_ok u Hu) as (_ & _ & _ & _ & _ & Hsum). destruct Hu as [_ _ Hp]. unfold claim in Hc.
  destruct u as [q own']. unfold shares, excludes in *. cbn [at_pc owned] in *.
  destruct q as [| | | | | | | | | | | |? ? []| | | |]; cbn in *; try lia; done || (split; [done|lia]).
Qed.

Lemma step_DerefFree reason bias refcount :
  ts !! i = Some {| at_pc := DerefFree reason bias refcount; owned := own |} ->
  step_result (DerefFree reason bias refcount) (world_step i w).
Proof.
  intros Hi. start Hi. destruct (count_last _ Hi eq_refl) as (_ & _ & Hs).
  destruct (Z.eqb_spec bias refcount); [|lia]. cbn. constructor; cbn.
  - done.
  - apply Forall_insert; [done|]. destruct Ht. by constructor.
  - apply Forall_lookup. intros j u Hj. destruct (decide (j = i)) as [->|Hne].
    + rewrite list_lookup_insert_eq in Hj by (by eapply lookup_lt_Some). injection Hj as <-. done.
    + rewrite list_lookup_insert_ne in Hj by congruence. by eapply last_alone.
Qed.

Lemma step_any p :
  p <> Idle -> ts !! i = Some {| at_pc := p; owned := own |} -> step_result p (world_step i w).
Proof.
  intros Hp Hi. destruct p; [done|..]; first
    [by apply step_RefLock|by apply step_RefCount|by apply step_RefReason|by apply step_RefUnlock|by apply step_RefCheck
    |by apply step_DerefCheckCount|by apply step_DerefCheckReason|by apply step_DerefLock|by apply step_DerefSub
    |by apply step_DerefRestore|by apply step_DerefReason|by apply step_DerefUnlock|by apply step_DerefXLock
    |by apply step_DerefXSub|by apply step_DerefXReason|by apply step_DerefFree].
Qed.
End step.

Lemma run_safe i t w :
  safe a w -> threads w !! i = Some t -> at_pc t <> Idle -> step_result (at_pc t) (world_step i w).
Proof.
  intros [_ Hts Ho] Hi Hp. destruct w as [[[o|] rd wr] ts], t as [p own]; cbn in *.
  - by apply (step_any o rd wr ts i own Ho Hts p).
  - exfalso. apply Hp. by apply (Forall_lookup_1 _ _ _ _ Ho Hi).
Qed.

(** ** Calls and gifts *)

Lemma call_reference_safe i reason w :
  safe a w -> permitted a true (CallReference i reason) w = true ->
  exists w', do_event (CallReference i reason) w = Done w' /\ safe a w'.
Proof.
  intros [_ Hts Ho] Hp. cbn in Hp. destruct (threads w !! i) as [[p own]|] eqn:Hi; [|done].
  cbn [at_pc owned] in Hp. destruct p; try done. cbn in Hp.
  destruct w as [[[o|] rd wr] ts]; cbn in *; rewrite Hi.
  - eexists. split; [reflexivity|]. set (t' := {| at_pc := RefLock reason; owned := own |}).
    assert (thread_ok a t') as Ht'.
    { destruct (Forall_lookup_1 _ _ _ _ Hts Hi) as [H1 H2 _]. constructor; [done|done|]. cbn. lia. }
    apply (safe_update ts i o _ t'); [done|done|done|]. pose proof Ho as [].
    constructor; try done; rewrite ?(total_insert _ _ _ _ t' Hi); unfold t'; rewrite ?claim_at, ?reserve_at; cbn; try lia.
    + intros r Hr. rewrite (total_insert _ _ _ _ t' Hi), ag_reason0 by done. f_equal. unfold in_reason, t'. cbn. lia.
    + cbn in ag_readers0. lia.
    + cbn in ag_writer0. lia.
    + intros j u Hj Hu. destruct (decide (j = i)) as [->|Hne].
      * rewrite list_lookup_insert_eq in Hj by (by eapply lookup_lt_Some). by simplify_eq.
      * rewrite list_lookup_insert_ne in Hj by congruence. rewrite (ag_last0 j u) by done. lia.
  - destruct (Forall_lookup_1 _ _ _ _ Ho Hi) as [_ Hs]. cbn in Hs. lia.
Qed.

Lemma call_dereference_safe i reason bias w :
  safe a w -> permitted a true (CallDereference i reason bias) w = true ->
  exists w', do_event (CallDereference i reason bias) w = Done w' /\ safe a w'.
Proof.
  intros [_ Hts Ho] Hp. cbn in Hp. destruct (threads w !! i) as [[p own]|] eqn:Hi; [|done].
  cbn [at_pc owned] in Hp. destruct p; try done. cbn in Hp.
  pose proof (Forall_lookup_1 _ _ _ _ Hts Hi) as Ht. pose proof (owned_nonneg _ (Z.to_nat reason) Ht) as Hh. cbn in Hh.
  destruct Ht as [H1 H2 _]. cbn in H1, H2. destruct (bag_add_ok own reason (- bias) H1 H2) as [H3 H4]; [lia|].
  destruct w as [[[o|] rd wr] ts]; cbn in *; rewrite Hi.
  - eexists. split; [reflexivity|].
    apply (safe_update ts i o _ _); [done|constructor; [done|done|cbn; lia]|done|].
    apply (agrees_lock o _ ts i _ _ _ Ho Hi); try done; rewrite ?claim_at, ?reserve_at, ?sum_bag_add by (done || lia); cbn; try lia.
    + intros r. unfold in_reason. cbn. rewrite held_bag_add by (done || lia). repeat case_decide; lia.
    + apply (ag_lock _ _ _ _ Ho).
  - destruct (Forall_lookup_1 _ _ _ _ Ho Hi) as [_ Hs]. cbn in Hs. lia.
Qed.

Lemma give_safe i j reason n w :
  safe a w -> permitted a true (Give i j reason n) w = true ->
  exists w', do_event (Give i j reason n) w = Done w' /\ safe a w'.
Proof.
  intros [_ Hts Ho] Hp. cbn in Hp. destruct (threads w !! i) as [[p own]|] eqn:Hi; [|done].
  destruct (threads w !! j) as [[q own']|] eqn:Hj; [|done]. cbn [at_pc owned] in Hp. destruct p; try by destruct (i =? j)%nat.
  assert (i <> j) as Hij by (intros ->; by rewrite Nat.eqb_refl in Hp).
  pose proof (Forall_lookup_1 _ _ _ _ Hts Hi) as Ht. pose proof (owned_nonneg _ (Z.to_nat reason) Ht) as Hh. cbn in Hh.
  pose proof (Forall_lookup_1 _ _ _ _ Hts Hj) as Hu. pose proof (owned_nonneg _ (Z.to_nat reason) Hu) as Hh'. cbn in Hh'.
  destruct Ht as [H1 H2 _], Hu as [H3 H4 H5]. cbn in H1, H2, H3, H4, H5.
  cbn in Hp. assert (0 <= reason < ReasonCount a /\ 1 <= n <= held own (Z.to_nat reason)) as [Hr Hn] by lia.
  destruct (bag_add_ok own reason (- n) H1 H2) as [H6 H7]; [lia|].
  destruct (bag_add_ok own' reason n H3 H4) as [H8 H9]; [lia|].
  destruct w as [m ts]. cbn in *. rewrite Hi, Hj. cbn. unfold set_thread. cbn. eexists. split; [reflexivity|].
  set (t' := {| at_pc := Idle; owned := bag_add reason (- n) own |}).
  set (u' := {| at_pc := q; owned := bag_add reason n own' |}).
  assert (<[i := t']> ts !! j = Some {| at_pc := q; owned := own' |}) as Hj' by (by rewrite list_lookup_insert_ne).
  assert (thread_ok a u') as Hu'.
  { constructor; [done|done|]. unfold u'. cbn. destruct q; cbn in *; rewrite ?sum_bag_add by (done || lia); lia. }
  constructor; cbn; [done|by do 2 (apply Forall_insert; [|done || by constructor])|].
  destruct (target m) as [o|].
  2:{ destruct (Forall_lookup_1 _ _ _ _ Ho Hi) as [_ Hs]. cbn in Hs. lia. }
  assert (forall f, total f (<[j := u']> (<[i := t']> ts)) =
    total f ts + (f t' - f {| at_pc := Idle; owned := own |}) + (f u' - f {| at_pc := q; owned := own' |})) as Htot.
  { intros f. rewrite (total_insert _ _ _ _ u' Hj'), (total_insert _ _ _ _ t' Hi). lia. }
  pose proof Ho as []. constructor; rewrite ?Htot; try done.
  - unfold t', u'. rewrite !claim_at, !sum_bag_add by (done || lia).
    change (transient {| at_pc := q; owned := bag_add reason n own' |}) with (transient {| at_pc := q; owned := own' |}). cbn. lia.
  - intros r Hr'. rewrite Htot, ag_reason0 by done. f_equal. unfold in_reason, t', u'. cbn.
    rewrite !held_bag_add by (done || lia). repeat case_decide; lia.
  - change (shares u') with (shares {| at_pc := q; owned := own' |}). change (shares t') with 0.
    change (shares {| at_pc := Idle; owned := own |}) with 0. lia.
  - change (excludes u') with (excludes {| at_pc := q; owned := own' |}). change (excludes t') with 0.
    change (excludes {| at_pc := Idle; owned := own |}) with 0. lia.
  - unfold t', u'. rewrite !claim_at, !sum_bag_add by (done || lia). lia.
  - unfold t', u'. rewrite !reserve_at, !sum_bag_add by (done || lia). lia.
  - intros k v Hk Hv. unfold t', u'. rewrite !claim_at, !sum_bag_add by (done || lia).
    assert (exists v0, ts !! k = Some v0 /\ at_pc v0 = at_pc v) as (v0 & Hv0 & E).
    { destruct (decide (k = j)) as [->|]; [|destruct (decide (k = i)) as [->|]].
      - rewrite list_lookup_insert_eq in Hk by (by eapply lookup_lt_Some). simplify_eq. by exists {| at_pc := q; owned := own' |}.
      - rewrite list_lookup_insert_ne, list_lookup_insert_eq in Hk by (done || by eapply lookup_lt_Some).
        injection Hk as <-. by exists {| at_pc := Idle; owned := own |}.
      - rewrite !list_lookup_insert_ne in Hk by congruence. eauto. }
    rewrite <- E in *. rewrite (ag_last0 k v0) by done. lia.
Qed.

(** ** Reachable worlds are safe *)

Lemma start_safe size InitialReason n : 0 <= InitialReason < ReasonCount a -> safe a (start a size InitialReason n).
Proof.
  intros Hr. assert (sum (replicate 12 0) = 0) as H0 by reflexivity.
  set (t0 := {| at_pc := Idle; owned := replicate 12 0 |}).
  set (t1 := {| at_pc := Idle; owned := <[Z.to_nat InitialReason := 1]> (replicate 12 0) |}).
  assert (sum (owned t1) = 1) as H1.
  { cbn [owned t1]. rewrite (sum_insert _ _ _ 0); [lia|]. apply lookup_replicate_2. lia. }
  assert (forall f, f t0 = 0 -> total f (t1 :: replicate n t0) = f t1) as Htot.
  { intros f Hf. rewrite total_cons, total_zero; [lia|]. by apply Forall_replicate. }
  constructor; cbn; [done|..].
  - constructor; [|apply Forall_replicate]; constructor; cbn [owned at_pc t0 t1].
    + by rewrite length_insert.
    + apply Forall_insert; [by repeat constructor|lia].
    + done.
    + done.
    + by repeat constructor.
    + done.
  - constructor; cbn [readers writer]; fold t0 t1; try done; try (rewrite !Htot by done).
    + cbn [ReferenceReasons new_object]. by rewrite length_insert.
    + unfold claim. rewrite H1. reflexivity.
    + intros r Hlt. rewrite Htot.
      2:{ unfold in_reason, t0, held. cbn [owned at_pc pc_reason fst snd]. rewrite lookup_replicate_2 by done. by case_decide. }
      unfold in_reason, held. cbn [owned t1 at_pc pc_reason fst snd].
      destruct (lookup_lt_is_Some_2 (<[Z.to_nat InitialReason := 1]> (replicate 12 0)) r) as [x Hx].
      { by rewrite length_insert. }
      cbn [ReferenceReasons new_object]. rewrite Hx. cbn. f_equal. case_decide; lia.
    + done.
    + done.
    + unfold claim. rewrite H1. done.
    + unfold reserve. rewrite H1. done.
    + intros i t Hi Hl. destruct i as [|i]; cbn in Hi; [by simplify_eq|].
      apply lookup_replicate in Hi as [-> _]. done.
Qed.

Lemma event_safe e w w' :
  safe a w -> permitted a true e w = true -> do_event e w = Done w' -> safe a w'.
Proof.
  intros Hs Hp He. destruct e as [i reason|i reason bias|i j reason n|i].
  - destruct (call_reference_safe _ _ _ Hs Hp) as (? & ? & ?). congruence.
  - destruct (call_dereference_safe _ _ _ _ Hs Hp) as (? & ? & ?). congruence.
  - destruct (give_safe _ _ _ _ _ Hs Hp) as (? & ? & ?). congruence.
  - cbn in Hp, He. destruct (threads w !! i) as [t|] eqn:Hi; [|done].
    pose proof (run_safe i t w Hs Hi) as Hr. rewrite He in Hr. apply Hr. by destruct (at_pc t).
Qed.

Lemma reachable_safe w : reachable a true w -> safe a w.
Proof. induction 1; [by apply start_safe|by eapply event_safe]. Qed.

(** ** Every call ends *)

(** How many steps a call still takes at most. *)
Definition work (t : thread) : Z :=
  match at_pc t with
  | Idle => 0
  | RefLock _ => 5 | RefCount _ => 4 | RefReason _ _ => 3 | RefUnlock _ _ _ => 2 | RefCheck _ _ _ => 1
  | DerefCheckCount _ _ => 10 | DerefCheckReason _ _ => 9 | DerefLock _ _ => 8 | DerefSub _ _ => 7
  | DerefRestore _ _ => 6 | DerefReason _ _ => 2
  | DerefUnlock _ _ true => 5 | DerefUnlock _ _ false => 1
  | DerefXLock _ _ => 4 | DerefXSub _ _ => 3 | DerefXReason _ _ _ => 2 | DerefFree _ _ _ => 1
  end.

Lemma outcome_bind_inv {A B} (x : outcome A) (k : A -> outcome B) b :
  (x ≫= k) = Done b -> exists y, x = Done y /\ k y = Done b.
Proof. destruct x; cbn; [eauto|done]. Qed.

Lemma thread_step_work m p m' p' own own' :
  p <> Idle -> thread_step m p = Done (m', p') ->
  work {| at_pc := p'; owned := own' |} < work {| at_pc := p; owned := own |}.
Proof.
  intros Hp H. destruct p; cbn [thread_step] in H; [done|..];
    repeat match goal with
    | H : (_ ≫= _) = Done _ |- _ => apply outcome_bind_inv in H as (? & ? & H)
    | H : (let '(_, _) := ?x in _) = Done _ |- _ => destruct x
    | H : (if ?b then _ else _) = Done _ |- _ => destruct b
    | H : Done _ = Done _ |- _ => injection H as <- <-
    end; cbn; repeat case_match; simplify_eq; cbn; lia.
Qed.

Lemma run_work i t w w' :
  threads w !! i = Some t -> at_pc t <> Idle -> world_step i w = Done w' ->
  total work (threads w') < total work (threads w).
Proof.
  intros Hi Hp H. unfold world_step in H. rewrite Hi in H. cbn in H.
  destruct (thread_step (memory w) (at_pc t)) as [[m' p']|f] eqn:E; [|done]. cbn in H. injection H as <-. cbn.
  rewrite (total_insert _ _ _ _ _ Hi). pose proof (thread_step_work _ _ _ _ (owned t) (granted (at_pc t) (owned t)) Hp E).
  unfold work in *. cbn in *. lia.
Qed.

(** A thread that holds the lock moves; when nobody holds it, the first one
    that asks gets it. *)
Lemma someone_moves w i t :
  safe a w -> threads w !! i = Some t -> at_pc t <> Idle ->
  exists j u, threads w !! j = Some u /\ at_pc u <> Idle /\ world_step j w <> Fail Blocked.
Proof.
  intros Hs Hi Hp. destruct (decide (Exists (fun u => takes_lock (at_pc u) = false /\ is_idle (at_pc u) = false) (threads w))) as [He|Hn].
  - apply list.Exists_exists in He as (u & Hu & Hl & Hid).
    assert (at_pc u <> Idle) as Hne by (intros E; by rewrite E in Hid). apply list_elem_of_lookup in Hu as [j Hj].
    exists j, u. split; [done|]. split; [done|]. intros Hb.
    pose proof (run_safe j u w Hs Hj Hne) as Hr. rewrite Hb in Hr. cbn in Hr. congruence.
  - exists i, t. split; [done|]. split; [done|].
    assert (forall j u, threads w !! j = Some u -> shares u = 0 /\ excludes u = 0) as Hz.
    { intros j u Hj. destruct (takes_lock (at_pc u)) eqn:El.
      - unfold shares, excludes. by destruct (at_pc u).
      - destruct (decide (is_idle (at_pc u) = true)) as [Hid|Hid].
        + unfold shares, excludes. by destruct (at_pc u).
        + destruct Hn. apply list.Exists_exists. exists u. split; [by eapply list_elem_of_lookup_2|].
          split; [done|]. by destruct (is_idle (at_pc u)). }
    assert (takes_lock (at_pc t) = true) as Htl.
    { apply not_false_is_true. intros Hf. destruct Hn. apply list.Exists_exists. exists t.
      split; [by eapply list_elem_of_lookup_2|]. split; [done|]. by destruct (at_pc t). }
    destruct Hs as [_ _ Ho]. destruct w as [[[o|] rd wr] ts]; cbn in *.
    2:{ by destruct (Forall_lookup_1 _ _ _ _ Ho Hi). }
    destruct Ho. rewrite (total_zero shares) in ag_readers0 by (apply Forall_lookup; intros j u Hj; by destruct (Hz j u Hj)).
    rewrite (total_zero excludes) in ag_writer0 by (apply Forall_lookup; intros j u Hj; by destruct (Hz j u Hj)).
    cbn in *. subst rd. destruct wr; [done|].
    unfold world_step. cbn. rewrite Hi. cbn.
    destruct (at_pc t); cbn in *; try done;
      unfold lock_shared, lock_exclusive, c_assert; cbn; repeat (case_match; cbn); done.
Qed.
End threads.

(** * Properties *)

(** A list of threads, each of which makes one step. *)
Fixpoint run_schedule (sched : list nat) (w : world) : outcome world :=
  match sched with
  | [] => Done w
  | i :: sched =>
      match threads w !! i with
      | Some t => if is_idle (at_pc t) then Fail Undefined else w ← world_step i w; run_schedule sched w
      | None => Fail Undefined
      end
  end.

Lemma run_schedule_safe a sched w w' :
  0 <= ReasonCount a <= 12 -> safe a w -> run_schedule sched w = Done w' ->
  safe a w' /\ Z.of_nat (length sched) + total work (threads w') <= total work (threads w).
Proof.
  intros Ha. revert w. induction sched as [|i sched IH]; intros w Hs H; cbn in H.
  - injection H as <-. split; [done|]. cbn. lia.
  - destruct (threads w !! i) as [t|] eqn:Hi; [|done]. destruct (is_idle (at_pc t)) eqn:Hid; [done|].
    assert (at_pc t <> Idle) as Hp by (intros E; by rewrite E in Hid).
    pose proof (run_safe a Ha i t w Hs Hi Hp) as Hr. destruct (world_step i w) as [w1|] eqn:E; [|done]. cbn in H, Hr.
    destruct (IH w1 Hr H) as [Hs' Hl]. split; [done|]. pose proof (run_work i t w w1 Hi Hp E). cbn [length]. lia.
Qed.

(** C21: With strict clients the object is never used after it is freed, no
    counter underflows, the reference count is never seen at 0 by a new
    reference, and the deletion never finds another reference: in every
    reachable state the next step of a thread that is in a call is made, or
    waits for the lock, or is the comparison of the two counters at the end
    of BitbucketObjectReference with a larger second one. *)
Theorem object_memory_safe a w i t :
  0 <= ReasonCount a <= 12 -> reachable a true w -> threads w !! i = Some t -> at_pc t <> Idle ->
  (exists w', world_step i w = Done w') \/
  (world_step i w = Fail Blocked /\ takes_lock (at_pc t) = true) \/
  (world_step i w = Fail AssertFailed /\ exists reason refcount reasonRefCount,
     at_pc t = RefCheck reason refcount reasonRefCount /\ 0 < refcount < reasonRefCount).
Proof.
  intros Ha Hw Hi Hp. pose proof (run_safe a Ha i t w (reachable_safe a Ha w Hw) Hi Hp) as H.
  destruct (world_step i w) as [w'|[]]; cbn in H; eauto; done.
Qed.

(** C23: The object is freed only when nobody is in a call and nobody owns a
    reference; when nobody is in a call, it is there exactly if somebody owns
    a reference, and its counters are the numbers of owned references. *)
Theorem object_lives_while_owned a w :
  0 <= ReasonCount a <= 12 -> reachable a true w ->
  (target (memory w) = None -> abandoned (threads w)) /\
  (Forall (fun t => at_pc t = Idle) (threads w) ->
   match target (memory w) with
   | None => total (fun t => sum (owned t)) (threads w) = 0
   | Some o => 0 < ReferenceCount o /\ ReferenceCount o = total (fun t => sum (owned t)) (threads w) /\
               forall r, (r < 12)%nat ->
                 ReferenceReasons o !! r = Some (total (fun t => held (owned t) r) (threads w))
   end).
Proof.
  intros Ha Hw. destruct (reachable_safe a Ha w Hw) as [_ Hts Ho]. split.
  { intros E. by rewrite E in Ho. }
  intros Hid. destruct (target (memory w)) as [o|].
  - assert (forall f g : thread -> Z, (forall own, f {| at_pc := Idle; owned := own |} = g {| at_pc := Idle; owned := own |}) ->
      total f (threads w) = total g (threads w)) as Hext.
    { intros f g Hfg. unfold total. f_equal. apply list_fmap_ext. intros k [p own] Hk.
      pose proof (Forall_lookup_1 _ _ _ _ Hid Hk) as E. cbn in E. subst p. apply Hfg. }
    destruct Ho. rewrite (Hext claim (fun t => sum (owned t))) in ag_count0, ag_live0 by (intros; unfold claim; cbn; lia).
    rewrite (Hext transient (fun _ => 0)) in ag_count0 by done.
    rewrite (total_zero (fun _ => 0)) in ag_count0 by (by apply Forall_true).
    split; [lia|]. split; [lia|]. intros r Hr. rewrite ag_reason0 by done. f_equal. apply Hext.
    intros own. unfold in_reason. cbn. case_decide; lia.
  - apply total_zero. apply (Forall_impl _ _ _ Ho). by intros t [_ ?].
Qed.

(** C24: Calls end: the steps threads can make before all are idle are bounded,
    and as long as one is in a call, one that is can move on.  No thread
    waits for the lock for ever. *)
Theorem object_calls_end a w sched w' :
  0 <= ReasonCount a <= 12 -> reachable a true w -> run_schedule sched w = Done w' ->
  Z.of_nat (length sched) <= total work (threads w) /\
  ((exists i t, threads w' !! i = Some t /\ at_pc t <> Idle) ->
   exists i t, threads w' !! i = Some t /\ at_pc t <> Idle /\ world_step i w' <> Fail Blocked).
Proof.
  intros Ha Hw H. destruct (run_schedule_safe a sched w w' Ha (reachable_safe a Ha w Hw) H) as [Hs Hl]. split.
  - enough (0 <= total work (threads w')) by lia. apply total_nonneg. apply Forall_lookup. intros i [p own] _.
    unfold work. cbn. destruct p as [| | | | | | | | | | | |? ? []| | | |]; lia.
  - intros (i & t & Hi & Hp). by eapply someone_moves.
Qed.

(** ** A thread that is alone *)

Fixpoint run_call (fuel : nat) (m : shared) (p : pc) : outcome shared :=
  match p, fuel with
  | Idle, _ => Done m
  | _, O => Fail OutOfFuel
  | _, S fuel => '(m, p) ← thread_step m p; run_call fuel m p
  end.

Definition entry (op : ref_op) : pc :=
  match op with
  | Reference reason => RefLock reason
  | Dereference reason bias => DerefCheckCount reason bias
  end.

Lemma run_call_step fuel m p m' p' :
  thread_step m p = Done (m', p') -> p <> Idle -> run_call (S fuel) m p = run_call fuel m' p'.
Proof. intros H Hp. cbn. destruct p; [done|..]; by rewrite H. Qed.

Ltac alone_step := erewrite run_call_step; [|cbn; unfold lock_shared, unlock_shared, lock_exclusive, fetch_add_count, fetch_add_reason|done].

Lemma reference_alone o reason r m :
  object_ok o -> 0 <= reason < ReasonCount (ObjectAttributes o) ->
  ReferenceReasons o !! Z.to_nat reason = Some r -> ReferenceCount o + 1 < 2 ^ 32 ->
  m = {| target := Some o; readers := 0; writer := false |} ->
  run_call 10 m (RefLock reason) = Done (set_target (with_counts (ReferenceCount o + 1)
    (<[Z.to_nat reason := r + 1]> (ReferenceReasons o)) o) m).
Proof.
  intros Hok Hr Hl Hb ->. pose proof Hok as [].
  destruct (reason_lookup o reason Hok Hr) as (r' & Hl' & Hr'). rewrite Hl in Hl'. simplify_eq.
  assert ((Magic o =? BITBUCKET_OBJECT_HEADER_MAGIC) = true) as Hm by lia.
  alone_step; [|rewrite assert_ok by lia; cbn; rewrite Hm; reflexivity].
  alone_step; [|reflexivity].
  alone_step; [|cbn; rewrite Hl; reflexivity].
  alone_step; [|cbn; rewrite Hm; reflexivity].
  alone_step; [|rewrite !assert_ok by lia; reflexivity].
  cbn. unfold set_target. cbn. rewrite !wrap_small by lia. done.
Qed.

Lemma dereference_alone o reason bias r m :
  object_ok o -> 0 <= reason < ReasonCount (ObjectAttributes o) ->
  ReferenceReasons o !! Z.to_nat reason = Some r -> 0 <= bias <= r -> bias < ReferenceCount o ->
  m = {| target := Some o; readers := 0; writer := false |} ->
  run_call 10 m (DerefCheckCount reason bias) = Done (set_target (with_counts (ReferenceCount o - bias)
    (<[Z.to_nat reason := r - bias]> (ReferenceReasons o)) o) m).
Proof.
  intros Hok Hr Hl Hb Hlt ->. pose proof Hok as [].
  destruct (reason_lookup o reason Hok Hr) as (r' & Hl' & Hr'). rewrite Hl in Hl'. simplify_eq.
  assert ((Magic o =? BITBUCKET_OBJECT_HEADER_MAGIC) = true) as Hm by lia.
  alone_step; [|rewrite Hm; cbn; rewrite !assert_ok by lia; reflexivity].
  alone_step; [|rewrite Hl; cbn; rewrite !assert_ok by lia; reflexivity].
  alone_step; [|rewrite Hm; reflexivity].
  alone_step; [|reflexivity]. destruct (Z.eqb_spec bias (ReferenceCount o)); [lia|].
  alone_step; [|cbn; rewrite Hl; cbn; rewrite !assert_ok by lia; reflexivity].
  alone_step; [|cbn; rewrite Hm; reflexivity].
  cbn. unfold set_target. cbn. rewrite !wrap_small by lia. done.
Qed.

Lemma last_alone_run o reason m :
  object_ok o -> 0 <= reason < ReasonCount (ObjectAttributes o) ->
  ReferenceReasons o !! Z.to_nat reason = Some (ReferenceCount o) ->
  m = {| target := Some o; readers := 0; writer := false |} ->
  run_call 10 m (DerefCheckCount reason (ReferenceCount o)) =
  Done {| target := None; readers := 0; writer := negb (deallocate_unlocks (ObjectAttributes o)) |}.
Proof.
  intros Hok Hr Hl ->. pose proof Hok as [].
  assert ((Magic o =? BITBUCKET_OBJECT_HEADER_MAGIC) = true) as Hm by lia.
  alone_step; [|rewrite Hm; cbn; rewrite !assert_ok by lia; reflexivity].
  alone_step; [|rewrite Hl; cbn; rewrite !assert_ok by lia; reflexivity].
  alone_step; [|rewrite Hm; reflexivity].
  alone_step; [|reflexivity]. rewrite Z.eqb_refl.
  alone_step; [|reflexivity].
  alone_step; [|cbn; rewrite Hm; reflexivity]. cbn iota.
  alone_step; [|cbn; rewrite Hm; reflexivity].
  assert (u64 (u64 (ReferenceCount o + - ReferenceCount o) + ReferenceCount o) = ReferenceCount o) as Hc.
  { rewrite Z.add_opp_diag_r, (wrap_small 64 0), wrap_small by lia. done. }
  alone_step; [|cbn; rewrite Hc, assert_ok by lia; reflexivity].
  alone_step; [|cbn; rewrite Hl; cbn; rewrite assert_ok by lia; reflexivity].
  alone_step; [|rewrite Z.eqb_refl; cbn; reflexivity].
  cbn. by destruct (deallocate_unlocks _).
Qed.

(** A call that no other thread disturbs ends within ten steps, and leaves
    the object as the sequential definition of Object.v leaves it. *)
Theorem alone_is_sequential_call s p a b op b' o :
  holds s p a b -> objects s !! p = Some o -> deallocate_unlocks a = true ->
  bag_run (ReasonCount a) [op] b = Some b' ->
  exists s', run_ref p op s = Done (tt, s') /\
    run_call 10 {| target := Some o; readers := 0; writer := false |} (entry op)
    = Done {| target := objects s' !! p; readers := 0; writer := false |}.
Proof.
  intros [H Hb] Ho Hd Hr. rewrite Ho in Hb. destruct Hb as [<- <-]. destruct (st_objects _ H p o Ho) as [Hp Hok].
  pose proof Hok as []. destruct op as [reason|reason bias]; cbn [bag_run run_ref entry] in *.
  - destruct (_ && _) eqn:E; [|done]. rewrite <- ob_sum in E. destruct (reason_lookup o reason Hok) as (r & Hl & Hrr); [lia|].
    eexists. split; [eapply Reference_run; [apply H|done|lia|by apply store_ok_readable|done|lia]|].
    rewrite (reference_alone o reason r) by (done || lia). cbn. by rewrite lookup_insert_eq.
  - destruct (_ && _) eqn:E; [|done]. destruct (reason_lookup o reason Hok) as (r & Hl & Hrr); [lia|].
    rewrite Hl in E. cbn in E. destruct (decide (bias = ReferenceCount o)) as [->|Hne].
    + assert (r = ReferenceCount o) as -> by lia. eexists. split; [by eapply Dereference_last; [apply H|done|lia|by apply store_ok_unlocked|]|].
      rewrite last_alone_run by (done || lia). cbn. rewrite lookup_delete_eq, Hd. done.
    + eexists. split; [eapply Dereference_keep; [apply H|done|lia|by apply store_ok_readable|done|lia|lia]|].
      rewrite (dereference_alone o reason bias r) by (done || lia). cbn. by rewrite lookup_insert_eq.
Qed.

(** * Interleavings that go wrong *)

Lemma run_events_reachable a strict es w w' :
  reachable a strict w -> run_events a strict es w = Done w' -> reachable a strict w'.
Proof.
  revert w. induction es as [|e es IH]; intros w Hw H; cbn in H; [by injection H as <-|].
  destruct (permitted a strict e w) eqn:Hp; [|done].
  destruct (do_event e w) as [w1|] eqn:He; [|done]. cbn in H. apply (IH w1); [|done]. by eapply reach_step.
Qed.

Definition runs (l : list nat) : list event := Run <$> l.

(** Two threads that own one reference each for the same reason and make
    another one at the same time: the first reads both counters, the second
    adds to both in between. *)
Definition two_references : list event :=
  [CallReference 0 0] ++ runs [0; 0; 0; 0; 0]%nat ++ [Give 0 1 0 1; CallReference 0 0; CallReference 1 0] ++
  runs [0; 1; 0; 1; 1; 0; 0]%nat.

Definition outcome_of (w : outcome world) : world :=
  match w with Done w => w | Fail _ => start example_attributes 0 0 0 end.

(** The last assertion of BitbucketObjectReference compares counters that
    were read one after the other: there is a reachable state, with strict
    clients, in which it fails although every reference is accounted for. *)
Theorem reference_check_fails :
  exists w, reachable example_attributes true w /\
    at_pc <$> threads w !! 0%nat = Some (RefCheck 0 2 3) /\ world_step 0 w = Fail AssertFailed.
Proof.
  exists (outcome_of (run_events example_attributes true two_references (start example_attributes 8 0 1))).
  split.
  - apply (run_events_reachable _ _ two_references (start example_attributes 8 0 1)).
    + apply reach_start. split; [done|reflexivity].
    + vm_compute. reflexivity.
  - split; vm_compute; reflexivity.
Qed.

(** A thread finds the object in a table while the owner of the only
    reference drops it. *)
Definition lookup_during_drop : list event :=
  [CallDereference 0 0 1; CallReference 1 0] ++ runs [0; 0; 0; 0; 1; 1; 1; 1]%nat.

(** Between the two atomic operations of the first phase of
    BitbucketObjectDereference the count of a live object is 0: a thread that
    looks the object up at that moment, without owning a reference, fails
    the assertion that the count is not 0. *)
Theorem lookup_sees_zero :
  exists w, reachable example_attributes false w /\ target (memory w) <> None /\
    at_pc <$> threads w !! 1%nat = Some (RefCheck 0 0 1) /\ world_step 1 w = Fail AssertFailed.
Proof.
  exists (outcome_of (run_events example_attributes false lookup_during_drop (start example_attributes 8 0 1))).
  split.
  - apply (run_events_reachable _ _ lookup_during_drop (start example_attributes 8 0 1)).
    + apply reach_start. split; [done|reflexivity].
    + vm_compute. reflexivity.
  - repeat split; vm_compute; congruence || reflexivity.
Qed.

(** The same race, with the lookup between the two phases. *)
Definition lookup_between_phases : list event :=
  [CallDereference 0 0 1; CallReference 1 0] ++ runs [0; 0; 0; 0; 0; 0]%nat ++ runs [1; 1; 1; 1; 1]%nat ++
  runs [0; 0; 0; 0]%nat.

(** When another reference appears between the two phases, the second phase
    finds that it must not delete the object and returns without unlocking:
    nobody is in a call, the object is alive with one reference, and the
    exclusive lock is held; from then on every call waits for ever. *)
Theorem lookup_keeps_lock :
  exists w, reachable example_attributes false w /\
    Forall (fun t => at_pc t = Idle) (threads w) /\
    (ReferenceCount <$> target (memory w)) = Some 1 /\ writer (memory w) = true /\
    forall i t reason, threads w !! i = Some t -> 0 <= reason < 3 ->
      exists w', do_event (CallReference i reason) w = Done w' /\ world_step i w' = Fail Blocked.
Proof.
  exists (outcome_of (run_events example_attributes false lookup_between_phases (start example_attributes 8 0 1))).
  split; [|split; [|split; [|split]]].
  - apply (run_events_reachable _ _ lookup_between_phases (start example_attributes 8 0 1)).
    + apply reach_start. split; [done|reflexivity].
    + vm_compute. reflexivity.
  - vm_compute. by repeat constructor.
  - vm_compute. reflexivity.
  - vm_compute. reflexivity.
  - intros i t reason Hi Hr.
    set (w := outcome_of _) in *. assert (memory w = {| target := target (memory w); readers := 0; writer := true |}) as Hm
      by (vm_compute; reflexivity).
    assert (exists o, target (memory w) = Some o /\ Magic o = BITBUCKET_OBJECT_HEADER_MAGIC /\
      ReasonCount (ObjectAttributes o) = 3) as (o & Ho & Hmag & Hrc).
    { eexists. vm_compute. repeat split; reflexivity. }
    clearbody w. cbn. rewrite Hi. cbn. eexists. split; [reflexivity|].
    unfold world_step. cbn. rewrite list_lookup_insert_eq by (by eapply lookup_lt_Some). cbn.
    unfold access. rewrite Ho. cbn. rewrite assert_ok by lia. unfold lock_shared, access. rewrite Ho. cbn.
    rewrite assert_ok by lia. by rewrite Hm.
Qed.

(** * Witnesses *)

Definition one_drop : list event := [CallDereference 0 0 1] ++ runs [0; 0; 0]%nat.

Lemma one_drop_reachable :
  reachable example_attributes true
    (outcome_of (run_events example_attributes true one_drop (start example_attributes 8 0 1))).
Proof.
  apply (run_events_reachable _ _ one_drop (start example_attributes 8 0 1)).
  - apply reach_start. split; [done|reflexivity].
  - vm_compute. reflexivity.
Qed.

Definition dropping : world :=
  outcome_of (run_events example_attributes true one_drop (start example_attributes 8 0 1)).

Lemma object_memory_safe_witness :
  (exists w', world_step 0 dropping = Done w') \/
  (world_step 0 dropping = Fail Blocked /\ takes_lock (DerefSub 0 1) = true) \/
  (world_step 0 dropping = Fail AssertFailed /\ exists reason refcount reasonRefCount,
     DerefSub 0 1 = RefCheck reason refcount reasonRefCount /\ 0 < refcount < reasonRefCount).
Proof.
  apply (object_memory_safe example_attributes dropping 0 {| at_pc := DerefSub 0 1; owned := replicate 12 0 |}).
  - by split.
  - apply one_drop_reachable.
  - vm_compute. reflexivity.
  - done.
Defined.

Lemma object_lives_while_owned_witness :
  match target (memory (start example_attributes 8 0 2)) with
  | None => False
  | Some o => ReferenceCount o = total (fun t => sum (owned t)) (threads (start example_attributes 8 0 2))
  end.
Proof.
  destruct (object_lives_while_owned example_attributes (start example_attributes 8 0 2)) as [_ H].
  - by split.
  - apply reach_start. split; [done|reflexivity].
  - apply H. by repeat constructor.
Defined.

Lemma object_calls_end_witness : (Z.of_nat 7 <= total work (threads dropping)) /\ run_schedule (replicate 7 0%nat) dropping <> Fail Blocked.
Proof.
  split; [|vm_compute; congruence].
  eapply (object_calls_end example_attributes dropping (replicate 7 0%nat)).
  - by split.
  - apply one_drop_reachable.
  - vm_compute. reflexivity.
Defined.

Lemma alone_is_sequential_call_witness :
  exists s', run_ref 64 (Dereference 1 1) (example_store example_attributes) = Done (tt, s') /\
    run_call 10 {| target := Some (new_object example_attributes 8 1); readers := 0; writer := false |} (DerefCheckCount 1 1)
    = Done {| target := objects s' !! 64; readers := 0; writer := false |}.
Proof.
  apply (alone_is_sequential_call (example_store example_attributes) 64 example_attributes
           (<[1%nat := 1]> (replicate 12 0)) (Dereference 1 1) (replicate 12 0)).
  - split; [by apply example_store_ok|]. split; reflexivity.
  - reflexivity.
  - reflexivity.
  - vm_compute. reflexivity.
Defined.
