(* ===== verification/Xattr.v ===== *)
(** Extended attributes of an inode: src/finesse/bitbucket/xattr.c.

    The attributes of an inode are on a list and in an index by name; the
    index is any [NameIndex].  An attribute is a block of memory at an
    address: its name, a NUL and its value.  [malloc] gives the address of a
    new attribute, or NULL.

    Results: under the exclusive lock the operations implement a finite map
    from names to byte strings, and leave no index when the last attribute
    goes; destroying them frees every attribute; inserting a name that is
    there already frees the attribute that is in use. *)

From stdpp Require Import gmap list strings.
From Stdlib Require Import Strings.Byte Strings.Ascii.
From S2P Require Import Prelude NameIndex Trie.

Open Scope word_scope.

Definition BITBUCKET_XATTR_MAGIC : Z := 0xfe15bce7d848e1c8.
Definition BITBUCKET_INODE_MAGIC : Z := 0x3eb0674fe159eab4.

(** bitbucket_xattr_t *)
Record xattr := {
  x_Magic : Z;
  NameLength : Z;
  DataLength : Z;
  Data : list byte }.

(** A reader-writer lock, for the thread that runs. *)
Inductive rwlock : Type := Unlocked | LockedShared (n : nat) | LockedExclusive.

(** offsetof(bitbucket_xattr_t, Data) *)
Definition XATTR_DATA_OFFSET : Z := 40.

(** The C string at the start of a block. *)
Fixpoint c_string (b : list byte) : string :=
  match b with
  | [] => EmptyString
  | c :: b => if Byte.eqb c x00 then EmptyString else String.String (Ascii.ascii_of_byte c) (c_string b)
  end.

Definition strlen (s : string) : Z := Z.of_nat (String.length s).
Definition bytes (s : string) : list byte := String.list_byte_of_string s.

(** A string without NUL. *)
Fixpoint c_name (s : string) : bool :=
  match s with
  | EmptyString => true
  | String.String c s => negb (Byte.eqb (Ascii.byte_of_ascii c) x00) && c_name s
  end.

Section Xattr.
Context {T : Type -> Type} `{NameIndex T}.

(** The fields of an inode that the attributes use, and the attributes that
    are allocated. *)
Record xattrs := {
  Magic : Z;
  InodeLock : rwlock;
  ExtendedAttributes : list ptr;
  ExtendedAttributeTrie : option (T ptr);
  heap : gmap ptr xattr }.

Definition set_attrs (l : list ptr) (t : option (T ptr)) (h : gmap ptr xattr) : M xattrs unit :=
  modify_state (fun s => {| Magic := Magic s; InodeLock := InodeLock s; ExtendedAttributes := l;
                            ExtendedAttributeTrie := t; heap := h |}).

Definition CHECK_INODE_MAGIC (s : xattrs) : M xattrs unit := c_assert (Magic s =? BITBUCKET_INODE_MAGIC).

(** BitbucketTryLockInode(Inode, 0) *)
Definition try_lock_shared : M xattrs Z :=
  s ← get_state;
  CHECK_INODE_MAGIC s;;
  match InodeLock s with
  | LockedExclusive => mret EBUSY
  | l =>
      put_state {| Magic := Magic s;
                   InodeLock := match l with LockedShared n => LockedShared (S n) | _ => LockedShared 0 end;
                   ExtendedAttributes := ExtendedAttributes s;
                   ExtendedAttributeTrie := ExtendedAttributeTrie s; heap := heap s |};;
      mret 0
  end.

Definition BitbucketInitializeExtendedAttributes : M xattrs unit :=
  s ← get_state; CHECK_INODE_MAGIC s;; set_attrs [] None (heap s).

Definition BitbucketInsertExtendedAttribute (Name : string) (data : list byte) (newx : ptr) : M xattrs Z :=
  s ← get_state;
  CHECK_INODE_MAGIC s;;
  let nameLength := strlen Name in
  if nameLength =? 0 then mret EINVAL else
  let needed := u64 (XATTR_DATA_OFFSET + nameLength + 1 + Z.of_nat (length data)) in
  let xattrLength := Z.land (u64 (needed + 0x3F)) (wnot 64 0x3F) in
  c_assert (needed <=? xattrLength);;
  status ← try_lock_shared;
  c_assert (status =? EBUSY);;
  let trie := default ni_create (ExtendedAttributeTrie s) in
  match ni_search (Some trie) Name with
  | Some old =>
      (* the cleanup at the end frees what [xattr] points to *)
      set_attrs (ExtendedAttributes s) (Some trie) (delete old (heap s));; mret EEXIST
  | None =>
      if newx =? NULL then set_attrs (ExtendedAttributes s) (Some trie) (heap s);; mret ENOMEM
      else
        set_attrs (newx :: ExtendedAttributes s) (Some (ni_insert trie Name (Some newx)))
          (<[newx := {| x_Magic := BITBUCKET_XATTR_MAGIC; NameLength := nameLength;
                        DataLength := Z.of_nat (length data); Data := bytes Name ++ [x00] ++ data |}]> (heap s));;
        mret 0
  end.

(** The result and what the caller's [DataLength] and [Data] are, when they
    are set. *)
Definition BitbucketLookupExtendedAttribute (Name : string) : M xattrs (Z * option (list byte)) :=
  s ← get_state;
  CHECK_INODE_MAGIC s;;
  match ExtendedAttributeTrie s with
  | None => mret (ENODATA, None)
  | Some t =>
      match ni_search (Some t) Name with
      | None => mret (ENODATA, Some [])
      | Some p =>
          x ← deref (heap s !! p);
          c_assert (x_Magic x =? BITBUCKET_XATTR_MAGIC);;
          mret (0, Some (take (Z.to_nat (DataLength x)) (drop (Z.to_nat (NameLength x + 1)) (Data x))))
      end
  end.

(** Unlinking an entry that is not on the list would corrupt it. *)
Definition unlink (p : ptr) (l : list ptr) : option (list ptr) :=
  if decide (p ∈ l) then Some (filter (fun q => q <> p) l) else None.

Definition BitbucketRemoveExtendedAttribute (Name : string) : M xattrs Z :=
  s ← get_state;
  CHECK_INODE_MAGIC s;;
  match ExtendedAttributeTrie s with
  | None => mret ENOENT
  | Some t =>
      match ni_search (Some t) Name with
      | None => mret ENOENT
      | Some p =>
          match ni_delete (Some t) Name with
          | Fail f => mthrow f
          | Done (t', status) =>
              c_assert (status =? 0);;
              _ ← deref (heap s !! p);
              l ← deref (unlink p (ExtendedAttributes s));
              set_attrs l t' (delete p (heap s));;
              mret 0
          end
      end
  end.

(** One iteration of the loop per attribute on the list. *)
Fixpoint destroy_loop (fuel : nat) : M xattrs unit :=
  s ← get_state;
  match ExtendedAttributes s, fuel with
  | [], _ => mret ()
  | _ :: _, O => mthrow OutOfFuel
  | p :: l, S fuel =>
      x ← deref (heap s !! p);
      match ni_delete (ExtendedAttributeTrie s) (c_string (Data x)) with
      | Fail f => mthrow f
      | Done (t', status) =>
          c_assert (status =? 0);;
          set_attrs l t' (delete p (heap s));;
          destroy_loop fuel
      end
  end.

Definition BitbucketDestroyExtendedAttributes : M xattrs unit :=
  s ← get_state; destroy_loop (length (ExtendedAttributes s)).

(** * Attributes as a finite map *)

(** [addr] says where the attribute of each name is. *)
Record attrs_at (s : xattrs) (m : gmap string (list byte)) (addr : gmap string ptr) : Prop := {
  at_magic : Magic s = BITBUCKET_INODE_MAGIC;
  at_index : indexes (ExtendedAttributeTrie s) addr;
  at_dom : dom addr = dom m;
  at_names : forall k, k ∈ dom m -> k <> EmptyString /\ c_name k = true;
  at_heap : forall k p, addr !! k = Some p -> exists d, m !! k = Some d /\
    heap s !! p = Some {| x_Magic := BITBUCKET_XATTR_MAGIC; NameLength := strlen k;
                          DataLength := Z.of_nat (length d); Data := bytes k ++ [x00] ++ d |};
  at_inj : forall k k' p, addr !! k = Some p -> addr !! k' = Some p -> k = k';
  at_list : forall p, p ∈ ExtendedAttributes s <-> exists k, addr !! k = Some p;
  at_nodup : NoDup (ExtendedAttributes s);
  at_alloc : forall p, is_Some (heap s !! p) -> p ∈ ExtendedAttributes s }.

Definition holds_attrs (s : xattrs) (m : gmap string (list byte)) : Prop := exists addr, attrs_at s m addr.

Lemma bytes_cons c s : bytes (String.String c s) = Ascii.byte_of_ascii c :: bytes s.
Proof. done. Qed.

Lemma c_string_bytes s d : c_name s = true -> c_string (bytes s ++ x00 :: d) = s.
Proof.
  induction s as [|c s IH]; intros Hc; [done|]. rewrite bytes_cons. cbn [app c_string c_name] in *.
  apply andb_prop in Hc as [Hc Hs]. destruct (Byte.eqb (Ascii.byte_of_ascii c) x00) eqn:E; [done|].
  rewrite Ascii.ascii_of_byte_of_ascii. by rewrite IH.
Qed.

Lemma length_bytes s : Z.of_nat (length (bytes s)) = strlen s.
Proof. induction s as [|c s IH]; [done|]. rewrite bytes_cons. unfold strlen in *. cbn [length String.length]. lia. Qed.

Lemma value_of_block k d :
  take (Z.to_nat (Z.of_nat (length d))) (drop (Z.to_nat (strlen k + 1)) (bytes k ++ [x00] ++ d)) = d.
Proof.
  rewrite Nat2Z.id. replace (Z.to_nat (strlen k + 1)) with (length (bytes k ++ [x00])).
  2:{ rewrite length_app. cbn. pose proof (length_bytes k). lia. }
  by rewrite app_assoc, drop_app_length, firstn_all.
Qed.

Lemma attrs_name s m addr k p : attrs_at s m addr -> addr !! k = Some p -> k ∈ dom m /\ k <> EmptyString /\ c_name k = true.
Proof.
  intros Hs Hk. assert (k ∈ dom m) as Hd by (rewrite <- (at_dom _ _ _ Hs); by eapply elem_of_dom_2).
  split; [done|]. by apply (at_names _ _ _ Hs).
Qed.

(** Removing an attribute from all places. *)
Lemma attrs_delete s m addr k p t' l :
  attrs_at s m addr -> addr !! k = Some p -> indexes t' (delete k addr) ->
  l = filter (fun q => q <> p) (ExtendedAttributes s) ->
  attrs_at {| Magic := Magic s; InodeLock := InodeLock s; ExtendedAttributes := l;
              ExtendedAttributeTrie := t'; heap := delete p (heap s) |} (delete k m) (delete k addr).
Proof.
  intros Hs Hk Ht ->. pose proof Hs as []. constructor; cbn; try done.
  - by rewrite !dom_delete_L, at_dom0.
  - intros k' Hk'. rewrite dom_delete_L in Hk'. apply at_names0. set_solver.
  - intros k' q [Hne Hq]%lookup_delete_Some. destruct (at_heap0 k' q Hq) as (d & Hd & Hh).
    exists d. rewrite !lookup_delete_ne; [done|intros ->|done]. by destruct (Hne (at_inj0 k k' q Hk Hq)).
  - intros k1 k2 q [_ H1]%lookup_delete_Some [_ H2]%lookup_delete_Some. by eapply at_inj0.
  - intros q. rewrite list_elem_of_filter, at_list0. split.
    + intros [Hne (k' & Hk')]. exists k'. apply lookup_delete_Some. split; [|done]. intros ->. congruence.
    + intros (k' & [Hne Hk']%lookup_delete_Some). split; [|eauto]. intros ->. by destruct (Hne (at_inj0 k k' p Hk Hk')).
  - by apply NoDup_filter.
  - intros q [x [Hne Hq]%lookup_delete_Some]. apply list_elem_of_filter. split; [done|]. apply at_alloc0. eauto.
Qed.

Lemma lookup_attr s m addr k :
  attrs_at s m addr -> BitbucketLookupExtendedAttribute k s =
    Done (match m !! k with
          | Some d => (0, Some d)
          | None => (ENODATA, if ExtendedAttributeTrie s then Some [] else None)
          end, s).
Proof.
  intros Hs. pose proof Hs as []. destruct at_index0 as [Hr Ht].
  unfold BitbucketLookupExtendedAttribute. rewrite get_state_bind. unfold CHECK_INODE_MAGIC.
  rewrite c_assert_bind by (by rewrite at_magic0).
  assert (addr !! k = None -> m !! k = None) as Hnone.
  { intros Hk. apply not_elem_of_dom. rewrite <- at_dom0. by apply not_elem_of_dom. }
  pose proof (Hr k) as Hk. destruct (ExtendedAttributeTrie s) as [t|]; rewrite <- ?Hk in *.
  - destruct (ni_search (Some t) k) as [p|] eqn:E; [|by rewrite Hnone].
    destruct (at_heap0 k p) as (d & Hd & Hh); [by rewrite <- Hk|]. rewrite Hd, Hh. cbn [deref].
    rewrite mret_bind, c_assert_bind by done. cbn [DataLength NameLength Data]. by rewrite value_of_block.
  - rewrite ni_search_null in Hnone. by rewrite Hnone.
Qed.

(** What an insertion allocates is small enough for the rounding. *)
Lemma xattr_length_fits n :
  0 <= n < 2 ^ 63 -> u64 n <= Z.land (u64 (u64 n + 0x3F)) (wnot 64 0x3F).
Proof.
  intros Hn. rewrite (wrap_small 64 n), (wrap_small 64 (n + 0x3F)) by lia.
  replace (wnot 64 0x3F) with (Z.ldiff (Z.ones 64) (Z.ones 6)) by (vm_compute; reflexivity).
  assert (Z.land (n + 0x3F) (Z.ldiff (Z.ones 64) (Z.ones 6)) = (n + 0x3F) - (n + 0x3F) mod 2 ^ 6) as ->.
  { replace (Z.land (n + 0x3F) (Z.ldiff (Z.ones 64) (Z.ones 6))) with (Z.ldiff (n + 0x3F) (Z.ones 6)).
    - rewrite Z.ldiff_ones_r, Z.shiftl_mul_pow2, Z.shiftr_div_pow2 by lia.
      pose proof (Z.div_mod (n + 0x3F) (2 ^ 6)). lia.
    - apply Z.bits_inj'. intros i Hi. rewrite Z.land_spec, !Z.ldiff_spec.
      destruct (Z.ltb_spec i 64).
      + rewrite (Z.ones_spec_low 64) by lia. cbn. done.
      + rewrite <- (wrap_small 64 (n + 0x3F)) by lia. rewrite wrap_spec by lia.
        destruct (Z.ltb_spec i 64); [lia|]. done. }
  pose proof (Z.mod_pos_bound (n + 0x3F) (2 ^ 6)). lia.
Qed.

Lemma insert_attr_start s m addr k d newx :
  attrs_at s m addr -> InodeLock s = LockedExclusive -> k <> EmptyString -> strlen k + Z.of_nat (length d) < 2 ^ 62 ->
  BitbucketInsertExtendedAttribute k d newx s =
    let trie := default ni_create (ExtendedAttributeTrie s) in
    (match addr !! k with
     | Some old => set_attrs (ExtendedAttributes s) (Some trie) (delete old (heap s));; mret EEXIST
     | None =>
         if newx =? NULL then set_attrs (ExtendedAttributes s) (Some trie) (heap s);; mret ENOMEM
         else
           set_attrs (newx :: ExtendedAttributes s) (Some (ni_insert trie k (Some newx)))
             (<[newx := {| x_Magic := BITBUCKET_XATTR_MAGIC; NameLength := strlen k;
                           DataLength := Z.of_nat (length d); Data := bytes k ++ [x00] ++ d |}]> (heap s));;
           mret 0
     end) s.
Proof.
  intros [] Hl Hk Hb. destruct at_index0 as [Hr Ht].
  unfold BitbucketInsertExtendedAttribute, CHECK_INODE_MAGIC. rewrite get_state_bind, c_assert_bind by (by rewrite at_magic0).
  cbv zeta. assert (0 < strlen k) as Hpos by (unfold strlen; destruct k; [done|cbn; lia]).
  destruct (Z.eqb_spec (strlen k) 0); [lia|]. rewrite c_assert_bind.
  2:{ apply Z.leb_le. apply xattr_length_fits. unfold XATTR_DATA_OFFSET. lia. }
  rewrite (M_bind_done _ _ _ EBUSY s).
  2:{ unfold try_lock_shared, CHECK_INODE_MAGIC. rewrite get_state_bind, c_assert_bind by (by rewrite at_magic0). by rewrite Hl. }
  rewrite c_assert_bind by done.
  assert (ni_search (Some (default ni_create (ExtendedAttributeTrie s))) k = addr !! k) as ->.
  { rewrite <- Hr. destruct (ExtendedAttributeTrie s); cbn; [done|]. by rewrite ni_search_create, ni_search_null. }
  done.
Qed.

Lemma insert_attr s m addr k d newx :
  attrs_at s m addr -> InodeLock s = LockedExclusive -> k <> EmptyString -> c_name k = true ->
  strlen k + Z.of_nat (length d) < 2 ^ 62 -> m !! k = None -> newx <> NULL -> heap s !! newx = None ->
  exists s', BitbucketInsertExtendedAttribute k d newx s = Done (0, s') /\ InodeLock s' = LockedExclusive /\
    attrs_at s' (<[k := d]> m) (<[k := newx]> addr).
Proof.
  intros Hs Hl Hk Hc Hb Hm Hn Hf. rewrite (insert_attr_start s m addr) by done. cbv zeta.
  assert (addr !! k = None) as Ha.
  { apply not_elem_of_dom. rewrite (at_dom _ _ _ Hs). by apply not_elem_of_dom. }
  rewrite Ha. destruct (Z.eqb_spec newx NULL); [done|]. unfold set_attrs. rewrite modify_bind.
  eexists. split; [reflexivity|]. split; [done|]. destruct Hs.
  assert (forall k' q, addr !! k' = Some q -> q <> newx) as Hnew.
  { intros k' q Hq ->. destruct (at_heap0 k' newx Hq) as (? & _ & ?). congruence. }
  constructor; cbn; try done.
  - by apply indexes_insert.
  - by rewrite !dom_insert_L, at_dom0.
  - intros k' Hk'. rewrite dom_insert_L in Hk'. apply elem_of_union in Hk' as [->%elem_of_singleton|]; auto.
  - intros k' q [[-> <-]|[Hne Hq]]%lookup_insert_Some.
    + exists d. by rewrite !lookup_insert_eq.
    + destruct (at_heap0 k' q Hq) as (d' & Hd' & Hh). exists d'. specialize (Hnew k' q Hq). by rewrite !lookup_insert_ne.
  - intros k1 k2 q [[-> <-]|[Hne1 Hq1]]%lookup_insert_Some [[-> E]|[Hne2 Hq2]]%lookup_insert_Some; try done.
    + by destruct (Hnew k2 newx).
    + subst. by destruct (Hnew k1 q).
    + by eapply at_inj0.
  - intros q. rewrite elem_of_cons, at_list0. split.
    + intros [->|(k' & Hk')]; [exists k; by rewrite lookup_insert_eq|]. exists k'.
      rewrite lookup_insert_ne; [done|]. intros ->. congruence.
    + intros (k' & [[-> <-]|[Hne Hq]]%lookup_insert_Some); [by left|right; eauto].
  - constructor; [|done]. rewrite at_list0. intros (k' & Hk'). by destruct (Hnew k' newx).
  - intros q [x Hx]. apply elem_of_cons. apply lookup_insert_Some in Hx as [[-> _]|[_ Hx]]; [by left|right; eauto].
Qed.

Lemma remove_attr s m addr k :
  attrs_at s m addr -> InodeLock s = LockedExclusive ->
  exists s', BitbucketRemoveExtendedAttribute k s = Done (if decide (is_Some (m !! k)) then 0 else ENOENT, s') /\
    InodeLock s' = LockedExclusive /\ attrs_at s' (delete k m) (delete k addr).
Proof.
  intros Hs Hl. pose proof Hs as []. unfold BitbucketRemoveExtendedAttribute, CHECK_INODE_MAGIC.
  rewrite get_state_bind, c_assert_bind by (by rewrite at_magic0). pose proof (proj1 at_index0 k) as Hk.
  destruct (addr !! k) as [p|] eqn:Ha.
  - destruct (attrs_name s m addr k p Hs Ha) as (Hd & Hne & _). destruct (at_heap0 k p Ha) as (d & Hm & Hh).
    destruct (indexes_delete _ addr k p at_index0 Hne Ha) as (t' & Hdel & Ht').
    destruct (ExtendedAttributeTrie s) as [t|]; [|by rewrite ni_search_null in Hk].
    rewrite Hk, Hdel, c_assert_bind by done. rewrite Hh. cbn [deref]. rewrite mret_bind.
    assert (p ∈ ExtendedAttributes s) as Hp by (apply at_list0; eauto).
    unfold unlink. rewrite decide_True by done. cbn [deref]. rewrite mret_bind. unfold set_attrs. rewrite modify_bind.
    eexists. split; [by rewrite decide_True by (by rewrite Hm)|]. split; [done|]. by eapply attrs_delete.
  - assert (m !! k = None) as Hm.
    { apply not_elem_of_dom. rewrite <- at_dom0. by apply not_elem_of_dom. }
    exists s. rewrite decide_False by (by rewrite Hm; intros [? ?]). rewrite !delete_id by done.
    destruct (ExtendedAttributeTrie s) as [t|]; [rewrite Hk|]; done.
Qed.

Lemma filter_notin (p : ptr) (l : list ptr) : p ∉ l -> filter (fun q => q <> p) l = l.
Proof.
  induction l as [|q l IH]; intros Hp; [done|]. apply not_elem_of_cons in Hp as [Hq Hp].
  rewrite filter_cons_True by congruence. by rewrite IH.
Qed.

Lemma filter_head (p : ptr) (l : list ptr) : NoDup (p :: l) -> l = filter (fun q => q <> p) (p :: l).
Proof.
  intros [Hp _]%NoDup_cons. rewrite filter_cons_False by (by intros []). by rewrite filter_notin.
Qed.

Lemma destroy_attrs fuel s m addr :
  attrs_at s m addr -> (length (ExtendedAttributes s) <= fuel)%nat ->
  exists s', destroy_loop fuel s = Done (tt, s') /\ ExtendedAttributes s' = [] /\
    ExtendedAttributeTrie s' = None /\ heap s' = ∅ /\ Magic s' = Magic s /\ InodeLock s' = InodeLock s.
Proof.
  revert s m addr. induction fuel as [|fuel IH]; intros s m addr Hs Hf; pose proof Hs as [];
    (destruct (ExtendedAttributes s) as [|p l] eqn:El; [clear Hf|cbn in Hf; try lia]).
  1,2: exists s; split; [unfold destroy_loop; rewrite get_state_bind, El; done|]; split; [done|];
    assert (addr = ∅) as -> by (apply map_eq; intros k; rewrite lookup_empty; apply eq_None_not_Some;
      intros [q Hq]; assert (q ∈ []) as Hin by (apply at_list0; eauto); by apply elem_of_nil in Hin);
    split; [by apply indexes_empty|]; split; [|done];
    apply map_eq; intros q; rewrite lookup_empty; apply eq_None_not_Some; intros Hq;
    by apply at_alloc0, elem_of_nil in Hq.
  assert (exists k, addr !! k = Some p) as (k & Hk) by (apply at_list0; by left).
  destruct (attrs_name s m addr k p Hs Hk) as (Hd & Hne & Hc). destruct (at_heap0 k p Hk) as (d & Hm & Hh).
  destruct (indexes_delete _ addr k p at_index0 Hne Hk) as (t' & Hdel & Ht').
  pose proof (attrs_delete s m addr k p t' l Hs Hk Ht') as Hs'. rewrite El in Hs'.
  specialize (Hs' (filter_head p l at_nodup0)).
  destruct (IH _ _ _ Hs') as (s' & Hrun & Hrest); [cbn; lia|]. exists s'. split; [|done].
  cbn [destroy_loop]. rewrite get_state_bind, El, Hh. cbn [deref]. rewrite mret_bind. cbn [Data app].
  rewrite c_string_bytes, Hdel by done. rewrite c_assert_bind by done. unfold set_attrs. by rewrite modify_bind.
Qed.

(** ** The refinement *)

Inductive xattr_op : Type :=
  | XInsert (k : string) (d : list byte) (newx : ptr)
  | XLookup (k : string)
  | XRemove (k : string).

Definition run_xattr (op : xattr_op) : M xattrs (Z * option (list byte)) :=
  match op with
  | XInsert k d newx => status ← BitbucketInsertExtendedAttribute k d newx; mret (status, None)
  | XLookup k => '(status, v) ← BitbucketLookupExtendedAttribute k; mret (status, if status =? 0 then v else None)
  | XRemove k => status ← BitbucketRemoveExtendedAttribute k; mret (status, None)
  end.

Fixpoint run_xattrs (ops : list xattr_op) : M xattrs (list (Z * option (list byte))) :=
  match ops with
  | [] => mret []
  | op :: ops => r ← run_xattr op; rs ← run_xattrs ops; mret (r :: rs)
  end.

(** What the same operation does to a map, if the map allows it: an insertion
    needs a new name of a reasonable size. *)
Definition map_xattr (op : xattr_op) (m : gmap string (list byte))
    : option (gmap string (list byte) * (Z * option (list byte))) :=
  match op with
  | XInsert k d newx =>
      if decide (k <> EmptyString /\ m !! k = None /\ newx <> NULL) then
        if c_name k && (strlen k + Z.of_nat (length d) <? 2 ^ 62) then Some (<[k := d]> m, (0, None)) else None
      else None
  | XLookup k => Some (m, match m !! k with Some d => (0, Some d) | None => (ENODATA, None) end)
  | XRemove k => Some (delete k m, (if decide (is_Some (m !! k)) then 0 else ENOENT, None))
  end.

Fixpoint map_xattrs (ops : list xattr_op) (m : gmap string (list byte))
    : option (gmap string (list byte) * list (Z * option (list byte))) :=
  match ops with
  | [] => Some (m, [])
  | op :: ops => '(m, r) ← map_xattr op m; '(m, rs) ← map_xattrs ops m; Some (m, r :: rs)
  end.

(** The addresses malloc returns are not in use. *)
Fixpoint fresh_xattrs (ops : list xattr_op) (used : list ptr) : Prop :=
  match ops with
  | [] => True
  | XInsert _ _ newx :: ops => newx ∉ used /\ fresh_xattrs ops (newx :: used)
  | _ :: ops => fresh_xattrs ops used
  end.

(** C37: Under the exclusive lock of the inode, any sequence of operations that
    inserts no name that exists (which would free the live attribute) runs with every assertion true and answers what a
    finite map from names to byte strings answers; destroying the attributes
    afterwards ends and frees every one of them, the index included. *)
Theorem xattrs_refine_map ops s m m' rs used :
  holds_attrs s m -> InodeLock s = LockedExclusive -> (forall p, is_Some (heap s !! p) -> p ∈ used) ->
  fresh_xattrs ops used -> map_xattrs ops m = Some (m', rs) ->
  exists s' s'', run_xattrs ops s = Done (rs, s') /\ holds_attrs s' m' /\
    BitbucketDestroyExtendedAttributes s' = Done (tt, s'') /\
    ExtendedAttributes s'' = [] /\ ExtendedAttributeTrie s'' = None /\ heap s'' = ∅.
Proof.
  revert s m rs used. induction ops as [|op ops IH]; intros s m rs used [addr Hs] Hl Hu Hf Hm; cbn in Hm.
  - injection Hm as <- <-.
    destruct (destroy_attrs (length (ExtendedAttributes s)) s m addr Hs) as (s'' & Hd & ? & ? & ? & _); [done|].
    exists s, s''. split; [done|]. split; [by exists addr|]. split; [|done].
    unfold BitbucketDestroyExtendedAttributes. by rewrite get_state_bind.
  - destruct (map_xattr op m) as [[m1 r]|] eqn:E1; [|done]. cbn in Hm.
    destruct (map_xattrs ops m1) as [[m2 rs2]|] eqn:E2; [|done]. cbn in Hm. injection Hm as <- <-.
    assert (exists s1 used1, run_xattr op s = Done (r, s1) /\ holds_attrs s1 m1 /\ InodeLock s1 = LockedExclusive /\
      (forall p, is_Some (heap s1 !! p) -> p ∈ used1) /\ fresh_xattrs ops used1) as (s1 & used1 & Hr1 & H1 & Hl1 & Hu1 & Hf1).
    { destruct op as [k d newx|k|k]; cbn in E1, Hf.
      - case_decide as Hd; [|done]. destruct Hd as (Hk & Hn & Hx). destruct (_ && _) eqn:Hb; [|done].
        apply andb_prop in Hb as [Hc Hb]. injection E1 as <- <-. destruct Hf as [Hx' Hf].
        destruct (insert_attr s m addr k d newx) as (s1 & Hr1 & Hl1 & H1); [done|done|done|done|lia|done|done| |].
        { apply eq_None_not_Some. intros Hh. by apply Hx', Hu. }
        exists s1, (newx :: used). split; [cbn; by run_step ltac:(exact Hr1)|]. split; [by eexists|]. split; [done|].
        split; [|done]. intros p Hp. destruct H1. apply at_alloc0, at_list0 in Hp as (k' & Hk').
        apply elem_of_cons. apply lookup_insert_Some in Hk' as [[_ <-]|[_ Hk']]; [by left|]. right. apply Hu.
        destruct (at_heap s m addr Hs k' p Hk') as (? & _ & ->). eauto.
      - injection E1 as <- <-. exists s, used. split; [|by repeat split; try exists addr].
        cbn. run_step ltac:(by eapply lookup_attr). by destruct (m !! k).
      - injection E1 as <- <-. destruct (remove_attr s m addr k Hs Hl) as (s1 & Hr1 & Hl1 & H1).
        exists s1, used. split; [cbn; by run_step ltac:(exact Hr1)|]. split; [by eexists|]. split; [done|].
        split; [|done]. intros p Hp. apply Hu. destruct H1. apply at_alloc0, at_list0 in Hp as (k' & [_ Hk']%lookup_delete_Some).
        destruct (at_heap s m addr Hs k' p Hk') as (? & _ & ->). eauto. }
    destruct (IH s1 m1 rs2 used1 H1 Hl1 Hu1 Hf1 E2) as (s2 & s'' & Hr2 & Hrest).
    exists s2, s''. split; [|done]. cbn [run_xattrs]. run_step ltac:(exact Hr1). by run_step ltac:(exact Hr2).
Qed.

(** Inserting a name that is there answers EEXIST, but frees the attribute
    in use: the index and the list still lead to it, so the next lookup of
    that name, the removal of it and the destruction of the inode's
    attributes follow a dangling pointer. *)
Theorem insert_existing_frees s m k d d' newx :
  holds_attrs s m -> InodeLock s = LockedExclusive -> m !! k = Some d -> strlen k + Z.of_nat (length d') < 2 ^ 62 ->
  exists s', BitbucketInsertExtendedAttribute k d' newx s = Done (EEXIST, s') /\
    BitbucketLookupExtendedAttribute k s' = Fail BadPointer /\
    BitbucketRemoveExtendedAttribute k s' = Fail BadPointer.
Proof.
  intros [addr Hs] Hl Hk Hb.
  assert (is_Some (addr !! k)) as [p Hp] by (apply elem_of_dom; rewrite (at_dom _ _ _ Hs); by eapply elem_of_dom_2).
  destruct (attrs_name s m addr k p Hs Hp) as (_ & Hne & _).
  rewrite (insert_attr_start s m addr) by done. cbv zeta. rewrite Hp. unfold set_attrs. rewrite modify_bind.
  eexists. split; [reflexivity|]. destruct Hs.
  assert (ni_search (Some (default ni_create (ExtendedAttributeTrie s))) k = Some p) as Hsr.
  { rewrite <- Hp, <- (proj1 at_index0 k). destruct (ExtendedAttributeTrie s) eqn:E; cbn; [done|].
    pose proof (proj1 at_index0 k) as Hx. rewrite ni_search_null, Hp in Hx. done. }
  split.
  - unfold BitbucketLookupExtendedAttribute, CHECK_INODE_MAGIC. rewrite get_state_bind, c_assert_bind by (cbn; by rewrite at_magic0).
    cbn [ExtendedAttributeTrie heap]. rewrite Hsr, lookup_delete_eq. done.
  - unfold BitbucketRemoveExtendedAttribute, CHECK_INODE_MAGIC. rewrite get_state_bind, c_assert_bind by (cbn; by rewrite at_magic0).
    cbn [ExtendedAttributeTrie heap]. rewrite Hsr.
    destruct (ExtendedAttributeTrie s) as [t|]; cbn [default from_option id] in *.
    2:{ by rewrite ni_search_create in Hsr. }
    destruct (ni_delete_found _ t k p Hne Hsr) as (t' & Hdel & _). cbn [default from_option id]; rewrite Hdel, c_assert_bind by done.
    by rewrite lookup_delete_eq.
Qed.
End Xattr.

(** * Witnesses *)

Definition new_attrs : xattrs (T := Trie) :=
  {| Magic := BITBUCKET_INODE_MAGIC; InodeLock := LockedExclusive; ExtendedAttributes := [];
     ExtendedAttributeTrie := None; heap := ∅ |}.

Lemma new_attrs_empty : holds_attrs new_attrs ∅.
Proof.
  exists ∅. constructor; cbn -[indexes]; try done.
  - intros p. split; [by intros ?%elem_of_nil|]. intros (k & Hk). by rewrite lookup_empty in Hk.
  - constructor.
  - intros p [x Hx]. by rewrite lookup_empty in Hx.
Qed.

Definition example_ops : list xattr_op :=
  [XInsert "user.a" [x01; x00] 64; XInsert "user.ab" [x02] 128; XLookup "user.a"; XRemove "user.a"; XLookup "user.a"].

Lemma xattrs_refine_map_witness :
  exists s' s'', run_xattrs example_ops new_attrs =
    Done ([(0, None); (0, None); (0, Some [x01; x00]); (0, None); (ENODATA, None)], s') /\
    BitbucketDestroyExtendedAttributes s' = Done (tt, s'') /\ heap s'' = ∅.
Proof.
  destruct (xattrs_refine_map example_ops new_attrs ∅ {["user.ab" := [x02]]}%string
    [(0, None); (0, None); (0, Some [x01; x00]); (0, None); (ENODATA, None)] []) as (s' & s'' & H1 & _ & H2 & _ & _ & H3).
  - apply new_attrs_empty.
  - reflexivity.
  - intros p [x Hx]. done.
  - cbn. repeat split; set_solver.
  - vm_compute. reflexivity.
  - exists s', s''. split; [exact H1|]. split; [exact H2|exact H3].
Defined.

Lemma one_attr : exists s, run_xattr (XInsert "user.a" [x01] 64) new_attrs = Done ((0, None), s) /\
  holds_attrs s {["user.a" := [x01]]}%string /\ InodeLock s = LockedExclusive.
Proof.
  destruct new_attrs_empty as [addr Hs].
  destruct (insert_attr new_attrs ∅ addr "user.a" [x01] 64 Hs) as (s & Hr & Hl & H1); try done.
  exists s. split; [cbn; by run_step ltac:(exact Hr)|]. split; [by eexists|done].
Qed.

Lemma insert_existing_frees_witness :
  exists s s', holds_attrs s {["user.a" := [x01]]}%string /\
    BitbucketInsertExtendedAttribute "user.a" [x02] 128 s = Done (EEXIST, s') /\
    BitbucketLookupExtendedAttribute "user.a" s' = Fail BadPointer.
Proof.
  destruct one_attr as (s & _ & Hs & Hl).
  destruct (insert_existing_frees s {["user.a" := [x01]]}%string "user.a" [x01] [x02] 128 Hs Hl) as (s' & H1 & H2 & _).
  - vm_compute. reflexivity.
  - vm_compute. reflexivity.
  - exists s, s'. split; [exact Hs|]. split; [exact H1|exact H2].
Defined.
