(* ===== verification/Inode.v ===== *)
(** Inodes and the inode table: src/finesse/bitbucket/inode.c.

    An inode is a reference counted object (Object.v) that begins with a
    private part, which only inode.c sees, and a public part with its lock,
    type, attributes and extended attributes (Xattr.v); both have the address
    of the object here.  The components that create inodes register an
    initialisation and a deallocation callback: they are the class
    [Components], which also says what the type-dependent part of an inode
    is.

    The lock that protects the reference counts of an inode is the
    reader-writer lock of its bucket: lock [b + 1] of the store is the lock
    of bucket [b].  A bucket is the sequence of the inodes on its list (the
    list operations are those of ListEntry.v): one entry is allocated for
    each inode inserted.  Attribute times, UUIDs and log messages are left
    out. *)

From stdpp Require Import gmap list strings.
From S2P Require Import Prelude NameIndex Trie Murmur Object Xattr.

Open Scope word_scope.

Definition BITBUCKET_INODE_TABLE_DEFAULT_SEED : Z := 0x318df49e5b958865.
Definition BITBUCKET_INODE_TABLE_MAGIC : Z := 0xc132b27785769815.
Definition BITBUCKET_PRIVATE_INODE_MAGIC : Z := 0xe7820c4eb6a8f620.
Definition S_IRWXUGO : Z := 0x1ff.

Definition BITBUCKET_DIR_TYPE : Z := 0x10.
Definition BITBUCKET_FILE_TYPE : Z := 0x11.
Definition BITBUCKET_SYMLINK_TYPE : Z := 0x12.
Definition BITBUCKET_DEVNODE_TYPE : Z := 0x13.
Definition BITBUCKET_UNKNOWN_TYPE : Z := 0xFF.

Definition INODE_LOOKUP_REFERENCE : Z := 0.
Definition INODE_PARENT_REFERENCE : Z := 1.
Definition INODE_DIRENT_REFERENCE : Z := 2.
Definition INODE_ENUM_REFERENCE : Z := 3.
Definition INODE_REMOVE_DIRENT_REFERENCE : Z := 4.

(** sizeof(bitbucket_private_inode_t) as the x86-64 ABI lays it out *)
Definition SIZEOF_PRIVATE_INODE : Z := 944.

(** The eight bytes of an inode number in memory. *)
Definition ino_bytes (ino : Z) : list Z := (fun i => Z.land (Z.shiftr ino (8 * i)) 255) <$> [0; 1; 2; 3; 4; 5; 6; 7].

Definition hash_inode (InodeNumber Seed BitLength : Z) : outcome Z :=
  c_assert (negb (InodeNumber =? 0));;
  c_assert (10 <=? BitLength);;
  c_assert (BitLength <? 16);;
  let '(h1, h2) := MurmurHash3_x64_128 (ino_bytes InodeNumber) 8 Seed in
  index ← truncate_hash (Z.lxor h1 h2) BitLength;
  let index := u16 index in
  c_assert (index <? Z.shiftl 1 BitLength);;
  Done index.

(** bitbucket_inode_bucket_t *)
Record bucket := {
  Entries : list ptr;
  Count : Z;
  LastInodeTableEntry : option ptr;
  Lookups : Z;
  FailedLookups : Z;
  LastInodeMatch : Z;
  MaxCount : Z }.

Record inode_table := {
  t_Magic : Z;
  BucketCount : Z;
  BucketCountShift : Z;
  InodeCount : Z;
  MaxInodeCount : Z;
  HashSeed : Z;
  Buckets : list bucket }.

(** The scaling of the number of buckets. *)
Definition table_shift (count : Z) : Z :=
  if count <=? 1024 then 10 else if count <=? 2048 then 11 else if count <=? 4096 then 12
  else if count <=? 8192 then 13 else if count <=? 16384 then 14 else if count <=? 32768 then 15 else 16.

(** [garbage] is what the allocated memory contains: the three lookup
    counters of a bucket are not initialised. *)
Definition BitbucketCreateInodeTable (count HashSeed : Z) (garbage : nat -> Z * Z * Z) : inode_table :=
  let shift := table_shift count in
  {| t_Magic := BITBUCKET_INODE_TABLE_MAGIC; BucketCount := 2 ^ shift; BucketCountShift := shift;
     InodeCount := 0; MaxInodeCount := 0;
     HashSeed := if HashSeed =? 0 then BITBUCKET_INODE_TABLE_DEFAULT_SEED else HashSeed;
     Buckets := (fun i => {| Entries := []; Count := 0; LastInodeTableEntry := None;
                             Lookups := (garbage i).1.1; FailedLookups := (garbage i).1.2;
                             LastInodeMatch := (garbage i).2; MaxCount := 0 |}) <$> seq 0 (Z.to_nat (2 ^ shift)) |}.

Definition BitbucketDestroyInodeTable (t : inode_table) : outcome unit :=
  c_assert (t_Magic t =? BITBUCKET_INODE_TABLE_MAGIC);;
  c_assert (forallb (fun b => (Count b =? 0) && bool_decide (Entries b = [])) (Buckets t)).

(** The attributes inode.c registers with object.c, for an inode of a bucket. *)
Definition InodePrivateObjectAttributes (bucketId : Z) : object_attributes :=
  {| attr_Magic := BITBUCKET_OBJECT_ATTRIBUTES_MAGIC;
     ReasonCount := BITBUCKET_MAX_REFERENCE_REASONS;
     ReferenceReasonsNames :=
       ["Lookup"; "Dir:Parent"; "Dir:Entry"; "Dir:Enum"; "Remove Dirent"; "Fuse:Lookup"; "Fuse:Open";
        "Fuse:Opendir"; "Reason8"; "Reason9"; "Reason10"; "Reason11"]%string;
     Lock := Some (bucketId + 1);
     deallocate_unlocks := true |}.

Section World.
Context {T : Type -> Type} `{NameIndex T} {I X Kind : Type}.

(** bitbucket_private_inode_t and bitbucket_inode_t; the magic number and
    the lock of the public part are in [ea]. *)
Record inode := {
  PrivateMagic : Z;
  InodeLength : Z;
  RegisteredAttributes : option Kind;
  PrivateTable : bool;
  InodeType : Z;
  Table : bool;
  Epoch : Z;
  st_ino : Z;
  st_mode : Z;
  st_nlink : Z;
  st_size : Z;
  ea : xattrs (T := T);
  Instance : I }.

Record world := {
  st : store;
  inodes : gmap ptr inode;
  table : inode_table;
  last_inode_number : Z;
  inode_bias : Z;
  extra : X }.

Definition set_st (s : store) (w : world) : world :=
  {| st := s; inodes := inodes w; table := table w; last_inode_number := last_inode_number w;
     inode_bias := inode_bias w; extra := extra w |}.
Definition set_inodes (f : gmap ptr inode -> gmap ptr inode) (w : world) : world :=
  {| st := st w; inodes := f (inodes w); table := table w; last_inode_number := last_inode_number w;
     inode_bias := inode_bias w; extra := extra w |}.
Definition set_table (t : inode_table) (w : world) : world :=
  {| st := st w; inodes := inodes w; table := t; last_inode_number := last_inode_number w;
     inode_bias := inode_bias w; extra := extra w |}.
Definition set_last (n : Z) (w : world) : world :=
  {| st := st w; inodes := inodes w; table := table w; last_inode_number := n;
     inode_bias := inode_bias w; extra := extra w |}.

Definition with_ea (x : xattrs) (i : inode) : inode :=
  {| PrivateMagic := PrivateMagic i; InodeLength := InodeLength i; RegisteredAttributes := RegisteredAttributes i;
     PrivateTable := PrivateTable i; InodeType := InodeType i; Table := Table i; Epoch := Epoch i; st_ino := st_ino i;
     st_mode := st_mode i; st_nlink := st_nlink i; st_size := st_size i; ea := x; Instance := Instance i |}.
Definition with_epoch (n : Z) (i : inode) : inode :=
  {| PrivateMagic := PrivateMagic i; InodeLength := InodeLength i; RegisteredAttributes := RegisteredAttributes i;
     PrivateTable := PrivateTable i; InodeType := InodeType i; Table := Table i; Epoch := n; st_ino := st_ino i;
     st_mode := st_mode i; st_nlink := st_nlink i; st_size := st_size i; ea := ea i; Instance := Instance i |}.
Definition with_tables (private public : bool) (i : inode) : inode :=
  {| PrivateMagic := PrivateMagic i; InodeLength := InodeLength i; RegisteredAttributes := RegisteredAttributes i;
     PrivateTable := private; InodeType := InodeType i; Table := public; Epoch := Epoch i; st_ino := st_ino i;
     st_mode := st_mode i; st_nlink := st_nlink i; st_size := st_size i; ea := ea i; Instance := Instance i |}.
Definition with_registered (k : option Kind) (i : inode) : inode :=
  {| PrivateMagic := PrivateMagic i; InodeLength := InodeLength i; RegisteredAttributes := k;
     PrivateTable := PrivateTable i; InodeType := InodeType i; Table := Table i; Epoch := Epoch i; st_ino := st_ino i;
     st_mode := st_mode i; st_nlink := st_nlink i; st_size := st_size i; ea := ea i; Instance := Instance i |}.
Definition with_instance (type mode nlink size : Z) (x : I) (i : inode) : inode :=
  {| PrivateMagic := PrivateMagic i; InodeLength := InodeLength i; RegisteredAttributes := RegisteredAttributes i;
     PrivateTable := PrivateTable i; InodeType := type; Table := Table i; Epoch := Epoch i; st_ino := st_ino i;
     st_mode := mode; st_nlink := nlink; st_size := size; ea := ea i; Instance := x |}.

#[local] Notation MW := (M world).

Definition lift_store (A : Type) (m : M store A) : MW A :=
  fun w => match m (st w) with Done (a, s) => Done (a, set_st s w) | Fail f => Fail f end.
Definition lift_outcome {A : Type} (m : outcome A) : MW A :=
  fun w => match m with Done a => Done (a, w) | Fail f => Fail f end.

Definition load_inode (p : ptr) : MW inode := w ← get_state; deref (inodes w !! p).
Definition store_inode (p : ptr) (i : inode) : MW unit := modify_state (set_inodes <[p := i]>).
Definition update_inode (p : ptr) (f : inode -> inode) : MW unit := i ← load_inode p; store_inode p (f i).

Definition lift_ea (p : ptr) {A : Type} (m : M (xattrs (T := T)) A) : MW A :=
  i ← load_inode p;
  match m (ea i) with
  | Fail f => mthrow f
  | Done (a, x) => store_inode p (with_ea x i);; mret a
  end.

(** What the components that register inodes supply. *)
Class Components := {
  blank : I;
  Initialize : Kind -> ptr -> MW unit;
  Deallocate : Kind -> ptr -> MW unit }.
End World.

Arguments inode T I Kind : clear implicits.
Arguments world T I X Kind : clear implicits.
Arguments Components T I X Kind : clear implicits.

Section Inode.
Context {T : Type -> Type} `{NameIndex T} {I X Kind : Type} `{!Components T I X Kind}.
#[local] Notation world := (world T I X Kind).
#[local] Notation MW := (M world).

Definition CHECK_TABLE_MAGIC : MW unit := w ← get_state; c_assert (t_Magic (table w) =? BITBUCKET_INODE_TABLE_MAGIC).
Definition CHECK_INODE (i : inode T I Kind) : MW unit := c_assert (Magic (ea i) =? BITBUCKET_INODE_MAGIC).
Definition CHECK_PRIVATE (i : inode T I Kind) : MW unit := c_assert (PrivateMagic i =? BITBUCKET_PRIVATE_INODE_MAGIC).

(** ** The table *)

Definition hash_of (ino : Z) : MW Z :=
  w ← get_state; lift_outcome (hash_inode ino (HashSeed (table w)) (BucketCountShift (table w))).

Definition load_bucket (b : Z) : MW bucket := w ← get_state; deref (Buckets (table w) !! Z.to_nat b).

Definition update_table (f : inode_table -> inode_table) : MW unit :=
  modify_state (fun w => set_table (f (table w)) w).

Definition with_buckets (l : list bucket) (t : inode_table) : inode_table :=
  {| t_Magic := t_Magic t; BucketCount := BucketCount t; BucketCountShift := BucketCountShift t;
     InodeCount := InodeCount t; MaxInodeCount := MaxInodeCount t; HashSeed := HashSeed t; Buckets := l |}.
Definition with_inode_counts (n max : Z) (t : inode_table) : inode_table :=
  {| t_Magic := t_Magic t; BucketCount := BucketCount t; BucketCountShift := BucketCountShift t;
     InodeCount := n; MaxInodeCount := max; HashSeed := HashSeed t; Buckets := Buckets t |}.

Definition store_bucket (b : Z) (x : bucket) : MW unit :=
  update_table (fun t => with_buckets (<[Z.to_nat b := x]> (Buckets t)) t).

Definition LockInodeBucket (BucketId : Z) (Change : bool) : MW unit :=
  CHECK_TABLE_MAGIC;;
  w ← get_state;
  c_assert (BucketId <? BucketCount (table w));;
  lift_store unit (acquire (BucketId + 1) Change).

(** 0 when the lock was taken, EBUSY when it is held in a conflicting mode *)
Definition TryLockInodeBucket (BucketId : Z) (Change : bool) : MW Z :=
  CHECK_TABLE_MAGIC;;
  w ← get_state;
  c_assert (BucketId <? BucketCount (table w));;
  match locks (st w) !! (BucketId + 1), Change with
  | None, _ | Some (Shared _), false => lift_store unit (acquire (BucketId + 1) Change);; mret 0
  | _, _ => mret EBUSY
  end.

Definition UnlockInodeBucket (BucketId : Z) : MW unit :=
  CHECK_TABLE_MAGIC;;
  w ← get_state;
  c_assert (BucketId <? BucketCount (table w));;
  lift_store unit (release (BucketId + 1)).

Definition LockInodeForLookup (ino : Z) : MW unit := b ← hash_of ino; LockInodeBucket b false.
Definition LockInodeForChange (ino : Z) : MW unit := b ← hash_of ino; LockInodeBucket b true.
Definition TryLockInode (ino : Z) (Exclusive : bool) : MW Z := b ← hash_of ino; TryLockInodeBucket b Exclusive.
Definition UnlockInode (ino : Z) : MW unit := b ← hash_of ino; UnlockInodeBucket b.

(** The loop over the entries of a bucket. *)
Fixpoint find_entry (l : list ptr) (ino : Z) : MW (option ptr) :=
  match l with
  | [] => mret None
  | p :: l => i ← load_inode p; if ino =? st_ino i then mret (Some p) else find_entry l ino
  end.

Definition with_lookup (e : list ptr) (n : Z) (last : option ptr) (failed matched max : Z) (b : bucket) : bucket :=
  {| Entries := e; Count := n; LastInodeTableEntry := last; Lookups := u64 (Lookups b + 1);
     FailedLookups := failed; LastInodeMatch := matched; MaxCount := max |}.

Definition LookupInodeInTableLocked (ino : Z) : MW (option ptr) :=
  c_assert (negb (ino =? 0));;
  CHECK_TABLE_MAGIC;;
  bucketId ← hash_of ino;
  w ← get_state;
  c_assert (bucketId <? BucketCount (table w));;
  b ← load_bucket bucketId;
  hit ← match LastInodeTableEntry b with
        | None => mret false
        | Some p => i ← load_inode p; mret (ino =? st_ino i)
        end;
  if (hit : bool) then
    store_bucket bucketId (with_lookup (Entries b) (Count b) (LastInodeTableEntry b) (FailedLookups b)
      (u64 (LastInodeMatch b + 1)) (MaxCount b) b);;
    mret (LastInodeTableEntry b)
  else
    r ← find_entry (Entries b) ino;
    match r with
    | Some p =>
        store_bucket bucketId (with_lookup (Entries b) (Count b) (Some p) (FailedLookups b) (LastInodeMatch b) (MaxCount b) b);;
        mret (Some p)
    | None =>
        store_bucket bucketId (with_lookup (Entries b) (Count b) (LastInodeTableEntry b) (u64 (FailedLookups b + 1))
          (LastInodeMatch b) (MaxCount b) b);;
        mret None
    end.

(** [- EEXIST] as the code returns it *)
Definition BitbucketInsertInodeInTable (p : ptr) : MW Z :=
  CHECK_TABLE_MAGIC;;
  c_assert (negb (p =? NULL));;
  i ← load_inode p;
  c_assert (negb (InodeType i =? BITBUCKET_UNKNOWN_TYPE));;
  CHECK_INODE i;;
  c_assert (negb (Table i));;
  c_assert (negb (st_ino i =? FUSE_ROOT_ID));;
  c_assert (negb (st_ino i =? 0));;
  bucketId ← hash_of (st_ino i);
  w ← get_state;
  c_assert (bucketId <? BucketCount (table w));;
  LockInodeBucket bucketId true;;
  found ← LookupInodeInTableLocked (st_ino i);
  result ← match found with
    | Some _ => mret (- EEXIST)
    | None =>
        b ← load_bucket bucketId;
        let count := u64 (Count b + 1) in
        store_bucket bucketId
          {| Entries := p :: Entries b; Count := count; LastInodeTableEntry := LastInodeTableEntry b;
             Lookups := Lookups b; FailedLookups := FailedLookups b; LastInodeMatch := LastInodeMatch b;
             MaxCount := Z.max count (MaxCount b) |};;
        mret 0
    end;
  UnlockInodeBucket bucketId;;
  update_inode p (fun i => with_tables (PrivateTable i) true i);;
  update_table (fun t => with_inode_counts (u64 (InodeCount t + 1)) (Z.max (InodeCount t) (MaxInodeCount t)) t);;
  mret result.

Definition BitbucketGetInodeTableCount : MW Z := CHECK_TABLE_MAGIC;; w ← get_state; mret (InodeCount (table w)).

(** ** References *)

(** The lock callback of an inode asserts that it is in a table. *)
Definition in_a_table (p : ptr) : MW unit := i ← load_inode p; CHECK_PRIVATE i;; c_assert (PrivateTable i).

Definition BitbucketReferenceInode (p : ptr) (Reason : Z) : MW unit :=
  i ← load_inode p; CHECK_PRIVATE i;;
  in_a_table p;;
  lift_store unit (BitbucketObjectReference p Reason).

Definition BitbucketGetInodeReferenceCount (p : ptr) : MW Z :=
  i ← load_inode p; CHECK_PRIVATE i;; lift_store Z (BitbucketGetObjectReferenceCount p).

Definition BitbucketGetInodeReasonReferenceCount (p : ptr) (Reason : Z) : MW Z :=
  i ← load_inode p; CHECK_PRIVATE i;; lift_store Z (BitbucketGetObjectReasonReferenceCount p Reason).

Definition BitbucketLookupInodeInTable (ino : Z) : MW (option ptr) :=
  CHECK_TABLE_MAGIC;;
  c_assert (negb (ino =? 0));;
  LockInodeForLookup ino;;
  r ← LookupInodeInTableLocked ino;
  match r with Some p => BitbucketReferenceInode p INODE_LOOKUP_REFERENCE | None => mret () end;;
  UnlockInode ino;;
  mret r.

(** ** The lock of an inode *)

Definition with_lock (l : rwlock) (i : inode T I Kind) : inode T I Kind :=
  with_ea {| Magic := Magic (ea i); InodeLock := l; ExtendedAttributes := ExtendedAttributes (ea i);
             ExtendedAttributeTrie := ExtendedAttributeTrie (ea i); heap := heap (ea i) |} i.

Definition BitbucketTryLockInode (p : ptr) (Exclusive : bool) : MW Z :=
  i ← load_inode p; CHECK_INODE i;;
  if Exclusive then
    let free := match InodeLock (ea i) with Unlocked => true | _ => false end in
    store_inode p (with_epoch (u64 (Epoch i + 1)) (if free then with_lock LockedExclusive i else i));;
    mret (if free then 0 else EBUSY)
  else
    match InodeLock (ea i) with
    | Unlocked => store_inode p (with_lock (LockedShared 0) i);; mret 0
    | LockedShared n => store_inode p (with_lock (LockedShared (S n)) i);; mret 0
    | LockedExclusive => mret EBUSY
    end.

Definition BitbucketLockInode (p : ptr) (Exclusive : bool) : MW unit :=
  c_assert (negb (p =? NULL));;
  i ← load_inode p; CHECK_INODE i;;
  match InodeLock (ea i), Exclusive with
  | Unlocked, true => store_inode p (with_epoch (u64 (Epoch i + 1)) (with_lock LockedExclusive i))
  | Unlocked, false => store_inode p (with_lock (LockedShared 0) i)
  | LockedShared n, false => store_inode p (with_lock (LockedShared (S n)) i)
  | _, _ => mthrow Deadlock
  end.

Definition pthread_rwlock_unlock (p : ptr) : MW unit :=
  i ← load_inode p;
  match InodeLock (ea i) with
  | Unlocked => mthrow Undefined
  | LockedShared (S n) => store_inode p (with_lock (LockedShared n) i)
  | LockedShared O | LockedExclusive => store_inode p (with_lock Unlocked i)
  end.

Definition pthread_rwlock_tryrdlock (p : ptr) : MW Z :=
  i ← load_inode p;
  match InodeLock (ea i) with
  | Unlocked => store_inode p (with_lock (LockedShared 0) i);; mret 0
  | LockedShared n => store_inode p (with_lock (LockedShared (S n)) i);; mret 0
  | LockedExclusive => mret EBUSY
  end.

(** An exclusive holder also updates the change time, which is left out. *)
Definition BitbucketUnlockInode (p : ptr) : MW unit :=
  i ← load_inode p; CHECK_INODE i;;
  status ← pthread_rwlock_tryrdlock p;
  (if status =? 0 then pthread_rwlock_unlock p else mret ());;
  pthread_rwlock_unlock p.

(** Which of two inodes is locked first: by type, and by address when the
    first argument's type is not the smaller one. *)
Definition lock_first (type1 type2 : Z) (Inode1 Inode2 : ptr) : ptr :=
  if type1 <? type2 then Inode1 else if Inode1 <? Inode2 then Inode2 else Inode1.

Definition BitbucketLockTwoInodes (Inode1 Inode2 : ptr) (Exclusive : bool) : MW unit :=
  c_assert (negb (Inode1 =? NULL));;
  c_assert (negb (Inode2 =? NULL));;
  c_assert (negb (Inode1 =? Inode2));;
  i1 ← load_inode Inode1;
  c_assert ((BITBUCKET_DIR_TYPE =? InodeType i1) || (BITBUCKET_FILE_TYPE =? InodeType i1) ||
            (BITBUCKET_SYMLINK_TYPE =? InodeType i1) || (BITBUCKET_DEVNODE_TYPE =? InodeType i1));;
  i2 ← load_inode Inode2;
  let first := lock_first (InodeType i1) (InodeType i2) Inode1 Inode2 in
  let second := if first =? Inode1 then Inode2 else Inode1 in
  BitbucketLockInode first Exclusive;;
  BitbucketLockInode second Exclusive.

(** ** Creation and deletion *)

(** The loop ends after two iterations: the bias is not 0. *)
Fixpoint new_inode_number (fuel : nat) : MW Z :=
  match fuel with
  | O => mthrow OutOfFuel
  | S fuel =>
      w ← get_state;
      modify_state (set_last (u64 (last_inode_number w + inode_bias w)));;
      if last_inode_number w =? 0 then new_inode_number fuel else mret (last_inode_number w)
  end.
Definition get_new_inode_number : MW Z := new_inode_number 2.

(** [epoch] is the random start of the epoch. *)
Definition InodeInitialize (p : ptr) (Length epoch : Z) : MW unit :=
  ino ← get_new_inode_number;
  store_inode p
    {| PrivateMagic := BITBUCKET_PRIVATE_INODE_MAGIC; InodeLength := Length; RegisteredAttributes := None;
       PrivateTable := false; InodeType := BITBUCKET_UNKNOWN_TYPE; Table := false; Epoch := epoch; st_ino := ino;
       st_mode := S_IRWXUGO; st_nlink := 0; st_size := 4096;
       ea := {| Magic := BITBUCKET_INODE_MAGIC; InodeLock := Unlocked; ExtendedAttributes := [];
                ExtendedAttributeTrie := None; heap := ∅ |};
       Instance := blank |}.

(** From here on the lock callback of the object finds the bucket of the
    inode. *)
Definition set_table_of (p : ptr) (bucketId : Z) : MW unit :=
  update_inode p (fun i => with_tables true (Table i) i);;
  lift_store unit (
    o ← load_object p;
    set_objects (<[p := {| Object.Magic := Object.Magic o; ObjectAttributes := InodePrivateObjectAttributes bucketId;
                           ReferenceCount := ReferenceCount o; ReferenceReasons := ReferenceReasons o;
                           Object.DataLength := Object.DataLength o |}]>)).

(** The length of an inode, rounded up to a cache line *)
Definition inode_length (DataLength : Z) : Z := Z.land (SIZEOF_PRIVATE_INODE + DataLength + 0x3F) (wnot 64 0x3F).

Definition BitbucketCreateInode (kind : option Kind) (DataLength epoch : Z) (newobj : ptr) : MW ptr :=
  let length := inode_length DataLength in
  c_assert (length <? 65536);;
  p ← lift_store ptr (BitbucketObjectCreate (Some (InodePrivateObjectAttributes 0)) length INODE_LOOKUP_REFERENCE newobj);
  InodeInitialize p length epoch;;
  refcount ← lift_store Z (BitbucketGetObjectReferenceCount p);
  c_assert (refcount =? 1);;
  i ← load_inode p;
  CHECK_PRIVATE i;;
  match kind with
  | None => mret ()
  | Some k => update_inode p (with_registered (Some k));; Initialize k p
  end;;
  i ← load_inode p;
  _ ← BitbucketInsertInodeInTable p;
  bucketId ← hash_of (st_ino i);
  set_table_of p bucketId;;
  refcount ← lift_store Z (BitbucketGetObjectReferenceCount p);
  c_assert (refcount =? 1);;
  mret p.

(** The callback for the deletion of an inode: it is taken out of the table,
    the bucket is unlocked and the rest is torn down. *)
Definition InodeDeallocate (p : ptr) : MW unit :=
  i ← load_inode p;
  CHECK_PRIVATE i;;
  o ← lift_store object (load_object p);
  c_assert (InodeLength i =? Object.DataLength o);;
  c_assert (PrivateTable i);;
  bucketId ← hash_of (st_ino i);
  status ← TryLockInode (st_ino i) false;
  c_assert (negb (status =? 0));;
  found ← LookupInodeInTableLocked (st_ino i);
  match found with
  | None => mthrow AssertFailed
  | Some ite =>
      b ← load_bucket bucketId;
      l ← deref (unlink ite (Entries b));
      store_bucket bucketId
        {| Entries := l; Count := u64 (Count b - 1);
           LastInodeTableEntry := if bool_decide (LastInodeTableEntry b = Some ite) then None else LastInodeTableEntry b;
           Lookups := Lookups b; FailedLookups := FailedLookups b; LastInodeMatch := LastInodeMatch b; MaxCount := MaxCount b |};;
      UnlockInode (st_ino i);;
      w ← get_state;
      update_table (fun t => with_inode_counts (u64 (InodeCount t - 1)) (MaxInodeCount t) t);;
      c_assert (negb (InodeCount (table w) =? 0))
  end;;
  (if match ExtendedAttributeTrie (ea i) with Some _ => true | None => false end ||
      negb (bool_decide (ExtendedAttributes (ea i) = []))
   then lift_ea p BitbucketDestroyExtendedAttributes else mret ());;
  i ← load_inode p;
  c_assert match ExtendedAttributeTrie (ea i) with Some _ => false | None => true end;;
  c_assert (bool_decide (ExtendedAttributes (ea i) = []));;
  match RegisteredAttributes i with Some k => Deallocate k p | None => mret () end;;
  modify_state (set_inodes (delete p)).

Definition BitbucketDereferenceInode (p : ptr) (Reason Bias : Z) : MW unit :=
  i ← load_inode p; CHECK_PRIVATE i;;
  in_a_table p;;
  object_dereference lift_store InodeDeallocate p Reason Bias.

(** * The table as a finite map *)

Record table_ok (t : inode_table) (inos : gmap ptr (inode T I Kind)) (m : gmap Z ptr) : Prop := {
  tb_magic : t_Magic t = BITBUCKET_INODE_TABLE_MAGIC;
  tb_shift : 10 <= BucketCountShift t < 16;
  tb_count : BucketCount t = 2 ^ BucketCountShift t;
  tb_length : length (Buckets t) = Z.to_nat (2 ^ BucketCountShift t);
  tb_inode : forall ino p, m !! ino = Some p -> ino <> 0 /\ exists i, inos !! p = Some i /\ st_ino i = ino;
  tb_bucket : forall k b, Buckets t !! k = Some b ->
    NoDup (Entries b) /\ Count b = u64 (Z.of_nat (length (Entries b))) /\
    (forall p, LastInodeTableEntry b = Some p -> p ∈ Entries b) /\
    (forall p, p ∈ Entries b <->
       exists ino, m !! ino = Some p /\ hash_inode ino (HashSeed t) (BucketCountShift t) = Done (Z.of_nat k));
  tb_inodes : InodeCount t = Z.of_nat (size m);
  tb_size : Z.of_nat (size m) < 2 ^ 64 }.

Lemma hash_inode_total ino seed shift :
  ino <> 0 -> 10 <= shift < 16 -> exists b, hash_inode ino seed shift = Done b /\ 0 <= b < 2 ^ shift.
Proof.
  intros Hi Hs. unfold hash_inode.
  destruct (Z.eqb_spec ino 0); [done|]. cbn [negb c_assert].
  unfold c_assert. destruct (Z.leb_spec 10 shift); [|lia]. destruct (Z.ltb_spec shift 16); [|lia].
  cbn [mbind outcome_bind mret outcome_ret]. destruct (MurmurHash3_x64_128 _ _ _) as [h1 h2].
  destruct (truncate_hash_done (Z.lxor h1 h2) shift) as (b & -> & Hb); [lia|]. cbn [mbind outcome_bind].
  assert (2 ^ shift <= 2 ^ 15) by (apply Z.pow_le_mono_r; lia).
  rewrite (wrap_small 16) by lia. rewrite Z.shiftl_1_l. destruct (Z.ltb_spec b (2 ^ shift)); [|lia]. cbn. eauto.
Qed.

Lemma tb_inj t inos m ino ino' p : table_ok t inos m -> m !! ino = Some p -> m !! ino' = Some p -> ino = ino'.
Proof.
  intros Ht H1 H2. destruct (tb_inode _ _ _ Ht _ _ H1) as (_ & i & Hi & <-).
  destruct (tb_inode _ _ _ Ht _ _ H2) as (_ & i' & Hi' & <-). by simplify_eq.
Qed.

(** The bucket of an inode number. *)
Lemma tb_find t inos m ino :
  table_ok t inos m -> ino <> 0 ->
  exists k b, hash_inode ino (HashSeed t) (BucketCountShift t) = Done (Z.of_nat k) /\
    Buckets t !! k = Some b /\ Z.of_nat k < BucketCount t /\ (forall p, m !! ino = Some p -> p ∈ Entries b).
Proof.
  intros Ht Hi. destruct (hash_inode_total ino (HashSeed t) (BucketCountShift t)) as (x & Hx & Hb); [done|apply Ht|].
  destruct (lookup_lt_is_Some_2 (Buckets t) (Z.to_nat x)) as [b Hl]; [rewrite (tb_length _ _ _ Ht); lia|].
  exists (Z.to_nat x), b. rewrite Z2Nat.id by lia. split; [done|]. split; [done|].
  split; [rewrite (tb_count _ _ _ Ht); lia|]. intros p Hp.
  destruct (tb_bucket _ _ _ Ht _ _ Hl) as (_ & _ & _ & Hin). apply Hin. exists ino. by rewrite Z2Nat.id by lia.
Qed.

(** Only the counters and the cache of a bucket change. *)
Lemma table_ok_stats t inos m k b b' :
  table_ok t inos m -> Buckets t !! k = Some b -> Entries b' = Entries b -> Count b' = Count b ->
  (forall p, LastInodeTableEntry b' = Some p -> p ∈ Entries b) ->
  table_ok (with_buckets (<[k := b']> (Buckets t)) t) inos m.
Proof.
  intros [] Hk He Hc Hl. constructor; cbn; try done.
  - by rewrite length_insert.
  - intros j x Hj. destruct (decide (j = k)) as [->|Hne].
    + rewrite list_lookup_insert_eq in Hj by (by eapply lookup_lt_Some). injection Hj as <-.
      destruct (tb_bucket0 k b Hk) as (? & ? & ? & ?). by rewrite He, Hc.
    + rewrite list_lookup_insert_ne in Hj by done. by apply tb_bucket0.
Qed.

Lemma load_inode_run p i (w : world) : inodes w !! p = Some i -> load_inode p w = Done (i, w).
Proof. intros Hi. unfold load_inode. by rewrite get_state_bind, Hi. Qed.

Lemma CHECK_TABLE_run (w : world) :
  t_Magic (table w) = BITBUCKET_INODE_TABLE_MAGIC -> CHECK_TABLE_MAGIC w = Done (tt, w).
Proof. intros Hm. unfold CHECK_TABLE_MAGIC. rewrite get_state_bind. by rewrite Hm. Qed.

Lemma hash_of_run ino (w : world) b :
  hash_inode ino (HashSeed (table w)) (BucketCountShift (table w)) = Done b -> hash_of ino w = Done (b, w).
Proof. intros Hh. unfold hash_of. rewrite get_state_bind. unfold lift_outcome. by rewrite Hh. Qed.

Lemma load_bucket_run k (w : world) b : Buckets (table w) !! k = Some b -> load_bucket (Z.of_nat k) w = Done (b, w).
Proof. intros Hb. unfold load_bucket. by rewrite get_state_bind, Nat2Z.id, Hb. Qed.

Lemma find_entry_run l ino (w : world) :
  (forall p, p ∈ l -> is_Some (inodes w !! p)) ->
  exists r, find_entry l ino w = Done (r, w) /\
    match r with
    | Some p => p ∈ l /\ exists i, inodes w !! p = Some i /\ st_ino i = ino
    | None => forall p i, p ∈ l -> inodes w !! p = Some i -> st_ino i <> ino
    end.
Proof.
  induction l as [|p l IH]; intros Hl; cbn.
  - exists None. split; [done|]. by intros p i ?%elem_of_nil.
  - destruct (Hl p) as [i Hi]; [by left|]. rewrite (M_bind_done _ _ _ i w) by (by apply load_inode_run).
    destruct (Z.eqb_spec ino (st_ino i)).
    + exists (Some p). split; [done|]. split; [by left|eauto].
    + destruct IH as (r & Hr & Hs); [intros q Hq; apply Hl; by right|]. exists r. split; [done|].
      destruct r as [q|]; [destruct Hs; split; [by right|done]|].
      intros q j [->|Hq]%elem_of_cons Hj; [congruence|by eapply Hs].
Qed.

(** What [LookupInodeInTableLocked] answers and changes. *)
Lemma LookupLocked_run ino (w : world) m :
  table_ok (table w) (inodes w) m -> ino <> 0 ->
  exists k b b', hash_inode ino (HashSeed (table w)) (BucketCountShift (table w)) = Done (Z.of_nat k) /\
    Buckets (table w) !! k = Some b /\
    LookupInodeInTableLocked ino w = Done (m !! ino, set_table (with_buckets (<[k := b']> (Buckets (table w))) (table w)) w) /\
    Entries b' = Entries b /\ Count b' = Count b /\ (forall p, LastInodeTableEntry b' = Some p -> p ∈ Entries b).
Proof.
  intros Ht Hi. destruct (tb_find _ _ _ ino Ht Hi) as (k & b & Hh & Hb & Hk & Hin). exists k, b.
  destruct (tb_bucket _ _ _ Ht k b Hb) as (Hnd & Hc & Hlast & Hent).
  assert (forall p, p ∈ Entries b -> is_Some (inodes w !! p)) as Hl.
  { intros p (ino' & Hm & _)%Hent. destruct (tb_inode _ _ _ Ht _ _ Hm) as (_ & i & Hi' & _). eauto. }
  assert (forall p i, p ∈ Entries b -> inodes w !! p = Some i -> st_ino i = ino -> m !! ino = Some p) as Hfound.
  { intros p i (ino' & Hm & _)%Hent Hp Hino. destruct (tb_inode _ _ _ Ht _ _ Hm) as (_ & i' & Hi' & <-).
    simplify_eq. done. }
  unfold LookupInodeInTableLocked. rewrite c_assert_bind by (by destruct (Z.eqb_spec ino 0)).
  run_step ltac:(apply CHECK_TABLE_run, Ht). run_step ltac:(by apply hash_of_run).
  rewrite get_state_bind, c_assert_bind by lia. run_step ltac:(by apply load_bucket_run).
  unfold store_bucket, update_table.
  assert (exists hit : bool, (match LastInodeTableEntry b with
      | None => mret false | Some p => i ← load_inode p; mret (ino =? st_ino i) end : MW bool) w = Done (hit, w) /\
      (hit = true -> LastInodeTableEntry b = m !! ino)) as (hit & Hhit & Hhit').
  { destruct (LastInodeTableEntry b) as [p|] eqn:El; [|by exists false].
    destruct (Hl p (Hlast p eq_refl)) as [i Hp]. exists (ino =? st_ino i). split; [by run_step ltac:(by apply load_inode_run)|].
    intros E. symmetry. apply (Hfound p i); [by apply Hlast|done|lia]. }
  rewrite (M_bind_done _ _ _ hit w) by exact Hhit. destruct hit.
  - eexists. split; [done|]. split; [done|]. rewrite Hhit' by done. rewrite modify_bind. rewrite Nat2Z.id.
    split; [reflexivity|]. split; [done|]. split; [done|]. cbn. rewrite <- Hhit' by done. done.
  - destruct (find_entry_run (Entries b) ino w Hl) as (r & Hr & Hspec).
    rewrite (M_bind_done _ _ _ r w) by done. rewrite Nat2Z.id. destruct r as [p|].
    + destruct Hspec as (Hp & i & Hpi & Hino). rewrite (Hfound p i) by done. eexists. split; [done|]. split; [done|].
      rewrite modify_bind. split; [reflexivity|]. split; [done|]. split; [done|]. cbn. by intros q [= <-].
    + assert (m !! ino = None) as ->.
      { apply eq_None_not_Some. intros [p Hp]. destruct (tb_inode _ _ _ Ht _ _ Hp) as (_ & i & Hpi & Hino).
        apply (Hspec p i); [by apply Hin|done|done]. }
      eexists. split; [done|]. split; [done|]. rewrite modify_bind. split; [reflexivity|]. by split.
Qed.

(** * Inodes as multisets of references, by inode number *)

(** For each inode number in the table, where the inode is and its
    references. *)
Abbreviation catalog := (gmap Z (ptr * list Z)) (only parsing).

Record inode_ok (w : world) (ino : Z) (p : ptr) (bag : list Z) (i : inode T I Kind) (o : object) (k : nat) : Prop := {
  io_inode : inodes w !! p = Some i;
  io_object : objects (st w) !! p = Some o;
  io_ino : st_ino i = ino;
  io_private : PrivateMagic i = BITBUCKET_PRIVATE_INODE_MAGIC;
  io_table : PrivateTable i = true;
  io_length : InodeLength i = Object.DataLength o;
  io_magic : Magic (ea i) = BITBUCKET_INODE_MAGIC;
  io_attrs : exists m, holds_attrs (ea i) m;
  io_hash : hash_inode ino (HashSeed (table w)) (BucketCountShift (table w)) = Done (Z.of_nat k);
  io_lock : ObjectAttributes o = InodePrivateObjectAttributes (Z.of_nat k);
  io_bag : ReferenceReasons o = bag }.

Record world_ok (w : world) (a : catalog) : Prop := {
  wo_counted : counted (st w);
  wo_locks : locks (st w) = ∅;
  wo_table : table_ok (table w) (inodes w) (fst <$> a);
  wo_inode : forall ino p bag, a !! ino = Some (p, bag) -> exists i o k, inode_ok w ino p bag i o k;
  wo_object : forall p o, objects (st w) !! p = Some o -> exists ino bag, a !! ino = Some (p, bag) }.

Lemma catalog_table (a : catalog) ino p bag bag' :
  a !! ino = Some (p, bag) -> fst <$> <[ino := (p, bag')]> a = fst <$> a.
Proof. intros Ha. rewrite fmap_insert. apply insert_id. by rewrite lookup_fmap, Ha. Qed.

Lemma catalog_inj w a ino ino' p bag bag' :
  world_ok w a -> a !! ino = Some (p, bag) -> a !! ino' = Some (p, bag') -> ino = ino'.
Proof.
  intros Hw H1 H2. apply (tb_inj (table w) (inodes w) (fst <$> a) _ _ p (wo_table _ _ Hw)); by rewrite lookup_fmap, ?H1, ?H2.
Qed.

(** The references of one inode change; counters and cache of the table may
    change too. *)
Lemma world_ok_counts w a ino p bag i o k reason d x t' :
  world_ok w a -> a !! ino = Some (p, bag) -> inode_ok w ino p bag i o k ->
  0 <= reason < 12 -> bag !! Z.to_nat reason = Some x -> 0 <= x + d -> 0 < ReferenceCount o + d < 2 ^ 32 ->
  table_ok t' (inodes w) (fst <$> a) -> HashSeed t' = HashSeed (table w) -> BucketCountShift t' = BucketCountShift (table w) ->
  world_ok (set_table t' (set_st (changed p reason d o x (st w)) w)) (<[ino := (p, bag_add reason d bag)]> a).
Proof.
  intros Hw Ha Hi Hr Hx Hd Hb Ht Hs1 Hs2. pose proof Hi as []. pose proof Hw as []. constructor; cbn.
  - apply counted_changed; try done. by rewrite io_bag0.
  - done.
  - by rewrite (catalog_table _ _ _ _ _ Ha).
  - intros ino' q bag' [[<- [= <- <-]]|[Hne Hq]]%lookup_insert_Some.
    + exists i, (Object.with_counts (ReferenceCount o + d) (<[Z.to_nat reason := x + d]> (ReferenceReasons o)) o), k.
      constructor; cbn; try done.
      * by rewrite lookup_insert_eq.
      * by rewrite Hs1, Hs2.
      * rewrite io_bag0. symmetry. by apply bag_add_eq.
    + destruct (wo_inode0 ino' q bag' Hq) as (i' & o' & k' & []). exists i', o', k'. constructor; cbn; try done.
      * rewrite lookup_insert_ne; [done|]. intros ->. by destruct (Hne (catalog_inj w a _ _ _ _ _ Hw Ha Hq)).
      * by rewrite Hs1, Hs2.
  - intros q o' [[<- _]|[Hne Hq]]%lookup_insert_Some.
    + exists ino, (bag_add reason d bag). by rewrite lookup_insert_eq.
    + destruct (wo_object0 q o' Hq) as (ino' & bag' & Ha'). exists ino', bag'. rewrite lookup_insert_ne; [done|].
      intros ->. congruence.
Qed.

Lemma world_ok_table w a t' :
  world_ok w a -> table_ok t' (inodes w) (fst <$> a) -> HashSeed t' = HashSeed (table w) ->
  BucketCountShift t' = BucketCountShift (table w) -> world_ok (set_table t' w) a.
Proof.
  intros [] Ht Hs1 Hs2. constructor; cbn; try done.
  intros ino p bag Ha. destruct (wo_inode0 ino p bag Ha) as (i & o & k & []). exists i, o, k. constructor; cbn; try done.
  by rewrite Hs1, Hs2.
Qed.

Lemma bag_reason w a ino p bag i o k reason :
  world_ok w a -> inode_ok w ino p bag i o k -> 0 <= reason < 12 ->
  object_ok o /\ 0 <= reason < ReasonCount (ObjectAttributes o) /\
  exists x, ReferenceReasons o !! Z.to_nat reason = Some x /\ bag !! Z.to_nat reason = Some x /\ 0 <= x <= ReferenceCount o.
Proof.
  intros Hw Hi Hr. destruct (st_objects _ (wo_counted _ _ Hw) p o (io_object _ _ _ _ _ _ _ Hi)) as [_ Hok].
  split; [done|]. assert (0 <= reason < ReasonCount (ObjectAttributes o)) as Hr'.
  { rewrite (io_lock _ _ _ _ _ _ _ Hi). cbn. unfold BITBUCKET_MAX_REFERENCE_REASONS. lia. }
  split; [done|]. destruct (reason_lookup o reason Hok Hr') as (x & Hx & Hb). exists x. split; [done|].
  split; [|done]. by rewrite <- (io_bag _ _ _ _ _ _ _ Hi).
Qed.

(** Taking a reference, whatever shared locks are held. *)
Lemma ReferenceInode_run w ino p bag i o k reason x :
  inode_ok w ino p bag i o k -> counted (st w) -> 0 <= reason < 12 -> readable (Z.of_nat k + 1) (st w) ->
  ReferenceReasons o !! Z.to_nat reason = Some x -> ReferenceCount o + 1 < 2 ^ 32 ->
  BitbucketReferenceInode p reason w = Done (tt, set_st (changed p reason 1 o x (st w)) w).
Proof.
  intros [] Hc Hr Hl Hx Hb. unfold BitbucketReferenceInode, in_a_table.
  run_step ltac:(by apply load_inode_run). unfold CHECK_PRIVATE. rewrite c_assert_bind by (by rewrite io_private0).
  rewrite M_assoc. run_step ltac:(by apply load_inode_run). rewrite M_assoc, c_assert_bind by (by rewrite io_private0).
  rewrite c_assert_bind by done. unfold lift_store. erewrite Reference_run; [done|done|done| | |done|done].
  - rewrite io_lock0. cbn. unfold BITBUCKET_MAX_REFERENCE_REASONS. lia.
  - by rewrite io_lock0.
Qed.

(** What clients see of a world besides references and the table. *)
Definition seen (w : world) : gmap ptr (inode T I Kind) * Z * Z * X :=
  (inodes w, last_inode_number w, inode_bias w, extra w).

Lemma Reference_ok w a ino p bag reason :
  world_ok w a -> a !! ino = Some (p, bag) -> 0 <= reason < 12 -> sum bag + 1 < 2 ^ 32 ->
  exists w', BitbucketReferenceInode p reason w = Done (tt, w') /\ seen w' = seen w /\
    world_ok w' (<[ino := (p, bag_add reason 1 bag)]> a).
Proof.
  intros Hw Ha Hr Hb. destruct (wo_inode _ _ Hw ino p bag Ha) as (i & o & k & Hi).
  destruct (bag_reason w a ino p bag i o k reason Hw Hi Hr) as (Hok & Hr' & x & Hx & Hx' & Hxb).
  assert (ReferenceCount o = sum bag) as Hs by (rewrite (ob_sum _ Hok); by rewrite (io_bag _ _ _ _ _ _ _ Hi)).
  exists (set_st (changed p reason 1 o x (st w)) w). split.
  { eapply ReferenceInode_run; try done; [apply Hw| |lia]. unfold readable. by rewrite (wo_locks _ _ Hw), lookup_empty. }
  split; [done|]. pose proof (ob_bound _ Hok).
  apply (world_ok_counts w a ino p bag i o k reason 1 x (table w)); try done; [lia|lia|apply Hw].
Qed.

Lemma LockInodeBucket_run k change (w : world) s :
  t_Magic (table w) = BITBUCKET_INODE_TABLE_MAGIC -> Z.of_nat k < BucketCount (table w) ->
  acquire (Z.of_nat k + 1) change (st w) = Done (tt, s) ->
  LockInodeBucket (Z.of_nat k) change w = Done (tt, set_st s w).
Proof.
  intros Hm Hk Ha. unfold LockInodeBucket. run_step ltac:(by apply CHECK_TABLE_run).
  rewrite get_state_bind, c_assert_bind by lia. unfold lift_store. by rewrite Ha.
Qed.

Lemma UnlockInodeBucket_run k (w : world) s :
  t_Magic (table w) = BITBUCKET_INODE_TABLE_MAGIC -> Z.of_nat k < BucketCount (table w) ->
  release (Z.of_nat k + 1) (st w) = Done (tt, s) ->
  UnlockInodeBucket (Z.of_nat k) w = Done (tt, set_st s w).
Proof.
  intros Hm Hk Ha. unfold UnlockInodeBucket. run_step ltac:(by apply CHECK_TABLE_run).
  rewrite get_state_bind, c_assert_bind by lia. unfold lift_store. by rewrite Ha.
Qed.

Lemma hash_bucket w a ino k :
  world_ok w a -> ino <> 0 -> hash_inode ino (HashSeed (table w)) (BucketCountShift (table w)) = Done (Z.of_nat k) ->
  Z.of_nat k < BucketCount (table w).
Proof.
  intros Hw Hi Hh. destruct (tb_find _ _ _ ino (wo_table _ _ Hw) Hi) as (k' & b & Hh' & _ & Hk & _). congruence.
Qed.

Lemma world_eta (w : world) s t : set_table t (set_st s w) = set_st s (set_table t w).
Proof. done. Qed.

Lemma Lookup_ok w a ino :
  world_ok w a -> ino <> 0 -> (forall p bag, a !! ino = Some (p, bag) -> sum bag + 1 < 2 ^ 32) ->
  exists w', BitbucketLookupInodeInTable ino w = Done (fst <$> a !! ino, w') /\ seen w' = seen w /\
    world_ok w' (match a !! ino with
                 | Some (p, bag) => <[ino := (p, bag_add INODE_LOOKUP_REFERENCE 1 bag)]> a
                 | None => a
                 end).
Proof.
  intros Hw Hino Hsum. pose proof (wo_table _ _ Hw) as Ht. pose proof (wo_locks _ _ Hw) as Hlocks.
  set (s1 := fun k => put_lock (Z.of_nat k + 1) (Shared 0) (st w)).
  destruct (tb_find _ _ _ ino Ht Hino) as (k & b0 & Hh & _ & Hk & _).
  assert (table_ok (table (set_st (s1 k) w)) (inodes (set_st (s1 k) w)) (fst <$> a)) as Ht1 by done.
  destruct (LookupLocked_run ino (set_st (s1 k) w) (fst <$> a) Ht1 Hino) as (k' & b & b' & Hh' & Hb & Hrun & He & Hc & Hl).
  cbn [table set_st] in Hh', Hb, Hrun. assert (k' = k) as -> by (rewrite Hh in Hh'; injection Hh'; lia).
  set (t' := with_buckets (<[k := b']> (Buckets (table w))) (table w)) in *.
  assert (table_ok t' (inodes w) (fst <$> a)) as Ht' by (by eapply table_ok_stats).
  assert (acquire (Z.of_nat k + 1) false (st w) = Done (tt, s1 k)) as Hacq.
  { unfold acquire. by rewrite get_state_bind, Hlocks, lookup_empty. }
  unfold BitbucketLookupInodeInTable. run_step ltac:(apply CHECK_TABLE_run, Ht).
  rewrite c_assert_bind by (by destruct (Z.eqb_spec ino 0)).
  unfold LockInodeForLookup, UnlockInode. rewrite M_assoc. run_step ltac:(by apply hash_of_run).
  run_step ltac:(apply LockInodeBucket_run; [apply Ht|done|exact Hacq]).
  run_step ltac:(exact Hrun). rewrite lookup_fmap.
  assert (forall ob c s (wx : world), s = st w -> wx = set_table t' w ->
     (b0 ← hash_of ino; UnlockInodeBucket b0 : MW unit)
       (set_st {| objects := ob; ObjectCount := c; locks := <[Z.of_nat k + 1 := Shared 0]> (locks s) |} wx) =
     Done (tt, set_st {| objects := ob; ObjectCount := c; locks := locks s |} wx)) as Hunlock.
  { intros ob c s wx -> ->. run_step ltac:(by apply hash_of_run).
    erewrite UnlockInodeBucket_run; [done|apply Ht|done|].
    cbn [st set_st]. pose proof (release_shared (Z.of_nat k + 1) ob c (st w)) as Hrel.
    rewrite Hlocks, lookup_empty in Hrel. rewrite Hlocks. apply Hrel. unfold readable. by rewrite Hlocks, lookup_empty. }
  destruct (a !! ino) as [[p bag]|] eqn:Ha; cbn [fmap option_fmap option_map fst].
  - destruct (wo_inode _ _ Hw ino p bag Ha) as (i & o & k' & Hi). pose proof (io_hash _ _ _ _ _ _ _ Hi) as Hh2.
    assert (k' = k) as -> by (rewrite Hh in Hh2; injection Hh2; lia).
    destruct (bag_reason w a ino p bag i o k 0 Hw Hi) as (Hok & Hr' & x & Hx & Hx' & Hxb); [lia|].
    assert (ReferenceCount o = sum bag) as Hs by (rewrite (ob_sum _ Hok); by rewrite (io_bag _ _ _ _ _ _ _ Hi)).
    specialize (Hsum p bag eq_refl). pose proof (ob_bound _ Hok).
    exists (set_table t' (set_st (changed p 0 1 o x (st w)) w)). split.
    + rewrite (M_bind_done _ _ _ tt (set_st (changed p 0 1 o x (s1 k)) (set_table t' (set_st (s1 k) w)))).
      2:{ apply (ReferenceInode_run (set_table t' (set_st (s1 k) w)) ino p bag i o k 0 x); cbn; try done; [by destruct Hi| | |lia].
          - destruct (wo_counted _ _ Hw). by constructor.
          - unfold readable. cbn. by rewrite lookup_insert_eq. }
      unfold changed. cbn [objects ObjectCount locks set_table set_st st s1 put_lock].
      run_step ltac:(by apply (Hunlock _ _ (st w) (set_table t' w))). done.
    + split; [done|]. apply (world_ok_counts w a ino p bag i o k 0 1 x t'); try done; lia.
  - exists (set_table t' w). split.
    + rewrite mret_bind. unfold s1, put_lock. rewrite world_eta.
      run_step ltac:(by apply (Hunlock _ _ (st w) (set_table t' w))). unfold mret, M_ret. do 2 f_equal.
      unfold set_st, set_table. destruct w as [[]]; done.
    + split; [done|]. by apply world_ok_table.
Qed.

(** ** Insertion and removal of table entries *)

Lemma length_filter_notin (p : ptr) (l : list ptr) :
  NoDup l -> p ∈ l -> S (length (filter (fun q => q <> p) l)) = length l.
Proof.
  induction 1 as [|q l Hq Hl IH]; [by intros ?%elem_of_nil|]. intros [->|Hp]%elem_of_cons.
  - rewrite filter_cons_False by (by intros []). by rewrite filter_notin.
  - rewrite filter_cons_True by (intros ->; done). cbn. by rewrite IH.
Qed.

Lemma table_ok_remove t inos inos' m ino p k b b' n :
  table_ok t inos m -> m !! ino = Some p ->
  hash_inode ino (HashSeed t) (BucketCountShift t) = Done (Z.of_nat k) -> Buckets t !! k = Some b ->
  Entries b' = filter (fun q => q <> p) (Entries b) -> Count b' = u64 (Count b - 1) ->
  (forall q, LastInodeTableEntry b' = Some q -> q <> p /\ q ∈ Entries b) ->
  (forall q, q <> p -> inos' !! q = inos !! q) -> n = u64 (InodeCount t - 1) ->
  table_ok (with_inode_counts n (MaxInodeCount t) (with_buckets (<[k := b']> (Buckets t)) t)) inos' (delete ino m).
Proof.
  intros Ht Hm Hh Hb He Hc Hl Hi ->. pose proof Ht as []. pose proof (tb_bucket0 k b Hb) as (Hnd & Hcnt & Hlast & Hent).
  assert (p ∈ Entries b) as Hp by (apply Hent; eauto).
  assert (size m <> O) by (eapply map_size_ne_0_lookup_2; by rewrite Hm).
  constructor; cbn; try done.
  - by rewrite length_insert.
  - intros ino' q [Hne Hq]%lookup_delete_Some. destruct (tb_inode0 ino' q Hq) as (? & i & Hqi & ?). split; [done|].
    exists i. rewrite Hi; [done|]. intros ->. by destruct (Hne (tb_inj t inos m _ _ _ Ht Hm Hq)).
  - intros j x Hj. destruct (decide (j = k)) as [->|Hne].
    + rewrite list_lookup_insert_eq in Hj by (by eapply lookup_lt_Some). injection Hj as <-.
      split; [rewrite He; by apply NoDup_filter|]. split; [|split].
      * rewrite Hc, Hcnt, He, <- (length_filter_notin p (Entries b)) by done.
        unfold wrap. rewrite Zminus_mod_idemp_l. f_equal. lia.
      * intros q Hq. rewrite He. apply list_elem_of_filter. by apply Hl.
      * intros q. rewrite He, list_elem_of_filter, Hent. split.
        -- intros (Hqp & ino' & Hq & Hh'). exists ino'. split; [|done]. apply lookup_delete_Some. split; [|done].
           intros ->. congruence.
        -- intros (ino' & [Hne Hq]%lookup_delete_Some & Hh'). split; [|eauto]. intros ->.
           by destruct (Hne (tb_inj t inos m _ _ _ Ht Hm Hq)).
    + rewrite list_lookup_insert_ne in Hj by done. destruct (tb_bucket0 j x Hj) as (? & ? & ? & Hent').
      split; [done|]. split; [done|]. split; [done|]. intros q. rewrite Hent'. split.
      * intros (ino' & Hq & Hh'). exists ino'. split; [|done]. apply lookup_delete_Some. split; [|done].
        intros ->. rewrite Hh in Hh'. injection Hh'. lia.
      * intros (ino' & [_ Hq]%lookup_delete_Some & Hh'). eauto.
  - rewrite tb_inodes0, map_size_delete_Some by (by rewrite Hm). rewrite wrap_small; lia.
  - rewrite map_size_delete_Some by (by rewrite Hm). lia.
Qed.

Lemma table_ok_insert t inos m ino p i k b b' n max :
  table_ok t inos m -> m !! ino = None -> ino <> 0 -> (forall ino', m !! ino' <> Some p) ->
  inos !! p = Some i -> st_ino i = ino ->
  hash_inode ino (HashSeed t) (BucketCountShift t) = Done (Z.of_nat k) -> Buckets t !! k = Some b ->
  Entries b' = p :: Entries b -> Count b' = u64 (Count b + 1) ->
  (forall q, LastInodeTableEntry b' = Some q -> q ∈ Entries b) -> Z.of_nat (size m) + 1 < 2 ^ 64 ->
  n = u64 (InodeCount t + 1) ->
  table_ok (with_inode_counts n max (with_buckets (<[k := b']> (Buckets t)) t)) inos (<[ino := p]> m).
Proof.
  intros Ht Hm Hi0 Hp Hi Hino Hh Hb He Hc Hl Hsz ->. pose proof Ht as [].
  pose proof (tb_bucket0 k b Hb) as (Hnd & Hcnt & Hlast & Hent).
  constructor; cbn; try done.
  - by rewrite length_insert.
  - intros ino' q [[<- <-]|[Hne Hq]]%lookup_insert_Some; [eauto|]. by apply tb_inode0.
  - intros j x Hj. destruct (decide (j = k)) as [->|Hne].
    + rewrite list_lookup_insert_eq in Hj by (by eapply lookup_lt_Some). injection Hj as <-.
      rewrite He. split; [|split; [|split]].
      * constructor; [|done]. rewrite Hent. intros (ino' & Hq & _). by destruct (Hp ino').
      * rewrite Hc, Hcnt. cbn [length]. unfold wrap. rewrite Zplus_mod_idemp_l. f_equal. lia.
      * intros q Hq. right. by apply Hl.
      * intros q. rewrite elem_of_cons, Hent. split.
        -- intros [->|(ino' & Hq & Hh')]; [exists ino; by rewrite lookup_insert_eq|]. exists ino'.
           rewrite lookup_insert_ne; [done|]. intros ->. congruence.
        -- intros (ino' & [[<- <-]|[Hne Hq]]%lookup_insert_Some & Hh'); [by left|right; eauto].
    + rewrite list_lookup_insert_ne in Hj by done. destruct (tb_bucket0 j x Hj) as (? & ? & ? & Hent').
      split; [done|]. split; [done|]. split; [done|]. intros q. rewrite Hent'. split.
      * intros (ino' & Hq & Hh'). exists ino'. rewrite lookup_insert_ne; [done|]. intros ->. congruence.
      * intros (ino' & [[<- <-]|[_ Hq]]%lookup_insert_Some & Hh'); [|eauto]. rewrite Hh in Hh'. injection Hh'. lia.
  - rewrite tb_inodes0, map_size_insert_None by done. rewrite wrap_small; lia.
  - rewrite map_size_insert_None by done. lia.
Qed.

(** ** Dereferencing *)

(** What inode.c relies on: a component's callbacks touch only the type, mode,
    link count, size and instance of the inode they are given, and an inode
    that is [idle] can be torn down; a new inode is idle.  [init_mode] and the
    three that follow are what the initialisation writes. *)
Class ComponentLaws : Type := {
  kind_type : Kind -> Z;
  idle : Kind -> I -> Prop;
  init_mode : Kind -> Z;
  init_nlink : Kind -> Z;
  init_size : Kind -> Z;
  init_instance : Kind -> I;
  kind_known : forall k, kind_type k <> BITBUCKET_UNKNOWN_TYPE;
  init_idle : forall k, idle k (init_instance k);
  initialize_ok : forall k p (w : world) i,
    inodes w !! p = Some i -> Magic (ea i) = BITBUCKET_INODE_MAGIC -> InodeType i = BITBUCKET_UNKNOWN_TYPE ->
    st_mode i = S_IRWXUGO -> st_nlink i = 0 -> st_size i = 4096 -> Instance i = blank ->
    Initialize k p w =
      Done (tt, set_inodes <[p := with_instance (kind_type k) (init_mode k) (init_nlink k) (init_size k) (init_instance k) i]> w);
  deallocate_ok : forall k p (w : world) i,
    inodes w !! p = Some i -> Magic (ea i) = BITBUCKET_INODE_MAGIC -> idle k (Instance i) ->
    exists x, Deallocate k p w =
      Done (tt, set_inodes <[p := with_instance (InodeType i) (st_mode i) (st_nlink i) (st_size i) x i]> w) }.

Lemma Dereference_keep_ok w a ino p bag reason bias :
  world_ok w a -> a !! ino = Some (p, bag) -> 0 <= reason < 12 ->
  0 <= bias <= default 0 (bag !! Z.to_nat reason) -> bias < sum bag ->
  exists w', BitbucketDereferenceInode p reason bias w = Done (tt, w') /\ seen w' = seen w /\
    world_ok w' (<[ino := (p, bag_add reason (- bias) bag)]> a).
Proof.
  intros Hw Ha Hr Hb Hlt. destruct (wo_inode _ _ Hw ino p bag Ha) as (i & o & k & Hi).
  destruct (bag_reason w a ino p bag i o k reason Hw Hi Hr) as (Hok & Hr' & x & Hx & Hx' & Hxb).
  assert (ReferenceCount o = sum bag) as Hs by (rewrite (ob_sum _ Hok); by rewrite (io_bag _ _ _ _ _ _ _ Hi)).
  rewrite Hx' in Hb. cbn in Hb. pose proof (ob_bound _ Hok).
  exists (set_st (changed p reason (- bias) o x (st w)) w). split; [|split; [done|]].
  - destruct Hi. unfold BitbucketDereferenceInode, in_a_table.
    run_step ltac:(by apply load_inode_run). unfold CHECK_PRIVATE. rewrite c_assert_bind by (by rewrite io_private0).
    rewrite M_assoc. run_step ltac:(by apply load_inode_run). rewrite M_assoc, c_assert_bind by (by rewrite io_private0).
    rewrite c_assert_bind by done. unfold object_dereference.
    rewrite (M_bind_done _ _ _ false (set_st (changed p reason (- bias) o x (st w)) w)); [done|].
    unfold lift_store. erewrite shared_keep; [done|apply Hw|done|done| |done|lia|lia].
    unfold readable. by rewrite (wo_locks _ _ Hw), lookup_empty.
  - apply (world_ok_counts w a ino p bag i o k reason (- bias) x (table w)); try done; [lia|lia|apply Hw].
Qed.

Lemma set_inodes_twice p i j (w : world) :
  set_inodes <[p := j]> (set_inodes <[p := i]> w) = set_inodes <[p := j]> w.
Proof. unfold set_inodes. cbn. by rewrite insert_insert_eq. Qed.

Lemma set_inodes_table f t (w : world) : set_inodes f (set_table t w) = set_table t (set_inodes f w).
Proof. done. Qed.

Lemma set_inodes_delete p i (w : world) : set_inodes (delete p) (set_inodes <[p := i]> w) = set_inodes (delete p) w.
Proof. unfold set_inodes. cbn. by rewrite delete_insert_eq. Qed.

(** The end of [InodeDeallocate], when the inode is out of the table. *)
Definition teardown (p : ptr) (i : inode T I Kind) : MW unit :=
  (if match ExtendedAttributeTrie (ea i) with Some _ => true | None => false end ||
      negb (bool_decide (ExtendedAttributes (ea i) = []))
   then lift_ea p BitbucketDestroyExtendedAttributes else mret ());;
  i ← load_inode p;
  c_assert match ExtendedAttributeTrie (ea i) with Some _ => false | None => true end;;
  c_assert (bool_decide (ExtendedAttributes (ea i) = []));;
  match RegisteredAttributes i with Some k => Deallocate k p | None => mret () end;;
  modify_state (set_inodes (delete p)).

Definition can_go `{!ComponentLaws} (i : inode T I Kind) : Prop :=
  match RegisteredAttributes i with Some k => idle k (Instance i) | None => True end.

Lemma teardown_run `{!ComponentLaws} p i (w : world) m :
  inodes w !! p = Some i -> Magic (ea i) = BITBUCKET_INODE_MAGIC -> holds_attrs (ea i) m -> can_go i ->
  teardown p i w = Done (tt, set_inodes (delete p) w).
Proof.
  intros Hi Hm [addr Hx] Hgo.
  assert (exists x, Magic x = BITBUCKET_INODE_MAGIC /\ ExtendedAttributeTrie x = None /\ ExtendedAttributes x = [] /\
    (if match ExtendedAttributeTrie (ea i) with Some _ => true | None => false end ||
        negb (bool_decide (ExtendedAttributes (ea i) = []))
     then lift_ea p BitbucketDestroyExtendedAttributes else mret ()) w =
    Done (tt, set_inodes <[p := with_ea x i]> w)) as (x & Hxm & Hxt & Hxl & Hrun).
  { destruct (_ || _) eqn:E.
    - destruct (destroy_attrs (length (ExtendedAttributes (ea i))) (ea i) m addr Hx) as (x & Hd & Hl & Ht & _ & Hmx & _); [done|].
      exists x. split; [congruence|]. split; [done|]. split; [done|]. unfold lift_ea.
      run_step ltac:(by apply load_inode_run). unfold BitbucketDestroyExtendedAttributes.
      rewrite get_state_bind, Hd. unfold store_inode. by rewrite modify_bind.
    - exists (ea i). apply orb_false_iff in E as [E1 E2]. split; [done|].
      split; [by destruct (ExtendedAttributeTrie (ea i))|]. split; [by case_bool_decide|].
      unfold mret, M_ret. do 2 f_equal. unfold set_inodes. destruct w. cbn in *. f_equal. symmetry. apply insert_id.
      rewrite Hi. f_equal. by destruct i. }
  unfold teardown. run_step ltac:(exact Hrun). run_step ltac:(apply load_inode_run; by apply lookup_insert_eq).
  cbn [ea with_ea]. rewrite Hxt, Hxl, !c_assert_bind by done. unfold can_go in Hgo. cbn [RegisteredAttributes with_ea].
  destruct (RegisteredAttributes i) as [kd|].
  - destruct (deallocate_ok kd p (set_inodes <[p := with_ea x i]> w) (with_ea x i)) as (x' & Hd); [by apply lookup_insert_eq|done|done|].
    run_step ltac:(exact Hd). unfold modify_state. by rewrite !set_inodes_delete.
  - rewrite mret_bind. unfold modify_state. by rewrite set_inodes_delete.
Qed.

Lemma InodeDeallocate_run `{!ComponentLaws} w a ino p bag i o k s o' :
  world_ok w a -> a !! ino = Some (p, bag) -> inode_ok w ino p bag i o k -> can_go i ->
  locks s = <[Z.of_nat k + 1 := Exclusive]> (locks (st w)) ->
  objects s !! p = Some o' -> Object.DataLength o' = Object.DataLength o ->
  exists t', InodeDeallocate p (set_st s w) =
      Done (tt, set_inodes (delete p) (set_table t' (set_st {| objects := objects s; ObjectCount := ObjectCount s;
                                                              locks := locks (st w) |} w))) /\
    table_ok t' (delete p (inodes w)) (delete ino (fst <$> a)) /\ HashSeed t' = HashSeed (table w) /\
    BucketCountShift t' = BucketCountShift (table w).
Proof.
  intros Hw Ha Hi Hgo Hl Ho' Hlen. pose proof Hi as []. destruct io_attrs0 as [xm Hxm].
  pose proof (wo_table _ _ Hw) as Ht. pose proof (wo_locks _ _ Hw) as Hlocks.
  assert ((fst <$> a) !! ino = Some p) as Hm by (by rewrite lookup_fmap, Ha).
  destruct (tb_inode _ _ _ Ht ino p Hm) as (Hino & _).
  pose proof (hash_bucket w a ino k Hw Hino io_hash0) as Hk.
  destruct (LookupLocked_run ino (set_st s w) (fst <$> a) Ht Hino) as (k' & b & b' & Hh' & Hb & Hrun & He & Hc & Hlast).
  cbn [table set_st] in *. assert (k' = k) as -> by (rewrite io_hash0 in Hh'; injection Hh'; lia).
  destruct (tb_bucket _ _ _ Ht k b Hb) as (Hnd & Hcnt & Hlast' & Hent).
  assert (p ∈ Entries b) as Hp by (apply Hent; eauto).
  assert (Buckets (with_buckets (<[k := b']> (Buckets (table w))) (table w)) !! k = Some b') as Hb'.
  { apply list_lookup_insert_eq. by eapply lookup_lt_Some. }
  set (b2 := {| Entries := filter (fun q => q <> p) (Entries b'); Count := u64 (Count b' - 1);
     LastInodeTableEntry := if bool_decide (LastInodeTableEntry b' = Some p) then None else LastInodeTableEntry b';
     Lookups := Lookups b'; FailedLookups := FailedLookups b'; LastInodeMatch := LastInodeMatch b'; MaxCount := MaxCount b' |}).
  set (t1 := with_buckets (<[k := b2]> (Buckets (table w))) (table w)).
  exists (with_inode_counts (u64 (InodeCount t1 - 1)) (MaxInodeCount t1) t1). split; [|split; [|done]].
  2:{ apply (table_ok_remove (table w) (inodes w) _ _ ino p k b b2); try done.
      - by rewrite <- He. - cbn. by rewrite Hc.
      - intros q Hq. cbn in Hq. case_bool_decide as Hd; [done|]. split; [congruence|]. by apply Hlast.
      - intros q Hq. by rewrite lookup_delete_ne. }
  unfold InodeDeallocate. run_step ltac:(by apply load_inode_run).
  unfold CHECK_PRIVATE. rewrite c_assert_bind by (by rewrite io_private0).
  rewrite (M_bind_done _ _ _ o' (set_st s w)) by (unfold lift_store; cbn [st set_st]; by erewrite load_object_run).
  rewrite c_assert_bind by (apply Z.eqb_eq; congruence). rewrite c_assert_bind by done. rewrite io_ino0.
  run_step ltac:(by apply hash_of_run).
  rewrite (M_bind_done _ _ _ EBUSY (set_st s w)).
  2:{ unfold TryLockInode. run_step ltac:(by apply hash_of_run). unfold TryLockInodeBucket.
      run_step ltac:(apply CHECK_TABLE_run, Ht). rewrite get_state_bind, c_assert_bind by (cbn; lia).
      cbn [st set_st]. by rewrite Hl, lookup_insert_eq. }
  rewrite c_assert_bind by done. run_step ltac:(exact Hrun). rewrite Hm, !M_assoc.
  run_step ltac:(apply load_bucket_run; exact Hb'). rewrite M_assoc.
  unfold unlink. rewrite He, decide_True by done. cbn [deref]. rewrite mret_bind, <- He, M_assoc.
  unfold store_bucket, update_table. rewrite modify_bind, M_assoc. rewrite Nat2Z.id.
  cbn [table set_table set_st Buckets with_buckets]. rewrite list_insert_insert_eq.
  change (with_buckets ?x (with_buckets _ ?y)) with (with_buckets x y). fold b2. fold t1.
  rewrite (M_bind_done _ _ _ tt (set_table t1 (set_st {| objects := objects s; ObjectCount := ObjectCount s; locks := locks (st w) |} w))).
  2:{ unfold UnlockInode. run_step ltac:(by apply hash_of_run). erewrite UnlockInodeBucket_run; [done|apply Ht|done|].
      cbn [st set_st set_table]. destruct s as [so sc sl]. cbn in Hl. subst sl. apply release_exclusive.
      by rewrite Hlocks, lookup_empty. }
  rewrite M_assoc, get_state_bind, M_assoc, modify_bind. rewrite c_assert_bind.
  2:{ cbn. rewrite (tb_inodes _ _ _ Ht). assert (size (fst <$> a) <> O) by (eapply map_size_ne_0_lookup_2; by rewrite Hm).
      destruct (Z.eqb_spec (Z.of_nat (size (fst <$> a))) 0); [lia|done]. }
  change (teardown p i (set_table (with_inode_counts (u64 (InodeCount t1 - 1)) (MaxInodeCount t1) t1)
    (set_st {| objects := objects s; ObjectCount := ObjectCount s; locks := locks (st w) |} w)) =
    Done (tt, set_inodes (delete p) (set_table (with_inode_counts (u64 (InodeCount t1 - 1)) (MaxInodeCount t1) t1)
    (set_st {| objects := objects s; ObjectCount := ObjectCount s; locks := locks (st w) |} w)))).
  by eapply teardown_run.
Qed.

Lemma world_ok_delete w a ino p bag i o k t' :
  world_ok w a -> a !! ino = Some (p, bag) -> inode_ok w ino p bag i o k ->
  table_ok t' (delete p (inodes w)) (delete ino (fst <$> a)) -> HashSeed t' = HashSeed (table w) ->
  BucketCountShift t' = BucketCountShift (table w) ->
  world_ok (set_inodes (delete p) (set_table t' (set_st {| objects := delete p (objects (st w));
      ObjectCount := u64 (ObjectCount (st w) - 1); locks := locks (st w) |} w))) (delete ino a).
Proof.
  intros Hw Ha Hi Ht Hs1 Hs2. pose proof Hw as []. constructor; cbn; try done.
  - by eapply counted_removed; [done|apply Hi| |].
  - by rewrite fmap_delete.
  - intros ino' q bag' [Hne Hq]%lookup_delete_Some. destruct (wo_inode0 ino' q bag' Hq) as (i' & o' & k' & []).
    assert (q <> p) by (intros ->; by destruct (Hne (catalog_inj w a _ _ _ _ _ Hw Ha Hq))).
    exists i', o', k'. constructor; cbn; try done; [by rewrite lookup_delete_ne..|by rewrite Hs1, Hs2].
  - intros q o' [Hne Hq]%lookup_delete_Some. destruct (wo_object0 q o' Hq) as (ino' & bag' & Ha').
    exists ino', bag'. rewrite lookup_delete_ne; [done|]. intros ->. congruence.
Qed.

Lemma Dereference_last_ok `{!ComponentLaws} w a ino p bag reason :
  world_ok w a -> a !! ino = Some (p, bag) -> 0 <= reason < 12 -> bag !! Z.to_nat reason = Some (sum bag) ->
  (forall i, inodes w !! p = Some i -> can_go i) ->
  exists w', BitbucketDereferenceInode p reason (sum bag) w = Done (tt, w') /\ seen w' = (delete p (inodes w), last_inode_number w, inode_bias w, extra w) /\
    world_ok w' (delete ino a).
Proof.
  intros Hw Ha Hr Hb Hgo. destruct (wo_inode _ _ Hw ino p bag Ha) as (i & o & k & Hi).
  destruct (bag_reason w a ino p bag i o k reason Hw Hi Hr) as (Hok & Hr' & x & Hx & Hx' & Hxb).
  assert (ReferenceCount o = sum bag) as Hs by (rewrite (ob_sum _ Hok); by rewrite (io_bag _ _ _ _ _ _ _ Hi)).
  assert (x = ReferenceCount o) as -> by congruence. rewrite <- Hs.
  set (s1 := unreferenced p reason o (st w)).
  destruct (InodeDeallocate_run w a ino p bag i o k s1 (Object.with_counts 0 (<[Z.to_nat reason := 0]> (ReferenceReasons o)) o))
    as (t' & Hd & Ht' & Hs1 & Hs2); try done.
  { apply Hgo. apply Hi. } { cbn. by rewrite (io_lock _ _ _ _ _ _ _ Hi). } { cbn. by rewrite lookup_insert_eq. }
  eexists. split; [|split; [|by apply (world_ok_delete w a ino p bag i o k t')]].
  - destruct Hi. unfold BitbucketDereferenceInode, in_a_table.
    run_step ltac:(by apply load_inode_run). unfold CHECK_PRIVATE. rewrite c_assert_bind by (by rewrite io_private0).
    rewrite M_assoc. run_step ltac:(by apply load_inode_run). rewrite M_assoc, c_assert_bind by (by rewrite io_private0).
    rewrite c_assert_bind by done. unfold object_dereference.
    rewrite (M_bind_done _ _ _ true w).
    2:{ unfold lift_store. erewrite shared_last; [by destruct w|apply Hw|done|done| |done].
        unfold readable. by rewrite (wo_locks _ _ Hw), lookup_empty. }
    cbv iota. rewrite (M_bind_done _ _ _ true (set_st s1 w)).
    2:{ unfold lift_store. erewrite exclusive_last; [done|apply Hw|done|done| |done].
        by rewrite (wo_locks _ _ Hw), lookup_empty. }
    cbv iota. run_step ltac:(exact Hd). unfold lift_store. cbn [st set_inodes set_table set_st].
    erewrite free_object_run by (cbn; by rewrite lookup_insert_eq). cbn. rewrite delete_insert_eq. reflexivity.
  - done.
Qed.

(** ** Creation *)

(** The number the next inode gets. *)
Definition next_ino (w : world) : Z :=
  if last_inode_number w =? 0 then inode_bias w else last_inode_number w.

(** The state of the generator after that. *)
Definition following (w : world) : Z :=
  if last_inode_number w =? 0 then u64 (u64 (inode_bias w) + inode_bias w) else u64 (last_inode_number w + inode_bias w).

Lemma get_new_inode_number_run (w : world) :
  0 < inode_bias w < 2 ^ 64 ->
  get_new_inode_number w = Done (next_ino w, set_last (following w) w).
Proof.
  intros Hb. unfold get_new_inode_number, next_ino, following. cbn. rewrite get_state_bind, modify_bind.
  destruct (Z.eqb_spec (last_inode_number w) 0) as [E|E]; [|done].
  rewrite get_state_bind, modify_bind. cbn [last_inode_number set_last inode_bias]. rewrite E, Z.add_0_l, (wrap_small 64 (inode_bias w)) by lia.
  destruct (Z.eqb_spec (inode_bias w) 0); [lia|]. by cbn.
Qed.

Lemma InsertInode_run (w : world) m ino p i :
  table_ok (table w) (inodes w) m -> locks (st w) = ∅ -> p <> NULL -> inodes w !! p = Some i ->
  InodeType i <> BITBUCKET_UNKNOWN_TYPE -> Magic (ea i) = BITBUCKET_INODE_MAGIC -> Table i = false ->
  st_ino i = ino -> ino <> FUSE_ROOT_ID -> ino <> 0 -> m !! ino = None -> (forall ino', m !! ino' <> Some p) ->
  Z.of_nat (size m) + 1 < 2 ^ 64 ->
  exists t', BitbucketInsertInodeInTable p w =
      Done (0, set_table t' (set_inodes <[p := with_tables (PrivateTable i) true i]> w)) /\
    table_ok t' (inodes w) (<[ino := p]> m) /\ HashSeed t' = HashSeed (table w) /\
    BucketCountShift t' = BucketCountShift (table w).
Proof.
  intros Ht Hlocks Hp Hi Hty Hmg Htab Hino Hroot Hz Hm Hfresh Hsz.
  destruct (tb_find _ _ _ ino Ht Hz) as (k & b0 & Hh & _ & Hk & _).
  set (s1 := put_lock (Z.of_nat k + 1) Exclusive (st w)).
  assert (table_ok (table (set_st s1 w)) (inodes (set_st s1 w)) m) as Ht1 by done.
  destruct (LookupLocked_run ino (set_st s1 w) m Ht1 Hz) as (k' & b & b' & Hh' & Hb & Hrun & He & Hc & Hlast).
  cbn [table set_st] in Hh', Hb, Hrun. assert (k' = k) as -> by (rewrite Hh in Hh'; injection Hh'; lia).
  assert (Buckets (with_buckets (<[k := b']> (Buckets (table w))) (table w)) !! k = Some b') as Hb'.
  { apply list_lookup_insert_eq. by eapply lookup_lt_Some. }
  set (b2 := {| Entries := p :: Entries b'; Count := u64 (Count b' + 1); LastInodeTableEntry := LastInodeTableEntry b';
     Lookups := Lookups b'; FailedLookups := FailedLookups b'; LastInodeMatch := LastInodeMatch b';
     MaxCount := Z.max (u64 (Count b' + 1)) (MaxCount b') |}).
  set (t1 := with_buckets (<[k := b2]> (Buckets (table w))) (table w)).
  exists (with_inode_counts (u64 (InodeCount t1 + 1)) (Z.max (InodeCount t1) (MaxInodeCount t1)) t1). split; [|split; [|done]].
  2:{ apply (table_ok_insert (table w) (inodes w) m ino p i k b b2); try done; cbn; by rewrite ?He, ?Hc. }
  unfold BitbucketInsertInodeInTable. run_step ltac:(apply CHECK_TABLE_run, Ht).
  rewrite c_assert_bind by (by destruct (Z.eqb_spec p NULL)).
  run_step ltac:(by apply load_inode_run).
  rewrite c_assert_bind by (by destruct (Z.eqb_spec (InodeType i) BITBUCKET_UNKNOWN_TYPE)).
  unfold CHECK_INODE. rewrite c_assert_bind by (by rewrite Hmg). rewrite c_assert_bind by (by rewrite Htab).
  rewrite Hino. rewrite c_assert_bind by (by destruct (Z.eqb_spec ino FUSE_ROOT_ID)).
  rewrite c_assert_bind by (by destruct (Z.eqb_spec ino 0)).
  run_step ltac:(by apply hash_of_run). rewrite get_state_bind, c_assert_bind by lia.
  run_step ltac:(apply LockInodeBucket_run; [apply Ht|done|apply acquire_exclusive; by rewrite Hlocks, lookup_empty]).
  run_step ltac:(exact Hrun). rewrite Hm. rewrite M_assoc. run_step ltac:(apply load_bucket_run; exact Hb').
  rewrite M_assoc. unfold store_bucket, update_table. rewrite modify_bind, mret_bind. rewrite Nat2Z.id.
  cbn [table set_table set_st Buckets with_buckets]. rewrite list_insert_insert_eq.
  change (with_buckets ?x (with_buckets _ ?y)) with (with_buckets x y). fold b2. fold t1.
  rewrite (M_bind_done _ _ _ tt (set_table t1 w)).
  2:{ erewrite UnlockInodeBucket_run; [|apply Ht|done|].
      2:{ cbn [st set_st set_table s1 put_lock]. apply release_exclusive. by rewrite Hlocks, lookup_empty. }
      unfold set_st, set_table. destruct w as [[]]. done. }
  unfold update_inode. rewrite M_assoc. run_step ltac:(by apply load_inode_run). unfold store_inode.
  rewrite modify_bind. cbv beta. rewrite modify_bind. done.
Qed.

Lemma table_ok_frame t inos inos' m :
  table_ok t inos m ->
  (forall ino q i, m !! ino = Some q -> inos !! q = Some i -> exists i', inos' !! q = Some i' /\ st_ino i' = st_ino i) ->
  table_ok t inos' m.
Proof.
  intros [] Hf. constructor; try done. intros ino q Hq. destruct (tb_inode0 ino q Hq) as (? & i & Hi & <-).
  split; [done|]. destruct (Hf (st_ino i) q i Hq Hi) as (i' & ? & ?). eauto.
Qed.

(** An inode as [InodeInitialize] makes it, and what its component makes of it. *)
Definition fresh_inode (Length epoch ino : Z) : inode T I Kind :=
  {| PrivateMagic := BITBUCKET_PRIVATE_INODE_MAGIC; InodeLength := Length; RegisteredAttributes := None;
     PrivateTable := false; InodeType := BITBUCKET_UNKNOWN_TYPE; Table := false; Epoch := epoch; st_ino := ino;
     st_mode := S_IRWXUGO; st_nlink := 0; st_size := 4096;
     ea := {| Magic := BITBUCKET_INODE_MAGIC; InodeLock := Unlocked; ExtendedAttributes := [];
              ExtendedAttributeTrie := None; heap := ∅ |};
     Instance := blank |}.

Definition created_inode `{!ComponentLaws} (kd : Kind) (Length epoch ino : Z) : inode T I Kind :=
  with_tables true true
    (with_instance (kind_type kd) (init_mode kd) (init_nlink kd) (init_size kd) (init_instance kd)
      (with_registered (Some kd) (fresh_inode Length epoch ino))).

Definition new_references : list Z := <[0%nat := 1]> (replicate 12 0).

Lemma no_attrs_held x :
  Magic x = BITBUCKET_INODE_MAGIC -> ExtendedAttributes x = [] -> ExtendedAttributeTrie x = None -> heap x = ∅ ->
  holds_attrs x ∅.
Proof.
  intros Hm Hl Ht Hh. exists ∅. constructor; rewrite ?Hl, ?Ht, ?Hh; try done.
  - apply indexes_null.
  - intros p. split; [by intros ?%elem_of_nil|]. intros (k & Hk). by rewrite lookup_empty in Hk.
  - constructor.
  - intros p [y Hy]. by rewrite lookup_empty in Hy.
Qed.

Lemma Create_ok `{!ComponentLaws} w a kd DataLength epoch newobj :
  world_ok w a -> inode_length DataLength < 65536 -> newobj <> NULL -> objects (st w) !! newobj = None ->
  0 < inode_bias w < 2 ^ 64 -> next_ino w <> FUSE_ROOT_ID -> next_ino w <> 0 -> a !! next_ino w = None ->
  Z.of_nat (size a) + 1 < 2 ^ 64 ->
  exists w', BitbucketCreateInode (Some kd) DataLength epoch newobj w = Done (newobj, w') /\
    world_ok w' (<[next_ino w := (newobj, new_references)]> a) /\ last_inode_number w' = following w /\
    inode_bias w' = inode_bias w /\ extra w' = extra w /\
    inodes w' = <[newobj := created_inode kd (inode_length DataLength) epoch (next_ino w)]> (inodes w).
Proof.
  intros Hw Hlen Hp Hfree Hbias Hroot Hz Hnew Hsz. set (ino := next_ino w) in *. set (len := inode_length DataLength) in *.
  pose proof (wo_table _ _ Hw) as Ht. pose proof (wo_locks _ _ Hw) as Hlocks.
  assert (forall ino' bag, a !! ino' <> Some (newobj, bag)) as Hunused.
  { intros ino' bag Ha. destruct (wo_inode _ _ Hw _ _ _ Ha) as (? & o & ? & []). congruence. }
  set (s0 := created newobj (InodePrivateObjectAttributes 0) len 0 (st w)).
  assert (BitbucketObjectCreate (Some (InodePrivateObjectAttributes 0)) len INODE_LOOKUP_REFERENCE newobj (st w) =
    Done (newobj, s0)) as Hcreate by (by apply Create_run).
  pose proof (get_new_inode_number_run (set_st s0 w) Hbias) as Hn. change (next_ino (set_st s0 w)) with ino in Hn.
  set (i0 := fresh_inode len epoch ino).
  set (w1 := set_inodes <[newobj := i0]> (set_last (following w) (set_st s0 w))).
  set (w2 := set_inodes <[newobj := with_registered (Some kd) i0]> w1).
  assert (Initialize kd newobj w2 = _) as Hinit by (apply (initialize_ok kd newobj w2 (with_registered (Some kd) i0)); try done; apply lookup_insert_eq).
  set (i1 := with_instance (kind_type kd) _ _ _ _ _) in Hinit.
  set (w3 := set_inodes <[newobj := i1]> w2) in *.
  assert (inodes w3 = <[newobj := i1]> (inodes w)) as Hin3.
  { cbn. by rewrite !insert_insert_eq. }
  assert (table_ok (table w3) (inodes w3) (fst <$> a)) as Ht3.
  { apply (table_ok_frame _ (inodes w)); [done|]. intros ino' q i Hq Hi. rewrite Hin3. exists i.
    rewrite lookup_insert_ne; [done|]. intros ->. apply lookup_fmap_Some in Hq as ([? bag] & E & Hq). cbn in E. subst. by destruct (Hunused ino' bag). }
  destruct (InsertInode_run w3 (fst <$> a) ino newobj i1) as (t' & Hins & Ht' & Hs1 & Hs2); try done.
  { rewrite Hin3. by apply lookup_insert_eq. } { apply kind_known. }
  { by rewrite lookup_fmap, Hnew. }
  { intros ino' Hq. apply lookup_fmap_Some in Hq as ([? bag] & E & Hq). cbn in E. subst. by destruct (Hunused ino' bag). }
  { by rewrite map_size_fmap. }
  destruct (tb_find _ _ _ ino Ht Hz) as (k & b & Hh & _).
  exists (set_st {| objects := <[newobj := new_object (InodePrivateObjectAttributes (Z.of_nat k)) len 0]> (objects (st w));
                    ObjectCount := ObjectCount s0; locks := locks (st w) |}
           (set_inodes <[newobj := with_tables true true i1]> (set_table t' w3))).
  split; [|split; [|split; [done|split; [done|split; [done|]]]]].
  - unfold BitbucketCreateInode. fold len. rewrite c_assert_bind by lia.
    rewrite (M_bind_done _ _ _ newobj (set_st s0 w)) by (unfold lift_store; by rewrite Hcreate).
    rewrite (M_bind_done _ _ _ tt w1) by (unfold InodeInitialize; by run_step ltac:(exact Hn)).
    assert (forall wx o, objects (st wx) !! newobj = Some o -> ReferenceCount o = 1 -> Object.Magic o = BITBUCKET_OBJECT_HEADER_MAGIC ->
      (lift_store Z (BitbucketGetObjectReferenceCount newobj) : MW Z) wx = Done (1, wx)) as Hcount.
    { intros wx o Ho H1 Hm. unfold lift_store, BitbucketGetObjectReferenceCount.
      rewrite c_assert_bind by (by destruct (Z.eqb_spec newobj NULL)). run_step ltac:(by apply load_object_run).
      unfold Object.CHECK_MAGIC. rewrite c_assert_bind by (by rewrite Hm). rewrite H1. unfold mret, M_ret. by destruct wx. }
    rewrite (M_bind_done _ _ _ 1 w1) by (eapply Hcount; [by apply lookup_insert_eq|done|done]).
    rewrite c_assert_bind by done. run_step ltac:(apply load_inode_run; by apply lookup_insert_eq).
    unfold CHECK_PRIVATE. rewrite c_assert_bind by done.
    rewrite (M_bind_done _ _ _ tt w3).
    2:{ unfold update_inode, store_inode. rewrite M_assoc. run_step ltac:(apply load_inode_run; by apply lookup_insert_eq).
        rewrite modify_bind. exact Hinit. }
    run_step ltac:(apply load_inode_run; rewrite Hin3; by apply lookup_insert_eq).
    run_step ltac:(exact Hins). change (st_ino i1) with ino.
    run_step ltac:(apply hash_of_run; cbn [table set_table set_inodes]; rewrite Hs1, Hs2; exact Hh).
    rewrite (M_bind_done _ _ _ tt (set_st {| objects := <[newobj := new_object (InodePrivateObjectAttributes (Z.of_nat k)) len 0]> (objects (st w));
                    ObjectCount := ObjectCount s0; locks := locks (st w) |}
           (set_inodes <[newobj := with_tables true true i1]> (set_table t' w3)))).
    2:{ unfold set_table_of, update_inode, store_inode. rewrite M_assoc.
        run_step ltac:(apply load_inode_run; by apply lookup_insert_eq). rewrite modify_bind.
        unfold lift_store. run_step ltac:(apply load_object_run; by apply lookup_insert_eq).
        unfold set_objects, modify_state. rewrite !set_inodes_table, set_inodes_twice.
        match goal with |- context [objects (st ?x)] =>
          change (objects (st x)) with (<[newobj := new_object (InodePrivateObjectAttributes 0) len 0]> (objects (st w)));
          change (ObjectCount (st x)) with (ObjectCount s0); change (locks (st x)) with (locks (st w)) end.
        rewrite insert_insert_eq. reflexivity. }
    rewrite (M_bind_done _ _ _ 1 (set_st {| objects := <[newobj := new_object (InodePrivateObjectAttributes (Z.of_nat k)) len 0]> (objects (st w));
                    ObjectCount := ObjectCount s0; locks := locks (st w) |}
           (set_inodes <[newobj := with_tables true true i1]> (set_table t' w3)))) by (eapply Hcount; [by apply lookup_insert_eq|done|done]).
    by rewrite c_assert_bind.
  - pose proof (counted_created newobj (InodePrivateObjectAttributes (Z.of_nat k)) len 0 (st w) (wo_counted _ _ Hw)) as Hc.
    constructor; cbn.
    + apply Hc; done.
    + done.
    + rewrite fmap_insert. apply (table_ok_frame _ (inodes w3)); [done|]. intros ino' q i Hq Hi. rewrite Hin3 in Hi.
      destruct (decide (q = newobj)) as [->|Hne].
      * rewrite lookup_insert_eq in *. injection Hi as <-. by eexists.
      * rewrite lookup_insert_ne in Hi by done. exists i. by rewrite !lookup_insert_ne.
    + intros ino' q bag [[<- [= <- <-]]|[Hne Hq]]%lookup_insert_Some.
      * eexists _, _, k. constructor; cbn; rewrite ?lookup_insert_eq; try done; [|by rewrite Hs1, Hs2].
        exists ∅. by apply no_attrs_held.
      * destruct (wo_inode _ _ Hw _ _ _ Hq) as (i & o & k' & []).
        assert (newobj <> q) by (intros ->; congruence).
        exists i, o, k'. constructor; cbn; rewrite ?insert_insert_eq; try done; [by rewrite lookup_insert_ne..|by rewrite Hs1, Hs2].
    + intros q o [[<- _]|[Hne Hq]]%lookup_insert_Some.
      * exists ino, new_references. by rewrite lookup_insert_eq.
      * destruct (wo_object _ _ Hw q o Hq) as (ino' & bag & Ha'). exists ino', bag. rewrite lookup_insert_ne; [done|].
        intros ->. congruence.
  - cbn. by rewrite !insert_insert_eq.
Qed.

(** * The inode component as a whole *)

(** The calls of a client, which names an inode by its number and address;
    [newobj] is what malloc returns. *)
Inductive inode_op : Type :=
  | OpCreate (kind : Kind) (DataLength epoch : Z) (newobj : ptr)
  | OpLookup (ino : Z)
  | OpReference (ino : Z) (p : ptr) (Reason : Z)
  | OpDereference (ino : Z) (p : ptr) (Reason Bias : Z).

Definition run_inode_op (op : inode_op) : MW (option ptr) :=
  match op with
  | OpCreate kind DataLength epoch newobj => p ← BitbucketCreateInode (Some kind) DataLength epoch newobj; mret (Some p)
  | OpLookup ino => BitbucketLookupInodeInTable ino
  | OpReference _ p Reason => BitbucketReferenceInode p Reason;; mret None
  | OpDereference _ p Reason Bias => BitbucketDereferenceInode p Reason Bias;; mret None
  end.

Fixpoint run_inode_ops (ops : list inode_op) : MW (list (option ptr)) :=
  match ops with
  | [] => mret []
  | op :: ops => r ← run_inode_op op; rs ← run_inode_ops ops; mret (r :: rs)
  end.

(** The abstract state: the catalog, and the state of the number generator
    with its constant increment. *)
Record catalog_state := { names : catalog; last : Z; bias : Z }.

Definition abstract_next (c : catalog_state) : Z := if last c =? 0 then bias c else last c.
Definition abstract_following (c : catalog_state) : Z :=
  if last c =? 0 then u64 (u64 (bias c) + bias c) else u64 (last c + bias c).

(** What a call does to it.  A client drops only references it has. *)
Definition catalog_op (op : inode_op) (c : catalog_state) : option (catalog_state * option ptr) :=
  let a := names c in
  let set x := {| names := x; last := last c; bias := bias c |} in
  match op with
  | OpCreate _ DataLength _ newobj =>
      let next := abstract_next c in
      if (inode_length DataLength <? 65536) && negb (newobj =? NULL) && bool_decide (map_Forall (fun _ x => x.1 <> newobj) a) &&
         negb (next =? 0) && negb (next =? FUSE_ROOT_ID) && bool_decide (a !! next = None) && (Z.of_nat (size a) + 1 <? 2 ^ 64)
      then Some ({| names := <[next := (newobj, new_references)]> a; last := abstract_following c; bias := bias c |}, Some newobj)
      else None
  | OpLookup ino =>
      if ino =? 0 then None else
      match a !! ino with
      | None => Some (c, None)
      | Some (p, bag) =>
          if sum bag + 1 <? 2 ^ 32 then Some (set (<[ino := (p, bag_add INODE_LOOKUP_REFERENCE 1 bag)]> a), Some p) else None
      end
  | OpReference ino p Reason =>
      match a !! ino with
      | None => None
      | Some (q, bag) =>
          if (q =? p) && (0 <=? Reason) && (Reason <? 12) && (sum bag + 1 <? 2 ^ 32)
          then Some (set (<[ino := (p, bag_add Reason 1 bag)]> a), None) else None
      end
  | OpDereference ino p Reason Bias =>
      match a !! ino with
      | None => None
      | Some (q, bag) =>
          if (q =? p) && (0 <=? Reason) && (Reason <? 12) && (0 <=? Bias) && (Bias <=? default 0 (bag !! Z.to_nat Reason))
          then Some (set (if Bias =? sum bag then delete ino a else <[ino := (p, bag_add Reason (- Bias) bag)]> a), None)
          else None
      end
  end.

Fixpoint catalog_ops (ops : list inode_op) (c : catalog_state) : option (catalog_state * list (option ptr)) :=
  match ops with
  | [] => Some (c, [])
  | op :: ops => '(c, r) ← catalog_op op c; '(c, rs) ← catalog_ops ops c; Some (c, r :: rs)
  end.

(** The world stands for the abstract state, and no inode holds anything that
    its component could not tear down. *)
Record stands_for `{!ComponentLaws} (w : world) (c : catalog_state) : Prop := {
  sf_world : world_ok w (names c);
  sf_idle : forall p i, inodes w !! p = Some i -> can_go i;
  sf_last : last_inode_number w = last c;
  sf_bias : inode_bias w = bias c;
  sf_step : 0 < bias c < 2 ^ 64 }.

Lemma stands_for_seen `{!ComponentLaws} w w' c a :
  stands_for w c -> seen w' = seen w -> world_ok w' a -> stands_for w' {| names := a; last := last c; bias := bias c |}.
Proof. intros [] [= H1 H2 H3 _] Hw. constructor; cbn; try congruence; try done. intros p i. rewrite H1. apply sf_idle0. Qed.

Lemma inode_op_ok `{!ComponentLaws} op w c c' r :
  stands_for w c -> catalog_op op c = Some (c', r) ->
  exists w', run_inode_op op w = Done (r, w') /\ stands_for w' c'.
Proof.
  intros Hs. pose proof Hs as [Hw Hidle Hlast Hb Hbias]. set (a := names c) in *.
  assert (abstract_next c = next_ino w) as Hnext by (unfold abstract_next, next_ino; by rewrite Hlast, Hb).
  destruct op as [kd DataLength epoch newobj|ino|ino p Reason|ino p Reason Bias]; cbn; fold a; intros E.
  - rewrite Hnext in E. destruct (_ && _) eqn:Hc; [|done]. injection E as <- <-.
    rewrite !andb_true_iff, !negb_true_iff, !bool_decide_eq_true in Hc.
    destruct Hc as ((((((H1 & H2) & H3) & H4) & H5) & H6) & H7).
    destruct (Create_ok w a kd DataLength epoch newobj) as (w' & Hr & Hw' & Hl' & Hb' & _ & Hin);
      try done; try lia.
    { apply eq_None_not_Some. intros [o Ho]. destruct (wo_object _ _ Hw newobj o Ho) as (ino & bag & Ha). by apply (H3 ino (newobj, bag) Ha). }
    exists w'. split; [by run_step ltac:(exact Hr)|]. constructor; cbn; try done.
    + intros q i Hi. rewrite Hin in Hi. apply lookup_insert_Some in Hi as [[<- <-]|[_ Hi]]; [apply init_idle|by eapply Hidle].
    + rewrite Hl'. unfold following, abstract_following. by rewrite Hlast, Hb.
    + by rewrite Hb'.
  - destruct (Z.eqb_spec ino 0); [done|]. destruct (a !! ino) as [[p bag]|] eqn:Ha.
    + destruct (Z.ltb_spec (sum bag + 1) (2 ^ 32)); [|done]. injection E as <- <-.
      destruct (Lookup_ok w a ino Hw) as (w' & Hr & Hin & Hw'); [done|by intros q bag' [= <- <-]%(eq_trans (eq_sym Ha))|].
      rewrite Ha in Hr, Hw'. exists w'. split; [done|]. by eapply stands_for_seen.
    + injection E as <- <-. destruct (Lookup_ok w a ino Hw) as (w' & Hr & Hin & Hw'); [done|congruence|].
      rewrite Ha in Hr, Hw'. exists w'. split; [done|]. pose proof (stands_for_seen w w' c a Hs Hin Hw') as Hs'.
      subst a. by destruct c.
  - destruct (a !! ino) as [[q bag]|] eqn:Ha; [|done]. destruct (_ && _) eqn:Hc; [|done]. injection E as <- <-.
    assert (q = p) as -> by lia.
    destruct (Reference_ok w a ino p bag Reason Hw Ha) as (w' & Hr & Hin & Hw'); [lia|lia|].
    exists w'. split; [by run_step ltac:(exact Hr)|]. by eapply stands_for_seen.
  - destruct (a !! ino) as [[q bag]|] eqn:Ha; [|done]. destruct (_ && _) eqn:Hc; [|done]. injection E as <- <-.
    assert (q = p) as -> by lia. destruct (wo_inode _ _ Hw ino p bag Ha) as (i & o & k & Hi).
    destruct (bag_reason w a ino p bag i o k Reason Hw Hi) as (Hok & Hr' & x & Hx & Hx' & Hxb); [lia|].
    assert (ReferenceCount o = sum bag) as Hsum by (rewrite (ob_sum _ Hok); by rewrite (io_bag _ _ _ _ _ _ _ Hi)).
    rewrite Hx' in Hc. cbn in Hc. destruct (Z.eqb_spec Bias (sum bag)) as [->|Hne].
    + destruct (Dereference_last_ok w a ino p bag Reason Hw Ha) as (w' & Hr & Hin & Hw');
        [lia|by replace (sum bag) with x by lia|by apply Hidle|].
      exists w'. split; [by run_step ltac:(exact Hr)|]. injection Hin as H1 H2 H3 _.
      constructor; cbn; try congruence; try done. intros q j Hj. rewrite H1 in Hj.
      apply lookup_delete_Some in Hj as [_ Hj]. by eapply Hidle.
    + destruct (Dereference_keep_ok w a ino p bag Reason Bias Hw Ha) as (w' & Hr & Hin & Hw'); [lia|rewrite Hx'; cbn; lia|lia|].
      exists w'. split; [by run_step ltac:(exact Hr)|]. by eapply stands_for_seen.
Qed.

(** C25: The inode component refines a catalog from inode numbers to multisets of
    references: any sequence of creations, lookups, references and
    dereferences of a client that drops only references it has runs with
    every assertion true, a lookup finds exactly the inodes that have a
    reference and takes one, and an inode leaves the table, with its
    attributes and its component's part torn down, exactly when its last
    reference is dropped. *)
Theorem inodes_refine_catalog `{!ComponentLaws} ops w c c' rs :
  stands_for w c -> catalog_ops ops c = Some (c', rs) ->
  exists w', run_inode_ops ops w = Done (rs, w') /\ stands_for w' c'.
Proof.
  revert w c rs. induction ops as [|op ops IH]; intros w c rs Hs E; cbn in E.
  - injection E as <- <-. by exists w.
  - destruct (catalog_op op c) as [[c1 r]|] eqn:E1; [|done]. cbn in E.
    destruct (catalog_ops ops c1) as [[c2 rs2]|] eqn:E2; [|done]. cbn in E. injection E as <- <-.
    destruct (inode_op_ok op w c c1 r Hs E1) as (w1 & Hr1 & Hs1).
    destruct (IH w1 c1 rs2 Hs1 E2) as (w2 & Hr2 & Hs2). exists w2. split; [|done].
    cbn [run_inode_ops]. run_step ltac:(exact Hr1). by run_step ltac:(exact Hr2).
Qed.

(** A collision is reported, but the second inode is marked as being in the
    table and counted: [InodeCount] is then one more than the number of
    entries.  [BitbucketCreateInode] ignores the report. *)
Theorem insert_collision_counts (w : world) m ino p q i :
  table_ok (table w) (inodes w) m -> locks (st w) = ∅ -> p <> NULL -> inodes w !! p = Some i ->
  InodeType i <> BITBUCKET_UNKNOWN_TYPE -> Magic (ea i) = BITBUCKET_INODE_MAGIC -> Table i = false ->
  st_ino i = ino -> ino <> FUSE_ROOT_ID -> ino <> 0 -> m !! ino = Some q -> Z.of_nat (size m) + 1 < 2 ^ 64 ->
  exists w', BitbucketInsertInodeInTable p w = Done (- EEXIST, w') /\
    inodes w' = <[p := with_tables (PrivateTable i) true i]> (inodes w) /\
    InodeCount (table w') = Z.of_nat (size m) + 1 /\
    concat (Entries <$> Buckets (table w')) = concat (Entries <$> Buckets (table w)).
Proof.
  intros Ht Hlocks Hp Hi Hty Hmg Htab Hino Hroot Hz Hm Hsz.
  destruct (tb_find _ _ _ ino Ht Hz) as (k & b0 & Hh & _ & Hk & _).
  set (s1 := put_lock (Z.of_nat k + 1) Exclusive (st w)).
  assert (table_ok (table (set_st s1 w)) (inodes (set_st s1 w)) m) as Ht1 by done.
  destruct (LookupLocked_run ino (set_st s1 w) m Ht1 Hz) as (k' & b & b' & Hh' & Hb & Hrun & He & Hc & Hlast).
  cbn [table set_st] in Hh', Hb, Hrun. assert (k' = k) as -> by (rewrite Hh in Hh'; injection Hh'; lia).
  set (t1 := with_buckets (<[k := b']> (Buckets (table w))) (table w)) in *.
  exists (set_table (with_inode_counts (u64 (InodeCount t1 + 1)) (Z.max (InodeCount t1) (MaxInodeCount t1)) t1)
           (set_inodes <[p := with_tables (PrivateTable i) true i]> w)). split; [|split; [done|split]].
  - unfold BitbucketInsertInodeInTable. run_step ltac:(apply CHECK_TABLE_run, Ht).
    rewrite c_assert_bind by (by destruct (Z.eqb_spec p NULL)).
    run_step ltac:(by apply load_inode_run).
    rewrite c_assert_bind by (by destruct (Z.eqb_spec (InodeType i) BITBUCKET_UNKNOWN_TYPE)).
    unfold CHECK_INODE. rewrite c_assert_bind by (by rewrite Hmg). rewrite c_assert_bind by (by rewrite Htab).
    rewrite Hino. rewrite c_assert_bind by (by destruct (Z.eqb_spec ino FUSE_ROOT_ID)).
    rewrite c_assert_bind by (by destruct (Z.eqb_spec ino 0)).
    run_step ltac:(by apply hash_of_run). rewrite get_state_bind, c_assert_bind by lia.
    run_step ltac:(apply LockInodeBucket_run; [apply Ht|done|apply acquire_exclusive; by rewrite Hlocks, lookup_empty]).
    run_step ltac:(exact Hrun). rewrite Hm, mret_bind.
    rewrite (M_bind_done _ _ _ tt (set_table t1 w)).
    2:{ erewrite UnlockInodeBucket_run; [|apply Ht|done|].
        2:{ cbn [st set_st set_table s1 put_lock]. apply release_exclusive. by rewrite Hlocks, lookup_empty. }
        unfold set_st, set_table. destruct w as [[]]. done. }
    unfold update_inode. rewrite M_assoc. run_step ltac:(by apply load_inode_run). unfold store_inode.
    rewrite modify_bind. unfold update_table. rewrite modify_bind. done.
  - cbn. rewrite (tb_inodes _ _ _ Ht), wrap_small; lia.
  - cbn. rewrite list_fmap_insert, He. f_equal. apply list_insert_id. by rewrite list_lookup_fmap, Hb.
Qed.

(** The attributes of a new inode are not optional: without them its type
    stays unknown, which the insertion into the table does not accept. *)
Theorem create_needs_attributes w a DataLength epoch newobj :
  world_ok w a -> inode_length DataLength < 65536 -> newobj <> NULL -> 0 < inode_bias w < 2 ^ 64 ->
  BitbucketCreateInode None DataLength epoch newobj w = Fail AssertFailed.
Proof.
  intros Hw Hlen Hp Hbias. set (len := inode_length DataLength) in *.
  set (s0 := created newobj (InodePrivateObjectAttributes 0) len 0 (st w)).
  assert (BitbucketObjectCreate (Some (InodePrivateObjectAttributes 0)) len INODE_LOOKUP_REFERENCE newobj (st w) =
    Done (newobj, s0)) as Hcreate by (by apply Create_run).
  pose proof (get_new_inode_number_run (set_st s0 w) Hbias) as Hn.
  set (i0 := fresh_inode len epoch (next_ino (set_st s0 w))).
  set (w1 := set_inodes <[newobj := i0]> (set_last (following (set_st s0 w)) (set_st s0 w))).
  assert (objects (st w1) !! newobj = Some (new_object (InodePrivateObjectAttributes 0) len 0)) as Ho by (by apply lookup_insert_eq).
  assert (inodes w1 !! newobj = Some i0) as Hi by (by apply lookup_insert_eq).
  unfold BitbucketCreateInode. fold len. rewrite c_assert_bind by lia.
  rewrite (M_bind_done _ _ _ newobj (set_st s0 w)) by (unfold lift_store; by rewrite Hcreate).
  rewrite (M_bind_done _ _ _ tt w1) by (unfold InodeInitialize; by run_step ltac:(exact Hn)).
  rewrite (M_bind_done _ _ _ 1 w1).
  2:{ unfold lift_store, BitbucketGetObjectReferenceCount.
      rewrite c_assert_bind by (by destruct (Z.eqb_spec newobj NULL)). run_step ltac:(by apply load_object_run). by destruct w1. }
  rewrite c_assert_bind by done. run_step ltac:(by apply load_inode_run).
  unfold CHECK_PRIVATE. rewrite c_assert_bind by done. rewrite mret_bind. run_step ltac:(by apply load_inode_run).
  apply M_bind_fail. unfold BitbucketInsertInodeInTable.
  run_step ltac:(apply CHECK_TABLE_run; apply (wo_table _ _ Hw)).
  rewrite c_assert_bind by (by destruct (Z.eqb_spec newobj NULL)). by run_step ltac:(by apply load_inode_run).
Qed.
End Inode.

(** * Sizes and lock order *)

Lemma table_shift_range n : 10 <= table_shift n <= 16 /\ (table_shift n = 16 <-> 32768 < n).
Proof. unfold table_shift. repeat case_match; lia. Qed.

(** A new table that is not too large is empty and correct. *)
Lemma new_table_ok {T} `{NameIndex T} {I Kind : Type} count seed garbage :
  count <= 32768 -> table_ok (BitbucketCreateInodeTable count seed garbage) (∅ : gmap ptr (inode T I Kind)) ∅.
Proof.
  intros Hc. destruct (table_shift_range count) as [Hr H16]. assert (table_shift count < 16) by lia.
  constructor; cbn; try done; try lia.
  - by rewrite length_fmap, length_seq.
  - intros k b Hk. rewrite list_lookup_fmap in Hk. apply fmap_Some in Hk as (i & _ & ->). cbn.
    split; [constructor|]. split; [done|]. split; [done|]. intros p. split; [by intros ?%elem_of_nil|].
    intros (ino & Hp & _). by rewrite lookup_empty in Hp.
Qed.

(** A world without inodes. *)
Definition start_world {T} `{NameIndex T} {I X Kind : Type} (x : X) : world T I X Kind :=
  {| st := empty_store; inodes := ∅; table := BitbucketCreateInodeTable 1024 0 (fun _ => (0, 0, 0));
     last_inode_number := 5; inode_bias := 7; extra := x |}.

Lemma start_world_ok {T} `{NameIndex T} {I X Kind : Type} `{!Components T I X Kind} (x : X) :
  world_ok (start_world x : world T I X Kind) ∅.
Proof.
  constructor.
  - by constructor.
  - done.
  - rewrite fmap_empty. by apply new_table_ok.
  - intros ino p bag Ha. done.
  - intros p o Ho. done.
Qed.

(** A new table for at most 32768 buckets is empty and correct, hashes every
    inode number to one of its buckets, and can be destroyed; a larger one is
    made with 65536 buckets, for which hashing any inode number fails an
    assertion: nothing can be inserted in it or looked up. *)
Theorem table_size_limit {T} `{NameIndex T} {I Kind : Type} count seed garbage :
  let t := BitbucketCreateInodeTable count seed garbage in
  (count <= 32768 ->
     table_ok t (∅ : gmap ptr (inode T I Kind)) ∅ /\ BitbucketDestroyInodeTable t = Done tt /\
     forall ino, ino <> 0 -> exists b, hash_inode ino (HashSeed t) (BucketCountShift t) = Done b /\ 0 <= b < BucketCount t) /\
  (32768 < count ->
     BucketCount t = 65536 /\ forall ino, hash_inode ino (HashSeed t) (BucketCountShift t) = Fail AssertFailed).
Proof.
  intros t. destruct (table_shift_range count) as [Hr H16]. split.
  - intros Hc. assert (table_shift count < 16) by lia. split; [|split].
    + by apply new_table_ok.
    + unfold BitbucketDestroyInodeTable. cbn [t_Magic t]. rewrite (proj2 (forallb_forall _ _)); [done|].
      intros b Hb. apply list_elem_of_In in Hb. cbn in Hb. apply list_elem_of_fmap in Hb as (i & -> & _). done.
    + intros ino Hi. apply hash_inode_total; [done|cbn; lia].
  - intros Hc. assert (table_shift count = 16) as E by lia. split; [cbn; by rewrite E|].
    intros ino. unfold hash_inode. cbn [BucketCountShift t BitbucketCreateInodeTable]. rewrite E.
    by destruct (negb (ino =? 0)).
Qed.

(** The order in which two inodes are locked does not depend on the order of
    the arguments when they have the same type; when their types differ it
    does, unless the one with the smaller type has the larger address.  Two
    threads that lock a directory and a file below it in memory, with the
    arguments exchanged, wait for each other. *)
Theorem lock_order_canonical type1 type2 a b :
  a <> b ->
  lock_first type1 type2 a b = lock_first type2 type1 b a <->
  type1 = type2 \/ (type1 < type2 /\ b < a) \/ (type2 < type1 /\ a < b).
Proof.
  intros Hne. unfold lock_first.
  destruct (Z.ltb_spec type1 type2), (Z.ltb_spec type2 type1), (Z.ltb_spec a b), (Z.ltb_spec b a); lia.
Qed.

(** * Witnesses *)

(** A component whose inodes carry nothing of their own. *)
Definition plain_initialize (p : ptr) : M (world Trie unit unit unit) unit :=
  update_inode p (with_instance BITBUCKET_FILE_TYPE S_IRWXUGO 0 0 tt).

#[local] Instance plain_components : Components Trie unit unit unit :=
  {| blank := tt; Initialize := fun _ p => plain_initialize p; Deallocate := fun _ _ => mret () |}.

#[local] Instance plain_laws : ComponentLaws (T := Trie) (I := unit) (X := unit) (Kind := unit).
Proof.
  refine {| kind_type := fun _ => BITBUCKET_FILE_TYPE; idle := fun _ _ => True; init_mode := fun _ => S_IRWXUGO;
            init_nlink := fun _ => 0; init_size := fun _ => 0; init_instance := fun _ => tt |}.
  - done.
  - done.
  - intros k p w i Hi _ _ _ _ _ _.
    cbn. unfold plain_initialize, update_inode. by run_step ltac:(by apply load_inode_run).
  - intros k p w i Hi _ _. exists (Instance i). cbn. unfold mret, M_ret. do 2 f_equal.
    destruct w. unfold set_inodes. cbn in *. f_equal. symmetry. apply insert_id. rewrite Hi. f_equal. by destruct i.
Defined.

Definition empty_world : world Trie unit unit unit := start_world tt.

Definition empty_catalog : catalog_state := {| names := ∅; last := 5; bias := 7 |}.

Lemma empty_world_ok : world_ok empty_world ∅.
Proof. apply start_world_ok. Qed.

Lemma empty_stands_for : stands_for empty_world empty_catalog.
Proof.
  constructor; cbn; try done.
  apply empty_world_ok.
Qed.

Definition example_calls : list (inode_op (Kind := unit)) :=
  [OpCreate tt 0 1 4096; OpCreate tt 100 1 8192; OpLookup 5; OpReference 12 8192 2; OpDereference 5 4096 0 2; OpLookup 5].

Lemma inodes_refine_catalog_witness :
  exists w', run_inode_ops example_calls empty_world =
    Done ([Some 4096; Some 8192; Some 4096; None; None; None], w') /\ objects (st w') !! 4096 <> Some (new_object (InodePrivateObjectAttributes 0) 0 0).
Proof.
  assert (exists c', catalog_ops example_calls empty_catalog = Some (c', [Some 4096; Some 8192; Some 4096; None; None; None]) /\
    names c' = {[12 := (8192, <[2%nat := 1]> new_references)]}) as (c' & E & Hn).
  { eexists. split; vm_compute; reflexivity. }
  destruct (inodes_refine_catalog example_calls empty_world empty_catalog c' _ empty_stands_for E) as (w' & Hr & Hs).
  exists w'. split; [exact Hr|]. intros Ho. destruct Hs as [Hw _ _ _ _].
  destruct (wo_object _ _ Hw _ _ Ho) as (ino & bag & Ha). rewrite Hn in Ha.
  apply lookup_singleton_Some in Ha as [_ Ha]. congruence.
Defined.

Lemma one_inode : exists w : world Trie unit unit unit, stands_for w {| names := {[5 := (4096, new_references)]}; last := 12; bias := 7 |}.
Proof.
  assert (catalog_op (OpCreate tt 0 1 4096) empty_catalog =
    Some ({| names := {[5 := (4096, new_references)]}; last := 12; bias := 7 |}, Some 4096)) as E by (vm_compute; reflexivity).
  destruct (inode_op_ok _ _ _ _ _ empty_stands_for E) as (w & _ & Hs). by exists w.
Qed.

Definition same_number : inode Trie unit unit :=
  with_instance BITBUCKET_FILE_TYPE 0 0 0 tt (fresh_inode 1024 1 5).

Lemma insert_collision_counts_witness :
  exists w w' : world Trie unit unit unit, BitbucketInsertInodeInTable 8192 w = Done (- EEXIST, w') /\ InodeCount (table w') = 2.
Proof.
  destruct one_inode as (w & Hs). destruct Hs as [Hw _ _ _ _]. cbn in Hw.
  exists (set_inodes <[8192 := same_number]> w).
  destruct (insert_collision_counts (set_inodes <[8192 := same_number]> w) {[5 := 4096]} 5 8192 4096 same_number) as (w' & Hr & _ & Hc & _);
    try done.
  - apply (table_ok_frame _ (inodes w)).
    + pose proof (wo_table _ _ Hw) as Ht. by rewrite map_fmap_singleton in Ht.
    + intros ino q i [<- <-]%lookup_singleton_Some Hi. exists i. cbn. by rewrite lookup_insert_ne.
  - apply (wo_locks _ _ Hw).
  - cbn. by rewrite lookup_insert_eq.
  - by exists w'.
Defined.

Lemma create_needs_attributes_witness : BitbucketCreateInode None 0 1 4096 empty_world = Fail AssertFailed.
Proof. apply (create_needs_attributes empty_world ∅ 0 1 4096 empty_world_ok); done. Defined.

Lemma table_size_limit_witness :
  hash_inode 5 (HashSeed (BitbucketCreateInodeTable 40000 0 (fun _ => (0, 0, 0)))) 16 = Fail AssertFailed.
Proof. apply (table_size_limit (T := Trie) (I := unit) (Kind := unit) 40000 0 (fun _ => (0, 0, 0))). reflexivity. Defined.

Lemma lock_order_canonical_witness :
  lock_first BITBUCKET_DIR_TYPE BITBUCKET_FILE_TYPE 4096 8192 <> lock_first BITBUCKET_FILE_TYPE BITBUCKET_DIR_TYPE 8192 4096.
Proof.
  intros E. apply (lock_order_canonical BITBUCKET_DIR_TYPE BITBUCKET_FILE_TYPE 4096 8192) in E; [|done].
  unfold BITBUCKET_DIR_TYPE, BITBUCKET_FILE_TYPE in E. lia.
Defined.
