(* ===== verification/InodeRules.v ===== *)
(** What inode.c promises to the components built on it.

    Directories, files and symbolic links (dir.c, file.c, symlink.c) use
    inodes through their addresses: they take and drop references, lock them,
    and change their type-dependent part.  This file states those promises as
    rules about a [view] of the file system in which the inode table, the
    objects and the locks of the buckets do not appear any more: the
    references of each inode, the inodes themselves, and the state of the
    components.  [runs m v r v'] says that the code [m] runs with every
    assertion true in any world that looks like [v], answers [r] and leaves a
    world that looks like [v']; [fails] that it trips over an error.  The
    rules are derived from the theorems of Inode.v. *)

From stdpp Require Import gmap list strings.
From S2P Require Import Prelude NameIndex Object Xattr Inode.

Open Scope word_scope.

Section Rules.
Context {T : Type -> Type} `{NameIndex T} {I X Kind : Type} `{!Components T I X Kind}.
#[local] Notation world := (world T I X Kind).
#[local] Notation MW := (M world).

(** What the clients of inode.c know. *)
Record view := {
  refs : gmap ptr (list Z);
  inos : gmap ptr (inode T I Kind);
  ext : X;
  last_ino : Z;
  bias_ino : Z }.

Definition set_refs (f : gmap ptr (list Z) -> gmap ptr (list Z)) (v : view) : view :=
  {| refs := f (refs v); inos := inos v; ext := ext v; last_ino := last_ino v; bias_ino := bias_ino v |}.
Definition set_inos (f : gmap ptr (inode T I Kind) -> gmap ptr (inode T I Kind)) (v : view) : view :=
  {| refs := refs v; inos := f (inos v); ext := ext v; last_ino := last_ino v; bias_ino := bias_ino v |}.
Definition set_ext (x : X) (v : view) : view :=
  {| refs := refs v; inos := inos v; ext := x; last_ino := last_ino v; bias_ino := bias_ino v |}.

Definition keyed (a : gmap Z (ptr * list Z)) (m : gmap ptr (list Z)) : Prop :=
  forall p bag, m !! p = Some bag <-> exists n, a !! n = Some (p, bag).

Record holds (w : world) (v : view) : Prop := {
  ho_catalog : exists a, world_ok w a /\ keyed a (refs v);
  ho_inos : inodes w = inos v;
  ho_ext : extra w = ext v;
  ho_last : last_inode_number w = last_ino v;
  ho_bias : inode_bias w = bias_ino v }.

Definition runs {A : Type} (m : MW A) (v : view) (r : A) (v' : view) : Prop :=
  forall w, holds w v -> exists w', m w = Done (r, w') /\ holds w' v'.

Definition fails {A : Type} (m : MW A) (v : view) (f : failure) : Prop :=
  forall w, holds w v -> m w = Fail f.

(** ** The structure of programs *)

Lemma runs_ret {A} (a : A) v : runs (mret a) v a v.
Proof. intros w Hw. by exists w. Qed.

Lemma runs_bind {A B} (m : MW A) (k : A -> MW B) v a v1 b v2 :
  runs m v a v1 -> runs (k a) v1 b v2 -> runs (m ≫= k) v b v2.
Proof.
  intros Hm Hk w Hw. destruct (Hm w Hw) as (w1 & Hr1 & Hw1). destruct (Hk w1 Hw1) as (w2 & Hr2 & Hw2).
  exists w2. split; [|done]. by rewrite (M_bind_done _ _ _ a w1).
Qed.

Lemma runs_assert b v : b = true -> runs (c_assert b) v tt v.
Proof. intros ->. apply runs_ret. Qed.

Lemma runs_load p i v : inos v !! p = Some i -> runs (load_inode p) v i v.
Proof. intros Hi w Hw. exists w. split; [|done]. apply load_inode_run. by rewrite (ho_inos _ _ Hw). Qed.

Lemma runs_extra {A} (f : X -> A) v : runs (gets (fun w => f (extra w))) v (f (ext v)) v.
Proof. intros w Hw. exists w. split; [|done]. unfold gets. by rewrite (ho_ext _ _ Hw). Qed.

Lemma runs_conv {A} (m : MW A) v r r' v' v'' : runs m v r v' -> r = r' -> v' = v'' -> runs m v r' v''.
Proof. by intros ? <- <-. Qed.

Lemma fails_here {A B} (m : MW A) (k : A -> MW B) v f : fails m v f -> fails (m ≫= k) v f.
Proof. intros Hm w Hw. apply M_bind_fail. by apply Hm. Qed.

Lemma fails_later {A B} (m : MW A) (k : A -> MW B) v a v1 f : runs m v a v1 -> fails (k a) v1 f -> fails (m ≫= k) v f.
Proof.
  intros Hm Hk w Hw. destruct (Hm w Hw) as (w1 & Hr1 & Hw1). rewrite (M_bind_done _ _ _ a w1) by done. by apply Hk.
Qed.

Lemma fails_assert b v : b = false -> fails (c_assert b) v AssertFailed.
Proof. by intros ->. Qed.

Lemma fails_throw {A} (f : failure) v : fails (mthrow f : MW A) v f.
Proof. done. Qed.

(** ** Changing the state of the components *)

Definition set_extra (f : X -> X) (w : world) : world :=
  {| st := st w; inodes := inodes w; table := table w; last_inode_number := last_inode_number w;
     inode_bias := inode_bias w; extra := f (extra w) |}.

Lemma world_ok_extra f (w : world) a : world_ok w a -> world_ok (set_extra f w) a.
Proof.
  intros []. constructor; try done. intros n p bag Ha. destruct (wo_inode n p bag Ha) as (i & o & k & []).
  exists i, o, k. by constructor.
Qed.

Lemma runs_set_extra f v : runs (modify_state (set_extra f)) v tt (set_ext (f (ext v)) v).
Proof.
  intros w [(a & Ha & Hk) H1 H2 H3 H4]. eexists. split; [done|]. constructor; cbn; try done; [|congruence].
  exists a. split; [by apply world_ok_extra|done].
Qed.

(** ** Changing an inode *)

(** What inode.c keeps for itself in an inode. *)
Record same_private (i i' : inode T I Kind) : Prop := {
  sp_magic : PrivateMagic i' = PrivateMagic i;
  sp_length : InodeLength i' = InodeLength i;
  sp_table : PrivateTable i' = PrivateTable i;
  sp_ino : st_ino i' = st_ino i;
  sp_public : Magic (ea i') = Magic (ea i);
  sp_list : ExtendedAttributes (ea i') = ExtendedAttributes (ea i);
  sp_trie : ExtendedAttributeTrie (ea i') = ExtendedAttributeTrie (ea i);
  sp_heap : heap (ea i') = heap (ea i) }.

Lemma same_private_refl i : same_private i i.
Proof. by constructor. Qed.

Lemma holds_attrs_same i i' m : same_private i i' -> holds_attrs (ea i) m -> holds_attrs (ea i') m.
Proof.
  intros [] [addr []]. exists addr. constructor; rewrite ?sp_public0, ?sp_list0, ?sp_trie0, ?sp_heap0; done.
Qed.

Lemma world_ok_inode (w : world) a p i i' :
  world_ok w a -> inodes w !! p = Some i -> same_private i i' -> world_ok (set_inodes <[p := i']> w) a.
Proof.
  intros Hw Hp Hs. pose proof Hw as []. constructor; cbn; try done.
  - apply (table_ok_frame _ (inodes w)); [done|]. intros n q j _ Hj. rewrite lookup_insert. case_decide; subst; [|eauto].
    simplify_eq. exists i'. split; [done|]. apply Hs.
  - intros n q bag Ha. destruct (wo_inode n q bag Ha) as (j & o & k & Hj). destruct (decide (p = q)) as [<-|Hne].
    + destruct Hj. simplify_eq. exists i', o, k. pose proof Hs as []. constructor; cbn; try congruence.
      * apply lookup_insert_eq.
      * destruct io_attrs as [m Hm]. exists m. by eapply holds_attrs_same.
    + exists j, o, k. destruct Hj. constructor; cbn; try done. by rewrite lookup_insert_ne.
Qed.

Lemma runs_store p i i' v :
  inos v !! p = Some i -> same_private i i' -> runs (store_inode p i') v tt (set_inos <[p := i']> v).
Proof.
  intros Hi Hs w [(a & Ha & Hk) H1 H2 H3 H4]. exists (set_inodes <[p := i']> w). split; [done|].
  constructor; cbn; try congruence. exists a. split; [|done]. apply (world_ok_inode _ _ _ i); [done|congruence|done].
Qed.

Lemma runs_update p i f v :
  inos v !! p = Some i -> same_private i (f i) -> runs (update_inode p f) v tt (set_inos <[p := f i]> v).
Proof. intros Hi Hs. eapply runs_bind; [by apply runs_load|]. by eapply runs_store. Qed.

(** What holds of an inode that has references; it has no extended
    attributes. *)
Record live (i : inode T I Kind) : Prop := {
  lv_private : PrivateMagic i = BITBUCKET_PRIVATE_INODE_MAGIC;
  lv_table : PrivateTable i = true;
  lv_magic : Magic (ea i) = BITBUCKET_INODE_MAGIC;
  lv_bare : ExtendedAttributeTrie (ea i) = None }.

Lemma runs_live {A} (m : MW A) v r v' p bag :
  refs v !! p = Some bag ->
  (forall i, inos v !! p = Some i -> length bag = 12%nat -> Forall (fun x => 0 <= x) bag -> 0 < sum bag < 2 ^ 32 -> runs m v r v') ->
  runs m v r v'.
Proof.
  intros Hp Hm w Hw. pose proof Hw as [(a & Ha & Hk) H1 _ _ _]. apply Hk in Hp as (n & Hn).
  destruct (wo_inode _ _ Ha n p bag Hn) as (i & o & k & Hi). pose proof Hi as [].
  destruct (st_objects _ (wo_counted _ _ Ha) p o io_object) as [_ []]. subst bag.
  apply (Hm i); [congruence|done|done| |done]. lia.
Qed.

(** ** Locks of inodes *)

Lemma same_private_lock l i : same_private i (with_lock l i).
Proof. by constructor. Qed.

Lemma same_private_epoch n i : same_private i (with_epoch n i).
Proof. by constructor. Qed.

Lemma same_private_trans i j k : same_private i j -> same_private j k -> same_private i k.
Proof. intros [] []. constructor; congruence. Qed.

Lemma runs_lock_exclusive p i v :
  p <> NULL -> inos v !! p = Some i -> Magic (ea i) = BITBUCKET_INODE_MAGIC -> InodeLock (ea i) = Unlocked ->
  runs (BitbucketLockInode p true) v tt (set_inos <[p := with_epoch (u64 (Epoch i + 1)) (with_lock LockedExclusive i)]> v).
Proof.
  intros Hp Hi Hm Hl. eapply runs_bind; [by apply runs_assert, negb_true_iff, Z.eqb_neq|]. eapply runs_bind; [by apply runs_load|].
  eapply runs_bind; [apply runs_assert; by rewrite Hm|]. rewrite Hl. apply (runs_store _ i); [done|]. by constructor.
Qed.

Lemma runs_lock_shared p i v :
  p <> NULL -> inos v !! p = Some i -> Magic (ea i) = BITBUCKET_INODE_MAGIC -> InodeLock (ea i) = Unlocked ->
  runs (BitbucketLockInode p false) v tt (set_inos <[p := with_lock (LockedShared 0) i]> v).
Proof.
  intros Hp Hi Hm Hl. eapply runs_bind; [by apply runs_assert, negb_true_iff, Z.eqb_neq|]. eapply runs_bind; [by apply runs_load|].
  eapply runs_bind; [apply runs_assert; by rewrite Hm|]. rewrite Hl. by apply (runs_store _ i), same_private_lock.
Qed.

Lemma runs_trylock_free p i v :
  inos v !! p = Some i -> Magic (ea i) = BITBUCKET_INODE_MAGIC -> InodeLock (ea i) = Unlocked ->
  runs (BitbucketTryLockInode p true) v 0
    (set_inos <[p := with_epoch (u64 (Epoch i + 1)) (with_lock LockedExclusive i)]> v).
Proof.
  intros Hi Hm Hl. eapply runs_bind; [by apply runs_load|]. eapply runs_bind; [apply runs_assert; by rewrite Hm|].
  rewrite Hl. eapply runs_bind; [apply (runs_store _ i); [done|by constructor]|]. apply runs_ret.
Qed.

(** A lock that is held only advances the epoch. *)
Lemma runs_trylock_held p i v :
  inos v !! p = Some i -> Magic (ea i) = BITBUCKET_INODE_MAGIC -> InodeLock (ea i) <> Unlocked ->
  runs (BitbucketTryLockInode p true) v EBUSY (set_inos <[p := with_epoch (u64 (Epoch i + 1)) i]> v).
Proof.
  intros Hi Hm Hl. eapply runs_bind; [by apply runs_load|]. eapply runs_bind; [apply runs_assert; by rewrite Hm|].
  destruct (InodeLock (ea i)) eqn:E; [done|..]; (eapply runs_bind; [by apply (runs_store _ i), same_private_epoch|]);
    apply runs_ret.
Qed.

Lemma with_lock_twice l l' (i : inode T I Kind) : with_lock l (with_lock l' i) = with_lock l i.
Proof. done. Qed.

Lemma set_inos_twice p i j v : set_inos <[p := j]> (set_inos <[p := i]> v) = set_inos <[p := j]> v.
Proof. unfold set_inos. cbn. by rewrite insert_insert_eq. Qed.

(** Releasing a lock that only its holder holds. *)
Lemma runs_unlock p i v :
  inos v !! p = Some i -> Magic (ea i) = BITBUCKET_INODE_MAGIC ->
  InodeLock (ea i) = LockedExclusive \/ InodeLock (ea i) = LockedShared 0 ->
  runs (BitbucketUnlockInode p) v tt (set_inos <[p := with_lock Unlocked i]> v).
Proof.
  intros Hi Hm Hl. unfold BitbucketUnlockInode, pthread_rwlock_tryrdlock, pthread_rwlock_unlock.
  eapply runs_bind; [by apply runs_load|]. eapply runs_bind; [apply runs_assert; by rewrite Hm|].
  destruct Hl as [Hl|Hl].
  - eapply runs_bind; [eapply runs_bind; [by apply runs_load|]; rewrite Hl; apply runs_ret|].
    cbn [Z.eqb EBUSY]. eapply runs_bind; [apply runs_ret|]. eapply runs_bind; [by apply runs_load|]. rewrite Hl.
    by apply (runs_store _ i), same_private_lock.
  - eapply runs_bind.
    { eapply runs_bind; [by apply runs_load|]. rewrite Hl. eapply runs_bind; [by apply (runs_store _ i), same_private_lock|]. apply runs_ret. }
    cbn [Z.eqb]. eapply runs_bind.
    { eapply runs_bind; [apply runs_load; by apply lookup_insert_eq|]. cbn.
      eapply runs_store; [by apply lookup_insert_eq|apply same_private_lock]. }
    eapply runs_bind; [apply runs_load; by apply lookup_insert_eq|]. cbn.
    eapply runs_conv; [eapply runs_store; [by apply lookup_insert_eq|apply same_private_lock]|done|].
    by rewrite !set_inos_twice, !with_lock_twice.
Qed.

(** The lock of two inodes of which none is locked. *)
Lemma runs_lock_two p q i j v :
  inos v !! p = Some i -> inos v !! q = Some j -> p <> q -> p <> NULL -> q <> NULL ->
  Magic (ea i) = BITBUCKET_INODE_MAGIC -> Magic (ea j) = BITBUCKET_INODE_MAGIC ->
  InodeLock (ea i) = Unlocked -> InodeLock (ea j) = Unlocked -> BITBUCKET_DIR_TYPE <= InodeType i <= BITBUCKET_DEVNODE_TYPE ->
  runs (BitbucketLockTwoInodes p q true) v tt
    (set_inos (fun m => <[p := with_epoch (u64 (Epoch i + 1)) (with_lock LockedExclusive i)]>
                        (<[q := with_epoch (u64 (Epoch j + 1)) (with_lock LockedExclusive j)]> m)) v).
Proof.
  intros Hi Hj Hne Hp Hq Hmi Hmj Hli Hlj Hty. unfold BitbucketLockTwoInodes.
  do 3 (eapply runs_bind; [apply runs_assert; apply negb_true_iff, Z.eqb_neq; done|]).
  eapply runs_bind; [by apply runs_load|]. eapply runs_bind.
  { apply runs_assert. unfold BITBUCKET_DIR_TYPE, BITBUCKET_FILE_TYPE, BITBUCKET_SYMLINK_TYPE, BITBUCKET_DEVNODE_TYPE in *. lia. }
  eapply runs_bind; [by apply runs_load|]. cbv zeta.
  assert (lock_first (InodeType i) (InodeType j) p q = p \/ lock_first (InodeType i) (InodeType j) p q = q) as [->| ->].
  { unfold lock_first. repeat case_match; auto. }
  - rewrite Z.eqb_refl. eapply runs_bind; [by apply runs_lock_exclusive|].
    eapply runs_conv; [apply (runs_lock_exclusive q j); [done|cbn; by rewrite lookup_insert_ne|done|done]|done|].
    unfold set_inos. cbn. by rewrite insert_insert_ne.
  - destruct (Z.eqb_spec q p); [congruence|]. eapply runs_bind; [by apply runs_lock_exclusive|].
    apply (runs_lock_exclusive p i); [done|cbn; by rewrite lookup_insert_ne|done|done].
Qed.

(** ** References *)

Lemma keyed_insert (w : world) a m n p bag bag' :
  world_ok w a -> keyed a m -> a !! n = Some (p, bag) -> keyed (<[n := (p, bag')]> a) (<[p := bag']> m).
Proof.
  intros Hw Hk Hn q b. destruct (decide (p = q)) as [<-|Hne].
  - rewrite lookup_insert_eq. split.
    + intros [= <-]. exists n. apply lookup_insert_eq.
    + intros (n' & [[_ [= ->]]|[Hn' Hq]]%lookup_insert_Some); [done|]. by destruct Hn'; eapply (catalog_inj w a).
  - rewrite lookup_insert_ne, (Hk q b) by done. split; intros (n' & Hq); exists n'.
    + rewrite lookup_insert_ne; [done|]. intros ->. congruence.
    + apply lookup_insert_Some in Hq as [[_ [= E _]]|[_ Hq]]; [by destruct Hne|done].
Qed.

Lemma keyed_delete (w : world) a m n p bag :
  world_ok w a -> keyed a m -> a !! n = Some (p, bag) -> keyed (delete n a) (delete p m).
Proof.
  intros Hw Hk Hn q b. rewrite lookup_delete_Some, (Hk q b). split.
  - intros (Hne & n' & Hq). exists n'. apply lookup_delete_Some. split; [|done]. intros ->. congruence.
  - intros (n' & [Hne Hq]%lookup_delete_Some). split; [|eauto]. intros ->. by destruct Hne; eapply (catalog_inj w a).
Qed.

Lemma keyed_new (a : gmap Z (ptr * list Z)) m n p bag :
  keyed a m -> a !! n = None -> m !! p = None -> keyed (<[n := (p, bag)]> a) (<[p := bag]> m).
Proof.
  intros Hk Hn Hp q b. rewrite lookup_insert_Some, (Hk q b). split.
  - intros [[<- <-]|(Hne & n' & Hq)]; [exists n; by rewrite lookup_insert_eq|]. exists n'.
    rewrite lookup_insert_ne; [done|]. intros ->. congruence.
  - intros (n' & [[<- [= <- <-]]|[Hne Hq]]%lookup_insert_Some); [by left|]. right. split; [|eauto]. intros ->.
    assert (m !! q = Some b) by (apply Hk; eauto). congruence.
Qed.

Lemma runs_reference p bag reason v :
  refs v !! p = Some bag -> 0 <= reason < 12 -> sum bag + 1 < 2 ^ 32 ->
  runs (BitbucketReferenceInode p reason) v tt (set_refs <[p := bag_add reason 1 bag]> v).
Proof.
  intros Hp Hr Hb w Hw. pose proof Hw as [(a & Ha & Hk) ????]. apply Hk in Hp as (n & Hn).
  destruct (Reference_ok w a n p bag reason Ha Hn Hr Hb) as (w' & Hrun & [= S1 S2 S3 S4] & Hw').
  exists w'. split; [done|]. constructor; cbn; try congruence. eexists. split; [done|]. by eapply keyed_insert.
Qed.

Lemma runs_dereference p bag reason bias v :
  refs v !! p = Some bag -> 0 <= reason < 12 -> 0 <= bias <= default 0 (bag !! Z.to_nat reason) -> bias < sum bag ->
  runs (BitbucketDereferenceInode p reason bias) v tt (set_refs <[p := bag_add reason (- bias) bag]> v).
Proof.
  intros Hp Hr Hb Hlt w Hw. pose proof Hw as [(a & Ha & Hk) ????]. apply Hk in Hp as (n & Hn).
  destruct (Dereference_keep_ok w a n p bag reason bias Ha Hn Hr Hb Hlt) as (w' & Hrun & [= S1 S2 S3 S4] & Hw').
  exists w'. split; [done|]. constructor; cbn; try congruence. eexists. split; [done|]. by eapply keyed_insert.
Qed.

Definition gone (p : ptr) (v : view) : view := set_inos (delete p) (set_refs (delete p) v).

(** The last reference: the inode is gone. *)
Lemma runs_dereference_last `{!ComponentLaws} p bag i reason v :
  refs v !! p = Some bag -> inos v !! p = Some i -> can_go i -> 0 <= reason < 12 ->
  bag !! Z.to_nat reason = Some (sum bag) ->
  runs (BitbucketDereferenceInode p reason (sum bag)) v tt (gone p v).
Proof.
  intros Hp Hi Hgo Hr Hb w Hw. pose proof Hw as [(a & Ha & Hk) ????]. apply Hk in Hp as (n & Hn).
  destruct (Dereference_last_ok w a n p bag reason Ha Hn Hr Hb) as (w' & Hrun & [= S1 S2 S3 S4] & Hw').
  { intros j Hj. congruence. }
  exists w'. split; [done|]. constructor; cbn; try congruence. eexists. split; [done|]. by eapply keyed_delete.
Qed.

(** References of an inode are dropped, whether or not they are the last. *)
Definition dropped (p : ptr) (bag : list Z) (reason n : Z) (v : view) : view :=
  if n =? sum bag then gone p v else set_refs <[p := bag_add reason (- n) bag]> v.

Lemma runs_drop `{!ComponentLaws} p bag i reason n v :
  refs v !! p = Some bag -> inos v !! p = Some i -> (n = sum bag -> can_go i) -> 0 <= reason < 12 ->
  0 <= n <= default 0 (bag !! Z.to_nat reason) ->
  runs (BitbucketDereferenceInode p reason n) v tt (dropped p bag reason n v).
Proof.
  intros Hp Hi Hgo Hr Hn. eapply runs_live; [exact Hp|]. intros j _ Hlen Hpos Hsum. unfold dropped.
  destruct (lookup_lt_is_Some_2 bag (Z.to_nat reason)) as [x Hx]; [lia|]. rewrite Hx in Hn. cbn in Hn.
  pose proof (sum_ge bag _ x Hpos Hx).
  destruct (Z.eqb_spec n (sum bag)) as [->|Hne].
  - eapply runs_dereference_last; try done; [by apply Hgo|]. rewrite Hx. f_equal. lia.
  - apply runs_dereference; try done; rewrite ?Hx; cbn; lia.
Qed.

Lemma runs_count p bag v : refs v !! p = Some bag -> runs (BitbucketGetInodeReferenceCount p) v (sum bag) v.
Proof.
  intros Hp w Hw. pose proof Hw as [(a & Ha & Hk) ????]. apply Hk in Hp as (n & Hn).
  destruct (wo_inode _ _ Ha n p bag Hn) as (i & o & k & []). exists w. split; [|done].
  destruct (st_objects _ (wo_counted _ _ Ha) p o io_object) as [Hnz []].
  unfold BitbucketGetInodeReferenceCount. run_step ltac:(by apply load_inode_run). unfold CHECK_PRIVATE.
  rewrite c_assert_bind by (by rewrite io_private). unfold lift_store, BitbucketGetObjectReferenceCount.
  rewrite c_assert_bind by (by destruct (Z.eqb_spec p NULL)). run_step ltac:(by apply load_object_run).
  unfold Object.CHECK_MAGIC. rewrite c_assert_bind by (by rewrite ob_magic). rewrite ob_sum, io_bag.
  unfold mret, M_ret. do 2 f_equal. by destruct w.
Qed.

(** ** Lookup by number, and creation *)

Lemma keyed_size (a : gmap Z (ptr * list Z)) m (w : world) : world_ok w a -> keyed a m -> size a = size m.
Proof.
  intros Hw Hk. assert (m = list_to_map (snd <$> map_to_list a)) as ->; [|].
  - assert (NoDup (fst <$> (snd <$> map_to_list a))) as Hnd.
    { rewrite <- list_fmap_compose. apply NoDup_fmap_2_strong; [|apply NoDup_map_to_list].
      intros [n [p b]] [n' [p' b']] H1%elem_of_map_to_list H2%elem_of_map_to_list. cbn. intros ->.
      assert (n = n') as -> by (by eapply (catalog_inj w a)). congruence. }
    apply map_eq. intros p. apply option_eq. intros bag. rewrite (Hk p bag). rewrite <- elem_of_list_to_map by done.
    rewrite list_elem_of_fmap. split.
    + intros (n & Hn). exists (n, (p, bag)). split; [done|]. by apply elem_of_map_to_list.
    + intros ([n x] & -> & Hx). exists n. by apply elem_of_map_to_list.
  - rewrite <- (length_map_to_list (list_to_map _)), map_to_list_to_map.
    + by rewrite length_fmap, length_map_to_list.
    + rewrite <- list_fmap_compose. apply NoDup_fmap_2_strong; [|apply NoDup_map_to_list].
      intros [n [p b]] [n' [p' b']] H1%elem_of_map_to_list H2%elem_of_map_to_list. cbn. intros ->.
      assert (n = n') as -> by (by eapply (catalog_inj w a)). congruence.
Qed.

Definition next_number (v : view) : Z := if last_ino v =? 0 then bias_ino v else last_ino v.
Definition following_number (v : view) : Z :=
  if last_ino v =? 0 then u64 (u64 (bias_ino v) + bias_ino v) else u64 (last_ino v + bias_ino v).

(** No inode has the number. *)
Definition unused (n : Z) (v : view) : Prop :=
  forall p bag i, refs v !! p = Some bag -> inos v !! p = Some i -> st_ino i <> n.

Lemma unused_catalog w v a n : holds w v -> world_ok w a -> keyed a (refs v) -> unused n v -> a !! n = None.
Proof.
  intros Hw Ha Hk Hn. apply eq_None_not_Some. intros [[p bag] Hp]. destruct (wo_inode _ _ Ha n p bag Hp) as (i & o & k & []).
  apply (Hn p bag i); [|by rewrite <- (ho_inos _ _ Hw)|done]. apply Hk. eauto.
Qed.

Lemma runs_lookup_found p bag i n v :
  refs v !! p = Some bag -> inos v !! p = Some i -> st_ino i = n -> sum bag + 1 < 2 ^ 32 ->
  runs (BitbucketLookupInodeInTable n) v (Some p) (set_refs <[p := bag_add INODE_LOOKUP_REFERENCE 1 bag]> v).
Proof.
  intros Hp Hi Hn Hb w Hw. pose proof Hw as [(a & Ha & Hk) Hin ???]. apply Hk in Hp as (n' & Hn').
  destruct (wo_inode _ _ Ha n' p bag Hn') as (i' & o & k & []).
  assert (n' = n) as -> by (rewrite Hin in io_inode; congruence).
  assert (n <> 0) as Hz by (eapply (tb_inode _ _ _ (wo_table _ _ Ha)); by rewrite lookup_fmap, Hn').
  destruct (Lookup_ok w a n Ha Hz) as (w' & Hrun & [= S1 S2 S3 S4] & Hw').
  { intros q b Hq. congruence. }
  rewrite Hn' in Hrun, Hw'. exists w'. split; [done|]. constructor; cbn; try congruence. eexists. split; [done|]. by eapply keyed_insert.
Qed.

Lemma runs_lookup_missing n v : n <> 0 -> unused n v -> runs (BitbucketLookupInodeInTable n) v None v.
Proof.
  intros Hz Hu w Hw. pose proof Hw as [(a & Ha & Hk) ????].
  assert (a !! n = None) as Hn by (by eapply unused_catalog).
  destruct (Lookup_ok w a n Ha Hz) as (w' & Hrun & [= S1 S2 S3 S4] & Hw'); [congruence|].
  rewrite Hn in Hrun, Hw'. exists w'. split; [done|]. constructor; cbn; try congruence. eauto.
Qed.

Definition created_view `{!ComponentLaws} (kd : Kind) (DataLength epoch : Z) (p : ptr) (v : view) : view :=
  {| refs := <[p := new_references]> (refs v);
     inos := <[p := created_inode kd (inode_length DataLength) epoch (next_number v)]> (inos v);
     ext := ext v; last_ino := following_number v; bias_ino := bias_ino v |}.

(** There is room for one more inode, at the address and with the number it
    will get. *)
Record can_create (DataLength : Z) (p : ptr) (v : view) : Prop := {
  cc_length : inode_length DataLength < 65536;
  cc_address : p <> NULL;
  cc_fresh : refs v !! p = None;
  cc_bias : 0 < bias_ino v < 2 ^ 64;
  cc_root : next_number v <> FUSE_ROOT_ID;
  cc_zero : next_number v <> 0;
  cc_number : unused (next_number v) v;
  cc_room : Z.of_nat (size (refs v)) + 1 < 2 ^ 64 }.

Lemma runs_create `{!ComponentLaws} kd DataLength epoch p v :
  can_create DataLength p v ->
  runs (BitbucketCreateInode (Some kd) DataLength epoch p) v p (created_view kd DataLength epoch p v).
Proof.
  intros [Hlen Hp Hf Hb Hr Hz Hn Hs] w Hw. pose proof Hw as [(a & Ha & Hk) H1 H2 H3 H4].
  assert (next_ino w = next_number v) as Hnext by (unfold next_ino, next_number; by rewrite H3, H4).
  rewrite <- Hnext in *.
  assert (a !! next_ino w = None) as Hfree by (by eapply unused_catalog).
  destruct (Create_ok w a kd DataLength epoch p) as (w' & Hrun & Hw' & Hl & Hb' & He & Hin); try done.
  - apply eq_None_not_Some. intros [o Ho]. destruct (wo_object _ _ Ha p o Ho) as (n & bag & Hx).
    assert (refs v !! p = Some bag) by (apply Hk; eauto). congruence.
  - by rewrite H4.
  - by erewrite keyed_size by done.
  - exists w'. split; [done|]. constructor; cbn; try congruence.
    + eexists. split; [done|]. by apply keyed_new.
    + rewrite Hl. unfold following, following_number. by rewrite H3, H4.
Qed.
End Rules.

Arguments view T I X Kind : clear implicits.

(** * Stepping through code

    [step_with r] runs the first command of the code by the rule [r]. *)
Ltac step_with r := eapply runs_bind; [r|].
Ltac step_assert := step_with ltac:(apply runs_assert).
