(* ===== verification/BitbucketData.v ===== *)
(** The specialisations of inodes: the data of bitbucketdata.h and the
    callbacks of dir.c, file.c and symlink.c.

    The type-dependent part of an inode is a union whose members all begin
    with a magic number: [instance].  A member that is read from an inode of
    another type is undefined here.  The entries of directories have
    addresses of their own; they are kept in the state of the components,
    together with the flag of the directory checks and a state [R] that the
    callers of this layer add.  A list of entries is the sequence of their
    addresses (ListEntry.v).

    The callbacks get the length of the public part of the inode, which
    inode.c computes from the length it keeps: the assertions that compare
    the two are left out.  What the operating system does for a file that is
    kept in a storage directory is the class [Storage]. *)

From stdpp Require Import gmap list strings.
From S2P Require Import Prelude NameIndex Trie Object Xattr Inode InodeRules.

Open Scope word_scope.

Definition MAX_FILE_NAME_SIZE : Z := 1024.
Definition BITBUCKET_DIR_MAGIC : Z := 0x895fe26d657f24bd.
Definition BITBUCKET_FILE_MAGIC : Z := 0x901bb9acacca7b19.
Definition BITBUCKET_SYMLINK_MAGIC : Z := 0x6fba60a633f4e259.
Definition BITBUCKET_DIR_ENTRY_MAGIC : Z := 0xdb88e347869a9599.
Definition BITBUCKET_DIR_ENUM_CONTEXT_MAGIC : Z := 0xb058a92686f1e02d.
Definition S_IFDIR : Z := 0x4000.
Definition S_IFREG : Z := 0x8000.

(** bitbucket_dir_t *)
Record bitbucket_dir {T : Type -> Type} := {
  d_Magic : Z;
  Parent : ptr;
  DirEntries : list ptr;
  Children : option (T ptr) }.
Arguments bitbucket_dir T : clear implicits.

(** What [Map] of a file points to: nothing, memory that holds these bytes,
    or no memory any more (it was freed) or at all (it is MAP_FAILED). *)
Inductive mapping : Type := Unmapped | Mapped (bytes : list Byte.byte) | Dangling.

(** bitbucket_file_t; without the lists of lock owners and waiters. *)
Record bitbucket_file := {
  f_Magic : Z;
  MapName : option string;
  Map : mapping;
  WaitingReaders : Z;
  WaitingWriters : Z }.

(** bitbucket_symlink_t *)
Record bitbucket_symlink := { s_Magic : Z; LinkContents : string }.

Inductive instance {T : Type -> Type} : Type :=
  | Zeroed
  | Directory (d : bitbucket_dir T)
  | File (f : bitbucket_file)
  | SymbolicLink (s : bitbucket_symlink).
Arguments instance T : clear implicits.

(** The first word of the union. *)
Definition instance_magic {T} (x : instance T) : Z :=
  match x with
  | Zeroed => 0
  | Directory d => d_Magic d
  | File f => f_Magic f
  | SymbolicLink s => s_Magic s
  end.

(** bitbucket_dir_entry_t *)
Record dir_entry := { de_Magic : Z; de_Inode : ptr; de_Offset : Z; de_Name : string }.

(** The state of dir.c and of its callers. *)
Record dir_state {R : Type} := {
  dirents : gmap ptr dir_entry;
  VerifyDirectoriesEnabled : bool;
  rest : R }.
Arguments dir_state R : clear implicits.

(** The three sets of attributes registered with inode.c. *)
Inductive kind : Type :=
  | DirectoryObjectAttributes
  | FileObjectAttributes
  | SymbolicLinkObjectAttributes.

#[export] Instance kind_eq_dec : EqDecision kind.
Proof. solve_decision. Defined.

(** System calls on the storage directory, and whether memory for contents
    can be had, on the state of the callers.  [os_create] opens a file that
    must not exist, [os_open] one that exists or, with [true], is created;
    it answers a descriptor or a negated error number.  [os_mmap] answers an
    error number or what is mapped, [os_pread] what was read, if anything;
    [os_msync] gets what [Map] leads to. *)
Class Storage (R : Type) := {
  os_create : string -> M R Z;
  os_open : bool -> string -> M R Z;
  os_ftruncate : Z -> Z -> M R Z;
  os_mmap : Z -> Z -> M R (Z + list Byte.byte);
  os_munmap : list Byte.byte -> Z -> M R Z;
  os_msync : list Byte.byte -> Z -> M R Z;
  os_pread : Z -> Z -> Z -> M R (option (list Byte.byte));
  os_close : Z -> M R unit;
  os_unlink : string -> M R Z;
  os_malloc : Z -> M R bool }.

Section Data.
Context {T : Type -> Type} `{NameIndex T} {R : Type} `{!Storage R}.
#[local] Notation world := (world T (instance T) (dir_state R) kind).
#[local] Notation MW := (M world).

Definition with_rest (x : R) (s : dir_state R) : dir_state R :=
  {| dirents := dirents s; VerifyDirectoriesEnabled := VerifyDirectoriesEnabled s; rest := x |}.
Definition with_dirents (f : gmap ptr dir_entry -> gmap ptr dir_entry) (s : dir_state R) : dir_state R :=
  {| dirents := f (dirents s); VerifyDirectoriesEnabled := VerifyDirectoriesEnabled s; rest := rest s |}.

Definition lift_rest {A : Type} (m : M R A) : MW A :=
  fun w => match m (rest (extra w)) with
           | Done (a, x) => Done (a, set_extra (with_rest x) w)
           | Fail f => Fail f
           end.

Definition with_data (x : instance T) (i : inode T (instance T) kind) : inode T (instance T) kind :=
  with_instance (InodeType i) (st_mode i) (st_nlink i) (st_size i) x i.
Definition with_nlink (n : Z) (i : inode T (instance T) kind) : inode T (instance T) kind :=
  with_instance (InodeType i) (st_mode i) n (st_size i) (Instance i) i.
Definition with_mode (n : Z) (i : inode T (instance T) kind) : inode T (instance T) kind :=
  with_instance (InodeType i) n (st_nlink i) (st_size i) (Instance i) i.

Definition CHECK_INODE_MAGIC (p : ptr) : MW unit :=
  i ← load_inode p; c_assert (Magic (ea i) =? BITBUCKET_INODE_MAGIC).
Definition CHECK_INSTANCE_MAGIC (magic : Z) (p : ptr) : MW unit :=
  i ← load_inode p; c_assert (instance_magic (Instance i) =? magic).
Definition CHECK_TYPE (type : Z) (p : ptr) : MW unit := i ← load_inode p; c_assert (InodeType i =? type).

Definition load_dir (p : ptr) : MW (bitbucket_dir T) :=
  i ← load_inode p; match Instance i with Directory d => mret d | _ => mthrow Undefined end.
Definition update_dir (p : ptr) (f : bitbucket_dir T -> bitbucket_dir T) : MW unit :=
  d ← load_dir p; update_inode p (with_data (Directory (f d))).

(** ** dir.c *)

Definition DirectoryInitialize (p : ptr) : MW unit :=
  CHECK_INODE_MAGIC p;;
  CHECK_TYPE BITBUCKET_UNKNOWN_TYPE p;;
  update_inode p (fun i =>
    with_instance BITBUCKET_DIR_TYPE (Z.lor (st_mode i) S_IFDIR) 1 (st_size i)
      (Directory {| d_Magic := BITBUCKET_DIR_MAGIC; Parent := NULL; DirEntries := []; Children := None |}) i).

Definition with_dir_magic (m : Z) (d : bitbucket_dir T) : bitbucket_dir T :=
  {| d_Magic := m; Parent := Parent d; DirEntries := DirEntries d; Children := Children d |}.

Definition DirectoryDeallocate (p : ptr) : MW unit :=
  CHECK_INODE_MAGIC p;;
  CHECK_INSTANCE_MAGIC BITBUCKET_DIR_MAGIC p;;
  d ← load_dir p;
  c_assert (bool_decide (DirEntries d = []));;
  update_dir p (with_dir_magic (wnot 64 BITBUCKET_DIR_MAGIC)).

(** ** file.c *)

Definition load_file (p : ptr) : MW bitbucket_file :=
  i ← load_inode p; match Instance i with File f => mret f | _ => mthrow Undefined end.

Definition FileInitialize (p : ptr) : MW unit :=
  CHECK_INODE_MAGIC p;;
  CHECK_TYPE BITBUCKET_UNKNOWN_TYPE p;;
  update_inode p (fun i =>
    with_instance BITBUCKET_FILE_TYPE (Z.lor (st_mode i) S_IFREG) 0 0
      (File {| f_Magic := BITBUCKET_FILE_MAGIC; MapName := None; Map := Unmapped; WaitingReaders := 0; WaitingWriters := 0 |}) i).

Definition FileDeallocate (p : ptr) : MW unit :=
  CHECK_INODE_MAGIC p;;
  CHECK_INSTANCE_MAGIC BITBUCKET_FILE_MAGIC p;;
  f ← load_file p;
  i ← load_inode p;
  (match Map f, MapName f with
   | Unmapped, _ => mret ()
   | Dangling, _ => mthrow Undefined
   | Mapped _, None => mret ()
   | Mapped b, Some _ => status ← lift_rest (os_munmap b (st_size i)); c_assert (status =? 0)
   end);;
  (match MapName f with
   | Some name => status ← lift_rest (os_unlink name); c_assert (status =? 0)
   | None => mret ()
   end);;
  update_inode p (with_data (File
    {| f_Magic := wnot 64 BITBUCKET_FILE_MAGIC; MapName := None;
       Map := match MapName f with Some _ => Map f | None => Unmapped end;
       WaitingReaders := WaitingReaders f; WaitingWriters := WaitingWriters f |})).

(** ** symlink.c *)

Definition SymlinkInitialize (p : ptr) : MW unit :=
  CHECK_INODE_MAGIC p;;
  CHECK_TYPE BITBUCKET_UNKNOWN_TYPE p;;
  update_inode p (fun i =>
    with_instance BITBUCKET_SYMLINK_TYPE (Z.lor (st_mode i) S_IFLNK) 0 0
      (SymbolicLink {| s_Magic := BITBUCKET_SYMLINK_MAGIC; LinkContents := EmptyString |}) i).

Definition SymlinkDeallocate (p : ptr) : MW unit :=
  CHECK_INODE_MAGIC p;;
  CHECK_INSTANCE_MAGIC BITBUCKET_SYMLINK_MAGIC p;;
  i ← load_inode p;
  match Instance i with
  | SymbolicLink s =>
      update_inode p (with_data (SymbolicLink {| s_Magic := wnot 64 BITBUCKET_SYMLINK_MAGIC; LinkContents := LinkContents s |}))
  | _ => mthrow Undefined
  end.

#[export] Instance bitbucket_components : Components T (instance T) (dir_state R) kind :=
  {| blank := Zeroed;
     Initialize := fun k => match k with
       | DirectoryObjectAttributes => DirectoryInitialize
       | FileObjectAttributes => FileInitialize
       | SymbolicLinkObjectAttributes => SymlinkInitialize
       end;
     Deallocate := fun k => match k with
       | DirectoryObjectAttributes => DirectoryDeallocate
       | FileObjectAttributes => FileDeallocate
       | SymbolicLinkObjectAttributes => SymlinkDeallocate
       end |}.

(** ** The laws inode.c relies on *)

(** A directory is idle when it has no entry, a file when it is not kept in
    the storage directory and its contents are not freed memory. *)
Definition bitbucket_idle (k : kind) (x : instance T) : Prop :=
  match k, x with
  | DirectoryObjectAttributes, Directory d => d_Magic d = BITBUCKET_DIR_MAGIC /\ DirEntries d = []
  | FileObjectAttributes, File f => f_Magic f = BITBUCKET_FILE_MAGIC /\ MapName f = None /\ Map f <> Dangling
  | SymbolicLinkObjectAttributes, SymbolicLink s => s_Magic s = BITBUCKET_SYMLINK_MAGIC
  | _, _ => False
  end.

Lemma update_inode_run p f (w : world) i :
  inodes w !! p = Some i -> update_inode p f w = Done (tt, set_inodes <[p := f i]> w).
Proof. intros Hi. unfold update_inode. by run_step ltac:(by apply load_inode_run). Qed.

Lemma CHECK_INODE_MAGIC_run p (w : world) i :
  inodes w !! p = Some i -> Magic (ea i) = BITBUCKET_INODE_MAGIC -> CHECK_INODE_MAGIC p w = Done (tt, w).
Proof.
  intros Hi Hm. unfold CHECK_INODE_MAGIC. run_step ltac:(by apply load_inode_run).
  by rewrite c_assert_true by (by rewrite Hm).
Qed.

Lemma CHECK_TYPE_run type p (w : world) i :
  inodes w !! p = Some i -> InodeType i = type -> CHECK_TYPE type p w = Done (tt, w).
Proof.
  intros Hi Hm. unfold CHECK_TYPE. run_step ltac:(by apply load_inode_run). by rewrite c_assert_true by lia.
Qed.

Lemma CHECK_INSTANCE_MAGIC_run magic p (w : world) i :
  inodes w !! p = Some i -> instance_magic (Instance i) = magic -> CHECK_INSTANCE_MAGIC magic p w = Done (tt, w).
Proof.
  intros Hi Hm. unfold CHECK_INSTANCE_MAGIC. run_step ltac:(by apply load_inode_run). by rewrite c_assert_true by lia.
Qed.

#[export] Instance bitbucket_laws : ComponentLaws (T := T) (I := instance T) (X := dir_state R) (Kind := kind).
Proof.
  refine {|
    kind_type := fun k => match k with
      | DirectoryObjectAttributes => BITBUCKET_DIR_TYPE
      | FileObjectAttributes => BITBUCKET_FILE_TYPE
      | SymbolicLinkObjectAttributes => BITBUCKET_SYMLINK_TYPE end;
    idle := bitbucket_idle;
    init_mode := fun k => match k with
      | DirectoryObjectAttributes => Z.lor S_IRWXUGO S_IFDIR
      | FileObjectAttributes => Z.lor S_IRWXUGO S_IFREG
      | SymbolicLinkObjectAttributes => Z.lor S_IRWXUGO S_IFLNK end;
    init_nlink := fun k => match k with DirectoryObjectAttributes => 1 | _ => 0 end;
    init_size := fun k => match k with DirectoryObjectAttributes => 4096 | _ => 0 end;
    init_instance := fun k => match k with
      | DirectoryObjectAttributes => Directory {| d_Magic := BITBUCKET_DIR_MAGIC; Parent := NULL; DirEntries := []; Children := None |}
      | FileObjectAttributes => File {| f_Magic := BITBUCKET_FILE_MAGIC; MapName := None; Map := Unmapped; WaitingReaders := 0; WaitingWriters := 0 |}
      | SymbolicLinkObjectAttributes => SymbolicLink {| s_Magic := BITBUCKET_SYMLINK_MAGIC; LinkContents := EmptyString |} end |}.
  - by intros [].
  - by intros [].
  - intros k p w i Hi Hm Hty Hmode _ Hsize _.
    destruct k; cbn [Initialize bitbucket_components]; unfold DirectoryInitialize, FileInitialize, SymlinkInitialize;
      (run_step ltac:(by eapply CHECK_INODE_MAGIC_run)); (run_step ltac:(by eapply CHECK_TYPE_run));
      erewrite update_inode_run by done; by rewrite Hmode, ?Hsize.
  - intros k p w i Hi Hm Hidle.
    destruct k; cbn [Deallocate bitbucket_components]; destruct (Instance i) as [|d|f|s] eqn:E; try done;
      unfold DirectoryDeallocate, FileDeallocate, SymlinkDeallocate;
      (run_step ltac:(by eapply CHECK_INODE_MAGIC_run));
      (run_step ltac:(eapply CHECK_INSTANCE_MAGIC_run; [done|rewrite E; apply Hidle])).
    + destruct Hidle as [_ He]. assert (load_dir p w = Done (d, w)) as Hd.
      { unfold load_dir. run_step ltac:(by apply load_inode_run). by rewrite E. }
      run_step ltac:(exact Hd). rewrite c_assert_bind by (by rewrite bool_decide_true).
      unfold update_dir. run_step ltac:(exact Hd). erewrite update_inode_run by done. by eexists.
    + destruct Hidle as (_ & He & Hmap). assert (load_file p w = Done (f, w)) as Hd.
      { unfold load_file. run_step ltac:(by apply load_inode_run). by rewrite E. }
      run_step ltac:(exact Hd). run_step ltac:(by apply load_inode_run). rewrite He.
      destruct (Map f); [..|done]; rewrite !mret_bind; (erewrite update_inode_run by done); by eexists.
    + run_step ltac:(by apply load_inode_run). rewrite E. erewrite update_inode_run by done. by eexists.
Defined.
End Data.
