(* ===== verification/Tree.v ===== *)
(** What directories are for: a tree of named inodes with exact references.

    A [tree] is the abstract state of dir.c and of its callers: for each
    inode its number, type, link count, parent and names; the allocated
    directory entries, each with the inode it names and the directory that
    lists it; and the references of each inode by reason.  [wf] is its type:
    names belong to directories and lead to entries, no entry has two places,
    the link count of an inode is the number of entries of other directories
    that name it, and the references for the reasons "Dir:Entry" and
    "Dir:Parent" are exactly as many as there are entries that name the inode
    and directories whose parent it is.  While an operation is under way a
    reference may be ahead of its entry, and a link ahead of its count: the
    parameters [a], [b] and [c] of [wf] count those.

    The updates of a tree are the steps from which DirectoryRules.v composes
    what each operation does; each preserves [wf]. *)

From stdpp Require Import gmap list strings.
From S2P Require Import Prelude Object Inode.

Lemma alter_insert_Some {V : Type} (m : gmap ptr V) (g : V -> V) k v : m !! k = Some v -> alter g k m = <[k := g v]> m.
Proof.
  intros Hk. apply map_eq. intros j. destruct (decide (k = j)) as [<-|Hne].
  - by rewrite lookup_alter_eq, Hk, lookup_insert_eq.
  - by rewrite lookup_alter_ne, lookup_insert_ne.
Qed.

(** * Counting the values of a map *)

Definition tally {V : Type} (f : V -> ptr) (m : gmap ptr V) (p : ptr) : Z :=
  map_fold (fun _ v n => if decide (f v = p) then n + 1 else n) 0 m.

Definition one (p q : ptr) : Z := if decide (p = q) then 1 else 0.

Section Tally.
Context {V : Type} (f : V -> ptr).
Implicit Types m : gmap ptr V.

Lemma tally_empty p : tally f ∅ p = 0.
Proof. apply map_fold_empty. Qed.

Lemma tally_insert m k v p : m !! k = None -> tally f (<[k := v]> m) p = tally f m p + one (f v) p.
Proof.
  intros Hk. unfold tally. rewrite map_fold_insert_L; [unfold one; case_decide; lia| |done].
  intros. repeat case_decide; lia.
Qed.

Lemma tally_delete m k v p : m !! k = Some v -> tally f (delete k m) p = tally f m p - one (f v) p.
Proof.
  intros Hk. rewrite <- (insert_delete_id m k v Hk) at 2. rewrite tally_insert by apply lookup_delete_eq. lia.
Qed.

Lemma tally_update m k v v' p : m !! k = Some v -> tally f (<[k := v']> m) p = tally f m p - one (f v) p + one (f v') p.
Proof.
  intros Hk. rewrite <- insert_delete_eq, tally_insert by apply lookup_delete_eq. by erewrite tally_delete.
Qed.

Lemma tally_nonneg m p : 0 <= tally f m p.
Proof.
  induction m as [|k v m Hk IH] using map_ind; [by rewrite tally_empty|].
  rewrite tally_insert by done. unfold one. case_decide; lia.
Qed.

Lemma tally_pos m k v : m !! k = Some v -> 0 < tally f m (f v).
Proof.
  intros Hk. pose proof (tally_nonneg (delete k m) (f v)) as Hn. rewrite (tally_delete m k v) in Hn by done.
  unfold one in Hn. rewrite decide_True in Hn by done. lia.
Qed.

Lemma tally_zero m k v p : tally f m p <= 0 -> m !! k = Some v -> f v <> p.
Proof. intros Hz Hk <-. pose proof (tally_pos m k v Hk). lia. Qed.

Lemma tally_alter m g k p : (forall v, m !! k = Some v -> f (g v) = f v) -> tally f (alter g k m) p = tally f m p.
Proof.
  intros Hg. destruct (m !! k) as [v|] eqn:Hk.
  - rewrite (alter_insert_Some _ _ _ _ Hk), (tally_update m k v) by done. rewrite Hg by done. lia.
  - by rewrite alter_id; [|congruence].
Qed.
End Tally.

(** * Trees

    [n_base] is the part of the link count that no entry accounts for: 1 for a
    directory, which names itself.  An entry is the inode it names and the
    directory that lists it, or NULL. *)

(** What an inode holds beside names: a file its bytes, where it has memory
    for them, and a symbolic link its target. *)
Inductive contents : Type :=
  | NoContents
  | Bytes (map : option (list Byte.byte))
  | Target (link : string).

Record node := {
  n_ino : Z;
  n_type : Z;
  n_mode : Z;
  n_links : Z;
  n_base : Z;
  n_parent : ptr;
  n_names : gmap string ptr;
  n_size : Z;
  n_contents : contents }.

Record tree {R : Type} := {
  nodes : gmap ptr node;
  entries : gmap ptr (ptr * ptr);
  counts : gmap ptr (list Z);
  t_last : Z;
  t_bias : Z;
  t_verify : bool;
  t_rest : R }.
Arguments tree R : clear implicits.

Section Tree.
Context {R : Type}.
Implicit Types (t : tree R) (n : node) (p q e : ptr).

Definition set_nodes (f : gmap ptr node -> gmap ptr node) t : tree R :=
  {| nodes := f (nodes t); entries := entries t; counts := counts t; t_last := t_last t; t_bias := t_bias t;
     t_verify := t_verify t; t_rest := t_rest t |}.
Definition set_entries (f : gmap ptr (ptr * ptr) -> gmap ptr (ptr * ptr)) t : tree R :=
  {| nodes := nodes t; entries := f (entries t); counts := counts t; t_last := t_last t; t_bias := t_bias t;
     t_verify := t_verify t; t_rest := t_rest t |}.
Definition set_counts (f : gmap ptr (list Z) -> gmap ptr (list Z)) t : tree R :=
  {| nodes := nodes t; entries := entries t; counts := f (counts t); t_last := t_last t; t_bias := t_bias t;
     t_verify := t_verify t; t_rest := t_rest t |}.
Definition set_rest (f : R -> R) t : tree R :=
  {| nodes := nodes t; entries := entries t; counts := counts t; t_last := t_last t; t_bias := t_bias t;
     t_verify := t_verify t; t_rest := f (t_rest t) |}.

Definition node_names (m : gmap string ptr) n : node :=
  {| n_ino := n_ino n; n_type := n_type n; n_mode := n_mode n; n_links := n_links n; n_base := n_base n; n_parent := n_parent n; n_names := m;
     n_size := n_size n; n_contents := n_contents n |}.
Definition node_links (k : Z) n : node :=
  {| n_ino := n_ino n; n_type := n_type n; n_mode := n_mode n; n_links := k; n_base := n_base n; n_parent := n_parent n; n_names := n_names n;
     n_size := n_size n; n_contents := n_contents n |}.
Definition node_base (k : Z) n : node :=
  {| n_ino := n_ino n; n_type := n_type n; n_mode := n_mode n; n_links := k; n_base := k; n_parent := n_parent n;
     n_names := n_names n; n_size := n_size n; n_contents := n_contents n |}.
Definition node_parent p n : node :=
  {| n_ino := n_ino n; n_type := n_type n; n_mode := n_mode n; n_links := n_links n; n_base := n_base n; n_parent := p; n_names := n_names n;
     n_size := n_size n; n_contents := n_contents n |}.
Definition node_mode (k : Z) n : node :=
  {| n_ino := n_ino n; n_type := n_type n; n_mode := k; n_links := n_links n; n_base := n_base n; n_parent := n_parent n; n_names := n_names n;
     n_size := n_size n; n_contents := n_contents n |}.

(** ** The steps *)

(** A reference is taken, or dropped; the last one takes the inode with it. *)
Definition hold p (r : Z) t : tree R := set_counts (alter (bag_add r 1) p) t.
Definition drop p (r : Z) t : tree R :=
  match counts t !! p with
  | Some bag =>
      if 1 =? sum bag then set_nodes (delete p) (set_counts (delete p) t)
      else set_counts <[p := bag_add r (-1) bag]> t
  | None => t
  end.

Definition put_entry e q t : tree R := set_entries <[e := (q, NULL)]> t.
Definition del_entry e t : tree R := set_entries (delete e) t.
Definition put_name p (s : string) e q t : tree R :=
  set_nodes (alter (fun n => node_names (<[s := e]> (n_names n)) n) p) (set_entries <[e := (q, p)]> t).
Definition del_name p (s : string) e q t : tree R :=
  set_nodes (alter (fun n => node_names (delete s (n_names n)) n) p) (set_entries <[e := (q, NULL)]> t).
Definition add_link p (d : Z) t : tree R := set_nodes (alter (fun n => node_links (n_links n + d) n) p) t.
Definition set_parent p q t : tree R := set_nodes (alter (node_parent q) p) t.

(** ** Well-formed trees *)

(** The inode whose link count an entry is part of. *)
Definition linked (x : ptr * ptr) : ptr := if decide (x.2 = NULL \/ x.2 = x.1) then NULL else x.1.

Record wf (a b c : ptr -> Z) t : Prop := {
  wf_dom : forall p, is_Some (nodes t !! p) <-> is_Some (counts t !! p);
  wf_null : forall p, is_Some (nodes t !! p) -> p <> NULL;
  wf_bag : forall p bag, counts t !! p = Some bag ->
    length bag = 12%nat /\ Forall (fun x => 0 <= x) bag /\ 0 < sum bag < 2 ^ 32;
  wf_entry : forall e q d, entries t !! e = Some (q, d) -> e <> NULL /\ is_Some (nodes t !! q);
  wf_listed : forall e q d, entries t !! e = Some (q, d) -> d <> NULL ->
    exists n s, nodes t !! d = Some n /\ n_names n !! s = Some e;
  wf_names : forall p n s e, nodes t !! p = Some n -> n_names n !! s = Some e ->
    s <> EmptyString /\ exists q, entries t !! e = Some (q, p);
  wf_once : forall p n s s' e, nodes t !! p = Some n -> n_names n !! s = Some e -> n_names n !! s' = Some e -> s = s';
  wf_leaf : forall p n, nodes t !! p = Some n -> n_type n <> BITBUCKET_DIR_TYPE -> n_names n = ∅ /\ n_parent n = NULL;
  wf_parent : forall p n, nodes t !! p = Some n -> n_parent n = NULL \/ is_Some (nodes t !! n_parent n);
  wf_base : forall p n, nodes t !! p = Some n -> 0 <= n_base n <= 1;
  wf_links : forall p n, nodes t !! p = Some n -> n_links n = n_base n + tally linked (entries t) p + c p;
  wf_dirents : forall p bag, counts t !! p = Some bag -> bag !! 2%nat = Some (tally fst (entries t) p + a p);
  wf_parents : forall p bag, counts t !! p = Some bag -> bag !! 1%nat = Some (tally n_parent (nodes t) p + b p) }.

Definition none : ptr -> Z := fun _ => 0.
Definition plus (f g : ptr -> Z) : ptr -> Z := fun p => f p + g p.
Definition minus (f g : ptr -> Z) : ptr -> Z := fun p => f p - g p.

(** Between operations. *)
Abbreviation sound := (wf none none none).

(** The reference that [hold] and [drop] change, seen as a debt. *)
Definition due (r reason : Z) (p : ptr) : ptr -> Z := if r =? reason then one p else none.

Lemma wf_ext a b c a' b' c' t :
  wf a b c t -> (forall p, p <> NULL -> a' p = a p) -> (forall p, p <> NULL -> b' p = b p) ->
  (forall p, p <> NULL -> c' p = c p) -> wf a' b' c' t.
Proof.
  intros [] Ha Hb Hc. constructor; try done; intros p x Hx; [rewrite Hc by (apply wf_null0; eauto); auto|..].
  - rewrite Ha by (apply wf_null0, wf_dom0; eauto). auto.
  - rewrite Hb by (apply wf_null0, wf_dom0; eauto). auto.
Qed.

Lemma bag_add_length r d bag : length (bag_add r d bag) = length bag.
Proof. apply length_insert. Qed.

Lemma bag_sum r d bag x : bag !! Z.to_nat r = Some x -> sum (bag_add r d bag) = sum bag + d.
Proof. intros Hx. rewrite (bag_add_eq _ _ _ _ Hx), (sum_insert _ _ _ _ Hx). lia. Qed.

Lemma bag_other r d bag k : Z.to_nat r <> k -> bag_add r d bag !! k = bag !! k.
Proof. intros Hk. unfold bag_add. by rewrite list_lookup_insert_ne. Qed.

Lemma bag_this r d bag x : bag !! Z.to_nat r = Some x -> bag_add r d bag !! Z.to_nat r = Some (x + d).
Proof. intros Hx. rewrite (bag_add_eq _ _ _ _ Hx). apply list_lookup_insert_eq. by eapply lookup_lt_Some. Qed.

Lemma bag_lookup a b c t p bag r :
  wf a b c t -> counts t !! p = Some bag -> 0 <= r < 12 -> exists x, bag !! Z.to_nat r = Some x /\ 0 <= x <= sum bag.
Proof.
  intros Hw Hp Hr. destruct (wf_bag _ _ _ _ Hw p bag Hp) as (Hl & Hf & _).
  destruct (lookup_lt_is_Some_2 bag (Z.to_nat r)) as [x Hx]; [lia|]. exists x. split; [done|]. by eapply sum_ge.
Qed.

(** The entries that count as links are among those that hold references. *)
Lemma linked_le (m : gmap ptr (ptr * ptr)) p : p <> NULL -> tally linked m p <= tally fst m p.
Proof.
  intros Hp. induction m as [|e [q d] m He IH] using map_ind; [by rewrite !tally_empty|].
  rewrite !tally_insert by done. unfold one. cbn [fst].
  change (linked (q, d)) with (if decide (d = NULL \/ d = q) then NULL else q).
  destruct (decide (d = NULL \/ d = q)); repeat case_decide; try congruence; lia.
Qed.

(** An entry has one place. *)
Lemma wf_owner a b c t p p' n n' s s' e :
  wf a b c t -> nodes t !! p = Some n -> nodes t !! p' = Some n' -> n_names n !! s = Some e -> n_names n' !! s' = Some e ->
  p = p' /\ s = s'.
Proof.
  intros Hw Hn Hn' Hs Hs'. destruct (wf_names _ _ _ _ Hw p n s e Hn Hs) as [_ [q Hq]].
  destruct (wf_names _ _ _ _ Hw p' n' s' e Hn' Hs') as [_ [q' Hq']]. assert (p = p') as -> by congruence.
  simplify_eq. split; [done|]. by eapply wf_once.
Qed.

Lemma is_Some_alter {V : Type} (m : gmap ptr V) g p q : is_Some (alter g p m !! q) <-> is_Some (m !! q).
Proof. destruct (decide (p = q)) as [->|]; [by rewrite lookup_alter_eq, fmap_is_Some|by rewrite lookup_alter_ne]. Qed.

(** Nodes change without changing what [wf] looks at. *)
Lemma wf_node a b c c' t p g :
  wf a b c t ->
  (forall n, nodes t !! p = Some n -> n_type (g n) = n_type n /\ n_parent (g n) = n_parent n /\ n_names (g n) = n_names n /\
     0 <= n_base (g n) <= 1 /\ n_links (g n) - n_base (g n) = n_links n - n_base n + c' p - c p) ->
  (forall q, q <> p -> c' q = c q) ->
  wf a b c' (set_nodes (alter g p) t).
Proof.
  intros [] Hg Hc.
  assert (forall q n, alter g p (nodes t) !! q = Some n -> exists n', nodes t !! q = Some n' /\ n_type n = n_type n' /\
    n_parent n = n_parent n' /\ n_names n = n_names n' /\ 0 <= n_base n <= 1 /\
    n_links n - n_base n = n_links n' - n_base n' + c' q - c q) as Hinv.
  { intros q n [(-> & n' & Hn & ->)|[Hne Hn]]%lookup_alter_Some.
    - exists n'. split; [done|]. by apply Hg.
    - exists n. rewrite Hc by done. repeat split; try done; try lia; by eapply wf_base0. }
  constructor; cbn; try done.
  - intros q. by rewrite is_Some_alter.
  - intros q. rewrite is_Some_alter. auto.
  - intros e q d He. rewrite is_Some_alter. by eapply wf_entry0.
  - intros e q d He Hd. destruct (wf_listed0 e q d He Hd) as (n & s & Hn & Hs). destruct (decide (p = d)) as [->|Hne].
    + exists (g n), s. rewrite lookup_alter_eq, Hn. split; [done|]. by destruct (Hg n Hn) as (_ & _ & -> & _).
    + exists n, s. by rewrite lookup_alter_ne.
  - intros q n s e (n' & Hn & _ & _ & -> & _)%Hinv. exact (wf_names0 _ _ _ _ Hn).
  - intros q n s s' e (n' & Hn & _ & _ & -> & _)%Hinv. exact (wf_once0 _ _ _ _ _ Hn).
  - intros q n (n' & Hn & -> & -> & -> & _)%Hinv. exact (wf_leaf0 _ _ Hn).
  - intros q n (n' & Hn & _ & -> & _)%Hinv. rewrite is_Some_alter. exact (wf_parent0 _ _ Hn).
  - intros q n (n' & Hn & _ & _ & _ & Hb & _)%Hinv. done.
  - intros q n (n' & Hn & _ & _ & _ & _ & Hl)%Hinv. rewrite (wf_links0 q n' Hn) in Hl. lia.
  - intros q bag Hq. rewrite tally_alter by (intros; by apply Hg). auto.
Qed.

Lemma wf_add_link a b c t p d : wf a b c t -> wf a b (fun q => c q + d * one p q) (add_link p d t).
Proof.
  intros Hw. assert (one p p = 1) as Hone by (unfold one; by rewrite decide_True). apply (wf_node a b c); [done| |].
  - intros n Hn. pose proof (wf_base _ _ _ _ Hw p n Hn). repeat split; cbn; try done; lia.
  - intros q Hq. unfold one. rewrite decide_False by done. lia.
Qed.

Lemma wf_set_mode a b c t p k : wf a b c t -> wf a b c (set_nodes (alter (node_mode k) p) t).
Proof. intros Hw. apply (wf_node a b c); [done| |done]. intros n Hn. pose proof (wf_base _ _ _ _ Hw p n Hn). repeat split; cbn; try done; lia. Qed.

(** The counts of one inode change. *)
Lemma wf_counts a b c a' b' t p bag bag' :
  wf a b c t -> counts t !! p = Some bag -> length bag' = 12%nat -> Forall (fun x => 0 <= x) bag' -> 0 < sum bag' < 2 ^ 32 ->
  bag' !! 2%nat = Some (tally fst (entries t) p + a' p) -> bag' !! 1%nat = Some (tally n_parent (nodes t) p + b' p) ->
  (forall q, q <> p -> a' q = a q /\ b' q = b q) -> wf a' b' c (set_counts <[p := bag']> t).
Proof.
  intros [] Hp Hl Hf Hs H2 H1 Hother. constructor; cbn; try done.
  - intros q. rewrite wf_dom0. destruct (decide (p = q)) as [->|]; [|by rewrite lookup_insert_ne].
    rewrite lookup_insert_eq, Hp. by split; eexists.
  - intros q x [[<- <-]|[Hne Hq]]%lookup_insert_Some; [done|by eapply wf_bag0].
  - intros q x [[<- <-]|[Hne Hq]]%lookup_insert_Some; [done|]. destruct (Hother q) as [-> _]; [done|by eapply wf_dirents0].
  - intros q x [[<- <-]|[Hne Hq]]%lookup_insert_Some; [done|]. destruct (Hother q) as [_ ->]; [done|by eapply wf_parents0].
Qed.

Lemma wf_change a b c t p bag r d x :
  wf a b c t -> counts t !! p = Some bag -> 0 <= r < 12 -> bag !! Z.to_nat r = Some x -> 0 <= x + d -> 0 < sum bag + d < 2 ^ 32 ->
  wf (fun q => a q + d * due r 2 p q) (fun q => b q + d * due r 1 p q) c (set_counts <[p := bag_add r d bag]> t).
Proof.
  intros Hw Hp Hr Hx Hd Hs. destruct (wf_bag _ _ _ _ Hw p bag Hp) as (Hl & Hf & _).
  assert (forall reason q, q <> p -> due r reason p q = 0) as Hz.
  { intros reason q Hne. unfold due, one. destruct (r =? reason); [|done]. by rewrite decide_False. }
  apply (wf_counts a b c _ _ t p bag); try done.
  - by rewrite bag_add_length.
  - rewrite (bag_add_eq _ _ _ _ Hx). by apply Forall_insert.
  - by rewrite (bag_sum _ _ _ _ Hx).
  - pose proof (wf_dirents _ _ _ _ Hw p bag Hp) as H2. unfold due. destruct (Z.eqb_spec r 2) as [->|Hne].
    + change 2%nat with (Z.to_nat 2). rewrite (bag_this 2 d bag _ H2). unfold one. rewrite decide_True by done. f_equal. lia.
    + rewrite bag_other by lia. rewrite H2. f_equal. unfold none. lia.
  - pose proof (wf_parents _ _ _ _ Hw p bag Hp) as H1. unfold due. destruct (Z.eqb_spec r 1) as [->|Hne].
    + change 1%nat with (Z.to_nat 1). rewrite (bag_this 1 d bag _ H1). unfold one. rewrite decide_True by done. f_equal. lia.
    + rewrite bag_other by lia. rewrite H1. f_equal. unfold none. lia.
  - intros q Hq. rewrite !Hz by done. lia.
Qed.

Lemma wf_hold a b c t p r bag :
  wf a b c t -> counts t !! p = Some bag -> 0 <= r < 12 -> sum bag + 1 < 2 ^ 32 ->
  wf (plus a (due r 2 p)) (plus b (due r 1 p)) c (hold p r t).
Proof.
  intros Hw Hp Hr Hb. unfold hold. destruct (bag_lookup a b c t p bag r Hw Hp Hr) as (x & Hx & Hxb).
  destruct (wf_bag _ _ _ _ Hw p bag Hp) as (_ & _ & Hs).
  pose proof (wf_change a b c t p bag r 1 x Hw Hp Hr Hx) as Hc. unfold set_counts in *.
  rewrite (alter_insert_Some _ _ _ _ Hp). eapply wf_ext; [apply Hc; lia|..]; intros q; unfold plus; lia.
Qed.

(** The last reference of an inode that nothing else needs. *)
Lemma wf_gone a b c t p bag n :
  wf a b c t -> counts t !! p = Some bag -> nodes t !! p = Some n -> n_names n = ∅ -> n_parent n = NULL ->
  tally fst (entries t) p <= 0 -> tally n_parent (nodes t) p <= 0 ->
  wf a b c (set_nodes (delete p) (set_counts (delete p) t)).
Proof.
  intros Hw Hp Hn Hnames Hpar He Hc. pose proof Hw as []. constructor; cbn.
  - intros q. destruct (decide (p = q)) as [->|Hne].
    + rewrite !lookup_delete_eq. by split; intros [].
    + by rewrite !lookup_delete_ne.
  - intros q [x Hx]. apply lookup_delete_Some in Hx as [_ Hx]. eauto.
  - intros q x [_ Hq]%lookup_delete_Some. by eapply wf_bag0.
  - intros e q d Hq. destruct (wf_entry0 e q d Hq) as (? & ?). split; [done|].
    rewrite lookup_delete_ne; [done|]. intros ->. by apply (tally_zero fst _ e _ q He Hq).
  - intros e q d Hq Hd. destruct (wf_listed0 e q d Hq Hd) as (x & s & Hx & Hs). exists x, s. split; [|done].
    rewrite lookup_delete_ne; [done|]. intros ->. simplify_eq. by rewrite Hnames in Hs.
  - intros q x s e [_ Hq]%lookup_delete_Some. exact (wf_names0 _ _ _ _ Hq).
  - intros q x s s' e [_ Hq]%lookup_delete_Some. exact (wf_once0 _ _ _ _ _ Hq).
  - intros q x [_ Hq]%lookup_delete_Some. exact (wf_leaf0 _ _ Hq).
  - intros q x [Hne Hq]%lookup_delete_Some. destruct (wf_parent0 q x Hq) as [|Hs]; [by left|right].
    rewrite lookup_delete_ne; [done|]. intros E. by eapply (tally_zero n_parent _ q x p Hc).
  - intros q x [_ Hq]%lookup_delete_Some. exact (wf_base0 _ _ Hq).
  - intros q x [_ Hq]%lookup_delete_Some. exact (wf_links0 _ _ Hq).
  - intros q x [_ Hq]%lookup_delete_Some. exact (wf_dirents0 _ _ Hq).
  - intros q x [Hne Hq]%lookup_delete_Some. rewrite (tally_delete n_parent _ p n) by done. rewrite Hpar.
    unfold one. rewrite decide_False; [rewrite Z.sub_0_r; exact (wf_parents0 _ _ Hq)|].
    intros <-. apply (wf_null0 NULL); [|done]. apply wf_dom0. eauto.
Qed.

(** Of a single reference, the others are none. *)
Lemma single_reference bag r k y :
  Forall (fun x => 0 <= x) bag -> sum bag = 1 -> 1 <= default 0 (bag !! Z.to_nat r) -> bag !! k = Some y ->
  y = if decide (k = Z.to_nat r) then 1 else 0.
Proof.
  intros Hf Hs Hr Hk. destruct (bag !! Z.to_nat r) as [x|] eqn:Hx; cbn in Hr; [|lia].
  pose proof (sum_ge bag _ x Hf Hx). destruct (decide (k = Z.to_nat r)) as [->|Hne]; [simplify_eq; lia|].
  pose proof (sum_insert bag (Z.to_nat r) 0 x Hx) as Hsum.
  assert (Forall (fun z => 0 <= z) (<[Z.to_nat r := 0]> bag)) as Hf' by (by apply Forall_insert).
  pose proof (sum_ge (<[Z.to_nat r := 0]> bag) k y Hf') as Hy. rewrite list_lookup_insert_ne in Hy by done.
  specialize (Hy Hk). lia.
Qed.

Lemma wf_drop a b c t p r bag :
  wf a b c t -> counts t !! p = Some bag -> 0 <= r < 12 -> 1 <= default 0 (bag !! Z.to_nat r) ->
  (forall n, sum bag = 1 -> nodes t !! p = Some n -> n_names n = ∅ /\ n_parent n = NULL) ->
  (forall q, due r 2 p q <= a q) -> (forall q, due r 1 p q <= b q) ->
  wf (minus a (due r 2 p)) (minus b (due r 1 p)) c (drop p r t).
Proof.
  intros Hw Hp Hr Hx Hlast Ha Hb. unfold drop. rewrite Hp.
  destruct (bag_lookup a b c t p bag r Hw Hp Hr) as (x & Hbx & Hbs).
  destruct (wf_bag _ _ _ _ Hw p bag Hp) as (Hl & Hf & Hs).
  pose proof (wf_change a b c t p bag r (-1) x Hw Hp Hr Hbx) as Hc.
  destruct (Z.eqb_spec 1 (sum bag)) as [E|Hne].
  - assert (is_Some (nodes t !! p)) as [n Hn] by (apply (wf_dom _ _ _ _ Hw); eauto).
    destruct (Hlast n) as [Hnames Hpar]; [done|done|].
    pose proof (single_reference bag r 2 _ Hf (eq_sym E) Hx (wf_dirents _ _ _ _ Hw p bag Hp)) as H2.
    pose proof (single_reference bag r 1 _ Hf (eq_sym E) Hx (wf_parents _ _ _ _ Hw p bag Hp)) as H1.
    specialize (Ha p) as Hap. specialize (Hb p) as Hbp. unfold due in Hap, Hbp.
    assert (one p p = 1) as Hone by (unfold one; by rewrite decide_True).
    assert (wf a b c (set_nodes (delete p) (set_counts (delete p) t))) as Hg.
    { apply (wf_gone a b c t p bag n); try done.
      - destruct (Z.eqb_spec r 2) as [->|Hr2]; [by rewrite decide_True in H2; [lia|]|].
        rewrite decide_False in H2 by lia. unfold none in Hap. lia.
      - destruct (Z.eqb_spec r 1) as [->|Hr1]; [by rewrite decide_True in H1; [lia|]|].
        rewrite decide_False in H1 by lia. unfold none in Hbp. lia. }
    destruct Hg. constructor; try done; cbn in *.
    + intros q y Hq. rewrite (wf_dirents0 q y Hq). f_equal. unfold minus, due. apply lookup_delete_Some in Hq as [Hne _].
      destruct (r =? 2); unfold one, none; [rewrite decide_False by done|]; lia.
    + intros q y Hq. rewrite (wf_parents0 q y Hq). f_equal. unfold minus, due. apply lookup_delete_Some in Hq as [Hne _].
      destruct (r =? 1); unfold one, none; [rewrite decide_False by done|]; lia.
  - rewrite Hbx in Hx. cbn in Hx. eapply wf_ext; [apply Hc; lia|..]; intros q; unfold minus; lia.
Qed.

(** ** Entries, names and parents *)

Lemma linked_unlisted q p : one (linked (q, NULL)) p = one NULL p.
Proof. unfold linked. cbn [fst snd]. by rewrite decide_True by auto. Qed.

Lemma one_null a b c t p x : wf a b c t -> nodes t !! p = Some x -> one NULL p = 0.
Proof. intros Hw Hp. unfold one. rewrite decide_False; [done|]. intros <-. eapply (wf_null _ _ _ _ Hw); eauto. Qed.

Lemma wf_put_entry a b c t e q :
  wf a b c t -> entries t !! e = None -> e <> NULL -> is_Some (nodes t !! q) -> wf (minus a (one q)) b c (put_entry e q t).
Proof.
  intros Hw Hf He Hq. pose proof Hw as []. constructor; cbn; try done.
  - intros e' q' d [[<- [= <- <-]]|[Hne Hq']]%lookup_insert_Some; [done|]. by eapply wf_entry0.
  - intros e' q' d [[<- [= <- <-]]|[Hne Hq']]%lookup_insert_Some; [done|]. by eapply wf_listed0.
  - intros p n s e' Hn Hs. destruct (wf_names0 p n s e' Hn Hs) as [? [x Hx]]. split; [done|].
    rewrite lookup_insert_ne by congruence. eauto.
  - intros p n Hn. rewrite tally_insert, linked_unlisted, (one_null a b c t p n) by done. rewrite (wf_links0 p n Hn). lia.
  - intros p bag Hp. rewrite tally_insert by done. rewrite (wf_dirents0 p bag Hp). f_equal. unfold minus. cbn. lia.
Qed.

Lemma wf_del_entry a b c t e q :
  wf a b c t -> entries t !! e = Some (q, NULL) -> wf (plus a (one q)) b c (del_entry e t).
Proof.
  intros Hw He. pose proof Hw as []. constructor; cbn; try done.
  - intros e' q' d [Hne Hq']%lookup_delete_Some. by eapply wf_entry0.
  - intros e' q' d [Hne Hq']%lookup_delete_Some. by eapply wf_listed0.
  - intros p n s e' Hn Hs. destruct (wf_names0 p n s e' Hn Hs) as [? [x Hx]]. split; [done|]. exists x.
    rewrite lookup_delete_ne; [done|]. intros ->. simplify_eq. apply (wf_null0 NULL); eauto.
  - intros p n Hn. rewrite (tally_delete linked _ e (q, NULL)) by done.
    rewrite linked_unlisted, (one_null a b c t p n) by done. rewrite (wf_links0 p n Hn). lia.
  - intros p bag Hp. rewrite (tally_delete fst _ e (q, NULL)) by done. rewrite (wf_dirents0 p bag Hp). f_equal.
    unfold plus. cbn. lia.
Qed.

(** The link that listing an entry of [q] in [p] makes. *)
Definition makes (p q : ptr) : ptr -> Z := if p =? q then none else one q.

Lemma one_linked a b c t p q x n : wf a b c t -> nodes t !! p = Some n -> is_Some (nodes t !! x) -> one (linked (q, p)) x = makes p q x.
Proof.
  intros Hw Hn [y Hy]. unfold linked, makes. cbn [fst snd]. assert (p <> NULL) by (apply (wf_null _ _ _ _ Hw); eauto).
  destruct (Z.eqb_spec p q) as [->|Hne].
  - rewrite decide_True by auto. by eapply one_null.
  - by rewrite decide_False by (intros [?|?]; congruence).
Qed.

Lemma wf_put_name a b c t p n s e q :
  wf a b c t -> nodes t !! p = Some n -> n_type n = BITBUCKET_DIR_TYPE -> s <> EmptyString ->
  entries t !! e = Some (q, NULL) -> n_names n !! s = None -> wf a b (minus c (makes p q)) (put_name p s e q t).
Proof.
  intros Hw Hn Hty Hs He Hfree. pose proof Hw as []. assert (p <> NULL) as Hp by (apply wf_null0; eauto).
  assert (forall x nx s', nodes t !! x = Some nx -> n_names nx !! s' <> Some e) as Hu.
  { intros x nx s' Hx Hs'. destruct (wf_names0 x nx s' e Hx Hs') as (_ & q' & Hq'). simplify_eq. by apply (wf_null0 NULL); eauto. }
  unfold put_name. constructor; cbn; try done.
  - intros x. rewrite is_Some_alter. auto.
  - intros x. rewrite is_Some_alter. auto.
  - intros e' x d. rewrite is_Some_alter. intros [[<- [= <- <-]]|[_ He']]%lookup_insert_Some; by eapply wf_entry0.
  - intros e' x d [[<- [= <- <-]]|[Hne He']]%lookup_insert_Some Hd.
    + exists (node_names (<[s := e]> (n_names n)) n), s. rewrite lookup_alter_eq, Hn. split; [done|]. apply lookup_insert_eq.
    + destruct (wf_listed0 e' x d He' Hd) as (nx & s' & Hx & Hs'). destruct (decide (p = d)) as [->|Hnd].
      * exists (node_names (<[s := e]> (n_names n)) n), s'. rewrite lookup_alter_eq, Hn. split; [done|]. simplify_eq. cbn.
        rewrite lookup_insert_ne; [done|]. intros ->. congruence.
      * exists nx, s'. by rewrite lookup_alter_ne.
  - intros x nx s' e' [(-> & x' & Hx & ->)|[Hne Hx]]%lookup_alter_Some; cbn.
    + intros [[<- <-]|[_ Hs']]%lookup_insert_Some; [split; [done|]; exists q; by rewrite lookup_insert_eq|].
      destruct (wf_names0 _ _ _ _ Hx Hs') as (? & q' & Hq'). split; [done|]. exists q'. rewrite lookup_insert_ne; [done|].
      intros <-. by apply (Hu _ _ _ Hx Hs').
    + intros Hs'. destruct (wf_names0 _ _ _ _ Hx Hs') as (? & q' & Hq'). split; [done|]. exists q'. rewrite lookup_insert_ne; [done|].
      intros <-. by apply (Hu _ _ _ Hx Hs').
  - intros x nx s1 s2 e' [(-> & y & Hy & ->)|[Hne Hy]]%lookup_alter_Some; cbn; [|by eapply wf_once0].
    intros [[<- <-]|[_ H1]]%lookup_insert_Some [[<- E]|[_ H2]]%lookup_insert_Some; try done.
    + by destruct (Hu _ _ _ Hy H2).
    + subst e'. by destruct (Hu _ _ _ Hy H1).
    + exact (wf_once0 _ _ _ _ _ Hy H1 H2).
  - intros x nx [(-> & x' & Hx & ->)|[Hne Hx]]%lookup_alter_Some; [|by eapply wf_leaf0]. cbn. simplify_eq. done.
  - intros x nx [(-> & x' & Hx & ->)|[Hne Hx]]%lookup_alter_Some; rewrite is_Some_alter; exact (wf_parent0 _ _ Hx).
  - intros x nx [(-> & x' & Hx & ->)|[Hne Hx]]%lookup_alter_Some; exact (wf_base0 _ _ Hx).
  - intros x nx Hnx. rewrite (tally_update linked _ e (q, NULL)) by done. rewrite linked_unlisted.
    pose proof (fun y => one_linked a b c t p q y n Hw Hn) as Hlk. apply lookup_alter_Some in Hnx as [(-> & x' & Hx & ->)|[Hne Hx]]; cbn;
      rewrite (one_null a b c t _ _ Hw Hx), Hlk, (wf_links0 _ _ Hx) by eauto; unfold minus; lia.
  - intros x bag Hx. rewrite (tally_update fst _ e (q, NULL)) by done. cbn. rewrite (wf_dirents0 x bag Hx). f_equal. lia.
  - intros x bag Hx. rewrite tally_alter by done. auto.
Qed.

Lemma wf_del_name a b c t p n s e q :
  wf a b c t -> nodes t !! p = Some n -> n_names n !! s = Some e -> entries t !! e = Some (q, p) ->
  wf a b (plus c (makes p q)) (del_name p s e q t).
Proof.
  intros Hw Hn Hs He. pose proof Hw as []. assert (p <> NULL) as Hp by (apply wf_null0; eauto).
  unfold del_name. constructor; cbn; try done.
  - intros x. rewrite is_Some_alter. auto.
  - intros x. rewrite is_Some_alter. auto.
  - intros e' x d. rewrite is_Some_alter. intros [[<- [= <- <-]]|[_ He']]%lookup_insert_Some; by eapply wf_entry0.
  - intros e' x d [[<- [= <- <-]]|[Hne He']]%lookup_insert_Some Hd; [done|].
    destruct (wf_listed0 e' x d He' Hd) as (nx & s' & Hx & Hs'). destruct (decide (p = d)) as [->|Hnd].
    + exists (node_names (delete s (n_names n)) n), s'. rewrite lookup_alter_eq, Hn. split; [done|]. simplify_eq. cbn.
      rewrite lookup_delete_ne; [done|]. intros ->. congruence.
    + exists nx, s'. by rewrite lookup_alter_ne.
  - intros x nx s' e' [(-> & x' & Hx & ->)|[Hne Hx]]%lookup_alter_Some; cbn.
    + intros [Hss Hs']%lookup_delete_Some. destruct (wf_names0 _ _ _ _ Hx Hs') as (? & q' & Hq'). split; [done|]. exists q'.
      rewrite lookup_insert_ne; [done|]. intros <-. simplify_eq. by destruct Hss; eapply wf_once0.
    + intros Hs'. destruct (wf_names0 _ _ _ _ Hx Hs') as (? & q' & Hq'). split; [done|]. exists q'.
      rewrite lookup_insert_ne; [done|]. intros <-. congruence.
  - intros x nx s1 s2 e' [(-> & y & Hy & ->)|[Hne Hy]]%lookup_alter_Some; cbn; [|by eapply wf_once0].
    intros [_ H1]%lookup_delete_Some [_ H2]%lookup_delete_Some. exact (wf_once0 _ _ _ _ _ Hy H1 H2).
  - intros x nx [(-> & x' & Hx & ->)|[Hne Hx]]%lookup_alter_Some; [|by eapply wf_leaf0]. cbn. intros Hty.
    destruct (wf_leaf0 x x' Hx Hty) as [-> ->]. by rewrite delete_empty.
  - intros x nx [(-> & x' & Hx & ->)|[Hne Hx]]%lookup_alter_Some; rewrite is_Some_alter; exact (wf_parent0 _ _ Hx).
  - intros x nx [(-> & x' & Hx & ->)|[Hne Hx]]%lookup_alter_Some; exact (wf_base0 _ _ Hx).
  - intros x nx Hnx. rewrite (tally_update linked _ e (q, p)) by done. rewrite linked_unlisted.
    pose proof (fun y => one_linked a b c t p q y n Hw Hn) as Hlk. apply lookup_alter_Some in Hnx as [(-> & x' & Hx & ->)|[Hne Hx]]; cbn;
      rewrite (one_null a b c t _ _ Hw Hx), Hlk, (wf_links0 _ _ Hx) by eauto; unfold plus; lia.
  - intros x bag Hx. rewrite (tally_update fst _ e (q, p)) by done. cbn. rewrite (wf_dirents0 x bag Hx). f_equal. lia.
  - intros x bag Hx. rewrite tally_alter by done. auto.
Qed.

Lemma wf_set_parent a b c t d n q :
  wf a b c t -> nodes t !! d = Some n -> n_type n = BITBUCKET_DIR_TYPE -> q = NULL \/ is_Some (nodes t !! q) ->
  wf a (fun p => b p + one (n_parent n) p - one q p) c (set_parent d q t).
Proof.
  intros [] Hn Hty Hq. unfold set_parent. constructor; cbn; try done.
  - intros p. rewrite is_Some_alter. auto.
  - intros p. rewrite is_Some_alter. auto.
  - intros e p x He. rewrite is_Some_alter. by eapply wf_entry0.
  - intros e x y He Hy. destruct (wf_listed0 e x y He Hy) as (nx & s & Hx & Hs). destruct (decide (d = y)) as [->|Hne].
    + exists (node_parent q nx), s. by rewrite lookup_alter_eq, Hx.
    + exists nx, s. by rewrite lookup_alter_ne.
  - intros p x s' e' [(-> & x' & Hx & ->)|[Hne Hx]]%lookup_alter_Some; exact (wf_names0 _ _ _ _ Hx).
  - intros p x s1 s2 e' [(-> & x' & Hx & ->)|[Hne Hx]]%lookup_alter_Some; exact (wf_once0 _ _ _ _ _ Hx).
  - intros p x [(-> & x' & Hx & ->)|[Hne Hx]]%lookup_alter_Some; [|by eapply wf_leaf0]. cbn. simplify_eq. done.
  - intros p x [(-> & x' & Hx & ->)|[Hne Hx]]%lookup_alter_Some; rewrite is_Some_alter; [done|exact (wf_parent0 _ _ Hx)].
  - intros p x [(-> & x' & Hx & ->)|[Hne Hx]]%lookup_alter_Some; exact (wf_base0 _ _ Hx).
  - intros p x [(-> & x' & Hx & ->)|[Hne Hx]]%lookup_alter_Some; exact (wf_links0 _ _ Hx).
  - intros p bag Hp. rewrite (alter_insert_Some _ _ _ _ Hn), (tally_update n_parent _ d n) by done. cbn.
    rewrite (wf_parents0 p bag Hp). f_equal. lia.
Qed.

(** ** New inodes *)

Definition put_node p n bag t : tree R := set_nodes <[p := n]> (set_counts <[p := bag]> t).

Lemma tally_none {V : Type} (f : V -> ptr) (m : gmap ptr V) p : (forall k v, m !! k = Some v -> f v <> p) -> tally f m p = 0.
Proof.
  induction m as [|k v m Hk IH] using map_ind; intros Hz; [by rewrite tally_empty|].
  rewrite tally_insert by done. unfold one. rewrite decide_False by (apply (Hz k v), lookup_insert_eq).
  rewrite IH; [lia|]. intros k' v' Hv'. apply (Hz k'). rewrite lookup_insert_ne; [done|]. intros ->. congruence.
Qed.

Lemma wf_put_node t p n bag :
  wf none none none t -> nodes t !! p = None -> p <> NULL -> n_names n = ∅ -> n_parent n = NULL ->
  0 <= n_base n <= 1 -> n_links n = n_base n ->
  length bag = 12%nat -> Forall (fun x => 0 <= x) bag -> 0 < sum bag < 2 ^ 32 ->
  bag !! 2%nat = Some 0 -> bag !! 1%nat = Some 0 -> wf none none none (put_node p n bag t).
Proof.
  intros Hw Hp Hnull Hnames Hpar Hbase Hlinks Hl Hf Hs H2 H1. pose proof Hw as [].
  assert (tally fst (entries t) p = 0) as He.
  { apply tally_none. intros e [q d] Hq E. cbn in E. subst q. destruct (wf_entry0 e p d Hq) as [_ [x Hx]]. congruence. }
  assert (tally linked (entries t) p = 0) as Hli.
  { pose proof (linked_le (entries t) p Hnull). pose proof (tally_nonneg linked (entries t) p). lia. }
  assert (tally n_parent (nodes t) p = 0) as Hc.
  { apply tally_none. intros q x Hq E. destruct (wf_parent0 q x Hq) as [|[y Hy]]; congruence. }
  assert (forall q, is_Some (nodes t !! q) -> is_Some (<[p := n]> (nodes t) !! q)) as Hmono.
  { intros q [x Hx]. destruct (decide (p = q)) as [->|]; [rewrite lookup_insert_eq; eauto|rewrite lookup_insert_ne by done; eauto]. }
  constructor; cbn.
  - intros q. destruct (decide (p = q)) as [->|]; [rewrite !lookup_insert_eq; split; eauto|by rewrite !lookup_insert_ne].
  - intros q [x [[<- _]|[_ Hx]]%lookup_insert_Some]; eauto.
  - intros q x [[<- <-]|[_ Hx]]%lookup_insert_Some; [done|by eapply wf_bag0].
  - intros e q d Hq. destruct (wf_entry0 e q d Hq). auto.
  - intros e q d Hq Hd. destruct (wf_listed0 e q d Hq Hd) as (x & s & Hx & Hs'). exists x, s.
    rewrite lookup_insert_ne by congruence. done.
  - intros q x s e [[<- <-]|[_ Hx]]%lookup_insert_Some; [by rewrite Hnames, lookup_empty|exact (wf_names0 _ _ _ _ Hx)].
  - intros q x s s' e [[<- <-]|[_ Hx]]%lookup_insert_Some; [by rewrite Hnames, lookup_empty|exact (wf_once0 _ _ _ _ _ Hx)].
  - intros q x [[<- <-]|[_ Hx]]%lookup_insert_Some; [done|exact (wf_leaf0 _ _ Hx)].
  - intros q x [[<- <-]|[_ Hx]]%lookup_insert_Some; [by left|]. destruct (wf_parent0 q x Hx); auto.
  - intros q x [[<- <-]|[_ Hx]]%lookup_insert_Some; [done|exact (wf_base0 _ _ Hx)].
  - intros q x [[<- <-]|[_ Hx]]%lookup_insert_Some; [rewrite Hlinks, Hli; unfold none; lia|exact (wf_links0 _ _ Hx)].
  - intros q x [[<- <-]|[_ Hx]]%lookup_insert_Some; [by rewrite He|exact (wf_dirents0 _ _ Hx)].
  - assert (forall q, q <> NULL -> one NULL q = 0) as Hone by (intros q Hq; unfold one; by rewrite decide_False).
    intros q x [[<- <-]|[Hne Hx]]%lookup_insert_Some.
    + rewrite tally_insert, Hc, Hpar, Hone by done. by rewrite H1.
    + rewrite tally_insert, Hpar, Hone by (done || (apply wf_null0, wf_dom0; eauto)).
      rewrite Z.add_0_r. exact (wf_parents0 _ _ Hx).
Qed.

Lemma wf_set_base a b c t p n k :
  wf a b c t -> nodes t !! p = Some n -> tally linked (entries t) p + c p = 0 -> 0 <= k <= 1 ->
  wf a b c (set_nodes (alter (node_base k) p) t).
Proof.
  intros Hw Hn Hz Hk. apply (wf_node a b c); [done| |done]. intros n' Hn'. simplify_eq.
  pose proof (wf_links _ _ _ _ Hw p n Hn). repeat split; cbn; try done; lia.
Qed.

(** ** What the operations of dir.c do *)

(** The entry [e] of the directory [p] names [q] [s]. *)
Definition link p q (s : string) e t : tree R :=
  let t1 := put_name p s e q (put_entry e q (hold q INODE_DIRENT_REFERENCE t)) in
  if p =? q then t1 else add_link q 1 t1.

(** An entry that no directory lists: what a refused insertion leaves. *)
Definition leak q e t : tree R := put_entry e q (hold q INODE_DIRENT_REFERENCE t).

(** The entry is no longer in its directory. *)
Definition unlist p (s : string) e q t : tree R :=
  let t1 := del_name p s e q t in if p =? q then t1 else add_link q (-1) t1.

(** The entry is freed, and its reference dropped. *)
Definition discard e q t : tree R := drop q INODE_DIRENT_REFERENCE (del_entry e t).

(** A directory gets a parent, or loses it. *)
Definition adopt d p t : tree R := set_parent d p (hold p INODE_PARENT_REFERENCE t).
Definition orphan d p t : tree R := drop p INODE_PARENT_REFERENCE (set_parent d NULL t).

(** [malloc] returned an address that is not in use. *)
Definition fresh_entry e t : Prop := e <> NULL /\ entries t !! e = None.

Lemma fresh_unlisted a b c t e p n s :
  wf a b c t -> entries t !! e = None -> nodes t !! p = Some n -> n_names n !! s <> Some e.
Proof. intros Hw He Hn Hs. destruct (wf_names _ _ _ _ Hw p n s e Hn Hs) as [_ [q Hq]]. congruence. Qed.

Lemma wf_links_range t p n : sound t -> nodes t !! p = Some n -> 0 <= n_links n < 2 ^ 33.
Proof.
  intros Hw Hn. assert (is_Some (counts t !! p)) as [bag Hb] by (apply (wf_dom _ _ _ _ Hw); eauto).
  pose proof (wf_base _ _ _ _ Hw p n Hn). pose proof (wf_links _ _ _ _ Hw p n Hn) as Hl.
  pose proof (linked_le (entries t) p (wf_null _ _ _ _ Hw p ltac:(eauto))). pose proof (tally_nonneg linked (entries t) p).
  pose proof (wf_dirents _ _ _ _ Hw p bag Hb) as Hd. destruct (wf_bag _ _ _ _ Hw p bag Hb) as (_ & Hf & Hs).
  pose proof (sum_ge bag _ _ Hf Hd). unfold none in *. lia.
Qed.

(** A listed entry of another directory is a link. *)
Lemma wf_links_pos t p q e n : sound t -> nodes t !! q = Some n -> entries t !! e = Some (q, p) -> p <> NULL -> p <> q -> 0 < n_links n.
Proof.
  intros Hw Hn He Hp Hne. pose proof (wf_links _ _ _ _ Hw q n Hn) as Hl. pose proof (wf_base _ _ _ _ Hw q n Hn).
  pose proof (tally_pos linked _ e _ He) as Ht. unfold linked in Ht at 2. cbn [fst snd] in Ht.
  rewrite decide_False in Ht by (intros [?|?]; congruence). unfold none in *. lia.
Qed.

Lemma wf_leak t q e bag :
  sound t -> counts t !! q = Some bag -> sum bag + 1 < 2 ^ 32 -> fresh_entry e t -> sound (leak q e t).
Proof.
  intros Hw Hq Hb [He Hf]. pose proof (wf_hold none none none t q INODE_DIRENT_REFERENCE bag Hw Hq ltac:(done) Hb) as H1.
  eapply wf_ext; [apply (wf_put_entry _ _ _ _ e q H1); [done|done|]|..]; try done.
  - apply (wf_dom _ _ _ _ Hw). eauto.
  - intros x Hx. unfold minus, plus, none. change (due INODE_DIRENT_REFERENCE 2 q) with (one q). lia.
Qed.

Lemma wf_link t p q s e n bag :
  sound t -> nodes t !! p = Some n -> n_type n = BITBUCKET_DIR_TYPE -> counts t !! q = Some bag -> sum bag + 1 < 2 ^ 32 ->
  fresh_entry e t -> s <> EmptyString -> n_names n !! s = None -> sound (link p q s e t).
Proof.
  intros Hw Hn Hty Hq Hb Hfe Hs Hfree. pose proof (wf_leak t q e bag Hw Hq Hb Hfe) as H1. unfold leak in H1.
  pose proof (wf_put_name _ _ _ _ p n s e q H1 Hn Hty Hs ltac:(apply lookup_insert_eq) Hfree) as H2.
  unfold link, makes in *. destruct (p =? q).
  - eapply wf_ext; [exact H2|..]; intros x _; unfold minus, none; lia.
  - eapply wf_ext; [apply (wf_add_link _ _ _ _ q 1 H2)|..]; intros x _; unfold minus, none; lia.
Qed.

Lemma wf_unlist t p s e q n :
  sound t -> nodes t !! p = Some n -> n_names n !! s = Some e -> entries t !! e = Some (q, p) -> sound (unlist p s e q t).
Proof.
  intros Hw Hn Hs He. pose proof (wf_del_name _ _ _ _ p n s e q Hw Hn Hs He) as H1. unfold unlist, makes in *. destruct (p =? q).
  - eapply wf_ext; [exact H1|..]; intros x _; unfold plus, none; lia.
  - eapply wf_ext; [apply (wf_add_link _ _ _ _ q (-1) H1)|..]; intros x _; unfold plus, none; lia.
Qed.

Lemma wf_discard t e q bag :
  sound t -> entries t !! e = Some (q, NULL) -> counts t !! q = Some bag ->
  (forall n, sum bag = 1 -> nodes t !! q = Some n -> n_names n = ∅ /\ n_parent n = NULL) -> sound (discard e q t).
Proof.
  intros Hw He Hq Hlast. pose proof (wf_del_entry _ _ _ _ e q Hw He) as H1.
  assert (wf (minus (plus none (one q)) (one q)) (minus none none) none (drop q INODE_DIRENT_REFERENCE (del_entry e t))) as H2.
  { apply (wf_drop _ _ _ _ q INODE_DIRENT_REFERENCE bag H1); try done.
    change (Z.to_nat INODE_DIRENT_REFERENCE) with 2%nat. rewrite (wf_dirents _ _ _ _ Hw q bag Hq). cbn.
    pose proof (tally_pos fst _ e _ He) as Ht. cbn in Ht. unfold none. lia. }
  eapply wf_ext; [exact H2|..]; intros x _; unfold minus, plus, none; lia.
Qed.

Lemma wf_adopt t d p n bag :
  sound t -> nodes t !! d = Some n -> n_type n = BITBUCKET_DIR_TYPE -> n_parent n = NULL -> counts t !! p = Some bag ->
  sum bag + 1 < 2 ^ 32 -> sound (adopt d p t).
Proof.
  intros Hw Hn Hty Hpar Hp Hb. pose proof (wf_hold none none none t p INODE_PARENT_REFERENCE bag Hw Hp ltac:(done) Hb) as H1.
  eapply wf_ext; [apply (wf_set_parent _ _ _ _ d n p H1 Hn Hty); right; apply (wf_dom _ _ _ _ Hw); eauto|..]; try done.
  intros x Hx. rewrite Hpar. unfold plus, none. change (due INODE_PARENT_REFERENCE 1 p) with (one p).
  unfold one at 2. rewrite decide_False by done. lia.
Qed.

Lemma wf_orphan t d p n bag :
  sound t -> nodes t !! d = Some n -> n_type n = BITBUCKET_DIR_TYPE -> n_parent n = p -> counts t !! p = Some bag ->
  (forall n, sum bag = 1 -> nodes (set_parent d NULL t) !! p = Some n -> n_names n = ∅ /\ n_parent n = NULL) -> sound (orphan d p t).
Proof.
  intros Hw Hn Hty Hpar Hp Hlast. pose proof (wf_set_parent _ _ _ _ d n NULL Hw Hn Hty ltac:(by left)) as H1.
  assert (forall x, 0 <= one p x) as Hone by (intros x; unfold one; case_decide; lia).
  assert (wf none (one p) none (set_parent d NULL t)) as H2.
  { eapply wf_ext; [exact H1|..]; try done. intros x Hx. rewrite Hpar. unfold none. unfold one at 3. rewrite decide_False by done. lia. }
  assert (wf (minus none none) (minus (one p) (one p)) none (drop p INODE_PARENT_REFERENCE (set_parent d NULL t))) as H3.
  { apply (wf_drop _ _ _ _ p INODE_PARENT_REFERENCE bag H2); try done.
    change (Z.to_nat INODE_PARENT_REFERENCE) with 1%nat. rewrite (wf_parents _ _ _ _ Hw p bag Hp). cbn.
    pose proof (tally_pos n_parent _ d _ Hn) as Ht. rewrite Hpar in Ht. unfold none. lia. }
  eapply wf_ext; [exact H3|..]; intros x _; unfold minus, none; lia.
Qed.
End Tree.

Abbreviation sound := (wf none none none).
