(* ===== verification/Directory.v ===== *)
(** Directories: src/finesse/bitbucket/dir.c.

    A directory is an inode whose entries are found by name through a trie
    and, in the order of their insertion (the newest first), through a list.
    Each entry holds a reference on the inode it names, a directory holds one
    on its parent, and the link count of an inode is incremented by each
    entry of another directory.

    The addresses [malloc] returns are arguments.  A name is a C string: a
    string without a NUL character.  The retry loop of
    [RemoveDirEntryFromDirectory] gets fuel; one thread goes through it once,
    or waits for itself. *)

From stdpp Require Import gmap list strings.
From S2P Require Import Prelude NameIndex Trie Object Xattr Inode InodeRules BitbucketData.

Open Scope word_scope.

Section Code.
Context {T : Type -> Type} `{NameIndex T} {R : Type} `{!Storage R}.
#[local] Notation world := (world T (instance T) (dir_state R) kind).
#[local] Notation MW := (M world).

(** ** Entries *)

Definition load_dirent (e : ptr) : MW dir_entry :=
  m ← gets (fun w => dirents (extra w)); deref (m !! e).
Definition store_dirent (e : ptr) (x : dir_entry) : MW unit :=
  modify_state (set_extra (with_dirents <[e := x]>)).
Definition free_dirent (e : ptr) : MW unit :=
  _ ← load_dirent e; modify_state (set_extra (with_dirents (delete e))).
Definition with_de_inode (p : ptr) (x : dir_entry) : dir_entry :=
  {| de_Magic := de_Magic x; de_Inode := p; de_Offset := de_Offset x; de_Name := de_Name x |}.
Definition with_de_offset (n : Z) (x : dir_entry) : dir_entry :=
  {| de_Magic := de_Magic x; de_Inode := de_Inode x; de_Offset := n; de_Name := de_Name x |}.
Definition update_dirent (e : ptr) (f : dir_entry -> dir_entry) : MW unit :=
  x ← load_dirent e; store_dirent e (f x).

Definition with_parent (p : ptr) (d : bitbucket_dir T) : bitbucket_dir T :=
  {| d_Magic := d_Magic d; Parent := p; DirEntries := DirEntries d; Children := Children d |}.
Definition with_entries (l : list ptr) (d : bitbucket_dir T) : bitbucket_dir T :=
  {| d_Magic := d_Magic d; Parent := Parent d; DirEntries := l; Children := Children d |}.
Definition with_children (o : option (T ptr)) (d : bitbucket_dir T) : bitbucket_dir T :=
  {| d_Magic := d_Magic d; Parent := Parent d; DirEntries := DirEntries d; Children := o |}.

(** ** The optional consistency check *)

Fixpoint verify_entries (l : list ptr) : MW unit :=
  match l with
  | [] => mret ()
  | e :: l => x ← load_dirent e; c_assert (de_Magic x =? BITBUCKET_DIR_ENTRY_MAGIC);; verify_entries l
  end.

Definition VerifyDirectoryEntriesInternal (p : ptr) : MW unit :=
  CHECK_INODE_MAGIC p;;
  CHECK_TYPE BITBUCKET_DIR_TYPE p;;
  CHECK_INSTANCE_MAGIC BITBUCKET_DIR_MAGIC p;;
  BitbucketLockInode p false;;
  d ← load_dir p;
  verify_entries (DirEntries d);;
  BitbucketUnlockInode p.

Definition VerifyDirectoryEntries (p : ptr) : MW unit :=
  enabled ← gets (fun w => VerifyDirectoriesEnabled (extra w));
  if (enabled : bool) then VerifyDirectoryEntriesInternal p else mret ().

(** ** Insertion and lookup *)

(** The body of the loop of an insertion, with the inodes locked. *)
Definition insert_locked (DirInode Inode : ptr) (Name : string) (newentry : ptr) : MW Z :=
  i ← load_inode DirInode;
  update_dirent newentry (with_de_offset (Epoch i));;
  d ← load_dir DirInode;
  let children := default ni_create (Children d) in
  update_dir DirInode (with_children (Some children));;
  match ni_search (Some children) Name with
  | Some _ => mret EEXIST
  | None =>
      update_dir DirInode (with_children (Some (ni_insert children Name (Some newentry))));;
      update_dir DirInode (fun d => with_entries (newentry :: DirEntries d) d);;
      (if Inode =? DirInode then mret () else update_inode Inode (fun i => with_nlink (u64 (st_nlink i + 1)) i));;
      mret 0
  end.

Definition BitbucketInsertDirectoryEntry (DirInode Inode : ptr) (Name : string) (newentry : ptr) : MW Z :=
  c_assert (negb (DirInode =? NULL));;
  c_assert (negb (Inode =? NULL));;
  CHECK_TYPE BITBUCKET_DIR_TYPE DirInode;;
  CHECK_INSTANCE_MAGIC BITBUCKET_DIR_MAGIC DirInode;;
  let name_length := Z.of_nat (String.length Name) + 1 in
  c_assert (1 <? name_length);;
  c_assert (name_length <? MAX_FILE_NAME_SIZE);;
  c_assert (negb (newentry =? NULL));;
  store_dirent newentry {| de_Magic := BITBUCKET_DIR_ENTRY_MAGIC; de_Inode := Inode; de_Offset := 0; de_Name := Name |};;
  BitbucketReferenceInode Inode INODE_DIRENT_REFERENCE;;
  (if DirInode =? Inode then BitbucketLockInode DirInode true else BitbucketLockTwoInodes DirInode Inode true);;
  status ← insert_locked DirInode Inode Name newentry;
  (if DirInode =? Inode then BitbucketUnlockInode DirInode
   else BitbucketUnlockInode DirInode;; BitbucketUnlockInode Inode);;
  mret status.

(** The object an entry names, with a reference of its own. *)
Definition entry_object (dirent : option ptr) : MW ptr :=
  match dirent with
  | Some e => x ← load_dirent e; BitbucketReferenceInode (de_Inode x) INODE_LOOKUP_REFERENCE;; mret (de_Inode x)
  | None => mret NULL
  end.

(** The object that is found, or NULL. *)
Definition BitbucketLookupObjectInDirectory (Inode : ptr) (Name : string) : MW ptr :=
  c_assert (negb (Inode =? NULL));;
  CHECK_TYPE BITBUCKET_DIR_TYPE Inode;;
  CHECK_INSTANCE_MAGIC BITBUCKET_DIR_MAGIC Inode;;
  d ← load_dir Inode;
  match Children d with
  | None => mret NULL
  | Some _ =>
      BitbucketLockInode Inode false;;
      d ← load_dir Inode;
      Object ← entry_object (ni_search (Children d) Name);
      BitbucketUnlockInode Inode;;
      VerifyDirectoryEntries Inode;;
      mret Object
  end.

(** ** Creation *)

Definition BitbucketCreateDirectory (Pdir : ptr) (DirName : string) (epoch : Z) (newobj e1 e2 e3 : ptr) : MW ptr :=
  c_assert (negb (Pdir =? NULL));;
  CHECK_INODE_MAGIC Pdir;;
  CHECK_TYPE BITBUCKET_DIR_TYPE Pdir;;
  CHECK_INSTANCE_MAGIC BITBUCKET_DIR_MAGIC Pdir;;
  i ← load_inode Pdir;
  c_assert (Table i);;
  newdir ← BitbucketCreateInode (Some DirectoryObjectAttributes) 0 epoch newobj;
  c_assert (negb (newdir =? NULL));;
  CHECK_INODE_MAGIC newdir;;
  CHECK_TYPE BITBUCKET_DIR_TYPE newdir;;
  CHECK_INSTANCE_MAGIC BITBUCKET_DIR_MAGIC newdir;;
  c_assert (negb (Pdir =? newdir));;
  update_dir newdir (with_parent Pdir);;
  BitbucketReferenceInode Pdir INODE_PARENT_REFERENCE;;
  status ← BitbucketInsertDirectoryEntry newdir newdir "." e1;
  c_assert (status =? 0);;
  status ← BitbucketInsertDirectoryEntry newdir Pdir ".." e2;
  c_assert (status =? 0);;
  status ← BitbucketInsertDirectoryEntry Pdir newdir DirName e3;
  c_assert (status =? 0);;
  refcount ← BitbucketGetInodeReferenceCount newdir;
  c_assert (refcount =? 3);;
  VerifyDirectoryEntries newdir;;
  mret newdir.

Definition BitbucketCreateRootDirectory (epoch : Z) (newobj e1 e2 : ptr) : MW ptr :=
  inode ← BitbucketCreateInode (Some DirectoryObjectAttributes) 0 epoch newobj;
  c_assert (negb (inode =? NULL));;
  CHECK_INODE_MAGIC inode;;
  CHECK_TYPE BITBUCKET_DIR_TYPE inode;;
  CHECK_INSTANCE_MAGIC BITBUCKET_DIR_MAGIC inode;;
  refcount ← BitbucketGetInodeReferenceCount inode;
  c_assert (refcount =? 1);;
  update_dir inode (with_parent inode);;
  BitbucketReferenceInode inode INODE_PARENT_REFERENCE;;
  refcount ← BitbucketGetInodeReferenceCount inode;
  c_assert (refcount =? 2);;
  status ← BitbucketInsertDirectoryEntry inode inode "." e1;
  c_assert (status =? 0);;
  refcount ← BitbucketGetInodeReferenceCount inode;
  c_assert (refcount =? 3);;
  status ← BitbucketInsertDirectoryEntry inode inode ".." e2;
  c_assert (status =? 0);;
  refcount ← BitbucketGetInodeReferenceCount inode;
  c_assert (refcount =? 4);;
  mret inode.

(** ** Removal *)

(** The loop that finds the entry and locks the inode it names; it answers
    the entry, or NULL, and the inode that is locked, or NULL. *)
Fixpoint find_and_lock (fuel : nat) (Inode : ptr) (Name : string) (de_inode : ptr) : MW (ptr * ptr) :=
  match fuel with
  | O => mthrow OutOfFuel
  | S fuel =>
      d ← load_dir Inode;
      match ni_search (Children d) Name with
      | None => mret (NULL, de_inode)
      | Some dirent =>
          x ← load_dirent dirent;
          if negb (de_Inode x =? de_inode) && negb (de_Inode x =? Inode) then
            (if de_inode =? NULL then mret ()
             else BitbucketUnlockInode de_inode;; BitbucketDereferenceInode de_inode INODE_REMOVE_DIRENT_REFERENCE 1);;
            BitbucketReferenceInode (de_Inode x) INODE_REMOVE_DIRENT_REFERENCE;;
            status ← BitbucketTryLockInode (de_Inode x) true;
            if status =? 0 then mret (dirent, de_Inode x)
            else
              BitbucketUnlockInode Inode;;
              BitbucketLockTwoInodes Inode (de_Inode x) true;;
              find_and_lock fuel Inode Name (de_Inode x)
          else mret (dirent, de_inode)
      end
  end.

(** The end of the loop: the entry leaves the list and the trie. *)
Definition take_out (Inode : ptr) (Name : string) (dirent de_inode : ptr) : MW unit :=
  x ← load_dirent dirent;
  c_assert (negb (Inode =? de_Inode x) || (de_inode =? NULL));;
  d ← load_dir Inode;
  l ← deref (unlink dirent (DirEntries d));
  update_dir Inode (with_entries l);;
  d ← load_dir Inode;
  '(children, _) ← lift_outcome (ni_delete (Children d) Name);
  update_dir Inode (with_children children);;
  if de_inode =? NULL then mret ()
  else
    i ← load_inode (de_Inode x);
    c_assert (0 <? st_nlink i);;
    update_inode (de_Inode x) (fun i => with_nlink (st_nlink i - 1) i).

Definition RemoveDirEntryFromDirectory (Inode : ptr) (Name : string) : MW ptr :=
  CHECK_TYPE BITBUCKET_DIR_TYPE Inode;;
  BitbucketLockInode Inode true;;
  '(dirent, de_inode) ← find_and_lock 2 Inode Name NULL;
  (if dirent =? NULL then mret () else take_out Inode Name dirent de_inode);;
  (if de_inode =? NULL then mret ()
   else BitbucketUnlockInode de_inode;; BitbucketDereferenceInode de_inode INODE_REMOVE_DIRENT_REFERENCE 1);;
  d ← load_dir Inode;
  c_assert ((dirent =? NULL) || negb (bool_decide (dirent ∈ DirEntries d)));;
  BitbucketUnlockInode Inode;;
  mret dirent.

(** Where a directory is unlinked from its parent, it stops naming it. *)
Definition unlink_parent (Pdir child : ptr) : MW unit :=
  de ← RemoveDirEntryFromDirectory child "..";
  if de =? NULL then mret ()
  else
    x ← load_dirent de;
    c_assert (de_Inode x =? Pdir);;
    d ← load_dir child;
    c_assert (Parent d =? Pdir);;
    BitbucketDereferenceInode (de_Inode x) INODE_DIRENT_REFERENCE 1;;
    update_dirent de (with_de_inode NULL);;
    d ← load_dir child;
    BitbucketDereferenceInode (Parent d) INODE_PARENT_REFERENCE 1;;
    update_dir child (with_parent NULL);;
    free_dirent de.

(** Without an entry the code follows a NULL pointer in an assertion. *)
Definition BitbucketDeleteDirectoryEntry (Pdir : ptr) (Name : string) : MW Z :=
  c_assert (negb (Pdir =? NULL));;
  c_assert (0 <? Z.of_nat (String.length Name));;
  CHECK_INODE_MAGIC Pdir;;
  CHECK_TYPE BITBUCKET_DIR_TYPE Pdir;;
  CHECK_INSTANCE_MAGIC BITBUCKET_DIR_MAGIC Pdir;;
  VerifyDirectoryEntries Pdir;;
  inode ← BitbucketLookupObjectInDirectory Pdir Name;
  status ← (if inode =? NULL then mret ENOENT
    else
      dirent ← RemoveDirEntryFromDirectory Pdir Name;
      if dirent =? NULL then mthrow BadPointer
      else
        x ← load_dirent dirent;
        i ← load_inode (de_Inode x);
        (if InodeType i =? BITBUCKET_DIR_TYPE then unlink_parent Pdir (de_Inode x) else mret ());;
        BitbucketDereferenceInode inode INODE_LOOKUP_REFERENCE 1;;
        d ← load_dir Pdir;
        c_assert (negb (bool_decide (dirent ∈ DirEntries d)));;
        x ← load_dirent dirent;
        BitbucketDereferenceInode (de_Inode x) INODE_DIRENT_REFERENCE 1;;
        update_dirent dirent (with_de_inode NULL);;
        free_dirent dirent;;
        mret 0);
  VerifyDirectoryEntries Pdir;;
  mret status.

Definition BitbucketDirectoryEntryCount (Inode : ptr) : MW Z :=
  c_assert (negb (Inode =? NULL));;
  BitbucketLockInode Inode false;;
  d ← load_dir Inode;
  BitbucketUnlockInode Inode;;
  mret (u64 (Z.of_nat (length (DirEntries d)))).

Definition BitbucketDeleteDirectory (Inode : ptr) : MW Z :=
  c_assert (negb (Inode =? NULL));;
  CHECK_INODE_MAGIC Inode;;
  CHECK_TYPE BITBUCKET_DIR_TYPE Inode;;
  CHECK_INSTANCE_MAGIC BITBUCKET_DIR_MAGIC Inode;;
  d ← load_dir Inode;
  status ← (if negb (Parent d =? NULL) then mret EINVAL
    else match DirEntries d with
         | [] | [_] => BitbucketDeleteDirectoryEntry Inode "."
         | _ => mret ENOTEMPTY
         end);
  (if status =? 0 then refcount ← BitbucketGetInodeReferenceCount Inode; c_assert (1 <=? refcount) else mret ());;
  mret status.

Definition BitbucketDeleteRootDirectory (RootDirectory : ptr) : MW unit :=
  CHECK_INODE_MAGIC RootDirectory;;
  CHECK_TYPE BITBUCKET_DIR_TYPE RootDirectory;;
  BitbucketReferenceInode RootDirectory INODE_LOOKUP_REFERENCE;;
  d ← load_dir RootDirectory;
  c_assert (negb (Parent d =? NULL));;
  BitbucketDereferenceInode (Parent d) INODE_PARENT_REFERENCE 1;;
  update_dir RootDirectory (with_parent NULL);;
  status ← BitbucketDeleteDirectoryEntry RootDirectory "..";
  c_assert (status =? 0);;
  status ← BitbucketDeleteDirectory RootDirectory;
  c_assert (status =? 0);;
  refcount ← BitbucketGetInodeReferenceCount RootDirectory;
  c_assert (1 <=? refcount);;
  BitbucketDereferenceInode RootDirectory INODE_LOOKUP_REFERENCE 1.

(** The entries that were found trade their inodes; the references the
    entries hold go with them. *)
Definition exchange_entries (de1 de2 : option ptr) : MW Z :=
  match de1, de2 with
  | Some e, Some e' =>
      x ← load_dirent e;
      x' ← load_dirent e';
      update_dirent e (with_de_inode (de_Inode x'));;
      update_dirent e' (with_de_inode (de_Inode x));;
      mret 0
  | _, _ => mret ENOENT
  end.

Definition BitbucketExchangeObjectsInDirectory (old_parent new_parent : ptr) (name newname : string) : MW Z :=
  c_assert (negb (old_parent =? NULL));;
  c_assert (negb (new_parent =? NULL));;
  BitbucketLockTwoInodes old_parent new_parent true;;
  od ← load_dir old_parent;
  nd ← load_dir new_parent;
  status ← exchange_entries (ni_search (Children od) name) (ni_search (Children nd) newname);
  BitbucketUnlockInode new_parent;;
  BitbucketUnlockInode old_parent;;
  mret status.
End Code.
