(* ===== verification/DirectoryRules.v ===== *)
(** dir.c implements trees: each of its operations, run in a file system that
    shows a well-formed tree (Tree.v), has every assertion true, answers what
    the tree says and leaves a file system that shows the updated tree.

    [shows v t] relates the two: the names of a directory are those its trie
    finds and its list holds, the entries and references are the same, and no
    inode is locked.  [does m t r t'] is the specification of an operation;
    specifications compose ([does_bind]), so that the operations of Files.v
    and Handlers.v are verified from those of this file. *)

From stdpp Require Import gmap list strings.
From S2P Require Import Prelude NameIndex Trie Object Xattr Inode InodeRules BitbucketData Directory Tree.

Open Scope word_scope.

Section Rules.
Context {T : Type -> Type} `{NameIndex T} {R : Type} `{!Storage R}.
#[local] Notation world := (world T (instance T) (dir_state R) kind).
#[local] Notation MW := (M world).
#[local] Notation view := (view T (instance T) (dir_state R) kind).
#[local] Notation inode := (inode T (instance T) kind).
#[local] Notation tree := (tree R).

Implicit Types (v : view) (t : tree) (i : inode) (n : node) (p q e : ptr).

(** ** Rules for the primitives of dir.c *)

Section Primitives.
Context (p : ptr) (i : inode) (v : view) (Hi : inos v !! p = Some i).

Lemma runs_check_inode : Magic (ea i) = BITBUCKET_INODE_MAGIC -> runs (CHECK_INODE_MAGIC p) v tt v.
Proof. intros Hm. step_with ltac:(by apply runs_load). apply runs_assert. by rewrite Hm. Qed.

Lemma runs_check_type type : InodeType i = type -> runs (CHECK_TYPE type p) v tt v.
Proof. intros <-. step_with ltac:(by apply runs_load). apply runs_assert, Z.eqb_refl. Qed.

Lemma runs_check_instance magic : instance_magic (Instance i) = magic -> runs (CHECK_INSTANCE_MAGIC magic p) v tt v.
Proof. intros <-. step_with ltac:(by apply runs_load). apply runs_assert, Z.eqb_refl. Qed.

Lemma runs_load_dir d : Instance i = Directory d -> runs (load_dir p) v d v.
Proof. intros Hd. step_with ltac:(by apply runs_load). rewrite Hd. apply runs_ret. Qed.

Lemma runs_update_dir d f :
  Instance i = Directory d -> runs (update_dir p f) v tt (set_inos <[p := with_data (Directory (f d)) i]> v).
Proof.
  intros Hd. step_with ltac:(by apply runs_load_dir). apply runs_update; [done|by constructor].
Qed.
End Primitives.

Lemma runs_load_dirent e x (v : view) : dirents (ext v) !! e = Some x -> runs (load_dirent e) v x v.
Proof. intros Hx. step_with ltac:(apply (runs_extra dirents)). rewrite Hx. apply runs_ret. Qed.

Definition set_dirents (f : gmap ptr dir_entry -> gmap ptr dir_entry) (v : view) : view :=
  set_ext (with_dirents f (ext v)) v.

Lemma runs_store_dirent e x (v : view) : runs (store_dirent e x) v tt (set_dirents <[e := x]> v).
Proof. apply runs_set_extra. Qed.

Lemma runs_update_dirent e x f (v : view) :
  dirents (ext v) !! e = Some x -> runs (update_dirent e f) v tt (set_dirents <[e := f x]> v).
Proof. intros Hx. step_with ltac:(by apply runs_load_dirent). apply runs_store_dirent. Qed.

Lemma runs_free_dirent e x (v : view) : dirents (ext v) !! e = Some x -> runs (free_dirent e) v tt (set_dirents (delete e) v).
Proof. intros Hx. step_with ltac:(by apply runs_load_dirent). apply runs_set_extra. Qed.

Lemma runs_lift_outcome {A} (m : outcome A) a (v : view) : m = Done a -> runs (lift_outcome m : MW A) v a v.
Proof. intros -> w Hw. by exists w. Qed.

(** ** The tree a file system shows *)

Definition as_mapping (m : option (list Byte.byte)) : mapping :=
  match m with Some b => Mapped b | None => Unmapped end.

Definition shows_data (i : inode) (n : node) : Prop :=
  match Instance i with
  | Zeroed => False
  | Directory d =>
      n_type n = BITBUCKET_DIR_TYPE /\ RegisteredAttributes i = Some DirectoryObjectAttributes /\
      d_Magic d = BITBUCKET_DIR_MAGIC /\ Parent d = n_parent n /\ indexes (Children d) (n_names n) /\
      NoDup (DirEntries d) /\ (forall e, e ∈ DirEntries d <-> exists s, n_names n !! s = Some e) /\
      n_contents n = NoContents
  | File f =>
      n_type n = BITBUCKET_FILE_TYPE /\ RegisteredAttributes i = Some FileObjectAttributes /\
      f_Magic f = BITBUCKET_FILE_MAGIC /\ MapName f = None /\
      (exists m, n_contents n = Bytes m /\ Map f = as_mapping m)
  | SymbolicLink s =>
      n_type n = BITBUCKET_SYMLINK_TYPE /\ RegisteredAttributes i = Some SymbolicLinkObjectAttributes /\
      s_Magic s = BITBUCKET_SYMLINK_MAGIC /\ n_contents n = Target (LinkContents s)
  end.

(** Everything but the lock. *)
Record shows_inode (i : inode) (n : node) : Prop := {
  sn_live : live i;
  sn_table : Table i = true;
  sn_ino : st_ino i = n_ino n;
  sn_type : InodeType i = n_type n;
  sn_mode : st_mode i = n_mode n;
  sn_links : st_nlink i = n_links n;
  sn_size : st_size i = n_size n;
  sn_data : shows_data i n }.

Definition unlocked (i : inode) : Prop := InodeLock (ea i) = Unlocked.

Record mirrors (v : view) (t : tree) : Prop := {
  sh_refs : refs v = counts t;
  sh_node : forall p n, nodes t !! p = Some n -> exists i, inos v !! p = Some i /\ unlocked i /\ shows_inode i n;
  sh_entries : forall e, fst <$> entries t !! e = de_Inode <$> dirents (ext v) !! e;
  sh_magic : forall e x, dirents (ext v) !! e = Some x -> de_Magic x = BITBUCKET_DIR_ENTRY_MAGIC;
  sh_named : forall p n s e x, nodes t !! p = Some n -> n_names n !! s = Some e -> dirents (ext v) !! e = Some x -> de_Name x = s;
  sh_last : last_ino v = t_last t;
  sh_bias : bias_ino v = t_bias t;
  sh_verify : VerifyDirectoriesEnabled (ext v) = t_verify t;
  sh_rest : rest (ext v) = t_rest t }.

Record shows (v : view) (t : tree) : Prop := {
  sh_wf : sound t;
  sh_mirrors :> mirrors v t }.

Definition does {A : Type} (m : MW A) (t : tree) (r : A) (t' : tree) : Prop :=
  forall v, shows v t -> exists v', runs m v r v' /\ shows v' t'.

Lemma does_ret {A} (a : A) t : does (mret a) t a t.
Proof. intros v Hv. exists v. split; [apply runs_ret|done]. Qed.

Lemma does_bind {A B} (m : MW A) (k : A -> MW B) t a t1 b t2 : does m t a t1 -> does (k a) t1 b t2 -> does (m ≫= k) t b t2.
Proof.
  intros Hm Hk v Hv. destruct (Hm v Hv) as (v1 & Hr1 & Hv1). destruct (Hk v1 Hv1) as (v2 & Hr2 & Hv2).
  exists v2. split; [by eapply runs_bind|done].
Qed.

Lemma does_assert b t : b = true -> does (c_assert b) t tt t.
Proof. intros ->. apply does_ret. Qed.

Lemma does_load {B} p n (k : inode -> MW B) t r t' :
  nodes t !! p = Some n -> (forall i, shows_inode i n -> does (k i) t r t') -> does (load_inode p ≫= k) t r t'.
Proof.
  intros Hn Hk v Hv. destruct (sh_node _ _ Hv p n Hn) as (i & Hi & _ & Hs). destruct (Hk i Hs v Hv) as (v' & Hr & Hv').
  exists v'. split; [|done]. step_with ltac:(by apply runs_load). done.
Qed.

Lemma does_runs {A} (m : MW A) t a : (forall v, shows v t -> runs m v a v) -> does m t a t.
Proof. intros Hm v Hv. exists v. split; [by apply Hm|done]. Qed.

Lemma does_conv {A} (m : MW A) t r t1 t2 : does m t r t1 -> t1 = t2 -> does m t r t2.
Proof. by intros ? <-. Qed.

Lemma shows_wf (v : view) t : shows v t -> sound t.
Proof. apply sh_wf. Qed.

(** The specification may assume the tree well-formed. *)
Lemma does_wf {A} (m : MW A) t r t' : (sound t -> does m t r t') -> does m t r t'.
Proof. intros Hm v Hv. by apply Hm; [eapply shows_wf|]. Qed.

Section Checks.
Context (p : ptr) (n : node) (t : tree) (Hn : nodes t !! p = Some n).

Lemma does_check_inode : does (CHECK_INODE_MAGIC p) t tt t.
Proof. eapply does_load; [done|]. intros i Hi. apply does_assert. by rewrite (lv_magic _ (sn_live _ _ Hi)). Qed.

Lemma does_check_type type : n_type n = type -> does (CHECK_TYPE type p) t tt t.
Proof. intros <-. eapply does_load; [done|]. intros i Hi. apply does_assert. by rewrite (sn_type _ _ Hi), Z.eqb_refl. Qed.

Lemma shows_directory i : n_type n = BITBUCKET_DIR_TYPE -> shows_inode i n -> exists d, Instance i = Directory d.
Proof.
  intros Hty [_ _ _ _ _ _ _ Hd]. unfold shows_data in Hd. destruct (Instance i) as [|d|f|s]; [done|by exists d|..];
    destruct Hd as [Hd _]; rewrite Hd in Hty; done.
Qed.

Lemma does_check_dir : n_type n = BITBUCKET_DIR_TYPE -> does (CHECK_INSTANCE_MAGIC BITBUCKET_DIR_MAGIC p) t tt t.
Proof.
  intros Hty. eapply does_load; [done|]. intros i Hi. apply does_assert. destruct (shows_directory i Hty Hi) as [d Hd].
  pose proof (sn_data _ _ Hi) as Hs. unfold shows_data in Hs. rewrite Hd in *. cbn. by destruct Hs as (_ & _ & -> & _).
Qed.
End Checks.

(** ** References *)

Lemma shows_counts v t f : shows v t -> sound (set_counts f t) -> shows (set_refs f v) (set_counts f t).
Proof. intros [_ []] Hw. split; [done|]. constructor; cbn; try done. by rewrite sh_refs0. Qed.

(** Reasons that dir.c does not account for. *)
Definition plain (r : Z) : Prop := 0 <= r < 12 /\ r <> INODE_PARENT_REFERENCE /\ r <> INODE_DIRENT_REFERENCE.

Lemma due_plain r reason p : plain r -> reason = 1 \/ reason = 2 -> due r reason p = none.
Proof.
  unfold plain, INODE_PARENT_REFERENCE, INODE_DIRENT_REFERENCE, due. intros (_ & H1 & H2) Hr.
  destruct (Z.eqb_spec r reason); [lia|done].
Qed.

Lemma wf_hold_plain t p r bag :
  sound t -> counts t !! p = Some bag -> plain r -> sum bag + 1 < 2 ^ 32 -> sound (hold p r t).
Proof.
  intros Hw Hp Hr Hb. pose proof (wf_hold none none none t p r bag Hw Hp ltac:(apply Hr) Hb) as Hh.
  by rewrite !due_plain in Hh by auto.
Qed.

Lemma wf_drop_plain t p r bag :
  sound t -> counts t !! p = Some bag -> plain r -> 1 <= default 0 (bag !! Z.to_nat r) ->
  (forall n, sum bag = 1 -> nodes t !! p = Some n -> n_names n = ∅ /\ n_parent n = NULL) -> sound (drop p r t).
Proof.
  intros Hw Hp Hr Hb Hlast. pose proof (wf_drop none none none t p r bag Hw Hp ltac:(apply Hr) Hb Hlast) as Hh.
  rewrite !due_plain in Hh by auto. eapply wf_ext; [by apply Hh|done..].
Qed.

Lemma shows_hold v t p r bag :
  shows v t -> counts t !! p = Some bag -> plain r -> sum bag + 1 < 2 ^ 32 ->
  shows (set_refs <[p := bag_add r 1 bag]> v) (hold p r t).
Proof.
  intros Hv Hp Hr Hb. assert (sound (hold p r t)) as Hw by (by eapply wf_hold_plain; [eapply shows_wf|..]).
  pose proof (shows_counts v t (alter (bag_add r 1) p) Hv Hw) as Hs. unfold set_refs in *.
  by rewrite (alter_insert_Some _ _ _ _ (eq_trans (f_equal (.!! p) (sh_refs _ _ Hv)) Hp)) in Hs.
Qed.

Lemma does_reference p r t bag :
  counts t !! p = Some bag -> plain r -> sum bag + 1 < 2 ^ 32 -> does (BitbucketReferenceInode p r) t tt (hold p r t).
Proof.
  intros Hp Hr Hb v Hv. eexists. split; [|by apply shows_hold].
  apply runs_reference; [by rewrite (sh_refs _ _ Hv)|apply Hr|done].
Qed.

(** An inode that nothing names or has as its parent can be torn down. *)
Lemma shows_can_go i n : shows_inode i n -> n_names n = ∅ -> can_go i.
Proof.
  intros [_ _ _ _ _ _ _ Hd] Hn. unfold can_go, shows_data in *. destruct (Instance i) as [|d|f|s] eqn:E; [done|..].
  - destruct Hd as (_ & -> & Hm & _ & _ & _ & Hl & _). cbn. split; [done|].
    destruct (DirEntries d) as [|e l]; [done|]. destruct (proj1 (Hl e)) as [s Hs]; [by left|]. by rewrite Hn in Hs.
  - destruct Hd as (_ & -> & Hm & Hn' & ([b|] & _ & Hmap)); cbn; rewrite Hmap; done.
  - by destruct Hd as (_ & -> & Hm & _).
Qed.

Lemma runs_drop_node v p bag i n r :
  refs v !! p = Some bag -> inos v !! p = Some i -> shows_inode i n -> (sum bag = 1 -> n_names n = ∅) -> 0 <= r < 12 ->
  1 <= default 0 (bag !! Z.to_nat r) -> runs (BitbucketDereferenceInode p r 1) v tt (dropped p bag r 1 v).
Proof.
  intros Hp Hi Hs Hn Hr Hb. eapply runs_drop; [done|done| |done|lia]. intros E. eapply shows_can_go; [done|]. by apply Hn.
Qed.

Lemma mirrors_dropped v t p r bag : mirrors v t -> counts t !! p = Some bag -> mirrors (dropped p bag r 1 v) (drop p r t).
Proof.
  intros [] Hp. unfold dropped, drop in *. rewrite Hp in *. destruct (1 =? sum bag); constructor; cbn; try done.
  - by rewrite sh_refs0.
  - intros q n [Hne Hq]%lookup_delete_Some. rewrite lookup_delete_ne by done. by apply sh_node0.
  - intros q n s e x [Hne Hq]%lookup_delete_Some. by eapply sh_named0.
  - by rewrite sh_refs0.
Qed.

Lemma does_drop p r t bag n :
  counts t !! p = Some bag -> nodes t !! p = Some n -> plain r -> 1 <= default 0 (bag !! Z.to_nat r) ->
  (sum bag = 1 -> n_names n = ∅ /\ n_parent n = NULL) -> does (BitbucketDereferenceInode p r 1) t tt (drop p r t).
Proof.
  intros Hp Hn Hr Hb Hlast v Hv. exists (dropped p bag r 1 v). split.
  - destruct (sh_node _ _ Hv p n Hn) as (i & Hi & _ & Hs). eapply runs_drop_node; try done; [by rewrite (sh_refs _ _ Hv)| |apply Hr].
    intros E. by apply Hlast.
  - split; [|apply mirrors_dropped; [apply Hv|done]]. eapply wf_drop_plain; [by eapply shows_wf|done..|]. intros n' E Hn'.
    simplify_eq. by apply Hlast.
Qed.

Lemma does_count p bag t : counts t !! p = Some bag -> does (BitbucketGetInodeReferenceCount p) t (sum bag) t.
Proof. intros Hp. apply does_runs. intros v Hv. apply runs_count. by rewrite (sh_refs _ _ Hv). Qed.

(** ** Shared access to a directory *)

Lemma with_lock_same l (i : inode) : InodeLock (ea i) = l -> with_lock l i = i.
Proof. intros <-. destruct i as [??????????? []]. done. Qed.

Lemma set_inos_same p i v : inos v !! p = Some i -> set_inos <[p := i]> v = v.
Proof. intros Hi. unfold set_inos. rewrite insert_id by done. by destruct v. Qed.

Lemma runs_verify_entries l (v : view) :
  (forall e, e ∈ l -> exists x, dirents (ext v) !! e = Some x /\ de_Magic x = BITBUCKET_DIR_ENTRY_MAGIC) ->
  runs (verify_entries l) v tt v.
Proof.
  induction l as [|e l IH]; intros Hl; [apply runs_ret|]. cbn. destruct (Hl e) as (x & Hx & Hm); [by left|].
  step_with ltac:(by apply runs_load_dirent). step_with ltac:(apply runs_assert; by rewrite Hm).
  apply IH. intros e' He'. apply Hl. by right.
Qed.

Lemma shows_not_null v t p n : shows v t -> nodes t !! p = Some n -> p <> NULL.
Proof. intros Hv Hn. apply (wf_null _ _ _ _ (shows_wf _ _ Hv)). eauto. Qed.

(** What the list and the trie of a directory that is shown contain. *)
Lemma shows_entry v t p n s e :
  shows v t -> nodes t !! p = Some n -> n_names n !! s = Some e ->
  exists x q, dirents (ext v) !! e = Some x /\ de_Inode x = q /\ entries t !! e = Some (q, p) /\ is_Some (nodes t !! q) /\ e <> NULL.
Proof.
  intros Hv Hn Hs. destruct (wf_names _ _ _ _ (shows_wf _ _ Hv) p n s e Hn Hs) as (_ & q & Hq).
  destruct (wf_entry _ _ _ _ (shows_wf _ _ Hv) e q p Hq) as [He Hnode].
  pose proof (sh_entries _ _ Hv e) as Hx. rewrite Hq in Hx. symmetry in Hx. apply fmap_Some in Hx as (x & Hx & Hq').
  exists x, q. cbn in Hq'. done.
Qed.

Lemma shows_dir_data i n d :
  shows_inode i n -> Instance i = Directory d ->
  d_Magic d = BITBUCKET_DIR_MAGIC /\ Parent d = n_parent n /\ indexes (Children d) (n_names n) /\
  NoDup (DirEntries d) /\ (forall e, e ∈ DirEntries d <-> exists s, n_names n !! s = Some e).
Proof. intros [_ _ _ _ _ _ _ Hs] Hd. unfold shows_data in Hs. rewrite Hd in Hs. tauto. Qed.

Lemma does_verify p n t :
  nodes t !! p = Some n -> n_type n = BITBUCKET_DIR_TYPE -> does (VerifyDirectoryEntries p) t tt t.
Proof.
  intros Hn Hty. apply does_runs. intros v Hv. destruct (sh_node _ _ Hv p n Hn) as (i & Hi & Hu & Hs).
  destruct (shows_directory n i Hty Hs) as [d Hd]. pose proof (shows_dir_data i n d Hs Hd) as (Hm & _ & _ & _ & Hl).
  step_with ltac:(apply (runs_extra VerifyDirectoriesEnabled)). destruct (VerifyDirectoriesEnabled (ext v)); [|apply runs_ret].
  step_with ltac:(apply (runs_check_inode p i); [done|apply Hs]).
  step_with ltac:(apply (runs_check_type p i); [done|]; rewrite <- Hty; apply Hs).
  step_with ltac:(apply (runs_check_instance p i); [done|]; by rewrite Hd).
  step_with ltac:(apply (runs_lock_shared p i); [by eapply shows_not_null|done|apply Hs|done]).
  step_with ltac:(apply (runs_load_dir p (with_lock (LockedShared 0) i)); [apply lookup_insert_eq|exact Hd]).
  step_with ltac:(apply runs_verify_entries).
  { intros e [s Hse]%Hl. destruct (shows_entry v t p n s e Hv Hn Hse) as (x & q & Hx & _). exists x.
    split; [done|]. exact (sh_magic _ _ Hv _ _ Hx). }
  eapply runs_conv; [eapply runs_unlock; [apply lookup_insert_eq|apply Hs|by right]|done|].
  by rewrite set_inos_twice, with_lock_twice, with_lock_same, set_inos_same.
Qed.

(** The assertions an operation on a directory begins with. *)
Lemma runs_dir_checks {A} p n i d (k : MW A) v t r v' :
  shows v t -> nodes t !! p = Some n -> n_type n = BITBUCKET_DIR_TYPE -> inos v !! p = Some i -> shows_inode i n ->
  Instance i = Directory d -> runs k v r v' ->
  runs (c_assert (negb (p =? NULL));; CHECK_TYPE BITBUCKET_DIR_TYPE p;; CHECK_INSTANCE_MAGIC BITBUCKET_DIR_MAGIC p;; k) v r v'.
Proof.
  intros Hv Hn Hty Hi Hs Hd Hk. destruct (shows_dir_data i n d Hs Hd) as (Hm & _).
  step_with ltac:(apply runs_assert; apply negb_true_iff, Z.eqb_neq, (wf_null _ _ _ _ (shows_wf _ _ Hv)); eauto).
  step_with ltac:(apply (runs_check_type p i); [done|]; rewrite <- Hty; apply Hs).
  step_with ltac:(apply (runs_check_instance p i); [done|]; by rewrite Hd). done.
Qed.

(** The search under the shared lock, followed by the optional check. *)
Lemma runs_locked_search {A} (f : option ptr -> MW A) p n i d v (s : string) a v1 v2 :
  p <> NULL -> inos v !! p = Some i -> shows_inode i n -> unlocked i -> Instance i = Directory d ->
  runs (f (ni_search (Children d) s)) (set_inos <[p := with_lock (LockedShared 0) i]> v) a
    (set_inos <[p := with_lock (LockedShared 0) i]> v1) ->
  inos v1 !! p = Some i -> runs (VerifyDirectoryEntries p) v1 tt v2 ->
  runs (BitbucketLockInode p false;; d ← load_dir p; x ← f (ni_search (Children d) s); BitbucketUnlockInode p;;
        VerifyDirectoryEntries p;; mret x) v a v2.
Proof.
  intros Hp Hi Hs Hu Hd Hf Hi1 Hv. step_with ltac:(apply (runs_lock_shared p i); [done|done|apply Hs|done]).
  step_with ltac:(apply (runs_load_dir p (with_lock (LockedShared 0) i)); [apply lookup_insert_eq|exact Hd]).
  step_with ltac:(exact Hf). step_with ltac:(eapply runs_unlock; [by apply lookup_insert_eq|apply Hs|by right]).
  rewrite set_inos_twice, with_lock_twice, with_lock_same, set_inos_same by done.
  step_with ltac:(exact Hv). apply runs_ret.
Qed.

Lemma does_lookup_found p n s e q bag t :
  nodes t !! p = Some n -> n_type n = BITBUCKET_DIR_TYPE -> n_names n !! s = Some e -> entries t !! e = Some (q, p) ->
  counts t !! q = Some bag -> sum bag + 1 < 2 ^ 32 ->
  does (BitbucketLookupObjectInDirectory p s) t q (hold q INODE_LOOKUP_REFERENCE t).
Proof.
  intros Hn Hty Hs He Hq Hb v Hv.
  destruct (sh_node _ _ Hv p n Hn) as (i & Hi & Hu & Hsi). destruct (shows_directory n i Hty Hsi) as [d Hd].
  pose proof (shows_dir_data i n d Hsi Hd) as (_ & _ & [Hx _] & _ & _). specialize (Hx s). rewrite Hs in Hx.
  destruct (shows_entry v t p n s e Hv Hn Hs) as (x & q' & Hde & Hq' & He' & _). assert (q' = q) as -> by congruence.
  pose proof (shows_hold v t q INODE_LOOKUP_REFERENCE bag Hv Hq ltac:(done) Hb) as Hv1.
  destruct (does_verify p n (hold q INODE_LOOKUP_REFERENCE t) Hn Hty _ Hv1) as (v2 & Hrun2 & Hv2).
  exists v2. split; [|done]. eapply (runs_dir_checks p n i d); try done. step_with ltac:(by apply (runs_load_dir p i)).
  destruct (Children d) as [ch|] eqn:Ech; [|by rewrite ni_search_null in Hx]. rewrite <- Ech in Hx.
  eapply (runs_locked_search entry_object p n i d v s q (set_refs <[q := bag_add INODE_LOOKUP_REFERENCE 1 bag]> v)); try done; [by eapply shows_not_null|..].
  rewrite Hx. unfold entry_object. step_with ltac:(by apply runs_load_dirent). rewrite Hq'.
  step_with ltac:(apply (runs_reference q bag); [cbn; by rewrite (sh_refs _ _ Hv)|done|done]). apply runs_ret.
Qed.

Lemma does_lookup_missing p n s t :
  nodes t !! p = Some n -> n_type n = BITBUCKET_DIR_TYPE -> n_names n !! s = None ->
  does (BitbucketLookupObjectInDirectory p s) t NULL t.
Proof.
  intros Hn Hty Hs v Hv.
  destruct (sh_node _ _ Hv p n Hn) as (i & Hi & Hu & Hsi). destruct (shows_directory n i Hty Hsi) as [d Hd].
  pose proof (shows_dir_data i n d Hsi Hd) as (_ & _ & [Hx _] & _ & _). specialize (Hx s). rewrite Hs in Hx.
  destruct (does_verify p n t Hn Hty v Hv) as (v2 & Hrun2 & Hv2). destruct (Children d) as [ch|] eqn:Ech.
  - exists v2. split; [|done]. eapply (runs_dir_checks p n i d); try done. step_with ltac:(by apply (runs_load_dir p i)).
    rewrite Ech. eapply (runs_locked_search entry_object p n i d v s NULL v); try done; [by eapply shows_not_null|]. rewrite Ech, Hx. apply runs_ret.
  - exists v. split; [|done]. eapply (runs_dir_checks p n i d); try done. step_with ltac:(by apply (runs_load_dir p i)).
    rewrite Ech. apply runs_ret.
Qed.

(** ** Insertion *)

#[local] Ltac vlook :=
  cbn [inos set_inos set_refs set_ext set_dirents];
  repeat first [rewrite lookup_insert_eq | rewrite lookup_insert_ne by congruence];
  first [reflexivity | eassumption].
#[local] Ltac dlook :=
  cbn [ext dirents set_inos set_refs set_ext set_dirents with_dirents];
  repeat first [rewrite lookup_insert_eq | rewrite lookup_insert_ne by congruence];
  first [reflexivity | eassumption].

(** The name is one the code accepts. *)
Definition good_name (s : string) : Prop := s <> EmptyString /\ Z.of_nat (String.length s) + 1 < MAX_FILE_NAME_SIZE.

Lemma good_name_length s : good_name s -> 1 < Z.of_nat (String.length s) + 1 < MAX_FILE_NAME_SIZE.
Proof. intros [Hs Hl]. destruct s; [done|]. cbn [String.length] in *. lia. Qed.

(** An inode whose directory part changed under its exclusive lock. *)
Lemma shows_inode_dir i n d d' l epoch names :
  shows_inode i n -> Instance i = Directory d -> d_Magic d' = d_Magic d -> Parent d' = Parent d ->
  indexes (Children d') names -> NoDup (DirEntries d') -> (forall e, e ∈ DirEntries d' <-> exists s, names !! s = Some e) ->
  shows_inode (with_lock l (with_data (Directory d') (with_epoch epoch i))) (node_names names n).
Proof.
  intros [[] ? ? ? ? ? ? Hd] Hi Hm Hp Hx Hn Hl. unfold shows_data in Hd. rewrite Hi in Hd.
  destruct Hd as (? & ? & ? & ? & _ & _ & _ & ?). constructor; try done. unfold shows_data. cbn.
  by rewrite Hm, Hp.
Qed.

Lemma shows_inode_lock i n l : shows_inode i n -> shows_inode (with_lock l i) n.
Proof. intros [[] ? ? ? ? ? ? Hd]. by constructor. Qed.

Lemma shows_inode_epoch i n k : shows_inode i n -> shows_inode (with_epoch k i) n.
Proof. intros [[] ? ? ? ? ? ? Hd]. by constructor. Qed.

Lemma shows_inode_link i n k : shows_inode i n -> shows_inode (with_nlink k i) (node_links k n).
Proof. intros [[] ? ? ? ? ? ? Hd]. by constructor. Qed.

(** The directory part after an insertion. *)
Definition inserted (s : string) e (d : bitbucket_dir T) : bitbucket_dir T :=
  with_entries (e :: DirEntries d) (with_children (Some (ni_insert (default ni_create (Children d)) s (Some e))) d).

Lemma indexes_search (o : option (T ptr)) m s : indexes o m -> ni_search (Some (default ni_create o)) s = m !! s.
Proof. intros [Hr _]. rewrite <- Hr. destruct o; [done|]. cbn. by rewrite ni_search_create, ni_search_null. Qed.

Lemma runs_insert_locked v p q s e i j d x names :
  inos v !! p = Some i -> inos v !! q = Some j -> Instance i = Directory d -> indexes (Children d) names ->
  names !! s = None -> dirents (ext v) !! e = Some x ->
  runs (insert_locked p q s e) v 0
    (set_dirents <[e := with_de_offset (Epoch i) x]>
      (set_inos (fun m => if q =? p then <[p := with_data (Directory (inserted s e d)) i]> m
                          else <[q := with_nlink (u64 (st_nlink j + 1)) j]> (<[p := with_data (Directory (inserted s e d)) i]> m)) v)).
Proof.
  intros Hi Hj Hd Hx Hs He. unfold insert_locked. step_with ltac:(by apply runs_load).
  step_with ltac:(by eapply runs_update_dirent).
  step_with ltac:(eapply runs_load_dir; [vlook|exact Hd]).
  step_with ltac:(eapply runs_update_dir; [vlook|exact Hd]).
  rewrite (indexes_search _ names), Hs by done.
  step_with ltac:(eapply runs_update_dir; [vlook|reflexivity]).
  step_with ltac:(eapply runs_update_dir; [vlook|reflexivity]). destruct (Z.eqb_spec q p) as [->|Hne].
  - step_with ltac:(apply runs_ret). eapply runs_conv; [apply runs_ret|done|].
    rewrite !set_inos_twice. done.
  - step_with ltac:(eapply runs_update; [vlook|by constructor]). eapply runs_conv; [apply runs_ret|done|].
    rewrite !set_inos_twice. done.
Qed.

Definition new_dirent q (s : string) : dir_entry :=
  {| de_Magic := BITBUCKET_DIR_ENTRY_MAGIC; de_Inode := q; de_Offset := 0; de_Name := s |}.

(** The state in which an insertion takes its locks. *)
Definition insert_start q bag e s v : view :=
  set_refs <[q := bag_add INODE_DIRENT_REFERENCE 1 bag]> (set_dirents <[e := new_dirent q s]> v).

Lemma runs_insert v t p q s e n i d bag r v' :
  shows v t -> nodes t !! p = Some n -> n_type n = BITBUCKET_DIR_TYPE -> inos v !! p = Some i -> shows_inode i n ->
  Instance i = Directory d -> counts t !! q = Some bag -> sum bag + 1 < 2 ^ 32 -> good_name s -> e <> NULL ->
  runs ((if p =? q then BitbucketLockInode p true else BitbucketLockTwoInodes p q true);;
        status ← insert_locked p q s e;
        (if p =? q then BitbucketUnlockInode p else BitbucketUnlockInode p;; BitbucketUnlockInode q);;
        mret status) (insert_start q bag e s v) r v' ->
  runs (BitbucketInsertDirectoryEntry p q s e) v r v'.
Proof.
  intros Hv Hn Hty Hi Hs Hd Hq Hb Hname He Hk. destruct (shows_dir_data i n d Hs Hd) as (Hm & _).
  pose proof (shows_wf _ _ Hv) as Hw. pose proof (good_name_length s Hname) as [Hl1 Hl2].
  unfold BitbucketInsertDirectoryEntry.
  step_with ltac:(apply runs_assert; apply negb_true_iff, Z.eqb_neq, (wf_null _ _ _ _ Hw); eauto).
  step_with ltac:(apply runs_assert; apply negb_true_iff, Z.eqb_neq, (wf_null _ _ _ _ Hw), (wf_dom _ _ _ _ Hw); eauto).
  step_with ltac:(apply (runs_check_type p i); [done|]; rewrite <- Hty; apply Hs).
  step_with ltac:(apply (runs_check_instance p i); [done|]; by rewrite Hd).
  cbv zeta. step_with ltac:(apply runs_assert, Z.ltb_lt, Hl1). step_with ltac:(apply runs_assert, Z.ltb_lt, Hl2).
  step_with ltac:(by apply runs_assert, negb_true_iff, Z.eqb_neq).
  step_with ltac:(apply runs_store_dirent).
  step_with ltac:(apply (runs_reference q bag); [cbn; by rewrite (sh_refs _ _ Hv)|done|done]).
  exact Hk.
Qed.

(** How the changed inodes and the changed entry show a linked tree. *)
Lemma shows_link v t p q s e n nq bag v' k :
  shows v t -> nodes t !! p = Some n -> n_type n = BITBUCKET_DIR_TYPE -> nodes t !! q = Some nq ->
  counts t !! q = Some bag -> sum bag + 1 < 2 ^ 32 -> good_name s -> fresh_entry e t -> n_names n !! s = None ->
  refs v' = <[q := bag_add INODE_DIRENT_REFERENCE 1 bag]> (refs v) ->
  dirents (ext v') = <[e := with_de_offset k (new_dirent q s)]> (dirents (ext v)) ->
  VerifyDirectoriesEnabled (ext v') = VerifyDirectoriesEnabled (ext v) -> rest (ext v') = rest (ext v) ->
  last_ino v' = last_ino v -> bias_ino v' = bias_ino v ->
  (forall x, x <> p -> x <> q -> inos v' !! x = inos v !! x) ->
  (exists i, inos v' !! p = Some i /\ unlocked i /\ shows_inode i (node_names (<[s := e]> (n_names n)) n)) ->
  (p <> q -> exists i, inos v' !! q = Some i /\ unlocked i /\ shows_inode i (node_links (n_links nq + 1) nq)) ->
  shows v' (link p q s e t).
Proof.
  intros Hv Hn Hty Hq Hbag Hb Hs Hfe Hfree Hr Hde Hvf Hrest Hlast Hbias Hother Hp' Hq'. pose proof (shows_wf _ _ Hv) as Hw.
  pose proof Hfe as [He Hef].
  assert (sound (link p q s e t)) as Hw' by (apply (wf_link t p q s e n bag); try done; apply Hs).
  assert (entries (link p q s e t) = <[e := (q, p)]> (<[e := (q, NULL)]> (entries t))) as Ee by (unfold link; by destruct (p =? q)).
  rewrite insert_insert_eq in Ee.
  assert (forall x nx, nodes (link p q s e t) !! x = Some nx ->
    (x = p /\ nx = node_names (<[s := e]> (n_names n)) n) \/
    (x = q /\ p <> q /\ nx = node_links (n_links nq + 1) nq) \/ (x <> p /\ x <> q /\ nodes t !! x = Some nx)) as Hnodes.
  { intros x nx. unfold link. destruct (Z.eqb_spec p q) as [->|Hne]; cbn.
    - intros [(-> & n' & Hx & ->)|[Hne Hx]]%lookup_alter_Some; [left|right; right]; simplify_eq; done.
    - intros [(-> & n' & Hx & ->)|[Hne' Hx]]%lookup_alter_Some.
      + rewrite lookup_alter_ne in Hx by done. right; left. by simplify_eq.
      + apply lookup_alter_Some in Hx as [(-> & n' & Hx & ->)|[Hne'' Hx]]; [left; by simplify_eq|right; right; done]. }
  split; [done|]. constructor.
  - rewrite Hr, (sh_refs _ _ Hv). unfold link. destruct (p =? q); cbn; by erewrite alter_insert_Some.
  - intros x nx [[-> ->]|[(-> & Hne & ->)|(Hx1 & Hx2 & Hx)]]%Hnodes; [done|by apply Hq'|].
    rewrite Hother by done. by apply (sh_node _ _ Hv).
  - intros x. rewrite Ee, Hde. destruct (decide (e = x)) as [<-|Hne]; [by rewrite !lookup_insert_eq|].
    rewrite !lookup_insert_ne by done. apply (sh_entries _ _ Hv).
  - intros x y. rewrite Hde. intros [[<- <-]|[_ Hx]]%lookup_insert_Some; [done|exact (sh_magic _ _ Hv _ _ Hx)].
  - assert (forall x nx s' e' y, nodes t !! x = Some nx -> n_names nx !! s' = Some e' ->
      <[e := with_de_offset k (new_dirent q s)]> (dirents (ext v)) !! e' = Some y -> de_Name y = s') as Hold.
    { intros x nx s' e' y Hx Hs' [[<- <-]|[_ Hy]]%lookup_insert_Some; [|exact (sh_named _ _ Hv x nx s' e' y Hx Hs' Hy)].
      by destruct (fresh_unlisted _ _ _ t e x nx s' Hw Hef Hx). }
    intros x nx s' e' y Hx. rewrite Hde. apply Hnodes in Hx as [[-> ->]|[(-> & Hne & ->)|(Hx1 & Hx2 & Hx)]].
    + cbn. intros [[<- <-]|[_ Hs']]%lookup_insert_Some; [rewrite lookup_insert_eq; by intros [= <-]|exact (Hold p n s' e' y Hn Hs')].
    + exact (Hold q nq s' e' y Hq).
    + exact (Hold x nx s' e' y Hx).
  - rewrite Hlast, (sh_last _ _ Hv). unfold link. by destruct (p =? q).
  - rewrite Hbias, (sh_bias _ _ Hv). unfold link. by destruct (p =? q).
  - rewrite Hvf, (sh_verify _ _ Hv). unfold link. by destruct (p =? q).
  - rewrite Hrest, (sh_rest _ _ Hv). unfold link. by destruct (p =? q).
Qed.

Lemma inserted_shows i n d s e t p l k :
  sound t -> nodes t !! p = Some n -> shows_inode i n -> Instance i = Directory d -> n_names n !! s = None ->
  fresh_entry e t ->
  shows_inode (with_lock l (with_data (Directory (inserted s e d)) (with_epoch k i))) (node_names (<[s := e]> (n_names n)) n).
Proof.
  intros Hw Hn Hs Hd Hfree [He Hef]. destruct (shows_dir_data i n d Hs Hd) as (Hm & Hpar & Hx & Hnd & Hl).
  eapply shows_inode_dir; try done.
  - by apply indexes_insert.
  - cbn. constructor; [|done]. intros [s' Hs']%Hl. by destruct (fresh_unlisted _ _ _ t e p n s' Hw Hef Hn).
  - cbn. intros e'. rewrite elem_of_cons, Hl. split.
    + intros [->|[s' Hs']]; [exists s; apply lookup_insert_eq|]. exists s'. rewrite lookup_insert_ne; [done|]. intros ->. congruence.
    + intros [s' [[<- <-]|[_ Hs']]%lookup_insert_Some]; [by left|right; eauto].
Qed.

Lemma does_insert p q s e n nq bag t :
  nodes t !! p = Some n -> n_type n = BITBUCKET_DIR_TYPE -> nodes t !! q = Some nq -> counts t !! q = Some bag ->
  sum bag + 1 < 2 ^ 32 -> good_name s -> fresh_entry e t -> n_names n !! s = None ->
  does (BitbucketInsertDirectoryEntry p q s e) t 0 (link p q s e t).
Proof.
  intros Hn Hty Hq Hbag Hb Hs Hfe Hfree v Hv. pose proof (shows_wf _ _ Hv) as Hw.
  destruct (sh_node _ _ Hv p n Hn) as (i & Hi & Hu & Hsi). destruct (shows_directory n i Hty Hsi) as [d Hd].
  destruct (sh_node _ _ Hv q nq Hq) as (j & Hj & Huj & Hsj).
  pose proof (shows_dir_data i n d Hsi Hd) as (_ & _ & Hx & _ & _).
  assert (forall v', shows v' (link p q s e t) -> runs (BitbucketInsertDirectoryEntry p q s e) v 0 v' ->
    exists v', runs (BitbucketInsertDirectoryEntry p q s e) v 0 v' /\ shows v' (link p q s e t)) as Hgoal by eauto.
  destruct (decide (p = q)) as [<-|Hne].
  - simplify_eq. eapply Hgoal; cycle 1.
    { eapply (runs_insert v t p p s e n i d bag); try done; [apply Hfe|]. unfold insert_start. rewrite Z.eqb_refl.
      step_with ltac:(eapply runs_lock_exclusive; [by eapply shows_not_null|exact Hi|apply Hsi|done]).
      step_with ltac:(eapply (runs_insert_locked _ p p s e); [vlook|vlook|exact Hd|done|done|dlook]). rewrite Z.eqb_refl.
      step_with ltac:(eapply runs_unlock; [vlook|apply Hsi|by left]). apply runs_ret. }
    eapply (shows_link v t p p s e n n bag); try done.
    + cbn. by rewrite insert_insert_eq.
    + intros x Hxp _. cbn. by rewrite !lookup_insert_ne.
    + eexists. split; [vlook|]. split; [done|].
      apply (inserted_shows i n d s e t p Unlocked (u64 (Epoch i + 1))); done.
  - eapply Hgoal; cycle 1.
    { eapply (runs_insert v t p q s e n i d bag); try done; [apply Hfe|]. unfold insert_start. destruct (Z.eqb_spec p q); [done|].
      step_with ltac:(eapply (runs_lock_two p q i j); try done; try apply Hsi; try apply Hsj).
      { apply (wf_null _ _ _ _ Hw); eauto. } { apply (wf_null _ _ _ _ Hw); eauto. }
      { rewrite (sn_type _ _ Hsi), Hty. done. }
      step_with ltac:(eapply (runs_insert_locked _ p q s e); [vlook|vlook|exact Hd|done|done|dlook]).
      destruct (Z.eqb_spec q p); [congruence|].
      step_with ltac:(step_with ltac:(eapply runs_unlock; [vlook|apply Hsi|by left]); eapply runs_unlock; [vlook|apply Hsj|by left]).
      apply runs_ret. }
    eapply (shows_link v t p q s e n nq bag); try done.
    + cbn. by rewrite insert_insert_eq.
    + intros x Hxp Hxq. cbn. by rewrite !lookup_insert_ne.
    + eexists. split; [vlook|]. split; [done|].
      apply (inserted_shows i n d s e t p Unlocked (u64 (Epoch i + 1))); done.
    + intros _. eexists. split; [vlook|]. split; [done|]. cbn. rewrite (sn_links _ _ Hsj).
      rewrite (wrap_small 64 (n_links nq + 1)) by (pose proof (wf_links_range t q nq Hw Hq); lia).
      exact (shows_inode_lock _ _ _ (shows_inode_link _ _ _ (shows_inode_epoch _ _ _ (shows_inode_lock _ _ _ Hsj)))).
Qed.

(** A name that exists: the new entry stays allocated, and so does its
    reference. *)
Lemma with_children_same (o : option (T ptr)) (d : bitbucket_dir T) : Children d = o -> with_children o d = d.
Proof. intros <-. by destruct d. Qed.

Lemma with_data_same i x : Instance i = x -> with_data x i = i.
Proof. intros <-. by destruct i. Qed.

Lemma runs_insert_exists v p q s e i d x names e' :
  inos v !! p = Some i -> Instance i = Directory d -> indexes (Children d) names ->
  names !! s = Some e' -> dirents (ext v) !! e = Some x ->
  runs (insert_locked p q s e) v EEXIST (set_dirents <[e := with_de_offset (Epoch i) x]> v).
Proof.
  intros Hi Hd Hx Hs He. unfold insert_locked. step_with ltac:(by apply runs_load).
  step_with ltac:(by eapply runs_update_dirent).
  step_with ltac:(eapply runs_load_dir; [vlook|exact Hd]).
  step_with ltac:(eapply runs_update_dir; [vlook|exact Hd]).
  rewrite (indexes_search _ names), Hs by done. eapply runs_conv; [apply runs_ret|done|].
  destruct (Children d) as [ch|] eqn:Ech.
  - cbn [default]. rewrite with_children_same, with_data_same by done. by rewrite set_inos_same.
  - destruct Hx as [Hr _]. specialize (Hr s). rewrite ni_search_null in Hr. cbn in Hr. congruence.
Qed.

Lemma relock_epoch k l i : unlocked i -> with_lock Unlocked (with_epoch k (with_lock l i)) = with_epoch k i.
Proof.
  intros Hu. change (with_lock Unlocked (with_epoch k (with_lock l i))) with (with_epoch k (with_lock Unlocked i)).
  by rewrite with_lock_same.
Qed.

(** Views that differ in the epochs of inodes show the same tree. *)
Lemma shows_relock v t f v' :
  shows v t -> refs v' = refs v -> ext v' = ext v -> last_ino v' = last_ino v -> bias_ino v' = bias_ino v ->
  (forall p i n, inos v !! p = Some i -> unlocked i -> shows_inode i n -> exists k, f p i = with_epoch k i) ->
  (forall p i, inos v !! p = Some i -> inos v' !! p = Some (f p i)) -> shows v' t.
Proof.
  intros [Hw []] Hr He Hl Hb Hf Hi. split; [done|]. constructor; rewrite ?Hr, ?He, ?Hl, ?Hb; try done.
  intros p n Hn. destruct (sh_node0 p n Hn) as (i & Hip & Hu & Hs). exists (f p i). split; [by apply Hi|].
  destruct (Hf p i n Hip Hu Hs) as [k ->]. split; [done|]. by apply shows_inode_epoch.
Qed.

Lemma shows_leak v t q s e bag k :
  shows v t -> counts t !! q = Some bag -> sum bag + 1 < 2 ^ 32 -> fresh_entry e t ->
  shows (set_refs <[q := bag_add INODE_DIRENT_REFERENCE 1 bag]> (set_dirents <[e := with_de_offset k (new_dirent q s)]> v)) (leak q e t).
Proof.
  intros Hv Hq Hb Hfe. pose proof (shows_wf _ _ Hv) as Hw. pose proof (wf_leak t q e bag Hw Hq Hb Hfe) as Hw'.
  pose proof Hv as [_ []]. split; [done|]. constructor; cbn; try done.
  - by rewrite sh_refs0, (alter_insert_Some _ _ _ _ Hq).
  - intros x. destruct (decide (e = x)) as [<-|Hne]; [by rewrite !lookup_insert_eq|]. by rewrite !lookup_insert_ne.
  - intros x y [[<- <-]|[_ Hx]]%lookup_insert_Some; [done|by eapply sh_magic0].
  - intros x nx s' e' y Hx Hs' [[<- <-]|[_ Hy]]%lookup_insert_Some; [|by eapply sh_named0].
    by destruct (fresh_unlisted _ _ _ t e x nx s' Hw (proj2 Hfe) Hx).
Qed.

Lemma does_insert_exists p q s e e' n nq bag t :
  nodes t !! p = Some n -> n_type n = BITBUCKET_DIR_TYPE -> nodes t !! q = Some nq -> counts t !! q = Some bag ->
  sum bag + 1 < 2 ^ 32 -> good_name s -> fresh_entry e t -> n_names n !! s = Some e' -> p <> q ->
  does (BitbucketInsertDirectoryEntry p q s e) t EEXIST (leak q e t).
Proof.
  intros Hn Hty Hq Hbag Hb Hs Hfe Hold Hne v Hv. pose proof (shows_wf _ _ Hv) as Hw.
  destruct (sh_node _ _ Hv p n Hn) as (i & Hi & Hu & Hsi). destruct (shows_directory n i Hty Hsi) as [d Hd].
  destruct (sh_node _ _ Hv q nq Hq) as (j & Hj & Huj & Hsj).
  pose proof (shows_dir_data i n d Hsi Hd) as (_ & _ & Hx & _ & _).
  assert (forall v', shows v' (leak q e t) -> runs (BitbucketInsertDirectoryEntry p q s e) v EEXIST v' ->
    exists v', runs (BitbucketInsertDirectoryEntry p q s e) v EEXIST v' /\ shows v' (leak q e t)) as Hgoal by eauto.
  eapply Hgoal; cycle 1.
  { eapply (runs_insert v t p q s e n i d bag); try done; [apply Hfe|]. unfold insert_start. destruct (Z.eqb_spec p q); [done|].
    step_with ltac:(eapply (runs_lock_two p q i j); try done; try apply Hsi; try apply Hsj).
    { apply (wf_null _ _ _ _ Hw); eauto. } { apply (wf_null _ _ _ _ Hw); eauto. }
    { rewrite (sn_type _ _ Hsi), Hty. done. }
    step_with ltac:(eapply (runs_insert_exists _ p q s e); [vlook|exact Hd|done|done|dlook]).
    step_with ltac:(step_with ltac:(eapply runs_unlock; [vlook|apply Hsi|by left]); eapply runs_unlock; [vlook|apply Hsj|by left]).
    apply runs_ret. }
  eapply (shows_relock _ _ (fun x y => if decide (x = q) then with_epoch (u64 (Epoch j + 1)) y
                                       else if decide (x = p) then with_epoch (u64 (Epoch i + 1)) y else y));
    [by apply (shows_leak v t q s e bag (u64 (Epoch i + 1)))|..].
  - done.
  - cbn. unfold with_dirents. cbn. by rewrite insert_insert_eq.
  - done.
  - done.
  - intros x y ny _ _ _. case_decide; [eauto|]. case_decide; [eauto|]. exists (Epoch y). by destruct y.
  - intros x y. cbn. intros Hxy. destruct (decide (x = q)) as [->|Hxq].
    + rewrite lookup_insert_eq. rewrite Hj in Hxy. injection Hxy as <-. f_equal.
      by apply relock_epoch.
    + rewrite lookup_insert_ne by done. destruct (decide (x = p)) as [->|Hxp].
      * rewrite lookup_insert_eq. rewrite Hi in Hxy. injection Hxy as <-. f_equal.
        by apply relock_epoch.
      * by rewrite !lookup_insert_ne.
Qed.

(** ** Removal *)

Definition taken_out (o : option (T ptr)) e (d : bitbucket_dir T) : bitbucket_dir T :=
  with_children o (with_entries (filter (fun x => x <> e) (DirEntries d)) d).

Lemma runs_deref {A} (a : A) v : runs (deref (Some a) : MW A) v a v.
Proof. apply runs_ret. Qed.

Lemma runs_take_out v p s e q i j d x names :
  inos v !! p = Some i -> inos v !! q = Some j -> Instance i = Directory d -> indexes (Children d) names ->
  names !! s = Some e -> s <> EmptyString -> e ∈ DirEntries d -> dirents (ext v) !! e = Some x -> de_Inode x = q -> q <> NULL ->
  (q <> p -> 0 < st_nlink j) ->
  exists o, indexes o (delete s names) /\
  runs (take_out p s e (if q =? p then NULL else q)) v tt
    (set_inos (fun m => if q =? p then <[p := with_data (Directory (taken_out o e d)) i]> m
                        else <[q := with_nlink (st_nlink j - 1) j]> (<[p := with_data (Directory (taken_out o e d)) i]> m)) v).
Proof.
  intros Hi Hj Hd Hx Hs Hse Hin He Hq Hnull Hpos.
  destruct (indexes_delete (Children d) names s e Hx Hse Hs) as (o & Ho & Hxo). exists o. split; [done|].
  unfold take_out. step_with ltac:(by apply runs_load_dirent).
  step_with ltac:(apply runs_assert; rewrite Hq; destruct (Z.eqb_spec q p), (Z.eqb_spec p q); done).
  step_with ltac:(by eapply runs_load_dir).
  assert (unlink e (DirEntries d) = Some (filter (fun y => y <> e) (DirEntries d))) as -> by (unfold unlink; by rewrite decide_True).
  step_with ltac:(apply runs_deref).
  step_with ltac:(by eapply runs_update_dir).
  step_with ltac:(eapply runs_load_dir; [vlook|reflexivity]).
  step_with ltac:(apply runs_lift_outcome; exact Ho). cbv beta iota.
  step_with ltac:(eapply runs_update_dir; [vlook|reflexivity]). rewrite set_inos_twice.
  destruct (Z.eqb_spec q p) as [->|Hne]; [apply runs_ret|].
  destruct (Z.eqb_spec q NULL); [done|]. rewrite Hq. step_with ltac:(eapply runs_load; vlook).
  step_with ltac:(apply runs_assert, Z.ltb_lt; auto).
  eapply runs_conv; [eapply runs_update; [vlook|by constructor]|done|done].
Qed.

(** The search and the locks of a removal; the directory is locked. *)
Lemma runs_find_self v p s e d i x :
  inos v !! p = Some i -> Instance i = Directory d -> ni_search (Children d) s = Some e -> dirents (ext v) !! e = Some x ->
  de_Inode x = p -> runs (find_and_lock 2 p s NULL) v (e, NULL) v.
Proof.
  intros Hi Hd Hs He Hq. cbn [find_and_lock]. step_with ltac:(by eapply runs_load_dir). rewrite Hs.
  step_with ltac:(by apply runs_load_dirent). rewrite Hq, Z.eqb_refl, andb_false_r. apply runs_ret.
Qed.

Lemma runs_find_other v p s e d i x q j bag :
  inos v !! p = Some i -> Instance i = Directory d -> ni_search (Children d) s = Some e -> dirents (ext v) !! e = Some x ->
  de_Inode x = q -> q <> p -> q <> NULL -> inos v !! q = Some j -> Magic (ea j) = BITBUCKET_INODE_MAGIC -> unlocked j ->
  refs v !! q = Some bag -> sum bag + 1 < 2 ^ 32 ->
  runs (find_and_lock 2 p s NULL) v (e, q)
    (set_inos <[q := with_epoch (u64 (Epoch j + 1)) (with_lock LockedExclusive j)]>
      (set_refs <[q := bag_add INODE_REMOVE_DIRENT_REFERENCE 1 bag]> v)).
Proof.
  intros Hi Hd Hs He Hq Hne Hnull Hj Hm Hu Hb Hsum. cbn [find_and_lock]. step_with ltac:(by eapply runs_load_dir). rewrite Hs.
  step_with ltac:(by apply runs_load_dirent). rewrite Hq.
  destruct (Z.eqb_spec q NULL); [done|]. destruct (Z.eqb_spec q p); [done|]. cbn [negb andb Z.eqb NULL].
  step_with ltac:(apply runs_ret). step_with ltac:(by apply (runs_reference q bag)).
  step_with ltac:(by eapply runs_trylock_free). cbn [Z.eqb]. apply runs_ret.
Qed.

Lemma runs_find_missing v p s d i :
  inos v !! p = Some i -> Instance i = Directory d -> ni_search (Children d) s = None ->
  runs (find_and_lock 2 p s NULL) v (NULL, NULL) v.
Proof.
  intros Hi Hd Hs. cbn [find_and_lock]. step_with ltac:(by eapply runs_load_dir). rewrite Hs. apply runs_ret.
Qed.

Lemma shows_unlist v t p q s e n nq v' :
  shows v t -> nodes t !! p = Some n -> n_names n !! s = Some e -> nodes t !! q = Some nq -> entries t !! e = Some (q, p) ->
  refs v' = refs v -> ext v' = ext v -> last_ino v' = last_ino v -> bias_ino v' = bias_ino v ->
  (forall x, x <> p -> x <> q -> inos v' !! x = inos v !! x) ->
  (exists i, inos v' !! p = Some i /\ unlocked i /\ shows_inode i (node_names (delete s (n_names n)) n)) ->
  (p <> q -> exists i, inos v' !! q = Some i /\ unlocked i /\ shows_inode i (node_links (n_links nq + -1) nq)) ->
  shows v' (unlist p s e q t).
Proof.
  intros Hv Hn Hs Hq He Hr Hext Hlast Hbias Hother Hp' Hq'. pose proof (shows_wf _ _ Hv) as Hw.
  assert (sound (unlist p s e q t)) as Hw' by (by eapply wf_unlist).
  assert (entries (unlist p s e q t) = <[e := (q, NULL)]> (entries t)) as Ee by (unfold unlist; by destruct (p =? q)).
  assert (forall x nx, nodes (unlist p s e q t) !! x = Some nx ->
    (x = p /\ nx = node_names (delete s (n_names n)) n) \/
    (x = q /\ p <> q /\ nx = node_links (n_links nq + -1) nq) \/ (x <> p /\ x <> q /\ nodes t !! x = Some nx)) as Hnodes.
  { intros x nx. unfold unlist. destruct (Z.eqb_spec p q) as [->|Hne]; cbn.
    - intros [(-> & n' & Hx & ->)|[Hne Hx]]%lookup_alter_Some; [left|right; right]; simplify_eq; done.
    - intros [(-> & n' & Hx & ->)|[Hne' Hx]]%lookup_alter_Some.
      + rewrite lookup_alter_ne in Hx by done. right; left. by simplify_eq.
      + apply lookup_alter_Some in Hx as [(-> & n' & Hx & ->)|[Hne'' Hx]]; [left; by simplify_eq|right; right; done]. }
  split; [done|]. constructor.
  - rewrite Hr, (sh_refs _ _ Hv). unfold unlist. by destruct (p =? q).
  - intros x nx [[-> ->]|[(-> & Hne & ->)|(Hx1 & Hx2 & Hx)]]%Hnodes; [done|by apply Hq'|].
    rewrite Hother by done. by apply (sh_node _ _ Hv).
  - intros x. rewrite Ee, Hext, <- (sh_entries _ _ Hv). destruct (decide (e = x)) as [<-|Hne]; [by rewrite lookup_insert_eq, He|].
    by rewrite lookup_insert_ne.
  - rewrite Hext. apply (sh_magic _ _ Hv).
  - rewrite Hext. intros x nx s' e' y Hx. apply Hnodes in Hx as [[-> ->]|[(-> & Hne & ->)|(Hx1 & Hx2 & Hx)]].
    + cbn. intros [_ Hs']%lookup_delete_Some. exact (sh_named _ _ Hv p n s' e' y Hn Hs').
    + exact (sh_named _ _ Hv q nq s' e' y Hq).
    + exact (sh_named _ _ Hv x nx s' e' y Hx).
  - rewrite Hlast, (sh_last _ _ Hv). unfold unlist. by destruct (p =? q).
  - rewrite Hbias, (sh_bias _ _ Hv). unfold unlist. by destruct (p =? q).
  - rewrite Hext, (sh_verify _ _ Hv). unfold unlist. by destruct (p =? q).
  - rewrite Hext, (sh_rest _ _ Hv). unfold unlist. by destruct (p =? q).
Qed.

Lemma taken_out_shows i n d s e o t p q l k :
  sound t -> nodes t !! p = Some n -> shows_inode i n -> Instance i = Directory d -> n_names n !! s = Some e ->
  indexes o (delete s (n_names n)) -> entries t !! e = Some (q, p) ->
  shows_inode (with_lock l (with_data (Directory (taken_out o e d)) (with_epoch k i))) (node_names (delete s (n_names n)) n).
Proof.
  intros Hw Hn Hs Hd Hse Hx He. destruct (shows_dir_data i n d Hs Hd) as (Hm & Hpar & _ & Hnd & Hl).
  eapply shows_inode_dir; try done.
  - cbn. by apply NoDup_filter.
  - cbn. intros e'. rewrite list_elem_of_filter, Hl. split.
    + intros (Hne & s' & Hs'). exists s'. rewrite lookup_delete_ne; [done|]. intros ->. congruence.
    + intros (s' & [Hne Hs']%lookup_delete_Some). split; [|eauto]. intros ->. by destruct Hne; eapply (wf_once _ _ _ _ Hw p n s s' e).
Qed.

Lemma bag_add_back r bag : (Z.to_nat r < length bag)%nat -> bag_add r (-1) (bag_add r 1 bag) = bag.
Proof.
  intros Hr. destruct (lookup_lt_is_Some_2 bag _ Hr) as [x Hx]. rewrite (bag_add_eq r 1 bag x Hx).
  unfold bag_add. rewrite list_lookup_insert_eq by done. rewrite list_insert_insert_eq. apply list_insert_id. rewrite Hx. f_equal. cbn. lia.
Qed.

Lemma set_refs_same p bag v : refs v !! p = Some bag -> set_refs <[p := bag]> v = v.
Proof. intros Hb. unfold set_refs. rewrite insert_id by done. by destruct v. Qed.

Lemma set_refs_twice p x y v : set_refs <[p := y]> (set_refs <[p := x]> v) = set_refs <[p := y]> v.
Proof. unfold set_refs. cbn. by rewrite insert_insert_eq. Qed.

(** What stays in the list of the directory. *)
Lemma taken_out_gone o e (d : bitbucket_dir T) : negb (bool_decide (e ∈ DirEntries (taken_out o e d))) = true.
Proof. apply negb_true_iff, bool_decide_eq_false. cbn. rewrite list_elem_of_filter. by intros []. Qed.

Lemma does_remove_self p s e n t :
  nodes t !! p = Some n -> n_type n = BITBUCKET_DIR_TYPE -> n_names n !! s = Some e -> entries t !! e = Some (p, p) ->
  does (RemoveDirEntryFromDirectory p s) t e (unlist p s e p t).
Proof.
  intros Hn Hty Hs He v Hv. pose proof (shows_wf _ _ Hv) as Hw.
  destruct (sh_node _ _ Hv p n Hn) as (i & Hi & Hu & Hsi). destruct (shows_directory n i Hty Hsi) as [d Hd].
  pose proof (shows_dir_data i n d Hsi Hd) as (_ & _ & Hx & _ & Hl).
  destruct (shows_entry v t p n s e Hv Hn Hs) as (x & q & Hde & Hq & He' & _ & Hnull). assert (q = p) as -> by congruence.
  pose proof (wf_names _ _ _ _ Hw p n s e Hn Hs) as [Hse _].
  set (i1 := with_epoch (u64 (Epoch i + 1)) (with_lock LockedExclusive i)).
  destruct (runs_take_out (set_inos <[p := i1]> v) p s e p i1 i1 d x (n_names n)) as (o & Hxo & Hrun); try done;
    try apply lookup_insert_eq; [apply Hl; eauto|apply (wf_null _ _ _ _ Hw); eauto|].
  rewrite Z.eqb_refl in Hrun.
  assert (forall v', shows v' (unlist p s e p t) -> runs (RemoveDirEntryFromDirectory p s) v e v' ->
    exists v', runs (RemoveDirEntryFromDirectory p s) v e v' /\ shows v' (unlist p s e p t)) as Hgoal by eauto.
  eapply Hgoal; cycle 1.
  { unfold RemoveDirEntryFromDirectory. step_with ltac:(apply (runs_check_type p i); [done|]; rewrite <- Hty; apply Hsi).
    step_with ltac:(eapply runs_lock_exclusive; [by eapply shows_not_null|exact Hi|apply Hsi|done]). fold i1.
    step_with ltac:(eapply (runs_find_self _ p s e d i1); [vlook|exact Hd|by rewrite <- Hs; apply Hx|exact Hde|done]). cbv beta iota.
    destruct (Z.eqb_spec e NULL); [done|]. step_with ltac:(exact Hrun).
    cbn [Z.eqb NULL]. step_with ltac:(apply runs_ret). step_with ltac:(eapply runs_load_dir; [vlook|reflexivity]).
    step_with ltac:(apply runs_assert; cbn [orb]; apply taken_out_gone).
    step_with ltac:(eapply runs_unlock; [vlook|apply Hsi|by left]). apply runs_ret. }
  eapply (shows_unlist v t p p s e n n); try done.
  - intros y Hy _. cbn. by rewrite !lookup_insert_ne.
  - eexists. split; [vlook|]. split; [done|].
    apply (taken_out_shows i n d s e o t p p Unlocked (u64 (Epoch i + 1))); done.
Qed.

Lemma does_remove_other p s e q n nq bag t :
  nodes t !! p = Some n -> n_type n = BITBUCKET_DIR_TYPE -> n_names n !! s = Some e -> entries t !! e = Some (q, p) ->
  nodes t !! q = Some nq -> counts t !! q = Some bag -> sum bag + 1 < 2 ^ 32 -> p <> q ->
  does (RemoveDirEntryFromDirectory p s) t e (unlist p s e q t).
Proof.
  intros Hn Hty Hs He Hnq Hbag Hb Hne v Hv. pose proof (shows_wf _ _ Hv) as Hw.
  destruct (sh_node _ _ Hv p n Hn) as (i & Hi & Hu & Hsi). destruct (shows_directory n i Hty Hsi) as [d Hd].
  destruct (sh_node _ _ Hv q nq Hnq) as (j & Hj & Huj & Hsj).
  pose proof (shows_dir_data i n d Hsi Hd) as (_ & _ & Hx & _ & Hl).
  destruct (shows_entry v t p n s e Hv Hn Hs) as (x & q' & Hde & Hq & He' & _ & Hnull). assert (q' = q) as -> by congruence.
  pose proof (wf_names _ _ _ _ Hw p n s e Hn Hs) as [Hse _].
  assert (p <> NULL) as Hp0 by (apply (wf_null _ _ _ _ Hw); eauto). assert (q <> NULL) as Hq0 by (apply (wf_null _ _ _ _ Hw); eauto).
  pose proof (wf_links_pos t p q e nq Hw Hnq He Hp0 Hne) as Hlinks.
  destruct (wf_bag _ _ _ _ Hw q bag Hbag) as (Hlen & Hf & Hsum).
  set (i1 := with_epoch (u64 (Epoch i + 1)) (with_lock LockedExclusive i)).
  set (j1 := with_epoch (u64 (Epoch j + 1)) (with_lock LockedExclusive j)).
  set (bag1 := bag_add INODE_REMOVE_DIRENT_REFERENCE 1 bag).
  set (v1 := set_inos <[q := j1]> (set_refs <[q := bag1]> (set_inos <[p := i1]> v))).
  assert (inos v1 !! p = Some i1) as Hi1 by (subst v1; vlook). assert (inos v1 !! q = Some j1) as Hj1 by (subst v1; vlook).
  destruct (runs_take_out v1 p s e q i1 j1 d x (n_names n)) as (o & Hxo & Hrun); try done;
    [apply Hl; eauto|intros _; change (0 < st_nlink j); by rewrite (sn_links _ _ Hsj)|].
  destruct (Z.eqb_spec q p); [congruence|].
  assert (0 <= INODE_REMOVE_DIRENT_REFERENCE < 12 /\ Z.to_nat INODE_REMOVE_DIRENT_REFERENCE = 4%nat) as [Hr4 Hr4'] by done.
  destruct (lookup_lt_is_Some_2 bag 4) as [y Hy]; [lia|]. rewrite <- Hr4' in Hy. pose proof (sum_ge bag _ y Hf Hy) as Hyb.
  assert (sum bag1 = sum bag + 1) as Hsum1 by (by apply (bag_sum _ _ _ y)).
  assert (forall v', shows v' (unlist p s e q t) -> runs (RemoveDirEntryFromDirectory p s) v e v' ->
    exists v', runs (RemoveDirEntryFromDirectory p s) v e v' /\ shows v' (unlist p s e q t)) as Hgoal by eauto.
  eapply Hgoal; cycle 1.
  { unfold RemoveDirEntryFromDirectory. step_with ltac:(apply (runs_check_type p i); [done|]; rewrite <- Hty; apply Hsi).
    step_with ltac:(eapply runs_lock_exclusive; [by eapply shows_not_null|exact Hi|apply Hsi|done]). fold i1.
    step_with ltac:(eapply (runs_find_other _ p s e d i1 x q j bag); try done; [vlook|by rewrite <- Hs; apply Hx|vlook|apply Hsj|cbn; by rewrite (sh_refs _ _ Hv)]).
    fold j1 bag1. fold v1. cbv beta iota. destruct (Z.eqb_spec e NULL); [done|]. step_with ltac:(exact Hrun).
    destruct (Z.eqb_spec q NULL); [done|].
    step_with ltac:(step_with ltac:(eapply runs_unlock; [vlook|apply Hsj|by left]);
      apply (runs_dereference q bag1); [apply lookup_insert_eq|done|unfold bag1; rewrite (bag_this _ _ _ y Hy); cbn; lia|lia]).
    subst v1. step_with ltac:(eapply runs_load_dir; [vlook|reflexivity]).
    step_with ltac:(apply runs_assert; apply orb_true_iff; right; apply taken_out_gone).
    step_with ltac:(eapply runs_unlock; [vlook|apply Hsi|by left]). apply runs_ret. }
  eapply (shows_unlist v t p q s e n nq); try done.
  - cbn. rewrite insert_insert_eq. unfold bag1. rewrite bag_add_back by lia. apply insert_id. by rewrite (sh_refs _ _ Hv).
  - intros z Hz1 Hz2. cbn. by rewrite !lookup_insert_ne.
  - eexists. split; [vlook|]. split; [done|].
    apply (taken_out_shows i n d s e o t p q Unlocked (u64 (Epoch i + 1))); done.
  - intros _. eexists. split; [vlook|]. split; [done|]. cbn. rewrite (sn_links _ _ Hsj).
    exact (shows_inode_lock _ _ _ (shows_inode_link _ _ _ (shows_inode_epoch _ _ _ (shows_inode_lock _ _ _ Hsj)))).
Qed.

Lemma does_remove_missing p s n t :
  nodes t !! p = Some n -> n_type n = BITBUCKET_DIR_TYPE -> n_names n !! s = None ->
  does (RemoveDirEntryFromDirectory p s) t NULL t.
Proof.
  intros Hn Hty Hs v Hv. destruct (sh_node _ _ Hv p n Hn) as (i & Hi & Hu & Hsi). destruct (shows_directory n i Hty Hsi) as [d Hd].
  pose proof (shows_dir_data i n d Hsi Hd) as (_ & _ & [Hx _] & _ & _). specialize (Hx s). rewrite Hs in Hx.
  exists (set_inos <[p := with_epoch (u64 (Epoch i + 1)) i]> v). split.
  - unfold RemoveDirEntryFromDirectory. step_with ltac:(apply (runs_check_type p i); [done|]; rewrite <- Hty; apply Hsi).
    step_with ltac:(eapply runs_lock_exclusive; [by eapply shows_not_null|exact Hi|apply Hsi|done]).
    step_with ltac:(eapply runs_find_missing; [vlook|exact Hd|exact Hx]). cbv beta iota. cbn [Z.eqb NULL].
    step_with ltac:(apply runs_ret). step_with ltac:(apply runs_ret).
    step_with ltac:(eapply runs_load_dir; [vlook|exact Hd]). step_with ltac:(by apply runs_assert).
    step_with ltac:(eapply runs_unlock; [vlook|apply Hsi|by left]). eapply runs_conv; [apply runs_ret|done|].
    rewrite set_inos_twice. by rewrite relock_epoch.
  - eapply (shows_relock v t (fun x y => if decide (x = p) then with_epoch (u64 (Epoch i + 1)) y else y)); try done.
    + intros x y ny _ _ _. case_decide; [eauto|]. exists (Epoch y). by destruct y.
    + intros x y Hxy. cbn. destruct (decide (x = p)) as [->|Hxp]; [|by rewrite lookup_insert_ne].
      rewrite lookup_insert_eq. congruence.
Qed.

(** ** Freeing entries and losing parents *)

Lemma mirrors_del_entry v t e : mirrors v t -> mirrors (set_dirents (delete e) v) (del_entry e t).
Proof.
  intros []. constructor; cbn; try done.
  - intros x. destruct (decide (e = x)) as [<-|Hne]; [by rewrite !lookup_delete_eq|]. by rewrite !lookup_delete_ne.
  - intros x y [_ Hx]%lookup_delete_Some. by eapply sh_magic0.
  - intros x n s e' y Hn Hs [_ Hy]%lookup_delete_Some. by eapply sh_named0.
Qed.

Lemma mirrors_set_parent v t c q i d :
  mirrors v t -> inos v !! c = Some i -> Instance i = Directory d ->
  mirrors (set_inos <[c := with_data (Directory (with_parent q d)) i]> v) (set_parent c q t).
Proof.
  intros [] Hi Hd. constructor; cbn; try done.
  - intros x n [(-> & n' & Hn & ->)|[Hne Hn]]%lookup_alter_Some; [|rewrite lookup_insert_ne by done; by apply sh_node0].
    rewrite lookup_insert_eq. destruct (sh_node0 _ _ Hn) as (i' & Hi' & Hu & Hs). simplify_eq. eexists. split; [done|].
    split; [done|]. destruct Hs as [[] ? ? ? ? ? ? Hs]. constructor; try done.
    unfold shows_data in *. rewrite Hd in Hs. cbn. by destruct Hs as (? & ? & ? & _ & ? & ? & ? & ?).
  - intros x n s e y [(-> & n' & Hn & ->)|[Hne Hn]]%lookup_alter_Some; exact (sh_named0 _ _ _ _ _ Hn).
Qed.

Lemma drop_more p r t bag : counts t !! p = Some bag -> 1 < sum bag -> drop p r t = set_counts <[p := bag_add r (-1) bag]> t.
Proof. intros Hp Hb. unfold drop. rewrite Hp. destruct (Z.eqb_spec 1 (sum bag)); [lia|done]. Qed.

Lemma dropped_more p r v bag : 1 < sum bag -> dropped p bag r 1 v = set_refs <[p := bag_add r (-1) bag]> v.
Proof. intros Hb. unfold dropped. destruct (Z.eqb_spec 1 (sum bag)); [lia|done]. Qed.

(** An unlisted entry gives its reference back and is freed. *)
Lemma does_discard e q bag t :
  entries t !! e = Some (q, NULL) -> counts t !! q = Some bag ->
  (forall n, sum bag = 1 -> nodes t !! q = Some n -> n_names n = ∅ /\ n_parent n = NULL) ->
  does (BitbucketDereferenceInode q INODE_DIRENT_REFERENCE 1;; update_dirent e (with_de_inode NULL);; free_dirent e) t tt (discard e q t).
Proof.
  intros He Hq Hlast v Hv. pose proof (shows_wf _ _ Hv) as Hw.
  assert (is_Some (nodes t !! q)) as [n Hn] by (apply (wf_dom _ _ _ _ Hw); eauto).
  destruct (sh_node _ _ Hv q n Hn) as (i & Hi & Hu & Hs).
  pose proof (sh_entries _ _ Hv e) as Hx. rewrite He in Hx. symmetry in Hx. apply fmap_Some in Hx as (x & Hx & _).
  exists (dropped q bag INODE_DIRENT_REFERENCE 1 (set_dirents (delete e) v)). split.
  - step_with ltac:(eapply (runs_drop_node v q bag i n); [by rewrite (sh_refs _ _ Hv)|done|done|intros E; by apply Hlast|done|]).
    { change (Z.to_nat INODE_DIRENT_REFERENCE) with 2%nat. rewrite (wf_dirents _ _ _ _ Hw q bag Hq). cbn.
      pose proof (tally_pos fst _ e _ He) as Ht. cbn in Ht. unfold none. lia. }
    assert (dirents (ext (dropped q bag INODE_DIRENT_REFERENCE 1 v)) !! e = Some x) as Hx' by (unfold dropped; by case_match).
    step_with ltac:(by eapply runs_update_dirent).
    eapply runs_conv; [eapply runs_free_dirent; dlook|done|]. unfold dropped, gone, set_dirents, with_dirents.
    destruct (1 =? sum bag); cbn; by rewrite delete_insert_eq.
  - split; [by eapply wf_discard|]. apply (mirrors_dropped (set_dirents (delete e) v) (del_entry e t)); [|done].
    apply mirrors_del_entry, Hv.
Qed.

Lemma does_unlink_parent p c e nc bag t :
  nodes t !! c = Some nc -> n_type nc = BITBUCKET_DIR_TYPE -> n_names nc !! ".."%string = Some e -> entries t !! e = Some (p, c) ->
  n_parent nc = p -> c <> p -> counts t !! p = Some bag -> 2 < sum bag -> sum bag + 1 < 2 ^ 32 ->
  does (unlink_parent p c) t tt (orphan c p (discard e p (unlist c ".." e p t))).
Proof.
  intros Hc Hty Hs He Hpar Hne Hp Hb2 Hb. apply does_wf. intros Hw.
  assert (is_Some (nodes t !! p)) as [np Hnp] by (apply (wf_dom _ _ _ _ Hw); eauto).
  assert (p <> NULL) as Hp0 by (apply (wf_null _ _ _ _ Hw); eauto).
  set (t1 := unlist c ".." e p t). set (nc1 := node_names (delete ".."%string (n_names nc)) nc).
  assert (nodes t1 !! c = Some nc1) as Hc1.
  { subst t1 nc1. unfold unlist. destruct (Z.eqb_spec c p); [done|]. cbn. rewrite lookup_alter_ne, lookup_alter_eq by done. by rewrite Hc. }
  assert (counts t1 !! p = Some bag) as Hp1 by (unfold t1, unlist; by destruct (c =? p)).
  assert (entries t1 !! e = Some (p, NULL)) as He1.
  { unfold t1, unlist. destruct (c =? p); cbn; by rewrite lookup_insert_eq. }
  set (bag1 := bag_add INODE_DIRENT_REFERENCE (-1) bag).
  assert (discard e p t1 = set_counts <[p := bag1]> (del_entry e t1)) as Hdis by (apply drop_more; [done|lia]).
  eapply does_bind; [by eapply (does_remove_other c ".." e p nc np bag)|]. fold t1.
  destruct (Z.eqb_spec e NULL) as [->|Hnull]; [by destruct (wf_entry _ _ _ _ Hw NULL p c He)|].
  intros v Hv. pose proof (shows_wf _ _ Hv) as Hw1.
  destruct (wf_bag _ _ _ _ Hw1 p bag Hp1) as (Hlen & Hf & _).
  destruct (lookup_lt_is_Some_2 bag 2) as [y Hy]; [lia|]. change 2%nat with (Z.to_nat INODE_DIRENT_REFERENCE) in Hy.
  assert (sum bag1 = sum bag - 1) as Hsum1 by (unfold bag1; rewrite (bag_sum _ _ _ y Hy); lia).
  assert (bag !! 1%nat = Some (tally n_parent (nodes t1) p)) as Hpb.
  { rewrite (wf_parents _ _ _ _ Hw1 p bag Hp1). f_equal. unfold none. lia. }
  pose proof (tally_pos n_parent _ c _ Hc1) as Hpt. change (n_parent nc1) with (n_parent nc) in Hpt. rewrite Hpar in Hpt.
  assert (bag1 !! 1%nat = Some (tally n_parent (nodes t1) p)) as Hpb1 by (unfold bag1; by rewrite bag_other).
  assert (bag !! 2%nat = Some (tally fst (entries t1) p)) as Hdb.
  { rewrite (wf_dirents _ _ _ _ Hw1 p bag Hp1). f_equal. unfold none. lia. }
  pose proof (tally_pos fst _ e _ He1) as Hdt. cbn in Hdt.
  destruct (sh_node _ _ Hv c nc1 Hc1) as (i & Hi & Hu & Hsi). destruct (shows_directory nc1 i Hty Hsi) as [d Hd].
  pose proof (shows_dir_data i nc1 d Hsi Hd) as (_ & Hpd & _). change (n_parent nc1) with (n_parent nc) in Hpd. rewrite Hpar in Hpd.
  pose proof (sh_entries _ _ Hv e) as Hx. rewrite He1 in Hx. symmetry in Hx. apply fmap_Some in Hx as (x & Hx & Hxi). cbn in Hxi.
  set (bag2 := bag_add INODE_PARENT_REFERENCE (-1) bag1).
  exists (set_inos <[c := with_data (Directory (with_parent NULL d)) i]> (set_refs <[p := bag2]> (set_refs <[p := bag1]> (set_dirents (delete e) v)))).
  split.
  - step_with ltac:(by apply runs_load_dirent). rewrite <- Hxi. step_with ltac:(apply runs_assert, Z.eqb_refl).
    step_with ltac:(by eapply runs_load_dir). rewrite Hpd. step_with ltac:(apply runs_assert, Z.eqb_refl).
    step_with ltac:(apply (runs_dereference p bag); [by rewrite (sh_refs _ _ Hv)|done|change (Z.to_nat INODE_DIRENT_REFERENCE) with 2%nat; rewrite Hdb; cbn; lia|lia]). fold bag1.
    step_with ltac:(eapply runs_update_dirent; dlook).
    step_with ltac:(eapply runs_load_dir; [vlook|exact Hd]). rewrite Hpd.
    step_with ltac:(apply (runs_dereference p bag1); [apply lookup_insert_eq|done|change (Z.to_nat INODE_PARENT_REFERENCE) with 1%nat; rewrite Hpb1; cbn; lia|lia]). fold bag2.
    step_with ltac:(eapply runs_update_dir; [vlook|exact Hd]).
    eapply runs_conv; [eapply runs_free_dirent; dlook|done|].
    unfold set_inos, set_refs, set_dirents, set_ext, with_dirents. cbn. by rewrite delete_insert_eq.
  - split.
    + assert (sound (discard e p t1)) as Hw2.
      { eapply wf_discard; [done..|]. intros n' E. lia. }
      apply (wf_orphan _ c p nc1 bag1); try done.
      * by rewrite Hdis.
      * rewrite Hdis. cbn. apply lookup_insert_eq.
      * intros n' E. lia.
    + unfold orphan. rewrite (drop_more p _ _ bag1); [|rewrite Hdis; cbn; apply lookup_insert_eq|lia]. fold bag2.
      pose proof (mirrors_set_parent _ _ c NULL i d (mirrors_del_entry v t1 e (sh_mirrors _ _ Hv)) Hi Hd) as Hm.
      rewrite Hdis. destruct Hm. constructor; cbn in *; try done. by rewrite sh_refs0.
Qed.

Lemma does_unlink_parent_missing p c nc t :
  nodes t !! c = Some nc -> n_type nc = BITBUCKET_DIR_TYPE -> n_names nc !! ".."%string = None -> does (unlink_parent p c) t tt t.
Proof. intros Hc Hty Hs. eapply does_bind; [by eapply does_remove_missing|]. apply does_ret. Qed.

(** ** Deletion of entries *)

Lemma does_load_dirent {B} e q d (k : dir_entry -> MW B) t r t' :
  entries t !! e = Some (q, d) -> (forall x, de_Inode x = q -> does (k x) t r t') -> does (load_dirent e ≫= k) t r t'.
Proof.
  intros He Hk v Hv. pose proof (sh_entries _ _ Hv e) as Hx. rewrite He in Hx. symmetry in Hx.
  apply fmap_Some in Hx as (x & Hx & Hq). cbn in Hq. destruct (Hk x (eq_sym Hq) v Hv) as (v' & Hr & Hv').
  exists v'. split; [|done]. step_with ltac:(by apply runs_load_dirent). done.
Qed.

Lemma does_load_dir {B} p n (k : bitbucket_dir T -> MW B) t r t' :
  nodes t !! p = Some n -> n_type n = BITBUCKET_DIR_TYPE ->
  (forall d, Parent d = n_parent n -> NoDup (DirEntries d) ->
     (forall e, e ∈ DirEntries d <-> exists s, n_names n !! s = Some e) -> does (k d) t r t') ->
  does (load_dir p ≫= k) t r t'.
Proof.
  intros Hn Hty Hk v Hv. destruct (sh_node _ _ Hv p n Hn) as (i & Hi & _ & Hs). destruct (shows_directory n i Hty Hs) as [d Hd].
  pose proof (shows_dir_data i n d Hs Hd) as (_ & Hp & _ & Hnd & Hl). destruct (Hk d Hp Hnd Hl v Hv) as (v' & Hr & Hv').
  exists v'. split; [|done]. step_with ltac:(by eapply runs_load_dir). done.
Qed.

Ltac dstep_with r := eapply does_bind; [r|].
Ltac dstep_assert := dstep_with ltac:(apply does_assert).

Lemma does_not_null {B} p (k : unit -> MW B) t r t' :
  is_Some (nodes t !! p) -> does (k tt) t r t' -> does (c_assert (negb (p =? NULL)) ≫= k) t r t'.
Proof.
  intros Hp Hk. apply does_wf. intros Hw. dstep_with ltac:(apply does_assert, negb_true_iff, Z.eqb_neq, (wf_null _ _ _ _ Hw), Hp).
  done.
Qed.

(** The checks [BitbucketDeleteDirectoryEntry] begins with. *)
Lemma does_delete_checks {B} p s n (k : MW B) t r t' :
  nodes t !! p = Some n -> n_type n = BITBUCKET_DIR_TYPE -> s <> EmptyString -> does k t r t' ->
  does (c_assert (negb (p =? NULL));; c_assert (0 <? Z.of_nat (String.length s));; CHECK_INODE_MAGIC p;;
        CHECK_TYPE BITBUCKET_DIR_TYPE p;; CHECK_INSTANCE_MAGIC BITBUCKET_DIR_MAGIC p;; VerifyDirectoryEntries p;; k) t r t'.
Proof.
  intros Hn Hty Hs Hk. apply does_not_null; [eauto|].
  dstep_with ltac:(apply does_assert; by destruct s). dstep_with ltac:(by eapply does_check_inode).
  dstep_with ltac:(by eapply does_check_type). dstep_with ltac:(by eapply does_check_dir).
  by dstep_with ltac:(by eapply does_verify).
Qed.

Lemma does_delete_missing p s n t :
  nodes t !! p = Some n -> n_type n = BITBUCKET_DIR_TYPE -> s <> EmptyString -> n_names n !! s = None ->
  does (BitbucketDeleteDirectoryEntry p s) t ENOENT t.
Proof.
  intros Hn Hty Hse Hs. unfold BitbucketDeleteDirectoryEntry. eapply does_delete_checks; [done..|].
  dstep_with ltac:(by eapply does_lookup_missing). cbn [Z.eqb NULL]. dstep_with ltac:(apply does_ret).
  dstep_with ltac:(by eapply does_verify). apply does_ret.
Qed.

Lemma does_answer {A} (m1 m2 m3 : MW unit) (r : A) t t' :
  does (m1;; m2;; m3) t tt t' -> does (m1;; m2;; m3;; mret r) t r t'.
Proof.
  intros Hd v Hv. destruct (Hd v Hv) as (v' & Hr & Hv'). exists v'. split; [|done].
  intros w Hw. destruct (Hr w Hw) as (w' & Hrun & Hw'). exists w'. split; [|done]. clear -Hrun.
  unfold mbind, M_bind in *. destruct (m1 w) as [[[] w1]|]; [|done]. destruct (m2 w1) as [[[] w2]|]; [|done]. by rewrite Hrun.
Qed.

Lemma discard_node e q bag t p :
  counts t !! q = Some bag -> nodes (discard e q t) !! p = if 1 =? sum bag then delete q (nodes t) !! p else nodes t !! p.
Proof. intros Hq. unfold discard, drop. cbn [counts del_entry set_entries]. rewrite Hq. by destruct (1 =? sum bag). Qed.

(** A deletion, up to what it does to a directory that loses its parent. *)
Lemma does_delete p s e q n nq bag bag2 n2 nq2 t t2 :
  nodes t !! p = Some n -> n_type n = BITBUCKET_DIR_TYPE -> n_names n !! s = Some e -> entries t !! e = Some (q, p) ->
  nodes t !! q = Some nq -> counts t !! q = Some bag -> sum bag + 2 < 2 ^ 32 ->
  does (if n_type nq =? BITBUCKET_DIR_TYPE then unlink_parent p q else mret ()) (unlist p s e q (hold q INODE_LOOKUP_REFERENCE t)) tt t2 ->
  entries t2 !! e = Some (q, NULL) -> counts t2 !! q = Some bag2 -> 1 < sum bag2 -> 1 <= default 0 (bag2 !! 0%nat) ->
  nodes t2 !! q = Some nq2 -> nodes t2 !! p = Some n2 -> n_type n2 = BITBUCKET_DIR_TYPE ->
  (sum bag2 = 2 -> n_names nq2 = ∅ /\ n_parent nq2 = NULL /\ p <> q) ->
  does (BitbucketDeleteDirectoryEntry p s) t 0 (discard e q (drop q INODE_LOOKUP_REFERENCE t2)).
Proof.
  intros Hn Hty Hs He Hnq Hbag Hb Hmid He2 Hbag2 Hsum2 Hone Hnq2 Hn2 Hty2 Hlast. apply does_wf. intros Hw.
  pose proof (wf_names _ _ _ _ Hw p n s e Hn Hs) as [Hse _].
  assert (q <> NULL) as Hq0 by (apply (wf_null _ _ _ _ Hw); eauto).
  destruct (bag_lookup none none none t q bag 0 Hw Hbag ltac:(lia)) as (x0 & Hx0 & _).
  set (t1 := hold q INODE_LOOKUP_REFERENCE t) in *.
  assert (counts t1 !! q = Some (bag_add INODE_LOOKUP_REFERENCE 1 bag)) as Hbag1.
  { cbn. rewrite (alter_insert_Some _ _ _ _ Hbag). apply lookup_insert_eq. }
  assert (sum (bag_add INODE_LOOKUP_REFERENCE 1 bag) = sum bag + 1) as Hsum1 by (by apply (bag_sum _ _ _ x0)).
  unfold BitbucketDeleteDirectoryEntry. eapply does_delete_checks; [done..|].
  dstep_with ltac:(eapply (does_lookup_found p n s e q bag); [done..|lia]). fold t1.
  destruct (Z.eqb_spec q NULL); [done|].
  eapply does_bind.
  { eapply (does_bind _ _ _ e (unlist p s e q t1)).
    { destruct (decide (p = q)) as [<-|Hne].
      - eapply (does_remove_self p s e n); done.
      - eapply (does_remove_other p s e q n nq); [done..|lia|done]. }
    destruct (Z.eqb_spec e NULL) as [->|Hnull]; [by destruct (wf_entry _ _ _ _ Hw NULL q p He)|].
    eapply does_load_dirent; [unfold unlist; destruct (p =? q); cbn; apply lookup_insert_eq|].
    intros x Hx. rewrite Hx.
    assert (exists nq1, nodes (unlist p s e q t1) !! q = Some nq1 /\ n_type nq1 = n_type nq) as (nq1 & Hnq1 & Hty1).
    { unfold unlist. destruct (Z.eqb_spec p q) as [->|Hne]; cbn.
      - rewrite lookup_alter_eq, Hnq. eexists. split; [done|]. done.
      - rewrite lookup_alter_eq, lookup_alter_ne, Hnq by done. eexists. split; [done|]. done. }
    eapply does_load; [exact Hnq1|]. intros i Hi. rewrite (sn_type _ _ Hi), Hty1. dstep_with ltac:(exact Hmid).
    dstep_with ltac:(eapply (does_drop q INODE_LOOKUP_REFERENCE t2 bag2 nq2); [done..|lia]).
    eapply does_wf. intros Hw3. set (t3 := drop q INODE_LOOKUP_REFERENCE t2) in *.
    assert (t3 = set_counts <[q := bag_add INODE_LOOKUP_REFERENCE (-1) bag2]> t2) as E3 by (by apply drop_more).
    assert (entries t3 !! e = Some (q, NULL)) as He3 by (by rewrite E3).
    destruct (bag2 !! 0%nat) as [x2|] eqn:Hx2; cbn in Hone; [|lia].
    assert (sum (bag_add INODE_LOOKUP_REFERENCE (-1) bag2) = sum bag2 - 1) as Hsum3 by (by apply (bag_sum _ _ _ x2)).
    eapply does_load_dir; [rewrite E3; exact Hn2|done|]. intros d _ _ Hl. dstep_with ltac:(apply does_assert).
    { apply negb_true_iff, bool_decide_eq_false. intros [s' Hs']%Hl. rewrite E3 in He3.
      destruct (wf_names _ _ _ _ Hw3 p n2 s' e) as (_ & q' & Hq'); [by rewrite E3|done|]. rewrite E3 in Hq'. cbn in Hq', He3.
      simplify_eq. apply (wf_null _ _ _ _ Hw NULL); [|done]. eauto. }
    eapply does_load_dirent; [exact He3|]. intros y Hy. rewrite Hy.
    eapply does_conv with (t1 := discard e q t3); [|done].
    assert (does (BitbucketDereferenceInode q INODE_DIRENT_REFERENCE 1;; update_dirent e (with_de_inode NULL);; free_dirent e) t3 tt (discard e q t3)) as Hd.
    { eapply does_discard; [done|rewrite E3; apply lookup_insert_eq|]. intros n' E Hn'. rewrite Hsum3 in E.
      rewrite E3 in Hn'. cbn in Hn'. simplify_eq. destruct Hlast as (? & ? & _); [lia|done]. }
    by apply does_answer. }
  assert (nodes (discard e q (drop q INODE_LOOKUP_REFERENCE t2)) !! p = Some n2) as Hn3.
  { rewrite drop_more with (bag := bag2) by done. destruct (bag2 !! 0%nat) as [x2|] eqn:Hx2; cbn in Hone; [|lia].
    rewrite (discard_node _ q (bag_add INODE_LOOKUP_REFERENCE (-1) bag2)) by (cbn; apply lookup_insert_eq).
    rewrite (bag_sum _ _ _ x2) by done. cbn [nodes set_counts].
    destruct (Z.eqb_spec 1 (sum bag2 + -1)); [|done]. rewrite lookup_delete_ne; [done|]. intros <-.
    destruct Hlast as (_ & _ & ?); [lia|done]. }
  dstep_with ltac:(by eapply does_verify). apply does_ret.
Qed.

(** A reference that is taken and dropped again leaves no trace. *)
Lemma drop_hold q r t bag :
  sound t -> counts t !! q = Some bag -> 0 <= r < 12 -> drop q r (hold q r t) = t.
Proof.
  intros Hw Hq Hr. destruct (wf_bag _ _ _ _ Hw q bag Hq) as (Hl & _ & Hs).
  destruct (bag_lookup _ _ _ t q bag r Hw Hq Hr) as (x & Hx & _).
  rewrite (drop_more q r (hold q r t) (bag_add r 1 bag)).
  - rewrite bag_add_back by lia. unfold hold, set_counts. cbn. rewrite (alter_insert_Some _ _ _ _ Hq), insert_insert_eq, insert_id by done.
    by destruct t.
  - cbn. rewrite (alter_insert_Some _ _ _ _ Hq). apply lookup_insert_eq.
  - rewrite (bag_sum _ _ _ x) by done. lia.
Qed.

Lemma unlist_hold p s e q c r t : unlist p s e q (hold c r t) = hold c r (unlist p s e q t).
Proof. unfold unlist. by destruct (p =? q). Qed.

Lemma drop_hold_ne p q r r' t bag :
  counts t !! p = Some bag -> 1 < sum bag -> p <> q -> drop p r (hold q r' t) = hold q r' (drop p r t).
Proof.
  intros Hp Hb Hne. rewrite (drop_more p r t bag), (drop_more p r (hold q r' t) bag) by (done || (cbn; by rewrite lookup_alter_ne)).
  unfold hold, set_counts. cbn. f_equal. apply map_eq. intros x. destruct (decide (x = p)) as [->|Hx].
  - by rewrite lookup_insert_eq, lookup_alter_ne, lookup_insert_eq.
  - destruct (decide (x = q)) as [->|Hxq].
    + by rewrite lookup_insert_ne, !lookup_alter_eq, lookup_insert_ne by done.
    + by rewrite lookup_insert_ne, !lookup_alter_ne, lookup_insert_ne by done.
Qed.

Lemma unlist_counts p s e q t : counts (unlist p s e q t) = counts t.
Proof. unfold unlist. by destruct (p =? q). Qed.

Lemma unlist_entry p s e q t : entries (unlist p s e q t) = <[e := (q, NULL)]> (entries t).
Proof. unfold unlist. by destruct (p =? q). Qed.

(** The nodes after an entry left its directory. *)
Lemma unlist_dir p s e q t n :
  nodes t !! p = Some n -> exists n', nodes (unlist p s e q t) !! p = Some n' /\ n_type n' = n_type n /\
    n_parent n' = n_parent n /\ n_names n' = delete s (n_names n).
Proof.
  intros Hn. unfold unlist. destruct (Z.eqb_spec p q) as [->|Hne]; cbn.
  - rewrite lookup_alter_eq, Hn. by eexists.
  - rewrite lookup_alter_ne, lookup_alter_eq, Hn by done. by eexists.
Qed.

Lemma unlist_other p s e q t x n :
  nodes t !! x = Some n -> x <> p -> exists n', nodes (unlist p s e q t) !! x = Some n' /\ n_type n' = n_type n /\
    n_parent n' = n_parent n /\ n_names n' = n_names n.
Proof.
  intros Hn Hx. unfold unlist. destruct (Z.eqb_spec p q) as [->|Hne]; cbn.
  - rewrite lookup_alter_ne, Hn by done. by eexists.
  - destruct (decide (x = q)) as [->|Hxq].
    + rewrite lookup_alter_eq, lookup_alter_ne, Hn by done. by eexists.
    + rewrite !lookup_alter_ne, Hn by done. by eexists.
Qed.

Lemma does_delete_leaf p s e q n nq bag t :
  nodes t !! p = Some n -> n_type n = BITBUCKET_DIR_TYPE -> n_names n !! s = Some e -> entries t !! e = Some (q, p) ->
  nodes t !! q = Some nq -> n_type nq <> BITBUCKET_DIR_TYPE -> counts t !! q = Some bag -> sum bag + 2 < 2 ^ 32 ->
  does (BitbucketDeleteDirectoryEntry p s) t 0 (discard e q (unlist p s e q t)).
Proof.
  intros Hn Hty Hs He Hnq Htyq Hq Hb. apply does_wf. intros Hw. assert (p <> q) as Hne by (intros ->; congruence).
  pose proof (wf_unlist t p s e q n Hw Hn Hs He) as Hw1.
  destruct (bag_lookup _ _ _ t q bag 0 Hw Hq ltac:(lia)) as (x & Hx & Hxb). destruct (wf_bag _ _ _ _ Hw q bag Hq) as (_ & _ & Hs0).
  destruct (unlist_dir p s e q t n Hn) as (n' & Hn' & Htn & _). destruct (unlist_other p s e q t q nq Hnq) as (nq' & Hnq' & Htq & Hpq & Hnames); [done|].
  destruct (wf_leaf _ _ _ _ Hw q nq Hnq Htyq) as [Hnm Hpar].
  eapply does_conv; [eapply (does_delete p s e q n nq bag (bag_add INODE_LOOKUP_REFERENCE 1 bag) n' nq' t (unlist p s e q (hold q INODE_LOOKUP_REFERENCE t))); try done|].
  - destruct (Z.eqb_spec (n_type nq) BITBUCKET_DIR_TYPE); [done|]. apply does_ret.
  - rewrite unlist_entry. apply lookup_insert_eq.
  - rewrite unlist_counts. cbn. rewrite (alter_insert_Some _ _ _ _ Hq). apply lookup_insert_eq.
  - rewrite (bag_sum _ _ _ x) by done. lia.
  - change 0%nat with (Z.to_nat INODE_LOOKUP_REFERENCE). rewrite (bag_this _ _ _ x) by done. cbn. lia.
  - by rewrite unlist_hold.
  - by rewrite unlist_hold.
  - congruence.
  - intros _. split; [congruence|]. split; [congruence|done].
  - rewrite unlist_hold, (drop_hold _ _ _ bag) by (done || by rewrite unlist_counts). done.
Qed.

(** An entry of a directory for itself, when it has no parent entry. *)
Lemma does_delete_self p s e n bag t :
  nodes t !! p = Some n -> n_type n = BITBUCKET_DIR_TYPE -> n_names n !! s = Some e -> entries t !! e = Some (p, p) ->
  delete s (n_names n) !! ".."%string = None -> counts t !! p = Some bag -> 1 < sum bag -> sum bag + 2 < 2 ^ 32 ->
  does (BitbucketDeleteDirectoryEntry p s) t 0 (discard e p (unlist p s e p t)).
Proof.
  intros Hn Hty Hs He Hdots Hq Hb1 Hb. apply does_wf. intros Hw.
  pose proof (wf_unlist t p s e p n Hw Hn Hs He) as Hw1.
  destruct (bag_lookup _ _ _ t p bag 0 Hw Hq ltac:(lia)) as (x & Hx & Hxb).
  destruct (unlist_dir p s e p t n Hn) as (n' & Hn' & Htn & Hpn & Hnames).
  eapply does_conv; [eapply (does_delete p s e p n n bag (bag_add INODE_LOOKUP_REFERENCE 1 bag) n' n' t (unlist p s e p (hold p INODE_LOOKUP_REFERENCE t))); try done|].
  - rewrite Hty, Z.eqb_refl. rewrite unlist_hold. eapply (does_unlink_parent_missing p p n'); [done|congruence|congruence].
  - rewrite unlist_entry. apply lookup_insert_eq.
  - rewrite unlist_counts. cbn. rewrite (alter_insert_Some _ _ _ _ Hq). apply lookup_insert_eq.
  - rewrite (bag_sum _ _ _ x) by done. lia.
  - change 0%nat with (Z.to_nat INODE_LOOKUP_REFERENCE). rewrite (bag_this _ _ _ x) by done. cbn. lia.
  - by rewrite unlist_hold.
  - by rewrite unlist_hold.
  - congruence.
  - rewrite (bag_sum _ _ _ x) by done. lia.
  - rewrite unlist_hold, (drop_hold _ _ _ bag) by (done || by rewrite unlist_counts). done.
Qed.

(** What happens to a directory that is unlinked from its parent. *)
Definition detach c p e2 t : tree := orphan c p (discard e2 p (unlist c ".." e2 p t)).

Lemma does_delete_dir p s e c e2 n nc bag bagc t :
  nodes t !! p = Some n -> n_type n = BITBUCKET_DIR_TYPE -> n_names n !! s = Some e -> entries t !! e = Some (c, p) ->
  nodes t !! c = Some nc -> n_type nc = BITBUCKET_DIR_TYPE -> counts t !! c = Some bagc -> sum bagc + 2 < 2 ^ 32 -> 1 < sum bagc ->
  n_names nc !! ".."%string = Some e2 -> entries t !! e2 = Some (p, c) -> n_parent nc = p -> c <> p ->
  counts t !! p = Some bag -> 2 < sum bag -> sum bag + 1 < 2 ^ 32 ->
  does (BitbucketDeleteDirectoryEntry p s) t 0 (discard e c (detach c p e2 (unlist p s e c t))).
Proof.
  intros Hn Hty Hs He Hnc Htyc Hc Hbc Hbc1 Hdots He2 Hpar Hne Hp Hb2 Hb. apply does_wf. intros Hw.
  pose proof (wf_unlist t p s e c n Hw Hn Hs He) as Hw1.
  destruct (bag_lookup _ _ _ t c bagc 0 Hw Hc ltac:(lia)) as (x & Hx & Hxb).
  destruct (unlist_dir p s e c t n Hn) as (n1 & Hn1 & Htn1 & _ & Hnames1).
  destruct (unlist_other p s e c t c nc Hnc Hne) as (nc1 & Hnc1 & Htc1 & Hpc1 & Hnamesc1).
  set (t1 := unlist p s e c t) in *.
  assert (e2 <> e) as Hee by (intros ->; congruence).
  assert (entries t1 !! e2 = Some (p, c)) as He2' by (unfold t1; rewrite unlist_entry; by rewrite lookup_insert_ne).
  assert (counts t1 !! p = Some bag) as Hp1 by (unfold t1; by rewrite unlist_counts).
  assert (counts t1 !! c = Some bagc) as Hc1 by (unfold t1; by rewrite unlist_counts).
  pose proof (wf_unlist t1 c ".." e2 p nc1 Hw1 Hnc1 ltac:(congruence) He2') as Hw2.
  destruct (unlist_dir c ".." e2 p t1 nc1 Hnc1) as (nc2 & Hnc2 & Htc2 & Hpc2 & Hnamesc2).
  destruct (unlist_other c ".." e2 p t1 p n1 Hn1 ltac:(congruence)) as (n2 & Hn2 & Htn2 & _ & Hnames2).
  set (t2 := unlist c ".." e2 p t1) in *.
  assert (counts t2 !! p = Some bag) as Hp2 by (unfold t2; by rewrite unlist_counts).
  destruct (bag_lookup _ _ _ t p bag 2 Hw Hp ltac:(lia)) as (y & Hy & Hyb).
  set (bag1 := bag_add INODE_DIRENT_REFERENCE (-1) bag).
  assert (sum bag1 = sum bag - 1) as Hsum1 by (unfold bag1; rewrite (bag_sum _ _ _ y) by done; lia).
  set (t3 := set_counts <[p := bag1]> (del_entry e2 t2)).
  assert (discard e2 p t2 = t3) as E3 by (apply drop_more; [done|lia]).
  set (bag2 := bag_add INODE_PARENT_REFERENCE (-1) bag1).
  assert (detach c p e2 t1 = set_counts <[p := bag2]> (set_parent c NULL t3)) as E4.
  { unfold detach. fold t2. rewrite E3. apply drop_more; [cbn; apply lookup_insert_eq|lia]. }
  assert (unlist p s e c (hold c INODE_LOOKUP_REFERENCE t) = hold c INODE_LOOKUP_REFERENCE t1) as E1 by (by rewrite unlist_hold).
  assert (detach c p e2 (hold c INODE_LOOKUP_REFERENCE t1) = hold c INODE_LOOKUP_REFERENCE (detach c p e2 t1)) as E5.
  { unfold detach. rewrite unlist_hold. fold t2. unfold discard, orphan.
    change (del_entry e2 (hold c INODE_LOOKUP_REFERENCE t2)) with (hold c INODE_LOOKUP_REFERENCE (del_entry e2 t2)).
    rewrite (drop_hold_ne p c _ _ (del_entry e2 t2) bag) by (done || lia).
    change (drop p INODE_DIRENT_REFERENCE (del_entry e2 t2)) with (discard e2 p t2). rewrite E3.
    change (set_parent c NULL (hold c INODE_LOOKUP_REFERENCE t3)) with (hold c INODE_LOOKUP_REFERENCE (set_parent c NULL t3)).
    apply (drop_hold_ne p c _ _ _ bag1); [cbn; apply lookup_insert_eq|lia|done]. }
  assert (sound (detach c p e2 t1)) as Hw4.
  { assert (sound (discard e2 p t2)) as Hw3.
    { eapply wf_discard; [done|unfold t2; rewrite unlist_entry; apply lookup_insert_eq|exact Hp2|]. intros ? E. lia. }
    unfold detach. fold t2. apply (wf_orphan _ c p nc2 bag1); try done; try congruence.
    - rewrite E3. exact Hnc2.
    - rewrite E3. cbn. apply lookup_insert_eq.
    - intros ? E. lia. }
  assert (counts (detach c p e2 t1) !! c = Some bagc) as Hc4.
  { rewrite E4. cbn. rewrite !lookup_insert_ne by done. unfold t2. by rewrite unlist_counts. }
  eapply does_conv; [eapply (does_delete p s e c n nc bagc (bag_add INODE_LOOKUP_REFERENCE 1 bagc) n2 (node_parent NULL nc2) t (hold c INODE_LOOKUP_REFERENCE (detach c p e2 t1))); try done|].
  - rewrite Htyc, Z.eqb_refl, E1, <- E5. eapply (does_unlink_parent p c e2 nc1 bag); try done; try congruence.
    cbn. by rewrite lookup_alter_ne.
  - rewrite E4. cbn. rewrite lookup_delete_ne by done. unfold t2. rewrite unlist_entry, lookup_insert_ne by done.
    unfold t1. rewrite unlist_entry. apply lookup_insert_eq.
  - cbn. rewrite (alter_insert_Some _ _ _ _ Hc4). apply lookup_insert_eq.
  - rewrite (bag_sum _ _ _ x) by done. lia.
  - change 0%nat with (Z.to_nat INODE_LOOKUP_REFERENCE). rewrite (bag_this _ _ _ x) by done. cbn. lia.
  - rewrite E4. cbn. by rewrite lookup_alter_eq, Hnc2.
  - rewrite E4. cbn. by rewrite lookup_alter_ne.
  - congruence.
  - rewrite (bag_sum _ _ _ x) by done. lia.
  - rewrite (drop_hold _ _ _ bagc) by done. done.
Qed.
End Rules.

(** * Stepping through code

    [dstep_with r] runs the first command of the code by the rule [r]. *)
Ltac dstep_with r := eapply does_bind; [r|].
Ltac dstep_assert := dstep_with ltac:(apply does_assert).

(** Looking an inode or an entry up in a view that was just updated. *)
Ltac vlook :=
  cbn [inos set_inos set_refs set_ext set_dirents];
  repeat first [rewrite lookup_insert_eq | rewrite lookup_insert_ne by congruence];
  first [reflexivity | eassumption].
Ltac dlook :=
  cbn [ext dirents set_inos set_refs set_ext set_dirents with_dirents];
  repeat first [rewrite lookup_insert_eq | rewrite lookup_insert_ne by congruence];
  first [reflexivity | eassumption].
