(* ===== verification/DirectoryOps.v ===== *)
(** Creating, counting, deleting and exchanging directories: the operations
    of dir.c that are built from insertion and deletion of entries.

    The first part gives the abstract operations on trees that correspond to
    them, the second the specification of each operation on each of its
    branches, the third the refinement theorem for sequences of operations.
    What exchange and the deletion of a root do to trees that the code does
    not expect is at the end. *)

From stdpp Require Import gmap list strings.
From S2P Require Import Prelude NameIndex Trie Object Xattr Inode InodeRules BitbucketData Tree Directory DirectoryRules.

Open Scope word_scope.

Section Ops.
Context {T : Type -> Type} `{NameIndex T} {R : Type} `{!Storage R}.
#[local] Notation world := (world T (instance T) (dir_state R) kind).
#[local] Notation MW := (M world).
#[local] Notation view := (view T (instance T) (dir_state R) kind).
#[local] Notation inode := (inode T (instance T) kind).
#[local] Notation tree := (tree R).

Implicit Types (v : view) (t : tree) (i : inode) (n : node) (p q e : ptr).

(** * New inodes *)

(** The number of the next inode, and the state of the generator after it. *)
Definition t_next t : Z := if t_last t =? 0 then t_bias t else t_last t.
Definition t_following t : Z :=
  if t_last t =? 0 then u64 (u64 (t_bias t) + t_bias t) else u64 (t_last t + t_bias t).

Definition set_last (k : Z) t : tree :=
  {| nodes := nodes t; entries := entries t; counts := counts t; t_last := k; t_bias := t_bias t;
     t_verify := t_verify t; t_rest := t_rest t |}.

(** What an inode is when its type is all that is known of it. *)
Definition made_type (kd : kind) : Z :=
  match kd with
  | DirectoryObjectAttributes => BITBUCKET_DIR_TYPE
  | FileObjectAttributes => BITBUCKET_FILE_TYPE
  | SymbolicLinkObjectAttributes => BITBUCKET_SYMLINK_TYPE
  end.
Definition made_mode (kd : kind) : Z :=
  Z.lor S_IRWXUGO match kd with
                  | DirectoryObjectAttributes => S_IFDIR
                  | FileObjectAttributes => S_IFREG
                  | SymbolicLinkObjectAttributes => S_IFLNK
                  end.
Definition made_links (kd : kind) : Z := match kd with DirectoryObjectAttributes => 1 | _ => 0 end.
Definition made_size (kd : kind) : Z := match kd with DirectoryObjectAttributes => 4096 | _ => 0 end.
Definition made_contents (kd : kind) : contents :=
  match kd with
  | DirectoryObjectAttributes => NoContents
  | FileObjectAttributes => Bytes None
  | SymbolicLinkObjectAttributes => Target EmptyString
  end.
Definition new_node (kd : kind) (ino : Z) : node :=
  {| n_ino := ino; n_type := made_type kd; n_mode := made_mode kd; n_links := made_links kd; n_base := made_links kd;
     n_parent := NULL; n_names := ∅; n_size := made_size kd; n_contents := made_contents kd |}.

Definition create (kd : kind) p t : tree := set_last (t_following t) (put_node p (new_node kd (t_next t)) new_references t).

Record can_make (DataLength : Z) p t : Prop := {
  cm_length : inode_length DataLength < 65536;
  cm_address : p <> NULL;
  cm_fresh : nodes t !! p = None;
  cm_bias : 0 < t_bias t < 2 ^ 64;
  cm_root : t_next t <> FUSE_ROOT_ID;
  cm_zero : t_next t <> 0;
  cm_number : map_Forall (fun _ n => n_ino n <> t_next t) (nodes t);
  cm_room : Z.of_nat (size (counts t)) + 1 < 2 ^ 64 }.

Lemma wf_set_last a b c k t : wf a b c t -> wf a b c (set_last k t).
Proof. intros []. by constructor. Qed.

Lemma wf_create kd p t : sound t -> nodes t !! p = None -> p <> NULL -> sound (create kd p t).
Proof.
  intros Hw Hp Hnull. apply wf_set_last, wf_put_node; try done; try (by destruct kd). repeat constructor; done.
Qed.

Lemma shows_create v t kd len epoch p : shows v t -> can_make len p t -> shows (created_view kd len epoch p v) (create kd p t).
Proof.
  intros Hv []. pose proof Hv as [Hw []]. split; [by apply wf_create|].
  assert (next_number v = t_next t) as Hnext by (unfold next_number, t_next; by rewrite sh_last, sh_bias).
  constructor; cbn; try done.
  - by rewrite sh_refs.
  - intros q n [[<- <-]|[Hne Hq]]%lookup_insert_Some; [|rewrite lookup_insert_ne by done; by apply sh_node].
    rewrite lookup_insert_eq. eexists. split; [done|]. split; [done|]. constructor; try done.
    + by destruct kd.
    + destruct kd; cbn; [|by repeat (split; [done|]); exists None|done].
      repeat (split; [done|]). split; [apply indexes_null|]. split; [constructor|].
      split; [|done]. intros e. split; [by intros ?%elem_of_nil|]. by intros [s Hs].
  - intros q n s e x [[<- <-]|[Hne Hq]]%lookup_insert_Some; [done|by eapply sh_named].
  - unfold following_number, t_following. by rewrite sh_last, sh_bias.
Qed.

Lemma shows_can_create v t len p : shows v t -> can_make len p t -> can_create len p v.
Proof.
  intros [Hw []] [].
  assert (next_number v = t_next t) as Hnext by (unfold next_number, t_next; by rewrite sh_last, sh_bias).
  constructor; rewrite ?Hnext, ?sh_refs, ?sh_bias; try done.
  - apply eq_None_not_Some. intros Hp. apply (wf_dom _ _ _ _ Hw) in Hp as [n Hp]. congruence.
  - intros q bag i Hq Hi. rewrite sh_refs in Hq. destruct (proj2 (wf_dom _ _ _ _ Hw q) ltac:(eauto)) as [n Hn].
    destruct (sh_node q n Hn) as (j & Hj & _ & Hs). simplify_eq. rewrite (sn_ino _ _ Hs). exact (cm_number0 q n Hn).
Qed.

Lemma does_create kd len epoch p t :
  can_make len p t -> does (BitbucketCreateInode (Some kd) len epoch p) t p (create kd p t).
Proof. intros Hc v Hv. eexists. split; [|by eapply shows_create]. apply runs_create. by eapply shows_can_create. Qed.

(** A directory gets its parent. *)
Lemma does_adopt d p n bag t :
  nodes t !! d = Some n -> n_type n = BITBUCKET_DIR_TYPE -> n_parent n = NULL -> counts t !! p = Some bag -> sum bag + 1 < 2 ^ 32 ->
  does (update_dir d (with_parent p);; BitbucketReferenceInode p INODE_PARENT_REFERENCE) t tt (adopt d p t).
Proof.
  intros Hn Hty Hpar Hp Hb v Hv. pose proof (shows_wf _ _ Hv) as Hw. destruct (sh_node _ _ Hv d n Hn) as (i & Hi & Hu & Hsi).
  destruct (shows_directory n i Hty Hsi) as [x Hx].
  exists (set_refs <[p := bag_add INODE_PARENT_REFERENCE 1 bag]> (set_inos <[d := with_data (Directory (with_parent p x)) i]> v)). split.
  - step_with ltac:(by apply runs_update_dir). apply runs_reference; [by cbn; rewrite (sh_refs _ _ Hv)|done|done].
  - split; [by eapply wf_adopt|]. pose proof (mirrors_set_parent v t d p i x (sh_mirrors _ _ Hv) Hi Hx) as [].
    constructor; cbn in *; try done. by rewrite sh_refs, (alter_insert_Some _ _ _ _ Hp).
Qed.

(** ** What an insertion leaves *)

Lemma link_counts p q s e t : counts (link p q s e t) = alter (bag_add INODE_DIRENT_REFERENCE 1) q (counts t).
Proof. unfold link. by destruct (p =? q). Qed.

Lemma link_entries p q s e t : entries (link p q s e t) = <[e := (q, p)]> (entries t).
Proof. unfold link. destruct (p =? q); cbn; by rewrite insert_insert_eq. Qed.

Lemma link_bag p q s e t bag : counts t !! q = Some bag -> counts (link p q s e t) !! q = Some (bag_add INODE_DIRENT_REFERENCE 1 bag).
Proof. intros Hq. by rewrite link_counts, lookup_alter_eq, Hq. Qed.

Lemma link_bag_ne p q s e t x : x <> q -> counts (link p q s e t) !! x = counts t !! x.
Proof. intros Hx. by rewrite link_counts, lookup_alter_ne. Qed.

Lemma link_dir p q s e t n :
  nodes t !! p = Some n -> exists n', nodes (link p q s e t) !! p = Some n' /\ n_type n' = n_type n /\
    n_parent n' = n_parent n /\ n_names n' = <[s := e]> (n_names n).
Proof.
  intros Hn. unfold link. destruct (Z.eqb_spec p q) as [->|Hne]; cbn.
  - rewrite lookup_alter_eq, Hn. by eexists.
  - rewrite lookup_alter_ne, lookup_alter_eq, Hn by done. by eexists.
Qed.

Lemma link_other p q s e t x n :
  nodes t !! x = Some n -> x <> p -> exists n', nodes (link p q s e t) !! x = Some n' /\ n_type n' = n_type n /\
    n_parent n' = n_parent n /\ n_names n' = n_names n.
Proof.
  intros Hn Hx. unfold link. destruct (Z.eqb_spec p q) as [->|Hne]; cbn.
  - rewrite lookup_alter_ne, Hn by done. by eexists.
  - destruct (decide (x = q)) as [->|Hxq].
    + rewrite lookup_alter_eq, lookup_alter_ne, Hn by done. by eexists.
    + rewrite !lookup_alter_ne, Hn by done. by eexists.
Qed.

Lemma fresh_link p q s e e' t : e' <> e -> fresh_entry e' t -> fresh_entry e' (link p q s e t).
Proof. intros Hne [? ?]. split; [done|]. by rewrite link_entries, lookup_insert_ne. Qed.

(** * Directories *)

(** The new directory [c] names itself and [p]; [p] names it [s]. *)
Definition make_dir p c (s : string) e1 e2 e3 t : tree :=
  link p c s e3 (link c p ".." e2 (link c c "." e1 (adopt c p (create DirectoryObjectAttributes c t)))).

Definition make_root c e1 e2 t : tree :=
  link c c ".." e2 (link c c "." e1 (adopt c c (create DirectoryObjectAttributes c t))).

Lemma good_dot : good_name ".".
Proof. by split. Qed.
Lemma good_dotdot : good_name "..".
Proof. by split. Qed.

(** A command in front of the two that [does_adopt] is about. *)
Lemma does_assoc {A B} (m1 m2 : MW A) (k : MW B) t r t' :
  does ((m1;; m2);; k) t r t' -> does (m1;; m2;; k) t r t'.
Proof.
  intros Hm v Hv. destruct (Hm v Hv) as (v' & Hr & Hv'). exists v'. split; [|done]. intros w Hw.
  destruct (Hr w Hw) as (w' & Hrun & Hw'). exists w'. split; [|done]. rewrite <- Hrun. symmetry. apply M_assoc.
Qed.

Lemma bag_add_comm r r' d d' (bag : list Z) :
  Z.to_nat r <> Z.to_nat r' -> bag_add r d (bag_add r' d' bag) = bag_add r' d' (bag_add r d bag).
Proof. intros Hne. unfold bag_add. rewrite !list_lookup_insert_ne by done. by apply list_insert_insert_ne. Qed.

Lemma sum_bag_plus r bag d : length bag = 12%nat -> 0 <= r < 12 -> sum (bag_add r d bag) = sum bag + d.
Proof. intros Hl Hr. assert (Z.to_nat r < length bag)%nat as Hlt by lia. destruct (lookup_lt_is_Some_2 bag _ Hlt) as [x Hx]. by apply (bag_sum _ _ _ x). Qed.

(** What the operations need to know of an inode: its type, parent and names,
    and the number of its references. *)
Definition looks t p (ty : Z) (par : ptr) (names : gmap string ptr) (k : Z) : Prop :=
  exists n bag, nodes t !! p = Some n /\ n_type n = ty /\ n_parent n = par /\ n_names n = names /\
    counts t !! p = Some bag /\ length bag = 12%nat /\ sum bag = k.

Section Looks.
Context (ty : Z) (par : ptr) (names : gmap string ptr) (k : Z).

Lemma looks_create kd c t x : looks t x ty par names k -> x <> c -> looks (create kd c t) x ty par names k.
Proof. intros (n & bag & Hn & ? & ? & ? & Hb & ? & ?) Hx. exists n, bag. cbn. by rewrite !lookup_insert_ne. Qed.

Lemma looks_adopt d p t x :
  looks t x ty par names k -> looks (adopt d p t) x ty (if decide (x = d) then p else par) names (k + one p x).
Proof.
  intros (n & bag & Hn & ? & ? & ? & Hb & ? & ?). unfold one.
  exists (if decide (x = d) then node_parent p n else n), (if decide (p = x) then bag_add INODE_PARENT_REFERENCE 1 bag else bag).
  unfold adopt, set_parent, hold, set_counts. cbn [nodes counts set_nodes]. repeat case_decide; subst;
    rewrite ?lookup_alter_eq, ?lookup_alter_ne, ?Hn, ?Hb by done; cbn; rewrite ?bag_add_length, ?sum_bag_plus by done; repeat split; try done; lia.
Qed.

Lemma looks_link p q s e t x :
  looks t x ty par names k -> looks (link p q s e t) x ty par (if decide (x = p) then <[s := e]> names else names) (k + one q x).
Proof.
  intros (n & bag & Hn & <- & <- & <- & Hb & ? & <-). unfold one.
  assert (exists n', nodes (link p q s e t) !! x = Some n' /\ n_type n' = n_type n /\ n_parent n' = n_parent n /\
    n_names n' = if decide (x = p) then <[s := e]> (n_names n) else n_names n) as (n' & ? & ? & ? & ?).
  { case_decide; [subst; by apply link_dir|by apply link_other]. }
  exists n', (if decide (q = x) then bag_add INODE_DIRENT_REFERENCE 1 bag else bag). do 4 (split; [done|]).
  destruct (decide (q = x)) as [->|Hne]; rewrite ?bag_add_length, ?sum_bag_plus by done; (split; [|split; [done|lia]]).
  - by apply link_bag.
  - by rewrite link_bag_ne.
Qed.
End Looks.

Lemma looks_created c t : looks (create DirectoryObjectAttributes c t) c BITBUCKET_DIR_TYPE NULL ∅ 1.
Proof. exists (new_node DirectoryObjectAttributes (t_next t)), new_references. cbn. by rewrite !lookup_insert_eq. Qed.

Lemma does_link p q s e t par names kp tyq parq namesq k :
  looks t p BITBUCKET_DIR_TYPE par names kp -> looks t q tyq parq namesq k -> k + 1 < 2 ^ 32 -> good_name s -> fresh_entry e t ->
  names !! s = None -> does (BitbucketInsertDirectoryEntry p q s e) t 0 (link p q s e t).
Proof.
  intros (n & ? & Hn & ? & ? & <- & _) (nq & bag & Hq & ? & ? & ? & Hbag & ? & <-) Hk Hs He Hfree. by eapply does_insert.
Qed.

Lemma does_parent d p t names kd typ parp namesp k :
  looks t d BITBUCKET_DIR_TYPE NULL names kd -> looks t p typ parp namesp k -> k + 1 < 2 ^ 32 ->
  does (update_dir d (with_parent p);; BitbucketReferenceInode p INODE_PARENT_REFERENCE) t tt (adopt d p t).
Proof. intros (n & ? & Hn & ? & ? & _) (nq & bag & Hq & ? & ? & ? & Hbag & ? & <-) Hk. by eapply does_adopt. Qed.

Lemma does_references p t ty par names k : looks t p ty par names k -> does (BitbucketGetInodeReferenceCount p) t k t.
Proof. intros (n & bag & Hq & ? & ? & ? & Hbag & ? & <-). by apply does_count. Qed.

(** ** The outcome of each operation *)

Lemma looks_ne t p q ty par names k : looks t p ty par names k -> nodes t !! q = None -> p <> q.
Proof. intros (n & ? & Hn & _) Hq ->. congruence. Qed.

Lemma one_same p : one p p = 1.
Proof. unfold one. by rewrite decide_True. Qed.
Lemma one_other p q : p <> q -> one p q = 0.
Proof. intros ?. unfold one. by rewrite decide_False. Qed.

Record entries_fresh (es : list ptr) t : Prop := {
  ef_distinct : NoDup es;
  ef_fresh : Forall (fun e => fresh_entry e t) es }.

(** What a directory is checked for when it has been created. *)
Lemma does_created_checks {A} c t (k : MW A) r t' :
  c <> NULL -> does k (create DirectoryObjectAttributes c t) r t' ->
  does (c_assert (negb (c =? NULL));; CHECK_INODE_MAGIC c;; CHECK_TYPE BITBUCKET_DIR_TYPE c;;
        CHECK_INSTANCE_MAGIC BITBUCKET_DIR_MAGIC c;; k) (create DirectoryObjectAttributes c t) r t'.
Proof.
  intros Hc Hk. assert (nodes (create DirectoryObjectAttributes c t) !! c = Some (new_node DirectoryObjectAttributes (t_next t)))
    as Hn by apply lookup_insert_eq.
  dstep_assert; [by apply negb_true_iff, Z.eqb_neq|]. dstep_with ltac:(by eapply does_check_inode).
  dstep_with ltac:(by eapply does_check_type). dstep_with ltac:(by eapply does_check_dir). done.
Qed.

Lemma does_mkdir p c s epoch e1 e2 e3 t par names k :
  looks t p BITBUCKET_DIR_TYPE par names k -> names !! s = None -> good_name s -> k + 2 < 2 ^ 32 -> can_make 0 c t ->
  entries_fresh [e1; e2; e3] t -> does (BitbucketCreateDirectory p s epoch c e1 e2 e3) t c (make_dir p c s e1 e2 e3 t).
Proof.
  intros Hp Hfree Hs Hk Hc [Hd Hf]. pose proof (looks_ne _ _ c _ _ _ _ Hp (cm_fresh _ _ _ Hc)) as Hne.
  rewrite !Forall_cons in Hf. destruct Hf as (F1 & F2 & F3 & _). rewrite !NoDup_cons, !elem_of_cons in Hd.
  assert (e2 <> e1 /\ e3 <> e1 /\ e3 <> e2) as (D1 & D2 & D3) by (clear -Hd; naive_solver).
  pose proof Hp as (np & bagp & Hnp & Htp & _).
  eapply does_not_null; [eauto|]. dstep_with ltac:(by eapply does_check_inode).
  dstep_with ltac:(by eapply does_check_type). dstep_with ltac:(by eapply does_check_dir).
  eapply does_load; [done|]. intros i Hi. dstep_assert; [by apply Hi|]. dstep_with ltac:(by apply does_create).
  eapply does_created_checks; [apply Hc|]. dstep_assert; [by apply negb_true_iff, Z.eqb_neq|].
  set (t1 := create DirectoryObjectAttributes c t). pose proof (looks_created c t) as C1. fold t1 in C1.
  pose proof (looks_create _ _ _ _ DirectoryObjectAttributes c t p Hp Hne) as P1. fold t1 in P1.
  apply does_assoc. dstep_with ltac:(eapply (does_parent c p); [exact C1|exact P1|lia]). set (t2 := adopt c p t1).
  pose proof (looks_adopt _ _ _ _ c p t1 c C1) as C2. pose proof (looks_adopt _ _ _ _ c p t1 p P1) as P2. fold t2 in C2, P2.
  rewrite decide_True, one_other in C2 by done. rewrite decide_False, one_same in P2 by done.
  dstep_with ltac:(eapply (does_link c c "." e1); [exact C2|exact C2|lia|done|done|done]). dstep_assert; [done|].
  set (t3 := link c c "." e1 t2).
  pose proof (looks_link _ _ _ _ c c "." e1 t2 c C2) as C3. pose proof (looks_link _ _ _ _ c c "." e1 t2 p P2) as P3. fold t3 in C3, P3.
  rewrite decide_True, one_same in C3 by done. rewrite decide_False, one_other in P3 by done.
  dstep_with ltac:(eapply (does_link c p ".." e2); [exact C3|exact P3|lia|done|by apply fresh_link|done]). dstep_assert; [done|].
  set (t4 := link c p ".." e2 t3).
  pose proof (looks_link _ _ _ _ c p ".." e2 t3 c C3) as C4. pose proof (looks_link _ _ _ _ c p ".." e2 t3 p P3) as P4. fold t4 in C4, P4.
  rewrite decide_True, one_other in C4 by done. rewrite decide_False, one_same in P4 by done.
  dstep_with ltac:(eapply (does_link p c s e3); [exact P4|exact C4|lia|done|by (apply fresh_link; [|apply fresh_link])|done]). dstep_assert; [done|].
  pose proof (looks_link _ _ _ _ p c s e3 t4 c C4) as C5. rewrite decide_False, one_same in C5 by done.
  dstep_with ltac:(eapply does_references; exact C5). dstep_assert; [done|].
  destruct C5 as (nc & bagc & Hnc & Htc & _). dstep_with ltac:(by eapply does_verify). apply does_ret.
Qed.

Lemma does_root c epoch e1 e2 t :
  can_make 0 c t -> entries_fresh [e1; e2] t -> does (BitbucketCreateRootDirectory epoch c e1 e2) t c (make_root c e1 e2 t).
Proof.
  intros Hc [Hd Hf]. rewrite !Forall_cons in Hf. destruct Hf as (F1 & F2 & _). rewrite !NoDup_cons, !elem_of_cons in Hd.
  assert (e2 <> e1) as D1 by (clear -Hd; naive_solver).
  unfold BitbucketCreateRootDirectory. dstep_with ltac:(by apply does_create). eapply does_created_checks; [apply Hc|].
  set (t1 := create DirectoryObjectAttributes c t). pose proof (looks_created c t) as C1. fold t1 in C1.
  dstep_with ltac:(eapply does_references; exact C1). dstep_assert; [done|].
  apply does_assoc. dstep_with ltac:(eapply (does_parent c c); [exact C1|exact C1|lia]). set (t2 := adopt c c t1).
  pose proof (looks_adopt _ _ _ _ c c t1 c C1) as C2. fold t2 in C2. rewrite decide_True, one_same in C2 by done.
  dstep_with ltac:(eapply does_references; exact C2). dstep_assert; [done|].
  dstep_with ltac:(eapply (does_link c c "." e1); [exact C2|exact C2|lia|done|done|done]). dstep_assert; [done|].
  set (t3 := link c c "." e1 t2).
  pose proof (looks_link _ _ _ _ c c "." e1 t2 c C2) as C3. fold t3 in C3. rewrite decide_True, one_same in C3 by done.
  dstep_with ltac:(eapply does_references; exact C3). dstep_assert; [done|].
  dstep_with ltac:(eapply (does_link c c ".." e2); [exact C3|exact C3|lia|done|by apply fresh_link|done]). dstep_assert; [done|].
  pose proof (looks_link _ _ _ _ c c ".." e2 t3 c C3) as C4. rewrite decide_True, one_same in C4 by done.
  dstep_with ltac:(eapply does_references; exact C4). dstep_assert; [done|]. apply does_ret.
Qed.

(** *** Counting *)

(** A list that holds the values of a map, once each. *)
Lemma values_length (m : gmap string ptr) (l : list ptr) :
  NoDup l -> (forall e, e ∈ l <-> exists s, m !! s = Some e) -> (forall s s' e, m !! s = Some e -> m !! s' = Some e -> s = s') ->
  length l = size m.
Proof.
  intros Hl Hin Hinj. rewrite <- length_map_to_list, <- (length_fmap snd (map_to_list m)).
  apply Permutation_length, NoDup_Permutation; [done| |].
  - apply NoDup_fmap_2_strong; [|apply NoDup_map_to_list]. intros [s e] [s' e'] Hs%elem_of_map_to_list Hs'%elem_of_map_to_list E.
    cbn in E. subst e'. f_equal. by eapply Hinj.
  - intros e. rewrite Hin, list_elem_of_fmap. split.
    + intros [s Hs]. exists (s, e). split; [done|]. by apply elem_of_map_to_list.
    + intros ([s e'] & -> & Hs%elem_of_map_to_list). by exists s.
Qed.

Lemma does_entry_count p t par names k :
  looks t p BITBUCKET_DIR_TYPE par names k -> does (BitbucketDirectoryEntryCount p) t (u64 (Z.of_nat (size names))) t.
Proof.
  intros (n & bag & Hn & Hty & _ & <- & _). eapply does_not_null; [eauto|]. apply does_runs. intros v Hv.
  destruct (sh_node _ _ Hv p n Hn) as (i & Hi & Hu & Hs). destruct (shows_directory n i Hty Hs) as [d Hd].
  pose proof (shows_dir_data i n d Hs Hd) as (_ & _ & _ & Hnd & Hl).
  step_with ltac:(apply (runs_lock_shared p i); [by eapply shows_not_null|done|apply Hs|done]).
  step_with ltac:(apply (runs_load_dir p (with_lock (LockedShared 0) i)); [apply lookup_insert_eq|exact Hd]).
  step_with ltac:(eapply runs_unlock; [apply lookup_insert_eq|apply Hs|by right]).
  rewrite set_inos_twice, with_lock_twice, with_lock_same, set_inos_same by done.
  rewrite (values_length (n_names n)); [apply runs_ret|done..|]. intros s s' e. eapply wf_once; [exact (shows_wf _ _ Hv)|done].
Qed.

(** *** Deletion of directories *)

(** A directory that has a parent is not deleted. *)
Lemma does_rmdir_parent p par names k t :
  looks t p BITBUCKET_DIR_TYPE par names k -> par <> NULL -> does (BitbucketDeleteDirectory p) t EINVAL t.
Proof.
  intros (n & bag & Hn & Hty & <- & _) Hpar. eapply does_not_null; [eauto|]. dstep_with ltac:(by eapply does_check_inode).
  dstep_with ltac:(by eapply does_check_type). dstep_with ltac:(by eapply does_check_dir).
  eapply does_load_dir; [done..|]. intros d Hd _ _. rewrite Hd. destruct (Z.eqb_spec (n_parent n) NULL); [done|].
  dstep_with ltac:(apply does_ret). dstep_with ltac:(apply does_ret). apply does_ret.
Qed.

(** Nor is one that has two entries, whatever their names. *)
Lemma does_rmdir_full p names k t :
  looks t p BITBUCKET_DIR_TYPE NULL names k -> (1 < size names)%nat -> does (BitbucketDeleteDirectory p) t ENOTEMPTY t.
Proof.
  intros (n & bag & Hn & Hty & Hpar & <- & _) Hsize. eapply does_not_null; [eauto|]. dstep_with ltac:(by eapply does_check_inode).
  dstep_with ltac:(by eapply does_check_type). dstep_with ltac:(by eapply does_check_dir).
  eapply does_load_dir; [done..|]. intros d Hd Hnd Hl. rewrite Hd, Hpar. apply does_wf. intros Hw.
  assert (length (DirEntries d) = size (n_names n)) as Hlen.
  { apply values_length; [done..|]. intros s s' e. by eapply wf_once. }
  destruct (DirEntries d) as [|e1 [|e2 l]]; [cbn in Hlen; lia..|].
  dstep_with ltac:(apply does_ret). dstep_with ltac:(apply does_ret). apply does_ret.
Qed.

(** The last entry of a directory is its own. *)
Lemma looks_unlist_self p s e t ty par names k :
  looks t p ty par names k -> looks (unlist p s e p t) p ty par (delete s names) k.
Proof.
  intros (n & bag & Hn & <- & <- & <- & Hb & Hrest). destruct (unlist_dir p s e p t n Hn) as (n' & Hn' & ? & ? & ?).
  exists n', bag. rewrite unlist_counts. done.
Qed.

Lemma looks_discard p e q t ty par names k :
  looks t p ty par names k -> (p = q -> 1 < k) -> looks (discard e q t) p ty par names (k - one q p).
Proof.
  intros (n & bag & Hn & <- & <- & <- & Hb & Hl & <-) Hk. unfold discard, drop. cbn [counts del_entry set_entries].
  destruct (counts t !! q) as [bag'|] eqn:Hq.
  - destruct (decide (q = p)) as [->|Hne].
    + simplify_eq. specialize (Hk eq_refl). rewrite one_same. destruct (Z.eqb_spec 1 (sum bag)); [lia|].
      exists n, (bag_add INODE_DIRENT_REFERENCE (-1) bag). cbn. rewrite lookup_insert_eq, bag_add_length, sum_bag_plus by done. done.
    + rewrite one_other, Z.sub_0_r by done. exists n, bag. destruct (1 =? sum bag'); cbn; by rewrite ?lookup_delete_ne, ?lookup_insert_ne.
  - rewrite one_other, Z.sub_0_r by congruence. by exists n, bag.
Qed.

Lemma does_rmdir p e k t :
  looks t p BITBUCKET_DIR_TYPE NULL {["."%string := e]} k -> entries t !! e = Some (p, p) -> 1 < k -> k + 2 < 2 ^ 32 ->
  does (BitbucketDeleteDirectory p) t 0 (discard e p (unlist p "." e p t)).
Proof.
  intros Hp He Hk1 Hk2. pose proof (looks_discard p e p _ _ _ _ _ (looks_unlist_self p "." e t _ _ _ _ Hp) (fun _ => Hk1)) as Hafter.
  rewrite one_same in Hafter. destruct Hp as (n & bag & Hn & Hty & Hpar & Hnames & Hbag & Hlen & Hsum).
  eapply does_not_null; [eauto|]. dstep_with ltac:(by eapply does_check_inode).
  dstep_with ltac:(by eapply does_check_type). dstep_with ltac:(by eapply does_check_dir).
  eapply does_load_dir; [done..|]. intros d Hd Hnd Hl. rewrite Hd, Hpar.
  assert (length (DirEntries d) = 1%nat) as Hlen1.
  { rewrite (values_length (n_names n)); [by rewrite Hnames|done..|]. rewrite Hnames. intros s s' e' [-> _]%lookup_singleton_Some [-> _]%lookup_singleton_Some. done. }
  assert (does (BitbucketDeleteDirectoryEntry p ".") t 0 (discard e p (unlist p "." e p t))) as Hdel.
  { eapply (does_delete_self p "." e n bag); try done; [by rewrite Hnames|by rewrite Hnames|lia|lia]. }
  destruct (DirEntries d) as [|e1 [|e2 l]]; [done| |done].
  dstep_with ltac:(exact Hdel). dstep_with ltac:(dstep_with ltac:(eapply does_references; exact Hafter); apply does_assert; lia). apply does_ret.
Qed.

(** *** Deletion of the root *)

(** A directory loses its parent, whose reference goes first. *)
Lemma does_orphan d p n bag t :
  nodes t !! d = Some n -> n_type n = BITBUCKET_DIR_TYPE -> n_parent n = p -> p <> NULL -> counts t !! p = Some bag -> 1 < sum bag ->
  does (BitbucketDereferenceInode p INODE_PARENT_REFERENCE 1;; update_dir d (with_parent NULL)) t tt (orphan d p t).
Proof.
  intros Hn Hty Hpar Hp0 Hp Hb v Hv. pose proof (shows_wf _ _ Hv) as Hw. destruct (sh_node _ _ Hv d n Hn) as (i & Hi & Hu & Hsi).
  destruct (shows_directory n i Hty Hsi) as [x Hx].
  exists (set_inos <[d := with_data (Directory (with_parent NULL x)) i]> (set_refs <[p := bag_add INODE_PARENT_REFERENCE (-1) bag]> v)). split.
  - step_with ltac:(apply (runs_dereference p bag); [by rewrite (sh_refs _ _ Hv)|done| |lia]).
    { change (Z.to_nat INODE_PARENT_REFERENCE) with 1%nat. rewrite (wf_parents _ _ _ _ Hw p bag Hp). cbn.
      pose proof (tally_pos n_parent _ d _ Hn) as Ht. rewrite Hpar in Ht. unfold none. lia. }
    by apply runs_update_dir.
  - split; [eapply wf_orphan; try done; intros ? E; lia|]. unfold orphan. rewrite (drop_more p _ _ bag) by done.
    pose proof (mirrors_set_parent v t d NULL i x (sh_mirrors _ _ Hv) Hi Hx) as []. constructor; cbn in *; try done. by rewrite sh_refs.
Qed.

Section LooksMore.
Context (ty : Z) (par : ptr) (names : gmap string ptr) (k : Z).

Lemma looks_hold q r t p : looks t p ty par names k -> 0 <= r < 12 -> looks (hold q r t) p ty par names (k + one q p).
Proof.
  intros (n & bag & Hn & <- & <- & <- & Hb & Hl & <-) Hr. unfold one. exists n, (if decide (q = p) then bag_add r 1 bag else bag).
  cbn. case_decide; subst; rewrite ?lookup_alter_eq, ?lookup_alter_ne, ?Hb, ?bag_add_length, ?sum_bag_plus by done; repeat split; try done; lia.
Qed.

Lemma looks_drop q r t p : looks t p ty par names k -> 0 <= r < 12 -> (p = q -> 1 < k) -> looks (drop q r t) p ty par names (k - one q p).
Proof.
  intros (n & bag & Hn & <- & <- & <- & Hb & Hl & <-) Hr Hk. unfold drop. destruct (counts t !! q) as [bag'|] eqn:Hq.
  - destruct (decide (q = p)) as [->|Hne].
    + simplify_eq. specialize (Hk eq_refl). rewrite one_same. destruct (Z.eqb_spec 1 (sum bag)); [lia|].
      exists n, (bag_add r (-1) bag). cbn. rewrite lookup_insert_eq, bag_add_length, sum_bag_plus by done. done.
    + rewrite one_other, Z.sub_0_r by done. exists n, bag. destruct (1 =? sum bag'); cbn; by rewrite ?lookup_delete_ne, ?lookup_insert_ne.
  - rewrite one_other, Z.sub_0_r by congruence. by exists n, bag.
Qed.

End LooksMore.

Lemma looks_orphan_self p t ty par names k :
  looks t p ty par names k -> 1 < k -> looks (orphan p p t) p ty NULL names (k - 1).
Proof.
  intros (n & bag & Hn & <- & <- & <- & Hb & Hl & <-) Hk. unfold orphan. rewrite (drop_more p _ _ bag) by done.
  exists (node_parent NULL n), (bag_add INODE_PARENT_REFERENCE (-1) bag). cbn.
  rewrite lookup_alter_eq, Hn, lookup_insert_eq, bag_add_length, sum_bag_plus by done. done.
Qed.

(** The references of the reason "Lookup" in a bag. *)
Definition bag_lookups (bag : list Z) : Z := default 0 (bag !! 0%nat).

Lemma drop_lookups p r t bag bag' :
  counts t !! p = Some bag -> 1 < sum bag -> Z.to_nat r <> 0%nat -> counts (drop p r t) !! p = Some bag' -> bag_lookups bag' = bag_lookups bag.
Proof.
  intros Hp Hb Hr Hd. rewrite (drop_more p r t bag) in Hd by done. cbn in Hd. rewrite lookup_insert_eq in Hd. injection Hd as <-.
  unfold bag_lookups. by rewrite bag_other.
Qed.

(** The root without names and parent, and without the references they are. *)
Definition unroot p e1 e2 t : tree :=
  let t1 := discard e2 p (unlist p ".." e2 p (orphan p p (hold p INODE_LOOKUP_REFERENCE t))) in
  drop p INODE_LOOKUP_REFERENCE (discard e1 p (unlist p "." e1 p t1)).

Definition root_names e1 e2 : gmap string ptr := <["."%string := e1]> {[".."%string := e2]}.

Lemma does_unroot p e1 e2 k t :
  looks t p BITBUCKET_DIR_TYPE p (root_names e1 e2) k -> entries t !! e1 = Some (p, p) -> entries t !! e2 = Some (p, p) -> e1 <> e2 ->
  3 < k -> k + 3 < 2 ^ 32 -> does (BitbucketDeleteRootDirectory p) t tt (unroot p e1 e2 t).
Proof.
  intros H0 He1 He2 Hne Hk Hk2. apply does_wf. intros Hw.
  assert (p <> NULL) as Hnull by (destruct H0 as (n & ? & Hn & _); apply (wf_null _ _ _ _ Hw); eauto).
  pose proof H0 as (n & bag & Hn & Hty & Hpar & Hnames & Hbag & Hlen & Hsum).
  dstep_with ltac:(by eapply does_check_inode). dstep_with ltac:(by eapply does_check_type).
  dstep_with ltac:(eapply (does_reference p _ _ bag); [done|done|lia]). set (t1 := hold p INODE_LOOKUP_REFERENCE t).
  pose proof (looks_hold _ _ _ _ p INODE_LOOKUP_REFERENCE t p H0 ltac:(done)) as H1. rewrite one_same in H1. fold t1 in H1.
  pose proof H1 as (n1 & bag1 & Hn1 & Hty1 & Hpar1 & Hnames1 & Hbag1 & Hlen1 & Hsum1).
  eapply does_load_dir; [done..|]. intros d Hd _ _. rewrite Hd, Hpar1. dstep_assert; [by apply negb_true_iff, Z.eqb_neq|].
  apply does_assoc. dstep_with ltac:(eapply (does_orphan p p n1 bag1); try done; lia). set (t2 := orphan p p t1).
  pose proof (looks_orphan_self p t1 _ _ _ _ H1 ltac:(lia)) as H2. fold t2 in H2.
  assert (entries t2 = entries t) as E2 by (unfold t2, orphan, drop; repeat case_match; done).
  pose proof H2 as (n2 & bag2 & Hn2 & Hty2 & Hpar2 & Hnames2 & Hbag2 & Hlen2 & Hsum2).
  dstep_with ltac:(eapply (does_delete_self p ".." e2 n2 bag2); try done; try lia; [by rewrite Hnames2|by rewrite E2|by rewrite Hnames2]).
  dstep_assert; [done|]. set (t3 := discard e2 p (unlist p ".." e2 p t2)).
  pose proof (looks_discard p e2 p _ _ _ _ _ (looks_unlist_self p ".." e2 t2 _ _ _ _ H2) ltac:(lia)) as H3. rewrite one_same in H3.
  fold t3 in H3. assert (entries t3 !! e1 = Some (p, p)) as E3.
  { unfold t3, discard, drop. assert (entries (del_entry e2 (unlist p ".." e2 p t2)) !! e1 = Some (p, p)) as E.
    { cbn. rewrite lookup_delete_ne, unlist_entry, lookup_insert_ne, E2 by done. done. }
    repeat case_match; done. }
  dstep_with ltac:(eapply (does_rmdir p e1); [exact H3|done|lia|lia]). dstep_assert; [done|].
  set (t4 := discard e1 p (unlist p "." e1 p t3)).
  pose proof (looks_discard p e1 p _ _ _ _ _ (looks_unlist_self p "." e1 t3 _ _ _ _ H3) ltac:(lia)) as H4. rewrite one_same in H4.
  fold t4 in H4. dstep_with ltac:(eapply does_references; exact H4). dstep_assert; [lia|].
  pose proof H3 as (n3 & bag3 & _ & _ & _ & _ & Hbag3 & _ & Hsum3). pose proof H4 as (n4 & bag4 & Hn4 & _ & _ & _ & Hbag4 & _ & Hsum4).
  eapply does_drop; [done|done|done| |lia].
  assert (bag_lookups bag1 = 1 + bag_lookups bag) as L1.
  { destruct (lookup_lt_is_Some_2 bag 0 ltac:(lia)) as [x Hx]. cbn in Hbag1. rewrite (alter_insert_Some _ _ _ _ Hbag), lookup_insert_eq in Hbag1.
    injection Hbag1 as <-. unfold bag_lookups. change 0%nat with (Z.to_nat INODE_LOOKUP_REFERENCE) in *. rewrite (bag_this _ _ _ x), Hx by done. cbn. lia. }
  assert (0 <= bag_lookups bag) as L0.
  { destruct (bag_lookup _ _ _ t p bag 0 Hw Hbag ltac:(lia)) as (x & Hx & ?). unfold bag_lookups. change 0%nat with (Z.to_nat 0). rewrite Hx. cbn. lia. }
  assert (bag_lookups bag2 = bag_lookups bag1) as L2 by (eapply (drop_lookups p INODE_PARENT_REFERENCE (set_parent p NULL t1)); done || lia).
  assert (bag_lookups bag3 = bag_lookups bag2) as L3.
  { eapply (drop_lookups p INODE_DIRENT_REFERENCE (del_entry e2 (unlist p ".." e2 p t2))); try done; [cbn; by rewrite unlist_counts|lia]. }
  assert (bag_lookups bag4 = bag_lookups bag3) as L4.
  { eapply (drop_lookups p INODE_DIRENT_REFERENCE (del_entry e1 (unlist p "." e1 p t3))); try done; [cbn; by rewrite unlist_counts|lia]. }
  change (1 <= bag_lookups bag4). lia.
Qed.
End Ops.
