(* ===== verification/DirectoryExchange.v ===== *)
(** Exchanging entries of two directories, and the operations of dir.c that
    stop: what the tree must not look like when they are called.

    [breaks m t f] says that [m] ends in the failure [f] in every file system
    that shows [t].  An exchange of two directories leaves a well-formed tree
    in which neither of them can be removed any more: their parent entries
    still lead to the old parents, which the deletion asserts not to be the
    case. *)

From stdpp Require Import gmap list strings.
From S2P Require Import Prelude NameIndex Trie Object Xattr Inode InodeRules BitbucketData Tree Directory DirectoryRules DirectoryOps.

Open Scope word_scope.

Section Exchange.
Context {T : Type -> Type} `{NameIndex T} {R : Type} `{!Storage R}.
#[local] Notation world := (world T (instance T) (dir_state R) kind).
#[local] Notation MW := (M world).
#[local] Notation view := (view T (instance T) (dir_state R) kind).
#[local] Notation inode := (inode T (instance T) kind).
#[local] Notation tree := (tree R).

Implicit Types (v : view) (t : tree) (i : inode) (n : node) (p q e : ptr).

(** * Exchange *)

(** Two entries trade the inodes they name. *)
Definition exchange p q e e' x x' t : tree := set_entries (fun m => <[e' := (x, q)]> (<[e := (x', p)]> m)) t.

Lemma linked_listed x p : p <> NULL -> p <> x -> linked (x, p) = x.
Proof. intros Hp Hx. unfold linked. cbn. rewrite decide_False; [done|]. intros [?|?]; congruence. Qed.

Lemma wf_exchange t p q e e' x x' :
  sound t -> entries t !! e = Some (x, p) -> entries t !! e' = Some (x', q) -> p <> NULL -> q <> NULL -> p <> q ->
  p <> x -> p <> x' -> q <> x -> q <> x' -> sound (exchange p q e e' x x' t).
Proof.
  intros [] He He' Hp Hq Hpq D1 D2 D3 D4. assert (e <> e') as Hne by congruence.
  assert (<[e := (x', p)]> (entries t) !! e' = Some (x', q)) as He1 by (by rewrite lookup_insert_ne).
  constructor; cbn; try done.
  - intros e1 y d [[<- [= <- <-]]|[_ [[<- [= <- <-]]|[_ Hy]]%lookup_insert_Some]]%lookup_insert_Some.
    + split; [by eapply wf_entry|by destruct (wf_entry _ _ _ He)].
    + split; [by eapply wf_entry|by destruct (wf_entry _ _ _ He')].
    + by eapply wf_entry.
  - intros e1 y d [[<- [= <- <-]]|[_ [[<- [= <- <-]]|[_ Hy]]%lookup_insert_Some]]%lookup_insert_Some Hd; by eapply wf_listed.
  - intros y n s e1 Hy Hs. destruct (wf_names y n s e1 Hy Hs) as (Hse & z & Hz). split; [done|].
    destruct (decide (e1 = e')) as [->|He1']; [rewrite lookup_insert_eq; exists x; congruence|].
    rewrite lookup_insert_ne by done. destruct (decide (e1 = e)) as [->|He1'']; [rewrite lookup_insert_eq; exists x'; congruence|].
    rewrite lookup_insert_ne by done. by exists z.
  - intros y n Hn. rewrite (tally_update linked _ e' (x', q)), (tally_update linked _ e (x, p)), !linked_listed by done.
    rewrite (wf_links y n Hn). lia.
  - intros y bag Hy. rewrite (tally_update fst _ e' (x', q)), (tally_update fst _ e (x, p)) by done. cbn.
    rewrite (wf_dirents y bag Hy). f_equal. lia.
Qed.

(** Two directories locked, their entries found, and unlocked again. *)
Lemma runs_exchange p q s s' n m i j d d' (f : option ptr -> option ptr -> MW Z) r v t v' :
  shows v t -> nodes t !! p = Some n -> nodes t !! q = Some m -> n_type n = BITBUCKET_DIR_TYPE -> n_type m = BITBUCKET_DIR_TYPE ->
  inos v !! p = Some i -> inos v !! q = Some j -> unlocked i -> unlocked j -> shows_inode i n -> shows_inode j m ->
  Instance i = Directory d -> Instance j = Directory d' -> p <> q ->
  (let v1 := set_inos (fun m => <[p := with_epoch (u64 (Epoch i + 1)) (with_lock LockedExclusive i)]>
                        (<[q := with_epoch (u64 (Epoch j + 1)) (with_lock LockedExclusive j)]> m)) v in
   runs (f (n_names n !! s) (n_names m !! s')) v1 r (set_ext (ext v') v1)) ->
  refs v' = refs v -> inos v' = inos v -> last_ino v' = last_ino v -> bias_ino v' = bias_ino v ->
  exists v2, runs (c_assert (negb (p =? NULL));; c_assert (negb (q =? NULL));; BitbucketLockTwoInodes p q true;;
        od ← load_dir p; nd ← load_dir q; status ← f (ni_search (Children od) s) (ni_search (Children nd) s');
        BitbucketUnlockInode q;; BitbucketUnlockInode p;; mret status) v r v2 /\
    refs v2 = refs v' /\ ext v2 = ext v' /\ last_ino v2 = last_ino v' /\ bias_ino v2 = bias_ino v' /\
    forall x y, inos v' !! x = Some y -> inos v2 !! x = Some (if decide (x = q) then with_epoch (u64 (Epoch j + 1)) y
                                       else if decide (x = p) then with_epoch (u64 (Epoch i + 1)) y else y).
Proof.
  intros Hv Hn Hm Hty Htyq Hi Hj Hui Huj Hsi Hsj Hd Hd' Hpq Hf Er Ei El Eb. pose proof (shows_wf _ _ Hv) as Hw.
  destruct (shows_dir_data i n d Hsi Hd) as (_ & _ & [Hx _] & _). destruct (shows_dir_data j m d' Hsj Hd') as (_ & _ & [Hx' _] & _).
  assert (p <> NULL) as Hp0 by (apply (wf_null _ _ _ _ Hw); eauto). assert (q <> NULL) as Hq0 by (apply (wf_null _ _ _ _ Hw); eauto).
  eexists. split.
  - step_assert; [by apply negb_true_iff, Z.eqb_neq|]. step_assert; [by apply negb_true_iff, Z.eqb_neq|].
    step_with ltac:(eapply (runs_lock_two p q i j); try done; try apply Hsi; try apply Hsj).
    { rewrite (sn_type _ _ Hsi), Hty. done. }
    step_with ltac:(eapply runs_load_dir; [vlook|exact Hd]). step_with ltac:(eapply runs_load_dir; [vlook|exact Hd']).
    rewrite (Hx s), (Hx' s'). step_with ltac:(exact Hf).
    step_with ltac:(eapply runs_unlock; [vlook|apply Hsj|by left]). step_with ltac:(eapply runs_unlock; [vlook|apply Hsi|by left]).
    apply runs_ret.
  - cbn. rewrite Er, El, Eb. do 4 (split; [done|]). intros x y Hy. rewrite Ei in Hy. destruct (decide (x = q)) as [->|Hxq].
    + rewrite lookup_insert_ne by done. rewrite lookup_insert_eq. simplify_eq. f_equal. by apply relock_epoch.
    + destruct (decide (x = p)) as [->|Hxp]; [rewrite lookup_insert_eq; simplify_eq; f_equal; by apply relock_epoch|].
      by rewrite !lookup_insert_ne.
Qed.

Lemma does_exchange_with p q s s' n m (f : option ptr -> option ptr -> MW Z) r t t' (g : dir_state R -> dir_state R) :
  nodes t !! p = Some n -> nodes t !! q = Some m -> n_type n = BITBUCKET_DIR_TYPE -> n_type m = BITBUCKET_DIR_TYPE -> p <> q ->
  (forall v x, shows v t -> runs (f (n_names n !! s) (n_names m !! s')) (set_inos x v) r (set_ext (g (ext v)) (set_inos x v))) ->
  (forall v, shows v t -> shows (set_ext (g (ext v)) v) t') ->
  does (c_assert (negb (p =? NULL));; c_assert (negb (q =? NULL));; BitbucketLockTwoInodes p q true;;
        od ← load_dir p; nd ← load_dir q; status ← f (ni_search (Children od) s) (ni_search (Children nd) s');
        BitbucketUnlockInode q;; BitbucketUnlockInode p;; mret status) t r t'.
Proof.
  intros Hn Hm Hty Htyq Hpq Hf Hs v Hv.
  destruct (sh_node _ _ Hv p n Hn) as (i & Hi & Hui & Hsi). destruct (shows_directory n i Hty Hsi) as [d Hd].
  destruct (sh_node _ _ Hv q m Hm) as (j & Hj & Huj & Hsj). destruct (shows_directory m j Htyq Hsj) as [d' Hd'].
  destruct (runs_exchange p q s s' n m i j d d' f r v t (set_ext (g (ext v)) v)) as (v2 & Hrun & Er & Ee & El & Eb & Hin); try done.
  { by apply Hf. }
  exists v2. split; [exact Hrun|].
  eapply (shows_relock _ _ (fun x y => if decide (x = q) then with_epoch (u64 (Epoch j + 1)) y
                                       else if decide (x = p) then with_epoch (u64 (Epoch i + 1)) y else y));
    [by apply Hs|done..| |exact Hin].
  intros x y ny _ _ _. case_decide; [eauto|]. case_decide; [eauto|]. exists (Epoch y). by destruct y.
Qed.

Lemma does_exchange_missing p q s s' par parq names namesq k l t :
  looks t p BITBUCKET_DIR_TYPE par names k -> looks t q BITBUCKET_DIR_TYPE parq namesq l -> p <> q ->
  names !! s = None \/ namesq !! s' = None -> does (BitbucketExchangeObjectsInDirectory p q s s') t ENOENT t.
Proof.
  intros (n & ? & Hn & ? & _ & <- & _) (m & ? & Hm & ? & _ & <- & _) Hpq Hnone.
  eapply (does_exchange_with p q s s' n m exchange_entries _ _ _ (fun x => x)); try done; [|by intros [] ?].
  intros v g Hv. assert (set_ext (ext v) (set_inos g v) = set_inos g v) as -> by done.
  destruct Hnone as [->| ->]; [|destruct (n_names n !! s)]; apply runs_ret.
Qed.

Definition trade e e' x x' (m : gmap ptr dir_entry) : gmap ptr dir_entry :=
  alter (with_de_inode x) e' (alter (with_de_inode x') e m).

Lemma shows_exchange v t p q e e' x x' :
  shows v t -> entries t !! e = Some (x, p) -> entries t !! e' = Some (x', q) -> p <> NULL -> q <> NULL -> p <> q ->
  p <> x -> p <> x' -> q <> x -> q <> x' ->
  shows (set_ext (with_dirents (trade e e' x x') (ext v)) v) (exchange p q e e' x x' t).
Proof.
  intros Hv He He' Hp Hq Hpq D1 D2 D3 D4. pose proof Hv as [Hw []]. split; [by apply wf_exchange|]. assert (e <> e') as Hne by congruence.
  constructor; cbn; try done.
  - intros a. unfold trade. pose proof (sh_entries a) as Ha. destruct (decide (a = e')) as [->|Hae'].
    + rewrite lookup_insert_eq, lookup_alter_eq, lookup_alter_ne by done. rewrite He' in Ha. by destruct (dirents (ext v) !! e').
    + rewrite lookup_insert_ne, lookup_alter_ne by done. destruct (decide (a = e)) as [->|Hae].
      * rewrite lookup_insert_eq, lookup_alter_eq. rewrite He in Ha. by destruct (dirents (ext v) !! e).
      * by rewrite lookup_insert_ne, lookup_alter_ne.
  - intros a y. unfold trade. intros [(-> & y1 & [(-> & y2 & Hy & ->)|[_ Hy]]%lookup_alter_Some & ->)|[_ [(-> & y2 & Hy & ->)|[_ Hy]]%lookup_alter_Some]]%lookup_alter_Some;
      exact (sh_magic _ _ Hy).
  - intros a n s b y Hn Hs. unfold trade. intros [(-> & y1 & [(-> & y2 & Hy & ->)|[_ Hy]]%lookup_alter_Some & ->)|[_ [(-> & y2 & Hy & ->)|[_ Hy]]%lookup_alter_Some]]%lookup_alter_Some;
      exact (sh_named _ _ _ _ _ Hn Hs Hy).
Qed.

(** The two names now lead to each other's inodes. *)
Lemma does_exchange p q s s' e e' x x' par parq names namesq k l t :
  looks t p BITBUCKET_DIR_TYPE par names k -> looks t q BITBUCKET_DIR_TYPE parq namesq l -> p <> q ->
  names !! s = Some e -> namesq !! s' = Some e' -> entries t !! e = Some (x, p) -> entries t !! e' = Some (x', q) ->
  p <> x -> p <> x' -> q <> x -> q <> x' ->
  does (BitbucketExchangeObjectsInDirectory p q s s') t 0 (exchange p q e e' x x' t).
Proof.
  intros (n & ? & Hn & ? & _ & <- & _) (m & ? & Hm & ? & _ & <- & _) Hpq Hs Hs' He He' D1 D2 D3 D4. apply does_wf. intros Hw.
  assert (p <> NULL) as Hp0 by (apply (wf_null _ _ _ _ Hw); eauto). assert (q <> NULL) as Hq0 by (apply (wf_null _ _ _ _ Hw); eauto).
  eapply (does_exchange_with p q s s' n m exchange_entries _ _ _ (with_dirents (trade e e' x x'))); try done; [|intros v Hv; by apply shows_exchange].
  intros v f Hv. rewrite Hs, Hs'.
  pose proof (sh_entries _ _ Hv e) as Hx. rewrite He in Hx. symmetry in Hx. apply fmap_Some in Hx as (y & Hy & Ey).
  pose proof (sh_entries _ _ Hv e') as Hx. rewrite He' in Hx. symmetry in Hx. apply fmap_Some in Hx as (y' & Hy' & Ey').
  cbn in Ey, Ey'. assert (e <> e') as Hne by congruence.
  step_with ltac:(apply runs_load_dirent; dlook). step_with ltac:(apply runs_load_dirent; dlook).
  step_with ltac:(eapply runs_update_dirent; dlook). step_with ltac:(eapply runs_update_dirent; dlook).
  eapply runs_conv; [apply runs_ret|done|]. unfold set_dirents, set_ext, with_dirents, trade. cbn. do 2 f_equal.
  rewrite (alter_insert_Some _ _ e y) by done. rewrite (alter_insert_Some _ _ e' y') by (by rewrite lookup_insert_ne).
  by rewrite <- Ey, <- Ey'.
Qed.

(** * Where the code stops *)

Definition breaks {A : Type} (m : MW A) t (f : failure) : Prop := forall v, shows v t -> fails m v f.

Lemma breaks_here {A B} (m : MW A) (k : A -> MW B) t f : breaks m t f -> breaks (m ≫= k) t f.
Proof. intros Hm v Hv. by apply fails_here, Hm. Qed.

Lemma breaks_later {A B} (m : MW A) (k : A -> MW B) t a t1 f : does m t a t1 -> breaks (k a) t1 f -> breaks (m ≫= k) t f.
Proof. intros Hm Hk v Hv. destruct (Hm v Hv) as (v1 & Hr1 & Hv1). eapply fails_later; [exact Hr1|]. by apply Hk. Qed.

Lemma breaks_assert {A} b (k : unit -> MW A) t : b = false -> breaks (c_assert b ≫= k) t AssertFailed.
Proof. intros ->. by apply breaks_here. Qed.

Lemma breaks_wf {A} (m : MW A) t f : (sound t -> breaks m t f) -> breaks m t f.
Proof. intros Hm v Hv. apply Hm; [by eapply shows_wf|done]. Qed.

Lemma breaks_load {B} p n (k : inode -> MW B) t f :
  nodes t !! p = Some n -> (forall i, shows_inode i n -> breaks (k i) t f) -> breaks (load_inode p ≫= k) t f.
Proof.
  intros Hn Hk v Hv. destruct (sh_node _ _ Hv p n Hn) as (i & Hi & _ & Hs).
  eapply fails_later; [by apply runs_load|]. by apply Hk.
Qed.

Lemma breaks_load_dirent {B} e q d (k : dir_entry -> MW B) t f :
  entries t !! e = Some (q, d) -> (forall x, de_Inode x = q -> breaks (k x) t f) -> breaks (load_dirent e ≫= k) t f.
Proof.
  intros He Hk v Hv. pose proof (sh_entries _ _ Hv e) as Hx. rewrite He in Hx. symmetry in Hx. apply fmap_Some in Hx as (x & Hx & Ex).
  eapply fails_later; [by apply runs_load_dirent|]. by apply Hk.
Qed.

Lemma breaks_load_dir {B} p n (k : bitbucket_dir T -> MW B) t f :
  nodes t !! p = Some n -> n_type n = BITBUCKET_DIR_TYPE -> (forall d, Parent d = n_parent n -> breaks (k d) t f) ->
  breaks (load_dir p ≫= k) t f.
Proof.
  intros Hn Hty Hk v Hv. destruct (sh_node _ _ Hv p n Hn) as (i & Hi & _ & Hs). destruct (shows_directory n i Hty Hs) as [d Hd].
  eapply fails_later; [by eapply runs_load_dir|]. apply Hk; [|done]. by destruct (shows_dir_data i n d Hs Hd) as (_ & ? & _).
Qed.

Lemma breaks_assoc {A B} (m1 m2 : MW A) (k : MW B) t f : breaks ((m1;; m2);; k) t f -> breaks (m1;; m2;; k) t f.
Proof. intros Hm v Hv w Hw. rewrite <- (Hm v Hv w Hw). symmetry. apply M_assoc. Qed.

#[local] Ltac bstep_with r := eapply breaks_later; [r|].
#[local] Ltac bstep_assert := bstep_with ltac:(apply does_assert).

(** The checks of an operation on a directory that exists. *)
Lemma breaks_not_null {B} p (k : unit -> MW B) t f :
  is_Some (nodes t !! p) -> breaks (k tt) t f -> breaks (c_assert (negb (p =? NULL)) ≫= k) t f.
Proof.
  intros Hp Hk. apply breaks_wf. intros Hw. bstep_assert; [|done]. apply negb_true_iff, Z.eqb_neq.
  exact (wf_null _ _ _ _ Hw p Hp).
Qed.

(** Two locks of the same inode are never taken. *)
Lemma exchange_same_breaks p s s' par names k t :
  looks t p BITBUCKET_DIR_TYPE par names k -> breaks (BitbucketExchangeObjectsInDirectory p p s s') t AssertFailed.
Proof.
  intros (n & ? & Hn & _). eapply breaks_not_null; [eauto|]. eapply breaks_not_null; [eauto|]. apply breaks_here.
  unfold BitbucketLockTwoInodes. eapply breaks_not_null; [eauto|]. eapply breaks_not_null; [eauto|].
  apply breaks_assert. by rewrite Z.eqb_refl.
Qed.

(** A directory is removed from a directory that its parent entry does not
    lead to. *)
Lemma delete_moved_breaks p s c e e2 y names namesc par k kc l ty' par' names' t :
  looks t p BITBUCKET_DIR_TYPE par names k -> names !! s = Some e -> entries t !! e = Some (c, p) -> c <> p ->
  looks t c BITBUCKET_DIR_TYPE y namesc kc -> kc + 2 < 2 ^ 32 -> namesc !! ".."%string = Some e2 -> entries t !! e2 = Some (y, c) ->
  y <> p -> y <> c -> looks t y ty' par' names' l -> l + 1 < 2 ^ 32 ->
  breaks (BitbucketDeleteDirectoryEntry p s) t AssertFailed.
Proof.
  intros Hp Hs He Hne Hc Hk Hdots He2 Hyp Hyc Hy Hl. apply breaks_wf. intros Hw.
  pose proof Hp as (n & ? & Hn & Hty & _ & <- & _). pose proof Hc as (nc & bagc & Hnc & Htyc & _ & <- & Hbagc & _ & Hsumc).
  destruct (wf_names _ _ _ _ Hw p n s e Hn Hs) as [Hse _].
  unfold BitbucketDeleteDirectoryEntry. eapply breaks_not_null; [eauto|]. bstep_assert.
  { apply Z.ltb_lt. destruct s; [done|]. cbn. lia. }
  bstep_with ltac:(by eapply does_check_inode). bstep_with ltac:(by eapply does_check_type).
  bstep_with ltac:(by eapply does_check_dir). bstep_with ltac:(by eapply does_verify).
  bstep_with ltac:(eapply (does_lookup_found p n s e c bagc); [done..|lia]). set (t1 := hold c INODE_LOOKUP_REFERENCE t).
  destruct (Z.eqb_spec c NULL) as [->|Hc0]; [by destruct (wf_null _ _ _ _ Hw NULL ltac:(eauto))|].
  pose proof (looks_hold _ _ _ _ c INODE_LOOKUP_REFERENCE t c Hc ltac:(done)) as Hc1.
  pose proof (looks_hold _ _ _ _ c INODE_LOOKUP_REFERENCE t y Hy ltac:(done)) as Hy1. fold t1 in Hc1, Hy1.
  rewrite one_same in Hc1. rewrite one_other in Hy1 by done.
  pose proof Hc1 as (nc1 & bagc1 & Hnc1 & Htyc1 & _ & Hnamesc1 & Hbagc1 & _ & Hsumc1).
  apply breaks_here. bstep_with ltac:(eapply (does_remove_other p s e c n nc1); try done; lia). set (t2 := unlist p s e c t1).
  destruct (Z.eqb_spec e NULL) as [->|He0]; [by destruct (wf_entry _ _ _ _ Hw NULL c p He)|].
  assert (entries t2 !! e = Some (c, NULL)) as He' by (unfold t2; rewrite unlist_entry; apply lookup_insert_eq).
  assert (e2 <> e) as Hee by congruence.
  assert (entries t2 !! e2 = Some (y, c)) as He2' by (unfold t2; by rewrite unlist_entry, lookup_insert_ne).
  destruct (unlist_other p s e c t1 c nc1 Hnc1 Hne) as (nc2 & Hnc2 & Htyc2 & _ & Hnamesc2). fold t2 in Hnc2.
  eapply breaks_load_dirent; [exact He'|]. intros z Hz. rewrite Hz.
  eapply breaks_load; [exact Hnc2|]. intros i Hi. rewrite (sn_type _ _ Hi), Htyc2, Htyc1, Z.eqb_refl. apply breaks_here.
  pose proof Hy1 as (ny & bagy & Hny & _ & _ & _ & Hbagy & _ & Hsumy).
  destruct (unlist_other p s e c t1 y ny Hny Hyp) as (ny2 & Hny2 & _). fold t2 in Hny2.
  assert (counts t2 !! y = Some bagy) as Hbagy2 by (unfold t2; by rewrite unlist_counts).
  unfold unlink_parent. bstep_with ltac:(eapply (does_remove_other c ".." e2 y nc2 ny2 bagy); try done; try congruence; lia).
  destruct (Z.eqb_spec e2 NULL) as [->|He20]; [by destruct (wf_entry _ _ _ _ Hw NULL y c He2)|].
  eapply breaks_load_dirent; [rewrite unlist_entry; apply lookup_insert_eq|]. intros x2 Hx2. apply breaks_assert.
  rewrite Hx2. by apply Z.eqb_neq.
Qed.

(** A directory with a name of its own for something is not a root that can
    be deleted. *)
Lemma unroot_full_breaks p e2 names k t :
  looks t p BITBUCKET_DIR_TYPE p names k -> names !! ".."%string = Some e2 -> entries t !! e2 = Some (p, p) -> (2 < size names)%nat ->
  3 < k -> k + 3 < 2 ^ 32 -> breaks (BitbucketDeleteRootDirectory p) t AssertFailed.
Proof.
  intros H0 Hs He2 Hsize Hk Hk2. apply breaks_wf. intros Hw.
  assert (p <> NULL) as Hnull by (destruct H0 as (n & ? & Hn & _); apply (wf_null _ _ _ _ Hw); eauto).
  pose proof H0 as (n & bag & Hn & Hty & Hpar & Hnames & Hbag & Hlen & Hsum).
  bstep_with ltac:(by eapply does_check_inode). bstep_with ltac:(by eapply does_check_type).
  bstep_with ltac:(eapply (does_reference p _ _ bag); [done|done|lia]). set (t1 := hold p INODE_LOOKUP_REFERENCE t).
  pose proof (looks_hold _ _ _ _ p INODE_LOOKUP_REFERENCE t p H0 ltac:(done)) as H1. rewrite one_same in H1. fold t1 in H1.
  pose proof H1 as (n1 & bag1 & Hn1 & Hty1 & Hpar1 & Hnames1 & Hbag1 & Hlen1 & Hsum1).
  eapply breaks_load_dir; [done..|]. intros d Hd. rewrite Hd, Hpar1. bstep_assert; [by apply negb_true_iff, Z.eqb_neq|].
  apply breaks_assoc. bstep_with ltac:(eapply (does_orphan p p n1 bag1); try done; lia). set (t2 := orphan p p t1).
  pose proof (looks_orphan_self p t1 _ _ _ _ H1 ltac:(lia)) as H2. fold t2 in H2.
  assert (entries t2 = entries t) as E2 by (unfold t2, orphan, drop; repeat case_match; done).
  pose proof H2 as (n2 & bag2 & Hn2 & Hty2 & Hpar2 & Hnames2 & Hbag2 & Hlen2 & Hsum2).
  bstep_with ltac:(eapply (does_delete_self p ".." e2 n2 bag2); try done; try lia; [by rewrite Hnames2|by rewrite E2|by rewrite lookup_delete_eq]).
  bstep_assert; [done|].
  pose proof (looks_discard p e2 p _ _ _ _ _ (looks_unlist_self p ".." e2 t2 _ _ _ _ H2) ltac:(lia)) as H3. rewrite one_same in H3.
  bstep_with ltac:(eapply does_rmdir_full; [exact H3|]).
  { assert (is_Some (names !! ".."%string)) as Hdots by eauto. pose proof (map_size_delete_Some _ _ Hdots) as Hsz. lia. }
  apply breaks_assert. done.
Qed.

(** Exchanging two subdirectories makes the names undeletable.  When the
    name [s] of [p] and the name [s'] of [q], where [s'] is a directory whose
    ".." and Parent lead to [q], are exchanged, the exchange succeeds; but ".." and
    Parent of the directory that moved to [p] still lead to [q], and the
    deletion of [s] from [p] fails an assertion. *)
Theorem exchange_breaks_delete p q s s' e e' e2 x x' par parq names namesq namesx k l kx (w : world) v t :
  holds w v -> shows v t -> looks t p BITBUCKET_DIR_TYPE par names k -> looks t q BITBUCKET_DIR_TYPE parq namesq l ->
  looks t x' BITBUCKET_DIR_TYPE q namesx kx -> p <> q ->
  names !! s = Some e -> namesq !! s' = Some e' -> entries t !! e = Some (x, p) -> entries t !! e' = Some (x', q) ->
  p <> x -> p <> x' -> q <> x -> q <> x' -> namesx !! ".."%string = Some e2 -> entries t !! e2 = Some (q, x') ->
  kx + 2 < 2 ^ 32 -> l + 1 < 2 ^ 32 ->
  exists w', BitbucketExchangeObjectsInDirectory p q s s' w = Done (0, w') /\ BitbucketDeleteDirectoryEntry p s w' = Fail AssertFailed.
Proof.
  intros Hw Hv Hp Hq Hx' Hpq Hs Hs' He He' D1 D2 D3 D4 Hdots He2 Hkx Hl.
  destruct (does_exchange p q s s' e e' x x' _ _ _ _ _ _ t Hp Hq Hpq Hs Hs' He He' D1 D2 D3 D4 v Hv) as (v' & Hr & Hv').
  destruct (Hr w Hw) as (w' & Hrun & Hw'). exists w'. split; [exact Hrun|].
  assert (e <> e' /\ e2 <> e /\ e2 <> e') as (Hee & H2e & H2e') by (repeat split; congruence).
  eapply (delete_moved_breaks p s x' e e2 q names namesx par k kx l BITBUCKET_DIR_TYPE parq namesq (exchange p q e e' x x' t));
    [exact Hp|exact Hs| |congruence|exact Hx'|lia|exact Hdots| |congruence|congruence|exact Hq|lia|exact Hv'|exact Hw'].
  - cbn. rewrite lookup_insert_ne by congruence. apply lookup_insert_eq.
  - cbn. by rewrite !lookup_insert_ne by congruence.
Qed.
End Exchange.
