(* ===== verification/Directories.v ===== *)
(** Directories as trees: the contract of dir.c.

    [dir_op] is an operation of dir.c, or the creation of an inode, or a
    reference that a caller takes or gives back; [run_op] is the code that
    performs it and [spec_op] what it is for: the answer and the tree after
    it, where the tree allows it.  [directories_refine_trees] says that any
    sequence of operations that the specification allows runs with every
    assertion true and gives the answers of the specification.

    What the specification does not allow is what the code asserts not to
    happen (DirectoryExchange.v) or the overflow of a 32-bit count. *)

From stdpp Require Import gmap list strings.
From S2P Require Import Prelude NameIndex Trie Object Xattr Inode InodeRules BitbucketData Tree Directory DirectoryRules DirectoryOps DirectoryExchange.

Open Scope word_scope.

(** * Operations *)

Inductive dir_op : Type :=
  | MakeRoot (epoch : Z) (c e1 e2 : ptr)
  | MakeDir (p : ptr) (s : string) (epoch : Z) (c e1 e2 e3 : ptr)
  | MakeInode (kd : kind) (epoch : Z) (c : ptr)
  | Insert (p q : ptr) (s : string) (e : ptr)
  | Lookup (p : ptr) (s : string)
  | Delete (p : ptr) (s : string)
  | Count (p : ptr)
  | Rmdir (p : ptr)
  | Unroot (p : ptr)
  | Exchange (p q : ptr) (s s' : string)
  | Take (p : ptr) (r : Z)
  | Release (p : ptr) (r : Z).

Section Directories.
Context {T : Type -> Type} `{NameIndex T} {R : Type} `{!Storage R}.
#[local] Notation world := (world T (instance T) (dir_state R) kind).
#[local] Notation MW := (M world).
#[local] Notation view := (view T (instance T) (dir_state R) kind).
#[local] Notation tree := (tree R).

Implicit Types (t : tree).

Definition run_op (o : dir_op) : MW Z :=
  match o with
  | MakeRoot epoch c e1 e2 => BitbucketCreateRootDirectory epoch c e1 e2
  | MakeDir p s epoch c e1 e2 e3 => BitbucketCreateDirectory p s epoch c e1 e2 e3
  | MakeInode kd epoch c => BitbucketCreateInode (Some kd) 0 epoch c
  | Insert p q s e => BitbucketInsertDirectoryEntry p q s e
  | Lookup p s => BitbucketLookupObjectInDirectory p s
  | Delete p s => BitbucketDeleteDirectoryEntry p s
  | Count p => BitbucketDirectoryEntryCount p
  | Rmdir p => BitbucketDeleteDirectory p
  | Unroot p => BitbucketDeleteRootDirectory p;; mret 0
  | Exchange p q s s' => BitbucketExchangeObjectsInDirectory p q s s'
  | Take p r => BitbucketReferenceInode p r;; mret 0
  | Release p r => BitbucketDereferenceInode p r 1;; mret 0
  end.

Fixpoint run_ops (os : list dir_op) : MW (list Z) :=
  match os with
  | [] => mret []
  | o :: os => r ← run_op o; rs ← run_ops os; mret (r :: rs)
  end.

(** * The specification *)

(** An inode: type, parent, names, references. *)
Definition look t (p : ptr) : option (Z * ptr * gmap string ptr * Z) :=
  match nodes t !! p, counts t !! p with
  | Some n, Some bag => Some (n_type n, n_parent n, n_names n, sum bag)
  | _, _ => None
  end.

(** The names of a directory. *)
Definition look_dir t (p : ptr) : option (ptr * gmap string ptr * Z) :=
  match look t p with
  | Some (ty, par, names, k) => if ty =? BITBUCKET_DIR_TYPE then Some (par, names, k) else None
  | None => None
  end.

Definition when {A : Type} (P : Prop) `{Decision P} (x : option A) : option A := if decide P then x else None.

Definition makeable (c : ptr) t : Prop :=
  c <> NULL /\ nodes t !! c = None /\ 0 < t_bias t < 2 ^ 64 /\ t_next t <> FUSE_ROOT_ID /\ t_next t <> 0 /\
  map_Forall (fun _ n => n_ino n <> t_next t) (nodes t) /\ Z.of_nat (size (counts t)) + 1 < 2 ^ 64.

Definition fresh_entries (es : list ptr) t : Prop := NoDup es /\ Forall (fun e => e <> NULL /\ entries t !! e = None) es.

Definition spec_insert p q s e t : option (Z * tree) :=
  '(par, names, k) ← look_dir t p;
  '(tyq, parq, namesq, kq) ← look t q;
  when (kq + 1 < 2 ^ 32 /\ good_name s /\ fresh_entries [e] t)
    match names !! s with
    | None => Some (0, link p q s e t)
    | Some _ => when (p <> q) (Some (EEXIST, leak q e t))
    end.

Definition spec_lookup p s t : option (Z * tree) :=
  '(par, names, k) ← look_dir t p;
  match names !! s with
  | None => Some (NULL, t)
  | Some e =>
      '(q, _) ← entries t !! e;
      '(_, _, _, kq) ← look t q;
      when (kq + 1 < 2 ^ 32) (Some (q, hold q INODE_LOOKUP_REFERENCE t))
  end.

(** The entry [e] of [p] leaves it; a directory that it named is detached. *)
Definition spec_remove p s e t : option (Z * tree) :=
  '(par, names, k) ← look_dir t p;
  '(q, _) ← entries t !! e;
  '(tyq, parq, namesq, kq) ← look t q;
  when (kq + 2 < 2 ^ 32)
    (if negb (tyq =? BITBUCKET_DIR_TYPE) then Some (0, discard e q (unlist p s e q t))
     else if decide (p = q) then
       when (delete s names !! ".."%string = None /\ 1 < k) (Some (0, discard e p (unlist p s e p t)))
     else
       e2 ← namesq !! ".."%string;
       '(y, _) ← entries t !! e2;
       when (y = p /\ parq = p /\ 1 < kq /\ 2 < k /\ k + 1 < 2 ^ 32)
         (Some (0, discard e q (detach q p e2 (unlist p s e q t))))).

Definition spec_delete p s t : option (Z * tree) :=
  '(par, names, k) ← look_dir t p;
  when (s <> EmptyString)
    match names !! s with
    | None => Some (ENOENT, t)
    | Some e => spec_remove p s e t
    end.

Definition spec_rmdir p t : option (Z * tree) :=
  '(par, names, k) ← look_dir t p;
  if decide (par <> NULL) then Some (EINVAL, t)
  else if decide (1 < size names)%nat then Some (ENOTEMPTY, t)
  else match names !! "."%string with
       | None => Some (ENOENT, t)
       | Some e =>
           when (names = {["."%string := e]} /\ entries t !! e = Some (p, p) /\ 1 < k /\ k + 2 < 2 ^ 32)
             (Some (0, discard e p (unlist p "." e p t)))
       end.

Definition spec_unroot p t : option (Z * tree) :=
  '(par, names, k) ← look_dir t p;
  e1 ← names !! "."%string;
  e2 ← names !! ".."%string;
  when (par = p /\ names = root_names e1 e2 /\ entries t !! e1 = Some (p, p) /\ entries t !! e2 = Some (p, p) /\
        3 < k /\ k + 3 < 2 ^ 32) (Some (0, unroot p e1 e2 t)).

Definition spec_exchange p q s s' t : option (Z * tree) :=
  '(_, names, _) ← look_dir t p;
  '(_, namesq, _) ← look_dir t q;
  when (p <> q)
    match names !! s, namesq !! s' with
    | Some e, Some e' =>
        '(x, _) ← entries t !! e;
        '(x', _) ← entries t !! e';
        when (p <> x /\ p <> x' /\ q <> x /\ q <> x') (Some (0, exchange p q e e' x x' t))
    | _, _ => Some (ENOENT, t)
    end.

Definition spec_release p r t : option (Z * tree) :=
  '(_, par, names, k) ← look t p;
  bag ← counts t !! p;
  when (plain r /\ 1 <= default 0 (bag !! Z.to_nat r) /\ (k <> 1 \/ names = ∅ /\ par = NULL)) (Some (0, drop p r t)).

Definition spec_op (o : dir_op) t : option (Z * tree) :=
  match o with
  | MakeRoot epoch c e1 e2 => when (makeable c t /\ fresh_entries [e1; e2] t) (Some (c, make_root c e1 e2 t))
  | MakeDir p s epoch c e1 e2 e3 =>
      '(_, names, k) ← look_dir t p;
      when (names !! s = None /\ good_name s /\ k + 2 < 2 ^ 32 /\ makeable c t /\ fresh_entries [e1; e2; e3] t)
        (Some (c, make_dir p c s e1 e2 e3 t))
  | MakeInode kd epoch c => when (makeable c t) (Some (c, create kd c t))
  | Insert p q s e => spec_insert p q s e t
  | Lookup p s => spec_lookup p s t
  | Delete p s => spec_delete p s t
  | Count p => '(_, names, _) ← look_dir t p; Some (u64 (Z.of_nat (size names)), t)
  | Rmdir p => spec_rmdir p t
  | Unroot p => spec_unroot p t
  | Exchange p q s s' => spec_exchange p q s s' t
  | Take p r => '(_, _, _, k) ← look t p; when (plain r /\ k + 1 < 2 ^ 32) (Some (0, hold p r t))
  | Release p r => spec_release p r t
  end.

Fixpoint spec_ops (os : list dir_op) t : option (list Z * tree) :=
  match os with
  | [] => Some ([], t)
  | o :: os => '(r, t1) ← spec_op o t; '(rs, t2) ← spec_ops os t1; Some (r :: rs, t2)
  end.

(** * The code implements the specification *)

Lemma when_Some {A : Type} (P : Prop) `{Decision P} (x : option A) a : when P x = Some a <-> P /\ x = Some a.
Proof. unfold when. case_decide; [tauto|]. split; [done|tauto]. Qed.

Lemma look_looks t p ty par names k : sound t -> look t p = Some (ty, par, names, k) -> looks t p ty par names k.
Proof.
  unfold look. intros Hw. destruct (nodes t !! p) as [n|] eqn:Hn, (counts t !! p) as [bag|] eqn:Hbag; [|done..].
  intros [= <- <- <- <-]. exists n, bag. repeat split; try done. by destruct (wf_bag _ _ _ _ Hw p bag Hbag).
Qed.

Lemma look_dir_looks t p par names k : sound t -> look_dir t p = Some (par, names, k) -> looks t p BITBUCKET_DIR_TYPE par names k.
Proof.
  unfold look_dir. intros Hw. destruct (look t p) as [[[[ty par'] names'] k']|] eqn:Hl; [|done].
  destruct (Z.eqb_spec ty BITBUCKET_DIR_TYPE) as [->|]; [|done]. intros [= <- <- <-]. by apply look_looks.
Qed.

Lemma makeable_can_make c t : makeable c t -> can_make 0 c t.
Proof. intros (? & ? & ? & ? & ? & ? & ?). by constructor. Qed.

Lemma fresh_entries_ok es t : fresh_entries es t -> entries_fresh es t.
Proof. intros [? ?]. by constructor. Qed.

(** A name's entry leads to an inode. *)
Lemma looks_entry t p ty par names k s e q d :
  sound t -> looks t p ty par names k -> names !! s = Some e -> entries t !! e = Some (q, d) -> d = p.
Proof.
  intros Hw (n & ? & Hn & _ & _ & <- & _) Hs He. destruct (wf_names _ _ _ _ Hw p n s e Hn Hs) as (_ & q' & Hq'). congruence.
Qed.

#[local] Ltac invert_spec :=
  repeat match goal with
    | H : when _ _ = Some _ |- _ => apply when_Some in H as [? H]
    | H : mbind _ _ = Some _ |- _ => let y := fresh "y" in let E := fresh "E" in apply bind_Some in H as (y & E & H)
    | H : Some _ = Some _ |- _ => injection H as H; subst
    | H : (_, _) = (_, _) |- _ => injection H as H; subst
    | y : (_ * _)%type |- _ => destruct y
    | H : _ /\ _ |- _ => destruct H
    end.

#[local] Ltac all_looks Hw :=
  repeat match goal with
    | H : look _ _ = Some _ |- _ => apply (look_looks _ _ _ _ _ _ Hw) in H
    | H : look_dir _ _ = Some _ |- _ => apply (look_dir_looks _ _ _ _ _ Hw) in H
    | H : makeable _ _ |- _ => apply makeable_can_make in H
    | H : fresh_entries _ _ |- _ => apply fresh_entries_ok in H
    end.

Lemma does_then {A} (m : MW unit) (r : A) t t' : does m t tt t' -> does (m;; mret r) t r t'.
Proof. intros Hm. dstep_with ltac:(exact Hm). apply does_ret. Qed.

(** The lemmas of DirectoryRules.v, by what is known of the inodes. *)
Lemma does_leak p q s e e' t par names kp tyq parq namesq k :
  looks t p BITBUCKET_DIR_TYPE par names kp -> looks t q tyq parq namesq k -> k + 1 < 2 ^ 32 -> good_name s -> fresh_entry e t ->
  names !! s = Some e' -> p <> q -> does (BitbucketInsertDirectoryEntry p q s e) t EEXIST (leak q e t).
Proof.
  intros (n & ? & Hn & ? & ? & <- & _) (nq & bag & Hq & ? & ? & ? & Hbag & ? & <-) Hk Hs He Hfree Hne. by eapply does_insert_exists.
Qed.

Lemma does_found p s e q t par names kp tyq parq namesq k :
  looks t p BITBUCKET_DIR_TYPE par names kp -> names !! s = Some e -> entries t !! e = Some (q, p) -> looks t q tyq parq namesq k ->
  k + 1 < 2 ^ 32 -> does (BitbucketLookupObjectInDirectory p s) t q (hold q INODE_LOOKUP_REFERENCE t).
Proof.
  intros (n & ? & Hn & ? & ? & <- & _) Hs He (nq & bag & Hq & ? & ? & ? & Hbag & ? & <-) Hk. by eapply does_lookup_found.
Qed.

Lemma does_not_found p s t par names kp :
  looks t p BITBUCKET_DIR_TYPE par names kp -> names !! s = None -> does (BitbucketLookupObjectInDirectory p s) t NULL t.
Proof. intros (n & ? & Hn & ? & ? & <- & _) Hs. by eapply does_lookup_missing. Qed.

Lemma does_spec_insert p q s e t r t' :
  sound t -> spec_insert p q s e t = Some (r, t') -> does (BitbucketInsertDirectoryEntry p q s e) t r t'.
Proof.
  intros Hw Hspec. unfold spec_insert in Hspec. invert_spec. all_looks Hw.
  match goal with H : entries_fresh _ _ |- _ => destruct H as [_ [Hf _]%Forall_cons] end.
  case_match eqn:Hs; invert_spec.
  - by eapply does_leak.
  - by eapply does_link.
Qed.

Lemma does_spec_lookup p s t r t' :
  sound t -> spec_lookup p s t = Some (r, t') -> does (BitbucketLookupObjectInDirectory p s) t r t'.
Proof.
  intros Hw Hspec. unfold spec_lookup in Hspec. invert_spec. all_looks Hw. case_match eqn:Hs; invert_spec; all_looks Hw.
  - match goal with H : entries _ !! _ = Some (_, ?d) |- _ => assert (d = p) as -> by (by eapply looks_entry) end. by eapply does_found.
  - by eapply does_not_found.
Qed.

Lemma does_spec_remove p s e par names k t r t' :
  sound t -> looks t p BITBUCKET_DIR_TYPE par names k -> names !! s = Some e -> spec_remove p s e t = Some (r, t') ->
  does (BitbucketDeleteDirectoryEntry p s) t r t'.
Proof.
  intros Hw Hp Hs Hspec. unfold spec_remove in Hspec. invert_spec. all_looks Hw.
  match goal with H : entries _ !! e = Some (?x, ?d) |- _ =>
    pose proof (looks_entry _ _ _ _ _ _ _ _ _ _ Hw Hp Hs H); subst d; rename H into He; rename x into q end.
  destruct Hp as (n & bag & Hn & Hty & <- & <- & Hbag & _ & <-).
  match goal with H : looks t q _ _ _ _ |- _ => destruct H as (nq & bagq & Hnq & <- & <- & <- & Hbagq & _ & <-) end.
  repeat match goal with H : looks _ _ _ _ _ _ |- _ => destruct H as (? & ? & ? & ? & <- & <- & ? & ? & <-) end. simplify_eq.
  destruct (Z.eqb_spec (n_type nq) BITBUCKET_DIR_TYPE) as [Htyq|Htyq]; cbn in Hspec.
  - case_decide as Hpq; invert_spec; [subst; simplify_eq; by eapply does_delete_self|]. subst.
    match goal with H : entries _ !! _ = Some (n_parent nq, ?d) |- _ =>
      assert (d = q) as -> by (destruct (wf_names _ _ _ _ Hw q nq ".."%string _ Hnq ltac:(eassumption)) as (_ & ? & ?); congruence) end.
    by eapply does_delete_dir.
  - invert_spec. by eapply does_delete_leaf.
Qed.

Lemma does_spec_delete p s t r t' : sound t -> spec_delete p s t = Some (r, t') -> does (BitbucketDeleteDirectoryEntry p s) t r t'.
Proof.
  intros Hw Hspec. unfold spec_delete in Hspec. invert_spec. all_looks Hw. case_match eqn:Hs.
  - by eapply does_spec_remove.
  - invert_spec. match goal with H : looks _ _ _ _ _ _ |- _ => destruct H as (n & ? & Hn & ? & ? & <- & _) end. by eapply does_delete_missing.
Qed.

(** A directory without an entry for itself. *)
Lemma does_rmdir_none p names k t :
  looks t p BITBUCKET_DIR_TYPE NULL names k -> ~ (1 < size names)%nat -> names !! "."%string = None ->
  does (BitbucketDeleteDirectory p) t ENOENT t.
Proof.
  intros (n & bag & Hn & Hty & Hpar & <- & _) Hsize Hdot. apply does_wf. intros Hw. eapply does_not_null; [eauto|].
  dstep_with ltac:(by eapply does_check_inode). dstep_with ltac:(by eapply does_check_type). dstep_with ltac:(by eapply does_check_dir).
  eapply does_load_dir; [done..|]. intros d Hd Hnd Hl. rewrite Hd, Hpar.
  assert (length (DirEntries d) = size (n_names n)) as Hlen.
  { apply values_length; [done..|]. intros s s' e. by eapply wf_once. }
  assert (does (BitbucketDeleteDirectoryEntry p ".") t ENOENT t) as Hdel by (by eapply does_delete_missing).
  destruct (DirEntries d) as [|e1 [|e2 l]]; [| |cbn in Hlen; lia];
    (dstep_with ltac:(exact Hdel); dstep_with ltac:(apply does_ret); apply does_ret).
Qed.

Lemma does_spec_rmdir p t r t' : sound t -> spec_rmdir p t = Some (r, t') -> does (BitbucketDeleteDirectory p) t r t'.
Proof.
  intros Hw Hspec. unfold spec_rmdir in Hspec. invert_spec. all_looks Hw.
  match goal with H : looks _ _ _ ?x _ _ |- _ => rename x into par end.
  case_decide; invert_spec; [by eapply does_rmdir_parent|]. assert (par = NULL) as -> by (by destruct (decide (par = NULL))).
  case_decide; invert_spec; [by eapply does_rmdir_full|]. case_match eqn:Hs; invert_spec; [subst; by eapply does_rmdir|].
  by eapply does_rmdir_none.
Qed.

Lemma does_spec_exchange p q s s' t r t' :
  sound t -> spec_exchange p q s s' t = Some (r, t') -> does (BitbucketExchangeObjectsInDirectory p q s s') t r t'.
Proof.
  intros Hw Hspec. unfold spec_exchange in Hspec. invert_spec. all_looks Hw.
  assert (forall a u ty par names k e x d, looks t a ty par names k -> names !! u = Some e -> entries t !! e = Some (x, d) -> d = a) as Hd.
  { intros. by eapply looks_entry. }
  repeat case_match; invert_spec; try (eapply does_exchange_missing; eauto; fail).
  eapply does_exchange; try done;
    match goal with H : entries t !! ?e = Some (?x, ?d) |- entries t !! ?e = Some (?x, ?p) => by rewrite <- (Hd p _ _ _ _ _ e x d ltac:(eassumption) ltac:(eassumption) H) end.
Qed.

Lemma does_spec_release p r t r' t' :
  sound t -> spec_release p r t = Some (r', t') -> does (BitbucketDereferenceInode p r 1;; mret 0) t r' t'.
Proof.
  intros Hw Hspec. unfold spec_release in Hspec. invert_spec. all_looks Hw.
  match goal with H : looks _ _ _ _ _ _ |- _ => destruct H as (n & ? & Hn & ? & <- & <- & ? & ? & <-) end. simplify_eq.
  apply does_then. eapply does_drop; try done. intros E. by match goal with H : _ \/ _ |- _ => destruct H end.
Qed.

Lemma does_spec_unroot p t r t' : sound t -> spec_unroot p t = Some (r, t') -> does (BitbucketDeleteRootDirectory p;; mret 0) t r t'.
Proof.
  intros Hw Hspec. unfold spec_unroot in Hspec. invert_spec. all_looks Hw. subst. apply does_then.
  match goal with H : looks t _ _ _ (root_names ?a ?b) _ |- _ => assert (a <> b) as Hne; [intros ->; destruct H as (n & ? & Hn & _ & _ & Hnames & _)|] end.
  { assert ("."%string = ".."%string); [|done]. eapply (wf_once _ _ _ _ Hw p n); [done|by rewrite Hnames..]. }
  by eapply does_unroot.
Qed.

(** Each operation that is allowed does what is specified. *)
Lemma does_spec o t r t' : spec_op o t = Some (r, t') -> does (run_op o) t r t'.
Proof.
  intros Hspec. apply does_wf. intros Hw. destruct o; cbn in Hspec |- *.
  - invert_spec. all_looks Hw. by apply does_root.
  - invert_spec. all_looks Hw. by eapply does_mkdir.
  - invert_spec. all_looks Hw. by apply does_create.
  - by apply does_spec_insert.
  - by apply does_spec_lookup.
  - by apply does_spec_delete.
  - invert_spec. all_looks Hw. by eapply does_entry_count.
  - by apply does_spec_rmdir.
  - by apply does_spec_unroot.
  - by apply does_spec_exchange.
  - invert_spec. all_looks Hw. apply does_then.
    match goal with H : looks _ _ _ _ _ _ |- _ => destruct H as (n & ? & Hn & ? & <- & <- & ? & ? & <-) end. by eapply does_reference.
  - by apply does_spec_release.
Qed.

Lemma does_spec_ops os : forall t rs t', spec_ops os t = Some (rs, t') -> does (run_ops os) t rs t'.
Proof.
  induction os as [|o os IH]; intros t rs t' Hspec; cbn in Hspec |- *; invert_spec; [apply does_ret|].
  dstep_with ltac:(apply does_spec; eassumption). dstep_with ltac:(apply IH; eassumption). apply does_ret.
Qed.

(** C6: Directories are trees.  In a file system that shows a well-formed tree,
    every sequence of operations that the specification allows (creation of
    directories, of a root and of other inodes, insertion, lookup, deletion
    and exchange of entries, deletion of directories, references taken and
    given back) runs with no assertion failing, no lock held twice and no
    pointer dangling; it gives the answers of the specification, and leaves a
    file system that shows the well-formed tree the specification leaves. *)
Theorem directories_refine_trees os (w : world) (v : view) t rs t' :
  holds w v -> shows v t -> spec_ops os t = Some (rs, t') ->
  exists w' v', run_ops os w = Done (rs, w') /\ holds w' v' /\ shows v' t'.
Proof.
  intros Hw Hv Hspec. destruct (does_spec_ops os t rs t' Hspec v Hv) as (v' & Hr & Hv').
  destruct (Hr w Hw) as (w' & Hrun & Hw'). by exists w', v'.
Qed.

(** ** A file system without inodes *)

Definition empty_tree (x : R) : tree :=
  {| nodes := ∅; entries := ∅; counts := ∅; t_last := 5; t_bias := 7; t_verify := true; t_rest := x |}.

Definition empty_view (x : R) : view :=
  {| refs := ∅; inos := ∅; ext := {| dirents := ∅; VerifyDirectoriesEnabled := true; rest := x |}; last_ino := 5; bias_ino := 7 |}.

Definition new_file_system (x : R) : world :=
  start_world {| dirents := ∅; VerifyDirectoriesEnabled := true; rest := x |}.

Lemma empty_holds x : holds (new_file_system x) (empty_view x).
Proof.
  constructor; try done. exists ∅. split; [apply start_world_ok|]. intros p bag. split; [done|]. by intros [n Hn].
Qed.

Lemma empty_shows x : shows (empty_view x) (empty_tree x).
Proof.
  split; constructor; try done.
  - intros p. split; intros [? ?]; done.
  - intros p [? ?]; done.
Qed.
(** What the clients see of a world that shows a tree. *)
Definition seen (w : world) (t : tree) : view :=
  {| refs := counts t; inos := inodes w; ext := extra w; last_ino := last_inode_number w; bias_ino := inode_bias w |}.

Lemma seen_ok (w : world) (v : view) t : holds w v -> shows v t -> holds w (seen w t) /\ shows (seen w t) t.
Proof.
  intros Hw Hv. assert (seen w t = v) as ->; [|done]. destruct Hw as [_ Hi He Hl Hb], v. cbn in *. unfold seen.
  rewrite Hi, He, Hl, Hb. f_equal. symmetry. exact (sh_refs _ _ Hv).
Qed.

(** A file system made by operations, and the tree it shows. *)
Definition built (x : R) (os : list dir_op) : option (world * tree) :=
  match run_ops os (new_file_system x), spec_ops os (empty_tree x) with
  | Done (_, w), Some (_, t) => Some (w, t)
  | _, _ => None
  end.

Lemma built_ok x os w t : built x os = Some (w, t) -> holds w (seen w t) /\ shows (seen w t) t.
Proof.
  unfold built. intros Hb. destruct (run_ops os (new_file_system x)) as [[rs w1]|] eqn:Hrun; [|done].
  destruct (spec_ops os (empty_tree x)) as [[rs' t1]|] eqn:Hspec; [|done]. injection Hb as -> ->.
  destruct (does_spec_ops os _ _ _ Hspec _ (empty_shows x)) as (v & Hr & Hv). destruct (Hr _ (empty_holds x)) as (w' & Hrun' & Hw).
  rewrite Hrun' in Hrun. injection Hrun as -> ->. by apply (seen_ok w v).
Qed.

Lemma built_some x os : built x os <> None -> exists w t, built x os = Some (w, t).
Proof. destruct (built x os) as [[w t]|]; [eauto|done]. Qed.
End Directories.

(** * Witnesses *)

#[export] Instance no_storage : Storage unit :=
  {| os_create := fun _ => mret 0; os_open := fun _ _ => mret 0; os_ftruncate := fun _ _ => mret 0;
     os_mmap := fun _ length => mret (inr (replicate (Z.to_nat length) Byte.x00)); os_munmap := fun _ _ => mret 0;
     os_msync := fun _ _ => mret 0; os_pread := fun _ _ _ => mret None;
     os_close := fun _ => mret (); os_unlink := fun _ => mret 0; os_malloc := fun _ => mret true |}.

(** A root with a directory and a file in it; the file gets a second name,
    and both names and the directory are removed again. *)
Definition example_dir_ops : list dir_op :=
  [MakeRoot 1 4096 16 32; MakeDir 4096 "usr" 2 8192 48 64 80; MakeInode FileObjectAttributes 3 12288;
   Insert 4096 12288 "a" 96; Insert 8192 12288 "b" 112; Insert 4096 8192 "a" 128; Lookup 4096 "a"; Lookup 8192 "c"; Count 4096;
   Rmdir 8192; Delete 4096 "a"; Delete 4096 "a"; Delete 8192 "b"; Delete 4096 "usr"; Rmdir 8192; Count 4096].

Lemma directories_refine_trees_witness :
  exists w' (t' : tree unit), run_ops (T := Trie) example_dir_ops (new_file_system tt) =
    Done ([4096; 8192; 12288; 0; 0; EEXIST; 12288; NULL; 4; EINVAL; 0; ENOENT; 0; 0; 0; 2], w') /\
    is_Some (inodes w' !! 4096) /\ nodes t' !! 12288 <> None.
Proof.
  assert (exists t' : tree unit, spec_ops example_dir_ops (empty_tree tt) =
    Some ([4096; 8192; 12288; 0; 0; EEXIST; 12288; NULL; 4; EINVAL; 0; ENOENT; 0; 0; 0; 2], t') /\
    is_Some (nodes t' !! 4096) /\ is_Some (nodes t' !! 12288)) as (t' & Hspec & [n Hn] & Hf).
  { eexists. split; [vm_compute; reflexivity|]. split; by eexists. }
  destruct (directories_refine_trees (T := Trie) example_dir_ops (new_file_system tt) (empty_view tt) (empty_tree tt) _ t'
    (empty_holds tt) (empty_shows tt) Hspec) as (w' & v' & Hr & Hw & Hv).
  exists w', t'. split; [exact Hr|]. destruct (sh_node _ _ Hv _ _ Hn) as (i & Hi & _). rewrite (ho_inos _ _ Hw). split; [by eexists|].
  destruct Hf as [? ->]. done.
Defined.

(** * An example for the requests

    A root (number 5) with a directory "usr" (12) and a file "a" (19), and a
    file "b" (26) in the directory. *)

Definition example_ops : list dir_op :=
  [MakeRoot 1 4096 16 32; MakeDir 4096 "usr" 2 8192 48 64 80; MakeInode FileObjectAttributes 3 12288; Insert 4096 12288 "a" 96;
   MakeInode FileObjectAttributes 4 16384; Insert 8192 16384 "b" 112].

Definition example_world : world Trie (instance Trie) (dir_state unit) kind :=
  match run_ops example_ops (new_file_system tt) with Done (_, w) => w | Fail _ => new_file_system tt end.
Definition example_tree : tree unit :=
  match spec_ops example_ops (empty_tree tt) with Some (_, t) => t | None => empty_tree tt end.
Definition example_view : view Trie (instance Trie) (dir_state unit) kind := seen example_world example_tree.

Lemma example_built : built tt example_ops = Some (example_world, example_tree).
Proof. vm_compute. reflexivity. Qed.

Lemma example_holds : holds example_world example_view.
Proof. exact (proj1 (built_ok _ _ _ _ example_built)). Qed.

Lemma example_shows : shows example_view example_tree.
Proof. exact (proj2 (built_ok _ _ _ _ example_built)). Qed.

(** Two directories of the root, each with a directory "s" in it. *)
Definition twin_ops : list dir_op :=
  [MakeRoot 1 4096 16 32; MakeDir 4096 "p" 2 8192 48 64 80; MakeDir 4096 "q" 3 12288 96 112 128;
   MakeDir 8192 "s" 4 16384 144 160 176; MakeDir 12288 "s" 5 20480 192 208 224].

Lemma exchange_breaks_delete_witness :
  exists w w', run_ops (T := Trie) (R := unit) twin_ops (new_file_system tt) = Done ([4096; 8192; 12288; 16384; 20480], w) /\
    BitbucketExchangeObjectsInDirectory 8192 12288 "s" "s" w = Done (0, w') /\ BitbucketDeleteDirectoryEntry 8192 "s" w' = Fail AssertFailed.
Proof.
  assert (exists w t n m x, run_ops (T := Trie) (R := unit) twin_ops (new_file_system tt) = Done ([4096; 8192; 12288; 16384; 20480], w) /\
    built tt twin_ops = Some (w, t) /\
    nodes t !! 8192 = Some n /\ nodes t !! 12288 = Some m /\ nodes t !! 20480 = Some x /\
    counts t !! 8192 = Some [1; 1; 3; 0; 0; 0; 0; 0; 0; 0; 0; 0] /\ counts t !! 12288 = Some [1; 1; 3; 0; 0; 0; 0; 0; 0; 0; 0; 0] /\
    counts t !! 20480 = Some [1; 0; 2; 0; 0; 0; 0; 0; 0; 0; 0; 0] /\
    entries t !! 176 = Some (16384, 8192) /\ entries t !! 224 = Some (20480, 12288) /\ entries t !! 208 = Some (12288, 20480) /\
    n_names n !! "s"%string = Some 176 /\ n_names m !! "s"%string = Some 224 /\ n_names x !! ".."%string = Some 208 /\
    n_type n = BITBUCKET_DIR_TYPE /\ n_type m = BITBUCKET_DIR_TYPE /\ n_type x = BITBUCKET_DIR_TYPE /\ n_parent x = 12288)
    as (w & t & n & m & x & Hrun & Hb & Hn & Hm & Hx & Cn & Cm & Cx & E1 & E2 & E3 & N1 & N2 & N3 & T1 & T2 & T3 & Hpar)
    by (do 5 eexists; evaluates).
  destruct (built_ok _ _ _ _ Hb) as [Hw Hv]. clear Hb.
  assert (looks t 8192 BITBUCKET_DIR_TYPE (n_parent n) (n_names n) 5) as L1
    by (eexists n, _; exact (conj Hn (conj T1 (conj eq_refl (conj eq_refl (conj Cn (conj eq_refl eq_refl))))))).
  assert (looks t 12288 BITBUCKET_DIR_TYPE (n_parent m) (n_names m) 5) as L2
    by (eexists m, _; exact (conj Hm (conj T2 (conj eq_refl (conj eq_refl (conj Cm (conj eq_refl eq_refl))))))).
  assert (looks t 20480 BITBUCKET_DIR_TYPE 12288 (n_names x) 3) as L3
    by (eexists x, _; exact (conj Hx (conj T3 (conj Hpar (conj eq_refl (conj Cx (conj eq_refl eq_refl))))))).
  destruct (exchange_breaks_delete 8192 12288 "s" "s" 176 224 208 16384 20480 (n_parent n) (n_parent m) (n_names n) (n_names m) (n_names x)
    5 5 3 w (seen w t) t Hw Hv L1 L2 L3 ltac:(lia) N1 N2 E1 E2 ltac:(lia) ltac:(lia) ltac:(lia) ltac:(lia) N3 E3 eq_refl eq_refl)
    as (w' & Hex & Hdel).
  exists w, w'. exact (conj Hrun (conj Hex Hdel)).
Defined.
