(* ===== verification/Enumeration.v ===== *)
(** Enumerating a directory: the enumeration contexts of
    src/finesse/bitbucket/dir.c.

    A context remembers the entry to return next and the offset of that
    entry, which is the epoch its directory had when it was inserted.  Each
    call tries the exclusive lock, to make sure that somebody holds the
    directory; the attempt advances the epoch of the directory, so nearly
    every call repositions the context by its offset.  For an offset that is
    the context's own this leaves the entry as it is, which is what
    [enumeration_visits] rests on, and what makes the entry dangle after it was
    deleted.

    A context is a value here; its address is not used by the code. *)

From stdpp Require Import gmap list strings.
From S2P Require Import Prelude NameIndex Trie Object Xattr Inode InodeRules BitbucketData Tree Directory DirectoryRules DirectoryOps DirectoryExchange.

Open Scope word_scope.

Record dir_enum_context := {
  ec_Magic : Z;
  ec_Directory : ptr;
  NextEntry : ptr;
  Offset : Z;
  ec_Epoch : Z;
  LastError : Z }.

Definition with_position (e : ptr) (offset err : Z) (ctx : dir_enum_context) : dir_enum_context :=
  {| ec_Magic := ec_Magic ctx; ec_Directory := ec_Directory ctx; NextEntry := e; Offset := offset; ec_Epoch := ec_Epoch ctx;
     LastError := err |}.
Definition with_ec_epoch (k : Z) (ctx : dir_enum_context) : dir_enum_context :=
  {| ec_Magic := ec_Magic ctx; ec_Directory := ec_Directory ctx; NextEntry := NextEntry ctx; Offset := Offset ctx; ec_Epoch := k;
     LastError := LastError ctx |}.
Definition with_ec_directory (p : ptr) (ctx : dir_enum_context) : dir_enum_context :=
  {| ec_Magic := ec_Magic ctx; ec_Directory := p; NextEntry := NextEntry ctx; Offset := Offset ctx; ec_Epoch := ec_Epoch ctx;
     LastError := LastError ctx |}.

(** [~0], as an offset. *)
Definition NO_OFFSET : Z := 2 ^ 64 - 1.

(** The entry after [e], or NULL after the last one. *)
Fixpoint next_in (e : ptr) (l : list ptr) : option ptr :=
  match l with
  | [] => None
  | x :: l => if x =? e then Some (default NULL (head l)) else next_in e l
  end.

Section Code.
Context {T : Type -> Type} `{NameIndex T} {R : Type} `{!Storage R}.
#[local] Notation world := (world T (instance T) (dir_state R) kind).
#[local] Notation MW := (M world).

Definition EnsureInodeLockedAgainstChanges (p : ptr) : MW unit :=
  status ← BitbucketTryLockInode p true; c_assert (negb (status =? 0)).

Definition EnsureInodeLockedForChanges (p : ptr) : MW unit :=
  status ← BitbucketTryLockInode p false; c_assert (negb (status =? 0)).

Definition CHECK_CONTEXT (ctx : dir_enum_context) : MW unit := c_assert (ec_Magic ctx =? BITBUCKET_DIR_ENUM_CONTEXT_MAGIC).
Definition CHECK_DIRENT (e : ptr) : MW unit := x ← load_dirent e; c_assert (de_Magic x =? BITBUCKET_DIR_ENTRY_MAGIC).

(** The first entry with the offset. *)
Fixpoint find_offset (offset : Z) (l : list ptr) : MW ptr :=
  match l with
  | [] => mret NULL
  | e :: l => x ← load_dirent e; if de_Offset x =? offset then mret e else find_offset offset l
  end.

(** The answer is the error the context then has. *)
Definition BitbucketSeekDirectory (ctx : dir_enum_context) (offset : Z) : MW (Z * dir_enum_context) :=
  CHECK_CONTEXT ctx;;
  CHECK_TYPE BITBUCKET_DIR_TYPE (ec_Directory ctx);;
  CHECK_INSTANCE_MAGIC BITBUCKET_DIR_MAGIC (ec_Directory ctx);;
  EnsureInodeLockedAgainstChanges (ec_Directory ctx);;
  i ← load_inode (ec_Directory ctx);
  let ctx := with_ec_epoch (Epoch i) ctx in
  d ← load_dir (ec_Directory ctx);
  ctx ← (if offset =? 0 then
      match DirEntries d with
      | [] => mret (with_position NULL 0 ENOENT ctx)
      | e :: _ => CHECK_DIRENT e;; x ← load_dirent e; mret (with_position e (de_Offset x) 0 ctx)
      end
    else if Offset ctx =? offset then mret ctx
    else
      e ← find_offset offset (DirEntries d);
      if e =? NULL then mret (with_position NULL 0 ENOENT ctx)
      else x ← load_dirent e; mret (with_position e (de_Offset x) 0 ctx));
  mret (LastError ctx, ctx).

(** The entry is returned and the context moves on. *)
Definition enumerate_step (ctx : dir_enum_context) : MW (ptr * dir_enum_context) :=
  let returnEntry := NextEntry ctx in
  _ ← load_dirent returnEntry;
  d ← load_dir (ec_Directory ctx);
  next ← deref (next_in returnEntry (DirEntries d));
  if next =? NULL then mret (returnEntry, with_position NULL NO_OFFSET (LastError ctx) ctx)
  else
    CHECK_DIRENT next;;
    x ← load_dirent next;
    mret (returnEntry, with_position next (de_Offset x) (LastError ctx) ctx).

(** An entry, or NULL. *)
Definition BitbucketEnumerateDirectory (ctx : dir_enum_context) : MW (ptr * dir_enum_context) :=
  CHECK_CONTEXT ctx;;
  c_assert (negb (ec_Directory ctx =? NULL));;
  EnsureInodeLockedAgainstChanges (ec_Directory ctx);;
  if negb (LastError ctx =? 0) then mret (NULL, ctx)
  else if NextEntry ctx =? NULL then mret (NULL, with_position NULL 0 ENOENT ctx)
  else
    i ← load_inode (ec_Directory ctx);
    if Epoch i =? ec_Epoch ctx then enumerate_step ctx
    else
      '(status, ctx) ← BitbucketSeekDirectory ctx (Offset ctx);
      if status =? 0 then enumerate_step ctx else mret (NULL, ctx).

Definition BitbucketInitalizeDirectoryEnumerationContext (p : ptr) : MW dir_enum_context :=
  c_assert (negb (p =? NULL));;
  CHECK_INODE_MAGIC p;;
  CHECK_TYPE BITBUCKET_DIR_TYPE p;;
  VerifyDirectoryEntries p;;
  BitbucketReferenceInode p INODE_ENUM_REFERENCE;;
  i ← load_inode p;
  let ctx := {| ec_Magic := BITBUCKET_DIR_ENUM_CONTEXT_MAGIC; ec_Directory := p; NextEntry := NULL; Offset := 0;
                ec_Epoch := Epoch i; LastError := 0 |} in
  BitbucketLockInode p false;;
  '(status, ctx) ← BitbucketSeekDirectory ctx 0;
  BitbucketUnlockInode p;;
  c_assert (status =? 0);;
  mret ctx.

Definition BitbucketCleanupDirectoryEnumerationContext (ctx : dir_enum_context) : MW dir_enum_context :=
  CHECK_CONTEXT ctx;;
  if ec_Directory ctx =? NULL then mret ctx
  else BitbucketDereferenceInode (ec_Directory ctx) INODE_ENUM_REFERENCE 1;; mret (with_ec_directory NULL ctx).

(** What a client does with a context: it asks for entries until there is
    none. *)
Fixpoint enumerate_all (fuel : nat) (ctx : dir_enum_context) : MW (list ptr * dir_enum_context) :=
  match fuel with
  | O => mthrow OutOfFuel
  | S fuel =>
      '(e, ctx) ← BitbucketEnumerateDirectory ctx;
      if e =? NULL then mret ([], ctx) else '(es, ctx) ← enumerate_all fuel ctx; mret (e :: es, ctx)
  end.
End Code.

Section Rules.
Context {T : Type -> Type} `{NameIndex T} {R : Type} `{!Storage R}.
#[local] Notation world := (world T (instance T) (dir_state R) kind).
#[local] Notation MW := (M world).
#[local] Notation view := (view T (instance T) (dir_state R) kind).
#[local] Notation inode := (inode T (instance T) kind).
#[local] Notation tree := (tree R).
Implicit Types (v : view) (t : tree) (i : inode) (n : node) (p q e : ptr) (ctx : dir_enum_context).

(** ** Directories that somebody has locked *)

Definition entry_ok v e : Prop :=
  e <> NULL /\ exists x, dirents (ext v) !! e = Some x /\ de_Magic x = BITBUCKET_DIR_ENTRY_MAGIC /\ de_Offset x <> 0.

Record listable v p i (l : list ptr) : Prop := {
  la_inode : inos v !! p = Some i;
  la_null : p <> NULL;
  la_locked : InodeLock (ea i) <> Unlocked;
  la_magic : Magic (ea i) = BITBUCKET_INODE_MAGIC;
  la_type : InodeType i = BITBUCKET_DIR_TYPE;
  la_dir : exists d, Instance i = Directory d /\ d_Magic d = BITBUCKET_DIR_MAGIC /\ DirEntries d = l;
  la_once : NoDup l;
  la_entries : Forall (entry_ok v) l }.

(** The view after the epoch of [p] advanced. *)
Definition advanced p i (k : Z) v : view := set_inos <[p := with_epoch k i]> v.

Lemma advanced_twice p i k k' v : advanced p (with_epoch k i) k' (advanced p i k v) = advanced p i k' v.
Proof. unfold advanced. by rewrite set_inos_twice. Qed.

Lemma listable_advanced v p i l k : listable v p i l -> listable (advanced p i k v) p (with_epoch k i) l.
Proof. intros []. constructor; try done. apply lookup_insert_eq. Qed.

Definition offset_of v e : Z := match dirents (ext v) !! e with Some x => de_Offset x | None => NO_OFFSET end.

(** What the context keeps of the entry it is at, or of the end. *)
Definition position_of v e : Z := if e =? NULL then NO_OFFSET else offset_of v e.

Lemma position_entry v e x : e <> NULL -> dirents (ext v) !! e = Some x -> position_of v e = de_Offset x.
Proof. intros He Hx. unfold position_of, offset_of. rewrite Hx. by destruct (Z.eqb_spec e NULL). Qed.

(** The context is about to return [e], or nothing when that is NULL. *)
Record at_entry v p ctx e : Prop := {
  ae_magic : ec_Magic ctx = BITBUCKET_DIR_ENUM_CONTEXT_MAGIC;
  ae_dir : ec_Directory ctx = p;
  ae_next : NextEntry ctx = e;
  ae_error : LastError ctx = 0;
  ae_offset : Offset ctx = position_of v e }.

Lemma runs_ensure v p i l : listable v p i l -> runs (EnsureInodeLockedAgainstChanges p) v tt (advanced p i (u64 (Epoch i + 1)) v).
Proof. intros []. step_with ltac:(by apply (runs_trylock_held p i)). by apply runs_assert. Qed.

Lemma runs_check_dirent v e : entry_ok v e -> runs (CHECK_DIRENT e) v tt v.
Proof. intros (_ & x & Hx & Hm & _). step_with ltac:(by apply runs_load_dirent). apply runs_assert. by rewrite Hm. Qed.

Lemma next_in_app l1 e l2 : e ∉ l1 -> next_in e (l1 ++ e :: l2) = Some (default NULL (head l2)).
Proof.
  induction l1 as [|x l1 IH]; cbn; intros Hin; [by rewrite Z.eqb_refl|].
  rewrite elem_of_cons in Hin. destruct (Z.eqb_spec x e) as [->|]; [tauto|]. apply IH. tauto.
Qed.

Lemma entry_position v l1 e l2 : Forall (entry_ok v) (l1 ++ e :: l2) -> entry_ok v e /\ (forall e', head l2 = Some e' -> entry_ok v e').
Proof.
  rewrite Forall_app, Forall_cons. intros (_ & He & Hl). split; [done|]. intros e' He'. destruct l2; [done|]. cbn in He'. simplify_eq.
  by rewrite Forall_cons in Hl; destruct Hl.
Qed.

Lemma runs_enumerate_step v p i l1 e l2 ctx :
  listable v p i (l1 ++ e :: l2) -> at_entry v p ctx e ->
  exists ctx', runs (enumerate_step ctx) v (e, ctx') v /\ at_entry v p ctx' (default NULL (head l2)).
Proof.
  intros [] []. destruct (entry_position v l1 e l2 la_entries0) as [(He & x & Hx & _) Hnext].
  destruct la_dir0 as (d & Hd & _ & Hl). apply NoDup_app in la_once0 as (_ & Hnot & _).
  assert (next_in e (DirEntries d) = Some (default NULL (head l2))) as Hin.
  { rewrite Hl. apply next_in_app. intros Hin. by eapply Hnot; [done|left]. }
  unfold enumerate_step. rewrite ae_next0, ae_dir0.
  destruct (head l2) as [e'|] eqn:Eh; cbn [default from_option id] in Hin |- *.
  - destruct (Hnext e' eq_refl) as (He' & y & Hy & Hm & Ho). eexists. split.
    + step_with ltac:(by apply runs_load_dirent). step_with ltac:(by eapply runs_load_dir). rewrite Hin. step_with ltac:(apply runs_ret).
      destruct (Z.eqb_spec e' NULL); [done|]. step_with ltac:(by apply runs_check_dirent; repeat econstructor).
      step_with ltac:(by apply runs_load_dirent). apply runs_ret.
    + constructor; try done. by rewrite (position_entry _ _ y).
  - eexists. split.
    + step_with ltac:(by apply runs_load_dirent). step_with ltac:(by eapply runs_load_dir). rewrite Hin. step_with ltac:(apply runs_ret).
      apply runs_ret.
    + constructor; done.
Qed.

Lemma runs_seek_checks {A} v p i l ctx (k : MW A) r v' :
  listable v p i l -> ec_Magic ctx = BITBUCKET_DIR_ENUM_CONTEXT_MAGIC -> ec_Directory ctx = p ->
  runs k (advanced p i (u64 (Epoch i + 1)) v) r v' ->
  runs (CHECK_CONTEXT ctx;; CHECK_TYPE BITBUCKET_DIR_TYPE (ec_Directory ctx);; CHECK_INSTANCE_MAGIC BITBUCKET_DIR_MAGIC (ec_Directory ctx);;
        EnsureInodeLockedAgainstChanges (ec_Directory ctx);; k) v r v'.
Proof.
  intros Hl Hm Hd Hk. pose proof Hl as []. rewrite Hd. step_with ltac:(apply runs_assert; by rewrite Hm).
  step_with ltac:(by eapply runs_check_type). destruct la_dir0 as (d & E & Hdm & _).
  step_with ltac:(eapply runs_check_instance; [done|by rewrite E]). step_with ltac:(by eapply runs_ensure). done.
Qed.

(** A seek to where the context is, and not to the start. *)
Lemma runs_seek_same v p i l ctx e :
  listable v p i l -> at_entry v p ctx e -> Offset ctx <> 0 ->
  runs (BitbucketSeekDirectory ctx (Offset ctx)) v (0, with_ec_epoch (u64 (Epoch i + 1)) ctx) (advanced p i (u64 (Epoch i + 1)) v).
Proof.
  intros Hl Hc Ho. pose proof Hc as []. unfold BitbucketSeekDirectory. eapply (runs_seek_checks v p i l); try done. rewrite ae_dir0.
  pose proof (listable_advanced v p i l (u64 (Epoch i + 1)) Hl) as [].
  step_with ltac:(by apply runs_load). cbn [with_ec_epoch ec_Directory Offset]. rewrite ae_dir0. destruct la_dir0 as (d & E & _ & _).
  step_with ltac:(by eapply runs_load_dir). destruct (Z.eqb_spec (Offset ctx) 0); [done|]. rewrite Z.eqb_refl.
  step_with ltac:(apply runs_ret). eapply runs_conv; [apply runs_ret| |done]. cbn. by rewrite ae_error0.
Qed.

(** A seek to the start. *)
Lemma runs_seek_start v p i e l ctx :
  listable v p i (e :: l) -> ec_Magic ctx = BITBUCKET_DIR_ENUM_CONTEXT_MAGIC -> ec_Directory ctx = p ->
  exists ctx', runs (BitbucketSeekDirectory ctx 0) v (0, ctx') (advanced p i (u64 (Epoch i + 1)) v) /\
    at_entry (advanced p i (u64 (Epoch i + 1)) v) p ctx' e.
Proof.
  intros Hl Hm Hd. pose proof (listable_advanced v p i (e :: l) (u64 (Epoch i + 1)) Hl) as [].
  pose proof la_entries0 as [(He & x & Hx & Hxm & _) _]%Forall_cons. destruct la_dir0 as (d & E & _ & Hes). eexists. split.
  - eapply (runs_seek_checks v p i (e :: l)); try done. rewrite Hd.
    step_with ltac:(by apply runs_load). cbn [with_ec_epoch ec_Directory Offset]. rewrite Hd.
    step_with ltac:(by eapply runs_load_dir). rewrite Hes. cbn [Z.eqb].
    step_with ltac:(step_with ltac:(by apply runs_check_dirent; apply Forall_cons in la_entries0 as [? _]);
      step_with ltac:(by apply runs_load_dirent); apply runs_ret). apply runs_ret.
  - constructor; try done. by rewrite (position_entry _ _ x).
Qed.

(** The first entry with an offset is the one that has it, when no two
    entries have the same. *)
Lemma runs_find_offset v e l offset :
  Forall (entry_ok v) l -> e ∈ l -> offset_of v e = offset -> (forall e', e' ∈ l -> offset_of v e' = offset -> e' = e) ->
  runs (find_offset offset l) v e v.
Proof.
  intros Hl Hin He Huniq. induction l as [|a l IH]; [by apply elem_of_nil in Hin|]. apply Forall_cons in Hl as [(Ha & x & Hx & _) Hl].
  cbn. step_with ltac:(by apply runs_load_dirent). assert (offset_of v a = de_Offset x) as Hax by (unfold offset_of; by rewrite Hx).
  destruct (Z.eqb_spec (de_Offset x) offset) as [E|E].
  - rewrite (Huniq a) by (try left; congruence). apply runs_ret.
  - apply IH; [done| |]; [|intros e' Hin'; apply Huniq; by right].
    apply elem_of_cons in Hin as [->|]; [congruence|done].
Qed.

(** A seek to the offset of an entry positions the context there. *)
Lemma runs_seek_entry v p i l ctx e e0 :
  listable v p i l -> at_entry v p ctx e0 -> e ∈ l -> (forall e', e' ∈ l -> offset_of v e' = offset_of v e -> e' = e) ->
  (e0 <> e -> Offset ctx <> offset_of v e) ->
  exists ctx', runs (BitbucketSeekDirectory ctx (offset_of v e)) v (0, ctx') (advanced p i (u64 (Epoch i + 1)) v) /\
    at_entry (advanced p i (u64 (Epoch i + 1)) v) p ctx' e.
Proof.
  intros Hl Hc Hin Huniq Hne. pose proof Hc as [].
  pose proof (listable_advanced v p i l (u64 (Epoch i + 1)) Hl) as [].
  pose proof (proj1 (Forall_forall _ _) la_entries0 e Hin) as (He & x & Hx & _ & Hox).
  assert (offset_of v e = de_Offset x) as Ex by (unfold offset_of; change (ext v) with (ext (advanced p i (u64 (Epoch i + 1)) v)); by rewrite Hx).
  destruct la_dir0 as (d & E & _ & Hes). destruct (decide (e0 = e)) as [->|Hee].
  - assert (Offset ctx = offset_of v e) as Eo by (rewrite ae_offset0, Ex; by apply position_entry). exists (with_ec_epoch (u64 (Epoch i + 1)) ctx). rewrite <- Eo. split.
    + eapply (runs_seek_same v p i l); try done. congruence.
    + by constructor.
  - eexists. split.
    + eapply (runs_seek_checks v p i l); try done. rewrite ae_dir0.
      step_with ltac:(by apply runs_load). cbn [with_ec_epoch ec_Directory Offset]. rewrite ae_dir0.
      step_with ltac:(by eapply runs_load_dir). rewrite Hes. destruct (Z.eqb_spec (offset_of v e) 0); [congruence|].
      destruct (Z.eqb_spec (Offset ctx) (offset_of v e)) as [E'|_]; [by apply Hne in E'|].
      step_with ltac:(step_with ltac:(by apply (runs_find_offset _ e)); destruct (Z.eqb_spec e NULL); [done|];
        step_with ltac:(by apply runs_load_dirent); apply runs_ret). apply runs_ret.
    + constructor; try done. by rewrite (position_entry _ _ x).
Qed.

Lemma at_entry_epoch v p ctx e k : at_entry v p ctx e -> at_entry v p (with_ec_epoch k ctx) e.
Proof. intros []. by constructor. Qed.

Lemma position_nonzero v e : entry_ok v e -> position_of v e <> 0.
Proof. intros (He & x & Hx & _ & Ho). by rewrite (position_entry _ _ x). Qed.

(** The epochs of inodes do not matter for a context. *)
Lemma at_entry_back v p i k q ctx e : at_entry (advanced p i k v) q ctx e -> at_entry v q ctx e.
Proof. intros []. by constructor. Qed.

Lemma at_entry_forth v p i k q ctx e : at_entry v q ctx e -> at_entry (advanced p i k v) q ctx e.
Proof. intros []. by constructor. Qed.

(** One call: the entry the context is at. *)
Lemma runs_enumerate v p i l1 e l2 ctx :
  listable v p i (l1 ++ e :: l2) -> at_entry v p ctx e ->
  exists k ctx', runs (BitbucketEnumerateDirectory ctx) v (e, ctx') (advanced p i k v) /\ at_entry v p ctx' (default NULL (head l2)).
Proof.
  intros Hl Hc. set (k1 := u64 (Epoch i + 1)). pose proof (listable_advanced v p i _ k1 Hl) as Hl1. pose proof Hc as [].
  destruct (entry_position v l1 e l2 (la_entries _ _ _ _ Hl)) as [He _]. assert (at_entry (advanced p i k1 v) p ctx e) as Hc1 by (by apply at_entry_forth).
  assert (Offset ctx <> 0) as Ho by (rewrite ae_offset0; by apply position_nonzero).
  assert (forall (m : MW (ptr * dir_enum_context)) r v', runs m (advanced p i k1 v) r v' ->
    runs (CHECK_CONTEXT ctx;; c_assert (negb (ec_Directory ctx =? NULL));; EnsureInodeLockedAgainstChanges (ec_Directory ctx);; m) v r v') as Hstart.
  { intros m r v' Hm. step_with ltac:(apply runs_assert; by rewrite ae_magic0). rewrite ae_dir0.
    step_with ltac:(apply runs_assert; by apply negb_true_iff, Z.eqb_neq, (la_null _ _ _ _ Hl)). step_with ltac:(by eapply runs_ensure). exact Hm. }
  destruct (decide (k1 = ec_Epoch ctx)) as [Ek|Ek].
  - destruct (runs_enumerate_step _ p _ l1 e l2 ctx Hl1 Hc1) as (ctx' & Hr & Hc'). exists k1, ctx'. split; [|by eapply at_entry_back].
    apply Hstart. rewrite ae_error0, ae_next0, ae_dir0. cbn [Z.eqb negb]. destruct (Z.eqb_spec e NULL); [by destruct He|].
    step_with ltac:(apply runs_load, Hl1). cbn [Epoch with_epoch]. rewrite (proj2 (Z.eqb_eq _ _) Ek). exact Hr.
  - set (k2 := u64 (k1 + 1)). pose proof (listable_advanced _ p _ _ k2 Hl1) as Hl2.
    assert (at_entry (advanced p (with_epoch k1 i) k2 (advanced p i k1 v)) p (with_ec_epoch k2 ctx) e) as Hc2 by (by apply at_entry_epoch, at_entry_forth).
    destruct (runs_enumerate_step _ p _ l1 e l2 _ Hl2 Hc2) as (ctx' & Hr & Hc'). exists k2, ctx'. split; [|by do 2 eapply at_entry_back].
    apply Hstart. rewrite ae_error0, ae_next0, ae_dir0. cbn [Z.eqb negb]. destruct (Z.eqb_spec e NULL); [by destruct He|].
    step_with ltac:(apply runs_load, Hl1). cbn [Epoch with_epoch]. rewrite (proj2 (Z.eqb_neq _ _) Ek).
    step_with ltac:(eapply (runs_seek_same _ p _ _ ctx e Hl1 Hc1 Ho)). eapply runs_conv; [exact Hr|done|apply advanced_twice].
Qed.

(** One call at the end. *)
Lemma runs_enumerate_end v p i l ctx :
  listable v p i l -> at_entry v p ctx NULL ->
  runs (BitbucketEnumerateDirectory ctx) v (NULL, with_position NULL 0 ENOENT ctx) (advanced p i (u64 (Epoch i + 1)) v).
Proof.
  intros Hl []. step_with ltac:(apply runs_assert; by rewrite ae_magic0). rewrite ae_dir0.
  step_with ltac:(apply runs_assert; by apply negb_true_iff, Z.eqb_neq, (la_null _ _ _ _ Hl)). step_with ltac:(by eapply runs_ensure).
  rewrite ae_error0, ae_next0. apply runs_ret.
Qed.

(** C16: An enumeration of a directory that stays locked returns each entry
    from the context's position on, once and in the order of the directory's
    list, and then reports ENOENT; as many calls as there are entries, and
    one more, are enough. *)
Theorem enumeration_visits p l2 : forall l1 v i ctx fuel,
  listable v p i (l1 ++ l2) -> at_entry v p ctx (default NULL (head l2)) -> (length l2 < fuel)%nat ->
  exists k ctx', runs (enumerate_all fuel ctx) v (l2, ctx') (advanced p i k v) /\ LastError ctx' = ENOENT.
Proof.
  induction l2 as [|e l2 IH]; intros l1 v i ctx fuel Hl Hc Hf; (destruct fuel as [|fuel]; [cbn in Hf; lia|]); cbn [enumerate_all].
  - eexists _, (with_position NULL 0 ENOENT ctx). split; [|done]. step_with ltac:(eapply (runs_enumerate_end v p i); [exact Hl|exact Hc]). apply runs_ret.
  - destruct (runs_enumerate v p i l1 e l2 ctx Hl Hc) as (k & ctx1 & Hr & Hc1).
    pose proof (listable_advanced v p i _ k Hl) as Hl1. rewrite cons_middle, app_assoc in Hl1.
    destruct (entry_position v l1 e l2 (la_entries _ _ _ _ Hl)) as [[He _] _].
    assert (at_entry (advanced p i k v) p ctx1 (default NULL (head l2))) as Hc2 by (by apply at_entry_forth). cbn in Hf.
    destruct (IH (l1 ++ [e]) (advanced p i k v) (with_epoch k i) ctx1 fuel Hl1 Hc2 ltac:(lia)) as (k' & ctx' & Hr' & Herr).
    exists k', ctx'. split; [|done]. step_with ltac:(exact Hr). lazy beta iota. rewrite (proj2 (Z.eqb_neq _ _) He).
    rewrite advanced_twice in Hr'. step_with ltac:(exact Hr'). apply runs_ret.
Qed.

(** ** The life of a context *)

(** One more shared holder. *)
Definition share (l : rwlock) : rwlock :=
  match l with Unlocked => LockedShared 0 | LockedShared n => LockedShared (S n) | LockedExclusive => LockedExclusive end.

Lemma runs_share p i v :
  p <> NULL -> inos v !! p = Some i -> Magic (ea i) = BITBUCKET_INODE_MAGIC -> InodeLock (ea i) <> LockedExclusive ->
  runs (BitbucketLockInode p false) v tt (set_inos <[p := with_lock (share (InodeLock (ea i))) i]> v).
Proof.
  intros Hp Hi Hm Hl. step_with ltac:(by apply runs_assert, negb_true_iff, Z.eqb_neq).
  step_with ltac:(by apply runs_load). step_with ltac:(apply runs_assert; by rewrite Hm).
  destruct (InodeLock (ea i)) as [|n|]; [by apply (runs_store _ i), same_private_lock..|done].
Qed.

Lemma runs_unshare p i l v :
  inos v !! p = Some i -> Magic (ea i) = BITBUCKET_INODE_MAGIC -> l <> LockedExclusive -> InodeLock (ea i) = share l ->
  runs (BitbucketUnlockInode p) v tt (set_inos <[p := with_lock l i]> v).
Proof.
  intros Hi Hm Hne Hl. destruct l as [|n|]; [by apply runs_unlock; auto| |done]. cbn in Hl.
  unfold BitbucketUnlockInode, pthread_rwlock_tryrdlock, pthread_rwlock_unlock.
  step_with ltac:(by apply runs_load). step_with ltac:(apply runs_assert; by rewrite Hm).
  step_with ltac:(step_with ltac:(by apply runs_load); rewrite Hl; step_with ltac:(by apply (runs_store _ i), same_private_lock); apply runs_ret).
  cbn [Z.eqb]. step_with ltac:(step_with ltac:(apply runs_load; by apply lookup_insert_eq); cbn;
    eapply runs_store; [by apply lookup_insert_eq|apply same_private_lock]).
  step_with ltac:(apply runs_load; by apply lookup_insert_eq). cbn.
  eapply runs_conv; [eapply runs_store; [by apply lookup_insert_eq|apply same_private_lock]|done|].
  by rewrite !set_inos_twice, !with_lock_twice.
Qed.

(** The directory once it has another shared holder. *)
Definition shared p i v : view := set_inos <[p := with_lock (share (InodeLock (ea i))) i]> v.
Definition shared_inode i : inode := with_lock (share (InodeLock (ea i))) i.

Lemma unshare_view p i k v :
  inos v !! p = Some i -> set_inos <[p := with_lock (InodeLock (ea i)) (with_epoch k (shared_inode i))]> v = advanced p i k v.
Proof. intros Hi. unfold advanced. do 2 f_equal. by destruct i as [??????????? []]. Qed.

Lemma runs_verify_shared v p i l :
  inos v !! p = Some i -> InodeLock (ea i) <> LockedExclusive -> listable (shared p i v) p (shared_inode i) l ->
  runs (VerifyDirectoryEntries p) v tt v.
Proof.
  intros Hi Hl []. destruct la_dir0 as (d & Hd & Hm & Hes).
  step_with ltac:(apply (runs_extra VerifyDirectoriesEnabled)). destruct (VerifyDirectoriesEnabled (ext v)); [|apply runs_ret].
  step_with ltac:(by apply (runs_check_inode p i)). step_with ltac:(by apply (runs_check_type p i)).
  step_with ltac:(apply (runs_check_instance p i); [done|]; change (Instance i) with (Instance (shared_inode i)); by rewrite Hd).
  step_with ltac:(by apply (runs_share p i)). step_with ltac:(eapply runs_load_dir; [apply lookup_insert_eq|exact Hd]).
  step_with ltac:(apply runs_verify_entries).
  { intros e He. rewrite Hes in He. destruct (proj1 (Forall_forall _ _) la_entries0 e He) as (_ & x & Hx & Hxm & _). by exists x. }
  eapply runs_conv; [eapply (runs_unshare p _ (InodeLock (ea i))); [apply lookup_insert_eq|done|done|done]|done|].
  rewrite set_inos_twice, with_lock_twice, with_lock_same by done. by apply set_inos_same.
Qed.

Lemma runs_init v p i e l bag :
  inos v !! p = Some i -> InodeLock (ea i) <> LockedExclusive -> listable (shared p i v) p (shared_inode i) (e :: l) ->
  refs v !! p = Some bag -> sum bag + 1 < 2 ^ 32 ->
  exists k ctx, runs (BitbucketInitalizeDirectoryEnumerationContext p) v ctx
      (advanced p i k (set_refs <[p := bag_add INODE_ENUM_REFERENCE 1 bag]> v)) /\ at_entry v p ctx e.
Proof.
  intros Hi Hl Hlist Hb Hs. pose proof Hlist as []. set (v1 := set_refs <[p := bag_add INODE_ENUM_REFERENCE 1 bag]> v).
  assert (listable (shared p i v1) p (shared_inode i) (e :: l)) as Hlist1 by (by constructor).
  set (ctx0 := {| ec_Magic := BITBUCKET_DIR_ENUM_CONTEXT_MAGIC; ec_Directory := p; NextEntry := NULL; Offset := 0;
                  ec_Epoch := Epoch i; LastError := 0 |}).
  destruct (runs_seek_start (shared p i v1) p (shared_inode i) e l ctx0 Hlist1 eq_refl eq_refl) as (ctx & Hr & Hc).
  exists (u64 (Epoch i + 1)), ctx. split.
  - step_with ltac:(by apply runs_assert, negb_true_iff, Z.eqb_neq). step_with ltac:(by apply (runs_check_inode p i)).
    step_with ltac:(by apply (runs_check_type p i)). step_with ltac:(by eapply runs_verify_shared).
    step_with ltac:(by apply (runs_reference p bag)). step_with ltac:(by apply runs_load). fold v1.
    step_with ltac:(by apply (runs_share p i)). step_with ltac:(exact Hr). lazy beta iota.
    step_with ltac:(eapply (runs_unshare p _ (InodeLock (ea i))); [apply lookup_insert_eq|done|done|done]).
    step_with ltac:(by apply runs_assert). eapply runs_conv; [apply runs_ret|done|].
    unfold advanced at 1, shared. rewrite !set_inos_twice. by apply unshare_view.
  - destruct Hc. by constructor.
Qed.

(** A directory without entries cannot be enumerated: the context that is
    initialised for it reports ENOENT, which is asserted not to happen. *)
Lemma runs_seek_empty v p i ctx :
  listable v p i [] -> ec_Magic ctx = BITBUCKET_DIR_ENUM_CONTEXT_MAGIC -> ec_Directory ctx = p ->
  exists ctx', runs (BitbucketSeekDirectory ctx 0) v (ENOENT, ctx') (advanced p i (u64 (Epoch i + 1)) v).
Proof.
  intros Hl Hm Hd. pose proof (listable_advanced v p i [] (u64 (Epoch i + 1)) Hl) as [].
  destruct la_dir0 as (d & E & _ & Hes). exists (with_position NULL 0 ENOENT (with_ec_epoch (u64 (Epoch i + 1)) ctx)).
  eapply (runs_seek_checks v p i []); try done. rewrite Hd.
  step_with ltac:(by apply runs_load). cbn [with_ec_epoch ec_Directory Offset]. rewrite Hd.
  step_with ltac:(by eapply runs_load_dir). rewrite Hes. cbn [Z.eqb]. step_with ltac:(apply runs_ret). apply runs_ret.
Qed.

Lemma fails_init_empty v p i bag :
  inos v !! p = Some i -> InodeLock (ea i) <> LockedExclusive -> listable (shared p i v) p (shared_inode i) [] ->
  refs v !! p = Some bag -> sum bag + 1 < 2 ^ 32 -> fails (BitbucketInitalizeDirectoryEnumerationContext p) v AssertFailed.
Proof.
  intros Hi Hl Hlist Hb Hs. pose proof Hlist as []. set (v1 := set_refs <[p := bag_add INODE_ENUM_REFERENCE 1 bag]> v).
  assert (listable (shared p i v1) p (shared_inode i) []) as Hlist1 by (by constructor).
  set (ctx0 := {| ec_Magic := BITBUCKET_DIR_ENUM_CONTEXT_MAGIC; ec_Directory := p; NextEntry := NULL; Offset := 0;
                  ec_Epoch := Epoch i; LastError := 0 |}).
  destruct (runs_seek_empty (shared p i v1) p (shared_inode i) ctx0 Hlist1 eq_refl eq_refl) as (ctx & Hr).
  eapply fails_later; [by apply runs_assert, negb_true_iff, Z.eqb_neq|]. eapply fails_later; [by apply (runs_check_inode p i)|].
  eapply fails_later; [by apply (runs_check_type p i)|]. eapply fails_later; [by eapply runs_verify_shared|].
  eapply fails_later; [by apply (runs_reference p bag)|]. eapply fails_later; [by apply runs_load|]. fold v1.
  eapply fails_later; [by apply (runs_share p i)|]. eapply fails_later; [exact Hr|]. lazy beta iota.
  eapply fails_later; [eapply (runs_unshare p _ (InodeLock (ea i))); [apply lookup_insert_eq|done|done|done]|].
  apply fails_here. by apply fails_assert.
Qed.

(** The entry that an enumeration would return next is removed from its
    directory and freed.  The next call returns to the offset of the entry,
    finds that the context has that offset already, and follows the pointer
    to the entry that is gone. *)
Theorem removed_entry_dangles v p i ctx l :
  listable v p i l -> ec_Magic ctx = BITBUCKET_DIR_ENUM_CONTEXT_MAGIC -> ec_Directory ctx = p -> LastError ctx = 0 ->
  Offset ctx <> 0 -> NextEntry ctx <> NULL -> dirents (ext v) !! NextEntry ctx = None ->
  fails (BitbucketEnumerateDirectory ctx) v BadPointer.
Proof.
  intros Hl Hm Hd He Ho Hn Hgone. pose proof (listable_advanced v p i l (u64 (Epoch i + 1)) Hl) as Hl1. pose proof Hl1 as [].
  assert (forall x (v : view), dirents (ext v) !! NextEntry ctx = None -> NextEntry x = NextEntry ctx -> fails (enumerate_step x) v BadPointer) as Hstep.
  { intros x v0 Hx Ex. unfold enumerate_step. rewrite Ex. apply fails_here. eapply fails_later; [apply (runs_extra dirents)|]. by rewrite Hx. }
  eapply fails_later; [apply runs_assert; by rewrite Hm|]. rewrite Hd.
  eapply fails_later; [by apply runs_assert, negb_true_iff, Z.eqb_neq|]. eapply fails_later; [by eapply runs_ensure|].
  rewrite He. cbn [Z.eqb negb]. rewrite (proj2 (Z.eqb_neq _ _) Hn). eapply fails_later; [by apply runs_load|].
  case_match; [by apply Hstep|].
  assert (runs (BitbucketSeekDirectory ctx (Offset ctx)) (advanced p i (u64 (Epoch i + 1)) v)
    (0, with_ec_epoch (u64 (Epoch (with_epoch (u64 (Epoch i + 1)) i) + 1)) ctx)
    (advanced p (with_epoch (u64 (Epoch i + 1)) i) (u64 (Epoch (with_epoch (u64 (Epoch i + 1)) i) + 1)) (advanced p i (u64 (Epoch i + 1)) v))) as Hr.
  { unfold BitbucketSeekDirectory. eapply (runs_seek_checks _ p _ l); try done. rewrite Hd.
    step_with ltac:(apply runs_load, lookup_insert_eq). cbn [with_ec_epoch ec_Directory Offset]. rewrite Hd. destruct la_dir0 as (d & E & _ & _).
    step_with ltac:(eapply runs_load_dir; [apply lookup_insert_eq|exact E]). rewrite (proj2 (Z.eqb_neq _ _) Ho), Z.eqb_refl.
    step_with ltac:(apply runs_ret). eapply runs_conv; [apply runs_ret| |done]. cbn. by rewrite He. }
  eapply fails_later; [exact Hr|]. lazy beta iota. cbn [Z.eqb]. by apply Hstep.
Qed.
End Rules.
