(* ===== verification/Updates.v ===== *)
(** Changing one inode: what the operations on contents and attributes have
    in common.

    Such an operation leaves the place of the inode in the tree alone
    ([same_place]) and changes what it holds.  It often runs under a lock of
    the inode: [sees l p v t] says that the file system shows the tree [t]
    but for the lock [l] of the inode [p]. *)

From stdpp Require Import gmap list strings.
From S2P Require Import Prelude NameIndex Trie Object Xattr Inode InodeRules BitbucketData Tree Directory DirectoryRules DirectoryOps DirectoryExchange.

Open Scope word_scope.

Section Updates.
Context {T : Type -> Type} `{NameIndex T} {R : Type} `{!Storage R}.
#[local] Notation world := (world T (instance T) (dir_state R) kind).
#[local] Notation MW := (M world).
#[local] Notation view := (view T (instance T) (dir_state R) kind).
#[local] Notation inode := (inode T (instance T) kind).
#[local] Notation tree := (tree R).
Implicit Types (v : view) (t : tree) (i : inode) (n : node) (p q e : ptr).

(** The node keeps its names, its parent and the links that entries make. *)
Record same_place n n' : Prop := {
  pl_type : n_type n' = n_type n;
  pl_parent : n_parent n' = n_parent n;
  pl_names : n_names n' = n_names n;
  pl_base : 0 <= n_base n' <= 1;
  pl_links : n_links n' - n_base n' = n_links n - n_base n }.

Definition put n p t : tree := set_nodes <[p := n]> t.

Lemma wf_put t p n n' : sound t -> nodes t !! p = Some n -> same_place n n' -> sound (put n' p t).
Proof.
  intros Hw Hn []. unfold put. replace (<[p := n']> : gmap ptr node -> _) with (fun m : gmap ptr node => <[p := n']> m) by done.
  pose proof (wf_node none none none none t p (fun _ => n') Hw) as Hx. unfold set_nodes in *.
  rewrite (alter_insert_Some _ _ _ _ Hn) in Hx. apply Hx; [|done]. intros m Hm. simplify_eq. unfold none. by rewrite Z.add_0_r, Z.sub_0_r.
Qed.

Lemma shows_put v t p n i' n' :
  shows v t -> nodes t !! p = Some n -> same_place n n' -> shows_inode i' n' -> unlocked i' ->
  shows (set_inos <[p := i']> v) (put n' p t).
Proof.
  intros Hv Hn Hpl Hs Hu. split; [by eapply wf_put; [eapply shows_wf| |]|]. destruct Hv as [_ []]. constructor; cbn; try done.
  - intros q m [[<- <-]|[Hne Hm]]%lookup_insert_Some; [|rewrite lookup_insert_ne by done; by apply sh_node].
    rewrite lookup_insert_eq. eauto.
  - intros q m s e x [[<- <-]|[Hne Hm]]%lookup_insert_Some; [|by eapply sh_named]. rewrite (pl_names _ _ Hpl). by eapply sh_named.
Qed.

(** The change [f] of the inode is the change from [n] to [n']. *)
Record changes (f : inode -> inode) n n' : Prop := {
  ch_place : same_place n n';
  ch_shows : forall i, shows_inode i n -> shows_inode (f i) n';
  ch_private : forall i, same_private i (f i);
  ch_lock : forall i, InodeLock (ea (f i)) = InodeLock (ea i) }.

Lemma does_update p f n n' t :
  nodes t !! p = Some n -> changes f n n' -> does (update_inode p f) t tt (put n' p t).
Proof.
  intros Hn [] v Hv. destruct (sh_node _ _ Hv p n Hn) as (i & Hi & Hu & Hs). exists (set_inos <[p := f i]> v).
  split; [by apply runs_update|]. eapply shows_put; [done..|by apply ch_shows0|]. unfold unlocked. by rewrite ch_lock0.
Qed.

Lemma put_twice n n' p t : put n p (put n' p t) = put n p t.
Proof. unfold put, set_nodes. cbn. by rewrite insert_insert_eq. Qed.

Lemma put_lookup n p t : nodes (put n p t) !! p = Some n.
Proof. apply lookup_insert_eq. Qed.

(** ** Under a lock *)

Definition sees (l : rwlock) p v t : Prop :=
  exists i, inos v !! p = Some i /\ InodeLock (ea i) = l /\ shows (set_inos <[p := with_lock Unlocked i]> v) t.

Lemma sees_node (l : rwlock) p v t i : inos v !! p = Some i -> shows (set_inos <[p := with_lock Unlocked i]> v) t -> is_Some (nodes t !! p) ->
  exists n, nodes t !! p = Some n /\ shows_inode i n.
Proof.
  intros Hi Hv [n Hn]. exists n. split; [done|]. destruct (sh_node _ _ Hv p n Hn) as (j & Hj & _ & Hs).
  cbn in Hj. rewrite lookup_insert_eq in Hj. injection Hj as <-. destruct Hs as [[] ? ? ? ? ? ? Hd]. by constructor.
Qed.

Lemma shows_other v t p n i i' :
  shows v t -> nodes t !! p = Some n -> inos v !! p = Some i -> shows_inode i' n -> unlocked i' -> shows (set_inos <[p := i']> v) t.
Proof.
  intros Hv Hn Hi Hs Hu. pose proof (shows_put v t p n i' n Hv Hn) as Hp.
  assert (put n p t = t) as E by (unfold put, set_nodes; rewrite insert_id by done; by destruct t). rewrite E in Hp.
  apply Hp; [|done..]. constructor; try done. apply (wf_base _ _ _ _ (shows_wf _ _ Hv) p n Hn).
Qed.

Definition held_as (ex : bool) : rwlock := if ex then LockedExclusive else LockedShared 0.

Lemma runs_lock (ex : bool) p v t :
  shows v t -> is_Some (nodes t !! p) -> exists v0, runs (BitbucketLockInode p ex) v tt v0 /\ sees (held_as ex) p v0 t.
Proof.
  intros Hv [n Hn]. destruct (sh_node _ _ Hv p n Hn) as (i & Hi & Hu & Hs).
  assert (forall i', shows_inode i' n -> unlocked i' -> shows (set_inos <[p := i']> v) t) as Hsame by (intros; by eapply shows_other).
  destruct ex; eexists; (split; [apply runs_lock_exclusive || apply runs_lock_shared; [by eapply shows_not_null|done|apply Hs|done]|]);
    (eexists; split; [apply lookup_insert_eq|]; split; [done|]; rewrite set_inos_twice; apply Hsame; [|done]);
    destruct Hs as [[] ? ? ? ? ? ? Hd]; by constructor.
Qed.

Lemma runs_unlocked (ex : bool) p v t :
  sees (held_as ex) p v t -> is_Some (nodes t !! p) -> exists v', runs (BitbucketUnlockInode p) v tt v' /\ shows v' t.
Proof.
  intros (i & Hi & Hl & Hv) Hp. destruct (sees_node (held_as ex) p v t i Hi Hv Hp) as (n & Hn & Hs).
  exists (set_inos <[p := with_lock Unlocked i]> v). split; [|done]. apply runs_unlock; [done|apply Hs|]. destruct ex; auto.
Qed.

(** The parts of a program that runs under the lock. *)
Lemma sees_load l p v t : sees l p v t -> is_Some (nodes t !! p) -> exists i n, nodes t !! p = Some n /\ shows_inode i n /\ runs (load_inode p) v i v.
Proof.
  intros (i & Hi & _ & Hv) Hp. destruct (sees_node l p v t i Hi Hv Hp) as (n & Hn & Hs). exists i, n.
  split; [done|]. split; [done|]. by apply runs_load.
Qed.

Lemma sees_update l p v t f n n' :
  sees l p v t -> nodes t !! p = Some n -> changes f n n' ->
  exists v', runs (update_inode p f) v tt v' /\ sees l p v' (put n' p t).
Proof.
  intros (i & Hi & Hl & Hv) Hn []. destruct (sees_node l p v t i Hi Hv ltac:(eauto)) as (n0 & Hn0 & Hs). simplify_eq.
  exists (set_inos <[p := f i]> v). split; [by apply runs_update|]. exists (f i). cbn. rewrite lookup_insert_eq. split; [done|].
  split; [by rewrite ch_lock0|]. pose proof (shows_put _ t p n (with_lock Unlocked (f i)) n' Hv Hn ch_place0) as Hp.
  rewrite set_inos_twice in *. apply Hp; [|done]. apply ch_shows0 in Hs. destruct Hs as [[] ? ? ? ? ? ? Hd]. by constructor.
Qed.

Lemma sees_trylock l p v t :
  sees l p v t -> l <> Unlocked -> is_Some (nodes t !! p) ->
  exists v', runs (BitbucketTryLockInode p true) v EBUSY v' /\ sees l p v' t.
Proof.
  intros (i & Hi & Hl & Hv) Hne Hp. destruct (sees_node l p v t i Hi Hv Hp) as (n & Hn & Hs).
  eexists. split; [apply runs_trylock_held; [done|apply Hs|by rewrite Hl]|]. eexists. split; [apply lookup_insert_eq|]. split; [done|].
  rewrite set_inos_twice.
  eassert (set_inos <[p := with_lock Unlocked (with_epoch (u64 (Epoch i + 1)) i)]> v =
    set_inos <[p := with_lock Unlocked (with_epoch (u64 (Epoch i + 1)) i)]> (set_inos <[p := with_lock Unlocked i]> v)) as ->
    by (by rewrite set_inos_twice).
  eapply shows_other; [done|done|apply lookup_insert_eq| |done]. destruct Hs as [[] ? ? ? ? ? ? Hd]. by constructor.
Qed.

(** System calls. *)
Lemma set_rest_same t : set_rest (fun _ => t_rest t) t = t.
Proof. by destruct t. Qed.

Lemma wf_set_rest a b c f t : wf a b c t -> wf a b c (set_rest f t).
Proof. intros []. by constructor. Qed.

Lemma runs_rest {A} (m : M R A) v a x : m (rest (ext v)) = Done (a, x) -> runs (lift_rest m) v a (set_ext (with_rest x (ext v)) v).
Proof.
  intros Hm w Hw. unfold lift_rest. rewrite (ho_ext _ _ Hw), Hm. eexists. split; [done|].
  destruct (runs_set_extra (with_rest x) v w Hw) as (w' & [= <-] & Hw'). done.
Qed.

Lemma shows_rest v t x : shows v t -> shows (set_ext (with_rest x (ext v)) v) (set_rest (fun _ => x) t).
Proof. intros [Hw []]. split; [by apply wf_set_rest|]. by constructor. Qed.

Lemma does_rest {A} (m : M R A) t a x : m (t_rest t) = Done (a, x) -> does (lift_rest m) t a (set_rest (fun _ => x) t).
Proof. intros Hm v Hv. eexists. split; [apply runs_rest; by rewrite (sh_rest _ _ Hv)|by apply shows_rest]. Qed.

Lemma sees_rest {A} (m : M R A) l p v t a x :
  sees l p v t -> m (t_rest t) = Done (a, x) -> exists v', runs (lift_rest m) v a v' /\ sees l p v' (set_rest (fun _ => x) t).
Proof.
  intros (i & Hi & Hl & Hv) Hm. eexists. split; [apply runs_rest; by rewrite <- (sh_rest _ _ Hv) in Hm|].
  exists i. split; [done|]. split; [done|]. by apply (shows_rest _ t x) in Hv.
Qed.
End Updates.
