(* ===== verification/Files.v ===== *)
(** Files and their names: src/finesse/bitbucket/file.c, without the storage
    of their contents (Contents.v).

    A file is created in its directory, gets further names, and loses them
    one by one.  [BitbucketCreateFile] works on a directory that is not
    locked, as its callers leave it; [BitbucketAddFileToDirectory] locks the
    directory and then calls an operation that locks it again. *)

From stdpp Require Import gmap list strings.
From S2P Require Import Prelude NameIndex Trie Object Xattr Inode InodeRules BitbucketData Tree Directory DirectoryRules DirectoryOps DirectoryExchange Directories.

Open Scope word_scope.

Definition UUID_LENGTH : Z := 36.

Section Code.
Context {T : Type -> Type} `{NameIndex T} {R : Type} `{!Storage R}.
#[local] Notation world := (world T (instance T) (dir_state R) kind).
#[local] Notation MW := (M world).

Definition with_map_name (s : option string) (f : bitbucket_file) : bitbucket_file :=
  {| f_Magic := f_Magic f; MapName := s; Map := Map f; WaitingReaders := WaitingReaders f; WaitingWriters := WaitingWriters f |}.
Definition update_file (p : ptr) (g : bitbucket_file -> bitbucket_file) : MW unit :=
  f ← load_file p; update_inode p (with_data (File (g f))).

(** The file gets a place in the storage directory, where there is one; its
    name there is its UUID. *)
Definition create_storage (newfile : ptr) (storage_dir : option string) (UuidString : string) : MW unit :=
  match storage_dir with
  | None => mret ()
  | Some dir =>
      let storage_name := String.append dir (String.append "/" UuidString) in
      fd ← lift_rest (os_create storage_name);
      c_assert (0 <=? fd);;
      update_file newfile (with_map_name (Some storage_name))
  end.

Definition BitbucketCreateFile (Parent : ptr) (FileName : string) (storage_dir : option string) (UuidString : string)
    (epoch : Z) (newobj e : ptr) : MW ptr :=
  CHECK_INODE_MAGIC Parent;;
  CHECK_TYPE BITBUCKET_DIR_TYPE Parent;;
  CHECK_INSTANCE_MAGIC BITBUCKET_DIR_MAGIC Parent;;
  i ← load_inode Parent;
  c_assert (Table i);;
  newfile ← BitbucketCreateInode (Some FileObjectAttributes) 0 epoch newobj;
  c_assert (negb (newfile =? NULL));;
  CHECK_INODE_MAGIC newfile;;
  CHECK_TYPE BITBUCKET_FILE_TYPE newfile;;
  CHECK_INSTANCE_MAGIC BITBUCKET_FILE_MAGIC newfile;;
  i ← load_inode newfile;
  c_assert (S_IFREG =? Z.land (st_mode i) S_IFMT);;
  create_storage newfile storage_dir UuidString;;
  status ← BitbucketInsertDirectoryEntry Parent newfile FileName e;
  c_assert (status =? 0);;
  mret newfile.

Definition BitbucketAddFileToDirectory (Parent File : ptr) (FileName : string) (e : ptr) : MW Z :=
  c_assert (negb (Parent =? NULL));;
  c_assert (negb (File =? NULL));;
  CHECK_INSTANCE_MAGIC BITBUCKET_FILE_MAGIC File;;
  CHECK_INSTANCE_MAGIC BITBUCKET_DIR_MAGIC Parent;;
  BitbucketLockInode Parent true;;
  status ← BitbucketInsertDirectoryEntry Parent File FileName e;
  BitbucketUnlockInode Parent;;
  mret status.

(** What is done with the file that was found. *)
Definition remove_found (Parent : ptr) (FileName : string) (file : ptr) : MW Z :=
  i ← load_inode file;
  if S_IFDIR =? Z.land (st_mode i) S_IFDIR then mret EISDIR
  else
    c_assert (S_IFREG =? Z.land (st_mode i) S_IFREG);;
    c_assert (0 <? st_nlink i);;
    BitbucketDeleteDirectoryEntry Parent FileName.

Definition BitbucketRemoveFileFromDirectory (Parent : ptr) (FileName : string) : MW Z :=
  c_assert (negb (Parent =? NULL));;
  CHECK_INSTANCE_MAGIC BITBUCKET_DIR_MAGIC Parent;;
  file ← BitbucketLookupObjectInDirectory Parent FileName;
  status ← (if file =? NULL then mret ENOENT else remove_found Parent FileName file);
  (if file =? NULL then mret () else BitbucketDereferenceInode file INODE_LOOKUP_REFERENCE 1);;
  mret status.
End Code.

Section Rules.
Context {T : Type -> Type} `{NameIndex T} {R : Type} `{!Storage R}.
#[local] Notation world := (world T (instance T) (dir_state R) kind).
#[local] Notation MW := (M world).
#[local] Notation view := (view T (instance T) (dir_state R) kind).
#[local] Notation inode := (inode T (instance T) kind).
#[local] Notation tree := (tree R).
Implicit Types (v : view) (t : tree) (i : inode) (n : node) (p q e : ptr).

(** A file is made in memory and named. *)
Definition make_file p c (s : string) e t : tree := link p c s e (create FileObjectAttributes c t).

Lemma looks_created_file c t : looks (create FileObjectAttributes c t) c BITBUCKET_FILE_TYPE NULL ∅ 1.
Proof. exists (new_node FileObjectAttributes (t_next t)), new_references. cbn. by rewrite !lookup_insert_eq. Qed.

Lemma does_check_file p n t :
  nodes t !! p = Some n -> n_type n = BITBUCKET_FILE_TYPE -> does (CHECK_INSTANCE_MAGIC BITBUCKET_FILE_MAGIC p) t tt t.
Proof.
  intros Hn Hty. eapply does_load; [done|]. intros i Hi. apply does_assert. pose proof (sn_data _ _ Hi) as Hd. unfold shows_data in Hd.
  rewrite Hty in Hd. destruct (Instance i); cbn; [done|by destruct Hd|destruct Hd as (_ & _ & -> & _); done|by destruct Hd].
Qed.

Lemma does_create_file p c s uuid epoch e t par names k :
  looks t p BITBUCKET_DIR_TYPE par names k -> names !! s = None -> good_name s -> can_make 0 c t -> fresh_entry e t ->
  does (BitbucketCreateFile p s None uuid epoch c e) t c (make_file p c s e t).
Proof.
  intros Hp Hfree Hs Hc He. pose proof (looks_ne _ _ c _ _ _ _ Hp (cm_fresh _ _ _ Hc)) as Hne.
  pose proof Hp as (np & bagp & Hnp & Htp & _).
  dstep_with ltac:(by eapply does_check_inode). dstep_with ltac:(by eapply does_check_type). dstep_with ltac:(by eapply does_check_dir).
  eapply does_load; [done|]. intros i Hi. dstep_assert; [by apply Hi|]. dstep_with ltac:(by apply does_create).
  set (t1 := create FileObjectAttributes c t). pose proof (looks_created_file c t) as C1. fold t1 in C1.
  pose proof (looks_create _ _ _ _ FileObjectAttributes c t p Hp Hne) as P1. fold t1 in P1.
  assert (nodes t1 !! c = Some (new_node FileObjectAttributes (t_next t))) as Hn by apply lookup_insert_eq.
  eapply does_not_null; [eauto|]. dstep_with ltac:(by eapply does_check_inode). dstep_with ltac:(by eapply does_check_type).
  dstep_with ltac:(by eapply does_check_file). eapply does_load; [done|]. intros j Hj. dstep_assert; [by rewrite (sn_mode _ _ Hj)|].
  dstep_with ltac:(apply does_ret). dstep_with ltac:(eapply (does_link p c s e); [exact P1|exact C1|done..]). dstep_assert; [done|].
  apply does_ret.
Qed.

(** ** Removal of a name *)

Definition spec_remove_file p (s : string) t : option (Z * tree) :=
  '(q, t1) ← spec_lookup p s t;
  if q =? NULL then Some (ENOENT, t1)
  else
    n ← nodes t1 !! q;
    '(r, t2) ← (if S_IFDIR =? Z.land (n_mode n) S_IFDIR then Some (EISDIR, t1)
      else when (S_IFREG = Z.land (n_mode n) S_IFREG /\ 0 < n_links n) (spec_delete p s t1));
    '(_, t3) ← spec_release q INODE_LOOKUP_REFERENCE t2;
    Some (r, t3).

Lemma does_release p r t x t' : spec_release p r t = Some (x, t') -> does (BitbucketDereferenceInode p r 1) t tt t'.
Proof.
  intros Hspec v Hv. destruct (does_spec_release p r t x t' (shows_wf _ _ Hv) Hspec v Hv) as (v' & Hr & Hv').
  exists v'. split; [|done]. intros w Hw. destruct (Hr w Hw) as (w' & Hrun & Hw'). exists w'. split; [|done].
  apply M_bind_inv in Hrun as ([] & w1 & Hrun & [= <- <-]). done.
Qed.

Lemma spec_lookup_dir p s t q t1 : spec_lookup p s t = Some (q, t1) -> exists par names k, look_dir t p = Some (par, names, k).
Proof. unfold spec_lookup. destruct (look_dir t p) as [[[par names] k]|]; [|done]. eauto. Qed.

Lemma does_remove_file p s t r t' : spec_remove_file p s t = Some (r, t') -> does (BitbucketRemoveFileFromDirectory p s) t r t'.
Proof.
  intros Hspec. apply does_wf. intros Hw. unfold spec_remove_file in Hspec.
  apply bind_Some in Hspec as ([q t1] & Hlook & Hspec). destruct (spec_lookup_dir _ _ _ _ _ Hlook) as (par & names & k & Hdir).
  pose proof (look_dir_looks _ _ _ _ _ Hw Hdir) as (np & bagp & Hnp & Htp & _).
  eapply does_not_null; [eauto|]. dstep_with ltac:(eapply does_check_dir; [exact Hnp|exact Htp]). dstep_with ltac:(apply does_spec_lookup; [exact Hw|exact Hlook]).
  destruct (Z.eqb_spec q NULL) as [->|Hq].
  - injection Hspec as <- <-. dstep_with ltac:(apply does_ret). dstep_with ltac:(apply does_ret). apply does_ret.
  - apply bind_Some in Hspec as (n & Hn & Hspec). apply bind_Some in Hspec as ([r1 t2] & Hmid & Hspec).
    apply bind_Some in Hspec as ([x t3] & Hrel & [= <- <-]). eapply (does_bind _ _ _ r1 t2).
    { eapply does_load; [exact Hn|]. intros i Hi. rewrite (sn_mode _ _ Hi). destruct (S_IFDIR =? Z.land (n_mode n) S_IFDIR).
      - injection Hmid as <- <-. apply does_ret.
      - apply when_Some in Hmid as [[Hreg Hl] Hdel]. dstep_assert; [by apply Z.eqb_eq|].
        dstep_assert; [rewrite (sn_links _ _ Hi); by apply Z.ltb_lt|]. apply does_wf. intros Hw1. by apply does_spec_delete. }
    dstep_with ltac:(by eapply does_release). apply does_ret.
Qed.

(** ** A lock taken twice *)

Lemma fails_lock_held p i v : p <> NULL -> inos v !! p = Some i -> Magic (ea i) = BITBUCKET_INODE_MAGIC -> InodeLock (ea i) <> Unlocked ->
  fails (BitbucketLockInode p true) v Deadlock.
Proof.
  intros Hp Hi Hm Hl. eapply fails_later; [by apply runs_assert, negb_true_iff, Z.eqb_neq|].
  eapply fails_later; [by apply runs_load|]. eapply fails_later; [apply runs_assert; by rewrite Hm|].
  destruct (InodeLock (ea i)); [done|..]; by intros w Hw.
Qed.

Lemma fails_lock_two p q i j v :
  inos v !! p = Some i -> inos v !! q = Some j -> p <> q -> p <> NULL -> q <> NULL ->
  Magic (ea i) = BITBUCKET_INODE_MAGIC -> Magic (ea j) = BITBUCKET_INODE_MAGIC ->
  InodeLock (ea i) <> Unlocked -> InodeLock (ea j) = Unlocked -> BITBUCKET_DIR_TYPE <= InodeType i <= BITBUCKET_DEVNODE_TYPE ->
  fails (BitbucketLockTwoInodes p q true) v Deadlock.
Proof.
  intros Hi Hj Hne Hp Hq Hmi Hmj Hli Hlj Hty. unfold BitbucketLockTwoInodes.
  do 3 (eapply fails_later; [apply runs_assert; apply negb_true_iff, Z.eqb_neq; done|]).
  eapply fails_later; [by apply runs_load|]. eapply fails_later.
  { apply runs_assert. unfold BITBUCKET_DIR_TYPE, BITBUCKET_FILE_TYPE, BITBUCKET_SYMLINK_TYPE, BITBUCKET_DEVNODE_TYPE in *. lia. }
  eapply fails_later; [by apply runs_load|]. cbv zeta.
  assert (lock_first (InodeType i) (InodeType j) p q = p \/ lock_first (InodeType i) (InodeType j) p q = q) as [->| ->].
  { unfold lock_first. repeat case_match; auto. }
  - rewrite Z.eqb_refl. apply fails_here. by eapply fails_lock_held.
  - destruct (Z.eqb_spec q p); [congruence|]. eapply fails_later; [by apply runs_lock_exclusive|].
    eapply (fails_lock_held p i); [done|cbn; by rewrite lookup_insert_ne|done|done].
Qed.

(** [BitbucketAddFileToDirectory] never returns: it takes the exclusive
    lock of the directory, and the insertion it calls takes that lock again. *)
Theorem add_file_deadlocks p q s e par names k n bag t :
  looks t p BITBUCKET_DIR_TYPE par names k -> nodes t !! q = Some n -> n_type n = BITBUCKET_FILE_TYPE -> counts t !! q = Some bag ->
  sum bag + 1 < 2 ^ 32 -> good_name s -> e <> NULL -> breaks (BitbucketAddFileToDirectory p q s e) t Deadlock.
Proof.
  intros (np & bagp & Hnp & Htp & _) Hn Hty Hbag Hb Hs He. assert (p <> q) as Hne by (intros ->; simplify_eq; rewrite Htp in Hty; done).
  eapply breaks_not_null; [eauto|]. eapply breaks_not_null; [eauto|]. eapply breaks_later; [by eapply does_check_file|].
  eapply breaks_later; [by eapply does_check_dir|]. intros v Hv. pose proof (shows_wf _ _ Hv) as Hw.
  destruct (sh_node _ _ Hv p np Hnp) as (i & Hi & Hui & Hsi). destruct (sh_node _ _ Hv q n Hn) as (j & Hj & Huj & Hsj).
  destruct (shows_directory np i Htp Hsi) as [d Hd]. destruct (shows_dir_data i np d Hsi Hd) as (Hm & _).
  assert (p <> NULL) as Hp0 by (apply (wf_null _ _ _ _ Hw); eauto). assert (q <> NULL) as Hq0 by (apply (wf_null _ _ _ _ Hw); eauto).
  pose proof (good_name_length s Hs) as Hlen.
  eapply fails_later; [apply (runs_lock_exclusive p i); [done|done|apply Hsi|done]|]. apply fails_here. unfold BitbucketInsertDirectoryEntry.
  do 2 (eapply fails_later; [apply runs_assert, negb_true_iff, Z.eqb_neq; done|]).
  eapply fails_later; [eapply runs_check_type; [vlook|]; rewrite <- Htp; apply Hsi|].
  eapply fails_later; [eapply runs_check_instance; [vlook|]; cbn; by rewrite Hd|]. cbv zeta.
  do 2 (eapply fails_later; [apply runs_assert; apply Z.ltb_lt; lia|]).
  eapply fails_later; [apply runs_assert, negb_true_iff, Z.eqb_neq; done|]. eapply fails_later; [apply runs_store_dirent|].
  eapply fails_later; [apply (runs_reference q bag); [cbn; by rewrite (sh_refs _ _ Hv)|done|done]|].
  destruct (Z.eqb_spec p q); [done|]. apply fails_here. eapply (fails_lock_two p q); [vlook|vlook|done..| | | | |].
  - apply Hsi.
  - apply Hsj.
  - done.
  - done.
  - cbn. rewrite (sn_type _ _ Hsi), Htp. done.
Qed.
End Rules.

(** * Witnesses *)

Lemma add_file_deadlocks_witness : BitbucketAddFileToDirectory 4096 12288 "c" 208 example_world = Fail Deadlock.
Proof.
  assert (exists m n, nodes example_tree !! 4096 = Some m /\ n_type m = BITBUCKET_DIR_TYPE /\
    counts example_tree !! 4096 = Some [1; 2; 3; 0; 0; 0; 0; 0; 0; 0; 0; 0] /\
    nodes example_tree !! 12288 = Some n /\ n_type n = BITBUCKET_FILE_TYPE /\
    counts example_tree !! 12288 = Some [1; 0; 1; 0; 0; 0; 0; 0; 0; 0; 0; 0])
    as (m & n & Hm & Htm & Hcm & Hn & Htn & Hcn) by (do 2 eexists; evaluates).
  refine (add_file_deadlocks 4096 12288 "c" 208 (n_parent m) (n_names m) 6 n [1; 0; 1; 0; 0; 0; 0; 0; 0; 0; 0; 0] example_tree _ Hn Htn Hcn _ _ _
    example_view example_shows example_world example_holds); [|done..].
  eexists m, _. exact (conj Hm (conj Htm (conj eq_refl (conj eq_refl (conj Hcm (conj eq_refl eq_refl)))))).
Defined.
