(* ===== verification/Symlinks.v ===== *)
(** Symbolic links: src/finesse/bitbucket/symlink.c, without its handler.

    The contents of a link are stored in the inode itself, which is allocated
    as much longer as they need.  A new link has a link count of 1 before it
    is inserted into its directory, which counts it once more. *)

From stdpp Require Import gmap list strings.
From S2P Require Import Prelude NameIndex Trie Object Xattr Inode InodeRules BitbucketData Tree Directory DirectoryRules DirectoryOps DirectoryExchange Directories Updates Files.

Open Scope word_scope.

(** sizeof(bitbucket_inode_t) - offsetof(bitbucket_inode_t,
    Instance.SymbolicLink.LinkContents): the union has 96 bytes, and the
    contents begin after the magic number. *)
Definition existing_space : Z := 88.

(** The bytes of a link, with the 0 at the end, and how many more the inode
    gets for them. *)
Definition link_length (Link : string) : Z := Z.of_nat (String.length Link) + 1.
Definition extra_length (Link : string) : Z :=
  let length := link_length Link + 1 in if existing_space <? length then length - existing_space else 0.

Section Code.
Context {T : Type -> Type} `{NameIndex T} {R : Type} `{!Storage R}.
#[local] Notation world := (world T (instance T) (dir_state R) kind).
#[local] Notation MW := (M world).

Definition store_link (p : ptr) (Link : string) : MW unit :=
  i ← load_inode p;
  match Instance i with
  | SymbolicLink s => update_inode p (with_data (SymbolicLink {| s_Magic := s_Magic s; LinkContents := Link |}))
  | _ => mthrow Undefined
  end.

Definition BitbucketCreateSymlink (Parent : ptr) (FileName Link : string) (epoch : Z) (newobj e : ptr) : MW ptr :=
  CHECK_INODE_MAGIC Parent;;
  CHECK_TYPE BITBUCKET_DIR_TYPE Parent;;
  CHECK_INSTANCE_MAGIC BITBUCKET_DIR_MAGIC Parent;;
  i ← load_inode Parent;
  c_assert (Table i);;
  let length := extra_length Link in
  newlink ← BitbucketCreateInode (Some SymbolicLinkObjectAttributes) length epoch newobj;
  c_assert (negb (newlink =? NULL));;
  CHECK_INODE_MAGIC newlink;;
  CHECK_TYPE BITBUCKET_SYMLINK_TYPE newlink;;
  CHECK_INSTANCE_MAGIC BITBUCKET_SYMLINK_MAGIC newlink;;
  i ← load_inode newlink;
  c_assert (S_IFLNK =? Z.land (st_mode i) S_IFMT);;
  update_inode newlink (fun i => with_mode (Z.lor (st_mode i) S_IRWXUGO) i);;
  c_assert (link_length Link <=? length + existing_space);;
  store_link newlink Link;;
  update_inode newlink (with_nlink 1);;
  status ← BitbucketInsertDirectoryEntry Parent newlink FileName e;
  c_assert (status =? 0);;
  mret newlink.

(** The check at the beginning is applied to the inode, whose first word is
    its own magic number. *)
Definition BitbucketRemoveSymlinkFromDirectory (Parent : ptr) (SymlinkName : string) : MW Z :=
  c_assert (negb (Parent =? NULL));;
  i ← load_inode Parent;
  c_assert (Magic (ea i) =? BITBUCKET_DIR_MAGIC);;
  symlink ← BitbucketLookupObjectInDirectory Parent SymlinkName;
  status ← (if symlink =? NULL then mret ENOENT
    else
      i ← load_inode symlink;
      if S_IFDIR =? Z.land (st_mode i) S_IFDIR then mret EISDIR
      else
        c_assert (S_IFLNK =? Z.land (st_mode i) S_IFLNK);;
        BitbucketDeleteDirectoryEntry Parent SymlinkName);
  (if symlink =? NULL then mret () else BitbucketDereferenceInode symlink INODE_LOOKUP_REFERENCE 1);;
  mret status.

(** The answer is the status and the contents. *)
Definition BitbucketReadSymlink (p : ptr) : MW (Z * string) :=
  c_assert (negb (p =? NULL));;
  CHECK_INODE_MAGIC p;;
  i ← load_inode p;
  if negb (InodeType i =? BITBUCKET_SYMLINK_TYPE) then mret (EBADF, EmptyString)
  else
    c_assert (S_IFLNK =? Z.land (st_mode i) S_IFLNK);;
    match Instance i with SymbolicLink s => mret (0, LinkContents s) | _ => mthrow Undefined end.
End Code.

Section Rules.
Context {T : Type -> Type} `{NameIndex T} {R : Type} `{!Storage R}.
#[local] Notation world := (world T (instance T) (dir_state R) kind).
#[local] Notation MW := (M world).
#[local] Notation view := (view T (instance T) (dir_state R) kind).
#[local] Notation inode := (inode T (instance T) kind).
#[local] Notation tree := (tree R).
Implicit Types (v : view) (t : tree) (i : inode) (n : node) (p q e : ptr).

(** The link that is made. *)
Definition link_node (ino : Z) (Link : string) : node :=
  {| n_ino := ino; n_type := BITBUCKET_SYMLINK_TYPE; n_mode := Z.lor S_IRWXUGO S_IFLNK; n_links := 1; n_base := 1;
     n_parent := NULL; n_names := ∅; n_size := 0; n_contents := Target Link |}.

Definition make_symlink p c (s Link : string) e t : tree :=
  link p c s e (put (link_node (t_next t) Link) c (create SymbolicLinkObjectAttributes c t)).

Lemma extra_length_enough Link : link_length Link <= extra_length Link + existing_space.
Proof. unfold extra_length, existing_space. destruct (Z.ltb_spec 88 (link_length Link + 1)); lia. Qed.

Lemma shows_link_data i n : n_type n = BITBUCKET_SYMLINK_TYPE -> shows_inode i n ->
  exists s, Instance i = SymbolicLink s /\ s_Magic s = BITBUCKET_SYMLINK_MAGIC /\ n_contents n = Target (LinkContents s).
Proof.
  intros Hty [_ _ _ _ _ _ _ Hd]. unfold shows_data in Hd. destruct (Instance i) as [|d|f|s]; [done|..].
  - destruct Hd as [Hd _]. by rewrite Hd in Hty.
  - destruct Hd as [Hd _]. by rewrite Hd in Hty.
  - destruct Hd as (_ & _ & Hm & Hc). by exists s.
Qed.

(** The node between the steps of the creation. *)
Definition node_change (mode links base : Z) (c : contents) n : node :=
  {| n_ino := n_ino n; n_type := n_type n; n_mode := mode; n_links := links; n_base := base; n_parent := n_parent n; n_names := n_names n;
     n_size := n_size n; n_contents := c |}.

Lemma changes_mode (f : Z -> Z) n :
  0 <= n_base n <= 1 -> changes (T := T) (fun i => with_mode (f (st_mode i)) i) n (node_mode (f (n_mode n)) n).
Proof.
  intros Hb. constructor; [by constructor| |by constructor|done]. intros i Hi. pose proof (sn_mode _ _ Hi).
  destruct Hi as [[] ? ? ? ? ? ? Hd]. by constructor; cbn; try congruence.
Qed.

Lemma does_store_link p n Link t :
  nodes t !! p = Some n -> n_type n = BITBUCKET_SYMLINK_TYPE -> 0 <= n_base n <= 1 ->
  does (store_link p Link) t tt (put (node_change (n_mode n) (n_links n) (n_base n) (Target Link) n) p t).
Proof.
  intros Hn Hty Hb v Hv. destruct (sh_node _ _ Hv p n Hn) as (i & Hi & Hu & Hs).
  destruct (shows_link_data i n Hty Hs) as (s & Hd & Hm & Hc).
  exists (set_inos <[p := with_data (SymbolicLink {| s_Magic := s_Magic s; LinkContents := Link |}) i]> v). split.
  - step_with ltac:(by apply runs_load). rewrite Hd. by apply runs_update.
  - eapply shows_put; [done..|by constructor| |done]. destruct Hs as [[] ? ? ? ? ? ? Hsd]. constructor; try done.
    unfold shows_data in *. rewrite Hd in Hsd. cbn. by destruct Hsd as (? & ? & _).
Qed.

Lemma does_create_symlink p c s Link epoch e t par names k :
  looks t p BITBUCKET_DIR_TYPE par names k -> names !! s = None -> good_name s -> can_make (extra_length Link) c t -> fresh_entry e t ->
  does (BitbucketCreateSymlink p s Link epoch c e) t c (make_symlink p c s Link e t).
Proof.
  intros Hp Hfree Hs Hc He. pose proof (looks_ne _ _ c _ _ _ _ Hp (cm_fresh _ _ _ Hc)) as Hne.
  pose proof Hp as (np & bagp & Hnp & Htp & _).
  dstep_with ltac:(by eapply does_check_inode). dstep_with ltac:(by eapply does_check_type). dstep_with ltac:(by eapply does_check_dir).
  eapply does_load; [done|]. intros i Hi. dstep_assert; [by apply Hi|]. cbv zeta. dstep_with ltac:(by apply does_create).
  set (t1 := create SymbolicLinkObjectAttributes c t).
  assert (nodes t1 !! c = Some (new_node SymbolicLinkObjectAttributes (t_next t))) as Hn by apply lookup_insert_eq.
  eapply does_not_null; [eauto|]. dstep_with ltac:(by eapply does_check_inode). dstep_with ltac:(by eapply does_check_type).
  dstep_with ltac:(eapply does_load; [exact Hn|]; intros j Hj; apply does_assert;
    destruct (shows_link_data j (new_node SymbolicLinkObjectAttributes (t_next t)) eq_refl Hj) as (x & -> & Hm & _); exact (proj2 (Z.eqb_eq _ _) Hm)).
  eapply does_load; [done|]. intros j Hj. dstep_assert; [by rewrite (sn_mode _ _ Hj)|].
  dstep_with ltac:(eapply does_update; [exact Hn|apply (changes_mode (fun m => Z.lor m S_IRWXUGO)); cbn; lia]).
  dstep_assert; [apply Z.leb_le, extra_length_enough|].
  dstep_with ltac:(eapply does_store_link; [apply put_lookup|done|cbn; lia]). rewrite put_twice.
  dstep_with ltac:(eapply (does_update c (with_nlink 1) _ (link_node (t_next t) Link)); [apply put_lookup|]).
  { constructor; [by constructor| |by constructor|done]. intros l Hl. destruct Hl as [[] ? ? ? ? ? ? Hd]. by constructor. }
  rewrite put_twice. set (t2 := put (link_node (t_next t) Link) c t1).
  pose proof (looks_create _ _ _ _ SymbolicLinkObjectAttributes c t p Hp Hne) as (np1 & bagp1 & Hnp1 & Htp1 & Hpar1 & Hnames1 & Hcp1 & Hlp1 & Hkp1).
  dstep_with ltac:(eapply (does_insert p c s e np1 (link_node (t_next t) Link) new_references)).
  - cbn. by rewrite lookup_insert_ne.
  - done.
  - apply put_lookup.
  - cbn. apply lookup_insert_eq.
  - done.
  - done.
  - done.
  - by rewrite Hnames1.
  - dstep_assert; [done|]. apply does_ret.
Qed.

(** The removal of a link is refused before it looks at the name. *)
Lemma remove_symlink_breaks p s n t : nodes t !! p = Some n -> breaks (BitbucketRemoveSymlinkFromDirectory (T := T) p s) t AssertFailed.
Proof.
  intros Hn. eapply breaks_not_null; [eauto|]. eapply breaks_load; [done|]. intros i Hi. apply breaks_assert.
  by rewrite (lv_magic _ (sn_live _ _ Hi)).
Qed.

Lemma does_read_symlink p n Link t :
  nodes t !! p = Some n -> n_type n = BITBUCKET_SYMLINK_TYPE -> n_contents n = Target Link -> Z.land (n_mode n) S_IFLNK = S_IFLNK ->
  does (BitbucketReadSymlink p) t (0, Link) t.
Proof.
  intros Hn Hty Hc Hm. eapply does_not_null; [eauto|]. dstep_with ltac:(by eapply does_check_inode). eapply does_load; [done|]. intros i Hi.
  rewrite (sn_type _ _ Hi), Hty. dstep_assert; [by rewrite (sn_mode _ _ Hi), Hm|]. destruct (shows_link_data i n Hty Hi) as (s & -> & _ & Hs).
  rewrite Hc in Hs. injection Hs as ->. apply does_ret.
Qed.
End Rules.
