(* ===== verification/Handlers.v ===== *)
(** The FUSE requests of the Bitbucket file system that concern names:
    lookup.c, getattr.c, access.c, opendir.c, releasedir.c, mkdir.c, rmdir.c,
    unlink.c, link.c, create.c, rename.c, forget.c and readdir.c of
    src/finesse/bitbucket.

    A handler is given the arguments of the request and answers its status
    and its reply; the FUSE library that carries the reply is not modelled.
    Counting calls and measuring them (Message.v models the arithmetic) is
    left out, and so are the timeouts of a reply, which are constants.
    [forget] is modelled without the background thread that it may hand its
    work to. *)

From stdpp Require Import gmap list strings.
From S2P Require Import Prelude NameIndex Trie Object Xattr Inode InodeRules BitbucketData Tree Directory DirectoryRules DirectoryOps DirectoryExchange Directories Enumeration Files.

Open Scope word_scope.

Definition INODE_FUSE_LOOKUP_REFERENCE : Z := 5.
Definition INODE_FUSE_OPEN_REFERENCE : Z := 6.
Definition INODE_FUSE_OPENDIR_REFERENCE : Z := 7.

Definition S_IFCHR : Z := 0x2000.
Definition S_IFBLK : Z := 0x6000.
Definition S_IFIFO : Z := 0x1000.
Definition S_IFSOCK : Z := 0xc000.
Definition ALLPERMS : Z := 0xfff.
Definition RENAME_NOREPLACE : Z := 1.
Definition RENAME_EXCHANGE : Z := 2.
Definition FUSE_NAME_OFFSET : Z := 24.

Definition S_ISDIR (mode : Z) : bool := Z.land mode S_IFMT =? S_IFDIR.

(** struct stat, as far as the modelled code sets it. *)
Record stat := { sa_ino : Z; sa_mode : Z; sa_nlink : Z; sa_size : Z }.

(** A packed directory entry: struct fuse_dirent. *)
Record fuse_dirent := { fd_ino : Z; fd_off : Z; fd_type : Z; fd_name : string }.

Inductive reply : Type :=
  | ReplyErr (status : Z)
  | ReplyEntry (ino generation : Z) (attr : stat)
  | ReplyAttr (attr : stat)
  | ReplyOpen (fh : ptr)
  | ReplyCreate (ino generation : Z) (attr : stat) (fh : ptr)
  | ReplyBuf (entries : list fuse_dirent)
  | ReplyData (bytes : list Byte.byte)
  | ReplyWrite (count : Z)
  | ReplyLink (contents : string)
  | ReplyNone
  | ReplyXattr (count : Z)
  | NoReply.

(** bitbucket_userdata_t, as far as the handlers use it. *)
Record userdata := { RootDirectory : ptr; StorageDir : option string; FlushEnable : Z; FsyncDisable : Z; NoXattr : Z }.

(** A file system in memory with this root: the defaults, and extended
    attributes. *)
Definition in_memory (root : ptr) : userdata := {| RootDirectory := root; StorageDir := None; FlushEnable := 0; FsyncDisable := 1; NoXattr := 0 |}.

(** [fuse_add_direntry]: the room an entry takes. *)
Definition direntry_size (Name : string) : Z := Z.land (FUSE_NAME_OFFSET + Z.of_nat (String.length Name) + 7) (Z.lnot 7).

Definition dirent_type (mode : Z) : Z := Z.shiftr (Z.land mode S_IFMT) 12.

Section Handlers.
Context {T : Type -> Type} `{NameIndex T} {R : Type} `{!Storage R} (BBud : userdata).
#[local] Notation world := (world T (instance T) (dir_state R) kind).
#[local] Notation MW := (M world).

(** The inode with the number, with a lookup reference, or NULL. *)
Definition get_inode (ino : Z) : MW ptr :=
  if FUSE_ROOT_ID =? ino then BitbucketReferenceInode (RootDirectory BBud) INODE_LOOKUP_REFERENCE;; mret (RootDirectory BBud)
  else o ← BitbucketLookupInodeInTable ino; mret (default NULL o).

(** The reference goes back, where there is one. *)
Definition put_inode (p : ptr) : MW unit :=
  if p =? NULL then mret () else BitbucketDereferenceInode p INODE_LOOKUP_REFERENCE 1.

Definition attributes (p : ptr) : MW stat :=
  i ← load_inode p; mret {| sa_ino := st_ino i; sa_mode := st_mode i; sa_nlink := st_nlink i; sa_size := st_size i |}.

Definition entry_param (p : ptr) : MW reply :=
  i ← load_inode p; attr ← attributes p; mret (ReplyEntry (st_ino i) (Epoch i) attr).

(** ** lookup.c *)

Definition bitbucket_internal_lookup (parent : Z) (name : string) : MW (Z * reply) :=
  parentInode ← get_inode parent;
  if parentInode =? NULL then mret (EBADF, ReplyErr EBADF)
  else
    inode ← BitbucketLookupObjectInDirectory parentInode name;
    answer ← (if inode =? NULL then mret (ENOENT, ReplyErr ENOENT)
      else
        fep ← entry_param inode;
        BitbucketReferenceInode inode INODE_FUSE_LOOKUP_REFERENCE;;
        mret (0, fep));
    put_inode parentInode;;
    put_inode inode;;
    mret answer.

(** ** getattr.c and access.c *)

(** Without an open file. *)
Definition bitbucket_internal_getattr (ino : Z) : MW (Z * reply) :=
  inode ← get_inode ino;
  if inode =? NULL then mret (EBADF, ReplyErr EBADF)
  else attr ← attributes inode; put_inode inode;; mret (0, ReplyAttr attr).

(** With an open file, whose handle is [fh]: the handle is checked, and not
    used. *)
Definition check_handle (fh : ptr) (ino : Z) : MW unit :=
  CHECK_INODE_MAGIC fh;;
  i ← load_inode fh;
  c_assert (ino =? st_ino i).

Definition bitbucket_internal_getattr_open (fh : ptr) (ino : Z) : MW (Z * reply) :=
  check_handle fh ino;; bitbucket_internal_getattr ino.

Definition bitbucket_internal_access (ino mask : Z) : MW (Z * reply) :=
  inode ← get_inode ino;
  status ← (if inode =? NULL then mret EBADF
    else
      i ← load_inode inode;
      let mode := Z.land (st_mode i) (wnot 32 S_IFMT) in
      let status := if negb (mask =? Z.land mask mode) then EACCES else EBADF in
      let status := 0 in
      mret status);
  put_inode inode;;
  mret (status, ReplyErr status).

(** ** opendir.c and releasedir.c *)

Definition bitbucket_internal_opendir (ino : Z) : MW (Z * reply) :=
  inode ← get_inode ino;
  status ← (if inode =? NULL then mret ENOENT
    else i ← load_inode inode; mret (if S_ISDIR (st_mode i) then 0 else ENOTDIR));
  (if inode =? NULL then mret ()
   else
     BitbucketReferenceInode inode INODE_FUSE_OPENDIR_REFERENCE;;
     BitbucketDereferenceInode inode INODE_LOOKUP_REFERENCE 1);;
  mret (status, if status =? 0 then ReplyOpen NULL else ReplyErr status).

Definition bitbucket_internal_releasedir (ino : Z) : MW (Z * reply) :=
  inode ← get_inode ino;
  if inode =? NULL then mret (EBADF, ReplyErr EBADF)
  else
    BitbucketDereferenceInode inode INODE_FUSE_OPENDIR_REFERENCE 1;;
    BitbucketDereferenceInode inode INODE_LOOKUP_REFERENCE 1;;
    mret (0, ReplyErr 0).

(** ** mkdir.c *)

Definition bitbucket_internal_mkdir (parent : Z) (name : string) (mode epoch : Z) (newobj e1 e2 e3 : ptr) : MW (Z * reply) :=
  inode ← get_inode parent;
  '(child, answer) ← (if inode =? NULL then mret (NULL, (ENOENT, ReplyErr ENOENT))
    else
      i ← load_inode inode;
      if negb (S_ISDIR (st_mode i)) then mret (NULL, (ENOTDIR, ReplyErr ENOTDIR))
      else
        child ← BitbucketCreateDirectory inode name epoch newobj e1 e2 e3;
        if child =? NULL then mret (NULL, (EEXIST, ReplyErr EEXIST))
        else
          update_inode child (fun i => with_mode (Z.lor (Z.land (st_mode i) S_IFMT) (Z.land mode (wnot 32 S_IFMT))) i);;
          fep ← entry_param child;
          mret (child, (0, fep)));
  (if answer.1 =? 0 then
     c_assert (negb (child =? NULL));; BitbucketReferenceInode child INODE_FUSE_LOOKUP_REFERENCE
   else mret ());;
  put_inode inode;;
  put_inode child;;
  mret answer.

(** ** rmdir.c *)

(** With the directory and its child, which keeps its lookup reference unless
    it was removed. *)
Definition rmdir_child (inode child : ptr) (name : string) : MW Z :=
  i ← load_inode child;
  if negb (InodeType i =? BITBUCKET_DIR_TYPE) then mret ENOTDIR
  else
    count ← BitbucketDirectoryEntryCount child;
    if 2 <? u32 count then mret ENOTEMPTY
    else
      status ← BitbucketDeleteDirectoryEntry inode name;
      if negb (status =? 0) then mret status
      else
        status ← BitbucketDeleteDirectory child;
        c_assert (status =? 0);;
        BitbucketDereferenceInode child INODE_LOOKUP_REFERENCE 1;;
        mret status.

Definition bitbucket_internal_rmdir (parent : Z) (name : string) : MW (Z * reply) :=
  inode ← get_inode parent;
  status ← (if inode =? NULL then mret EBADF
    else
      i ← load_inode inode;
      if negb (InodeType i =? BITBUCKET_DIR_TYPE) then mret ENOTDIR
      else
        child ← BitbucketLookupObjectInDirectory inode name;
        if child =? NULL then mret ENOENT else rmdir_child inode child name);
  put_inode inode;;
  mret (status, ReplyErr status).

(** ** unlink.c *)

Definition bitbucket_internal_unlink (parent : Z) (name : string) : MW (Z * reply) :=
  inode ← get_inode parent;
  status ← (if inode =? NULL then mret EBADF
    else
      i ← load_inode inode;
      if negb (InodeType i =? BITBUCKET_DIR_TYPE) then mret EISDIR
      else BitbucketDeleteDirectoryEntry inode name);
  put_inode inode;;
  mret (status, ReplyErr status).

(** ** link.c *)

(** The loop goes on as long as the name exists and cannot be removed; each
    turn allocates the entry [e]. *)
Fixpoint link_loop (fuel : nat) (parent inode : ptr) (newname : string) (es : list ptr) : MW Z :=
  match fuel, es with
  | S fuel, e :: es =>
      status ← BitbucketInsertDirectoryEntry parent inode newname e;
      if status =? EEXIST then
        status ← BitbucketRemoveFileFromDirectory parent newname;
        if status =? EEXIST then link_loop fuel parent inode newname es else mret status
      else mret status
  | _, _ => mthrow OutOfFuel
  end.

Definition bitbucket_internal_link (ino newparent : Z) (newname : string) (es : list ptr) : MW (Z * reply) :=
  if FUSE_ROOT_ID =? ino then mret (EISDIR, ReplyErr EISDIR)
  else
    o ← BitbucketLookupInodeInTable ino;
    let inode := default NULL o in
    if inode =? NULL then mret (EBADF, ReplyErr EBADF)
    else
      parent ← get_inode newparent;
      answer ← (if parent =? NULL then mret (EBADF, ReplyErr EBADF)
        else
          i ← load_inode inode;
          if negb (InodeType i =? BITBUCKET_FILE_TYPE) then
            (if InodeType i =? BITBUCKET_DIR_TYPE then mret (EISDIR, ReplyErr EISDIR) else mret (EINVAL, ReplyErr EINVAL))
          else
            _ ← link_loop (length es) parent inode newname es;
            fep ← entry_param inode;
            BitbucketReferenceInode inode INODE_FUSE_LOOKUP_REFERENCE;;
            mret (0, fep));
      put_inode inode;;
      put_inode parent;;
      mret answer.

(** ** create.c *)

(** What the file type of the request makes. *)
Definition create_object (parentInode : ptr) (name : string) (mask : Z) (UuidString : string) (epoch : Z) (newobj e1 e2 e3 : ptr) : MW ptr :=
  if mask =? S_IFDIR then BitbucketCreateDirectory parentInode name epoch newobj e1 e2 e3
  else if mask =? S_IFCHR then c_assert false;; mret NULL
  else if mask =? S_IFBLK then c_assert false;; mret NULL
  else if (mask =? 0) || (mask =? S_IFREG) then
    BitbucketCreateFile parentInode name (StorageDir BBud) UuidString epoch newobj e1
  else if mask =? S_IFIFO then c_assert false;; mret NULL
  else if mask =? S_IFLNK then c_assert false;; mret NULL
  else if mask =? S_IFSOCK then c_assert false;; mret NULL
  else mret NULL.

Definition bitbucket_internal_create (parent : Z) (name : string) (mode : Z) (UuidString : string) (epoch : Z)
    (newobj e1 e2 e3 : ptr) : MW (Z * reply) :=
  parentInode ← get_inode parent;
  if parentInode =? NULL then mret (EBADF, ReplyErr EBADF)
  else
    found ← BitbucketLookupObjectInDirectory parentInode name;
    '(inode, answer) ← (if negb (found =? NULL) then mret (found, (EEXIST, ReplyErr EEXIST))
      else
        let mask := Z.land mode S_IFMT in
        inode ← create_object parentInode name mask UuidString epoch newobj e1 e2 e3;
        if inode =? NULL then mret (NULL, (EINVAL, ReplyErr EINVAL))
        else
          update_inode inode (with_mode (Z.lor mask (Z.land mode ALLPERMS)));;
          i ← load_inode inode;
          attr ← attributes inode;
          mret (inode, (0, ReplyCreate (st_ino i) (Epoch i) attr inode)));
    inode ← (if answer.1 =? 0 then
        c_assert (negb (inode =? NULL));;
        BitbucketReferenceInode inode INODE_FUSE_LOOKUP_REFERENCE;;
        BitbucketReferenceInode inode INODE_FUSE_OPEN_REFERENCE;;
        BitbucketDereferenceInode inode INODE_LOOKUP_REFERENCE 1;;
        mret NULL
      else mret inode);
    c_assert (inode =? NULL);;
    put_inode parentInode;;
    mret answer.

(** ** rename.c *)

(** The old inode gets the new name and loses the old one. *)
Definition rename_insert (old_parent new_parent old_inode new_inode : ptr) (name newname : string) (e e' : ptr) : MW Z :=
  status ← BitbucketInsertDirectoryEntry new_parent old_inode newname e;
  if negb (status =? 0) then
    status2 ← BitbucketInsertDirectoryEntry new_parent new_inode newname e';
    c_assert (status2 =? 0);;
    mret status
  else BitbucketDeleteDirectoryEntry old_parent name.

(** What happens to the inode that has the new name. *)
Definition rename_replace (old_parent new_parent old_inode new_inode : ptr) (name newname : string) (flags : Z) (e e' : ptr) : MW Z :=
  if new_inode =? NULL then rename_insert old_parent new_parent old_inode new_inode name newname e e'
  else if new_inode =? RootDirectory BBud then mret EINVAL
  else if negb (Z.land flags RENAME_NOREPLACE =? 0) then mret EEXIST
  else if negb (Z.land flags RENAME_EXCHANGE =? 0) then BitbucketExchangeObjectsInDirectory old_parent new_parent name newname
  else
    i ← load_inode new_inode;
    full ← (if InodeType i =? BITBUCKET_DIR_TYPE then count ← BitbucketDirectoryEntryCount new_inode; mret (1 <? count)
            else mret false);
    if (full : bool) then mret ENOTEMPTY
    else
      status ← BitbucketDeleteDirectoryEntry new_parent newname;
      if negb (status =? 0) then mret status
      else rename_insert old_parent new_parent old_inode new_inode name newname e e'.

(** The status, and the two inodes that were found. *)
Definition rename_in (old_parent new_parent : ptr) (name newname : string) (flags : Z) (e e' : ptr) : MW (Z * ptr * ptr) :=
  i ← load_inode old_parent;
  j ← load_inode new_parent;
  if negb (InodeType i =? BITBUCKET_DIR_TYPE) || negb (InodeType j =? BITBUCKET_DIR_TYPE) then mret (ENOTDIR, NULL, NULL)
  else
    old_inode ← BitbucketLookupObjectInDirectory old_parent name;
    if old_inode =? NULL then mret (ENOENT, NULL, NULL)
    else if old_inode =? RootDirectory BBud then mret (EINVAL, old_inode, NULL)
    else
      new_inode ← BitbucketLookupObjectInDirectory new_parent newname;
      status ← rename_replace old_parent new_parent old_inode new_inode name newname flags e e';
      mret (status, old_inode, new_inode).

Definition dots (s : string) : bool := String.eqb s "." || String.eqb s "..".

Definition bitbucket_internal_rename (parent : Z) (name : string) (newparent : Z) (newname : string) (flags : Z) (e e' : ptr) :
    MW (Z * reply) :=
  if dots name || dots newname then mret (EINVAL, NoReply)
  else
    old_parent ← get_inode parent;
    new_parent ← get_inode newparent;
    '(status, old_inode, new_inode) ←
      (if (old_parent =? NULL) || (new_parent =? NULL) then mret (EBADF, NULL, NULL)
       else rename_in old_parent new_parent name newname flags e e');
    put_inode old_parent;;
    put_inode new_parent;;
    put_inode old_inode;;
    put_inode new_inode;;
    mret (status, ReplyErr status).

(** ** forget.c *)

Definition background_forget (ino nlookup : Z) : MW unit :=
  o ← BitbucketLookupInodeInTable ino;
  match o with
  | None => mret ()
  | Some inode =>
      BitbucketDereferenceInode inode INODE_FUSE_LOOKUP_REFERENCE nlookup;;
      BitbucketDereferenceInode inode INODE_LOOKUP_REFERENCE 1
  end.

Definition bitbucket_internal_forget (ino nlookup : Z) : MW (Z * reply) :=
  background_forget ino nlookup;; mret (0, ReplyNone).

Fixpoint forget_all (forgets : list (Z * Z)) : MW unit :=
  match forgets with
  | [] => mret ()
  | (ino, nlookup) :: forgets => background_forget ino nlookup;; forget_all forgets
  end.

Definition bitbucket_internal_forget_multi (forgets : list (Z * Z)) : MW (Z * reply) :=
  forget_all forgets;; mret (0, ReplyNone).

(** ** readdir.c *)

(** The loop that packs entries; it answers the status and what was packed. *)
Fixpoint pack_entries (fuel : nat) (ctx : dir_enum_context) (size used : Z) : MW (Z * list fuse_dirent) :=
  match fuel with
  | O => mthrow OutOfFuel
  | S fuel =>
      if negb (used + FUSE_NAME_OFFSET <? size) then mret (0, [])
      else
        '(dirEntry, ctx) ← BitbucketEnumerateDirectory ctx;
        if dirEntry =? NULL then mret (if used =? 0 then ENOENT else 0, [])
        else if LastError ctx =? ERESTART then c_assert (used =? 0);; mret (ERESTART, [])
        else
          x ← load_dirent dirEntry;
          i ← load_inode (de_Inode x);
          let entrySize := direntry_size (de_Name x) in
          if size - used <? entrySize then mret (0, [])
          else
            '(status, packed) ← pack_entries fuel ctx size (used + entrySize);
            mret (status, {| fd_ino := st_ino i; fd_off := Offset ctx; fd_type := dirent_type (st_mode i); fd_name := de_Name x |} :: packed)
  end.

(** With the directory locked.  [room] says that the buffer was allocated. *)
Definition readdir_locked (fuel : nat) (inode : ptr) (size off : Z) (room : bool) : MW (Z * option (list fuse_dirent)) :=
  i ← load_inode inode;
  if negb (S_ISDIR (st_mode i)) then mret (ENOTDIR, None)
  else if negb room then mret (ENOMEM, None)
  else
    ctx ← BitbucketInitalizeDirectoryEnumerationContext inode;
    '(status, ctx) ← (if off =? 0 then mret (0, ctx) else BitbucketSeekDirectory ctx off);
    if negb (status =? 0) then mret (status, Some [])
    else '(status, packed) ← pack_entries fuel ctx size 0; mret (status, Some packed).

(** A directory that is not found is locked all the same. *)
Definition bitbucket_internal_readdir (fuel : nat) (ino size off : Z) (room : bool) : MW (Z * reply) :=
  if off =? -1 then mret (0, ReplyBuf [])
  else
    inode ← get_inode ino;
    BitbucketLockInode inode false;;
    '(status, responseBuffer) ←
      (if inode =? NULL then mret (ENOENT, None) else readdir_locked fuel inode size off room);
    BitbucketUnlockInode inode;;
    put_inode inode;;
    (if negb (status =? 0) then mret (status, ReplyErr status)
     else match responseBuffer with Some packed => mret (status, ReplyBuf packed) | None => mthrow AssertFailed end).
End Handlers.
