(* ===== verification/TreePrograms.v ===== *)
(** Programs over trees, and what it is to implement one.

    [TM] is the monad of partial functions on trees.  A program of it says
    what a handler does with inodes, names and references, and is undefined
    where the code would stop or a count would overflow.  [implements Q m s]
    says that the code [m] does what [s] says and that their answers are
    related by [Q]; it goes through every construct of the code
    ([implements_bind]), so that a handler is verified by following its text:
    [implement_step] takes the next operation of both.

    Answers are compared without what a tree does not hold: the generation of
    an inode, which is its epoch. *)

From stdpp Require Import gmap list strings.
From S2P Require Import Prelude NameIndex Trie Object Xattr Inode InodeRules BitbucketData Tree Directory DirectoryRules DirectoryOps DirectoryExchange Directories Enumeration Updates Files Symlinks Handlers.

Open Scope word_scope.

(** * Programs over trees *)

Definition TM (R A : Type) : Type := tree R -> option (A * tree R).

#[export] Instance TM_ret {R} : MRet (TM R) := fun A a t => Some (a, t).
#[export] Instance TM_bind {R} : MBind (TM R) := fun A B k m t =>
  match m t with Some (a, t') => k a t' | None => None end.

Section Spec.
Context {R : Type}.
#[local] Notation tree := (tree R).
#[local] Notation TM := (TM R).

Definition t_fail {A} : TM A := fun _ => None.
Definition t_assert (b : bool) : TM unit := if b then mret () else t_fail.
Definition t_node (p : ptr) : TM node := fun t => n ← nodes t !! p; Some (n, t).

(** The inode with a number. *)
Definition by_number (ino : Z) (t : tree) : option ptr :=
  fst <$> head (filter (fun x : ptr * node => n_ino x.2 = ino) (map_to_list (nodes t))).

Definition t_take (p : ptr) (r : Z) : TM unit := fun t =>
  '(_, _, _, k) ← look t p; when (plain r /\ k + 1 < 2 ^ 32) (Some ((), hold p r t)).

(** Several references of a reason go, of which none is the last. *)
Definition drop_some (p : ptr) (r k : Z) (t : tree) : tree :=
  match counts t !! p with Some bag => set_counts <[p := bag_add r (- k) bag]> t | None => t end.

Definition t_drop_some (p : ptr) (r k : Z) : TM unit := fun t =>
  bag ← counts t !! p; when (plain r /\ 0 <= k <= default 0 (bag !! Z.to_nat r) /\ k < sum bag) (Some ((), drop_some p r k t)).

Definition t_drop (p : ptr) (r : Z) : TM unit := fun t => '(_, t') ← spec_release p r t; Some ((), t').

Definition t_find (ino : Z) : TM (option ptr) := fun t =>
  if ino =? 0 then None
  else match by_number ino t with
       | Some p => '(_, t') ← t_take p INODE_LOOKUP_REFERENCE t; Some (Some p, t')
       | None => Some (None, t)
       end.

Definition t_chmod (p : ptr) (f : Z -> Z) : TM unit := fun t =>
  n ← nodes t !! p; Some ((), set_nodes <[p := node_mode (f (n_mode n)) n]> t).

Definition node_stat (n : node) : stat := {| sa_ino := n_ino n; sa_mode := n_mode n; sa_nlink := n_links n; sa_size := n_size n |}.
(** ** Programs over trees, backwards *)

Lemma TM_bind_Some {A B} (m : TM A) (k : A -> TM B) t r :
  (m ≫= k) t = Some r -> exists a t1, m t = Some (a, t1) /\ k a t1 = Some r.
Proof. unfold mbind, TM_bind. destruct (m t) as [[a t1]|]; [|done]. eauto. Qed.

Lemma TM_bind_done {A B} (m : TM A) (k : A -> TM B) t a t1 : m t = Some (a, t1) -> (m ≫= k) t = k a t1.
Proof. intros Hm. unfold mbind, TM_bind. by rewrite Hm. Qed.

Lemma t_ret_Some {A} (a : A) t r : (mret a : TM A) t = Some r -> r = (a, t).
Proof. by intros [= <-]. Qed.

End Spec.

(** What is compared of an answer. *)
Definition strip (r : reply) : reply :=
  match r with
  | ReplyEntry ino _ attr => ReplyEntry ino 0 attr
  | ReplyCreate ino _ attr fh => ReplyCreate ino 0 attr fh
  | r => r
  end.

Section Implements.
Context {T : Type -> Type} `{NameIndex T} {R : Type} `{!Storage R}.
#[local] Notation world := (world T (instance T) (dir_state R) kind).
#[local] Notation MW := (M world).
#[local] Notation view := (view T (instance T) (dir_state R) kind).
#[local] Notation inode := (inode T (instance T) kind).
#[local] Notation tree := (tree R).
#[local] Notation TM := (TM R).
Implicit Types (v : view) (t : tree) (i : inode) (n : node) (p q e : ptr).

Definition implements {A B : Type} (Q : A -> B -> Prop) (m : MW A) (s : TM B) : Prop :=
  forall t b t', s t = Some (b, t') -> forall v, shows v t -> exists a v', runs m v a v' /\ Q a b /\ shows v' t'.

Lemma implements_ret {A B} (Q : A -> B -> Prop) a b : Q a b -> implements Q (mret a) (mret b).
Proof. intros Hq t b' t' [= <- <-] v Hv. exists a, v. split; [apply runs_ret|done]. Qed.

Lemma implements_bind {A B C D} (P : A -> B -> Prop) (Q : C -> D -> Prop) (m : MW A) (s : TM B) k k' :
  implements P m s -> (forall a b, P a b -> implements Q (k a) (k' b)) -> implements Q (m ≫= k) (s ≫= k').
Proof.
  intros Hm Hk t d t2 Hs v Hv. unfold mbind, TM_bind in Hs. destruct (s t) as [[b t1]|] eqn:E; [|done].
  destruct (Hm t b t1 E v Hv) as (a & v1 & Hr & Hp & Hv1). destruct (Hk a b Hp t1 d t2 Hs v1 Hv1) as (c & v2 & Hr2 & Hq & Hv2).
  exists c, v2. split; [|done]. by eapply runs_bind.
Qed.

Lemma implements_does {A} (m : MW A) (s : TM A) : (forall t r t', s t = Some (r, t') -> does m t r t') -> implements eq m s.
Proof. intros Hm t b t' Hs v Hv. destruct (Hm t b t' Hs v Hv) as (v' & Hr & Hv'). by exists b, v'. Qed.

Lemma implements_weaken {A B} (P Q : A -> B -> Prop) m s : (forall a b, P a b -> Q a b) -> implements P m s -> implements Q m s.
Proof.
  intros Hpq Hm t b t' Hs v Hv. destruct (Hm t b t' Hs v Hv) as (a & v' & ? & ? & ?). exists a, v'. split; [done|]. split; [by apply Hpq|done].
Qed.

Lemma implements_assert b : implements eq (c_assert b) (t_assert b).
Proof. apply implements_does. intros t r t'. destruct b; [|done]. intros [= <- <-]. by apply does_assert. Qed.

(** ** The primitives *)

Lemma implements_load p : implements shows_inode (load_inode p) (t_node p).
Proof.
  intros t n t' Hs v Hv. apply bind_Some in Hs as (n' & Hn & [= <- <-]). destruct (sh_node _ _ Hv p n' Hn) as (i & Hi & _ & Hsi).
  exists i, v. split; [by apply runs_load|done].
Qed.

Lemma implements_take p r : implements eq (BitbucketReferenceInode p r) (t_take p r).
Proof.
  apply implements_does. intros t [] t' Hs. apply does_wf. intros Hw. unfold t_take in Hs.
  apply bind_Some in Hs as ([[[ty par] names] k] & Hl & Hs). apply when_Some in Hs as [[Hp Hk] [= <-]].
  destruct (look_looks _ _ _ _ _ _ Hw Hl) as (n & bag & Hn & _ & _ & _ & Hbag & _ & <-). by eapply does_reference.
Qed.

Lemma implements_drop p r : implements eq (BitbucketDereferenceInode p r 1) (t_drop p r).
Proof.
  apply implements_does. intros t [] t' Hs. unfold t_drop in Hs. apply bind_Some in Hs as ([x t1] & Hs & [= <-]). by eapply does_release.
Qed.

Lemma does_drop_some p r k t bag :
  counts t !! p = Some bag -> plain r -> 0 <= k <= default 0 (bag !! Z.to_nat r) -> k < sum bag ->
  does (BitbucketDereferenceInode p r k) t tt (drop_some p r k t).
Proof.
  intros Hp Hr Hk Hlt v Hv. pose proof (shows_wf _ _ Hv) as Hw. exists (set_refs <[p := bag_add r (- k) bag]> v). split.
  { apply runs_dereference; [by rewrite (sh_refs _ _ Hv)|apply Hr|done|done]. }
  unfold drop_some. rewrite Hp. pose proof Hv as [_ []]. split; [|constructor; cbn; try done; by rewrite sh_refs].
  destruct (bag_lookup _ _ _ t p bag r Hw Hp (proj1 Hr)) as (x & Hx & Hx0). rewrite Hx in Hk. cbn in Hk.
  pose proof Hw as []. constructor; cbn; try done.
  - intros q. rewrite wf_dom. destruct (decide (p = q)) as [<-|Hne]; [rewrite lookup_insert_eq, Hp; split; eauto|by rewrite lookup_insert_ne].
  - intros q b [[<- <-]|[_ Hq]]%lookup_insert_Some; [|by eapply wf_bag]. destruct (wf_bag p bag Hp) as (Hl & Hf & Hs).
    rewrite bag_add_length, (bag_sum _ _ _ x) by done. split; [done|]. split; [|lia].
    rewrite (bag_add_eq _ _ _ _ Hx). apply Forall_insert; [done|lia].
  - intros q b [[<- <-]|[_ Hq]]%lookup_insert_Some; [|by eapply wf_dirents]. rewrite bag_other; [by apply wf_dirents|].
    destruct Hr as (? & ? & ?). unfold INODE_PARENT_REFERENCE, INODE_DIRENT_REFERENCE in *. lia.
  - intros q b [[<- <-]|[_ Hq]]%lookup_insert_Some; [|by eapply wf_parents]. rewrite bag_other; [by apply wf_parents|].
    destruct Hr as (? & ? & ?). unfold INODE_PARENT_REFERENCE, INODE_DIRENT_REFERENCE in *. lia.
Qed.

Lemma implements_drop_some p r k : implements eq (BitbucketDereferenceInode p r k) (t_drop_some p r k).
Proof.
  apply implements_does. intros t [] t' Hs. unfold t_drop_some in Hs. apply bind_Some in Hs as (bag & Hbag & Hs).
  apply when_Some in Hs as [(Hr & Hk & Hlt) [= <-]]. by eapply does_drop_some.
Qed.

Lemma by_number_Some ino t p : by_number ino t = Some p -> exists n, nodes t !! p = Some n /\ n_ino n = ino.
Proof.
  unfold by_number. destruct (filter _ _) as [|[q n] l] eqn:E; [done|]. intros [= ->]. exists n.
  assert ((p, n) ∈ (p, n) :: l) as Hin by left. rewrite <- E in Hin. apply list_elem_of_filter in Hin as [Hn Hin].
  by apply elem_of_map_to_list in Hin.
Qed.

Lemma by_number_None ino t p n : by_number ino t = None -> nodes t !! p = Some n -> n_ino n <> ino.
Proof.
  unfold by_number. destruct (filter _ _) as [|[q m] l] eqn:E; [|done]. intros _ Hn Hino.
  assert ((p, n) ∈ (@nil (ptr * node))) as Hin; [|by apply elem_of_nil in Hin]. rewrite <- E.
  apply list_elem_of_filter. split; [done|]. by apply elem_of_map_to_list.
Qed.

Lemma shows_unused v t ino : shows v t -> by_number ino t = None -> unused ino v.
Proof.
  intros Hv E p bag i Hp Hi. rewrite (sh_refs _ _ Hv) in Hp.
  destruct (proj2 (wf_dom _ _ _ _ (shows_wf _ _ Hv) p) ltac:(eauto)) as [n Hn].
  destruct (sh_node _ _ Hv p n Hn) as (j & Hj & _ & Hsj). simplify_eq. rewrite (sn_ino _ _ Hsj). by eapply by_number_None.
Qed.

Lemma implements_find ino : implements eq (BitbucketLookupInodeInTable ino) (t_find ino).
Proof.
  apply implements_does. intros t r t' Hs v Hv. unfold t_find in Hs. destruct (Z.eqb_spec ino 0) as [->|Hz]; [done|].
  destruct (by_number ino t) as [p|] eqn:E.
  - destruct (by_number_Some ino t p E) as (n & Hn & Hino). unfold t_take in Hs.
    apply bind_Some in Hs as ([[] t1] & Hs & [= <- <-]). apply bind_Some in Hs as ([[[ty par] names] k] & Hl & Hs).
    apply when_Some in Hs as [Hd [= <-]].
    destruct (look_looks _ _ _ _ _ _ (shows_wf _ _ Hv) Hl) as (n' & bag & Hn' & _ & _ & _ & Hbag & _ & <-).
    destruct (sh_node _ _ Hv p n Hn) as (i & Hi & _ & Hsi). eexists. split; [|apply shows_hold; [done|exact Hbag|apply Hd|apply Hd]].
    eapply runs_lookup_found; [by rewrite (sh_refs _ _ Hv)|done|by rewrite (sn_ino _ _ Hsi)|apply Hd].
  - injection Hs as <- <-. exists v. split; [|done]. apply runs_lookup_missing; [done|]. by eapply shows_unused.
Qed.

Lemma implements_chmod p f : implements eq (update_inode p (fun i => with_mode (f (st_mode i)) i)) (t_chmod p f).
Proof.
  apply implements_does. intros t [] t' Hs. apply does_wf. intros Hw. apply bind_Some in Hs as (n & Hn & [= <-]).
  eapply does_update; [exact Hn|]. apply changes_mode. by eapply wf_base.
Qed.
End Implements.

(** * What the handlers have in common *)

Section Shared.
Context {R : Type} (BBud : userdata).
#[local] Notation TM := (TM R).

Definition t_get (ino : Z) : TM ptr :=
  if FUSE_ROOT_ID =? ino then t_take (RootDirectory BBud) INODE_LOOKUP_REFERENCE;; mret (RootDirectory BBud)
  else o ← t_find ino; mret (default NULL o).

Definition t_put (p : ptr) : TM unit := if p =? NULL then mret () else t_drop p INODE_LOOKUP_REFERENCE.

Definition t_stat (p : ptr) : TM stat := n ← t_node p; mret (node_stat n).
Definition t_entry (p : ptr) : TM reply := n ← t_node p; attr ← t_stat p; mret (ReplyEntry (n_ino n) 0 attr).

Definition t_make_dir (p : ptr) (name : string) (c e1 e2 e3 : ptr) : TM ptr := spec_op (MakeDir p name 0 c e1 e2 e3).

End Shared.

Section Operations.
Context {T : Type -> Type} `{NameIndex T} {R : Type} `{!Storage R} (BBud : userdata).
#[local] Notation world := (world T (instance T) (dir_state R) kind).
#[local] Notation MW := (M world).
#[local] Notation view := (view T (instance T) (dir_state R) kind).
#[local] Notation tree := (tree R).
#[local] Notation TM := (TM R).

#[local] Notation implements := (implements (T := T) (R := R)).

(** The status is the same, and so is what is compared of the reply. *)
Definition same_answer (a b : Z * reply) : Prop := a.1 = b.1 /\ strip a.2 = b.2.
Definition same_child (a b : ptr * (Z * reply)) : Prop := a.1 = b.1 /\ same_answer a.2 b.2.

Lemma implements_same {A} (m : MW A) s : (forall t r t', s t = Some (r, t') -> sound t -> does m t r t') -> implements eq m s.
Proof. intros Hm. apply implements_does. intros t r t' Hs. apply does_wf. intros Hw. by apply Hm. Qed.

Lemma implements_dir_lookup p s : implements eq (BitbucketLookupObjectInDirectory p s) (spec_lookup p s).
Proof. apply implements_same. intros. by apply does_spec_lookup. Qed.

Lemma implements_delete p s : implements eq (BitbucketDeleteDirectoryEntry p s) (spec_delete p s).
Proof. apply implements_same. intros. by apply does_spec_delete. Qed.

Lemma implements_delete_dir p : implements eq (BitbucketDeleteDirectory p) (spec_rmdir p).
Proof. apply implements_same. intros. by apply does_spec_rmdir. Qed.

Lemma implements_count p : implements eq (BitbucketDirectoryEntryCount p) (spec_op (Count p)).
Proof. apply implements_same. intros. by apply (does_spec (Count p)). Qed.

Lemma implements_make_dir p s epoch c e1 e2 e3 :
  implements eq (BitbucketCreateDirectory p s epoch c e1 e2 e3) (t_make_dir p s c e1 e2 e3).
Proof. apply implements_same. intros. by apply (does_spec (MakeDir p s epoch c e1 e2 e3)). Qed.

Lemma implements_insert p q s e : implements eq (BitbucketInsertDirectoryEntry p q s e) (spec_insert p q s e).
Proof. apply implements_same. intros. by apply does_spec_insert. Qed.

Lemma implements_remove_file p s : implements eq (BitbucketRemoveFileFromDirectory p s) (spec_remove_file p s).
Proof. apply implements_does. intros. by apply does_remove_file. Qed.

Lemma implements_exchange p q s s' : implements eq (BitbucketExchangeObjectsInDirectory p q s s') (spec_exchange p q s s').
Proof. apply implements_same. intros. by apply does_spec_exchange. Qed.

Lemma implements_get ino : implements eq (get_inode BBud ino) (t_get BBud ino).
Proof.
  unfold get_inode, t_get. destruct (FUSE_ROOT_ID =? ino); (eapply implements_bind; [apply implements_take || apply implements_find|]).
  - intros _ _ _. by apply implements_ret.
  - intros o o' <-. by apply implements_ret.
Qed.

Lemma implements_put p : implements eq (put_inode p) (t_put p).
Proof. unfold put_inode, t_put. destruct (p =? NULL); [by apply implements_ret|apply implements_drop]. Qed.

Lemma implements_stat p : implements eq (attributes p) (t_stat p).
Proof.
  eapply implements_bind; [apply implements_load|]. intros i n Hi. apply implements_ret. unfold node_stat.
  by rewrite (sn_ino _ _ Hi), (sn_mode _ _ Hi), (sn_links _ _ Hi), (sn_size _ _ Hi).
Qed.

Lemma implements_entry p : implements (fun a b => strip a = b) (entry_param p) (t_entry p).
Proof.
  eapply implements_bind; [apply implements_load|]. intros i n Hi. eapply implements_bind; [apply implements_stat|].
  intros a b <-. apply implements_ret. cbn. by rewrite (sn_ino _ _ Hi).
Qed.

End Operations.

(** One step of a handler and of its meaning. *)
Ltac implement_primitive :=
  lazymatch goal with
  | |- implements _ (load_inode _) _ => apply implements_load
  | |- implements _ (c_assert _) _ => apply implements_assert
  | |- implements _ (BitbucketReferenceInode _ _) _ => apply implements_take
  | |- implements _ (BitbucketDereferenceInode _ _ _) (t_drop _ _) => apply implements_drop
  | |- implements _ (BitbucketDereferenceInode _ _ _) _ => apply implements_drop_some
  | |- implements _ (BitbucketLookupInodeInTable _) _ => apply implements_find
  | |- implements _ (get_inode _ _) _ => apply implements_get
  | |- implements _ (put_inode _) _ => apply implements_put
  | |- implements _ (attributes _) _ => apply implements_stat
  | |- implements _ (entry_param _) _ => apply implements_entry
  | |- implements _ (BitbucketLookupObjectInDirectory _ _) _ => apply implements_dir_lookup
  | |- implements _ (BitbucketDeleteDirectoryEntry _ _) _ => apply implements_delete
  | |- implements _ (BitbucketDeleteDirectory _) _ => apply implements_delete_dir
  | |- implements _ (BitbucketDirectoryEntryCount _) _ => apply implements_count
  | |- implements _ (BitbucketCreateDirectory _ _ _ _ _ _ _) _ => apply implements_make_dir
  | |- implements _ (BitbucketInsertDirectoryEntry _ _ _ _) _ => apply implements_insert
  | |- implements _ (BitbucketRemoveFileFromDirectory _ _) _ => apply implements_remove_file
  | |- implements _ (BitbucketExchangeObjectsInDirectory _ _ _ _) _ => apply implements_exchange
  end.
Ltac implement_step := eapply implements_bind; [implement_primitive|].
Ltac implement_same := eapply implements_bind; [implement_primitive|intros ? ? <-].
Ltac implement_answer := apply implements_ret; (split; [done|]); cbn; try done; congruence.

