(* ===== verification/Namespace.v ===== *)
(** What the requests for names mean: the handlers of Handlers.v over trees,
    and the proof that they implement them. *)

From stdpp Require Import gmap list strings.
From S2P Require Import Prelude NameIndex Trie Object Xattr Inode InodeRules BitbucketData Tree Directory DirectoryRules DirectoryOps DirectoryExchange Directories Enumeration Files Handlers TreePrograms.

Open Scope word_scope.

(** * The handlers *)

Section Requests.
Context {R : Type} (BBud : userdata).
#[local] Notation TM := (TM R).
#[local] Notation t_get := (t_get BBud).

Definition t_lookup (parent : Z) (name : string) : TM (Z * reply) :=
  p ← t_get parent;
  if p =? NULL then mret (EBADF, ReplyErr EBADF)
  else
    q ← spec_lookup p name;
    answer ← (if q =? NULL then mret (ENOENT, ReplyErr ENOENT)
      else fep ← t_entry q; t_take q INODE_FUSE_LOOKUP_REFERENCE;; mret (0, fep));
    t_put p;; t_put q;; mret answer.

Definition t_getattr (ino : Z) : TM (Z * reply) :=
  p ← t_get ino;
  if p =? NULL then mret (EBADF, ReplyErr EBADF) else attr ← t_stat p; t_put p;; mret (0, ReplyAttr attr).

(** Any access is granted. *)
Definition t_access (ino mask : Z) : TM (Z * reply) :=
  p ← t_get ino;
  status ← (if p =? NULL then mret EBADF else n ← t_node p; mret 0);
  t_put p;; mret (status, ReplyErr status).

Definition t_opendir (ino : Z) : TM (Z * reply) :=
  p ← t_get ino;
  status ← (if p =? NULL then mret ENOENT else n ← t_node p; mret (if S_ISDIR (n_mode n) then 0 else ENOTDIR));
  (if p =? NULL then mret () else t_take p INODE_FUSE_OPENDIR_REFERENCE;; t_drop p INODE_LOOKUP_REFERENCE);;
  mret (status, if status =? 0 then ReplyOpen NULL else ReplyErr status).

Definition t_releasedir (ino : Z) : TM (Z * reply) :=
  p ← t_get ino;
  if p =? NULL then mret (EBADF, ReplyErr EBADF)
  else t_drop p INODE_FUSE_OPENDIR_REFERENCE;; t_drop p INODE_LOOKUP_REFERENCE;; mret (0, ReplyErr 0).

Definition t_mkdir (parent : Z) (name : string) (mode : Z) (c e1 e2 e3 : ptr) : TM (Z * reply) :=
  p ← t_get parent;
  '(child, answer) ← (if p =? NULL then mret (NULL, (ENOENT, ReplyErr ENOENT))
    else
      n ← t_node p;
      if negb (S_ISDIR (n_mode n)) then mret (NULL, (ENOTDIR, ReplyErr ENOTDIR))
      else
        child ← t_make_dir p name c e1 e2 e3;
        if child =? NULL then mret (NULL, (EEXIST, ReplyErr EEXIST))
        else
          t_chmod child (fun m => Z.lor (Z.land m S_IFMT) (Z.land mode (wnot 32 S_IFMT)));;
          fep ← t_entry child; mret (child, (0, fep)));
  (if answer.1 =? 0 then t_assert (negb (child =? NULL));; t_take child INODE_FUSE_LOOKUP_REFERENCE else mret ());;
  t_put p;; t_put child;; mret answer.

Definition t_rmdir_child (p c : ptr) (name : string) : TM Z :=
  n ← t_node c;
  if negb (n_type n =? BITBUCKET_DIR_TYPE) then mret ENOTDIR
  else
    count ← spec_op (Count c);
    if 2 <? u32 count then mret ENOTEMPTY
    else
      status ← spec_delete p name;
      if negb (status =? 0) then mret status
      else status ← spec_rmdir c; t_assert (status =? 0);; t_drop c INODE_LOOKUP_REFERENCE;; mret status.

Definition t_rmdir (parent : Z) (name : string) : TM (Z * reply) :=
  p ← t_get parent;
  status ← (if p =? NULL then mret EBADF
    else
      n ← t_node p;
      if negb (n_type n =? BITBUCKET_DIR_TYPE) then mret ENOTDIR
      else c ← spec_lookup p name; if c =? NULL then mret ENOENT else t_rmdir_child p c name);
  t_put p;; mret (status, ReplyErr status).

Definition t_unlink (parent : Z) (name : string) : TM (Z * reply) :=
  p ← t_get parent;
  status ← (if p =? NULL then mret EBADF
    else n ← t_node p; if negb (n_type n =? BITBUCKET_DIR_TYPE) then mret EISDIR else spec_delete p name);
  t_put p;; mret (status, ReplyErr status).

Definition t_forget (ino nlookup : Z) : TM unit :=
  o ← t_find ino;
  match o with
  | None => mret ()
  | Some p => t_drop_some p INODE_FUSE_LOOKUP_REFERENCE nlookup;; t_drop p INODE_LOOKUP_REFERENCE
  end.

Fixpoint t_link_loop (fuel : nat) (parent inode : ptr) (newname : string) (es : list ptr) : TM Z :=
  match fuel, es with
  | S fuel, e :: es =>
      status ← spec_insert parent inode newname e;
      if status =? EEXIST then
        status ← spec_remove_file parent newname;
        if status =? EEXIST then t_link_loop fuel parent inode newname es else mret status
      else mret status
  | _, _ => t_fail
  end.

Definition t_link (ino newparent : Z) (newname : string) (es : list ptr) : TM (Z * reply) :=
  if FUSE_ROOT_ID =? ino then mret (EISDIR, ReplyErr EISDIR)
  else
    o ← t_find ino;
    let inode := default NULL o in
    if inode =? NULL then mret (EBADF, ReplyErr EBADF)
    else
      parent ← t_get newparent;
      answer ← (if parent =? NULL then mret (EBADF, ReplyErr EBADF)
        else
          n ← t_node inode;
          if negb (n_type n =? BITBUCKET_FILE_TYPE) then
            (if n_type n =? BITBUCKET_DIR_TYPE then mret (EISDIR, ReplyErr EISDIR) else mret (EINVAL, ReplyErr EINVAL))
          else
            _ ← t_link_loop (length es) parent inode newname es;
            fep ← t_entry inode; t_take inode INODE_FUSE_LOOKUP_REFERENCE;; mret (0, fep));
      t_put inode;; t_put parent;; mret answer.

Definition t_make_file (p : ptr) (name : string) (c e : ptr) : TM ptr := fun t =>
  '(_, names, _) ← look_dir t p;
  when (names !! name = None /\ good_name name /\ makeable c t /\ fresh_entries [e] t) (Some (c, make_file p c name e t)).

(** Devices, pipes, sockets and symbolic links are not made. *)
Definition t_create_object (p : ptr) (name : string) (mask : Z) (c e1 e2 e3 : ptr) : TM ptr :=
  if mask =? S_IFDIR then t_make_dir p name c e1 e2 e3
  else if (mask =? S_IFCHR) || (mask =? S_IFBLK) then t_fail
  else if (mask =? 0) || (mask =? S_IFREG) then t_make_file p name c e1
  else if (mask =? S_IFIFO) || (mask =? S_IFLNK) || (mask =? S_IFSOCK) then t_fail
  else mret NULL.

Definition t_create (parent : Z) (name : string) (mode : Z) (c e1 e2 e3 : ptr) : TM (Z * reply) :=
  p ← t_get parent;
  if p =? NULL then mret (EBADF, ReplyErr EBADF)
  else
    found ← spec_lookup p name;
    '(q, answer) ← (if negb (found =? NULL) then mret (found, (EEXIST, ReplyErr EEXIST))
      else
        let mask := Z.land mode S_IFMT in
        q ← t_create_object p name mask c e1 e2 e3;
        if q =? NULL then mret (NULL, (EINVAL, ReplyErr EINVAL))
        else
          t_chmod q (fun _ => Z.lor mask (Z.land mode ALLPERMS));;
          n ← t_node q; attr ← t_stat q; mret (q, (0, ReplyCreate (n_ino n) 0 attr q)));
    q ← (if answer.1 =? 0 then
        t_assert (negb (q =? NULL));;
        t_take q INODE_FUSE_LOOKUP_REFERENCE;; t_take q INODE_FUSE_OPEN_REFERENCE;; t_drop q INODE_LOOKUP_REFERENCE;; mret NULL
      else mret q);
    t_assert (q =? NULL);; t_put p;; mret answer.

Definition t_rename_insert (old_parent new_parent old_inode new_inode : ptr) (name newname : string) (e e' : ptr) : TM Z :=
  status ← spec_insert new_parent old_inode newname e;
  if negb (status =? 0) then
    status2 ← spec_insert new_parent new_inode newname e'; t_assert (status2 =? 0);; mret status
  else spec_delete old_parent name.

Definition t_rename_replace (old_parent new_parent old_inode new_inode : ptr) (name newname : string) (flags : Z) (e e' : ptr) : TM Z :=
  if new_inode =? NULL then t_rename_insert old_parent new_parent old_inode new_inode name newname e e'
  else if new_inode =? RootDirectory BBud then mret EINVAL
  else if negb (Z.land flags RENAME_NOREPLACE =? 0) then mret EEXIST
  else if negb (Z.land flags RENAME_EXCHANGE =? 0) then spec_exchange old_parent new_parent name newname
  else
    n ← t_node new_inode;
    full ← (if n_type n =? BITBUCKET_DIR_TYPE then count ← spec_op (Count new_inode); mret (1 <? count) else mret false);
    if (full : bool) then mret ENOTEMPTY
    else
      status ← spec_delete new_parent newname;
      if negb (status =? 0) then mret status
      else t_rename_insert old_parent new_parent old_inode new_inode name newname e e'.

Definition t_rename_in (old_parent new_parent : ptr) (name newname : string) (flags : Z) (e e' : ptr) : TM (Z * ptr * ptr) :=
  n ← t_node old_parent;
  n' ← t_node new_parent;
  if negb (n_type n =? BITBUCKET_DIR_TYPE) || negb (n_type n' =? BITBUCKET_DIR_TYPE) then mret (ENOTDIR, NULL, NULL)
  else
    old_inode ← spec_lookup old_parent name;
    if old_inode =? NULL then mret (ENOENT, NULL, NULL)
    else if old_inode =? RootDirectory BBud then mret (EINVAL, old_inode, NULL)
    else
      new_inode ← spec_lookup new_parent newname;
      status ← t_rename_replace old_parent new_parent old_inode new_inode name newname flags e e';
      mret (status, old_inode, new_inode).

Definition t_rename (parent : Z) (name : string) (newparent : Z) (newname : string) (flags : Z) (e e' : ptr) : TM (Z * reply) :=
  if dots name || dots newname then mret (EINVAL, NoReply)
  else
    old_parent ← t_get parent;
    new_parent ← t_get newparent;
    '(status, old_inode, new_inode) ←
      (if (old_parent =? NULL) || (new_parent =? NULL) then mret (EBADF, NULL, NULL)
       else t_rename_in old_parent new_parent name newname flags e e');
    t_put old_parent;; t_put new_parent;; t_put old_inode;; t_put new_inode;;
    mret (status, ReplyErr status).
End Requests.

(** * The handlers implement their meaning *)

Section Refinement.
Context {T : Type -> Type} `{NameIndex T} {R : Type} `{!Storage R} (BBud : userdata).
#[local] Notation world := (world T (instance T) (dir_state R) kind).
#[local] Notation MW := (M world).
#[local] Notation view := (view T (instance T) (dir_state R) kind).
#[local] Notation tree := (tree R).
#[local] Notation TM := (TM R).

#[local] Notation implements := (implements (T := T) (R := R)).

Lemma implements_make_file p s uuid epoch c e :
  implements eq (BitbucketCreateFile p s None uuid epoch c e) (t_make_file p s c e).
Proof.
  apply implements_same. intros t r t' Hs Hw. apply bind_Some in Hs as ([[par names] k] & Hl & Hs).
  apply when_Some in Hs as [(Hfree & Hname & Hc & He) [= <- <-]]. apply look_dir_looks in Hl; [|done].
  apply fresh_entries_ok in He as [_ [He _]%Forall_cons]. apply makeable_can_make in Hc. by eapply does_create_file.
Qed.

Lemma lookup_implements parent name : implements same_answer (bitbucket_internal_lookup BBud parent name) (t_lookup BBud parent name).
Proof.
  implement_same. case_match; [implement_answer|]. implement_same.
  eapply (implements_bind same_answer).
  - case_match; [implement_answer|]. implement_step. intros fep fep' Hfep. implement_same. implement_answer.
  - intros answer answer' Ha. implement_same. implement_same. by apply implements_ret.
Qed.

Lemma getattr_implements ino : implements same_answer (bitbucket_internal_getattr BBud ino) (t_getattr BBud ino).
Proof.
  implement_same. case_match; [implement_answer|]. implement_step. intros attr attr' Hattr. implement_same. implement_answer.
Qed.

(** The handle of the inode itself changes nothing; the handle of another
    inode fails the assertion. *)
Lemma getattr_open_same fh n v t r v' :
  shows v t -> nodes t !! fh = Some n -> runs (bitbucket_internal_getattr BBud (n_ino n)) v r v' ->
  runs (bitbucket_internal_getattr_open BBud fh (n_ino n)) v r v'.
Proof.
  intros Hv Hn Hr. destruct (sh_node _ _ Hv fh n Hn) as (i & Hi & Hu & Hs).
  eapply runs_bind; [|exact Hr]. step_with ltac:(apply (runs_check_inode fh i); [done|apply Hs]).
  step_with ltac:(by apply runs_load). apply runs_assert, Z.eqb_eq. symmetry. apply Hs.
Qed.

Lemma getattr_open_other fh n ino v t :
  shows v t -> nodes t !! fh = Some n -> n_ino n <> ino -> fails (bitbucket_internal_getattr_open BBud fh ino) v AssertFailed.
Proof.
  intros Hv Hn Hne. destruct (sh_node _ _ Hv fh n Hn) as (i & Hi & Hu & Hs).
  apply fails_here. eapply fails_later; [apply (runs_check_inode fh i); [done|apply Hs]|].
  eapply fails_later; [by apply runs_load|]. rewrite (proj2 (Z.eqb_neq _ _)); [by intros w Hw|].
  rewrite (sn_ino _ _ Hs). congruence.
Qed.

Lemma access_implements ino mask : implements same_answer (bitbucket_internal_access BBud ino mask) (t_access BBud ino mask).
Proof.
  implement_same. eapply (implements_bind eq).
  - case_match; [by apply implements_ret|]. implement_step. intros i n Hi. by apply implements_ret.
  - intros st st' <-. implement_same. implement_answer.
Qed.

Lemma opendir_implements ino : implements same_answer (bitbucket_internal_opendir BBud ino) (t_opendir BBud ino).
Proof.
  implement_same. eapply (implements_bind eq).
  - case_match; [by apply implements_ret|]. implement_step. intros i n Hi. apply implements_ret. by rewrite (sn_mode _ _ Hi).
  - intros st st' <-. eapply (implements_bind eq).
    + case_match; [by apply implements_ret|]. implement_same. apply implements_drop.
    + intros ? ? _. apply implements_ret. split; [done|]. cbn. by case_match.
Qed.

Lemma releasedir_implements ino : implements same_answer (bitbucket_internal_releasedir BBud ino) (t_releasedir BBud ino).
Proof. implement_same. case_match; [implement_answer|]. implement_same. implement_same. implement_answer. Qed.

Lemma mkdir_implements parent name mode epoch c e1 e2 e3 :
  implements same_answer (bitbucket_internal_mkdir BBud parent name mode epoch c e1 e2 e3) (t_mkdir BBud parent name mode c e1 e2 e3).
Proof.
  implement_same. eapply (implements_bind same_child).
  - case_match; [by apply implements_ret|]. implement_step. intros i n Hi. rewrite (sn_mode _ _ Hi). case_match; [by apply implements_ret|].
    implement_same. case_match; [by apply implements_ret|]. eapply implements_bind; [apply (implements_chmod _ (fun m => Z.lor (Z.land m S_IFMT) (Z.land mode (wnot 32 S_IFMT))))|].
    intros ? ? <-.
    implement_step. intros fep fep' Hfep. apply implements_ret. done.
  - intros [child answer] [child' answer'] [Hc Ha]. cbn in Hc. subst child'. cbn in Ha.
    eapply (implements_bind eq); [|intros ? ? _; implement_same; implement_same; by apply implements_ret].
    destruct Ha as [-> _]. case_match; [|by apply implements_ret]. implement_same. apply implements_take.
Qed.

Lemma rmdir_child_implements p c name : implements eq (rmdir_child p c name) (t_rmdir_child p c name).
Proof.
  implement_step. intros i n Hi. rewrite (sn_type _ _ Hi). case_match; [by apply implements_ret|]. implement_same.
  case_match; [by apply implements_ret|]. implement_same. case_match; [by apply implements_ret|]. do 3 implement_same. by apply implements_ret.
Qed.

Lemma rmdir_implements parent name : implements same_answer (bitbucket_internal_rmdir BBud parent name) (t_rmdir BBud parent name).
Proof.
  implement_same. eapply (implements_bind eq).
  - case_match; [by apply implements_ret|]. implement_step. intros i n Hi. rewrite (sn_type _ _ Hi).
    case_match; [by apply implements_ret|]. implement_same. case_match; [by apply implements_ret|]. apply rmdir_child_implements.
  - intros st st' <-. implement_same. implement_answer.
Qed.

Lemma unlink_implements parent name : implements same_answer (bitbucket_internal_unlink BBud parent name) (t_unlink BBud parent name).
Proof.
  implement_same. eapply (implements_bind eq).
  - case_match; [by apply implements_ret|]. implement_step. intros i n Hi. rewrite (sn_type _ _ Hi).
    case_match; [by apply implements_ret|]. apply implements_delete.
  - intros st st' <-. implement_same. implement_answer.
Qed.

Lemma background_forget_implements ino nlookup : implements eq (background_forget ino nlookup) (t_forget ino nlookup).
Proof. implement_same. case_match; [|by apply implements_ret]. implement_same. apply implements_drop. Qed.

Lemma link_loop_implements fuel parent inode newname : forall es,
  implements eq (link_loop fuel parent inode newname es) (t_link_loop fuel parent inode newname es).
Proof.
  induction fuel as [|fuel IH]; intros [|e es]; cbn [link_loop t_link_loop]; try (intros t b t' [=]; fail).
  implement_same. case_match; [|by apply implements_ret]. implement_same. case_match; [apply IH|by apply implements_ret].
Qed.

Lemma link_implements ino newparent newname es :
  implements same_answer (bitbucket_internal_link BBud ino newparent newname es) (t_link BBud ino newparent newname es).
Proof.
  unfold bitbucket_internal_link, t_link. case_match; [implement_answer|]. implement_same. cbv zeta. case_match; [implement_answer|].
  implement_same. eapply (implements_bind same_answer).
  - case_match; [implement_answer|]. implement_step. intros i n Hi. rewrite (sn_type _ _ Hi). case_match; [case_match; implement_answer|].
    eapply implements_bind; [apply link_loop_implements|]. intros ? ? _. implement_step. intros fep fep' Hfep. implement_same. implement_answer.
  - intros answer answer' Ha. implement_same. implement_same. by apply implements_ret.
Qed.

Lemma create_object_implements p name mask uuid epoch c e1 e2 e3 :
  StorageDir BBud = None ->
  implements eq (create_object BBud p name mask uuid epoch c e1 e2 e3) (t_create_object p name mask c e1 e2 e3).
Proof.
  assert (forall (m : MW ptr), implements eq m t_fail) as Hfail by (intros m t b t' [=]).
  intros Hst. unfold create_object, t_create_object. rewrite Hst. case_match; [apply implements_make_dir|].
  repeat (case_match; cbn [orb]; try apply Hfail); try apply implements_make_file; by apply implements_ret.
Qed.

Lemma create_implements parent name mode uuid epoch c e1 e2 e3 :
  StorageDir BBud = None ->
  implements same_answer (bitbucket_internal_create BBud parent name mode uuid epoch c e1 e2 e3) (t_create BBud parent name mode c e1 e2 e3).
Proof.
  intros Hst. implement_same. case_match; [implement_answer|]. implement_same. eapply (implements_bind same_child).
  - case_match; [by apply implements_ret|]. cbv zeta. eapply implements_bind; [by apply create_object_implements|]. intros q q' <-.
    case_match; [by apply implements_ret|]. eapply implements_bind; [apply (implements_chmod _ (fun _ => _))|]. intros ? ? <-.
    implement_step. intros i n Hi. implement_step. intros attr attr' <-. apply implements_ret. split; [done|]. split; [done|].
    cbn. by rewrite (sn_ino _ _ Hi).
  - intros [q answer] [q' answer'] [Hq Ha]. cbn in Hq. subst q'. cbn in Ha.
    eapply (implements_bind eq); [|intros q1 q2 <-; implement_same; implement_same; by apply implements_ret].
    destruct Ha as [-> _]. case_match; [|by apply implements_ret]. do 4 implement_same. by apply implements_ret.
Qed.

Lemma rename_insert_implements old_parent new_parent old_inode new_inode name newname e e' :
  implements eq (rename_insert old_parent new_parent old_inode new_inode name newname e e')
    (t_rename_insert old_parent new_parent old_inode new_inode name newname e e').
Proof. implement_same. case_match; [|apply implements_delete]. implement_same. implement_same. by apply implements_ret. Qed.

Lemma rename_replace_implements old_parent new_parent old_inode new_inode name newname flags e e' :
  implements eq (rename_replace BBud old_parent new_parent old_inode new_inode name newname flags e e')
    (t_rename_replace BBud old_parent new_parent old_inode new_inode name newname flags e e').
Proof.
  unfold rename_replace, t_rename_replace. case_match; [apply rename_insert_implements|]. do 2 (case_match; [by apply implements_ret|]).
  case_match; [apply implements_exchange|]. implement_step. intros i n Hi. rewrite (sn_type _ _ Hi). eapply (implements_bind eq).
  - case_match; [|by apply implements_ret]. implement_same. by apply implements_ret.
  - intros full full' <-. case_match; [by apply implements_ret|]. implement_same. case_match; [by apply implements_ret|].
    apply rename_insert_implements.
Qed.

Lemma rename_in_implements old_parent new_parent name newname flags e e' :
  implements eq (rename_in BBud old_parent new_parent name newname flags e e') (t_rename_in BBud old_parent new_parent name newname flags e e').
Proof.
  implement_step. intros i n Hi. implement_step. intros j n' Hj. rewrite (sn_type _ _ Hi), (sn_type _ _ Hj).
  case_match; [by apply implements_ret|]. implement_same. do 2 (case_match; [by apply implements_ret|]). implement_same.
  eapply implements_bind; [apply rename_replace_implements|]. intros st st' <-. by apply implements_ret.
Qed.

Lemma rename_implements parent name newparent newname flags e e' :
  implements same_answer (bitbucket_internal_rename BBud parent name newparent newname flags e e')
    (t_rename BBud parent name newparent newname flags e e').
Proof.
  unfold bitbucket_internal_rename, t_rename. case_match; [by apply implements_ret|]. do 2 implement_same.
  eapply (implements_bind eq); [case_match; [by apply implements_ret|apply rename_in_implements]|]. intros [[st p] q] ? <-.
  do 4 implement_same. implement_answer.
Qed.
End Refinement.
