(* ===== verification/Contents.v ===== *)
(** The contents and attributes of files: [BitbucketAdjustFileStorage] of
    file.c, and the handlers of read.c, write.c, write_buf.c, setattr.c,
    open.c, release.c, flush.c, fsync.c, fsyncdir.c, symlink.c and readlink.c
    of src/finesse/bitbucket.

    The contents of a file are what its [Map] points to, [st_size] is what
    the file system says about their length; the code changes the two
    separately.  A buffer is the list of its bytes.  A reply is built from
    memory that must be readable: bytes that are not there are [BadPointer]
    (NULL) or [Undefined] (outside of what was allocated, or freed).

    Owners, times and the number of blocks are not part of the modelled
    inode: a request that sets them changes nothing here. *)

From stdpp Require Import gmap list strings.
From S2P Require Import Prelude NameIndex Trie Object Xattr Inode InodeRules BitbucketData Tree Directory DirectoryRules DirectoryOps DirectoryExchange Directories Enumeration Updates Files Symlinks Handlers.

Open Scope word_scope.

Definition O_TRUNC : Z := 0x200.
Definition FUSE_SET_ATTR_MODE : Z := 1.
Definition FUSE_SET_ATTR_UID : Z := 2.
Definition FUSE_SET_ATTR_GID : Z := 4.
Definition FUSE_SET_ATTR_SIZE : Z := 8.
Definition FUSE_SET_ATTR_ATIME : Z := 16.
Definition FUSE_SET_ATTR_MTIME : Z := 32.
Definition FUSE_SET_ATTR_ATIME_NOW : Z := 128.
Definition FUSE_SET_ATTR_MTIME_NOW : Z := 256.
Definition FUSE_SET_ATTR_CTIME : Z := 1024.
Definition FUSE_BUF_IS_FD : Z := 2.
Definition FUSE_BUF_FD_SEEK : Z := 4.

(** A word as an off_t. *)
Definition s64 (x : Z) : Z := if x <? 2 ^ 63 then x else x - 2 ^ 64.

(** A flag of a word. *)
Definition has (flags bit : Z) : bool := negb (Z.land flags bit =? 0).

Definition slice {A} (off n : Z) (l : list A) : list A := take (Z.to_nat n) (skipn (Z.to_nat off) l).
Definition splice {A} (off : Z) (new l : list A) : list A :=
  take (Z.to_nat off) l ++ new ++ skipn (Z.to_nat off + length new) l.

(** The range lies in a block of memory. *)
Definition inside {A} (off n : Z) (l : list A) : bool := (0 <=? off) && (off + n <=? Z.of_nat (length l)).

(** struct fuse_buf; [b_mem] is what its memory holds. *)
Record fuse_buf := { b_size : Z; b_flags : Z; b_mem : list Byte.byte; b_fd : Z; b_pos : Z }.

Section Code.
Context {T : Type -> Type} `{NameIndex T} {R : Type} `{!Storage R} (BBud : userdata).
#[local] Notation world := (world T (instance T) (dir_state R) kind).
#[local] Notation MW := (M world).

Definition with_map (m : mapping) (f : bitbucket_file) : bitbucket_file :=
  {| f_Magic := f_Magic f; MapName := MapName f; Map := m; WaitingReaders := WaitingReaders f; WaitingWriters := WaitingWriters f |}.
Definition with_size (n : Z) (i : inode T (instance T) kind) : inode T (instance T) kind :=
  with_instance (InodeType i) (st_mode i) (st_nlink i) n (Instance i) i.

(** Memory that a file points to. *)
Definition mapped (m : mapping) : MW (list Byte.byte) :=
  match m with
  | Unmapped => mthrow BadPointer
  | Dangling => mthrow Undefined
  | Mapped b => mret b
  end.

Definition read_map (p : ptr) (off n : Z) : MW (list Byte.byte) :=
  f ← load_file p;
  b ← mapped (Map f);
  if inside off n b then mret (slice off n b) else mthrow Undefined.

Definition write_map (p : ptr) (off : Z) (new : list Byte.byte) : MW unit :=
  f ← load_file p;
  b ← mapped (Map f);
  if inside off (Z.of_nat (length new)) b then update_file p (with_map (Mapped (splice off new b))) else mthrow Undefined.

(** ** file.c *)

(** The file, [f], had no mapping. *)
Definition new_mapping (p : ptr) (f : bitbucket_file) (NewLength : Z) : MW Z :=
  match MapName f with
  | None =>
      ok ← lift_rest (os_malloc NewLength);
      if (ok : bool) then update_file p (with_map (Mapped (replicate (Z.to_nat NewLength) Byte.x00)));; mret 0 else mret ENOSPC
  | Some name =>
      fd ← lift_rest (os_open true name);
      if fd <? 0 then mret (- fd)
      else
        status ← lift_rest (os_ftruncate fd NewLength);
        c_assert (status =? 0);;
        m ← lift_rest (os_mmap fd NewLength);
        match m with
        | inl errno => update_file p (with_map Dangling);; lift_rest (os_close fd);; mret errno
        | inr b =>
            update_file p (with_map (Mapped b));;
            update_inode p (with_size (s64 NewLength));;
            lift_rest (os_close fd);; mret 0
        end
  end.

(** The mapping is given back; [size] is st_size. *)
Definition drop_mapping (p : ptr) (f : bitbucket_file) (size : Z) : MW Z :=
  match Map f, MapName f with
  | Unmapped, _ | Dangling, _ => mthrow Undefined
  | Mapped b, Some _ => status ← lift_rest (os_munmap b size); c_assert (status =? 0)
  | Mapped _, None => mret ()
  end;;
  update_file p (with_map Unmapped);;
  update_inode p (with_size 0);;
  mret 0.

(** Memory that was allocated is reallocated, and what [realloc] returned is
    freed at the end. *)
Definition resize_mapping (p : ptr) (f : bitbucket_file) (size NewLength : Z) : MW Z :=
  b ← mapped (Map f);
  match MapName f with
  | None =>
      ok ← lift_rest (os_malloc NewLength);
      if (ok : bool) then update_file p (with_map Dangling);; mret 0 else mret ENOSPC
  | Some name =>
      fd ← lift_rest (os_open false name);
      c_assert (0 <=? fd);;
      status ← lift_rest (os_ftruncate fd NewLength);
      c_assert (status =? 0);;
      m ← lift_rest (os_mmap fd NewLength);
      match m with
      | inl _ => mthrow AssertFailed
      | inr newbuf =>
          status ← lift_rest (os_munmap b size);
          c_assert (status =? 0);;
          update_file p (with_map (Mapped newbuf));;
          update_inode p (with_size (s64 NewLength));;
          lift_rest (os_close fd);; mret 0
      end
  end.

Definition BitbucketAdjustFileStorage (p : ptr) (NewLength : Z) : MW Z :=
  c_assert (negb (p =? NULL));;
  CHECK_TYPE BITBUCKET_FILE_TYPE p;;
  CHECK_INSTANCE_MAGIC BITBUCKET_FILE_MAGIC p;;
  EnsureInodeLockedAgainstChanges p;;
  i ← load_inode p;
  f ← load_file p;
  if NewLength =? u64 (st_size i) then mret 0
  else
    match Map f with
    | Unmapped => if NewLength =? 0 then mret 0 else new_mapping p f NewLength
    | _ => if NewLength =? 0 then drop_mapping p f (st_size i) else resize_mapping p f (st_size i) NewLength
    end.

(** ** read.c *)

(** Under the lock: the status and what is replied. *)
Definition read_locked (inode : ptr) (size off : Z) : MW (Z * list Byte.byte) :=
  i ← load_inode inode;
  if negb (InodeType i =? BITBUCKET_FILE_TYPE) then mret (EINVAL, [])
  else if st_size i <? off then mret (0, [])
  else
    let outsize := if u64 (st_size i) <? u64 (size + off) then u64 (st_size i - off) else size in
    if 0 <? outsize then b ← read_map inode off outsize; mret (0, b) else mret (0, []).

Definition bitbucket_internal_read (ino size off : Z) : MW (Z * reply) :=
  if size =? 0 then mret (0, ReplyData [])
  else
    inode ← get_inode BBud ino;
    BitbucketLockInode inode false;;
    '(status, b) ← read_locked inode size off;
    BitbucketUnlockInode inode;;
    put_inode inode;;
    mret (status, if status =? 0 then ReplyData b else ReplyErr status).

(** ** write.c *)

(** Under the shared lock; the answer is whether the file is extended. *)
Definition write_locked (inode : ptr) (buf : list Byte.byte) (off : Z) : MW bool :=
  i ← load_inode inode;
  let size := Z.of_nat (length buf) in
  if u64 (st_size i) <? u64 (off + size) then update_inode inode (with_size (s64 (u64 (off + size))));; mret true
  else write_map inode off buf;; mret false.

Definition bitbucket_internal_write (ino : Z) (buf : list Byte.byte) (off : Z) : MW (Z * reply) :=
  let size := Z.of_nat (length buf) in
  if size =? 0 then mret (0, ReplyWrite 0)
  else
    inode ← get_inode BBud ino;
    status ← (if inode =? NULL then mret EBADF
      else
        i ← load_inode inode;
        if negb (InodeType i =? BITBUCKET_FILE_TYPE) then mret EINVAL
        else
          BitbucketLockInode inode false;;
          extending ← write_locked inode buf off;
          BitbucketUnlockInode inode;;
          (if (extending : bool) then
             BitbucketLockInode inode true;;
             status ← BitbucketAdjustFileStorage inode (u64 (off + size));
             BitbucketUnlockInode inode;;
             c_assert (status =? 0)
           else mret ());;
          BitbucketDereferenceInode inode INODE_LOOKUP_REFERENCE 1;;
          mret 0);
    mret (status, if status =? 0 then ReplyWrite size else ReplyErr status).

(** ** write_buf.c *)

(** The buffers up to [idx] are those that are used. *)
Fixpoint buffers_size (idx index : Z) (bufs : list fuse_buf) : Z :=
  match bufs with
  | [] => 0
  | b :: bufs => u64 ((if index <=? idx then b_size b else 0) + buffers_size idx (index + 1) bufs)
  end.

(** The loop that copies them, from the buffer [index] on. *)
Fixpoint copy_buffers (inode : ptr) (idx index offset : Z) (bufs : list fuse_buf) : MW unit :=
  match bufs with
  | [] => mret ()
  | b :: bufs =>
      offset ←
        (if index <=? idx then
           let foff := if has (b_flags b) FUSE_BUF_FD_SEEK then b_pos b else offset in
           if has (b_flags b) FUSE_BUF_IS_FD then
             r ← lift_rest (os_pread (b_fd b) (b_size b) foff);
             match r with
             | Some bytes => write_map inode offset bytes;; mret (u64 (offset + Z.of_nat (length bytes)))
             | None => mret (u64 (offset - 1))
             end
           else
             i ← load_inode inode;
             c_assert (u64 (offset + b_size b) <=? u64 (st_size i));;
             (if b_size b <=? Z.of_nat (length (b_mem b)) then write_map inode foff (take (Z.to_nat (b_size b)) (b_mem b))
              else mthrow Undefined);;
             mret (u64 (offset + b_size b))
         else mret offset);
      copy_buffers inode idx (index + 1) offset bufs
  end.

(** Under the exclusive lock when the file may have to be extended. *)
Definition write_buf_locked (inode : ptr) (idx size off : Z) (bufs : list fuse_buf) (extending : bool) : MW unit :=
  i ← load_inode inode;
  (if u64 (st_size i) <? u64 (off + size) then
     c_assert extending;;
     status ← BitbucketAdjustFileStorage inode (u64 (off + size));
     c_assert (status =? 0);;
     update_inode inode (with_size (s64 (u64 (off + size))))
   else mret ());;
  copy_buffers inode idx 0 (u64 off) bufs.

(** The lookup reference of an inode that is no file is not given back. *)
Definition bitbucket_internal_write_buf (ino idx : Z) (bufs : list fuse_buf) (off : Z) : MW (Z * reply) :=
  let size := buffers_size idx 0 bufs in
  if size =? 0 then mret (size, ReplyWrite 0)
  else
    inode ← get_inode BBud ino;
    c_assert (negb (inode =? NULL));;
    CHECK_INODE_MAGIC inode;;
    i ← load_inode inode;
    status ← (if negb (InodeType i =? BITBUCKET_FILE_TYPE) then mret EINVAL
      else
        BitbucketLockInode inode false;;
        i ← load_inode inode;
        (if u64 (st_size i) <? u64 (off + size) then
           BitbucketUnlockInode inode;;
           BitbucketLockInode inode true;;
           write_buf_locked inode idx size off bufs true
         else write_buf_locked inode idx size off bufs false);;
        BitbucketUnlockInode inode;;
        BitbucketDereferenceInode inode INODE_LOOKUP_REFERENCE 1;;
        mret 0);
    mret (status, if status =? 0 then ReplyWrite size else ReplyErr status).

(** ** setattr.c *)

(** The attributes that only make the request succeed. *)
Definition other_attributes : Z :=
  Z.lor FUSE_SET_ATTR_UID (Z.lor FUSE_SET_ATTR_GID (Z.lor FUSE_SET_ATTR_ATIME (Z.lor FUSE_SET_ATTR_MTIME
    (Z.lor FUSE_SET_ATTR_ATIME_NOW (Z.lor FUSE_SET_ATTR_MTIME_NOW FUSE_SET_ATTR_CTIME))))).

Definition S_ISREG (mode : Z) : bool := Z.land mode S_IFMT =? S_IFREG.

Definition set_size (inode : ptr) (size : Z) : MW unit :=
  i ← load_inode inode;
  if st_size i =? size then mret ()
  else
    BitbucketLockInode inode true;;
    status ← BitbucketAdjustFileStorage inode (u64 size);
    c_assert (status =? 0);;
    BitbucketUnlockInode inode.

Definition set_attributes (inode : ptr) (mode size to_set : Z) : MW Z :=
  (if has to_set FUSE_SET_ATTR_MODE then
     update_inode inode (fun i => with_mode (Z.lor (Z.land (st_mode i) S_IFMT) (Z.land mode (wnot 32 S_IFMT))) i)
   else mret ());;
  (if has to_set FUSE_SET_ATTR_SIZE then set_size inode size else mret ());;
  i ← load_inode inode;
  (if InodeType i =? BITBUCKET_DIR_TYPE then c_assert (S_ISDIR (st_mode i)) else mret ());;
  (if InodeType i =? BITBUCKET_FILE_TYPE then c_assert (S_ISREG (st_mode i)) else mret ());;
  mret (if has to_set (Z.lor FUSE_SET_ATTR_MODE (Z.lor FUSE_SET_ATTR_SIZE other_attributes)) then 0 else EINVAL).

Definition bitbucket_internal_setattr (ino mode size to_set : Z) : MW (Z * reply) :=
  inode ← get_inode BBud ino;
  if inode =? NULL then mret (EBADF, ReplyErr EBADF)
  else
    status ← set_attributes inode mode size to_set;
    answer ← (if status =? 0 then attr ← attributes inode; mret (status, ReplyAttr attr) else mret (status, ReplyErr status));
    put_inode inode;;
    mret answer.

(** ** open.c and release.c *)

Definition truncate_on_open (inode : ptr) : MW unit :=
  BitbucketLockInode inode true;;
  i ← load_inode inode;
  status ← (if 0 <? st_size i then BitbucketAdjustFileStorage inode 0 else mret 0);
  BitbucketUnlockInode inode;;
  c_assert (status =? 0).

Definition bitbucket_internal_open (ino flags : Z) : MW (Z * reply) :=
  inode ← get_inode BBud ino;
  if inode =? NULL then mret (EBADF, ReplyErr EBADF)
  else
    (if has flags O_TRUNC then truncate_on_open inode else mret ());;
    BitbucketReferenceInode inode INODE_FUSE_OPEN_REFERENCE;;
    BitbucketDereferenceInode inode INODE_LOOKUP_REFERENCE 1;;
    mret (0, ReplyOpen inode).

Definition bitbucket_internal_release (ino : Z) : MW (Z * reply) :=
  inode ← get_inode BBud ino;
  if inode =? NULL then mret (EBADF, ReplyErr EBADF)
  else
    BitbucketDereferenceInode inode INODE_FUSE_OPEN_REFERENCE 1;;
    BitbucketDereferenceInode inode INODE_LOOKUP_REFERENCE 1;;
    mret (0, ReplyErr 0).

(** ** flush.c, fsync.c and fsyncdir.c *)

(** What is mapped is synchronised where [sync] says so. *)
Definition sync_file (inode : ptr) (sync : bool) : MW unit :=
  i ← load_inode inode;
  if InodeType i =? BITBUCKET_FILE_TYPE then
    BitbucketLockInode inode false;;
    f ← load_file inode;
    (match Map f with
     | Unmapped => mret ()
     | Dangling => if sync then mthrow Undefined else mret ()
     | Mapped b => if sync then status ← lift_rest (os_msync b (st_size i)); c_assert (status =? 0) else mret ()
     end);;
    BitbucketUnlockInode inode
  else mret ().

Definition bitbucket_internal_flush (ino : Z) : MW (Z * reply) :=
  if FlushEnable BBud =? 0 then mret (0, ReplyErr 0)
  else
    inode ← get_inode BBud ino;
    status ← (if inode =? NULL then mret EBADF else sync_file inode (FsyncDisable BBud =? 0);; mret 0);
    put_inode inode;;
    mret (status, ReplyErr status).

Definition bitbucket_internal_fsync (ino : Z) : MW (Z * reply) :=
  if FsyncDisable BBud =? 1 then mret (0, ReplyErr 0)
  else
    inode ← get_inode BBud ino;
    status ← (if inode =? NULL then mret EBADF else sync_file inode true;; mret 0);
    put_inode inode;;
    mret (status, ReplyErr status).

Definition bitbucket_internal_fsyncdir (ino : Z) : MW (Z * reply) :=
  inode ← get_inode BBud ino;
  let status := if inode =? NULL then EBADF else 0 in
  put_inode inode;;
  mret (status, ReplyErr status).

(** ** The handlers of symlink.c and readlink.c *)

(** The root is looked for in the table, where it is not. *)
Definition bitbucket_internal_symlink (link : string) (parent : Z) (name : string) (epoch : Z) (newobj e : ptr) : MW (Z * reply) :=
  c_assert (negb (String.eqb link EmptyString));;
  c_assert (negb (parent =? 0));;
  c_assert (negb (String.eqb name EmptyString));;
  o ← BitbucketLookupInodeInTable parent;
  match o with
  | None => mret (EBADF, ReplyErr EBADF)
  | Some inode =>
      symlinkInode ← BitbucketCreateSymlink inode name link epoch newobj e;
      let status := if symlinkInode =? NULL then EACCES else 0 in
      BitbucketDereferenceInode inode INODE_LOOKUP_REFERENCE 1;;
      if negb (status =? 0) then mret (status, ReplyErr status)
      else
        fep ← entry_param symlinkInode;
        BitbucketReferenceInode symlinkInode INODE_FUSE_LOOKUP_REFERENCE;;
        BitbucketDereferenceInode symlinkInode INODE_LOOKUP_REFERENCE 1;;
        mret (0, fep)
  end.

Definition bitbucket_internal_readlink (ino : Z) : MW (Z * reply) :=
  c_assert (negb (ino =? 0));;
  o ← BitbucketLookupInodeInTable ino;
  let inode := default NULL o in
  answer ← (if inode =? NULL then mret (EBADF, ReplyErr EBADF)
    else
      i ← load_inode inode;
      if negb (InodeType i =? BITBUCKET_SYMLINK_TYPE) then mret (EBADF, ReplyErr EBADF)
      else match Instance i with SymbolicLink s => mret (0, ReplyLink (LinkContents s)) | _ => mthrow Undefined end);
  put_inode inode;;
  mret answer.
End Code.
