(* ===== verification/ContentRules.v ===== *)
(** What the requests for contents and attributes mean, and the proof that
    their handlers (Contents.v) implement it.

    A file of a tree has bytes, or no memory, and a size of its own.  A
    meaning is undefined where the code would reply from memory that is not
    there, or would leave a file pointing to memory that is not there: this
    is what a change of the length of a file that has memory does.

    [steps S S' Q m s] is [implements] between states that are seen
    differently before and after: without locks ([shows]), or under a lock of
    one inode ([under]). *)

From stdpp Require Import gmap list strings.
From S2P Require Import Prelude NameIndex Trie Object Xattr Inode InodeRules BitbucketData Tree Directory DirectoryRules DirectoryOps DirectoryExchange Directories Enumeration Updates Files Symlinks Handlers TreePrograms Contents.

Open Scope word_scope.

(** * Meanings *)

Section Spec.
Context {R : Type} `{!Storage R} (BBud : userdata).
#[local] Notation tree := (tree R).
#[local] Notation TM := (TM R).
#[local] Notation t_get := (t_get BBud).

Definition node_bytes (m : option (list Byte.byte)) (n : node) : node :=
  {| n_ino := n_ino n; n_type := n_type n; n_mode := n_mode n; n_links := n_links n; n_base := n_base n; n_parent := n_parent n;
     n_names := n_names n; n_size := n_size n; n_contents := Bytes m |}.
Definition node_size (k : Z) (n : node) : node :=
  {| n_ino := n_ino n; n_type := n_type n; n_mode := n_mode n; n_links := n_links n; n_base := n_base n; n_parent := n_parent n;
     n_names := n_names n; n_size := k; n_contents := n_contents n |}.

(** What a file holds. *)
Definition t_file (p : ptr) : TM (option (list Byte.byte)) :=
  n ← t_node p; match n_contents n with Bytes m => mret m | _ => t_fail end.
Definition t_set_bytes (p : ptr) (m : option (list Byte.byte)) : TM unit := fun t =>
  n ← nodes t !! p; match n_contents n with Bytes _ => Some ((), put (node_bytes m n) p t) | _ => None end.
Definition t_set_size (p : ptr) (k : Z) : TM unit := fun t => n ← nodes t !! p; Some ((), put (node_size k n) p t).
Definition t_system {A} (m : M R A) : TM A := fun t =>
  match m (t_rest t) with Done (a, x) => Some (a, set_rest (fun _ => x) t) | Fail _ => None end.

(** The lock of an inode that exists. *)
Definition t_lock (p : ptr) : TM unit := n ← t_node p; mret ().
Definition t_unlock : TM unit := mret ().

Definition t_read_bytes (p : ptr) (off n : Z) : TM (list Byte.byte) :=
  m ← t_file p; match m with Some b => if inside off n b then mret (slice off n b) else t_fail | None => t_fail end.
Definition t_write_bytes (p : ptr) (off : Z) (new : list Byte.byte) : TM unit :=
  m ← t_file p;
  match m with
  | Some b => if inside off (Z.of_nat (length new)) b then t_set_bytes p (Some (splice off new b)) else t_fail
  | None => t_fail
  end.

Definition t_adjust (p : ptr) (len : Z) : TM Z :=
  n ← t_node p;
  m ← t_file p;
  if len =? u64 (n_size n) then mret 0
  else match m with
       | None =>
           if len =? 0 then mret 0
           else
             ok ← t_system (os_malloc len);
             if (ok : bool) then t_set_bytes p (Some (replicate (Z.to_nat len) Byte.x00));; mret 0 else mret ENOSPC
       | Some _ =>
           if len =? 0 then t_set_bytes p None;; t_set_size p 0;; mret 0
           else ok ← t_system (os_malloc len); if (ok : bool) then t_fail else mret ENOSPC
       end.

Definition t_read_locked (p : ptr) (size off : Z) : TM (Z * list Byte.byte) :=
  n ← t_node p;
  if negb (n_type n =? BITBUCKET_FILE_TYPE) then mret (EINVAL, [])
  else if n_size n <? off then mret (0, [])
  else
    let outsize := if u64 (n_size n) <? u64 (size + off) then u64 (n_size n - off) else size in
    if 0 <? outsize then b ← t_read_bytes p off outsize; mret (0, b) else mret (0, []).

Definition t_read (ino size off : Z) : TM (Z * reply) :=
  if size =? 0 then mret (0, ReplyData [])
  else
    p ← t_get ino;
    t_lock p;;
    '(status, b) ← t_read_locked p size off;
    t_unlock;;
    t_put p;;
    mret (status, if status =? 0 then ReplyData b else ReplyErr status).

Definition t_write_locked (p : ptr) (buf : list Byte.byte) (off : Z) : TM bool :=
  n ← t_node p;
  let size := Z.of_nat (length buf) in
  if u64 (n_size n) <? u64 (off + size) then t_set_size p (s64 (u64 (off + size)));; mret true
  else t_write_bytes p off buf;; mret false.

Definition t_write (ino : Z) (buf : list Byte.byte) (off : Z) : TM (Z * reply) :=
  let size := Z.of_nat (length buf) in
  if size =? 0 then mret (0, ReplyWrite 0)
  else
    p ← t_get ino;
    status ← (if p =? NULL then mret EBADF
      else
        n ← t_node p;
        if negb (n_type n =? BITBUCKET_FILE_TYPE) then mret EINVAL
        else
          t_lock p;;
          extending ← t_write_locked p buf off;
          t_unlock;;
          (if (extending : bool) then
             t_lock p;; status ← t_adjust p (u64 (off + size)); t_unlock;; t_assert (status =? 0)
           else mret ());;
          t_drop p INODE_LOOKUP_REFERENCE;;
          mret 0);
    mret (status, if status =? 0 then ReplyWrite size else ReplyErr status).

Fixpoint t_copy_buffers (p : ptr) (idx index offset : Z) (bufs : list fuse_buf) : TM unit :=
  match bufs with
  | [] => mret ()
  | b :: bufs =>
      offset ←
        (if index <=? idx then
           let foff := if has (b_flags b) FUSE_BUF_FD_SEEK then b_pos b else offset in
           if has (b_flags b) FUSE_BUF_IS_FD then
             r ← t_system (os_pread (b_fd b) (b_size b) foff);
             match r with
             | Some bytes => t_write_bytes p offset bytes;; mret (u64 (offset + Z.of_nat (length bytes)))
             | None => mret (u64 (offset - 1))
             end
           else
             n ← t_node p;
             t_assert (u64 (offset + b_size b) <=? u64 (n_size n));;
             (if b_size b <=? Z.of_nat (length (b_mem b)) then t_write_bytes p foff (take (Z.to_nat (b_size b)) (b_mem b)) else t_fail);;
             mret (u64 (offset + b_size b))
         else mret offset);
      t_copy_buffers p idx (index + 1) offset bufs
  end.

Definition t_write_buf_locked (p : ptr) (idx size off : Z) (bufs : list fuse_buf) (extending : bool) : TM unit :=
  n ← t_node p;
  (if u64 (n_size n) <? u64 (off + size) then
     t_assert extending;;
     status ← t_adjust p (u64 (off + size)); t_assert (status =? 0);; t_set_size p (s64 (u64 (off + size)))
   else mret ());;
  t_copy_buffers p idx 0 (u64 off) bufs.

Definition t_write_buf (ino idx : Z) (bufs : list fuse_buf) (off : Z) : TM (Z * reply) :=
  let size := buffers_size idx 0 bufs in
  if size =? 0 then mret (size, ReplyWrite 0)
  else
    p ← t_get ino;
    t_assert (negb (p =? NULL));;
    n ← t_node p;
    status ← (if negb (n_type n =? BITBUCKET_FILE_TYPE) then mret EINVAL
      else
        t_lock p;;
        n ← t_node p;
        (if u64 (n_size n) <? u64 (off + size) then
           t_unlock;; t_lock p;; t_write_buf_locked p idx size off bufs true
         else t_write_buf_locked p idx size off bufs false);;
        t_unlock;;
        t_drop p INODE_LOOKUP_REFERENCE;;
        mret 0);
    mret (status, if status =? 0 then ReplyWrite size else ReplyErr status).

Definition t_size (p : ptr) (size : Z) : TM unit :=
  n ← t_node p;
  if n_size n =? size then mret ()
  else t_lock p;; status ← t_adjust p (u64 size); t_assert (status =? 0);; t_unlock.

Definition t_set_attributes (p : ptr) (mode size to_set : Z) : TM Z :=
  (if has to_set FUSE_SET_ATTR_MODE then t_chmod p (fun m => Z.lor (Z.land m S_IFMT) (Z.land mode (wnot 32 S_IFMT))) else mret ());;
  (if has to_set FUSE_SET_ATTR_SIZE then t_size p size else mret ());;
  n ← t_node p;
  (if n_type n =? BITBUCKET_DIR_TYPE then t_assert (S_ISDIR (n_mode n)) else mret ());;
  (if n_type n =? BITBUCKET_FILE_TYPE then t_assert (S_ISREG (n_mode n)) else mret ());;
  mret (if has to_set (Z.lor FUSE_SET_ATTR_MODE (Z.lor FUSE_SET_ATTR_SIZE other_attributes)) then 0 else EINVAL).

Definition t_setattr (ino mode size to_set : Z) : TM (Z * reply) :=
  p ← t_get ino;
  if p =? NULL then mret (EBADF, ReplyErr EBADF)
  else
    status ← t_set_attributes p mode size to_set;
    answer ← (if status =? 0 then attr ← t_stat p; mret (status, ReplyAttr attr) else mret (status, ReplyErr status));
    t_put p;;
    mret answer.

Definition t_truncate (p : ptr) : TM unit :=
  t_lock p;;
  n ← t_node p;
  status ← (if 0 <? n_size n then t_adjust p 0 else mret 0);
  t_unlock;;
  t_assert (status =? 0).

Definition t_open (ino flags : Z) : TM (Z * reply) :=
  p ← t_get ino;
  if p =? NULL then mret (EBADF, ReplyErr EBADF)
  else
    (if has flags O_TRUNC then t_truncate p else mret ());;
    t_take p INODE_FUSE_OPEN_REFERENCE;;
    t_drop p INODE_LOOKUP_REFERENCE;;
    mret (0, ReplyOpen p).

Definition t_release (ino : Z) : TM (Z * reply) :=
  p ← t_get ino;
  if p =? NULL then mret (EBADF, ReplyErr EBADF)
  else t_drop p INODE_FUSE_OPEN_REFERENCE;; t_drop p INODE_LOOKUP_REFERENCE;; mret (0, ReplyErr 0).

Definition t_sync_file (p : ptr) (sync : bool) : TM unit :=
  n ← t_node p;
  if n_type n =? BITBUCKET_FILE_TYPE then
    t_lock p;;
    m ← t_file p;
    (match m with
     | None => mret ()
     | Some b => if sync then status ← t_system (os_msync b (n_size n)); t_assert (status =? 0) else mret ()
     end);;
    t_unlock
  else mret ().

Definition t_flush (ino : Z) : TM (Z * reply) :=
  if FlushEnable BBud =? 0 then mret (0, ReplyErr 0)
  else
    p ← t_get ino;
    status ← (if p =? NULL then mret EBADF else t_sync_file p (FsyncDisable BBud =? 0);; mret 0);
    t_put p;; mret (status, ReplyErr status).

Definition t_fsync (ino : Z) : TM (Z * reply) :=
  if FsyncDisable BBud =? 1 then mret (0, ReplyErr 0)
  else
    p ← t_get ino;
    status ← (if p =? NULL then mret EBADF else t_sync_file p true;; mret 0);
    t_put p;; mret (status, ReplyErr status).

Definition t_fsyncdir (ino : Z) : TM (Z * reply) :=
  p ← t_get ino;
  let status := if p =? NULL then EBADF else 0 in
  t_put p;; mret (status, ReplyErr status).

Definition t_make_symlink (p : ptr) (name link : string) (c e : ptr) : TM ptr := fun t =>
  '(_, names, _) ← look_dir t p;
  when (names !! name = None /\ good_name name /\ makeable c t /\ inode_length (extra_length link) < 65536 /\ fresh_entries [e] t)
    (Some (c, make_symlink p c name link e t)).

Definition t_symlink (link : string) (parent : Z) (name : string) (c e : ptr) : TM (Z * reply) :=
  t_assert (negb (String.eqb link EmptyString));;
  t_assert (negb (parent =? 0));;
  t_assert (negb (String.eqb name EmptyString));;
  o ← t_find parent;
  match o with
  | None => mret (EBADF, ReplyErr EBADF)
  | Some p =>
      q ← t_make_symlink p name link c e;
      let status := if q =? NULL then EACCES else 0 in
      t_drop p INODE_LOOKUP_REFERENCE;;
      if negb (status =? 0) then mret (status, ReplyErr status)
      else fep ← t_entry q; t_take q INODE_FUSE_LOOKUP_REFERENCE;; t_drop q INODE_LOOKUP_REFERENCE;; mret (0, fep)
  end.

Definition t_readlink (ino : Z) : TM (Z * reply) :=
  t_assert (negb (ino =? 0));;
  o ← t_find ino;
  let p := default NULL o in
  answer ← (if p =? NULL then mret (EBADF, ReplyErr EBADF)
    else
      n ← t_node p;
      if negb (n_type n =? BITBUCKET_SYMLINK_TYPE) then mret (EBADF, ReplyErr EBADF)
      else match n_contents n with Target l => mret (0, ReplyLink l) | _ => t_fail end);
  t_put p;; mret answer.
End Spec.

(** * Programs that run under a lock *)

Section Steps.
Context {T : Type -> Type} `{NameIndex T} {R : Type} `{!Storage R}.
#[local] Notation world := (world T (instance T) (dir_state R) kind).
#[local] Notation MW := (M world).
#[local] Notation view := (view T (instance T) (dir_state R) kind).
#[local] Notation inode := (inode T (instance T) kind).
#[local] Notation tree := (tree R).
#[local] Notation TM := (TM R).
Implicit Types (v : view) (t : tree) (i : inode) (n : node) (p q e : ptr) (S : view -> tree -> Prop).

Definition steps {A B : Type} S S' (Q : A -> B -> Prop) (m : MW A) (s : TM B) : Prop :=
  forall t b t', s t = Some (b, t') -> forall v, S v t -> exists a v', runs m v a v' /\ Q a b /\ S' v' t'.

(** The inode exists, and is locked. *)
Definition under (ex : bool) p v t : Prop := sees (held_as ex) p v t /\ is_Some (nodes t !! p).

Lemma steps_implements {A B} (Q : A -> B -> Prop) (m : MW A) (s : TM B) : steps shows shows Q m s -> implements Q m s.
Proof. done. Qed.
Lemma implements_steps {A B} (Q : A -> B -> Prop) (m : MW A) (s : TM B) : implements Q m s -> steps shows shows Q m s.
Proof. done. Qed.

Lemma steps_ret {A B} S (Q : A -> B -> Prop) a b : Q a b -> steps S S Q (mret a) (mret b).
Proof. intros Hq t b' t' [= <- <-] v Hv. exists a, v. split; [apply runs_ret|done]. Qed.

Lemma steps_fail {A B} S S' (Q : A -> B -> Prop) (m : MW A) : steps S S' Q m t_fail.
Proof. by intros t b t' [=]. Qed.

Lemma steps_bind {A B C D} S S1 S2 (P : A -> B -> Prop) (Q : C -> D -> Prop) (m : MW A) (s : TM B) k k' :
  steps S S1 P m s -> (forall a b, P a b -> steps S1 S2 Q (k a) (k' b)) -> steps S S2 Q (m ≫= k) (s ≫= k').
Proof.
  intros Hm Hk t d t2 Hs v Hv. unfold mbind, TM_bind in Hs. destruct (s t) as [[b t1]|] eqn:E; [|done].
  destruct (Hm t b t1 E v Hv) as (a & v1 & Hr & Hp & Hv1). destruct (Hk a b Hp t1 d t2 Hs v1 Hv1) as (c & v2 & Hr2 & Hq & Hv2).
  exists c, v2. split; [|done]. by eapply runs_bind.
Qed.

Lemma steps_assert S b : steps S S eq (c_assert b) (t_assert b).
Proof. intros t u t' Hs v Hv. destruct b; [|done]. injection Hs as <- <-. exists tt, v. split; [apply runs_ret|done]. Qed.

(** An operation of the code that the meaning has no counterpart of. *)
Lemma steps_silent {C D} S S1 S2 (Q : C -> D -> Prop) (m : MW unit) (k : unit -> MW C) (s : TM D) :
  (forall t, is_Some (s t) -> forall v, S v t -> exists v', runs m v tt v' /\ S1 v' t) -> steps S1 S2 Q (k tt) s -> steps S S2 Q (m ≫= k) s.
Proof.
  intros Hm Hk t d t' Hs v Hv. destruct (Hm t ltac:(eauto) v Hv) as (v1 & Hr & Hv1).
  destruct (Hk t d t' Hs v1 Hv1) as (c & v2 & Hr2 & Hq & Hv2). exists c, v2. split; [|done]. by eapply runs_bind.
Qed.

Lemma steps_lock ex p : steps shows (under ex p) eq (BitbucketLockInode p ex) (t_lock p).
Proof.
  intros t u t' Hs v Hv. unfold t_lock, t_node in Hs. apply TM_bind_Some in Hs as (n & t1 & Hn & Hs). apply bind_Some in Hn as (m & Hm & [= <- <-]).
  injection Hs as <- <-. destruct (runs_lock ex p v t Hv ltac:(eauto)) as (v0 & Hr & Hv0). exists tt, v0. split; [done|]. split; [done|].
  split; [done|by eexists].
Qed.

Lemma steps_unlock ex p : steps (under ex p) shows eq (BitbucketUnlockInode p) t_unlock.
Proof.
  intros t u t' [= <- <-] v [Hv Hn]. destruct (runs_unlocked ex p v t Hv Hn) as (v' & Hr & Hv'). by exists tt, v'.
Qed.

(** Under a lock of either kind. *)
Definition locked p v t : Prop := exists ex, under ex p v t.

Lemma steps_locked {A B} ex p S (Q : A -> B -> Prop) (m : MW A) (s : TM B) : steps S (under ex p) Q m s -> steps S (locked p) Q m s.
Proof. intros Hm t b t' Hs v Hv. destruct (Hm t b t' Hs v Hv) as (a & v' & ? & ? & ?). exists a, v'. repeat split; try done. by exists ex. Qed.

Lemma steps_unlock_any p : steps (locked p) shows eq (BitbucketUnlockInode p) t_unlock.
Proof. intros t u t' Hs v [ex Hv]. by eapply (steps_unlock ex p). Qed.

Section Under.
Context (ex : bool) (p : ptr).
#[local] Notation U := (under ex p).

Lemma steps_load : steps U U shows_inode (load_inode p) (t_node p).
Proof.
  intros t n t' Hs v [Hv Hp]. apply bind_Some in Hs as (m & Hm & [= <- <-]). destruct (sees_load _ _ _ _ Hv Hp) as (i & n' & Hn & Hi & Hr).
  assert (n' = m) as -> by congruence. by exists i, v.
Qed.

(** What is known of a file. *)
Definition holds_bytes (f : bitbucket_file) (m : option (list Byte.byte)) : Prop :=
  f_Magic f = BITBUCKET_FILE_MAGIC /\ MapName f = None /\ Map f = as_mapping m.

Lemma shows_file i n m : shows_inode i n -> n_contents n = Bytes m ->
  exists f, Instance i = File f /\ holds_bytes f m /\ n_type n = BITBUCKET_FILE_TYPE.
Proof.
  intros [_ _ _ _ _ _ _ Hd] Hc. unfold shows_data in Hd. rewrite Hc in Hd. destruct (Instance i) as [|d|f|s]; [done|..].
  - by destruct Hd as (_ & _ & _ & _ & _ & _ & _ & [=]).
  - destruct Hd as (? & _ & ? & ? & m' & [= <-] & ?). by exists f.
  - by destruct Hd as (_ & _ & _ & [=]).
Qed.

Lemma t_file_Some t m t' : t_file p t = Some (m, t') -> t' = t /\ exists n, nodes t !! p = Some n /\ n_contents n = Bytes m.
Proof.
  intros Hs. apply TM_bind_Some in Hs as (n0 & t1 & Hn & Hs). apply bind_Some in Hn as (n & Hx & [= <- <-]).
  destruct (n_contents n) eqn:E; [done| |done]. injection Hs as <- <-. eauto.
Qed.

Lemma runs_load_file v i f : runs (load_inode p) v i v -> Instance i = File f -> runs (load_file p) v f v.
Proof. intros Hr Hd. eapply runs_bind; [exact Hr|]. rewrite Hd. apply runs_ret. Qed.

Lemma steps_file : steps U U holds_bytes (load_file p) (t_file p).
Proof.
  intros t m t' Hs v [Hv Hp]. apply t_file_Some in Hs as (-> & n & Hn & Hc). destruct (sees_load _ _ _ _ Hv Hp) as (i & n' & Hn' & Hi & Hr).
  assert (n' = n) as -> by congruence. destruct (shows_file i n m Hi Hc) as (f & Hf & Hm & _). exists f, v. split; [by eapply runs_load_file|done].
Qed.

Lemma steps_set_bytes m : steps U U eq (update_file p (with_map (as_mapping m))) (t_set_bytes p m).
Proof.
  intros t [] t' Hs v [Hv Hp]. apply bind_Some in Hs as (n & Hn & Hs). destruct (n_contents n) as [|m0|] eqn:E; try done. injection Hs as <-.
  destruct (sees_load _ _ _ _ Hv Hp) as (i & n' & Hn' & Hi & Hr). assert (n' = n) as -> by congruence. destruct (shows_file i n m0 Hi E) as (f & Hf & (Hm & Hname & _) & Hty).
  destruct (sees_update _ p v t (with_data (File (with_map (as_mapping m) f))) n (node_bytes m n) Hv Hn) as (v' & Hr' & Hv').
  - constructor; [|intros j Hj|by constructor|done].
    + destruct Hv as (i0 & _ & _ & Hv). constructor; try done. apply (wf_base _ _ _ _ (shows_wf _ _ Hv) p n Hn).
    + assert (exists g, Instance j = File g /\ holds_bytes g m0 /\ n_type n = BITBUCKET_FILE_TYPE) as (g & Hg & _) by (by apply shows_file).
      destruct Hj as [[] ? ? ? ? ? ? Hd]. constructor; try done. unfold shows_data in *. rewrite Hg in Hd. destruct Hd as (? & ? & _). cbn.
      do 4 (split; [done|]). by exists m.
  - exists tt, v'. split; [|split; [done|split; [done|rewrite put_lookup; eauto]]].
    eapply runs_bind; [by eapply runs_load_file|]. exact Hr'.
Qed.

Lemma steps_set_size k : steps U U eq (update_inode p (with_size k)) (t_set_size p k).
Proof.
  intros t [] t' Hs v [Hv Hp]. apply bind_Some in Hs as (n & Hn & [= <-]).
  destruct (sees_update _ p v t (with_size k) n (node_size k n) Hv Hn) as (v' & Hr' & Hv').
  - constructor; [|intros j Hj|by constructor|done].
    + destruct Hv as (i0 & _ & _ & Hv). constructor; try done. apply (wf_base _ _ _ _ (shows_wf _ _ Hv) p n Hn).
    + destruct Hj as [[] ? ? ? ? ? ? Hd]. by constructor.
  - exists tt, v'. split; [done|]. split; [done|]. split; [done|]. rewrite put_lookup. eauto.
Qed.

Lemma steps_system {A} (m : M R A) : steps U U eq (lift_rest m) (t_system m).
Proof.
  intros t a t' Hs v [Hv Hp]. unfold t_system in Hs. destruct (m (t_rest t)) as [[a' x]|] eqn:E; [|done]. injection Hs as <- <-.
  destruct (sees_rest m _ p v t a' x Hv E) as (v' & Hr & Hv'). by exists a', v'.
Qed.
End Under.
End Steps.

Ltac step_primitive :=
  lazymatch goal with
  | |- steps _ _ _ (c_assert _) _ => apply steps_assert
  | |- steps _ _ _ (load_inode _) _ => apply steps_load
  | |- steps _ _ _ (load_file _) _ => apply steps_file
  | |- steps _ _ _ (lift_rest _) _ => apply steps_system
  | |- steps _ _ _ (update_inode _ (with_size _)) _ => apply steps_set_size
  | |- steps _ _ _ (BitbucketLockInode _ _) _ => apply steps_lock
  | |- steps _ _ _ (BitbucketUnlockInode _) _ => apply steps_unlock
  | |- steps shows _ _ _ _ => apply implements_steps; implement_primitive
  end.
Ltac step_next := eapply steps_bind; [step_primitive|].
Ltac step_same := eapply steps_bind; [step_primitive|intros ? ? <-].

(** * The handlers implement their meaning *)

Section Refinement.
Context {T : Type -> Type} `{NameIndex T} {R : Type} `{!Storage R} (BBud : userdata).
#[local] Notation world := (world T (instance T) (dir_state R) kind).
#[local] Notation MW := (M world).
#[local] Notation view := (view T (instance T) (dir_state R) kind).
#[local] Notation tree := (tree R).
#[local] Notation TM := (TM R).
#[local] Notation implements := (implements (T := T) (R := R)).
#[local] Notation steps := (steps (T := T) (R := R)).
#[local] Notation under := (under (T := T) (R := R)).

(** ** Under the lock *)

Lemma steps_mapped {A B} S S' (Q : A -> B -> Prop) b (k : list Byte.byte -> MW A) (s : TM B) :
  steps S S' Q (k b) s -> steps S S' Q (mapped (Mapped b) ≫= k) s.
Proof. done. Qed.

Lemma read_map_steps ex p off n : steps (under ex p) (under ex p) eq (read_map p off n) (t_read_bytes p off n).
Proof.
  step_next. intros f m (_ & _ & ->). destruct m as [b|]; [|apply steps_fail]. apply steps_mapped.
  case_match; [by apply steps_ret|apply steps_fail].
Qed.

Lemma write_map_steps ex p off new : steps (under ex p) (under ex p) eq (write_map p off new) (t_write_bytes p off new).
Proof.
  step_next. intros f m (_ & _ & ->). destruct m as [b|]; [|apply steps_fail]. apply steps_mapped.
  case_match; [|apply steps_fail]. apply (steps_set_bytes ex p (Some _)).
Qed.

(** The assertions [BitbucketAdjustFileStorage] begins with. *)
Lemma adjust_checks {A} (k : unit -> MW A) ex p (s : node -> option (list Byte.byte) -> TM A) :
  steps (under ex p) (under ex p) eq (k tt) (n ← t_node p; m ← t_file p; s n m) ->
  steps (under ex p) (under ex p) eq
    (c_assert (negb (p =? NULL));; CHECK_TYPE BITBUCKET_FILE_TYPE p;; CHECK_INSTANCE_MAGIC BITBUCKET_FILE_MAGIC p;;
     x ← EnsureInodeLockedAgainstChanges p; k x)
    (n ← t_node p; m ← t_file p; s n m).
Proof.
  intros Hk t b t' Hs v [Hv Hp]. pose proof Hs as Hs0. apply TM_bind_Some in Hs as (n0 & t1 & Hn & Hs).
  apply TM_bind_Some in Hs as (m & t2 & Hm & _). apply bind_Some in Hn as (n & Hn & [= <- <-]).
  apply t_file_Some in Hm as (_ & n' & Hn' & Hm). assert (n' = n) as -> by congruence.
  pose proof Hv as (i & Hi & Hl & Hvi). destruct (sees_node (held_as ex) p v t i Hi Hvi Hp) as (n' & Hn1 & Hsi). assert (n' = n) as -> by congruence.
  destruct (shows_file i n m Hsi Hm) as (f & Hf & (Hmagic & _) & Hty).
  destruct (sees_trylock (held_as ex) p v t Hv ltac:(by destruct ex) Hp) as (v1 & Hr & Hv1).
  destruct (Hk t b t' Hs0 v1 (conj Hv1 Hp)) as (a & v' & Hr' & -> & Hv'). exists b, v'. split; [|done].
  step_with ltac:(apply runs_assert, negb_true_iff, Z.eqb_neq, (wf_null _ _ _ _ (shows_wf _ _ Hvi)); eauto).
  step_with ltac:(eapply runs_check_type; [exact Hi|by rewrite (sn_type _ _ Hsi)]).
  step_with ltac:(eapply runs_check_instance; [exact Hi|by rewrite Hf]).
  eapply runs_bind; [step_with ltac:(exact Hr); by apply runs_assert|exact Hr'].
Qed.

Lemma adjust_steps ex p len : steps (under ex p) (under ex p) eq (BitbucketAdjustFileStorage p len) (t_adjust p len).
Proof.
  unfold BitbucketAdjustFileStorage. apply (adjust_checks (fun _ => _)). step_next. intros i n Hi. rewrite (sn_size _ _ Hi).
  step_next. intros f m (_ & Hname & Hmap). case_match; [by apply steps_ret|]. rewrite Hmap.
  unfold new_mapping, drop_mapping, resize_mapping. rewrite Hname, Hmap. destruct m as [b|]; cbn [as_mapping].
  - case_match.
    + apply (steps_mapped _ _ _ b (fun _ => _)). eapply steps_bind; [apply (steps_set_bytes ex p None)|intros ? ? _]. step_same. by apply steps_ret.
    + apply steps_mapped. step_same. case_match; [apply steps_fail|by apply steps_ret].
  - case_match; [by apply steps_ret|]. step_same. case_match; [|by apply steps_ret].
    eapply steps_bind; [apply (steps_set_bytes ex p (Some _))|intros ? ? _]. by apply steps_ret.
Qed.

Lemma read_locked_steps ex p size off : steps (under ex p) (under ex p) eq (read_locked p size off) (t_read_locked p size off).
Proof.
  step_next. intros i n Hi. rewrite (sn_type _ _ Hi), (sn_size _ _ Hi). case_match; [by apply steps_ret|].
  case_match; [by apply steps_ret|]. cbv zeta. case_match; [|by apply steps_ret].
  eapply steps_bind; [apply read_map_steps|]. intros b ? <-. by apply steps_ret.
Qed.

Lemma write_locked_steps ex p buf off : steps (under ex p) (under ex p) eq (write_locked p buf off) (t_write_locked p buf off).
Proof.
  step_next. intros i n Hi. rewrite (sn_size _ _ Hi). cbv zeta. case_match.
  - step_same. by apply steps_ret.
  - eapply steps_bind; [apply write_map_steps|]. intros ? ? _. by apply steps_ret.
Qed.

Lemma copy_buffers_steps ex p idx bufs : forall index offset,
  steps (under ex p) (under ex p) eq (copy_buffers p idx index offset bufs) (t_copy_buffers p idx index offset bufs).
Proof.
  induction bufs as [|b bufs IH]; intros index offset; [by apply steps_ret|]. cbn [copy_buffers t_copy_buffers].
  eapply (steps_bind _ (under ex p) _ eq); [|intros ? ? <-; apply IH]. case_match; [|by apply steps_ret]. cbv zeta.
  destruct (has (b_flags b) FUSE_BUF_IS_FD).
  - step_same. case_match; [|by apply steps_ret]. eapply steps_bind; [apply write_map_steps|]. intros ? ? _. by apply steps_ret.
  - step_next. intros i n Hi. rewrite (sn_size _ _ Hi). step_same. eapply (steps_bind _ (under ex p) _ eq).
    + case_match; [apply write_map_steps|apply steps_fail].
    + intros ? ? _. by apply steps_ret.
Qed.

Lemma write_buf_locked_steps ex p idx size off bufs extending :
  steps (under ex p) (under ex p) eq (write_buf_locked p idx size off bufs extending) (t_write_buf_locked p idx size off bufs extending).
Proof.
  step_next. intros i n Hi. rewrite (sn_size _ _ Hi). eapply (steps_bind _ (under ex p) _ eq); [|intros ? ? _; apply copy_buffers_steps].
  case_match; [|by apply steps_ret]. step_same. eapply steps_bind; [apply adjust_steps|intros ? ? <-]. step_same. apply steps_set_size.
Qed.

(** ** The handlers *)

Lemma read_implements ino size off : implements same_answer (bitbucket_internal_read BBud ino size off) (t_read BBud ino size off).
Proof.
  apply steps_implements. unfold bitbucket_internal_read, t_read. case_match; [by apply steps_ret|]. step_same. step_same.
  eapply steps_bind; [apply read_locked_steps|]. intros [st b] ? <-. step_same. step_same. apply steps_ret. split; [done|]. cbn. by case_match.
Qed.

Lemma write_implements ino buf off : implements same_answer (bitbucket_internal_write BBud ino buf off) (t_write BBud ino buf off).
Proof.
  apply steps_implements. unfold bitbucket_internal_write, t_write. cbv zeta. case_match; [by apply steps_ret|]. step_same.
  eapply (steps_bind _ shows _ eq).
  - case_match; [by apply steps_ret|]. eapply steps_bind; [apply implements_steps, implements_load|]. intros i n Hi. rewrite (sn_type _ _ Hi).
    case_match; [by apply steps_ret|]. step_same. eapply steps_bind; [apply write_locked_steps|intros ext ? <-]. step_same.
    eapply (steps_bind _ shows _ eq).
    + case_match; [|by apply steps_ret]. step_same. eapply steps_bind; [apply adjust_steps|intros ? ? <-]. step_same. apply steps_assert.
    + intros ? ? _. step_same. by apply steps_ret.
  - intros st ? <-. apply steps_ret. split; [done|]. cbn. by case_match.
Qed.

Lemma write_buf_implements ino idx bufs off :
  implements same_answer (bitbucket_internal_write_buf BBud ino idx bufs off) (t_write_buf BBud ino idx bufs off).
Proof.
  apply steps_implements. unfold bitbucket_internal_write_buf, t_write_buf. cbv zeta. case_match; [by apply steps_ret|]. step_same.
  step_same.
  apply (steps_silent _ shows).
  { intros t [[r t'] Hs] v Hv. apply TM_bind_Some in Hs as (n & t1 & Hn & _). apply bind_Some in Hn as (m & Hm & _).
    by apply (does_check_inode _ m). }
  eapply steps_bind; [apply implements_steps, implements_load|]. intros i n Hi. rewrite (sn_type _ _ Hi).
  eapply (steps_bind _ shows _ eq).
  - case_match; [by apply steps_ret|]. step_same. step_next. intros j n' Hj. rewrite (sn_size _ _ Hj).
    eapply (steps_bind _ (locked _) _ eq).
    + case_match; [|apply (steps_locked false), write_buf_locked_steps]. step_same. step_same. apply (steps_locked true), write_buf_locked_steps.
    + intros ? ? _. eapply steps_bind; [apply steps_unlock_any|intros ? ? _]. step_same. by apply steps_ret.
  - intros st ? <-. apply steps_ret. split; [done|]. cbn. by case_match.
Qed.

Lemma set_size_implements p size : implements eq (set_size p size) (t_size p size).
Proof.
  apply steps_implements. eapply steps_bind; [apply implements_steps, implements_load|]. intros i n Hi. rewrite (sn_size _ _ Hi).
  case_match; [by apply steps_ret|]. step_same. eapply steps_bind; [apply adjust_steps|intros ? ? <-]. step_same. apply steps_unlock.
Qed.

Lemma set_attributes_implements p mode size to_set : implements eq (set_attributes p mode size to_set) (t_set_attributes p mode size to_set).
Proof.
  eapply (implements_bind eq).
  { case_match; [|by apply implements_ret]. apply (implements_chmod _ (fun m => Z.lor (Z.land m S_IFMT) (Z.land mode (wnot 32 S_IFMT)))). }
  intros ? ? _. eapply (implements_bind eq); [case_match; [apply set_size_implements|by apply implements_ret]|]. intros ? ? _.
  implement_step. intros i n Hi. rewrite (sn_type _ _ Hi), (sn_mode _ _ Hi).
  eapply (implements_bind eq); [case_match; [apply implements_assert|by apply implements_ret]|intros ? ? _].
  eapply (implements_bind eq); [case_match; [apply implements_assert|by apply implements_ret]|intros ? ? _].
  by apply implements_ret.
Qed.

Lemma setattr_implements ino mode size to_set :
  implements same_answer (bitbucket_internal_setattr BBud ino mode size to_set) (t_setattr BBud ino mode size to_set).
Proof.
  implement_same. case_match; [implement_answer|]. eapply implements_bind; [apply set_attributes_implements|intros st ? <-].
  eapply (implements_bind same_answer).
  - case_match; [|implement_answer]. implement_step. intros attr ? <-. by apply implements_ret.
  - intros answer answer' Ha. implement_same. by apply implements_ret.
Qed.

Lemma truncate_implements p : implements eq (truncate_on_open p) (t_truncate p).
Proof.
  apply steps_implements. step_same. step_next. intros i n Hi. rewrite (sn_size _ _ Hi). eapply (steps_bind _ (under true p) _ eq).
  - case_match; [apply adjust_steps|by apply steps_ret].
  - intros st ? <-. step_same. apply steps_assert.
Qed.

Lemma open_implements ino flags : implements same_answer (bitbucket_internal_open BBud ino flags) (t_open BBud ino flags).
Proof.
  implement_same. case_match; [implement_answer|]. eapply (implements_bind eq).
  - case_match; [apply truncate_implements|by apply implements_ret].
  - intros ? ? _. implement_same. implement_same. implement_answer.
Qed.

Lemma release_implements ino : implements same_answer (bitbucket_internal_release BBud ino) (t_release BBud ino).
Proof. implement_same. case_match; [implement_answer|]. implement_same. implement_same. implement_answer. Qed.

Lemma sync_file_implements p sync : implements eq (sync_file p sync) (t_sync_file p sync).
Proof.
  apply steps_implements. eapply steps_bind; [apply implements_steps, implements_load|]. intros i n Hi.
  rewrite (sn_type _ _ Hi), (sn_size _ _ Hi). case_match; [|by apply steps_ret]. step_same. step_next. intros f m (_ & _ & ->).
  eapply (steps_bind _ (under false p) _ eq); [|intros ? ? _; apply steps_unlock]. destruct m as [b|]; [|by apply steps_ret].
  cbn [as_mapping]. case_match; [|by apply steps_ret]. step_same. apply steps_assert.
Qed.

Lemma flush_implements ino : implements same_answer (bitbucket_internal_flush BBud ino) (t_flush BBud ino).
Proof.
  unfold bitbucket_internal_flush, t_flush. case_match; [implement_answer|]. implement_same. eapply (implements_bind eq).
  - case_match; [by apply implements_ret|]. eapply implements_bind; [apply sync_file_implements|intros ? ? _]. by apply implements_ret.
  - intros st ? <-. implement_same. implement_answer.
Qed.

Lemma fsync_implements ino : implements same_answer (bitbucket_internal_fsync BBud ino) (t_fsync BBud ino).
Proof.
  unfold bitbucket_internal_fsync, t_fsync. case_match; [implement_answer|]. implement_same. eapply (implements_bind eq).
  - case_match; [by apply implements_ret|]. eapply implements_bind; [apply sync_file_implements|intros ? ? _]. by apply implements_ret.
  - intros st ? <-. implement_same. implement_answer.
Qed.

Lemma fsyncdir_implements ino : implements same_answer (bitbucket_internal_fsyncdir BBud ino) (t_fsyncdir BBud ino).
Proof. implement_same. cbv zeta. implement_same. implement_answer. Qed.

Lemma implements_make_symlink p s Link epoch c e :
  implements eq (BitbucketCreateSymlink p s Link epoch c e) (t_make_symlink p s Link c e).
Proof.
  apply implements_same. intros t r t' Hs Hw. apply bind_Some in Hs as ([[par names] k] & Hl & Hs).
  apply when_Some in Hs as [(Hfree & Hname & Hc & Hlen & He) [= <- <-]]. apply look_dir_looks in Hl; [|done].
  apply fresh_entries_ok in He as [_ [He _]%Forall_cons]. destruct Hc as (? & ? & ? & ? & ? & ? & ?).
  eapply does_create_symlink; try done.
Qed.

Lemma symlink_implements link parent name epoch c e :
  implements same_answer (bitbucket_internal_symlink link parent name epoch c e) (t_symlink link parent name c e).
Proof.
  do 3 implement_same. implement_same. case_match; [|implement_answer].
  eapply implements_bind; [apply implements_make_symlink|intros q ? <-]. cbv zeta. implement_same. case_match; [implement_answer|].
  implement_step. intros fep fep' Hfep. implement_same. implement_same. implement_answer.
Qed.

Lemma readlink_implements ino : implements same_answer (bitbucket_internal_readlink ino) (t_readlink ino).
Proof.
  do 2 implement_same. cbv zeta. eapply (implements_bind same_answer).
  - case_match; [implement_answer|]. implement_step. intros i n Hi. rewrite (sn_type _ _ Hi).
    destruct (Z.eqb_spec (n_type n) BITBUCKET_SYMLINK_TYPE) as [Hty|]; cbn [negb]; [|implement_answer].
    destruct (shows_link_data i n Hty Hi) as (s & -> & _ & ->). implement_answer.
  - intros answer answer' Ha. implement_same. by apply implements_ret.
Qed.
End Refinement.
