(* ===== verification/Attributes.v ===== *)
(** The handlers of extended attributes: setxattr.c, getxattr.c and
    removexattr.c of src/finesse/bitbucket, over xattr.c.

    The handlers take the lock of the inode shared.  A lookup that does not
    find an attribute answers ENODATA, and setxattr goes on to insert it only
    after ENOENT: it never gets that far, and inodes never have attributes
    ([lv_bare]).  The meanings of the requests say so; the code is modelled
    with all its branches. *)

From stdpp Require Import gmap list strings.
From S2P Require Import Prelude NameIndex Trie Object Xattr Inode InodeRules BitbucketData Tree Directory DirectoryRules DirectoryOps DirectoryExchange Directories Enumeration Updates Files Symlinks Handlers TreePrograms Namespace Contents ContentRules.

Open Scope word_scope.

Definition XATTR_CREATE : Z := 1.
Definition XATTR_REPLACE : Z := 2.
Definition ERANGE : Z := 34.

Section Code.
Context {T : Type -> Type} `{NameIndex T} {R : Type} `{!Storage R} (BBud : userdata).
#[local] Notation world := (world T (instance T) (dir_state R) kind).
#[local] Notation MW := (M world).

(** Under the lock.  The value goes to a new attribute at [newx]. *)
Definition set_attribute (inode : ptr) (name : string) (value : list Byte.byte) (flags : Z) (newx : ptr) : MW Z :=
  '(status, _) ← lift_ea inode (BitbucketLookupExtendedAttribute name);
  if status =? 0 then
    if has flags XATTR_CREATE then mret EEXIST
    else
      status ← lift_ea inode (BitbucketRemoveExtendedAttribute name);
      c_assert (status =? 0);;
      lift_ea inode (BitbucketInsertExtendedAttribute name value newx)
  else if status =? ENOENT then
    if has flags XATTR_REPLACE then mret ENODATA else lift_ea inode (BitbucketInsertExtendedAttribute name value newx)
  else mret status.

Definition bitbucket_internal_setxattr (ino : Z) (name : string) (value : list Byte.byte) (flags : Z) (newx : ptr) : MW (Z * reply) :=
  if negb (NoXattr BBud =? 0) then mret (ENOSYS, ReplyErr ENOSYS)
  else
    inode ← get_inode BBud ino;
    if inode =? NULL then mret (EBADF, ReplyErr EBADF)
    else
      BitbucketLockInode inode false;;
      status ← set_attribute inode name value flags newx;
      BitbucketUnlockInode inode;;
      put_inode inode;;
      mret (status, ReplyErr status).

(** A request that is not replied to has [NoReply]. *)
Definition get_attribute (inode : ptr) (name : string) (size : Z) : MW (Z * reply) :=
  '(status, data) ← lift_ea inode (BitbucketLookupExtendedAttribute name);
  if negb (status =? 0) then mret (status, ReplyErr status)
  else
    let data := default [] data in
    if size =? 0 then mret (0, ReplyXattr size)
    else if size <? Z.of_nat (length data) then mret (ERANGE, NoReply)
    else mret (0, ReplyData data).

Definition bitbucket_internal_getxattr (ino : Z) (name : string) (size : Z) : MW (Z * reply) :=
  if negb (NoXattr BBud =? 0) then mret (ENOSYS, ReplyErr ENOSYS)
  else
    inode ← get_inode BBud ino;
    if inode =? NULL then mret (EBADF, NoReply)
    else
      BitbucketLockInode inode false;;
      answer ← get_attribute inode name size;
      BitbucketUnlockInode inode;;
      put_inode inode;;
      mret answer.

Definition remove_attribute (inode : ptr) (name : string) : MW Z :=
  '(status, _) ← lift_ea inode (BitbucketLookupExtendedAttribute name);
  if status =? ENOENT then mret ENODATA else lift_ea inode (BitbucketRemoveExtendedAttribute name).

Definition bitbucket_internal_removexattr (ino : Z) (name : string) : MW (Z * reply) :=
  if negb (NoXattr BBud =? 0) then mret (ENOSYS, ReplyErr ENOSYS)
  else
    inode ← get_inode BBud ino;
    if inode =? NULL then mret (EBADF, ReplyErr EBADF)
    else
      BitbucketLockInode inode false;;
      status ← remove_attribute inode name;
      BitbucketUnlockInode inode;;
      put_inode inode;;
      mret (status, ReplyErr status).
End Code.

(** * What they mean *)

Section Spec.
Context {R : Type} `{!Storage R} (BBud : userdata).
#[local] Notation tree := (tree R).
#[local] Notation TM := (TM R).

(** All three look for an inode and refuse: with [refusal] when it exists,
    and with [missing] when it does not. *)
Definition t_refuse (ino : Z) (refusal missing : Z * reply) : TM (Z * reply) :=
  if negb (NoXattr BBud =? 0) then mret (ENOSYS, ReplyErr ENOSYS)
  else
    p ← t_get BBud ino;
    if p =? NULL then mret missing
    else t_lock p;; t_unlock;; t_put p;; mret refusal.

Definition t_setxattr (ino : Z) : TM (Z * reply) := t_refuse ino (ENODATA, ReplyErr ENODATA) (EBADF, ReplyErr EBADF).
Definition t_getxattr (ino : Z) : TM (Z * reply) := t_refuse ino (ENODATA, ReplyErr ENODATA) (EBADF, NoReply).
Definition t_removexattr (ino : Z) : TM (Z * reply) := t_refuse ino (ENOENT, ReplyErr ENOENT) (EBADF, ReplyErr EBADF).
End Spec.

Section Refinement.
Context {T : Type -> Type} `{NameIndex T} {R : Type} `{!Storage R} (BBud : userdata).
#[local] Notation world := (world T (instance T) (dir_state R) kind).
#[local] Notation MW := (M world).
#[local] Notation view := (view T (instance T) (dir_state R) kind).
#[local] Notation tree := (tree R).
#[local] Notation TM := (TM R).
#[local] Notation implements := (implements (T := T) (R := R)).
#[local] Notation steps := (steps (T := T) (R := R)).
Implicit Types (v : view) (t : tree) (p : ptr).

(** Without attributes nothing is found, and nothing is changed. *)
Definition bare (s : xattrs (T := T)) : Prop := Magic s = BITBUCKET_INODE_MAGIC /\ ExtendedAttributeTrie s = None.

Lemma lookup_bare name s : bare s -> BitbucketLookupExtendedAttribute name s = Done ((ENODATA, None), s).
Proof.
  intros [Hm Ht]. unfold BitbucketLookupExtendedAttribute, Xattr.CHECK_INODE_MAGIC. by rewrite get_state_bind, c_assert_bind, Ht by (by rewrite Hm).
Qed.

Lemma remove_bare name s : bare s -> BitbucketRemoveExtendedAttribute name s = Done (ENOENT, s).
Proof.
  intros [Hm Ht]. unfold BitbucketRemoveExtendedAttribute, Xattr.CHECK_INODE_MAGIC. by rewrite get_state_bind, c_assert_bind, Ht by (by rewrite Hm).
Qed.

(** What leaves the attributes as they are does nothing to the inode. *)
Lemma runs_lift_ea {A} p i (m : M (xattrs (T := T)) A) a v : runs (load_inode p) v i v -> inos v !! p = Some i -> m (ea i) = Done (a, ea i) -> runs (lift_ea p m) v a v.
Proof.
  intros Hl Hi Hm. eapply runs_bind; [exact Hl|]. rewrite Hm. assert (with_ea (ea i) i = i) as -> by (by destruct i).
  eapply runs_bind; [|apply runs_ret]. assert (set_inos <[p := i]> v = v) as Hv.
  { destruct v. unfold set_inos. cbn in *. by rewrite insert_id. }
  rewrite <- Hv at 2. by apply (runs_store p i i v Hi (same_private_refl i)).
Qed.

Lemma steps_lift_ea {A B} (Q : A -> B -> Prop) ex p (m : M (xattrs (T := T)) A) a b :
  (forall s, bare s -> m s = Done (a, s)) -> Q a b -> steps (under ex p) (under ex p) Q (lift_ea p m) (mret b).
Proof.
  intros Hm Hq t b' t' [= <- <-] v [Hv Hp]. exists a, v. split; [|done]. destruct Hv as (i & Hi & _ & Hv).
  destruct (sees_node LockedExclusive p v t i Hi Hv Hp) as (n & _ & Hs). eapply runs_lift_ea; [by apply runs_load|done|].
  apply Hm. split; [exact (lv_magic _ (sn_live _ _ Hs))|exact (lv_bare _ (sn_live _ _ Hs))].
Qed.

Lemma steps_const {A B D} S S1 S2 (Q : B -> D -> Prop) (m : MW A) a (k : A -> MW B) (s : TM D) :
  steps S S1 eq m (mret a) -> steps S1 S2 Q (k a) s -> steps S S2 Q (m ≫= k) s.
Proof.
  intros Hm Hk t d t' Hs v Hv. destruct (Hm t a t eq_refl v Hv) as (a' & v1 & Hr & -> & Hv1).
  destruct (Hk t d t' Hs v1 Hv1) as (b & v2 & Hr2 & Hq & Hv2). exists b, v2. split; [by eapply runs_bind|done].
Qed.

Lemma set_attribute_steps p name value flags newx :
  steps (under false p) (under false p) eq (set_attribute p name value flags newx) (mret ENODATA).
Proof.
  eapply steps_const; [apply (steps_lift_ea _ _ _ _ _ _ (lookup_bare name)); done|]. by apply steps_ret.
Qed.

Lemma get_attribute_steps p name size :
  steps (under false p) (under false p) eq (get_attribute p name size) (mret (ENODATA, ReplyErr ENODATA)).
Proof.
  eapply steps_const; [apply (steps_lift_ea _ _ _ _ _ _ (lookup_bare name)); done|]. by apply steps_ret.
Qed.

Lemma remove_attribute_steps p name : steps (under false p) (under false p) eq (remove_attribute p name) (mret ENOENT).
Proof.
  eapply steps_const; [apply (steps_lift_ea _ _ _ _ _ _ (lookup_bare name)); done|].
  apply (steps_lift_ea _ _ _ _ _ _ (remove_bare name)). done.
Qed.

Ltac refuse_with Hsteps :=
  unfold t_refuse; case_match; [implement_answer|]; apply steps_implements; step_same; case_match; [by apply steps_ret|]; step_same;
  eapply steps_const; [apply Hsteps|]; step_same; step_same; by apply steps_ret.

Lemma setxattr_implements ino name value flags newx :
  implements same_answer (bitbucket_internal_setxattr BBud ino name value flags newx) (t_setxattr BBud ino).
Proof. unfold bitbucket_internal_setxattr, t_setxattr. refuse_with set_attribute_steps. Qed.

Lemma getxattr_implements ino name size : implements same_answer (bitbucket_internal_getxattr BBud ino name size) (t_getxattr BBud ino).
Proof. unfold bitbucket_internal_getxattr, t_getxattr. refuse_with get_attribute_steps. Qed.

Lemma removexattr_implements ino name : implements same_answer (bitbucket_internal_removexattr BBud ino name) (t_removexattr BBud ino).
Proof. unfold bitbucket_internal_removexattr, t_removexattr. refuse_with remove_attribute_steps. Qed.
End Refinement.
