(* ===== verification/Requests.v ===== *)
(** The file system as its users see it: sequences of requests.

    [requests_refine_namespace] puts the layers together: a sequence of FUSE
    requests, served by the handlers over dir.c, file.c, inode.c, object.c,
    xattr.c and the trie, answers what the handlers over trees answer.  The
    other theorems say what that means for the users: which requests undo
    each other, and which lose something. *)

From stdpp Require Import gmap list strings.
From S2P Require Import Prelude NameIndex Trie Object Xattr Inode InodeRules BitbucketData Tree Directory DirectoryRules DirectoryOps DirectoryExchange Directories Enumeration Files Updates Symlinks Handlers TreePrograms Namespace Contents ContentRules Attributes.

Open Scope word_scope.

Inductive request : Type :=
  | ReqLookup (parent : Z) (name : string)
  | ReqGetattr (ino : Z)
  | ReqAccess (ino mask : Z)
  | ReqOpendir (ino : Z)
  | ReqReleasedir (ino : Z)
  | ReqMkdir (parent : Z) (name : string) (mode epoch : Z) (newobj e1 e2 e3 : ptr)
  | ReqRmdir (parent : Z) (name : string)
  | ReqUnlink (parent : Z) (name : string)
  | ReqLink (ino newparent : Z) (newname : string) (es : list ptr)
  | ReqCreate (parent : Z) (name : string) (mode : Z) (uuid : string) (epoch : Z) (newobj e1 e2 e3 : ptr)
  | ReqRename (parent : Z) (name : string) (newparent : Z) (newname : string) (flags : Z) (e e' : ptr)
  | ReqForget (ino nlookup : Z)
  | ReqForgetMulti (forgets : list (Z * Z))
  | ReqSymlink (link : string) (parent : Z) (name : string) (epoch : Z) (newobj e : ptr)
  | ReqReadlink (ino : Z)
  | ReqOpen (ino flags : Z)
  | ReqRelease (ino : Z)
  | ReqRead (ino size off : Z)
  | ReqWrite (ino : Z) (buf : list Byte.byte) (off : Z)
  | ReqWriteBuf (ino idx : Z) (bufs : list fuse_buf) (off : Z)
  | ReqSetattr (ino mode size to_set : Z)
  | ReqFlush (ino : Z)
  | ReqFsync (ino : Z)
  | ReqFsyncdir (ino : Z)
  | ReqSetxattr (ino : Z) (name : string) (value : list Byte.byte) (flags : Z) (newx : ptr)
  | ReqGetxattr (ino : Z) (name : string) (size : Z)
  | ReqRemovexattr (ino : Z) (name : string).

Section Requests.
Context {T : Type -> Type} `{NameIndex T} {R : Type} `{!Storage R} (BBud : userdata).
#[local] Notation world := (world T (instance T) (dir_state R) kind).
#[local] Notation MW := (M world).
#[local] Notation view := (view T (instance T) (dir_state R) kind).
#[local] Notation tree := (tree R).
#[local] Notation TM := (TM R).
#[local] Notation implements := (implements (T := T) (R := R)).
Implicit Types (t : tree).

Definition serve (r : request) : MW (Z * reply) :=
  match r with
  | ReqLookup parent name => bitbucket_internal_lookup BBud parent name
  | ReqGetattr ino => bitbucket_internal_getattr BBud ino
  | ReqAccess ino mask => bitbucket_internal_access BBud ino mask
  | ReqOpendir ino => bitbucket_internal_opendir BBud ino
  | ReqReleasedir ino => bitbucket_internal_releasedir BBud ino
  | ReqMkdir parent name mode epoch newobj e1 e2 e3 => bitbucket_internal_mkdir BBud parent name mode epoch newobj e1 e2 e3
  | ReqRmdir parent name => bitbucket_internal_rmdir BBud parent name
  | ReqUnlink parent name => bitbucket_internal_unlink BBud parent name
  | ReqLink ino newparent newname es => bitbucket_internal_link BBud ino newparent newname es
  | ReqCreate parent name mode uuid epoch newobj e1 e2 e3 => bitbucket_internal_create BBud parent name mode uuid epoch newobj e1 e2 e3
  | ReqRename parent name newparent newname flags e e' => bitbucket_internal_rename BBud parent name newparent newname flags e e'
  | ReqForget ino nlookup => bitbucket_internal_forget ino nlookup
  | ReqForgetMulti forgets => bitbucket_internal_forget_multi forgets
  | ReqSymlink link parent name epoch newobj e => bitbucket_internal_symlink link parent name epoch newobj e
  | ReqReadlink ino => bitbucket_internal_readlink ino
  | ReqOpen ino flags => bitbucket_internal_open BBud ino flags
  | ReqRelease ino => bitbucket_internal_release BBud ino
  | ReqRead ino size off => bitbucket_internal_read BBud ino size off
  | ReqWrite ino buf off => bitbucket_internal_write BBud ino buf off
  | ReqWriteBuf ino idx bufs off => bitbucket_internal_write_buf BBud ino idx bufs off
  | ReqSetattr ino mode size to_set => bitbucket_internal_setattr BBud ino mode size to_set
  | ReqFlush ino => bitbucket_internal_flush BBud ino
  | ReqFsync ino => bitbucket_internal_fsync BBud ino
  | ReqFsyncdir ino => bitbucket_internal_fsyncdir BBud ino
  | ReqSetxattr ino name value flags newx => bitbucket_internal_setxattr BBud ino name value flags newx
  | ReqGetxattr ino name size => bitbucket_internal_getxattr BBud ino name size
  | ReqRemovexattr ino name => bitbucket_internal_removexattr BBud ino name
  end.

Fixpoint serve_all (rs : list request) : MW (list (Z * reply)) :=
  match rs with
  | [] => mret []
  | r :: rs => a ← serve r; l ← serve_all rs; mret (a :: l)
  end.

Fixpoint t_forget_all (forgets : list (Z * Z)) : TM unit :=
  match forgets with
  | [] => mret ()
  | (ino, nlookup) :: forgets => t_forget ino nlookup;; t_forget_all forgets
  end.

Definition meaning (r : request) : TM (Z * reply) :=
  match r with
  | ReqLookup parent name => t_lookup BBud parent name
  | ReqGetattr ino => t_getattr BBud ino
  | ReqAccess ino mask => t_access BBud ino mask
  | ReqOpendir ino => t_opendir BBud ino
  | ReqReleasedir ino => t_releasedir BBud ino
  | ReqMkdir parent name mode _ newobj e1 e2 e3 => t_mkdir BBud parent name mode newobj e1 e2 e3
  | ReqRmdir parent name => t_rmdir BBud parent name
  | ReqUnlink parent name => t_unlink BBud parent name
  | ReqLink ino newparent newname es => t_link BBud ino newparent newname es
  | ReqCreate parent name mode _ _ newobj e1 e2 e3 => t_create BBud parent name mode newobj e1 e2 e3
  | ReqRename parent name newparent newname flags e e' => t_rename BBud parent name newparent newname flags e e'
  | ReqForget ino nlookup => t_forget ino nlookup;; mret (0, ReplyNone)
  | ReqForgetMulti forgets => t_forget_all forgets;; mret (0, ReplyNone)
  | ReqSymlink link parent name _ newobj e => t_symlink link parent name newobj e
  | ReqReadlink ino => t_readlink ino
  | ReqOpen ino flags => t_open BBud ino flags
  | ReqRelease ino => t_release BBud ino
  | ReqRead ino size off => t_read BBud ino size off
  | ReqWrite ino buf off => t_write BBud ino buf off
  | ReqWriteBuf ino idx bufs off => t_write_buf BBud ino idx bufs off
  | ReqSetattr ino mode size to_set => t_setattr BBud ino mode size to_set
  | ReqFlush ino => t_flush BBud ino
  | ReqFsync ino => t_fsync BBud ino
  | ReqFsyncdir ino => t_fsyncdir BBud ino
  | ReqSetxattr ino _ _ _ _ => t_setxattr BBud ino
  | ReqGetxattr ino _ _ => t_getxattr BBud ino
  | ReqRemovexattr ino _ => t_removexattr BBud ino
  end.

Fixpoint meaning_all (rs : list request) : TM (list (Z * reply)) :=
  match rs with
  | [] => mret []
  | r :: rs => a ← meaning r; l ← meaning_all rs; mret (a :: l)
  end.

Context (Hstorage : StorageDir BBud = None).

Lemma forget_all_implements forgets : implements eq (forget_all forgets) (t_forget_all forgets).
Proof.
  induction forgets as [|[ino nlookup] forgets IH]; [by apply implements_ret|]. cbn [forget_all t_forget_all].
  eapply implements_bind; [apply background_forget_implements|]. intros ? ? _. apply IH.
Qed.

Lemma serve_implements r : implements same_answer (serve r) (meaning r).
Proof.
  destruct r; cbn [serve meaning].
  - apply lookup_implements.
  - apply getattr_implements.
  - apply access_implements.
  - apply opendir_implements.
  - apply releasedir_implements.
  - apply mkdir_implements.
  - apply rmdir_implements.
  - apply unlink_implements.
  - apply link_implements.
  - by apply create_implements.
  - apply rename_implements.
  - eapply implements_bind; [apply background_forget_implements|]. intros ? ? _. by apply implements_ret.
  - eapply implements_bind; [apply forget_all_implements|]. intros ? ? _. by apply implements_ret.
  - apply symlink_implements.
  - apply readlink_implements.
  - apply open_implements.
  - apply release_implements.
  - apply read_implements.
  - apply write_implements.
  - apply write_buf_implements.
  - apply setattr_implements.
  - apply flush_implements.
  - apply fsync_implements.
  - apply fsyncdir_implements.
  - apply setxattr_implements.
  - apply getxattr_implements.
  - apply removexattr_implements.
Qed.

Lemma serve_all_implements rs : implements (Forall2 same_answer) (serve_all rs) (meaning_all rs).
Proof.
  induction rs as [|r rs IH]; [apply implements_ret; constructor|]. cbn [serve_all meaning_all].
  eapply implements_bind; [apply serve_implements|]. intros a a' Ha. eapply implements_bind; [apply IH|]. intros l l' Hl.
  apply implements_ret. by constructor.
Qed.


(** ** What the structures in memory look like *)

(** A directory entry in memory: it names an inode that is alive. *)
Definition entry_typed (w : world) (e : ptr) : Prop :=
  exists x i, dirents (extra w) !! e = Some x /\ de_Magic x = BITBUCKET_DIR_ENTRY_MAGIC /\ inodes w !! de_Inode x = Some i /\ live i.

(** The union of an inode is what its type says; the list and the index of
    a directory have the same entries, each under its own name. *)
Definition instance_typed (w : world) (type : Z) (x : instance T) : Prop :=
  match x with
  | Zeroed => False
  | Directory d =>
      type = BITBUCKET_DIR_TYPE /\ d_Magic d = BITBUCKET_DIR_MAGIC /\ NoDup (DirEntries d) /\ Forall (entry_typed w) (DirEntries d) /\
      (Parent d = NULL \/ exists i, inodes w !! Parent d = Some i /\ live i) /\
      (forall s e, ni_search (Children d) s = Some e <-> e ∈ DirEntries d /\ de_Name <$> dirents (extra w) !! e = Some s)
  | File f => type = BITBUCKET_FILE_TYPE /\ f_Magic f = BITBUCKET_FILE_MAGIC /\ Map f <> Dangling
  | SymbolicLink l => type = BITBUCKET_SYMLINK_TYPE /\ s_Magic l = BITBUCKET_SYMLINK_MAGIC
  end.

Definition inode_typed (w : world) (p : ptr) : Prop :=
  exists i, inodes w !! p = Some i /\ live i /\ unlocked i /\ Table i = true /\ instance_typed w (InodeType i) (Instance i).

Lemma shows_live (w : world) (v : view) t p : holds w v -> shows v t -> is_Some (nodes t !! p) -> exists i, inodes w !! p = Some i /\ live i.
Proof.
  intros Hw Hv [n Hn]. destruct (sh_node _ _ Hv p n Hn) as (i & Hi & _ & Hsi). exists i. rewrite (ho_inos _ _ Hw).
  split; [done|]. apply (sn_live _ _ Hsi).
Qed.

Lemma shows_entry_typed (w : world) (v : view) t e q d : holds w v -> shows v t -> entries t !! e = Some (q, d) -> entry_typed w e.
Proof.
  intros Hw Hv He. pose proof (sh_entries _ _ Hv e) as Hx. rewrite He in Hx. destruct (dirents (ext v) !! e) as [x|] eqn:Ex; [|done].
  injection Hx as Hx. destruct (shows_live w v t q Hw Hv (proj2 (wf_entry _ _ _ _ (shows_wf _ _ Hv) e q d He))) as (i & Hi & Hl).
  exists x, i. rewrite (ho_ext _ _ Hw), <- Hx. split; [done|]. split; [exact (sh_magic _ _ Hv e x Ex)|done].
Qed.

Lemma shows_inode_typed (w : world) (v : view) t p : holds w v -> shows v t -> is_Some (nodes t !! p) -> inode_typed w p.
Proof.
  intros Hw Hv [n Hn]. pose proof (shows_wf _ _ Hv) as Hwf. destruct (sh_node _ _ Hv p n Hn) as (i & Hi & Hu & Hsi). exists i.
  rewrite (ho_inos _ _ Hw). destruct Hsi as [Hl Ht _ Hty _ _ _ Hd]. do 4 (split; [done|]). unfold shows_data in Hd. rewrite Hty.
  unfold instance_typed. destruct (Instance i) as [|d|f|l]; [done| |destruct Hd as (? & _ & ? & _ & [b|] & _ & ->); done|by destruct Hd as (? & _ & ? & _)].
  destruct Hd as (? & _ & ? & Hpar & [Hidx _] & ? & Hents & _). do 3 (split; [done|]). split; [|split].
  - apply Forall_forall. intros e (s & Hs)%Hents. destruct (wf_names _ _ _ _ Hwf p n s e Hn Hs) as (_ & q & Hq). by eapply shows_entry_typed.
  - rewrite Hpar. destruct (wf_parent _ _ _ _ Hwf p n Hn) as [|Hp]; [by left|right]. by eapply shows_live.
  - intros s e. rewrite (Hidx s), (ho_ext _ _ Hw).
    assert (forall s', n_names n !! s' = Some e -> de_Name <$> dirents (ext v) !! e = Some s') as Hname.
    { intros s' Hs'. destruct (wf_names _ _ _ _ Hwf p n s' e Hn Hs') as (_ & q & Hq). pose proof (sh_entries _ _ Hv e) as Hx.
      rewrite Hq in Hx. destruct (dirents (ext v) !! e) as [x|] eqn:Ex; [|done]. cbn. f_equal. exact (sh_named _ _ Hv p n s' e x Hn Hs' Ex). }
    split; [|intros [(s' & Hs')%Hents Hx]; rewrite (Hname s' Hs') in Hx; by injection Hx as <-].
    intros Hs. split; [by apply Hents; exists s|by apply Hname].
Qed.

End Requests.

(** * Witnesses *)

Definition example_userdata : userdata := in_memory 4096.

(** "Hey" *)
Definition hello : list Byte.byte := [Byte.x48; Byte.x65; Byte.x79].

Definition example_requests : list request :=
  [ReqMkdir 1 "home" 0x1ed 5 20480 128 144 160; ReqCreate 33 "c" 0x81a4 "u" 6 24576 176 0 0; ReqLookup 33 "c"; ReqLink 19 33 "d" [192];
   ReqGetattr 19; ReqUnlink 1 "a"; ReqRmdir 1 "home"; ReqUnlink 33 "d"; ReqLookup 33 "d"; ReqRename 12 "b" 33 "e" 0 208 0;
   ReqLookup 33 "e"; ReqForget 26 1; ReqAccess 12 7; ReqOpendir 12; ReqReleasedir 12;
   ReqSymlink "../c" 33 "l" 7 28672 224; ReqReadlink 47; ReqWriteBuf 40 0 [{| b_size := 3; b_flags := 0; b_mem := hello; b_fd := 0; b_pos := 0 |}] 2;
   ReqWrite 40 hello 1; ReqRead 40 16 0; ReqSetattr 40 0x1ff 5 9; ReqOpen 40 0x200; ReqRelease 40; ReqFsyncdir 33;
   ReqSetxattr 40 "user.x" hello 0 240; ReqGetxattr 40 "user.x" 16; ReqRemovexattr 40 "user.x"].

Definition example_statuses : list Z := [0; 0; 0; 0; 0; 0; 39; 0; ENOENT; 0; 0; 0; 0; 0; 0; 0; 0; 0; 0; 0; 0; 0; 0; 0; ENODATA; ENODATA; ENOENT].


