(* ===== verification/Readdir.v ===== *)
(** Reading directories: what readdir.c replies, and what it leaves behind.

    [runs_pack] is about the loop that packs entries into the buffer of the
    request: it packs the entries from the position of the context on, as
    many as there is room for, each with the offset at which a later request
    goes on.  [readdir_lists] puts it into the handler: a buffer that is large
    enough gets every name of the directory once, and one reference for the
    reason "Dir:Enum" stays on the directory, since the context is never
    cleaned up. *)

From stdpp Require Import gmap list strings.
From S2P Require Import Prelude NameIndex Trie Object Xattr Inode InodeRules BitbucketData Tree Directory DirectoryRules DirectoryOps DirectoryExchange Directories Enumeration Files Handlers TreePrograms Namespace.

Open Scope word_scope.

Section Readdir.
Context {T : Type -> Type} `{NameIndex T} {R : Type} `{!Storage R} (BBud : userdata).
#[local] Notation world := (world T (instance T) (dir_state R) kind).
#[local] Notation MW := (M world).
#[local] Notation view := (view T (instance T) (dir_state R) kind).
#[local] Notation inode := (inode T (instance T) kind).
#[local] Notation tree := (tree R).
Implicit Types (v : view) (t : tree) (i : inode) (n : node) (p q e : ptr) (ctx : dir_enum_context).

(** ** Packing *)

Definition named v e : Prop := exists x j, dirents (ext v) !! e = Some x /\ inos v !! de_Inode x = Some j.

(** The entry [e] as it is packed when [next] follows it. *)
Definition packed_entry v e next : fuse_dirent :=
  let x := dirents (ext v) !! e in
  let j := x ≫= fun x => inos v !! de_Inode x in
  {| fd_ino := default 0 (st_ino <$> j); fd_off := position_of v next;
     fd_type := dirent_type (default 0 (st_mode <$> j)); fd_name := default EmptyString (de_Name <$> x) |}.

Lemma packed_entry_eq v e next x j :
  dirents (ext v) !! e = Some x -> inos v !! de_Inode x = Some j ->
  packed_entry v e next = {| fd_ino := st_ino j; fd_off := position_of v next; fd_type := dirent_type (st_mode j); fd_name := de_Name x |}.
Proof. intros Hx Hj. unfold packed_entry. rewrite Hx. cbn. by rewrite Hj. Qed.

Fixpoint packed_list v (l : list ptr) next : list fuse_dirent :=
  match l with
  | [] => []
  | e :: l => packed_entry v e (default next (head l)) :: packed_list v l next
  end.

Definition entry_size v e : Z := direntry_size (default EmptyString (de_Name <$> dirents (ext v) !! e)).
Definition room_for v (l : list ptr) : Z := foldr (fun e z => entry_size v e + z) 0 l.

Lemma entry_size_pos v e : 24 <= entry_size v e.
Proof.
  unfold entry_size, direntry_size, FUSE_NAME_OFFSET. set (len := String.length _). rewrite <- Z.ldiff_land. change 7 with (Z.ones 3) at 2.
  rewrite Z.ldiff_ones_r by lia. rewrite Z.shiftl_mul_pow2, Z.shiftr_div_pow2 by lia. change (2 ^ 3) with 8.
  assert (24 <= 24 + Z.of_nat len + 7 - 7) by lia. set (x := 24 + Z.of_nat len + 7) in *.
  assert (3 <= x / 8) by (apply Z.div_le_lower_bound; lia). lia.
Qed.

Lemma room_for_nonneg v l : 0 <= room_for v l.
Proof.
  induction l as [|e l IH]; [done|]. change (room_for v (e :: l)) with (entry_size v e + room_for v l).
  pose proof (entry_size_pos v e). lia.
Qed.

Lemma advanced_named v p i k e : inos v !! p = Some i -> named v e -> named (advanced p i k v) e.
Proof.
  intros Hi (x & j & Hx & Hj). exists x. destruct (decide (de_Inode x = p)) as [E|E].
  - exists (with_epoch k i). split; [done|]. rewrite E. apply lookup_insert_eq.
  - exists j. split; [done|]. cbn. by rewrite lookup_insert_ne.
Qed.

(** What is packed depends on the number and mode of inodes alone. *)
Lemma packed_entry_ext v v' e next :
  ext v' = ext v -> (forall x, st_ino <$> inos v' !! x = st_ino <$> inos v !! x) -> (forall x, st_mode <$> inos v' !! x = st_mode <$> inos v !! x) ->
  packed_entry v' e next = packed_entry v e next.
Proof.
  intros He Hino Hmode. unfold packed_entry, position_of, offset_of. rewrite He. destruct (dirents (ext v) !! e) as [x|]; cbn; [|done].
  by rewrite Hino, Hmode.
Qed.

Lemma packed_list_ext v v' l next :
  ext v' = ext v -> (forall x, st_ino <$> inos v' !! x = st_ino <$> inos v !! x) -> (forall x, st_mode <$> inos v' !! x = st_mode <$> inos v !! x) ->
  packed_list v' l next = packed_list v l next.
Proof. intros He Hino Hmode. induction l as [|e l IH]; cbn [packed_list]; [done|]. by rewrite IH, (packed_entry_ext v v'). Qed.

(** An inode is replaced by one with the same number and mode. *)
Lemma replaced_same {A} (f : inode -> A) (m : gmap ptr inode) p i i' x : m !! p = Some i -> f i' = f i -> f <$> <[p := i']> m !! x = f <$> m !! x.
Proof.
  intros Hi Hf. destruct (decide (x = p)) as [->|Hne]; [by rewrite lookup_insert_eq, Hi; cbn; rewrite Hf|by rewrite lookup_insert_ne].
Qed.

Lemma advanced_packed v p i k e next : inos v !! p = Some i -> packed_entry (advanced p i k v) e next = packed_entry v e next.
Proof. intros Hi. apply packed_entry_ext; [done|..]; intros x; by eapply replaced_same. Qed.

Lemma advanced_packed_list v p i k l next : inos v !! p = Some i -> packed_list (advanced p i k v) l next = packed_list v l next.
Proof. intros Hi. apply packed_list_ext; [done|..]; intros x; by eapply replaced_same. Qed.

(** The loop packs a part of the entries, from the first on; all of them when
    there is room.  At the end of a directory from which nothing was packed
    it reports ENOENT. *)
Lemma runs_pack p size l2 : forall l1 v i ctx fuel used,
  listable v p i (l1 ++ l2) -> Forall (named v) l2 -> at_entry v p ctx (default NULL (head l2)) -> (length l2 < fuel)%nat -> 0 <= used ->
  exists k l l' status, l2 = l ++ l' /\
    runs (pack_entries fuel ctx size used) v (status, packed_list v l (default NULL (head l'))) (advanced p i k v) /\
    (l2 <> [] \/ 0 < used -> status = 0) /\ (used + room_for v l2 + FUSE_NAME_OFFSET < size -> l' = []).
Proof.
  induction l2 as [|e l2 IH]; intros l1 v i ctx fuel used Hl Hn Hc Hf Hu; (destruct fuel as [|fuel]; [cbn in Hf; lia|]); cbn [pack_entries].
  - destruct (used + FUSE_NAME_OFFSET <? size) eqn:E; cbn [negb].
    + eexists _, [], [], _. split; [done|]. split; [|split; [|done]].
      * step_with ltac:(eapply (runs_enumerate_end v p i); [exact Hl|exact Hc]). apply runs_ret.
      * intros [?|?]; [done|]. destruct (Z.eqb_spec used 0); [lia|done].
    + exists (Epoch i), [], [], 0. split; [done|]. split; [|done].
      eapply runs_conv; [apply runs_ret|done|]. symmetry. pose proof (la_inode _ _ _ _ Hl). unfold advanced.
      assert (with_epoch (Epoch i) i = i) as -> by (by destruct i). by apply set_inos_same.
  - apply Forall_cons in Hn as [He Hn]. destruct (used + FUSE_NAME_OFFSET <? size) eqn:E; cbn [negb]; cycle 1.
    { exists (Epoch i), [], (e :: l2), 0. split; [done|]. split; [|split; [done|]].
      - eapply runs_conv; [apply runs_ret|done|]. symmetry. pose proof (la_inode _ _ _ _ Hl). unfold advanced.
        assert (with_epoch (Epoch i) i = i) as -> by (by destruct i). by apply set_inos_same.
      - pose proof (room_for_nonneg v (e :: l2)). apply Z.ltb_ge in E. lia. }
    destruct (runs_enumerate v p i l1 e l2 ctx Hl Hc) as (k & ctx1 & Hr & Hc1).
    pose proof (listable_advanced v p i _ k Hl) as Hl1. rewrite cons_middle, app_assoc in Hl1.
    destruct (entry_position v l1 e l2 (la_entries _ _ _ _ Hl)) as [[He0 _] _].
    pose proof (la_inode _ _ _ _ Hl) as Hi. destruct (advanced_named v p i k e Hi He) as (x & j & Hx & Hj).
    assert (entry_size v e = direntry_size (de_Name x)) as Esize by (unfold entry_size; cbn [advanced set_inos ext] in Hx; by rewrite Hx).
    pose proof (entry_size_pos v e) as Hse.
    assert (LastError ctx1 <> ERESTART) as Herr by (rewrite (ae_error _ _ _ _ Hc1); done).
    destruct (size - used <? direntry_size (de_Name x)) eqn:Efit.
    + exists k, [], (e :: l2), 0. split; [done|]. split; [|split; [done|]].
      * step_with ltac:(exact Hr). lazy beta iota. rewrite (proj2 (Z.eqb_neq _ _) He0), (proj2 (Z.eqb_neq _ _) Herr).
        step_with ltac:(by apply runs_load_dirent). step_with ltac:(by apply runs_load). cbv zeta. rewrite Efit. apply runs_ret.
      * change (room_for v (e :: l2)) with (entry_size v e + room_for v l2). pose proof (room_for_nonneg v l2). apply Z.ltb_lt in Efit.
        unfold FUSE_NAME_OFFSET. lia.
    + assert (at_entry (advanced p i k v) p ctx1 (default NULL (head l2))) as Hc2 by (by apply at_entry_forth). cbn in Hf.
      assert (Forall (named (advanced p i k v)) l2) as Hn1 by (eapply Forall_impl; [exact Hn|]; intros; by apply advanced_named).
      destruct (IH (l1 ++ [e]) (advanced p i k v) (with_epoch k i) ctx1 fuel (used + entry_size v e) Hl1 Hn1 Hc2 ltac:(lia) ltac:(lia))
        as (k' & l & l' & status & -> & Hr' & Hst & Hroom).
      rewrite advanced_packed_list in Hr' by done. rewrite advanced_twice in Hr'.
      assert (room_for (advanced p i k v) (l ++ l') = room_for v (l ++ l')) as Eroom by done.
      exists k', (e :: l), l', status. split; [done|]. split; [|split].
      * step_with ltac:(exact Hr). lazy beta iota. rewrite (proj2 (Z.eqb_neq _ _) He0), (proj2 (Z.eqb_neq _ _) Herr).
        step_with ltac:(by apply runs_load_dirent). step_with ltac:(by apply runs_load). cbv zeta. rewrite Efit.
        rewrite <- Esize. step_with ltac:(exact Hr'). eapply runs_conv; [apply runs_ret| |done]. cbn [packed_list]. do 2 f_equal.
        rewrite <- (advanced_packed v p i k e), (packed_entry_eq _ _ _ x j), (ae_offset _ _ _ _ Hc1) by done.
        by destruct l as [|e' l].
      * intros _. apply Hst. right. lia.
      * change (room_for v (e :: l ++ l')) with (entry_size v e + room_for v (l ++ l')). intros ?. apply Hroom. rewrite Eroom. lia.
Qed.

(** ** The directory of a file system that shows a tree *)

Definition numbered v t p : Prop :=
  forall n s e x, nodes t !! p = Some n -> n_names n !! s = Some e -> dirents (ext v) !! e = Some x -> de_Offset x <> 0.

Definition name_of v e : string := default EmptyString (de_Name <$> dirents (ext v) !! e).

Lemma packed_names v l next : fd_name <$> packed_list v l next = name_of v <$> l.
Proof. induction l as [|e l IH]; [done|]. cbn [packed_list fmap list_fmap]. by rewrite <- IH. Qed.

Lemma shows_listable v t p n i d :
  shows v t -> nodes t !! p = Some n -> n_type n = BITBUCKET_DIR_TYPE -> inos v !! p = Some i -> unlocked i -> shows_inode i n ->
  Instance i = Directory d -> numbered v t p ->
  listable (shared p i v) p (shared_inode i) (DirEntries d) /\ Forall (named v) (DirEntries d).
Proof.
  intros Hv Hn Hty Hi Hu Hs Hd Hnum. destruct (shows_dir_data i n d Hs Hd) as (Hm & _ & _ & Hnd & Hin).
  assert (Forall (fun e => entry_ok v e /\ named v e) (DirEntries d)) as Hall.
  { apply Forall_forall. intros e [s Hs']%Hin. destruct (shows_entry v t p n s e Hv Hn Hs') as (x & q & Hx & Hq & _ & [m Hm'] & He).
    destruct (sh_node _ _ Hv q m Hm') as (j & Hj & _). split; [|exists x, j; by rewrite Hq].
    split; [done|]. exists x. split; [done|]. split; [exact (sh_magic _ _ Hv _ _ Hx)|by eapply Hnum]. }
  split; [|by eapply Forall_impl; [exact Hall|]; intros e [_ ?]].
  constructor; try done.
  - apply lookup_insert_eq.
  - apply (wf_null _ _ _ _ (shows_wf _ _ Hv)). eauto.
  - cbn. by rewrite Hu.
  - apply Hs.
  - cbn. by rewrite (sn_type _ _ Hs).
  - by exists d.
  - eapply Forall_impl; [exact Hall|]. by intros e [? _].
Qed.

(** The names of the entries of a directory are those under which the tree
    has them. *)
Lemma name_of_entry v t p n s e : shows v t -> nodes t !! p = Some n -> n_names n !! s = Some e -> name_of v e = s.
Proof.
  intros Hv Hn Hs. destruct (shows_entry v t p n s e Hv Hn Hs) as (x & q & Hx & _). unfold name_of. rewrite Hx. cbn.
  exact (sh_named _ _ Hv _ _ _ _ _ Hn Hs Hx).
Qed.

Lemma runs_get v t ino p t1 :
  shows v t -> t_get BBud ino t = Some (p, t1) -> p <> NULL ->
  exists bag, counts t !! p = Some bag /\ sum bag + 1 < 2 ^ 32 /\
    runs (get_inode BBud ino) v p (set_refs <[p := bag_add INODE_LOOKUP_REFERENCE 1 bag]> v).
Proof.
  intros Hv Hg Hp0. pose proof (shows_wf _ _ Hv) as Hw.
  assert (forall q t2, t_take q INODE_LOOKUP_REFERENCE t = Some (tt, t2) ->
    exists bag, counts t !! q = Some bag /\ sum bag + 1 < 2 ^ 32 /\ exists n, nodes t !! q = Some n) as Htake.
  { intros q t2 Hs. apply bind_Some in Hs as ([[[ty par] names] k] & Hl & Hs). apply when_Some in Hs as [[_ Hk] _].
    destruct (look_looks _ _ _ _ _ _ Hw Hl) as (n & bag & Hn & _ & _ & _ & Hbag & _ & <-). exists bag. eauto. }
  unfold t_get in Hg. unfold get_inode. destruct (FUSE_ROOT_ID =? ino).
  - unfold mbind, TM_bind in Hg. destruct (t_take (RootDirectory BBud) INODE_LOOKUP_REFERENCE t) as [[[] t2]|] eqn:E; [|done].
    injection Hg as <- <-. destruct (Htake _ _ E) as (bag & Hbag & Hb & _). exists bag. split; [done|]. split; [done|].
    step_with ltac:(apply (runs_reference _ bag); [by rewrite (sh_refs _ _ Hv)|done|done]). apply runs_ret.
  - unfold mbind, TM_bind in Hg. destruct (t_find ino t) as [[o t2]|] eqn:E; [|done]. injection Hg as Ho <-.
    unfold t_find in E. destruct (Z.eqb_spec ino 0) as [|Hz]; [done|]. destruct (by_number ino t) as [q|] eqn:Eb; [|injection E as <- <-; cbn in Ho; congruence].
    apply bind_Some in E as ([[] t3] & E & [= <- <-]). cbn in Ho. subst q. destruct (Htake _ _ E) as (bag & Hbag & Hb & _).
    exists bag. split; [done|]. split; [done|]. destruct (by_number_Some ino t p Eb) as (n & Hn & Hino).
    destruct (sh_node _ _ Hv p n Hn) as (i & Hi & _ & Hsi).
    step_with ltac:(apply (runs_lookup_found p bag i); [by rewrite (sh_refs _ _ Hv)|done|by rewrite (sn_ino _ _ Hsi)|done]). apply runs_ret.
Qed.

(** The view that shows the directory again when all its locks are gone. *)
Lemma shows_enumerated v t p bag k i :
  shows v t -> inos v !! p = Some i -> unlocked i -> counts t !! p = Some bag -> sum bag + 1 < 2 ^ 32 ->
  shows (set_inos <[p := with_epoch k i]> (set_refs <[p := bag_add INODE_ENUM_REFERENCE 1 bag]> v)) (hold p INODE_ENUM_REFERENCE t).
Proof.
  intros Hv Hi Hu Hb Hs. eapply (shows_relock (set_refs <[p := bag_add INODE_ENUM_REFERENCE 1 bag]> v) _ (fun x y => if decide (x = p) then with_epoch k y else y));
    [by apply shows_hold|done..| |].
  - intros x y n _ _ _. case_decide; [by eexists|]. exists (Epoch y). by destruct y.
  - intros x y. cbn. intros Hxy. case_decide; [subst; rewrite lookup_insert_eq; congruence|by rewrite lookup_insert_ne].
Qed.

(** The handler up to the reply, on a directory that it has found. *)
Lemma runs_readdir_locked v t p n i d e es fuel size bag :
  shows v t -> nodes t !! p = Some n -> n_type n = BITBUCKET_DIR_TYPE -> S_ISDIR (n_mode n) = true -> numbered v t p ->
  inos v !! p = Some i -> unlocked i -> shows_inode i n -> Instance i = Directory d -> DirEntries d = e :: es ->
  refs v !! p = Some bag -> sum bag + 1 < 2 ^ 32 -> (S (length es) < fuel)%nat ->
  exists k l l', e :: es = l ++ l' /\ (room_for v (e :: es) + FUSE_NAME_OFFSET < size -> l' = []) /\
    forall (A : Type) (K : Z -> option (list fuse_dirent) -> MW A) r v',
      runs (K 0 (Some (packed_list v l (default NULL (head l')))))
        (set_inos <[p := with_epoch k i]> (set_refs <[p := bag_add INODE_ENUM_REFERENCE 1 bag]> v)) r v' ->
      runs (BitbucketLockInode p false;; '(status, buffer) ← readdir_locked fuel p size 0 true; BitbucketUnlockInode p;; K status buffer) v r v'.
Proof.
  intros Hv Hn Hty Hdir Hnum Hi Hu Hs Hd Hes Hb Hsum Hf. destruct (shows_listable v t p n i d Hv Hn Hty Hi Hu Hs Hd Hnum) as [Hlist Hnamed].
  rewrite Hes in Hlist, Hnamed. set (i2 := shared_inode i) in *. set (v2 := shared p i v) in *.
  assert (inos v2 !! p = Some i2) as Hi2 by apply lookup_insert_eq.
  assert (InodeLock (ea i2) = LockedShared 0) as Hl2 by (cbn; by rewrite Hu).
  assert (listable (shared p i2 v2) p (shared_inode i2) (e :: es)) as Hlist2.
  { pose proof Hlist as []. constructor; try done; [apply lookup_insert_eq|cbn; by rewrite Hu]. }
  assert (InodeLock (ea i2) <> LockedExclusive) as Hnx by (by rewrite Hl2).
  destruct (runs_init v2 p i2 e es bag Hi2 Hnx Hlist2 Hb Hsum) as (k & ctx & Hr & Hc).
  set (v3 := advanced p i2 k (set_refs <[p := bag_add INODE_ENUM_REFERENCE 1 bag]> v2)) in *.
  assert (listable v3 p (with_epoch k i2) ([] ++ e :: es)) as Hlist3.
  { pose proof Hlist as []. constructor; try done. apply lookup_insert_eq. }
  assert (Forall (named v3) (e :: es)) as Hnamed3.
  { eapply Forall_impl; [exact Hnamed|]. intros a (x & j & Hx & Hj). apply (advanced_named _ p i2 k); [done|]. exists x.
    destruct (decide (de_Inode x = p)) as [E|E]; [exists i2; split; [done|]; by rewrite E|]. exists j. split; [done|]. cbn. by rewrite lookup_insert_ne. }
  assert (at_entry v3 p ctx (default NULL (head (e :: es)))) as Hc3 by (destruct Hc; by constructor).
  destruct (runs_pack p size (e :: es) [] v3 (with_epoch k i2) ctx fuel 0 Hlist3 Hnamed3 Hc3 Hf ltac:(done)) as (k' & l & l' & status & Hl & Hr' & Hst & Hroom).
  assert (status = 0) as -> by (apply Hst; by left).
  assert (packed_list v3 l (default NULL (head l')) = packed_list v l (default NULL (head l'))) as Epack.
  { unfold v3. rewrite advanced_packed_list by done. apply packed_list_ext; [done|..]; intros x; by eapply replaced_same. }
  exists k', l, l'. split; [done|]. split; [exact Hroom|]. intros A K r v' HK.
  step_with ltac:(apply (runs_share p i); [by eapply shows_not_null|done|apply Hs|by rewrite Hu]). fold (shared p i v). fold v2.
  assert (runs (readdir_locked fuel p size 0 true) v2 (0, Some (packed_list v l (default NULL (head l')))) (advanced p (with_epoch k i2) k' v3)) as Hin.
  { unfold readdir_locked. step_with ltac:(by apply runs_load). change (st_mode i2) with (st_mode i). rewrite (sn_mode _ _ Hs), Hdir. cbn [negb].
    step_with ltac:(exact Hr). cbn [Z.eqb]. step_with ltac:(apply runs_ret). cbn [Z.eqb negb]. fold v3.
    step_with ltac:(exact Hr'). eapply runs_conv; [apply runs_ret|by rewrite Epack|done]. }
  step_with ltac:(exact Hin). lazy beta iota.
  step_with ltac:(eapply (runs_unshare p _ Unlocked); [apply lookup_insert_eq|apply Hs|done|cbn; by rewrite Hu]).
  match goal with |- runs _ ?x _ _ => assert (x = set_inos <[p := with_epoch k' i]> (set_refs <[p := bag_add INODE_ENUM_REFERENCE 1 bag]> v)) as -> end;
    [|exact HK]. unfold v3, v2, shared, advanced. rewrite !set_inos_twice.
  unfold set_inos, set_refs. cbn. f_equal. rewrite insert_insert_eq. f_equal.
  transitivity (with_epoch k' (with_lock Unlocked i)); [done|by rewrite with_lock_same].
Qed.

(** The room all names of a directory take. *)
Definition room_needed (names : gmap string ptr) : Z := foldr (fun x z => direntry_size x.1 + z) 0 (map_to_list names).

Lemma room_permutation (l l' : list (string * ptr)) :
  l ≡ₚ l' -> foldr (fun x z => direntry_size x.1 + z) 0 l = foldr (fun x z => direntry_size x.1 + z) 0 l'.
Proof. induction 1; cbn; lia. Qed.

(** The list of a directory and its names. *)
Lemma listing_names v t p n l :
  shows v t -> nodes t !! p = Some n -> NoDup l -> (forall e, e ∈ l <-> exists s, n_names n !! s = Some e) ->
  (fun e => (name_of v e, e)) <$> l ≡ₚ map_to_list (n_names n).
Proof.
  intros Hv Hn Hl Hin. apply NoDup_Permutation.
  - apply NoDup_fmap_2; [|done]. by intros a b [= _ ?].
  - apply NoDup_map_to_list.
  - intros [s e]. rewrite elem_of_map_to_list, list_elem_of_fmap. split.
    + intros (e' & [= -> <-] & He). apply Hin in He as [s' Hs']. by rewrite (name_of_entry v t p n s' e).
    + intros Hs. exists e. split; [by rewrite (name_of_entry v t p n s e)|]. apply Hin. eauto.
Qed.

Lemma room_for_listing v t p n l :
  shows v t -> nodes t !! p = Some n -> NoDup l -> (forall e, e ∈ l <-> exists s, n_names n !! s = Some e) ->
  room_for v l = room_needed (n_names n).
Proof.
  intros Hv Hn Hl Hin. unfold room_needed. rewrite <- (room_permutation _ _ (listing_names v t p n l Hv Hn Hl Hin)).
  clear. induction l as [|e l IH]; [done|]. change (room_for v (e :: l)) with (entry_size v e + room_for v l). by rewrite IH.
Qed.

(** C15: Reading a directory from its start replies with entries whose names
    are names of the directory, none of them twice; a buffer with room for
    all of them gets all of them.  What is left is the tree as it was, except
    that the directory has one more reference for the reason "Dir:Enum",
    which nothing takes away again. *)
Theorem readdir_lists fuel ino bufsize v t p t1 n bag :
  shows v t -> t_get BBud ino t = Some (p, t1) -> nodes t !! p = Some n -> n_type n = BITBUCKET_DIR_TYPE -> S_ISDIR (n_mode n) = true ->
  numbered v t p -> n_names n <> ∅ -> counts t !! p = Some bag -> sum bag + 2 < 2 ^ 32 -> (size (n_names n) < fuel)%nat ->
  exists packed v', runs (bitbucket_internal_readdir BBud fuel ino bufsize 0 true) v (0, ReplyBuf packed) v' /\
    shows v' (hold p INODE_ENUM_REFERENCE t) /\ NoDup (fd_name <$> packed) /\
    (forall s, s ∈ fd_name <$> packed -> is_Some (n_names n !! s)) /\
    (room_needed (n_names n) + FUSE_NAME_OFFSET < bufsize -> forall s, is_Some (n_names n !! s) -> s ∈ fd_name <$> packed).
Proof.
  intros Hv Hg Hn Hty Hdir Hnum Hne Hbag Hk2 Hf. pose proof (shows_wf _ _ Hv) as Hw.
  assert (p <> NULL) as Hp0 by (apply (wf_null _ _ _ _ Hw); eauto).
  destruct (runs_get v t ino p t1 Hv Hg Hp0) as (bag' & Hbag' & Hb & Hget). assert (bag' = bag) as -> by congruence.
  set (b1 := bag_add INODE_LOOKUP_REFERENCE 1 bag) in *. set (v1 := set_refs <[p := b1]> v) in *.
  destruct (wf_bag _ _ _ _ Hw p bag Hbag) as (Hlen & Hpos & Hs0). assert (sum b1 = sum bag + 1) as Hs1 by (by apply sum_bag_plus).
  assert (shows v1 (hold p INODE_LOOKUP_REFERENCE t)) as Hv1 by (by apply shows_hold).
  destruct (sh_node _ _ Hv p n Hn) as (i & Hi & Hu & Hs). destruct (shows_directory n i Hty Hs) as [d Hd].
  destruct (shows_dir_data i n d Hs Hd) as (_ & _ & _ & Hnd & Hin).
  assert (length (DirEntries d) = size (n_names n)) as Hlen'.
  { apply values_length; [done..|]. intros s s' e. by eapply wf_once. }
  destruct (DirEntries d) as [|e es] eqn:Hes.
  { destruct Hne. apply map_empty. intros s. apply eq_None_not_Some. intros [e He]. apply (elem_of_nil e), Hin. eauto. }
  destruct (runs_readdir_locked v1 (hold p INODE_LOOKUP_REFERENCE t) p n i d e es fuel bufsize b1 Hv1 Hn Hty Hdir Hnum Hi Hu Hs Hd Hes)
    as (k' & l & l' & Hl & Hroom & Hr); [apply lookup_insert_eq|lia|cbn in Hlen'; lia|].
  set (b2 := bag_add INODE_ENUM_REFERENCE 1 b1) in *. assert (sum b2 = sum b1 + 1) as Hs2 by (apply sum_bag_plus; [by unfold b1; rewrite bag_add_length|done]).
  assert (bag_add INODE_LOOKUP_REFERENCE (-1) b2 = bag_add INODE_ENUM_REFERENCE 1 bag) as Eb.
  { unfold b2, b1. rewrite (bag_add_comm INODE_ENUM_REFERENCE) by done. apply bag_add_back. rewrite bag_add_length. change (Z.to_nat INODE_LOOKUP_REFERENCE) with 0%nat. lia. }
  exists (packed_list v l (default NULL (head l'))), (set_inos <[p := with_epoch k' i]> (set_refs <[p := bag_add INODE_ENUM_REFERENCE 1 bag]> v)).
  assert (forall x, x ∈ l -> exists s, n_names n !! s = Some x /\ name_of v x = s) as Hname.
  { intros x Hx. assert (x ∈ e :: es) as Hx' by (rewrite Hl; apply elem_of_app; by left). apply Hin in Hx' as [s Hs'].
    exists s. split; [done|]. by eapply name_of_entry. }
  rewrite packed_names. split; [|split; [|split; [|split]]].
  - unfold bitbucket_internal_readdir. cbn [Z.eqb]. step_with ltac:(exact Hget). fold b1. fold v1.
    rewrite (proj2 (Z.eqb_neq _ _) Hp0).
    apply Hr. rewrite (packed_list_ext v v1) by done. unfold put_inode. rewrite (proj2 (Z.eqb_neq _ _) Hp0).
    step_with ltac:(apply (runs_dereference p b2); [apply lookup_insert_eq|done| |lia]).
    { destruct (bag_lookup _ _ _ t p bag INODE_LOOKUP_REFERENCE Hw Hbag ltac:(done)) as (x & Hx & Hx0).
      unfold b2. rewrite bag_other by done. unfold b1. rewrite (bag_this _ _ _ x) by done. cbn. lia. }
    change (- (1)) with (-1). rewrite Eb. eapply runs_conv; [apply runs_ret|done|].
    unfold set_inos, set_refs. cbn. by rewrite !insert_insert_eq.
  - by apply shows_enumerated.
  - rewrite Hl in Hnd. apply NoDup_app in Hnd as (Hnd & _). apply NoDup_fmap_2_strong; [|done]. intros x y Hx Hy E.
    destruct (Hname x Hx) as (s & Hsx & Ex). destruct (Hname y Hy) as (s' & Hsy & Ey). congruence.
  - intros s (x & -> & Hx)%list_elem_of_fmap. destruct (Hname x Hx) as (s & Hsx & ->). eauto.
  - intros Hbuf s [x Hx]. assert (x ∈ e :: es) as Hx' by (apply Hin; eauto). apply list_elem_of_fmap. exists x.
    split; [symmetry; by eapply name_of_entry|]. rewrite Hl, (Hroom ltac:(rewrite (room_for_listing v1 _ p n (e :: es) Hv1 Hn Hnd Hin); done)), app_nil_r in Hx'. done.
Qed.

(** Reading a directory that was removed while it was open: it has no
    entry left, which the enumeration asserts not to happen. *)
Theorem readdir_removed_asserts fuel ino bufsize v t p t1 n bag :
  shows v t -> t_get BBud ino t = Some (p, t1) -> nodes t !! p = Some n -> n_type n = BITBUCKET_DIR_TYPE -> S_ISDIR (n_mode n) = true ->
  n_names n = ∅ -> counts t !! p = Some bag -> sum bag + 2 < 2 ^ 32 ->
  fails (bitbucket_internal_readdir BBud fuel ino bufsize 0 true) v AssertFailed.
Proof.
  intros Hv Hg Hn Hty Hdir Hne Hbag Hk2. pose proof (shows_wf _ _ Hv) as Hw.
  assert (p <> NULL) as Hp0 by (apply (wf_null _ _ _ _ Hw); eauto).
  destruct (runs_get v t ino p t1 Hv Hg Hp0) as (bag' & Hbag' & Hb & Hget). assert (bag' = bag) as -> by congruence.
  destruct (wf_bag _ _ _ _ Hw p bag Hbag) as (Hlen & Hpos & Hs0).
  set (b1 := bag_add INODE_LOOKUP_REFERENCE 1 bag) in *. set (v1 := set_refs <[p := b1]> v) in *.
  assert (sum b1 = sum bag + 1) as Hs1 by (by apply sum_bag_plus).
  assert (shows v1 (hold p INODE_LOOKUP_REFERENCE t)) as Hv1 by (by apply shows_hold).
  destruct (sh_node _ _ Hv p n Hn) as (i & Hi & Hu & Hs). destruct (shows_directory n i Hty Hs) as [d Hd].
  destruct (shows_dir_data i n d Hs Hd) as (_ & _ & _ & _ & Hin).
  assert (DirEntries d = []) as Hes.
  { destruct (DirEntries d) as [|e es]; [done|]. destruct (proj1 (Hin e)) as [s Hs']; [by left|]. by rewrite Hne in Hs'. }
  assert (numbered v1 (hold p INODE_LOOKUP_REFERENCE t) p) as Hnum.
  { intros m s e x Hm Hs'. cbn in Hm. assert (m = n) as -> by congruence. by rewrite Hne in Hs'. }
  destruct (shows_listable v1 _ p n i d Hv1 Hn Hty Hi Hu Hs Hd Hnum) as [Hlist _]. rewrite Hes in Hlist.
  set (i2 := shared_inode i) in *. set (v2 := shared p i v1) in *. assert (InodeLock (ea i2) = LockedShared 0) as Hl2 by (cbn; by rewrite Hu).
  eapply fails_later; [exact Hget|]. fold b1. fold v1. rewrite (proj2 (Z.eqb_neq _ _) Hp0).
  eapply fails_later; [apply (runs_share p i); [by eapply shows_not_null|done|apply Hs|by rewrite Hu]|]. fold (shared p i v1). fold v2. apply fails_here.
  unfold readdir_locked. eapply fails_later; [apply runs_load, lookup_insert_eq|]. change (st_mode _) with (st_mode i).
  rewrite (sn_mode _ _ Hs), Hdir. cbn [negb]. apply fails_here.
  apply (fails_init_empty v2 p i2 b1); [apply lookup_insert_eq|by rewrite Hl2| |apply lookup_insert_eq|lia].
  pose proof Hlist as []. constructor; try done; [apply lookup_insert_eq|cbn; by rewrite Hu].
Qed.

(** Reading a directory whose number is unknown: the handler locks the
    inode it did not find, and the lock asserts that there is one. *)
Theorem readdir_unknown_crashes fuel ino bufsize off room v t :
  shows v t -> ino <> FUSE_ROOT_ID -> ino <> 0 -> by_number ino t = None -> off <> -1 ->
  fails (bitbucket_internal_readdir BBud fuel ino bufsize off room) v AssertFailed.
Proof.
  intros Hv Hroot Hz Hno Ho. unfold bitbucket_internal_readdir. rewrite (proj2 (Z.eqb_neq _ _) Ho).
  assert (runs (get_inode BBud ino) v NULL v) as Hget.
  { unfold get_inode. destruct (Z.eqb_spec FUSE_ROOT_ID ino); [congruence|].
    step_with ltac:(apply runs_lookup_missing; [done|]; by eapply shows_unused). apply runs_ret. }
  eapply fails_later; [exact Hget|]. apply fails_here. unfold BitbucketLockInode. apply fails_here. by intros w Hw.
Qed.
End Readdir.

(** * Witnesses *)

#[local] Notation example_memory := (world Trie (instance Trie) (dir_state unit) kind).
#[local] Notation root := (in_memory 4096).

Lemma example_numbered p : numbered example_view example_tree p.
Proof.
  assert (bool_decide (map_Forall (fun _ x => de_Offset x <> 0) (dirents (ext example_view))) = true) as Ho by (vm_compute; reflexivity).
  apply bool_decide_eq_true in Ho. intros n s e x _ _ Hx. exact (Ho e x Hx).
Qed.

(** The root, locked for an enumeration. *)
Lemma example_listable : exists i w, listable (shared 4096 i example_view) 4096 (shared_inode i) [96; 80; 32; 16] /\
  holds w (shared 4096 i example_view).
Proof.
  assert (exists n, nodes example_tree !! 4096 = Some n /\ n_type n = BITBUCKET_DIR_TYPE) as (n & Hn & Hty) by (eexists; evaluates).
  destruct (sh_node _ _ example_shows 4096 n Hn) as (i & Hi & Hu & Hs). destruct (shows_directory n i Hty Hs) as [d Hd].
  assert (DirEntries d = [96; 80; 32; 16]) as Hl.
  { assert (exists j c, inos example_view !! 4096 = Some j /\ Instance j = Directory c /\ DirEntries c = [96; 80; 32; 16])
      as (j & c & Hj & Hc & <-) by (do 2 eexists; evaluates). congruence. }
  destruct (shows_listable example_view example_tree 4096 n i d example_shows Hn Hty Hi Hu Hs Hd (example_numbered 4096)) as [Hlist _].
  rewrite Hl in Hlist. assert (InodeLock (ea i) <> LockedExclusive) as Hfree by (by rewrite Hu).
  destruct (runs_share 4096 i example_view ltac:(done) Hi (lv_magic _ (sn_live _ _ Hs)) Hfree example_world example_holds) as (w & _ & Hw).
  exists i, w. exact (conj Hlist Hw).
Qed.

Definition example_context (p e : ptr) (offset : Z) : dir_enum_context :=
  {| ec_Magic := BITBUCKET_DIR_ENUM_CONTEXT_MAGIC; ec_Directory := p; NextEntry := e; Offset := offset; ec_Epoch := 0; LastError := 0 |}.

(** The root is enumerated from the second entry of its list. *)
Lemma enumeration_visits_witness :
  exists (w : example_memory) ctx ctx' w', enumerate_all 4 ctx w = Done (([80; 32; 16], ctx'), w') /\ LastError ctx' = ENOENT.
Proof.
  destruct example_listable as (i & w & Hl & Hw). set (v := shared 4096 i example_view) in *.
  set (ctx := example_context 4096 80 (position_of v 80)).
  assert (at_entry v 4096 ctx 80) as Hc by (constructor; reflexivity).
  destruct (enumeration_visits 4096 [80; 32; 16] [96] v (shared_inode i) ctx 4 Hl Hc ltac:(cbn; lia)) as (k & ctx' & Hr & He).
  destruct (Hr w Hw) as (w' & Hrun & _). exists w, ctx, ctx', w'. exact (conj Hrun He).
Defined.

(** The entry at 999 is gone. *)
Lemma removed_entry_dangles_witness :
  exists w : example_memory, BitbucketEnumerateDirectory (example_context 4096 999 7) w = Fail BadPointer.
Proof.
  destruct example_listable as (i & w & Hl & Hw). exists w.
  apply (removed_entry_dangles (shared 4096 i example_view) 4096 (shared_inode i) (example_context 4096 999 7) [96; 80; 32; 16] Hl);
    [reflexivity|reflexivity|reflexivity|discriminate|discriminate|vm_compute; reflexivity|exact Hw].
Defined.

(** The root is read with a large buffer. *)
Lemma readdir_lists_witness :
  exists packed w', bitbucket_internal_readdir root 5 1 4096 0 true example_world = Done ((0, ReplyBuf packed), w') /\
    NoDup (fd_name <$> packed) /\ "usr"%string ∈ fd_name <$> packed.
Proof.
  assert (exists t1 n, t_get root 1 example_tree = Some (4096, t1) /\ nodes example_tree !! 4096 = Some n /\ n_type n = BITBUCKET_DIR_TYPE /\
    S_ISDIR (n_mode n) = true /\ n_names n !! "usr"%string = Some 80 /\ size (n_names n) = 4%nat /\
    bool_decide (room_needed (n_names n) + FUSE_NAME_OFFSET < 4096) = true /\
    counts example_tree !! 4096 = Some [1; 2; 3; 0; 0; 0; 0; 0; 0; 0; 0; 0])
    as (t1 & n & Hg & Hn & Hty & Hdir & Husr & Hsize & Hroom & Hc) by (do 2 eexists; evaluates).
  assert (n_names n <> ∅) as Hne by (intros E; rewrite E in Husr; discriminate Husr).
  destruct (readdir_lists root 5 1 4096 example_view example_tree 4096 t1 n _ example_shows Hg Hn Hty Hdir (example_numbered 4096) Hne Hc
    eq_refl ltac:(lia)) as (packed & v' & Hr & _ & Hnd & _ & Hall).
  destruct (Hr example_world example_holds) as (w' & Hrun & _). exists packed, w'. split; [exact Hrun|]. split; [exact Hnd|].
  apply Hall; [exact (proj1 (bool_decide_eq_true _) Hroom)|]. by exists 80.
Defined.

(** A directory that is removed while a handler has a reference. *)
Definition removed_ops : list dir_op :=
  [MakeRoot 1 4096 16 32; MakeDir 4096 "usr" 2 8192 48 64 80; Delete 4096 "usr"; Rmdir 8192].

Lemma readdir_removed_asserts_witness :
  exists w, run_ops (T := Trie) (R := unit) removed_ops (new_file_system tt) = Done ([4096; 8192; 0; 0], w) /\
    bitbucket_internal_readdir root 5 12 4096 0 true w = Fail AssertFailed.
Proof.
  assert (exists w t t1 n bag, run_ops (T := Trie) (R := unit) removed_ops (new_file_system tt) = Done ([4096; 8192; 0; 0], w) /\
    built tt removed_ops = Some (w, t) /\ t_get root 12 t = Some (8192, t1) /\ nodes t !! 8192 = Some n /\ n_type n = BITBUCKET_DIR_TYPE /\
    S_ISDIR (n_mode n) = true /\ n_names n = ∅ /\ counts t !! 8192 = Some bag /\ sum bag = 1)
    as (w & t & t1 & n & bag & Hrun & Hb & Hg & Hn & Hty & Hdir & Hnone & Hc & Hsum) by (do 5 eexists; evaluates).
  destruct (built_ok _ _ _ _ Hb) as [Hw Hv]. clear Hb. exists w. split; [exact Hrun|].
  exact (readdir_removed_asserts root 5 12 4096 (seen w t) t 8192 t1 n bag Hv Hg Hn Hty Hdir Hnone Hc ltac:(lia) w Hw).
Defined.

(** No inode has the number 77. *)
Lemma readdir_unknown_crashes_witness : bitbucket_internal_readdir root 5 77 4096 0 true example_world = Fail AssertFailed.
Proof.
  apply (readdir_unknown_crashes root 5 77 4096 0 true example_view example_tree example_shows);
    [discriminate|discriminate|vm_compute; reflexivity|discriminate|exact example_holds].
Defined.
