(* ===== verification/Effects.v ===== *)
(** What single requests do to the name space.

    The theorems are about the meanings of requests (Namespace.v), which the
    handlers implement (Requests.v): the references a handler takes for
    itself are given back, a lookup and a forget cancel, and so do the
    creation and removal of a directory.  Where a handler does not do what it
    is for, the theorem says what it does instead: a rename takes the parent
    of a directory away, a link to a name that exists removes the name, and a
    directory that is refused removal keeps a reference. *)

From stdpp Require Import gmap list strings.
From S2P Require Import Prelude NameIndex Trie Object Xattr Inode InodeRules BitbucketData Tree Directory DirectoryRules DirectoryOps DirectoryExchange Directories Enumeration Files Handlers TreePrograms Namespace Requests.

Open Scope word_scope.

Section Effects.
Context {R : Type} (BBud : userdata).
#[local] Notation tree := (tree R).
#[local] Notation TM := (TM R).
Implicit Types (t : tree) (n : node) (p q e : ptr).

(** ** References that are taken and given back *)

(** The inode has fewer references than fit. *)
Definition room t p (k : Z) : Prop := exists n bag, nodes t !! p = Some n /\ counts t !! p = Some bag /\ sum bag + k < 2 ^ 32.

Lemma t_take_Some p r t u t' : t_take p r t = Some (u, t') -> t' = hold p r t /\ plain r /\ room t p 1.
Proof.
  intros Hs. apply bind_Some in Hs as ([[[ty par] names] k] & Hl & Hs). apply when_Some in Hs as [[Hr Hk] [= _ <-]].
  split; [done|]. split; [done|]. unfold look in Hl. destruct (nodes t !! p) as [n|] eqn:Hn, (counts t !! p) as [bag|] eqn:Hb; try done.
  injection Hl as <- <- <- <-. by exists n, bag.
Qed.

Lemma hold_comm p r q r' t : 0 <= r -> 0 <= r' -> hold p r (hold q r' t) = hold q r' (hold p r t).
Proof.
  intros Hr Hr'. unfold hold, set_counts. cbn. f_equal. apply map_eq. intros x.
  destruct (decide (p = q)) as [->|Hpq].
  - destruct (decide (x = q)) as [->|Hxq]; [|by rewrite !lookup_alter_ne by done]. rewrite !lookup_alter_eq.
    destruct (counts t !! q) as [bag|]; [|done]. cbn. f_equal. destruct (decide (r = r')) as [->|Hne]; [done|].
    unfold bag_add. rewrite !list_lookup_insert_ne by lia. apply list_insert_insert_ne. lia.
  - destruct (decide (x = p)) as [->|Hxp]; [by rewrite lookup_alter_eq, !lookup_alter_ne, lookup_alter_eq by done|].
    destruct (decide (x = q)) as [->|Hxq]; [by rewrite lookup_alter_ne, !lookup_alter_eq, lookup_alter_ne by done|].
    by rewrite !lookup_alter_ne by done.
Qed.

Lemma hold_sound p r t : sound t -> plain r -> room t p 1 -> sound (hold p r t).
Proof. intros Hw Hr (n & bag & _ & Hb & Hk). by eapply wf_hold_plain. Qed.

Lemma hold_nodes p r t : nodes (hold p r t) = nodes t.
Proof. done. Qed.

Lemma t_drop_hold p r t : sound t -> plain r -> room t p 0 -> t_drop p r (hold p r t) = Some ((), t).
Proof.
  intros Hw Hr (n & bag & Hn & Hb & Hk). destruct (bag_lookup _ _ _ t p bag r Hw Hb (proj1 Hr)) as (x & Hx & Hx0).
  destruct (wf_bag _ _ _ _ Hw p bag Hb) as (Hl & _ & Hs).
  assert (counts (hold p r t) !! p = Some (bag_add r 1 bag)) as Hb' by (cbn; by rewrite lookup_alter_eq, Hb).
  unfold t_drop, spec_release, look. rewrite hold_nodes, Hn, Hb'. cbn. unfold when. rewrite decide_True.
  - cbn. by rewrite (drop_hold p r t bag) by (done || apply Hr).
  - split; [done|]. split; [rewrite (bag_this _ _ _ x) by done; cbn; lia|]. left. rewrite sum_bag_plus by (done || apply Hr). lia.
Qed.

Lemma t_put_hold p t : sound t -> p <> NULL -> room t p 0 -> t_put p (hold p INODE_LOOKUP_REFERENCE t) = Some ((), t).
Proof. intros Hw Hp Hr. unfold t_put. rewrite (proj2 (Z.eqb_neq _ _) Hp). by apply t_drop_hold. Qed.

Lemma room_less t p k k' : room t p k -> k' <= k -> room t p k'.
Proof. intros (n & bag & Hn & Hb & Hk) Hle. exists n, bag. repeat split; try done. lia. Qed.

Lemma room_hold t p q r k : 0 <= r < 12 -> sound t -> room (hold q r t) p k -> room t p k.
Proof.
  intros Hr Hw (n & bag & Hn & Hb & Hk). destruct (decide (p = q)) as [->|Hne].
  - cbn in Hb. rewrite lookup_alter_eq in Hb. destruct (counts t !! q) as [bag0|] eqn:E; [|done]. injection Hb as <-.
    exists n, bag0. destruct (wf_bag _ _ _ _ Hw q bag0 E) as (Hl & _). rewrite sum_bag_plus in Hk by done. repeat split; try done. lia.
  - cbn in Hb. rewrite lookup_alter_ne in Hb by done. by exists n, bag.
Qed.

Lemma room_hold_same t q r k : 0 <= r < 12 -> sound t -> room (hold q r t) q k -> room t q (k + 1).
Proof.
  intros Hr Hw (n & bag & Hn & Hb & Hk). cbn in Hb. rewrite lookup_alter_eq in Hb. destruct (counts t !! q) as [bag0|] eqn:E; [|done].
  injection Hb as <-. exists n, bag0. destruct (wf_bag _ _ _ _ Hw q bag0 E) as (Hl & _). rewrite sum_bag_plus in Hk by done.
  repeat split; try done. lia.
Qed.

Lemma room_took t q r k : plain r -> sound t -> room t q (k + 1) -> room (hold q r t) q k.
Proof.
  intros Hr Hw (n & bag & Hn & Hb & Hk). exists n, (bag_add r 1 bag). cbn. rewrite lookup_alter_eq, Hb.
  destruct (wf_bag _ _ _ _ Hw q bag Hb) as (Hl & _). rewrite sum_bag_plus by (done || apply Hr). repeat split; try done. lia.
Qed.

Lemma room_here t p : sound t -> is_Some (nodes t !! p) -> room t p 0.
Proof.
  intros Hw Hp. destruct (proj1 (wf_dom _ _ _ _ Hw p) Hp) as [bag Hb]. destruct Hp as [n Hn]. exists n, bag.
  destruct (wf_bag _ _ _ _ Hw p bag Hb) as (_ & _ & ?). repeat split; try done. lia.
Qed.

(** What [t_get] answers. *)
Lemma t_get_Some ino t p t1 : t_get BBud ino t = Some (p, t1) -> p <> NULL -> t1 = hold p INODE_LOOKUP_REFERENCE t /\ room t p 1.
Proof.
  unfold t_get. intros Hg Hp. destruct (FUSE_ROOT_ID =? ino).
  - apply TM_bind_Some in Hg as ([] & t2 & Ht & Hg). apply t_ret_Some in Hg as [= -> ->]. by apply t_take_Some in Ht as (-> & _ & ?).
  - apply TM_bind_Some in Hg as (o & t2 & Ht & Hg). apply t_ret_Some in Hg as [= Ho ->]. unfold t_find in Ht.
    destruct (ino =? 0); [done|]. destruct (by_number ino t) as [q|]; [|injection Ht as <- <-; done].
    apply bind_Some in Ht as ([[] t3] & Ht & [= <- <-]). cbn in Ho. subst q. by apply t_take_Some in Ht as (-> & _ & ?).
Qed.

(** Without an inode nothing is done. *)
Lemma t_get_None ino t t1 : t_get BBud ino t = Some (NULL, t1) -> sound t -> t1 = t.
Proof.
  unfold t_get. intros Hg Hw. assert (forall t2, t_take NULL INODE_LOOKUP_REFERENCE t = Some (tt, t2) -> False) as Hno.
  { intros t2 Ht. apply t_take_Some in Ht as (_ & _ & n & bag & Hn & _). by apply (wf_null _ _ _ _ Hw NULL); eauto. }
  destruct (FUSE_ROOT_ID =? ino).
  - apply TM_bind_Some in Hg as ([] & t2 & Ht & Hg). apply t_ret_Some in Hg as [= E ->]. rewrite <- E in Ht. by apply Hno in Ht.
  - apply TM_bind_Some in Hg as (o & t2 & Ht & Hg). apply t_ret_Some in Hg as [= Ho ->]. unfold t_find in Ht.
    destruct (ino =? 0); [done|]. destruct (by_number ino t) as [q|]; [|by injection Ht as <- <-].
    apply bind_Some in Ht as ([[] t3] & Ht & [= <- <-]). cbn in Ho. subst q. by apply Hno in Ht.
Qed.

(** ** Lookup and forget *)

Lemma plain_lookup : plain INODE_LOOKUP_REFERENCE.
Proof. by split. Qed.
Lemma plain_fuse : plain INODE_FUSE_LOOKUP_REFERENCE.
Proof. by split. Qed.

(** What a directory lookup answers. *)
Lemma spec_lookup_Some p s t q t1 :
  spec_lookup p s t = Some (q, t1) -> sound t -> q <> NULL ->
  t1 = hold q INODE_LOOKUP_REFERENCE t /\ room t q 1 /\ exists n e d, nodes t !! p = Some n /\ n_names n !! s = Some e /\ entries t !! e = Some (q, d).
Proof.
  unfold spec_lookup. intros Hs Hw Hq. apply bind_Some in Hs as ([[par names] k] & Hd & Hs).
  destruct (look_dir_looks _ _ _ _ _ Hw Hd) as (n & bag & Hn & _ & _ & Hnames & _). destruct (names !! s) as [e|] eqn:He; [|congruence].
  apply bind_Some in Hs as ([q' d] & Hent & Hs). apply bind_Some in Hs as ([[[ty par'] names'] kq] & Hl & Hs).
  apply when_Some in Hs as [Hk [= <- <-]]. split; [done|]. split; [|exists n, e, d; by rewrite Hnames].
  destruct (look_looks _ _ _ _ _ _ Hw Hl) as (nq & bagq & Hnq & _ & _ & _ & Hbq & _ & <-). by exists nq, bagq.
Qed.

Lemma spec_lookup_NULL p s t t1 : spec_lookup p s t = Some (NULL, t1) -> sound t -> t1 = t.
Proof.
  unfold spec_lookup. intros Hs Hw. apply bind_Some in Hs as ([[par names] k] & Hd & Hs). destruct (names !! s) as [e|]; [|by injection Hs].
  apply bind_Some in Hs as ([q' d] & Hent & Hs). apply bind_Some in Hs as ([[[ty par'] names'] kq] & Hl & Hs).
  apply when_Some in Hs as [Hk [= -> <-]]. destruct (look_looks _ _ _ _ _ _ Hw Hl) as (nq & bagq & Hnq & _).
  by destruct (wf_null _ _ _ _ Hw NULL ltac:(eauto)).
Qed.

Lemma t_entry_Some p t fep t' : t_entry p t = Some (fep, t') -> t' = t /\ exists n, nodes t !! p = Some n /\ fep = ReplyEntry (n_ino n) 0 (node_stat n).
Proof.
  unfold t_entry, t_stat, t_node. intros Hs. apply TM_bind_Some in Hs as (n & t1 & Hn & Hs). apply bind_Some in Hn as (m & Hm & [= <- <-]).
  rewrite (TM_bind_done _ _ _ (node_stat m) t) in Hs; [|by unfold mbind, TM_bind; rewrite Hm]. injection Hs as <- <-. split; [done|]. by exists m.
Qed.

(** A lookup that succeeds replies with the number and the attributes of
    the inode that the name leads to, and leaves one more reference of the
    kernel on it, which the kernel's forget gives back, and nothing else: no
    reference that the handler took for itself, on the directory or on the
    inode, is left.  A lookup that fails changes nothing. *)
Lemma lookup_effect_from parent name t status fep t' :
  sound t -> t_lookup BBud parent name t = Some ((status, fep), t') ->
  (status <> 0 /\ fep = ReplyErr status /\ t' = t) \/
  (status = 0 /\ exists p n e d q nq, t_get BBud parent t = Some (p, hold p INODE_LOOKUP_REFERENCE t) /\ p <> NULL /\ nodes t !! p = Some n /\ n_names n !! name = Some e /\ entries t !! e = Some (q, d) /\
     nodes t !! q = Some nq /\ fep = ReplyEntry (n_ino nq) 0 (node_stat nq) /\ t' = hold q INODE_FUSE_LOOKUP_REFERENCE t /\ sound t').
Proof.
  intros Hw Hs. unfold t_lookup in Hs. apply TM_bind_Some in Hs as (p & t1 & Hget & Hs).
  destruct (Z.eqb_spec p NULL) as [->|Hp]; [apply t_get_None in Hget as ->; [injection Hs as <- <- <-; by left|done]|].
  destruct (t_get_Some _ _ _ _ Hget Hp) as [-> Hroomp]. assert (sound (hold p INODE_LOOKUP_REFERENCE t)) as Hw1 by (by apply hold_sound).
  apply TM_bind_Some in Hs as (q & t2 & Hlook & Hs). apply TM_bind_Some in Hs as ([st r] & t3 & Hmid & Hs).
  destruct (Z.eqb_spec q NULL) as [->|Hq].
  - apply spec_lookup_NULL in Hlook as ->; [|done]. apply t_ret_Some in Hmid as [= -> -> ->].
    rewrite (TM_bind_done _ _ _ tt t) in Hs by (apply t_put_hold; [done..|by eapply room_less]). injection Hs as <- <- <-. by left.
  - destruct (spec_lookup_Some _ _ _ _ _ Hlook Hw1 Hq) as (-> & Hroomq & n & e & d & Hn & He & Hd). cbn [nodes hold set_counts] in Hn.
    apply TM_bind_Some in Hmid as (fep' & t4 & Hent & Hmid). destruct (t_entry_Some _ _ _ _ Hent) as (-> & nq & Hnq & ->).
    apply TM_bind_Some in Hmid as ([] & t5 & Htake & Hmid). apply t_ret_Some in Hmid as [= -> -> ->].
    destruct (t_take_Some _ _ _ _ _ Htake) as (-> & _ & Hroomf). apply room_hold_same in Hroomf; [|done|done]. apply room_hold in Hroomf; [|done|done].
    assert (room t q 1) as Hroom1 by (by eapply room_less).
    set (X := hold q INODE_FUSE_LOOKUP_REFERENCE t) in *. assert (sound X) as HwX by (by apply hold_sound).
    assert (hold q INODE_FUSE_LOOKUP_REFERENCE (hold q INODE_LOOKUP_REFERENCE (hold p INODE_LOOKUP_REFERENCE t)) =
      hold p INODE_LOOKUP_REFERENCE (hold q INODE_LOOKUP_REFERENCE X)) as E.
    { unfold X. rewrite (hold_comm q _ q), (hold_comm q _ p), (hold_comm q _ p) by done. by rewrite (hold_comm q INODE_LOOKUP_REFERENCE q). }
    assert (sound (hold q INODE_LOOKUP_REFERENCE X)) as HwY by (apply hold_sound; [done..|by apply room_took]).
    rewrite E, (TM_bind_done _ _ _ tt (hold q INODE_LOOKUP_REFERENCE X)) in Hs by (apply t_put_hold; [done..|apply room_here; [done|by exists n]]).
    rewrite (TM_bind_done _ _ _ tt X) in Hs by (apply t_put_hold; [done..|apply room_here; [done|by exists nq]]). injection Hs as <- <- <-.
    right. split; [done|]. exists p, n, e, d, q, nq. done.
Qed.

Lemma lookup_effect parent name t status fep t' :
  sound t -> t_lookup BBud parent name t = Some ((status, fep), t') ->
  (status <> 0 /\ fep = ReplyErr status /\ t' = t) \/
  (status = 0 /\ exists p n e d q nq, nodes t !! p = Some n /\ n_names n !! name = Some e /\ entries t !! e = Some (q, d) /\
     nodes t !! q = Some nq /\ fep = ReplyEntry (n_ino nq) 0 (node_stat nq) /\ t' = hold q INODE_FUSE_LOOKUP_REFERENCE t /\ sound t').
Proof.
  intros Hw Hs. destruct (lookup_effect_from _ _ _ _ _ _ Hw Hs) as [?|(? & p & n & e & d & q & nq & _ & _ & H)]; [by left|right].
  split; [done|]. by exists p, n, e, d, q, nq.
Qed.

(** A number of references of the kernel at once. *)
Definition hold_some (p : ptr) (k : Z) t : tree := set_counts (alter (bag_add INODE_FUSE_LOOKUP_REFERENCE k) p) t.

Lemma bag_add_add r a b (bag : list Z) : bag_add r a (bag_add r b bag) = bag_add r (a + b) bag.
Proof.
  unfold bag_add. destruct (bag !! Z.to_nat r) as [x|] eqn:Hx.
  - rewrite list_lookup_insert_eq by (by eapply lookup_lt_Some). cbn. rewrite list_insert_insert_eq. f_equal. lia.
  - apply lookup_ge_None in Hx. cbn. by rewrite !(list_insert_ge bag) by done.
Qed.

Lemma hold_some_hold p k t : hold p INODE_FUSE_LOOKUP_REFERENCE (hold_some p k t) = hold_some p (k + 1) t.
Proof.
  unfold hold, hold_some, set_counts. cbn. f_equal. rewrite alter_alter_eq. apply alter_ext. intros bag _. cbn.
  rewrite bag_add_add. f_equal. lia.
Qed.

Lemma bag_add_zero r (bag : list Z) : bag_add r 0 bag = bag.
Proof.
  unfold bag_add. destruct (bag !! Z.to_nat r) as [x|] eqn:Hx.
  - cbn. rewrite Z.add_0_r. by apply list_insert_id.
  - rewrite list_insert_ge; [done|]. by apply lookup_ge_None.
Qed.

Lemma hold_some_zero p t : hold_some p 0 t = t.
Proof.
  destruct t. unfold hold_some, set_counts. cbn. f_equal. apply map_eq. intros q. destruct (decide (p = q)) as [<-|Hne].
  - rewrite lookup_alter_eq. destruct (_ !! p); [|done]. cbn. by rewrite bag_add_zero.
  - by rewrite lookup_alter_ne.
Qed.

(** The lookups that the kernel makes, whatever the directories and names. *)
Fixpoint t_lookups (ls : list (Z * string)) : TM (list (Z * reply)) :=
  match ls with
  | [] => mret []
  | (parent, name) :: ls => a ← t_lookup BBud parent name; l ← t_lookups ls; mret (a :: l)
  end.

(** No two inodes have one number. *)
Definition numbers_unique t : Prop := forall p q n m, nodes t !! p = Some n -> nodes t !! q = Some m -> n_ino n = n_ino m -> p = q.

Lemma unique_numbers t : bool_decide (NoDup ((fun x : ptr * node => n_ino x.2) <$> map_to_list (nodes t))) = true -> numbers_unique t.
Proof.
  intros Hnd%bool_decide_eq_true p q n m Hp Hq E. apply elem_of_map_to_list, list_elem_of_lookup in Hp as [i Hi].
  apply elem_of_map_to_list, list_elem_of_lookup in Hq as [j Hj].
  assert (i = j) as ->; [|congruence]. eapply NoDup_lookup; [exact Hnd|..]; rewrite list_lookup_fmap; [by rewrite Hi|].
  rewrite Hj. cbn. by rewrite E.
Qed.

Definition found (ino : Z) (a : Z * reply) : Prop := exists attr, a = (0, ReplyEntry ino 0 attr).

Lemma found_effect parent name t ino attr t' :
  sound t -> t_lookup BBud parent name t = Some ((0, ReplyEntry ino 0 attr), t') ->
  exists q n, nodes t !! q = Some n /\ n_ino n = ino /\ t' = hold q INODE_FUSE_LOOKUP_REFERENCE t /\ sound t'.
Proof.
  intros Hw Hl. destruct (lookup_effect _ _ _ _ _ _ Hw Hl) as [[? _]|(_ & p & n & e & d & q & nq & _ & _ & _ & Hq & [= -> _] & -> & Hw')]; [done|].
  by exists q, nq.
Qed.

Lemma lookups_hold ino p n ls : forall t rs t',
  sound t -> numbers_unique t -> nodes t !! p = Some n -> n_ino n = ino ->
  t_lookups ls t = Some (rs, t') -> Forall (found ino) rs -> t' = hold_some p (Z.of_nat (length ls)) t /\ sound t'.
Proof.
  induction ls as [|[parent name] ls IH]; intros t rs t' Hw Hnum Hn Hino Hs Hf.
  - injection Hs as <- <-. cbn. by rewrite hold_some_zero.
  - cbn [t_lookups] in Hs. apply TM_bind_Some in Hs as ([st fep] & t1 & Hl & Hs). apply TM_bind_Some in Hs as (l & t2 & Hls & Hs).
    apply t_ret_Some in Hs as [= -> ->]. apply Forall_cons in Hf as [[attr [= -> ->]] Hf].
    destruct (found_effect parent name t ino attr t1 Hw Hl) as (q & nq & Hq & Hiq & -> & Hw1).
    assert (q = p) as -> by exact (Hnum _ _ _ _ Hq Hn (eq_trans Hiq (eq_sym Hino))). destruct (IH _ _ _ Hw1 Hnum Hn Hino Hls Hf) as [-> Hw2].
    split; [|done]. cbn [length]. rewrite Nat2Z.inj_succ. unfold Z.succ. rewrite <- hold_some_hold. unfold hold, hold_some, set_counts.
    cbn. f_equal. rewrite !alter_alter_eq. apply alter_ext. intros bag _. cbn. rewrite !bag_add_add. f_equal. lia.
Qed.

Lemma by_number_nodes ino t t' : nodes t = nodes t' -> by_number ino t = by_number ino t'.
Proof. unfold by_number. by intros ->. Qed.

Lemma t_take_here p r t : plain r -> room t p 1 -> t_take p r t = Some ((), hold p r t).
Proof.
  intros Hr (n & bag & Hn & Hb & Hk). unfold t_take, look. rewrite Hn, Hb. cbn. unfold when. by rewrite decide_True.
Qed.

(** The references of the kernel go, beside one of the handler's. *)
Lemma drop_some_held p k t :
  sound t -> 0 <= k -> is_Some (nodes t !! p) -> room (hold_some p k t) p 1 ->
  t_drop_some p INODE_FUSE_LOOKUP_REFERENCE k (hold p INODE_LOOKUP_REFERENCE (hold_some p k t)) = Some ((), hold p INODE_LOOKUP_REFERENCE t).
Proof.
  intros Hw Hk Hn (n' & bag' & _ & Hb' & _). destruct (proj1 (wf_dom _ _ _ _ Hw p) Hn) as [bag Hb]. cbn in Hb'.
  rewrite lookup_alter_eq, Hb in Hb'. injection Hb' as <-. destruct (wf_bag _ _ _ _ Hw p bag Hb) as (Hl & _ & Hs).
  destruct (bag_lookup _ _ _ t p bag INODE_FUSE_LOOKUP_REFERENCE Hw Hb) as (x & Hx & Hx0); [done|].
  set (bag2 := bag_add INODE_LOOKUP_REFERENCE 1 (bag_add INODE_FUSE_LOOKUP_REFERENCE k bag)).
  assert (counts (hold p INODE_LOOKUP_REFERENCE (hold_some p k t)) !! p = Some bag2) as Hb2.
  { cbn. by rewrite alter_alter_eq, lookup_alter_eq, Hb. }
  unfold t_drop_some. rewrite Hb2. cbn [mbind option_bind]. unfold when. rewrite decide_True.
  - f_equal. f_equal. unfold drop_some. rewrite Hb2. unfold hold, hold_some, set_counts. cbn. f_equal. rewrite alter_alter_eq.
    rewrite !(alter_insert_Some _ _ _ _ Hb), insert_insert_eq. f_equal.
    unfold bag2. by rewrite bag_add_comm, bag_add_add, Z.add_opp_diag_l, bag_add_zero by done.
  - split; [done|]. split.
    + split; [done|]. unfold bag2. rewrite bag_other by done. rewrite (bag_this _ _ _ x) by done. cbn. lia.
    + unfold bag2. rewrite !sum_bag_plus by (rewrite ?bag_add_length; unfold INODE_LOOKUP_REFERENCE, INODE_FUSE_LOOKUP_REFERENCE; lia). lia.
Qed.

Lemma t_forget_lookups ino ls t rs t' :
  sound t -> numbers_unique t -> ino <> 0 -> t_lookups ls t = Some (rs, t') -> Forall (found ino) rs ->
  (forall p, by_number ino t' = Some p -> room t' p 1) -> t_forget ino (Z.of_nat (length ls)) t' = Some ((), t).
Proof.
  intros Hw Hnum Hino Hs Hf Hroom. unfold t_forget. destruct (by_number ino t) as [p|] eqn:E.
  - destruct (by_number_Some ino t p E) as (n & Hn & Hi). destruct (lookups_hold ino p n ls t rs t' Hw Hnum Hn Hi Hs Hf) as [-> Hw'].
    assert (by_number ino (hold_some p (Z.of_nat (length ls)) t) = Some p) as E' by done.
    rewrite (TM_bind_done _ _ _ (Some p) (hold p INODE_LOOKUP_REFERENCE (hold_some p (Z.of_nat (length ls)) t))).
    + rewrite (TM_bind_done _ _ _ tt (hold p INODE_LOOKUP_REFERENCE t)) by (apply drop_some_held; [done..|lia|by eexists|auto]).
      apply t_drop_hold; [done..|]. apply room_here; [done|by eexists].
    + unfold t_find. rewrite (proj2 (Z.eqb_neq _ _) Hino), E', t_take_here by (auto using plain_lookup). done.
  - destruct ls as [|[parent name] ls].
    + injection Hs as <- <-. unfold t_forget. rewrite (TM_bind_done _ _ _ None t); [done|]. unfold t_find.
      by rewrite (proj2 (Z.eqb_neq _ _) Hino), E.
    + cbn [t_lookups] in Hs. apply TM_bind_Some in Hs as ([st fep] & t1 & Hl & Hs). apply TM_bind_Some in Hs as (l & t2 & _ & Hs).
      apply t_ret_Some in Hs as [= -> ->]. apply Forall_cons in Hf as [[attr [= -> ->]] _].
      destruct (found_effect parent name t ino attr t1 Hw Hl) as (q & nq & Hq & Hiq & _). by destruct (by_number_None ino t q nq E Hq).
Qed.
(** ** Renaming directories *)

(** The inode, if there is one, has no name ".." and no parent. *)
Definition severed p t : Prop := forall n, nodes t !! p = Some n -> n_parent n = NULL /\ n_names n !! ".."%string = None.

Lemma drop_nodes q r t p n : nodes (drop q r t) !! p = Some n -> nodes t !! p = Some n.
Proof. unfold drop. destruct (counts t !! q) as [bag|]; [|done]. case_match; [|done]. cbn. by intros [_ ?]%lookup_delete_Some. Qed.

Lemma drop_entries q r t : entries (drop q r t) = entries t.
Proof. unfold drop. destruct (counts t !! q) as [bag|]; [|done]. by case_match. Qed.

Lemma discard_nodes e q t p n : nodes (discard e q t) !! p = Some n -> nodes t !! p = Some n.
Proof. intros Hn. by apply drop_nodes in Hn. Qed.

Lemma unlist_unnamed p s e q t n : nodes (unlist p s e q t) !! p = Some n -> n_names n !! s = None.
Proof.
  assert (forall m, nodes (del_name p s e q t) !! p = Some m -> n_names m !! s = None) as Hdel.
  { intros m. cbn. rewrite lookup_alter_eq. destruct (nodes t !! p) as [m0|]; [|done]. intros [= <-]. cbn. by rewrite lookup_delete_eq. }
  unfold unlist. destruct (Z.eqb_spec p q) as [->|Hne]; [apply Hdel|]. unfold add_link, set_nodes. cbn [nodes].
  intros [[? _]|[_ Hn]]%lookup_alter_Some; [congruence|by apply Hdel].
Qed.

Lemma severed_detach c p e2 t : severed c (detach c p e2 t).
Proof.
  intros n Hn. apply drop_nodes in Hn. cbn in Hn. apply lookup_alter_Some in Hn as [(_ & m & Hm & ->)|[? _]]; [|done].
  split; [done|]. apply discard_nodes in Hm. by apply unlist_unnamed in Hm.
Qed.

(** What stays of the directory [c] in the entry [e] of [np]. *)
Definition cut_off (c e np : ptr) t : Prop := severed c t /\ entries t !! e = Some (c, np).

Lemma cut_off_drop c e np q r t : cut_off c e np t -> cut_off c e np (drop q r t).
Proof. intros [Hs He]. split; [|by rewrite drop_entries]. intros n Hn. apply drop_nodes in Hn. by apply Hs. Qed.

Lemma cut_off_put c e np q t t' : t_put q t = Some ((), t') -> cut_off c e np t -> cut_off c e np t'.
Proof.
  unfold t_put. case_match; [by intros [= <-]|]. intros Hs Hc. unfold t_drop in Hs. apply bind_Some in Hs as ([x t1] & Hs & [= <-]).
  unfold spec_release in Hs. apply bind_Some in Hs as ([[[ty par] names] k] & _ & Hs). apply bind_Some in Hs as (bag & _ & Hs).
  apply when_Some in Hs as [_ [= _ <-]]. by apply cut_off_drop.
Qed.

Lemma unlist_entries p s e q t : entries (unlist p s e q t) = <[e := (q, NULL)]> (entries t).
Proof. unfold unlist. by case_match. Qed.

Lemma cut_off_remove p s ei t r t' c d nc e np :
  spec_remove p s ei t = Some (r, t') -> entries t !! ei = Some (c, d) -> nodes t !! c = Some nc -> n_type nc = BITBUCKET_DIR_TYPE ->
  c <> p -> entries t !! e = Some (c, np) -> e <> ei -> cut_off c e np t'.
Proof.
  intros Hs Hei Hnc Hty Hcp He Hne. unfold spec_remove in Hs. apply bind_Some in Hs as ([[par names] k] & _ & Hs). rewrite Hei in Hs.
  cbn [mbind option_bind] in Hs. apply bind_Some in Hs as ([[[tyc parc] namesc] kc] & Hl & Hs). unfold look in Hl. rewrite Hnc in Hl.
  destruct (counts t !! c) as [bag|]; [|done]. injection Hl as <- <- <- <-. apply when_Some in Hs as [_ Hs]. rewrite Hty in Hs. cbn in Hs.
  rewrite decide_False in Hs by done. apply bind_Some in Hs as (e2 & _ & Hs). apply bind_Some in Hs as ([y d2] & He2 & Hs).
  apply when_Some in Hs as [(-> & _) [= _ <-]]. assert (e <> e2) as Hne2 by congruence.
  unfold discard at 1. apply cut_off_drop. split.
  - intros n Hn. by apply severed_detach in Hn.
  - cbn. rewrite lookup_delete_ne by done. unfold detach, orphan, discard. rewrite drop_entries. cbn [entries set_parent set_nodes].
    rewrite drop_entries. cbn [entries del_entry set_entries].
    by rewrite lookup_delete_ne, unlist_entries, lookup_insert_ne, unlist_entries, lookup_insert_ne by done.
Qed.

(** What a number stands for. *)
Definition reached (ino : Z) t : option ptr := if FUSE_ROOT_ID =? ino then Some (RootDirectory BBud) else by_number ino t.

Lemma t_get_reached ino p q t t1 : t_get BBud ino t = Some (q, t1) -> reached ino t = Some p -> q = p /\ t1 = hold p INODE_LOOKUP_REFERENCE t.
Proof.
  unfold t_get, reached. intros Hg Hp. destruct (FUSE_ROOT_ID =? ino).
  - injection Hp as <-. apply TM_bind_Some in Hg as ([] & t2 & Ht & Hg). apply t_ret_Some in Hg as [= -> ->].
    by apply t_take_Some in Ht as (-> & _).
  - apply TM_bind_Some in Hg as (o & t2 & Ht & Hg). apply t_ret_Some in Hg as [= -> ->]. unfold t_find in Ht.
    destruct (ino =? 0); [done|]. rewrite Hp in Ht. apply bind_Some in Ht as ([[] t3] & Ht & [= <- <-]).
    by apply t_take_Some in Ht as (-> & _).
Qed.

Lemma look_dir_nodes t p n par names k : nodes t !! p = Some n -> look_dir t p = Some (par, names, k) -> n_names n = names.
Proof. unfold look_dir, look. intros ->. destruct (counts t !! p); [|done]. case_match; [|done]. by intros [= _ <- _]. Qed.

Lemma spec_lookup_named p s t q t1 n e c d :
  spec_lookup p s t = Some (q, t1) -> nodes t !! p = Some n -> n_names n !! s = Some e -> entries t !! e = Some (c, d) ->
  q = c /\ t1 = hold c INODE_LOOKUP_REFERENCE t.
Proof.
  unfold spec_lookup. intros Hs Hn He Hd. apply bind_Some in Hs as ([[par names] k] & Hl & Hs).
  rewrite <- (look_dir_nodes _ _ _ _ _ _ Hn Hl), He, Hd in Hs. cbn [mbind option_bind] in Hs.
  apply bind_Some in Hs as ([[[ty par'] names'] kq] & _ & Hs). by apply when_Some in Hs as [_ [= <- <-]].
Qed.

Lemma spec_lookup_free p s t q t1 n :
  spec_lookup p s t = Some (q, t1) -> nodes t !! p = Some n -> n_names n !! s = None -> q = NULL /\ t1 = t.
Proof.
  unfold spec_lookup. intros Hs Hn He. apply bind_Some in Hs as ([[par names] k] & Hl & Hs).
  rewrite <- (look_dir_nodes _ _ _ _ _ _ Hn Hl), He in Hs. by injection Hs.
Qed.

Lemma spec_insert_free p q s e t r t1 n :
  spec_insert p q s e t = Some (r, t1) -> nodes t !! p = Some n -> n_names n !! s = None ->
  r = 0 /\ t1 = link p q s e t /\ entries t !! e = None.
Proof.
  unfold spec_insert. intros Hs Hn He. apply bind_Some in Hs as ([[par names] k] & Hl & Hs).
  apply bind_Some in Hs as ([[[tyq parq] namesq] kq] & _ & Hs). apply when_Some in Hs as [(_ & _ & _ & Hf) Hs].
  rewrite <- (look_dir_nodes _ _ _ _ _ _ Hn Hl), He in Hs. injection Hs as <- <-. by apply Forall_cons in Hf as [[_ ?] _].
Qed.

(** A directory that is inserted under a free name and then deleted under
    its old name is cut off. *)
Lemma rename_insert_cut p np c x name newname e e' t t' n m nc ei d :
  t_rename_insert p np c x name newname e e' t = Some (0, t') ->
  nodes t !! p = Some n -> n_names n !! name = Some ei -> name <> EmptyString -> entries t !! ei = Some (c, d) -> c <> p ->
  nodes t !! c = Some nc -> n_type nc = BITBUCKET_DIR_TYPE -> nodes t !! np = Some m -> n_names m !! newname = None ->
  cut_off c e np t'.
Proof.
  intros Hs Hn Hei Hname Hd Hcp Hnc Hty Hm Hfree. apply TM_bind_Some in Hs as (st & t1 & Hins & Hs).
  destruct (spec_insert_free _ _ _ _ _ _ _ _ Hins Hm Hfree) as (-> & -> & He). cbn in Hs.
  assert (exists n1, nodes (link np c newname e t) !! p = Some n1 /\ n_names n1 !! name = Some ei) as (n1 & Hn1 & Hei1).
  { destruct (decide (p = np)) as [->|Hne].
    - destruct (link_dir np c newname e t n Hn) as (n1 & Hn1 & _ & _ & Hnames). exists n1. split; [done|].
      rewrite Hnames, lookup_insert_ne; [done|]. intros ->. congruence.
    - destruct (link_other np c newname e t p n Hn Hne) as (n1 & Hn1 & _ & _ & Hnames). exists n1. by rewrite Hnames. }
  assert (exists nc1, nodes (link np c newname e t) !! c = Some nc1 /\ n_type nc1 = BITBUCKET_DIR_TYPE) as (nc1 & Hnc1 & Hty1).
  { destruct (decide (c = np)) as [->|Hne].
    - destruct (link_dir np np newname e t nc Hnc) as (n2 & ? & ? & _). exists n2. by split; [|congruence].
    - destruct (link_other np c newname e t c nc Hnc Hne) as (n2 & ? & ? & _). exists n2. by split; [|congruence]. }
  unfold spec_delete in Hs. apply bind_Some in Hs as ([[par names] k] & Hl & Hs). apply when_Some in Hs as [_ Hs].
  rewrite <- (look_dir_nodes _ _ _ _ _ _ Hn1 Hl), Hei1 in Hs.
  eapply (cut_off_remove p name ei _ _ _ c d nc1 e np Hs); try done; try congruence;
    rewrite link_entries; [rewrite lookup_insert_ne by congruence; done|by rewrite lookup_insert_eq].
Qed.

(** ** Links to names that exist *)

(** The directory [p], which an entry [x] keeps, has no name [s]. *)
Definition unnamed (p : ptr) (s : string) (x d : ptr) t : Prop :=
  (forall n, nodes t !! p = Some n -> n_names n !! s = None) /\ entries t !! x = Some (p, d).

Lemma unnamed_drop p s x d q r t : unnamed p s x d t -> unnamed p s x d (drop q r t).
Proof. intros [Hs Hx]. split; [|by rewrite drop_entries]. intros n Hn. apply drop_nodes in Hn. by apply Hs. Qed.

Lemma unnamed_release p s x d q r t u t' : spec_release q r t = Some (u, t') -> unnamed p s x d t -> unnamed p s x d t'.
Proof.
  intros Hs Hu. unfold spec_release in Hs. apply bind_Some in Hs as ([[[ty par] names] k] & _ & Hs).
  apply bind_Some in Hs as (bag & _ & Hs). apply when_Some in Hs as [_ [= _ <-]]. by apply unnamed_drop.
Qed.

Lemma unnamed_put p s x d q t t' : t_put q t = Some ((), t') -> unnamed p s x d t -> unnamed p s x d t'.
Proof.
  unfold t_put. case_match; [by intros [= <-]|]. intros Hs. unfold t_drop in Hs. apply bind_Some in Hs as ([u t1] & Hs & [= <-]).
  by eapply unnamed_release.
Qed.

(** The removal of a file by name. *)
Lemma spec_remove_file_unnamed p s t r t' n e q d nq x dx :
  spec_remove_file p s t = Some (r, t') -> nodes t !! p = Some n -> n_names n !! s = Some e -> entries t !! e = Some (q, d) -> q <> NULL ->
  nodes t !! q = Some nq -> n_type nq <> BITBUCKET_DIR_TYPE -> Z.land (n_mode nq) S_IFDIR <> S_IFDIR ->
  entries t !! x = Some (p, dx) -> x <> e -> r = 0 /\ unnamed p s x dx t'.
Proof.
  intros Hs Hn He Hd Hq Hnq Hty Hmode Hx Hxe. unfold spec_remove_file in Hs. apply bind_Some in Hs as ([q' t1] & Hlk & Hs).
  destruct (spec_lookup_named _ _ _ _ _ n e q d Hlk Hn He Hd) as [-> ->]. rewrite (proj2 (Z.eqb_neq _ _) Hq) in Hs.
  rewrite hold_nodes, Hnq in Hs. cbn [mbind option_bind] in Hs. apply bind_Some in Hs as ([r1 t2] & Hdel & Hs).
  apply bind_Some in Hs as ([u t3] & Hrel & [= <- <-]). rewrite (proj2 (Z.eqb_neq _ _)) in Hdel by congruence.
  apply when_Some in Hdel as [_ Hdel]. unfold spec_delete in Hdel. apply bind_Some in Hdel as ([[par names] k] & Hl & Hdel).
  rewrite <- (look_dir_nodes (hold q INODE_LOOKUP_REFERENCE t) p n _ _ _ Hn Hl), He in Hdel. apply when_Some in Hdel as [_ Hdel].
  unfold spec_remove in Hdel. apply bind_Some in Hdel as ([[par2 names2] k2] & _ & Hdel). cbn [entries hold set_counts] in Hdel.
  rewrite Hd in Hdel. cbn [mbind option_bind] in Hdel. apply bind_Some in Hdel as ([[[tyq parq] namesq] kq] & Hlq & Hdel).
  apply when_Some in Hdel as [_ Hdel]. unfold look in Hlq. rewrite hold_nodes, Hnq in Hlq. destruct (counts _ !! q); [|done]. injection Hlq as <- <- <- <-.
  rewrite (proj2 (Z.eqb_neq _ _) Hty) in Hdel. injection Hdel as <- <-. split; [done|]. apply (unnamed_release _ _ _ _ _ _ _ _ _ Hrel).
  apply unnamed_drop. split.
  - intros m Hm. by apply unlist_unnamed in Hm.
  - cbn. by rewrite lookup_delete_ne, unlist_entries, lookup_insert_ne by done.
Qed.

(** The loop of a link gives up after the removal. *)
Lemma link_loop_unnamed fuel p f s es t st t' n e q d nq x dx :
  t_link_loop fuel p f s es t = Some (st, t') -> nodes t !! p = Some n -> n_names n !! s = Some e -> entries t !! e = Some (q, d) -> q <> NULL ->
  nodes t !! q = Some nq -> n_type nq <> BITBUCKET_DIR_TYPE -> Z.land (n_mode nq) S_IFDIR <> S_IFDIR ->
  entries t !! x = Some (p, dx) -> x <> e -> unnamed p s x dx t'.
Proof.
  intros Hs Hn He Hd Hq Hnq Hty Hmode Hx Hxe. destruct fuel as [|fuel], es as [|e0 es]; try done. cbn [t_link_loop] in Hs.
  apply TM_bind_Some in Hs as (st1 & t1 & Hins & Hs). unfold spec_insert in Hins. apply bind_Some in Hins as ([[par names] k] & Hl & Hins).
  apply bind_Some in Hins as ([[[tyq parq] namesq] kq] & _ & Hins). apply when_Some in Hins as [(_ & _ & _ & Hf) Hins].
  rewrite <- (look_dir_nodes _ _ _ _ _ _ Hn Hl), He in Hins. apply when_Some in Hins as [_ [= <- <-]]. apply Forall_cons in Hf as [[_ Hf] _].
  cbn [Z.eqb] in Hs. change (EEXIST =? EEXIST) with true in Hs. lazy iota in Hs. apply TM_bind_Some in Hs as (st2 & t2 & Hrem & Hs).
  assert (entries (leak f e0 t) = <[e0 := (f, NULL)]> (entries t)) as Hent by done.
  destruct (spec_remove_file_unnamed p s _ _ _ n e q d nq x dx Hrem) as [-> Hu]; try done;
    try (rewrite Hent, lookup_insert_ne by congruence; done). by injection Hs as _ <-.
Qed.

Lemma unnamed_hold p s x d q r t : unnamed p s x d (hold q r t) <-> unnamed p s x d t.
Proof. done. Qed.

Lemma t_link_unnamed ino newparent s es t a t' f nf p n e q d nq x dx :
  sound t -> t_link BBud ino newparent s es t = Some (a, t') -> ino <> FUSE_ROOT_ID -> by_number ino t = Some f -> nodes t !! f = Some nf ->
  n_type nf = BITBUCKET_FILE_TYPE -> reached newparent t = Some p ->
  nodes t !! p = Some n -> n_names n !! s = Some e -> entries t !! e = Some (q, d) ->
  nodes t !! q = Some nq -> n_type nq <> BITBUCKET_DIR_TYPE -> Z.land (n_mode nq) S_IFDIR <> S_IFDIR ->
  entries t !! x = Some (p, dx) -> x <> e -> a.1 = 0 /\ unnamed p s x dx t'.
Proof.
  intros Hw Hs Hroot Hf Hnf Htyf Hp Hn He Hd Hnq Hty Hmode Hx Hxe. unfold t_link in Hs.
  assert (p <> NULL /\ f <> NULL /\ q <> NULL) as (Hp0 & Hf0 & Hq0) by (repeat split; apply (wf_null _ _ _ _ Hw); eauto).
  rewrite (proj2 (Z.eqb_neq _ _) (not_eq_sym Hroot)) in Hs. apply TM_bind_Some in Hs as (o & t1 & Hfind & Hs).
  assert (o = Some f /\ t1 = hold f INODE_LOOKUP_REFERENCE t) as [-> ->].
  { unfold t_find in Hfind. destruct (ino =? 0); [done|]. rewrite Hf in Hfind. apply bind_Some in Hfind as ([[] t2] & Ht & [= <- <-]).
    by apply t_take_Some in Ht as (-> & _). }
  cbn [default from_option id] in Hs. cbv zeta in Hs. rewrite (proj2 (Z.eqb_neq _ _) Hf0) in Hs.
  apply TM_bind_Some in Hs as (p' & t2 & Hg & Hs). destruct (t_get_reached _ p _ _ _ Hg Hp) as [-> ->].
  apply TM_bind_Some in Hs as (ans & t3 & Hmid & Hs). apply TM_bind_Some in Hs as ([] & t4 & Hp4 & Hs).
  apply TM_bind_Some in Hs as ([] & t5 & Hp5 & Hs). apply t_ret_Some in Hs as [= -> ->].
  rewrite (proj2 (Z.eqb_neq _ _) Hp0) in Hmid. apply TM_bind_Some in Hmid as (nf' & t6 & Hnode & Hmid).
  unfold t_node in Hnode. rewrite !hold_nodes, Hnf in Hnode. injection Hnode as <- <-. rewrite Htyf in Hmid. cbn [negb Z.eqb] in Hmid.
  change (BITBUCKET_FILE_TYPE =? BITBUCKET_FILE_TYPE) with true in Hmid. cbn [negb] in Hmid.
  apply TM_bind_Some in Hmid as (st & t7 & Hloop & Hmid). apply TM_bind_Some in Hmid as (fep & t8 & Hent & Hmid).
  apply t_entry_Some in Hent as (-> & _). apply TM_bind_Some in Hmid as ([] & t9 & Ht & Hmid). apply t_take_Some in Ht as (-> & _).
  apply t_ret_Some in Hmid as [= -> ->]. split; [done|]. apply (unnamed_put _ _ _ _ _ _ _ Hp5), (unnamed_put _ _ _ _ _ _ _ Hp4), unnamed_hold.
  exact (link_loop_unnamed _ p f s es _ st t7 n e q d nq x dx Hloop Hn He Hd Hq0 Hnq Hty Hmode Hx Hxe).
Qed.

(** ** Directories that are not removed *)

Lemma spec_delete_status p s t st t' : spec_delete p s t = Some (st, t') -> st = 0 \/ st = ENOENT.
Proof.
  unfold spec_delete. intros Hs. apply bind_Some in Hs as ([[par names] k] & _ & Hs). apply when_Some in Hs as [_ Hs].
  destruct (names !! s) as [e|]; [|injection Hs as <- _; by right]. left. unfold spec_remove in Hs.
  apply bind_Some in Hs as ([[par2 names2] k2] & _ & Hs). apply bind_Some in Hs as ([q d] & _ & Hs).
  apply bind_Some in Hs as ([[[tyq parq] namesq] kq] & _ & Hs). apply when_Some in Hs as [_ Hs].
  destruct (negb _); [by injection Hs|]. destruct (decide (p = q)); [by apply when_Some in Hs as [_ [= <- _]]|].
  apply bind_Some in Hs as (e2 & _ & Hs). apply bind_Some in Hs as ([y d2] & _ & Hs). by apply when_Some in Hs as [_ [= <- _]].
Qed.

Lemma t_rmdir_child_full p c name t t' : t_rmdir_child p c name t = Some (ENOTEMPTY, t') -> t' = t /\ is_Some (nodes t !! c).
Proof.
  unfold t_rmdir_child. intros Hs. apply TM_bind_Some in Hs as (n & t1 & Hn & Hs). apply bind_Some in Hn as (m & Hn & [= <- <-]).
  split; [|by eexists]. destruct (negb _); [done|]. apply TM_bind_Some in Hs as (k & t2 & Hc & Hs).
  cbn in Hc. apply bind_Some in Hc as ([[par names] k'] & _ & [= _ <-]). destruct (2 <? u32 k); [by injection Hs|].
  apply TM_bind_Some in Hs as (st & t2 & Hdel & Hs). destruct (spec_delete_status _ _ _ _ _ Hdel) as [-> | ->]; [|done].
  cbn [Z.eqb negb] in Hs. apply TM_bind_Some in Hs as (st & t3 & _ & Hs). apply TM_bind_Some in Hs as ([] & t4 & Ha & Hs).
  apply TM_bind_Some in Hs as ([] & t5 & _ & Hs). injection Hs as -> _. done.
Qed.

Lemma t_rmdir_refused parent name t rep t' :
  sound t -> t_rmdir BBud parent name t = Some ((ENOTEMPTY, rep), t') ->
  exists p n e c d, nodes t !! p = Some n /\ n_names n !! name = Some e /\ entries t !! e = Some (c, d) /\
    t' = hold c INODE_LOOKUP_REFERENCE t.
Proof.
  intros Hw Hs. unfold t_rmdir in Hs. apply TM_bind_Some in Hs as (p & t1 & Hget & Hs).
  apply TM_bind_Some in Hs as (st & t2 & Hmid & Hs). apply TM_bind_Some in Hs as ([] & t3 & Hput & Hs). apply t_ret_Some in Hs as [= <- _ ->].
  destruct (Z.eqb_spec p NULL) as [->|Hp]; [done|]. destruct (t_get_Some _ _ _ _ Hget Hp) as [-> Hroomp].
  assert (sound (hold p INODE_LOOKUP_REFERENCE t)) as Hw1 by (by apply hold_sound).
  apply TM_bind_Some in Hmid as (n1 & t4 & Hn1 & Hmid). apply bind_Some in Hn1 as (m & _ & [= _ <-]). destruct (negb _); [done|].
  apply TM_bind_Some in Hmid as (c & t5 & Hlook & Hmid). destruct (Z.eqb_spec c NULL) as [->|Hc]; [done|].
  destruct (spec_lookup_Some _ _ _ _ _ Hlook Hw1 Hc) as (-> & Hroomc & n & e & d & Hn & He & Hd).
  destruct (t_rmdir_child_full _ _ _ _ _ Hmid) as [-> Hnc]. exists p, n, e, c, d. do 3 (split; [done|]).
  rewrite hold_comm in Hput by done. assert (sound (hold c INODE_LOOKUP_REFERENCE t)) as Hw2.
  { apply hold_sound; [done..|]. by eapply room_hold. }
  rewrite t_put_hold in Hput; [by injection Hput as <-|done..|]. apply room_here; [done|by exists n].
Qed.

End Effects.


(** * Requests that lose something, in the code *)

Section Losses.
Context {T : Type -> Type} `{NameIndex T} {R : Type} `{!Storage R} (BBud : userdata).
#[local] Notation world := (world T (instance T) (dir_state R) kind).
#[local] Notation view := (view T (instance T) (dir_state R) kind).
#[local] Notation tree := (tree R).

(** In a file system, what [t_rename] does to a directory under a free name. *)
Lemma t_rename_cut parent name newparent newname flags e e' (t : tree) rep t' p np c n m nc ei d :
  sound t -> reached BBud parent t = Some p -> reached BBud newparent t = Some np ->
  nodes t !! p = Some n -> n_names n !! name = Some ei -> entries t !! ei = Some (c, d) -> c <> p ->
  nodes t !! c = Some nc -> n_type nc = BITBUCKET_DIR_TYPE -> nodes t !! np = Some m -> n_names m !! newname = None ->
  t_rename BBud parent name newparent newname flags e e' t = Some ((0, rep), t') -> cut_off c e np t'.
Proof.
  intros Hw Hp Hnp Hn Hei Hd Hcp Hnc Hty Hm Hfree Hs. unfold t_rename in Hs.
  destruct (dots name || dots newname); [done|]. apply TM_bind_Some in Hs as (p' & t1 & Hg & Hs).
  destruct (t_get_reached _ _ _ _ _ _ Hg Hp) as [-> ->]. apply TM_bind_Some in Hs as (np' & t2 & Hg2 & Hs).
  destruct (t_get_reached _ _ np _ _ _ Hg2 Hnp) as [-> ->].
  assert (p <> NULL /\ np <> NULL /\ c <> NULL) as (Hp0 & Hnp0 & Hc0) by (repeat split; apply (wf_null _ _ _ _ Hw); eauto).
  rewrite (proj2 (Z.eqb_neq _ _) Hp0), (proj2 (Z.eqb_neq _ _) Hnp0) in Hs. cbn [orb] in Hs.
  apply TM_bind_Some in Hs as ([[st old] new] & t3 & Hin & Hs).
  apply TM_bind_Some in Hs as ([] & t4 & Hp4 & Hs). apply TM_bind_Some in Hs as ([] & t5 & Hp5 & Hs).
  apply TM_bind_Some in Hs as ([] & t6 & Hp6 & Hs). apply TM_bind_Some in Hs as ([] & t7 & Hp7 & Hs).
  apply t_ret_Some in Hs as [= <- -> ->]. apply (cut_off_put _ _ _ _ _ _ Hp7), (cut_off_put _ _ _ _ _ _ Hp6).
  apply (cut_off_put _ _ _ _ _ _ Hp5), (cut_off_put _ _ _ _ _ _ Hp4). clear Hp4 Hp5 Hp6 Hp7 Hg Hg2.
  unfold t_rename_in in Hin. apply TM_bind_Some in Hin as (n1 & ? & Hn1 & Hin). apply bind_Some in Hn1 as (? & _ & [= _ <-]).
  apply TM_bind_Some in Hin as (n2 & ? & Hn2 & Hin). apply bind_Some in Hn2 as (? & _ & [= _ <-]). case_match; [done|].
  apply TM_bind_Some in Hin as (q & ? & Hlk & Hin). destruct (spec_lookup_named _ _ _ _ _ n ei c d Hlk Hn Hei Hd) as [-> ->].
  rewrite (proj2 (Z.eqb_neq _ _) Hc0) in Hin. destruct (c =? RootDirectory BBud); [done|].
  apply TM_bind_Some in Hin as (q & ? & Hlk2 & Hin). destruct (spec_lookup_free _ _ _ _ _ m Hlk2 Hm Hfree) as [-> ->].
  apply TM_bind_Some in Hin as (st & ? & Hins & Hin). apply t_ret_Some in Hin as [= <- -> -> ->].
  destruct (wf_names _ _ _ _ Hw p n name ei Hn Hei) as [Hname _].
  exact (rename_insert_cut p np c NULL name newname e e' _ _ n m nc ei d Hins Hn Hei Hname Hd Hcp Hnc Hty Hm Hfree).
Qed.

Lemma t_rename_reply parent name newparent newname flags e e' (t : tree) rep t' :
  t_rename BBud parent name newparent newname flags e e' t = Some ((0, rep), t') -> rep = ReplyErr 0.
Proof.
  unfold t_rename. case_match; [done|]. intros Hs. do 2 apply TM_bind_Some in Hs as (? & ? & _ & Hs).
  apply TM_bind_Some in Hs as ([[st old] new] & t3 & _ & Hs). do 4 apply TM_bind_Some in Hs as ([] & ? & _ & Hs). by injection Hs as <- <- <-.
Qed.

(** C17: Renaming a directory cuts it off from the tree.  When a directory is
    renamed to a free name, in the same directory or another, the request
    succeeds, and afterwards the directory is in the new place, but it has
    lost its parent and its entry "..": deleting the old name by
    BitbucketDeleteDirectoryEntry undoes what it had of the old parent, and
    nothing gives it the new one. *)
Theorem rename_orphans parent name newparent newname flags e e' (w : world) (v : view) (t : tree) rep t' p np c n m nc ei d :
  holds w v -> shows v t -> reached BBud parent t = Some p -> reached BBud newparent t = Some np ->
  nodes t !! p = Some n -> n_names n !! name = Some ei -> entries t !! ei = Some (c, d) -> c <> p ->
  nodes t !! c = Some nc -> n_type nc = BITBUCKET_DIR_TYPE -> nodes t !! np = Some m -> n_names m !! newname = None ->
  t_rename BBud parent name newparent newname flags e e' t = Some ((0, rep), t') ->
  exists w' v' nc', bitbucket_internal_rename BBud parent name newparent newname flags e e' w = Done ((0, ReplyErr 0), w') /\
    holds w' v' /\ shows v' t' /\ entries t' !! e = Some (c, np) /\
    nodes t' !! c = Some nc' /\ n_parent nc' = NULL /\ n_names nc' !! ".."%string = None.
Proof.
  intros Hw Hv Hp Hnp Hn Hei Hd Hcp Hnc Hty Hm Hfree Hs.
  destruct (t_rename_cut _ _ _ _ _ _ _ _ _ _ _ _ _ _ _ _ _ _ (shows_wf _ _ Hv) Hp Hnp Hn Hei Hd Hcp Hnc Hty Hm Hfree Hs) as [Hcut He].
  assert (rep = ReplyErr 0) as -> by (by apply t_rename_reply in Hs).
  destruct (rename_implements BBud parent name newparent newname flags e e' t _ t' Hs v Hv) as ([st rep] & v' & Hr & [Hst Hrep] & Hv').
  destruct (Hr w Hw) as (w' & Hrun & Hw'). destruct (proj2 (wf_entry _ _ _ _ (shows_wf _ _ Hv') e c np He)) as [nc' Hnc'].
  exists w', v', nc'. cbn in Hst, Hrep. subst st. assert (rep = ReplyErr 0) as -> by (by destruct rep). destruct (Hcut nc' Hnc'). done.
Qed.

(** A link to a name that exists removes the name.  When the new name is
    that of a regular file, the link request is answered as if it had
    succeeded, with the attributes of the linked inode; but the old file is
    removed and no entry for the inode takes its place: after the removal
    the loop ends with status 0 without another insertion. *)
Theorem link_loses_name ino newparent s es (w : world) (v : view) (t : tree) a t' f nf p n e q d nq x dx :
  holds w v -> shows v t -> t_link BBud ino newparent s es t = Some (a, t') ->
  ino <> FUSE_ROOT_ID -> by_number ino t = Some f -> nodes t !! f = Some nf -> n_type nf = BITBUCKET_FILE_TYPE ->
  reached BBud newparent t = Some p -> nodes t !! p = Some n -> n_names n !! s = Some e -> entries t !! e = Some (q, d) ->
  nodes t !! q = Some nq -> n_type nq <> BITBUCKET_DIR_TYPE -> Z.land (n_mode nq) S_IFDIR <> S_IFDIR ->
  entries t !! x = Some (p, dx) -> x <> e ->
  exists w' v' rep n', bitbucket_internal_link BBud ino newparent s es w = Done ((0, rep), w') /\ holds w' v' /\ shows v' t' /\
    nodes t' !! p = Some n' /\ n_names n' !! s = None.
Proof.
  intros Hw Hv Hs Hroot Hf Hnf Htyf Hp Hn He Hd Hnq Hty Hmode Hx Hxe.
  destruct (t_link_unnamed _ _ _ _ _ _ _ _ _ _ _ _ _ _ _ _ _ _ (shows_wf _ _ Hv) Hs Hroot Hf Hnf Htyf Hp Hn He Hd Hnq Hty Hmode Hx Hxe) as [Ha [Hun Hx']].
  destruct (link_implements BBud ino newparent s es t a t' Hs v Hv) as ([st rep] & v' & Hr & [Hst _] & Hv').
  destruct (Hr w Hw) as (w' & Hrun & Hw'). destruct (proj2 (wf_entry _ _ _ _ (shows_wf _ _ Hv') x p dx Hx')) as [n' Hn'].
  exists w', v', rep, n'. cbn in Hst. rewrite Ha in Hst. subst st. split; [done|]. split; [done|]. split; [done|]. split; [done|]. by apply Hun.
Qed.

(** A directory that is refused removal keeps a reference.  When a rmdir
    request answers ENOTEMPTY, nothing has changed except that the directory
    has one more reference for the reason "Lookup", which the handler took to
    look at it and does not give back: the directory is never freed. *)
Theorem rmdir_refused_leaks parent name (w : world) (v : view) (t : tree) rep t' :
  holds w v -> shows v t -> t_rmdir BBud parent name t = Some ((ENOTEMPTY, rep), t') ->
  exists w' v' rep' p n e c d, bitbucket_internal_rmdir BBud parent name w = Done ((ENOTEMPTY, rep'), w') /\ holds w' v' /\
    nodes t !! p = Some n /\ n_names n !! name = Some e /\ entries t !! e = Some (c, d) /\ shows v' (hold c INODE_LOOKUP_REFERENCE t).
Proof.
  intros Hw Hv Hs. destruct (t_rmdir_refused _ _ _ _ _ _ (shows_wf _ _ Hv) Hs) as (p & n & e & c & d & Hn & He & Hd & Ht).
  destruct (rmdir_implements BBud parent name t _ t' Hs v Hv) as ([st rep'] & v' & Hr & [Hst _] & Hv'). destruct (Hr w Hw) as (w' & Hrun & Hw').
  cbn in Hst. subst st t'. by exists w', v', rep', p, n, e, c, d.
Qed.

(** The requests of the kernel that look inodes up. *)
Definition lookup_requests (ls : list (Z * string)) : list request := (fun x => ReqLookup x.1 x.2) <$> ls.

Lemma meaning_all_app rs1 rs2 (t : tree) a t1 b t2 :
  meaning_all BBud rs1 t = Some (a, t1) -> meaning_all BBud rs2 t1 = Some (b, t2) -> meaning_all BBud (rs1 ++ rs2) t = Some (a ++ b, t2).
Proof.
  revert t a. induction rs1 as [|r rs1 IH]; intros t a H1 H2; cbn [meaning_all app] in *.
  - by injection H1 as <- <-.
  - apply TM_bind_Some in H1 as (x & t3 & Hx & H1). apply TM_bind_Some in H1 as (l & t4 & Hl & H1). injection H1 as <- <-.
    rewrite (TM_bind_done _ _ _ x t3 Hx), (TM_bind_done _ _ _ (l ++ b) t2); [done|by apply IH].
Qed.

Lemma meaning_lookups ls (t : tree) : meaning_all BBud (lookup_requests ls) t = t_lookups BBud ls t.
Proof.
  revert t. induction ls as [|[parent name] ls IH]; intros t; [done|]. cbn [lookup_requests fmap list_fmap meaning_all t_lookups meaning fst snd].
  unfold mbind, TM_bind. destruct (t_lookup BBud parent name t) as [[a t1]|]; [|done]. fold lookup_requests. unfold lookup_requests in IH.
  by rewrite IH.
Qed.

(** C14: Lookups and forgets cancel.  After any number of lookup requests,
    through whatever directories and names, that all find the inode with one
    number, a forget request for that inode with the number of the lookups
    succeeds, and the file system shows exactly the tree it showed before
    them. *)
Theorem forget_undoes_lookups ino ls (w : world) (v : view) (t : tree) rs t' :
  StorageDir BBud = None -> holds w v -> shows v t -> numbers_unique t -> ino <> 0 ->
  meaning_all BBud (lookup_requests ls) t = Some (rs, t') -> Forall (found ino) rs -> (forall p, by_number ino t' = Some p -> room t' p 1) ->
  exists w' v' replies, serve_all BBud (lookup_requests ls ++ [ReqForget ino (Z.of_nat (length ls))]) w = Done (replies, w') /\
    holds w' v' /\ shows v' t /\ Forall (fun a => a.1 = 0) replies.
Proof.
  intros Hst Hw Hv Hnum Hino Hs Hf Hroom. pose proof Hs as Hls. rewrite meaning_lookups in Hls.
  pose proof (t_forget_lookups BBud ino ls t rs t' (shows_wf _ _ Hv) Hnum Hino Hls Hf Hroom) as Hback.
  assert (meaning_all BBud [ReqForget ino (Z.of_nat (length ls))] t' = Some ([(0, ReplyNone)], t)) as Hm.
  { cbn [meaning_all meaning]. unfold mbind, TM_bind in *. by rewrite Hback. }
  destruct (serve_all_implements BBud Hst _ _ _ _ (meaning_all_app _ _ _ _ _ _ _ Hs Hm) v Hv) as (replies & v' & Hr & Hq & Hv').
  destruct (Hr w Hw) as (w' & Hrun & Hw'). exists w', v', replies. split; [exact Hrun|]. split; [done|]. split; [done|].
  assert (Forall (fun a : Z * reply => a.1 = 0) (rs ++ [(0, ReplyNone)])) as Hz.
  { apply Forall_app. split; [|by constructor]. eapply Forall_impl; [exact Hf|]. by intros a [attr ->]. }
  clear -Hq Hz. induction Hq as [|a b l l' [Hab _] _ IH]; [constructor|]. apply Forall_cons in Hz as [Hb Hz]. constructor; [congruence|auto].
Qed.
End Losses.

(** * Witnesses *)

#[local] Notation root := (in_memory 4096).

(** The file "a" is looked up through both numbers of the root, and both
    lookups are forgotten. *)
Lemma forget_undoes_lookups_witness :
  exists w' v' replies, serve_all root [ReqLookup 1 "a"; ReqLookup 5 "a"; ReqForget 19 2] example_world = Done (replies, w') /\
    holds w' v' /\ shows v' example_tree.
Proof.
  assert (exists rs t', meaning_all root (lookup_requests [(1, "a"%string); (5, "a"%string)]) example_tree = Some (rs, t') /\ Forall (found 19) rs /\
    by_number 19 t' = Some 12288 /\ is_Some (nodes t' !! 12288) /\ counts t' !! 12288 = Some [1; 0; 1; 0; 0; 2; 0; 0; 0; 0; 0; 0])
    as (rs & t' & Hs & Hf & Hno & Hn & Hc).
  { do 2 eexists. split; [vm_compute; reflexivity|]. split; [constructor; [by eexists|]; constructor; [by eexists|constructor]|].
    split; [vm_compute; reflexivity|]. split; [vm_compute; by eexists|vm_compute; reflexivity]. }
  assert (numbers_unique example_tree) as Hu by (apply unique_numbers; vm_compute; reflexivity).
  destruct (forget_undoes_lookups root 19 [(1, "a"%string); (5, "a"%string)] example_world example_view example_tree rs t'
    eq_refl example_holds example_shows Hu ltac:(done) Hs Hf) as (w' & v' & replies & Hr & Hw & Hv & _).
  { intros p Hp. assert (p = 12288) as -> by congruence. destruct Hn as [n Hn]. exists n, [1; 0; 1; 0; 0; 2; 0; 0; 0; 0; 0; 0].
    exact (conj Hn (conj Hc eq_refl)). }
  exists w', v', replies. exact (conj Hr (conj Hw Hv)).
Defined.

(** The directory "usr" is renamed to "lib". *)
Lemma rename_orphans_witness :
  exists w' nc', bitbucket_internal_rename root 1 "usr" 1 "lib" 0 208 0 example_world = Done ((0, ReplyErr 0), w') /\
    n_parent nc' = NULL /\ n_names nc' !! ".."%string = None.
Proof.
  assert (exists rep t', t_rename root 1 "usr" 1 "lib" 0 208 0 example_tree = Some ((0, rep), t')) as (rep & t' & Hs)
    by (do 2 eexists; vm_compute; reflexivity).
  assert (exists n nc, reached root 1 example_tree = Some 4096 /\ nodes example_tree !! 4096 = Some n /\ n_names n !! "usr"%string = Some 80 /\
    entries example_tree !! 80 = Some (8192, 4096) /\ nodes example_tree !! 8192 = Some nc /\ n_type nc = BITBUCKET_DIR_TYPE /\
    n_names n !! "lib"%string = None) as (n & nc & Hp & Hn & He & Hd & Hnc & Hty & Hfree) by (do 2 eexists; evaluates).
  destruct (rename_orphans root 1 "usr" 1 "lib" 0 208 0 example_world example_view example_tree rep t' 4096 4096 8192
    n n nc 80 4096 example_holds example_shows Hp Hp Hn He Hd ltac:(done) Hnc Hty Hn Hfree Hs)
    as (w' & v' & nc' & Hr & _ & _ & _ & _ & Hpar & Hdots).
  exists w', nc'. exact (conj Hr (conj Hpar Hdots)).
Defined.

(** The file "a" is linked as "b" into the directory that has another "b". *)
Lemma link_loses_name_witness :
  exists w' rep, bitbucket_internal_link root 19 12 "b" [208] example_world = Done ((0, rep), w').
Proof.
  assert (exists a t', t_link root 19 12 "b" [208] example_tree = Some (a, t')) as (a & t' & Hs) by (do 2 eexists; vm_compute; reflexivity).
  assert (exists nf n nq, by_number 19 example_tree = Some 12288 /\ nodes example_tree !! 12288 = Some nf /\ n_type nf = BITBUCKET_FILE_TYPE /\
    reached root 12 example_tree = Some 8192 /\ nodes example_tree !! 8192 = Some n /\ n_names n !! "b"%string = Some 112 /\
    entries example_tree !! 112 = Some (16384, 8192) /\ nodes example_tree !! 16384 = Some nq /\ n_type nq = BITBUCKET_FILE_TYPE /\
    Z.land (n_mode nq) S_IFDIR = 0 /\ entries example_tree !! 48 = Some (8192, 8192))
    as (nf & n & nq & Hf & Hnf & Htf & Hp & Hn & He & Hd & Hnq & Htq & Hmode & Hx) by (do 3 eexists; evaluates).
  destruct (link_loses_name root 19 12 "b" [208] example_world example_view example_tree a t' 12288 nf 8192 n 112 16384 8192 nq 48 8192
    example_holds example_shows Hs ltac:(done) Hf Hnf Htf Hp Hn He Hd Hnq ltac:(by rewrite Htq) ltac:(by rewrite Hmode) Hx ltac:(done))
    as (w' & v' & rep & n' & Hr & _).
  exists w', rep. exact Hr.
Defined.

(** The directory "usr" is not empty. *)
Lemma rmdir_refused_leaks_witness :
  exists w' rep v' c, bitbucket_internal_rmdir root 1 "usr" example_world = Done ((ENOTEMPTY, rep), w') /\
    shows v' (hold c INODE_LOOKUP_REFERENCE example_tree).
Proof.
  assert (exists rep t', t_rmdir root 1 "usr" example_tree = Some ((ENOTEMPTY, rep), t')) as (rep & t' & Hs) by (do 2 eexists; vm_compute; reflexivity).
  destruct (rmdir_refused_leaks root 1 "usr" example_world example_view example_tree rep t' example_holds example_shows Hs)
    as (w' & v' & rep' & p & n & e & c & d & Hr & _ & _ & _ & _ & Ht).
  exists w', rep', v', c. exact (conj Hr Ht).
Defined.
