(* ===== verification/Frames.v ===== *)
(** What a request leaves alone.

    The bytes, the size, the target, the type and the number of an inode are
    its data.  A request for names changes the data of no inode at all, and a
    request for contents only those of the inode it is about: this file
    proves it for each request ([request_keeps_data]), by following the
    meanings of the handlers.  [kept X t t'] says that the inodes of [t']
    were inodes of [t] and have kept their data, those of [X] excepted. *)

From stdpp Require Import gmap list strings.
From S2P Require Import Prelude NameIndex Trie Object Xattr Inode InodeRules BitbucketData Tree Directory DirectoryRules DirectoryOps DirectoryExchange Directories Enumeration Files Updates Symlinks Handlers TreePrograms Namespace Contents ContentRules Attributes Requests Effects.

Open Scope word_scope.

Definition data (n : node) : Z * Z * Z * contents := (n_ino n, n_type n, n_size n, n_contents n).

Create HintDb kept.

Section Kept.
Context {R : Type} (X : ptr -> Prop).
#[local] Notation tree := (tree R).
#[local] Notation TM := (TM R).
Implicit Types (t : tree) (n : node) (p q e : ptr).

Definition kept t t' : Prop := forall p n', nodes t' !! p = Some n' -> X p \/ exists n, nodes t !! p = Some n /\ data n = data n'.

Lemma kept_refl t : kept t t.
Proof. intros p n Hn. right. eauto. Qed.

Lemma kept_trans t1 t2 t3 : kept t1 t2 -> kept t2 t3 -> kept t1 t3.
Proof.
  intros H1 H2 p n3 Hn3. destruct (H2 p n3 Hn3) as [|(n2 & Hn2 & E2)]; [by left|].
  destruct (H1 p n2 Hn2) as [|(n1 & Hn1 & E1)]; [by left|]. right. exists n1. split; [done|congruence].
Qed.

(** Steps after [t1]. *)
Lemma kept_nodes t t1 t2 : nodes t2 = nodes t1 -> kept t t1 -> kept t t2.
Proof. intros E Hk p n. rewrite E. apply Hk. Qed.

Lemma kept_alter t t1 g p : (forall n, data (g n) = data n) -> kept t t1 -> kept t (set_nodes (alter g p) t1).
Proof.
  intros Hg Hk. eapply kept_trans; [exact Hk|]. intros q n. cbn.
  intros [(-> & m & Hm & ->)|[_ Hn]]%lookup_alter_Some; right; eauto.
Qed.

Lemma kept_hold t t1 p r : kept t t1 -> kept t (hold p r t1).
Proof. by apply kept_nodes. Qed.
Lemma kept_put_entry t t1 e q : kept t t1 -> kept t (put_entry e q t1).
Proof. by apply kept_nodes. Qed.
Lemma kept_del_entry t t1 e : kept t t1 -> kept t (del_entry e t1).
Proof. by apply kept_nodes. Qed.
Lemma kept_exchange t t1 p q e e' x x' : kept t t1 -> kept t (exchange p q e e' x x' t1).
Proof. by apply kept_nodes. Qed.
Lemma kept_set_rest t t1 f : kept t t1 -> kept t (set_rest f t1).
Proof. by apply kept_nodes. Qed.
Lemma kept_put_name t t1 p s e q : kept t t1 -> kept t (put_name p s e q t1).
Proof. intros Hk. unfold put_name. apply kept_alter; [done|]. by eapply kept_nodes. Qed.
Lemma kept_del_name t t1 p s e q : kept t t1 -> kept t (del_name p s e q t1).
Proof. intros Hk. unfold del_name. apply kept_alter; [done|]. by eapply kept_nodes. Qed.
Lemma kept_add_link t t1 p d : kept t t1 -> kept t (add_link p d t1).
Proof. intros Hk. by apply kept_alter. Qed.
Lemma kept_set_parent t t1 p q : kept t t1 -> kept t (set_parent p q t1).
Proof. intros Hk. by apply kept_alter. Qed.

Lemma kept_drop t t1 p r : kept t t1 -> kept t (Tree.drop p r t1).
Proof.
  intros Hk. unfold Tree.drop. case_match; [|done]. case_match; [|by eapply kept_nodes]. eapply kept_trans; [exact Hk|].
  intros q n. cbn. intros [_ Hn]%lookup_delete_Some. right. eauto.
Qed.

Lemma kept_drop_some t t1 p r k : kept t t1 -> kept t (drop_some p r k t1).
Proof. intros Hk. unfold drop_some. case_match; [by eapply kept_nodes|done]. Qed.

(** An inode is changed but for its data. *)
Lemma kept_same t t1 n n' p : nodes t1 !! p = Some n -> data n = data n' -> kept t t1 -> kept t (put n' p t1).
Proof.
  intros Hn He Hk. eapply kept_trans; [exact Hk|]. intros q m. cbn.
  intros [[<- <-]|[_ Hm]]%lookup_insert_Some; right; eauto.
Qed.

(** An inode of [X] gets new data. *)
Lemma kept_put t t1 n p : X p -> kept t t1 -> kept t (put n p t1).
Proof.
  intros Hp Hk. eapply kept_trans; [exact Hk|]. intros q m. cbn.
  intros [[<- _]|[_ Hm]]%lookup_insert_Some; [by left|right; eauto].
Qed.

Lemma kept_create t t1 kd c : X c -> kept t t1 -> kept t (create kd c t1).
Proof. intros Hc Hk. eapply kept_nodes; [|by apply (kept_put _ _ (new_node kd (t_next t1)) c Hc Hk)]. done. Qed.

Lemma kept_link t t1 p q s e : kept t t1 -> kept t (link p q s e t1).
Proof. intros Hk. unfold link. case_match; auto using kept_add_link, kept_put_name, kept_put_entry, kept_hold. Qed.
Lemma kept_leak t t1 q e : kept t t1 -> kept t (leak q e t1).
Proof. auto using kept_put_entry, kept_hold. Qed.
Lemma kept_unlist t t1 p s e q : kept t t1 -> kept t (unlist p s e q t1).
Proof. intros Hk. unfold unlist. case_match; auto using kept_add_link, kept_del_name. Qed.
Lemma kept_discard t t1 e q : kept t t1 -> kept t (discard e q t1).
Proof. intros Hk. by apply kept_drop, kept_del_entry. Qed.
Lemma kept_adopt t t1 d p : kept t t1 -> kept t (adopt d p t1).
Proof. intros Hk. by apply kept_set_parent, kept_hold. Qed.
Lemma kept_orphan t t1 d p : kept t t1 -> kept t (orphan d p t1).
Proof. intros Hk. by apply kept_drop, kept_set_parent. Qed.
Lemma kept_detach t t1 c p e2 : kept t t1 -> kept t (detach c p e2 t1).
Proof. intros Hk. by apply kept_orphan, kept_discard, kept_unlist. Qed.

(** ** Programs *)

Definition keeps {A} (m : TM A) : Prop := forall t a t', m t = Some (a, t') -> kept t t'.

Lemma keeps_ret {A} (a : A) : keeps (mret a).
Proof. intros t b t' [= _ <-]. apply kept_refl. Qed.

Lemma keeps_bind {A B} (m : TM A) (k : A -> TM B) : keeps m -> (forall a, keeps (k a)) -> keeps (m ≫= k).
Proof.
  intros Hm Hk t b t' Hs. apply TM_bind_Some in Hs as (a & t1 & H1 & H2). eapply kept_trans; [by eapply Hm|by eapply Hk].
Qed.

Lemma keeps_fail {A} : keeps (t_fail (A := A)).
Proof. by intros t b t' [=]. Qed.

Lemma keeps_assert b : keeps (t_assert b).
Proof. destruct b; [apply keeps_ret|apply keeps_fail]. Qed.

End Kept.

#[export] Hint Resolve kept_refl kept_hold kept_put_entry kept_del_entry kept_exchange kept_set_rest kept_put_name kept_del_name
  kept_add_link kept_set_parent kept_drop kept_drop_some kept_link kept_leak kept_unlist kept_discard kept_adopt kept_orphan
  kept_detach : kept.

(** The functions of the specification of dir.c: their branches, then the
    updates of each. *)
Ltac keep_branches :=
  repeat match goal with
    | H : when _ _ = Some _ |- _ => apply when_Some in H as [? H]
    | H : mbind _ _ = Some _ |- _ => let E := fresh "E" in apply bind_Some in H as (? & E & H)
    | H : Some _ = Some _ |- _ => injection H as H; subst
    | H : None = Some _ |- _ => done
    | y : (_ * _)%type |- _ => destruct y
    | H : match ?x with _ => _ end = Some _ |- _ => destruct x eqn:?
    end; eauto 8 with kept.

Section Operations.
Context {R : Type} `{!Storage R} (BBud : userdata) (X : ptr -> Prop).
#[local] Notation tree := (tree R).
#[local] Notation TM := (TM R).
#[local] Notation keeps := (keeps (R := R) X).
Implicit Types (t : tree) (n : node) (p q e : ptr).

Lemma keeps_node p : keeps (t_node p).
Proof. intros t a t' Hs. unfold t_node in Hs. keep_branches. Qed.
Lemma keeps_take p r : keeps (t_take p r).
Proof. intros t a t' Hs. unfold t_take in Hs. keep_branches. Qed.
Lemma keeps_drop_some p r k : keeps (t_drop_some p r k).
Proof. intros t a t' Hs. unfold t_drop_some in Hs. keep_branches. Qed.
Lemma keeps_drop p r : keeps (t_drop p r).
Proof. intros t a t' Hs. unfold t_drop, spec_release in Hs. keep_branches. Qed.
Lemma keeps_find ino : keeps (t_find ino).
Proof. intros t a t' Hs. unfold t_find, t_take in Hs. keep_branches. Qed.
Lemma keeps_chmod p f : keeps (t_chmod p f).
Proof.
  intros t a t' Hs. apply bind_Some in Hs as (n & Hn & [= _ <-]). by eapply (kept_same X t t n); [| |apply kept_refl].
Qed.
Lemma keeps_lookup p s : keeps (spec_lookup p s).
Proof. intros t a t' Hs. unfold spec_lookup in Hs. keep_branches. Qed.
Lemma keeps_insert p q s e : keeps (spec_insert p q s e).
Proof. intros t a t' Hs. unfold spec_insert in Hs. keep_branches. Qed.
Lemma keeps_delete p s : keeps (spec_delete p s).
Proof. intros t a t' Hs. unfold spec_delete, spec_remove in Hs. keep_branches. Qed.
Lemma keeps_rmdir p : keeps (spec_rmdir p).
Proof. intros t a t' Hs. unfold spec_rmdir in Hs. keep_branches. Qed.
Lemma keeps_count p : keeps (spec_op (Count p)).
Proof. intros t a t' Hs. cbn in Hs. keep_branches. Qed.
Lemma keeps_exchange p q s s' : keeps (spec_exchange p q s s').
Proof. intros t a t' Hs. unfold spec_exchange in Hs. keep_branches. Qed.
Lemma keeps_remove_file p s : keeps (spec_remove_file p s).
Proof.
  intros t a t' Hs. unfold spec_remove_file in Hs. apply bind_Some in Hs as ([q t1] & Hl & Hs). apply keeps_lookup in Hl.
  case_match; [by injection Hs as _ <-|]. apply bind_Some in Hs as (n & _ & Hs). apply bind_Some in Hs as ([r t2] & Hd & Hs).
  apply bind_Some in Hs as ([x t3] & Hr & [= _ <-]). eapply (kept_trans _ _ t2).
  - case_match; [by injection Hd as _ <-|]. apply when_Some in Hd as [_ Hd]. eapply kept_trans; [exact Hl|]. by eapply keeps_delete.
  - unfold spec_release in Hr. keep_branches.
Qed.
Lemma keeps_make_dir p s c e1 e2 e3 : X c -> keeps (t_make_dir p s c e1 e2 e3).
Proof. intros Hc t a t' Hs. unfold t_make_dir in Hs. cbn in Hs. unfold make_dir in Hs. keep_branches. eauto 10 using kept_create with kept. Qed.
Lemma keeps_make_file p s c e : X c -> keeps (t_make_file p s c e).
Proof. intros Hc t a t' Hs. unfold t_make_file, make_file in Hs. keep_branches. eauto using kept_create with kept. Qed.
Lemma keeps_make_symlink p s l c e : X c -> keeps (t_make_symlink p s l c e).
Proof. intros Hc t a t' Hs. unfold t_make_symlink, make_symlink in Hs. keep_branches. eauto using kept_create, kept_put with kept. Qed.

(** Contents. *)
Lemma keeps_system {A} (m : M R A) : keeps (t_system m).
Proof. intros t a t' Hs. unfold t_system in Hs. keep_branches. Qed.
Lemma keeps_set_bytes p m : X p -> keeps (t_set_bytes p m).
Proof. intros Hp t a t' Hs. unfold t_set_bytes in Hs. keep_branches. eauto using kept_put with kept. Qed.
Lemma keeps_set_size p k : X p -> keeps (t_set_size p k).
Proof. intros Hp t a t' Hs. unfold t_set_size in Hs. keep_branches. eauto using kept_put with kept. Qed.
End Operations.

#[export] Hint Resolve keeps_ret keeps_fail keeps_assert keeps_node keeps_take keeps_drop_some keeps_drop keeps_find keeps_chmod keeps_lookup
  keeps_insert keeps_delete keeps_rmdir keeps_count keeps_exchange keeps_remove_file keeps_make_dir keeps_make_file keeps_make_symlink
  keeps_system keeps_set_bytes keeps_set_size : kept.

(** A program keeps what each of its operations keeps. *)
Ltac keep :=
  repeat lazymatch goal with
    | |- keeps _ (mbind _ _) => apply keeps_bind; [|intros ?]
    | |- keeps _ (if ?b then _ else _) => destruct b eqn:?
    | |- keeps _ (match ?x with _ => _ end) => destruct x eqn:?
    | |- keeps _ _ => first [solve [eauto 2 with kept] | progress cbv zeta]
    end.

Section Parts.
Context {R : Type} `{!Storage R} (BBud : userdata) (X : ptr -> Prop).
#[local] Notation tree := (tree R).
#[local] Notation TM := (TM R).
#[local] Notation keeps := (keeps (R := R) X).
Implicit Types (t : tree) (n : node) (p q e : ptr).

Lemma keeps_get ino : keeps (t_get BBud ino).
Proof. unfold t_get. keep. Qed.
Lemma keeps_put_back p : keeps (t_put p).
Proof. unfold t_put. keep. Qed.
Lemma keeps_stat p : keeps (t_stat p).
Proof. unfold t_stat. keep. Qed.
Lemma keeps_entry p : keeps (t_entry p).
Proof. unfold t_entry, t_stat. keep. Qed.
Lemma keeps_file p : keeps (t_file p).
Proof. unfold t_file. keep. Qed.
Lemma keeps_lock p : keeps (t_lock p).
Proof. unfold t_lock. keep. Qed.
Lemma keeps_unlock : keeps t_unlock.
Proof. apply keeps_ret. Qed.
End Parts.

#[export] Hint Resolve keeps_get keeps_put_back keeps_stat keeps_entry keeps_file keeps_lock keeps_unlock : kept.

Section Requests.
Context {R : Type} `{!Storage R} (BBud : userdata) (X : ptr -> Prop).
#[local] Notation tree := (tree R).
#[local] Notation TM := (TM R).
#[local] Notation keeps := (keeps (R := R) X).
Implicit Types (t : tree) (n : node) (p q e : ptr).

(** ** Requests that change no data *)

Lemma keeps_rmdir_child p c name : keeps (t_rmdir_child p c name).
Proof. unfold t_rmdir_child. keep. Qed.
Lemma keeps_forget ino k : keeps (t_forget ino k).
Proof. unfold t_forget. keep. Qed.
Lemma keeps_forget_all l : keeps (t_forget_all l).
Proof. induction l as [|[ino k] l IH]; cbn [t_forget_all]; keep; try apply keeps_forget; apply IH. Qed.
Lemma keeps_link_loop fuel p q s : forall es, keeps (t_link_loop fuel p q s es).
Proof. induction fuel as [|fuel IH]; intros [|e es]; cbn [t_link_loop]; keep; try apply IH. Qed.
Lemma keeps_rename_insert p np c x s s' e e' : keeps (t_rename_insert p np c x s s' e e').
Proof. unfold t_rename_insert. keep. Qed.
Lemma keeps_create_object p s k c e1 e2 e3 : X c -> keeps (t_create_object p s k c e1 e2 e3).
Proof. intros Hc. unfold t_create_object. keep. Qed.
Lemma keeps_rename_replace p np c x s s' fl e e' : keeps (t_rename_replace BBud p np c x s s' fl e e').
Proof. unfold t_rename_replace. keep; apply keeps_rename_insert. Qed.
Lemma keeps_rename_in p np s s' fl e e' : keeps (t_rename_in BBud p np s s' fl e e').
Proof. unfold t_rename_in. keep; apply keeps_rename_replace. Qed.
Lemma keeps_read_bytes p off k : keeps (t_read_bytes p off k).
Proof. unfold t_read_bytes. keep. Qed.
Lemma keeps_read_locked p size off : keeps (t_read_locked p size off).
Proof. unfold t_read_locked. keep; apply keeps_read_bytes. Qed.
Lemma keeps_sync p b : keeps (t_sync_file p b).
Proof. unfold t_sync_file. keep. Qed.

(** ** What changes the data of an inode *)

Section Subject.
Context (p : ptr) (Hp : X p).

Lemma keeps_adjust len : keeps (t_adjust p len).
Proof. unfold t_adjust. keep. Qed.
Lemma keeps_write_bytes off new : keeps (t_write_bytes p off new).
Proof. unfold t_write_bytes. keep. Qed.
Lemma keeps_write_locked buf off : keeps (t_write_locked p buf off).
Proof. unfold t_write_locked. keep. apply keeps_write_bytes. Qed.
Lemma keeps_copy_buffers idx bufs : forall index offset, keeps (t_copy_buffers p idx index offset bufs).
Proof.
  induction bufs as [|b bufs IH]; intros index offset; cbn [t_copy_buffers]; keep; try apply keeps_write_bytes; apply IH.
Qed.
Lemma keeps_write_buf_locked idx size off bufs ext : keeps (t_write_buf_locked p idx size off bufs ext).
Proof. unfold t_write_buf_locked. keep; try apply keeps_adjust; apply keeps_copy_buffers. Qed.
Lemma keeps_size size : keeps (t_size p size).
Proof. unfold t_size. keep. apply keeps_adjust. Qed.
Lemma keeps_set_attributes mode size to_set : keeps (t_set_attributes p mode size to_set).
Proof. unfold t_set_attributes. keep. apply keeps_size. Qed.
Lemma keeps_truncate : keeps (t_truncate p).
Proof. unfold t_truncate. keep. apply keeps_adjust. Qed.
End Subject.
End Requests.

#[export] Hint Resolve keeps_rmdir_child keeps_forget keeps_forget_all keeps_link_loop keeps_create_object keeps_rename_in keeps_read_locked
  keeps_sync keeps_adjust keeps_write_locked keeps_write_buf_locked keeps_set_attributes keeps_truncate : kept.

(** ** One request *)

Section Request.
Context {T : Type -> Type} `{NameIndex T} {R : Type} `{!Storage R} (BBud : userdata).
#[local] Notation world := (world T (instance T) (dir_state R) kind).
#[local] Notation view := (view T (instance T) (dir_state R) kind).
#[local] Notation tree := (tree R).
Implicit Types (t : tree) (n : node) (p q e : ptr).

(** The inode a request makes, and the number of the inode it is about, if
    it may change contents. *)
Definition new_inode (r : request) : option ptr :=
  match r with
  | ReqMkdir _ _ _ _ c _ _ _ | ReqCreate _ _ _ _ _ c _ _ _ | ReqSymlink _ _ _ _ c _ => Some c
  | _ => None
  end.

Definition subject (r : request) : option Z :=
  match r with
  | ReqOpen ino _ | ReqWrite ino _ _ | ReqWriteBuf ino _ _ _ | ReqSetattr ino _ _ _ => Some ino
  | _ => None
  end.

Definition concerned (r : request) t p : Prop := new_inode r = Some p \/ exists ino, subject r = Some ino /\ reached BBud ino t = Some p.

(** A handler that gets its inode first. *)
Lemma kept_subject {A} ino (X : ptr -> Prop) t (k : ptr -> TM R A) a t' :
  (forall p, reached BBud ino t = Some p -> X p) -> (forall p, (p <> NULL -> X p) -> keeps X (k p)) ->
  (t_get BBud ino ≫= k) t = Some (a, t') -> kept X t t'.
Proof.
  intros HX Hk Hs. apply TM_bind_Some in Hs as (p & t1 & Hg & Hs). eapply kept_trans; [by eapply (keeps_get BBud X ino)|].
  eapply Hk; [|exact Hs]. intros Hp. apply HX. unfold reached. unfold t_get in Hg. destruct (FUSE_ROOT_ID =? ino).
  - apply TM_bind_Some in Hg as ([] & t2 & _ & Hg). by apply t_ret_Some in Hg as [= -> ->].
  - apply TM_bind_Some in Hg as (o & t2 & Ht & Hg). apply t_ret_Some in Hg as [= Ho ->]. unfold t_find in Ht.
    destruct (ino =? 0); [done|]. destruct (by_number ino t) as [q|]; [|by injection Ht as <- <-].
    apply bind_Some in Ht as ([[] t3] & _ & [= <- _]). by subst.
Qed.

Lemma meaning_keeps_all r (X : ptr -> Prop) :
  subject r = None -> (forall c, new_inode r = Some c -> X c) -> keeps X (meaning BBud r).
Proof.
  intros Hsub Hnew. destruct r; try done; cbn [meaning]; cbn [new_inode] in Hnew; try specialize (Hnew _ eq_refl);
    unfold t_lookup, t_getattr, t_access, t_opendir, t_releasedir, t_mkdir, t_rmdir, t_unlink, t_link, t_create, t_rename, t_symlink,
      t_readlink, t_release, t_read, t_flush, t_fsync, t_fsyncdir,
      t_setxattr, t_getxattr, t_removexattr, t_refuse; keep.
Qed.

Lemma kept_weaken (X Y : ptr -> Prop) t t' : (forall p, X p -> Y p) -> kept X t t' -> kept Y t t'.
Proof. intros HXY Hk p n Hn. destruct (Hk p n Hn) as [|]; auto. Qed.

Lemma meaning_keeps r t a t' : meaning BBud r t = Some (a, t') -> kept (concerned r t) t t'.
Proof.
  intros Hs. destruct (subject r) as [ino|] eqn:E.
  - apply (kept_weaken (fun p => reached BBud ino t = Some p)); [by right; eauto|].
    destruct r; try done; injection E as ->; cbn [meaning] in Hs.
    + revert Hs. apply kept_subject; [done|]. intros p Hp. keep; apply keeps_truncate, Hp; by apply Z.eqb_neq.
    + unfold t_write in Hs. case_match; [by apply t_ret_Some in Hs as [= -> ->]; apply kept_refl|]. revert Hs.
      apply kept_subject; [done|]. intros p Hp. keep; try (apply keeps_write_locked || apply keeps_adjust); apply Hp; by apply Z.eqb_neq.
    + unfold t_write_buf in Hs. case_match; [by apply t_ret_Some in Hs as [= -> ->]; apply kept_refl|]. revert Hs.
      apply kept_subject; [done|]. intros p Hp. destruct (Z.eqb_spec p NULL) as [->|Hne]; [intros ? ? ? [=]|]. keep; apply keeps_write_buf_locked; auto.
    + revert Hs. apply kept_subject; [done|]. intros p Hp. keep; apply keeps_set_attributes, Hp; by apply Z.eqb_neq.
  - eapply meaning_keeps_all; [done| |exact Hs]. intros c Hc. by left.
Qed.

(** ** Sequences of requests, in the code *)

Definition concerns (r : request) t p : bool :=
  bool_decide (new_inode r = Some p) || match subject r with Some ino => bool_decide (reached BBud ino t = Some p) | None => false end.

(** No request of the sequence makes the inode or is about its contents. *)
Fixpoint untouched (rs : list request) t p : bool :=
  match rs with
  | [] => true
  | r :: rs => negb (concerns r t p) && match meaning BBud r t with Some (_, t1) => untouched rs t1 p | None => true end
  end.

Lemma untouched_data rs p : forall t l t' n',
  meaning_all BBud rs t = Some (l, t') -> untouched rs t p = true -> nodes t' !! p = Some n' ->
  exists n, nodes t !! p = Some n /\ data n = data n'.
Proof.
  induction rs as [|r rs IH]; intros t l t' n' Hs Hu Hn; [apply t_ret_Some in Hs as [= -> ->]; eauto|].
  cbn [meaning_all] in Hs. apply TM_bind_Some in Hs as (a & t1 & H1 & Hs). apply TM_bind_Some in Hs as (l1 & t2 & H2 & Hs).
  apply t_ret_Some in Hs as [= -> ->]. cbn [untouched] in Hu. rewrite H1 in Hu. apply andb_prop in Hu as [Hc Hu].
  destruct (IH t1 l1 t2 n' H2 Hu Hn) as (n1 & Hn1 & E1). destruct (meaning_keeps r t a t1 H1 p n1 Hn1) as [Hp|(n & Hn0 & E)].
  - apply negb_true_iff, orb_false_elim in Hc as [Hc1 Hc2]. destruct Hp as [Hp|(ino & Hino & Hp)].
    + by rewrite bool_decide_true in Hc1.
    + by rewrite Hino, bool_decide_true in Hc2.
  - exists n. split; [done|congruence].
Qed.

(** What an inode in memory holds. *)
Definition data_of (i : inode T (instance T) kind) : Z * Z * Z * contents :=
  (st_ino i, InodeType i, st_size i,
   match Instance i with
   | File f => Bytes match Map f with Mapped b => Some b | _ => None end
   | SymbolicLink s => Target (LinkContents s)
   | _ => NoContents
   end).

Lemma shows_data_of i n : shows_inode i n -> data_of i = data n.
Proof.
  intros [_ _ Hino Hty _ _ Hsz Hd]. unfold data_of, data, shows_data in *. rewrite Hino, Hty, Hsz. f_equal.
  destruct (Instance i) as [|d|f|s]; [done|..].
  - by destruct Hd as (_ & _ & _ & _ & _ & _ & _ & ->).
  - destruct Hd as (_ & _ & _ & _ & m & -> & ->). by destruct m.
  - by destruct Hd as (_ & _ & _ & ->).
Qed.

(** C9: Requests keep to their inode.  Without a storage directory, whatever
    sequence of requests that have a meaning in the tree is served, an inode
    that none of them makes, writes to, sets attributes of
    or opens, and that exists afterwards, has in memory the number, the type,
    the size and the contents it had before: requests for names change the
    contents of no file, and writing to one file changes no other. *)
Theorem requests_keep_data rs (w : world) (v : view) t answers t' replies w' p :
  StorageDir BBud = None -> holds w v -> shows v t -> meaning_all BBud rs t = Some (answers, t') -> serve_all BBud rs w = Done (replies, w') ->
  untouched rs t p = true -> is_Some (nodes t' !! p) ->
  exists i i', inodes w !! p = Some i /\ inodes w' !! p = Some i' /\ data_of i' = data_of i.
Proof.
  intros Hst Hw Hv Hm Hrun Hu [n' Hn']. destruct (serve_all_implements BBud Hst rs t answers t' Hm v Hv) as (l & v' & Hr & _ & Hv').
  destruct (Hr w Hw) as (w1 & Hrun1 & Hw'). assert (w1 = w') as -> by congruence.
  destruct (untouched_data rs p t answers t' n' Hm Hu Hn') as (n & Hn & E).
  destruct (sh_node _ _ Hv p n Hn) as (i & Hi & _ & Hsi). destruct (sh_node _ _ Hv' p n' Hn') as (i' & Hi' & _ & Hsi').
  exists i, i'. rewrite (ho_inos _ _ Hw), (ho_inos _ _ Hw'). split; [done|]. split; [done|].
  by rewrite (shows_data_of _ _ Hsi), (shows_data_of _ _ Hsi').
Qed.
End Request.

(** * Witnesses *)

Lemma requests_keep_data_witness :
  exists w' replies i i', serve_all example_userdata example_requests example_world = Done (replies, w') /\
    inodes example_world !! 12288 = Some i /\ inodes w' !! 12288 = Some i' /\ data_of i' = data_of i.
Proof.
  assert (exists answers t', meaning_all example_userdata example_requests example_tree = Some (answers, t') /\ is_Some (nodes t' !! 12288))
    as (answers & t' & Hm & Hn) by (do 2 eexists; split; [vm_compute; reflexivity|vm_compute; by eexists]).
  assert (exists replies w', serve_all example_userdata example_requests example_world = Done (replies, w')) as (replies & w' & Hr)
    by (do 2 eexists; vm_compute; reflexivity).
  assert (untouched example_userdata example_requests example_tree 12288 = true) as Hu by (vm_compute; reflexivity).
  destruct (requests_keep_data example_userdata example_requests example_world example_view example_tree answers t' replies w' 12288
    eq_refl example_holds example_shows Hm Hr Hu Hn) as (i & i' & Hi & Hi' & E).
  exists w', replies, i, i'. exact (conj Hr (conj Hi (conj Hi' E))).
Defined.
