(* ===== verification/ContentEffects.v ===== *)
(** What single requests do to the contents of files and links.

    [visible n] are the bytes a file shows: those of its memory up to its
    size.  A file is [sized] when it has memory for all of them, which is so
    until write.c extends it.  The theorems say what writing and reading do
    while the code works, and where it stops working: when a file that has
    memory changes its length, and when write.c extends a file. *)

From stdpp Require Import gmap list strings.
From S2P Require Import Prelude NameIndex Trie Object Xattr Inode InodeRules BitbucketData Tree Directory DirectoryRules DirectoryOps DirectoryExchange Directories Enumeration Files Updates Symlinks Handlers TreePrograms Namespace Contents ContentRules Requests Effects.

Open Scope word_scope.

(** * Bytes *)

Definition visible (n : node) : list Byte.byte :=
  match n_contents n with Bytes (Some b) => take (Z.to_nat (n_size n)) b | _ => [] end.

(** What a file system should hold after a write. *)
Definition write_at (off : Z) (new l : list Byte.byte) : list Byte.byte :=
  take (Z.to_nat off) (l ++ replicate (Z.to_nat off - length l) Byte.x00) ++ new ++ skipn (Z.to_nat off + length new) l.

Record sized (n : node) (m : option (list Byte.byte)) : Prop := {
  sz_type : n_type n = BITBUCKET_FILE_TYPE;
  sz_bytes : n_contents n = Bytes m;
  sz_range : 0 <= n_size n < 2 ^ 63;
  sz_room : n_size n <= Z.of_nat (length (default [] m)) }.

Definition memory_buffer (data : list Byte.byte) : fuse_buf :=
  {| b_size := Z.of_nat (length data); b_flags := 0; b_mem := data; b_fd := 0; b_pos := 0 |}.

Lemma slice_take {A} off n s (l : list A) :
  0 <= off -> off + n <= s -> slice off n (take (Z.to_nat s) l) = slice off n l.
Proof. intros Ho Hs. unfold slice. rewrite skipn_firstn_comm, take_take. f_equal. lia. Qed.

Lemma slice_short {A} off n k (l : list A) :
  0 <= k <= n -> Z.of_nat (length l) <= off + k -> 0 <= off -> slice off k l = slice off n l.
Proof. intros Hk Hl Ho. unfold slice. rewrite !take_ge; [done|rewrite length_skipn; lia..]. Qed.

Lemma slice_end {A} off n (l : list A) : 0 <= off -> Z.of_nat (length l) <= off -> slice off n l = [].
Proof. intros Ho Hl. unfold slice. rewrite skipn_all2 by lia. by rewrite firstn_nil. Qed.

Lemma length_visible n m : sized n m -> Z.of_nat (length (visible n)) = n_size n.
Proof.
  intros [_ Hb Hr Hl]. unfold visible. rewrite Hb. destruct m as [b|]; cbn in *; [rewrite length_take; lia|lia].
Qed.

(** A write inside the file. *)
Lemma write_at_inside off new s (b : list Byte.byte) :
  0 <= off -> off + Z.of_nat (length new) <= s -> s <= Z.of_nat (length b) ->
  take (Z.to_nat s) (splice off new b) = write_at off new (take (Z.to_nat s) b).
Proof.
  intros Ho Hs Hb. unfold splice, write_at. rewrite length_take.
  replace (Z.to_nat off - Z.to_nat s `min` length b)%nat with 0%nat by lia. cbn [replicate]. rewrite app_nil_r, take_take.
  rewrite skipn_firstn_comm, !take_app, length_take, take_take.
  replace (Z.to_nat s `min` Z.to_nat off)%nat with (Z.to_nat off) by lia.
  replace (Z.to_nat off `min` Z.to_nat s)%nat with (Z.to_nat off) by lia. f_equal.
  rewrite (take_ge new) by lia. f_equal. f_equal. lia.
Qed.

(** A write to a file without memory. *)
Lemma write_at_fresh off (new : list Byte.byte) :
  0 <= off -> splice off new (replicate (Z.to_nat (off + Z.of_nat (length new))) Byte.x00) = write_at off new [].
Proof.
  intros Ho. unfold splice, write_at. cbn [app length]. rewrite Nat.sub_0_r, take_replicate, drop_replicate, skipn_nil.
  rewrite take_ge by (rewrite length_replicate; lia).
  replace (Z.to_nat (off + Z.of_nat (length new)) - (Z.to_nat off + length new))%nat with 0%nat by lia. f_equal. f_equal. lia.
Qed.

Lemma length_splice {A} off (new l : list A) :
  0 <= off -> off + Z.of_nat (length new) <= Z.of_nat (length l) -> length (splice off new l) = length l.
Proof. intros Ho Hl. unfold splice. rewrite !length_app, length_take, length_skipn. lia. Qed.

(** * On trees *)

Section Effects.
Context {R : Type} `{!Storage R} (BBud : userdata).
#[local] Notation tree := (tree R).
#[local] Notation TM := (TM R).
Implicit Types (t : tree) (n : node) (p q e : ptr) (m : option (list Byte.byte)) (x : R).

(** An inode that requests can name. *)
Record present (ino : Z) t p n : Prop := {
  pr_sound : sound t;
  pr_ino : ino <> 0;
  pr_reached : reached BBud ino t = Some p;
  pr_node : nodes t !! p = Some n;
  pr_room : room t p 1 }.

Lemma present_null ino t p n : present ino t p n -> p <> NULL.
Proof. intros []. apply (wf_null _ _ _ _ pr_sound0). eauto. Qed.

Lemma t_get_here ino t p n : present ino t p n -> t_get BBud ino t = Some (p, hold p INODE_LOOKUP_REFERENCE t).
Proof.
  intros []. unfold t_get, reached in *. destruct (FUSE_ROOT_ID =? ino).
  - injection pr_reached0 as ->. by rewrite (TM_bind_done _ _ _ tt (hold p INODE_LOOKUP_REFERENCE t)) by (by apply t_take_here).
  - rewrite (TM_bind_done _ _ _ (Some p) (hold p INODE_LOOKUP_REFERENCE t)); [done|]. unfold t_find.
    rewrite (proj2 (Z.eqb_neq _ _) pr_ino0), pr_reached0, t_take_here by done. done.
Qed.

(** The tree with an inode changed, and the state of the system calls. *)
Definition with_node p n x t : tree := put n p (set_rest (fun _ => x) t).

Lemma with_node_hold p n x q r t : with_node p n x (hold q r t) = hold q r (with_node p n x t).
Proof. done. Qed.

Lemma with_node_same p n t : nodes t !! p = Some n -> with_node p n (t_rest t) t = t.
Proof. intros Hn. unfold with_node, put, set_nodes, set_rest. cbn. rewrite insert_id by done. by destruct t. Qed.

Lemma put_with_node p n n' x t : put n p (with_node p n' x t) = with_node p n x t.
Proof. unfold with_node. by rewrite put_twice. Qed.

Lemma with_node_lookup p n x t : nodes (with_node p n x t) !! p = Some n.
Proof. apply put_lookup. Qed.

Lemma with_node_sound p n n' x t : sound t -> nodes t !! p = Some n -> same_place n n' -> sound (with_node p n' x t).
Proof. intros Hw Hn Hp. eapply (wf_put _ p n); [by apply wf_set_rest|done|done]. Qed.

Lemma with_node_room p n n' x t q k : nodes t !! p = Some n -> room t q k -> room (with_node p n' x t) q k.
Proof.
  intros Hn (nq & bag & Hq & Hb & Hk). destruct (decide (p = q)) as [<-|Hne].
  - exists n', bag. by rewrite with_node_lookup.
  - exists nq, bag. split; [|done]. cbn. by rewrite lookup_insert_ne.
Qed.

(** The number still leads there. *)
Lemma present_with ino t p n n' x : present ino t p n -> n_ino n' = n_ino n -> same_place n n' ->
  (forall q (nq : node), nodes t !! q = Some nq -> n_ino nq = n_ino n -> q = p) -> present ino (with_node p n' x t) p n'.
Proof.
  intros Hp Hino Hpl Huniq. pose proof Hp as []. constructor; [by eapply with_node_sound|done| |apply with_node_lookup|by eapply with_node_room].
  unfold reached in *. destruct (FUSE_ROOT_ID =? ino); [done|]. destruct (by_number ino (with_node p n' x t)) as [q|] eqn:E.
  - f_equal. destruct (by_number_Some _ _ _ pr_reached0) as (n0 & Hn0 & Hi0). assert (n0 = n) as -> by congruence.
    destruct (by_number_Some _ _ _ E) as (m & Hm & Hi). cbn in Hm. apply lookup_insert_Some in Hm as [[<- _]|[Hne Hm]]; [done|].
    exact (Huniq q m Hm (eq_trans Hi (eq_sym Hi0))).
  - exfalso. destruct (by_number_Some _ _ _ pr_reached0) as (n0 & Hn0 & Hi0). assert (n0 = n) as -> by congruence.
    eapply (by_number_None _ _ p n' E); [apply with_node_lookup|congruence].
Qed.

(** What is done with the inode and the reference to it that is given back. *)
Lemma t_drop_end p n n' x t : sound t -> nodes t !! p = Some n -> same_place n n' -> room t p 0 ->
  t_drop p INODE_LOOKUP_REFERENCE (with_node p n' x (hold p INODE_LOOKUP_REFERENCE t)) = Some ((), with_node p n' x t).
Proof.
  intros Hw Hn Hpl Hr. rewrite with_node_hold. apply t_drop_hold; [by eapply with_node_sound|done|by eapply with_node_room].
Qed.

Lemma t_node_here p n t : nodes t !! p = Some n -> t_node p t = Some (n, t).
Proof. intros Hn. unfold t_node. by rewrite Hn. Qed.

Lemma t_file_here p n m t : nodes t !! p = Some n -> n_contents n = Bytes m -> t_file p t = Some (m, t).
Proof. intros Hn Hb. unfold t_file. rewrite (TM_bind_done _ _ _ n t) by (by apply t_node_here). by rewrite Hb. Qed.

Lemma t_lock_here p n t : nodes t !! p = Some n -> t_lock p t = Some ((), t).
Proof. intros Hn. unfold t_lock. by rewrite (TM_bind_done _ _ _ n t) by (by apply t_node_here). Qed.

Lemma u64_small (k : Z) : 0 <= k < 2 ^ 64 -> u64 k = k.
Proof. intros Hk. by apply wrap_small. Qed.

(** ** Reading *)

Lemma t_read_locked_visible p n m size off t :
  nodes t !! p = Some n -> sized n m -> 0 < size -> 0 <= off -> size + off < 2 ^ 64 ->
  t_read_locked p size off t = Some ((0, slice off size (visible n)), t).
Proof.
  intros Hn Hs Hsize Hoff Hsum. pose proof (length_visible n m Hs) as Hlen. pose proof Hs as [Hty Hb Hr Hl].
  unfold t_read_locked. rewrite (TM_bind_done _ _ _ n t) by (by apply t_node_here). rewrite Hty, Z.eqb_refl. cbn [negb].
  destruct (Z.ltb_spec (n_size n) off); [rewrite slice_end by lia; done|]. cbv zeta.
  rewrite !u64_small by lia.
  set (outsize := if n_size n <? size + off then n_size n - off else size).
  assert (0 <= outsize <= size /\ off + outsize <= n_size n /\ (outsize = size \/ off + outsize = n_size n)) as (Ho & Hin & Hcase)
    by (unfold outsize; destruct (Z.ltb_spec (n_size n) (size + off)); lia).
  destruct (Z.ltb_spec 0 outsize); [|rewrite slice_end by lia; done].
  destruct m as [b|]; [|cbn in Hl; lia]. unfold t_read_bytes. cbn in Hl.
  erewrite (TM_bind_done _ _ _ (slice off outsize b) t); cycle 1.
  { rewrite (TM_bind_done _ _ _ (Some b) t) by (by eapply t_file_here). unfold inside.
    rewrite (proj2 (Z.leb_le 0 off)), (proj2 (Z.leb_le (off + outsize) _)) by lia. done. }
  unfold mret, TM_ret. do 2 f_equal. rewrite <- (slice_take off outsize (n_size n) b) by lia.
  assert (visible n = take (Z.to_nat (n_size n)) b) as <- by (unfold visible; by rewrite Hb).
  destruct Hcase as [->|E]; [done|]. rewrite (slice_short off size outsize (visible n)) by lia. done.
Qed.

Lemma t_read_visible ino p n m size off t :
  present ino t p n -> sized n m -> 0 < size -> 0 <= off -> size + off < 2 ^ 64 ->
  t_read BBud ino size off t = Some ((0, ReplyData (slice off size (visible n))), t).
Proof.
  intros Hp Hs Hsize Hoff Hsum. pose proof (present_null _ _ _ _ Hp) as Hnull. pose proof Hp as [].
  unfold t_read. destruct (Z.eqb_spec size 0); [lia|].
  rewrite (TM_bind_done _ _ _ _ _ (t_get_here _ _ _ _ Hp)).
  rewrite (TM_bind_done _ _ _ tt (hold p INODE_LOOKUP_REFERENCE t)) by (by eapply t_lock_here).
  rewrite (TM_bind_done _ _ _ (0, slice off size (visible n)) (hold p INODE_LOOKUP_REFERENCE t)) by (by eapply t_read_locked_visible).
  rewrite (TM_bind_done _ _ _ tt (hold p INODE_LOOKUP_REFERENCE t)) by done.
  rewrite (TM_bind_done _ _ _ tt t) by (apply t_put_hold; [done|done|by eapply room_less]). done.
Qed.

(** ** Writing *)

(** The bytes fit into the memory of the file, or it has none and gets it. *)
Definition writable (off len : Z) n m t x : Prop :=
  (exists b, m = Some b /\ off + len <= n_size n /\ x = t_rest t) \/ (m = None /\ os_malloc (off + len) (t_rest t) = Done (true, x)).

Definition written (off : Z) (new : list Byte.byte) n m : node :=
  let len := Z.of_nat (length new) in
  match m with
  | Some b => node_bytes (Some (splice off new b)) n
  | None => node_size (off + len) (node_bytes (Some (splice off new (replicate (Z.to_nat (off + len)) Byte.x00))) n)
  end.

Lemma written_place off new n m : 0 <= n_base n <= 1 -> same_place n (written off new n m).
Proof. intros Hb. destruct m; by constructor. Qed.

Lemma written_ok off new n m t x :
  sized n m -> new <> [] -> 0 <= off -> off + Z.of_nat (length new) < 2 ^ 63 -> writable off (Z.of_nat (length new)) n m t x ->
  (exists m', sized (written off new n m) m') /\ visible (written off new n m) = write_at off new (visible n) /\
  n_size (written off new n m) = Z.max (n_size n) (off + Z.of_nat (length new)).
Proof.
  intros Hs Hnew Ho Hlen Hw. pose proof Hs as [Hty Hb Hr Hl]. assert (0 < Z.of_nat (length new)) as Hpos by (destruct new; [done|cbn; lia]).
  destruct Hw as [(b & -> & Hin & _)|[-> _]]; cbn in Hl |- *.
  - pose proof (length_splice off new b Ho ltac:(lia)) as Hls. split; [|split].
    + exists (Some (splice off new b)). constructor; try done. cbn. lia.
    + unfold visible. cbn. rewrite Hb. by apply write_at_inside.
    + lia.
  - set (zs := replicate (Z.to_nat (off + Z.of_nat (length new))) Byte.x00).
    pose proof (length_splice off new zs Ho) as Hls. unfold zs in Hls. rewrite length_replicate in Hls. specialize (Hls ltac:(lia)). split; [|split].
    + exists (Some (splice off new zs)). constructor; try done; cbn; [lia|]. unfold zs. lia.
    + unfold visible. cbn. rewrite Hb. unfold zs. rewrite take_ge by lia. by apply write_at_fresh.
    + cbn in Hl. lia.
Qed.

Lemma t_write_bytes_here p n b off new t :
  nodes t !! p = Some n -> n_contents n = Bytes (Some b) -> 0 <= off -> off + Z.of_nat (length new) <= Z.of_nat (length b) ->
  t_write_bytes p off new t = Some ((), with_node p (node_bytes (Some (splice off new b)) n) (t_rest t) t).
Proof.
  intros Hn Hb Ho Hl. unfold t_write_bytes. rewrite (TM_bind_done _ _ _ (Some b) t) by (by eapply t_file_here). unfold inside.
  rewrite (proj2 (Z.leb_le 0 off)), (proj2 (Z.leb_le (off + Z.of_nat (length new)) _)) by lia. cbn [andb].
  unfold t_set_bytes. rewrite Hn. cbn. by rewrite Hb.
Qed.

Lemma t_copy_memory p n b off new t :
  nodes t !! p = Some n -> n_contents n = Bytes (Some b) -> 0 <= off -> 0 <= n_size n < 2 ^ 63 ->
  off + Z.of_nat (length new) <= n_size n -> n_size n <= Z.of_nat (length b) ->
  t_copy_buffers p 0 0 off [memory_buffer new] t = Some ((), with_node p (node_bytes (Some (splice off new b)) n) (t_rest t) t).
Proof.
  intros Hn Hb Ho Hsz Hin Hl. cbn [t_copy_buffers memory_buffer b_flags b_size b_mem]. change (0 <=? 0) with true. cbv iota.
  change (has 0 FUSE_BUF_FD_SEEK) with false. change (has 0 FUSE_BUF_IS_FD) with false. cbv zeta iota.
  erewrite (TM_bind_done _ _ _ (u64 (off + Z.of_nat (length new))) (with_node p (node_bytes (Some (splice off new b)) n) (t_rest t) t)); [done|].
  rewrite (TM_bind_done _ _ _ n t) by (by apply t_node_here). rewrite !u64_small by lia.
  rewrite (proj2 (Z.leb_le (off + Z.of_nat (length new)) _)) by lia. rewrite (TM_bind_done _ _ _ tt t) by done.
  rewrite Z.leb_refl, Nat2Z.id, firstn_all.
  by rewrite (TM_bind_done _ _ _ tt (with_node p (node_bytes (Some (splice off new b)) n) (t_rest t) t)) by (apply t_write_bytes_here; [done..|lia]).
Qed.

Lemma t_adjust_fresh p n len x t :
  nodes t !! p = Some n -> n_contents n = Bytes None -> 0 <= n_size n < len -> len < 2 ^ 63 -> os_malloc len (t_rest t) = Done (true, x) ->
  t_adjust p len t = Some (0, with_node p (node_bytes (Some (replicate (Z.to_nat len) Byte.x00)) n) x t).
Proof.
  intros Hn Hb Hsz Hlen Hm. unfold t_adjust. rewrite (TM_bind_done _ _ _ n t) by (by apply t_node_here).
  rewrite (TM_bind_done _ _ _ None t) by (by eapply t_file_here). rewrite u64_small by lia.
  destruct (Z.eqb_spec len (n_size n)); [lia|]. destruct (Z.eqb_spec len 0); [lia|].
  rewrite (TM_bind_done _ _ _ true (set_rest (fun _ => x) t)) by (unfold t_system; by rewrite Hm).
  rewrite (TM_bind_done _ _ _ tt (with_node p (node_bytes (Some (replicate (Z.to_nat len) Byte.x00)) n) x t)); [done|].
  unfold t_set_bytes. cbn [nodes set_rest]. rewrite Hn. cbn. by rewrite Hb.
Qed.

Lemma t_write_buf_locked_here p n m off new t x ext :
  nodes t !! p = Some n -> sized n m -> new <> [] -> 0 <= off -> off + Z.of_nat (length new) < 2 ^ 63 ->
  writable off (Z.of_nat (length new)) n m t x -> (m = None -> ext = true) ->
  t_write_buf_locked p 0 (Z.of_nat (length new)) off [memory_buffer new] ext t = Some ((), with_node p (written off new n m) x t).
Proof.
  intros Hn Hs Hnew Ho Hlen Hw Hext. pose proof Hs as [Hty Hb Hr Hl]. assert (0 < Z.of_nat (length new)) as Hpos by (destruct new; [done|cbn; lia]).
  unfold t_write_buf_locked. rewrite (TM_bind_done _ _ _ n t) by (by apply t_node_here). rewrite !u64_small by lia.
  destruct Hw as [(b & -> & Hin & ->)|[-> Hm]]; cbn in Hl.
  - destruct (Z.ltb_spec (n_size n) (off + Z.of_nat (length new))); [lia|]. rewrite (TM_bind_done _ _ _ tt t) by done.
    by apply t_copy_memory.
  - destruct (Z.ltb_spec (n_size n) (off + Z.of_nat (length new))); [|lia]. rewrite Hext by done.
    set (len := off + Z.of_nat (length new)) in *. set (zs := replicate (Z.to_nat len) Byte.x00).
    assert (Z.of_nat (length zs) = len) as Hzs by (unfold zs; rewrite length_replicate; lia).
    set (n1 := node_bytes (Some zs) n). set (n2 := node_size len n1).
    erewrite (TM_bind_done _ _ _ tt (with_node p n2 x t)); cycle 1.
    { rewrite (TM_bind_done _ _ _ tt t) by done. rewrite (TM_bind_done _ _ _ 0 (with_node p n1 x t)) by (apply t_adjust_fresh; [done|done|lia..|done]).
      rewrite (TM_bind_done _ _ _ tt (with_node p n1 x t)) by done. unfold t_set_size. rewrite with_node_lookup. cbn [mbind option_bind].
      unfold s64. rewrite (proj2 (Z.ltb_lt _ _) Hlen). unfold n2. by rewrite <- (put_with_node p (node_size len n1) n1 x t). }
    rewrite (t_copy_memory p n2 zs off new); [|apply with_node_lookup|done|done|cbn; lia|cbn; lia|cbn; lia].
    do 2 f_equal. exact (put_with_node p (node_bytes (Some (splice off new zs)) n2) n2 x t).
Qed.

Lemma t_write_buf_here ino p n m off new t x :
  present ino t p n -> sized n m -> new <> [] -> 0 <= off -> off + Z.of_nat (length new) < 2 ^ 63 ->
  writable off (Z.of_nat (length new)) n m t x ->
  t_write_buf BBud ino 0 [memory_buffer new] off t = Some ((0, ReplyWrite (Z.of_nat (length new))), with_node p (written off new n m) x t).
Proof.
  intros Hp Hs Hnew Ho Hlen Hw. pose proof (present_null _ _ _ _ Hp) as Hnull. pose proof Hp as []. pose proof Hs as [Hty Hb Hr Hl].
  assert (0 < Z.of_nat (length new)) as Hpos by (destruct new; [done|cbn; lia]).
  unfold t_write_buf. assert (buffers_size 0 0 [memory_buffer new] = Z.of_nat (length new)) as ->.
  { cbn [buffers_size memory_buffer b_size]. change (0 <=? 0) with true. cbv iota. rewrite Z.add_0_r. apply u64_small. lia. }
  cbv zeta. destruct (Z.eqb_spec (Z.of_nat (length new)) 0); [lia|]. set (t1 := hold p INODE_LOOKUP_REFERENCE t).
  rewrite (TM_bind_done _ _ _ p t1) by (by eapply t_get_here). rewrite (proj2 (Z.eqb_neq _ _) Hnull). cbn [negb].
  rewrite (TM_bind_done _ _ _ tt t1) by done. rewrite (TM_bind_done _ _ _ n t1) by (by apply t_node_here). rewrite Hty, Z.eqb_refl. cbn [negb].
  set (t2 := with_node p (written off new n m) x t).
  assert (forall ext, (m = None -> ext = true) -> t_write_buf_locked p 0 (Z.of_nat (length new)) off [memory_buffer new] ext t1 =
    Some ((), hold p INODE_LOOKUP_REFERENCE t2)) as Hlocked.
  { intros ext Hext. unfold t2. rewrite <- with_node_hold. by apply t_write_buf_locked_here. }
  rewrite (TM_bind_done _ _ _ 0 t2); [done|]. rewrite (TM_bind_done _ _ _ tt t1) by (by eapply t_lock_here).
  rewrite (TM_bind_done _ _ _ n t1) by (by apply t_node_here). rewrite (TM_bind_done _ _ _ tt (hold p INODE_LOOKUP_REFERENCE t2)).
  - rewrite (TM_bind_done _ _ _ tt (hold p INODE_LOOKUP_REFERENCE t2)) by done. rewrite (TM_bind_done _ _ _ tt t2); [done|].
    apply (t_drop_end p n); [done|done|apply written_place; by eapply wf_base|by eapply room_less].
  - rewrite !u64_small by lia. destruct (Z.ltb_spec (n_size n) (off + Z.of_nat (length new))).
    + rewrite (TM_bind_done _ _ _ tt t1) by done. rewrite (TM_bind_done _ _ _ tt t1) by (by eapply t_lock_here). by apply Hlocked.
    + apply Hlocked. intros ->. destruct Hw as [(b & [=] & _)|_]. cbn in Hl. lia.
Qed.

(** ** Symbolic links *)

Lemma t_readlink_here ino p n l t :
  present ino t p n -> FUSE_ROOT_ID <> ino -> n_type n = BITBUCKET_SYMLINK_TYPE -> n_contents n = Target l -> t_readlink ino t = Some ((0, ReplyLink l), t).
Proof.
  intros Hp Hroot Hty Hc. pose proof (present_null _ _ _ _ Hp) as Hnull. pose proof Hp as []. unfold t_readlink.
  unfold reached in pr_reached0. destruct (Z.eqb_spec FUSE_ROOT_ID ino); [done|]. set (t1 := hold p INODE_LOOKUP_REFERENCE t).
  rewrite (proj2 (Z.eqb_neq _ _) pr_ino0). rewrite (TM_bind_done _ _ _ tt t) by done. rewrite (TM_bind_done _ _ _ (Some p) t1).
  - cbv zeta. change (default NULL (Some p)) with p. rewrite (proj2 (Z.eqb_neq _ _) Hnull). rewrite (TM_bind_done _ _ _ (0, ReplyLink l) t1).
    + rewrite (TM_bind_done _ _ _ tt t) by (apply t_put_hold; [done|done|by eapply room_less]). done.
    + rewrite (TM_bind_done _ _ _ n t1) by (by apply t_node_here). by rewrite Hty, Z.eqb_refl, Hc.
  - unfold t_find. rewrite (proj2 (Z.eqb_neq _ _) pr_ino0), pr_reached0, t_take_here by done. done.
Qed.
End Effects.

(** * In the code *)

Section Code.
Context {T : Type -> Type} `{NameIndex T} {R : Type} `{!Storage R} (BBud : userdata).
#[local] Notation world := (world T (instance T) (dir_state R) kind).
#[local] Notation MW := (M world).
#[local] Notation view := (view T (instance T) (dir_state R) kind).
#[local] Notation tree := (tree R).
Implicit Types (v : view) (t : tree) (n : node) (p q e : ptr) (m : option (list Byte.byte)) (x : R).

(** ** A file is a sequence of bytes *)

Inductive file_op : Type :=
  | FileWrite (off : Z) (new : list Byte.byte)
  | FileRead (off size : Z).

Definition file_request (ino : Z) (o : file_op) : request :=
  match o with
  | FileWrite off new => ReqWriteBuf ino 0 [memory_buffer new] off
  | FileRead off size => ReqRead ino size off
  end.

(** Writes go into an empty file, or do not extend it. *)
Definition file_step (o : file_op) (l : list Byte.byte) : option (reply * list Byte.byte) :=
  match o with
  | FileWrite off new =>
      let len := Z.of_nat (length new) in
      when (new <> [] /\ 0 <= off /\ off + len < 2 ^ 63 /\ (l = [] \/ off + len <= Z.of_nat (length l))) (Some (ReplyWrite len, write_at off new l))
  | FileRead off size => when (0 < size /\ 0 <= off /\ size + off < 2 ^ 64) (Some (ReplyData (slice off size l), l))
  end.

Fixpoint file_steps (os : list file_op) (l : list Byte.byte) : option (list reply * list Byte.byte) :=
  match os with
  | [] => Some ([], l)
  | o :: os => '(r, l1) ← file_step o l; '(rs, l2) ← file_steps os l1; Some (r :: rs, l2)
  end.

(** The node shows the bytes; without any it has no memory. *)
Definition shows_bytes n (l : list Byte.byte) : Prop := exists m, sized n m /\ visible n = l /\ (l = [] -> m = None).

Lemma file_step_meaning ino o l r l' t p n :
  (forall len y, 0 < len < 2 ^ 63 -> exists y', os_malloc (R := R) len y = Done (true, y')) ->
  present BBud ino t p n -> numbers_unique t -> shows_bytes n l -> file_step o l = Some (r, l') ->
  exists n' x, meaning BBud (file_request ino o) t = Some ((0, r), with_node p n' x t) /\
    present BBud ino (with_node p n' x t) p n' /\ numbers_unique (with_node p n' x t) /\ shows_bytes n' l'.
Proof.
  intros Hmem Hp Hnum (m & Hs & Hv & Hm) Hstep. pose proof Hp as []. assert (0 <= n_base n <= 1) as Hbase by (by eapply wf_base).
  destruct o as [off new|off size]; apply when_Some in Hstep as [Hcond [= <- <-]].
  - destruct Hcond as (Hnew & Ho & Hlen & Hfit). assert (0 < Z.of_nat (length new)) as Hpos by (destruct new; [done|cbn; lia]).
    pose proof (length_visible n m Hs) as Hlv. rewrite Hv in Hlv.
    assert (exists x, writable off (Z.of_nat (length new)) n m t x) as [x Hw].
    { destruct m as [b|].
      - exists (t_rest t). left. exists b. split; [done|]. split; [|done]. destruct Hfit as [->|]; [by specialize (Hm eq_refl)|lia].
      - destruct (Hmem (off + Z.of_nat (length new)) (t_rest t) ltac:(lia)) as [x Hx]. exists x. by right. }
    destruct (written_ok off new n m t x Hs Hnew Ho Hlen Hw) as ([m' Hs'] & Hv' & Hsz).
    exists (written off new n m), x. split; [by apply t_write_buf_here|]. split; [|split].
    + apply (present_with BBud ino t p n); [done|by destruct m|by apply written_place|]. intros q nq Hq Hi. by eapply Hnum.
    + intros q1 q2 n1 n2 Hq1 Hq2 E. assert (forall q nq, nodes (with_node p (written off new n m) x t) !! q = Some nq ->
        exists nq', nodes t !! q = Some nq' /\ n_ino nq' = n_ino nq) as Hold.
      { intros q nq. cbn. intros [[<- <-]|[_ Hq]]%lookup_insert_Some; [exists n; split; [done|by destruct m]|by exists nq]. }
      destruct (Hold _ _ Hq1) as (m1 & Hm1 & E1), (Hold _ _ Hq2) as (m2 & Hm2 & E2).
      exact (Hnum q1 q2 m1 m2 Hm1 Hm2 ltac:(congruence)).
    + exists m'. split; [done|]. split; [congruence|]. intros E. exfalso.
      pose proof (length_visible _ _ Hs') as Hl'. rewrite Hv', Hv, E in Hl'. cbn in Hl'. lia.
  - destruct Hcond as (Hsize & Ho & Hsum). exists n, (t_rest t). rewrite with_node_same by done. split; [|split; [done|split; [done|by exists m]]].
    cbn [meaning file_request]. rewrite <- Hv. by eapply t_read_visible.
Qed.

Lemma file_steps_meaning ino os : forall l rs l' t p n,
  (forall len y, 0 < len < 2 ^ 63 -> exists y', os_malloc (R := R) len y = Done (true, y')) ->
  present BBud ino t p n -> numbers_unique t -> shows_bytes n l -> file_steps os l = Some (rs, l') ->
  exists n' x, meaning_all BBud (file_request ino <$> os) t = Some (pair 0 <$> rs, with_node p n' x t) /\ shows_bytes n' l'.
Proof.
  induction os as [|o os IH]; intros l rs l' t p n Hmem Hp Hnum Hb Hs.
  - injection Hs as <- <-. exists n, (t_rest t). rewrite with_node_same by apply Hp. done.
  - cbn [file_steps] in Hs. apply bind_Some in Hs as ([r l1] & H1 & Hs). apply bind_Some in Hs as ([rs1 l2] & H2 & [= <- <-]).
    destruct (file_step_meaning ino o l r l1 t p n Hmem Hp Hnum Hb H1) as (n1 & x1 & Hm1 & Hp1 & Hnum1 & Hb1).
    destruct (IH l1 rs1 l2 _ p n1 Hmem Hp1 Hnum1 Hb1 H2) as (n2 & x2 & Hm2 & Hb2).
    exists n2, x2. rewrite fmap_cons. cbn [meaning_all]. rewrite (TM_bind_done _ _ _ _ _ Hm1), (TM_bind_done _ _ _ _ _ Hm2).
    rewrite fmap_cons. split; [|done]. unfold mret, TM_ret. do 2 f_equal. exact (put_with_node p n2 n1 x2 t).
Qed.

(** Replies without a generation are compared in full. *)
Lemma same_plain rs : forall answers, Forall2 same_answer answers (pair 0 <$> rs) ->
  Forall (fun r => match r with ReplyEntry _ _ _ | ReplyCreate _ _ _ _ => False | _ => True end) rs -> answers = pair 0 <$> rs.
Proof.
  induction rs as [|r rs IH]; intros answers Hs Hf.
  - by apply Forall2_nil_inv_r in Hs.
  - rewrite fmap_cons in *. apply Forall2_cons_inv_r in Hs as ([st a] & l & [Hst Ha] & Hl & ->). apply Forall_cons in Hf as [Hr Hf].
    cbn in Hst, Ha. subst. f_equal; [|by apply IH]. f_equal. by destruct a.
Qed.

Lemma file_steps_plain os : forall l rs l', file_steps os l = Some (rs, l') ->
  Forall (fun r => match r with ReplyEntry _ _ _ | ReplyCreate _ _ _ _ => False | _ => True end) rs.
Proof.
  induction os as [|o os IH]; intros l rs l' Hs; [by injection Hs as <- <-|]. cbn [file_steps] in Hs.
  apply bind_Some in Hs as ([r l1] & H1 & Hs). apply bind_Some in Hs as ([rs1 l2] & H2 & [= <- <-]). constructor; [|by eapply IH].
  destruct o; by apply when_Some in H1 as [_ [= <- _]].
Qed.

(** C8: A file is a sequence of bytes, as long as its memory does not have to
    grow.  For a file kept in memory, when malloc always succeeds, any sequence
    of read requests and of write_buf requests of one buffer that go into the
    empty file or do not extend it is served as for a sequence of bytes (the
    comments of the code say that writes are discarded): a write replaces the bytes at its offset, and fills a gap before it
    with zeros; a read replies with the bytes of its range that there are, and
    with none after the end. *)
Theorem files_refine_bytes ino os (w : world) v t p n l rs l' :
  StorageDir BBud = None -> (forall len y, 0 < len < 2 ^ 63 -> exists y', os_malloc (R := R) len y = Done (true, y')) ->
  holds w v -> shows v t -> present BBud ino t p n -> numbers_unique t -> shows_bytes n l -> file_steps os l = Some (rs, l') ->
  exists w' v' t' n', serve_all BBud (file_request ino <$> os) w = Done (pair 0 <$> rs, w') /\
    holds w' v' /\ shows v' t' /\ nodes t' !! p = Some n' /\ shows_bytes n' l'.
Proof.
  intros Hst Hmem Hw Hv Hp Hnum Hb Hs. destruct (file_steps_meaning ino os l rs l' t p n Hmem Hp Hnum Hb Hs) as (n' & x & Hm & Hb').
  destruct (serve_all_implements BBud Hst _ t _ _ Hm v Hv) as (answers & v' & Hr & Hq & Hv'). destruct (Hr w Hw) as (w' & Hrun & Hw').
  apply same_plain in Hq as ->; [|by eapply file_steps_plain]. exists w', v', (with_node p n' x t), n'.
  do 3 (split; [done|]). split; [apply with_node_lookup|done].
Qed.
End Code.

(** * Witnesses *)

#[local] Notation root := (in_memory 4096).

(** The empty file "a". *)
Lemma example_present : exists n, present root 19 example_tree 12288 n /\ sized n None.
Proof.
  assert (exists n, reached root 19 example_tree = Some 12288 /\ nodes example_tree !! 12288 = Some n /\
    counts example_tree !! 12288 = Some [1; 0; 1; 0; 0; 0; 0; 0; 0; 0; 0; 0] /\ n_type n = BITBUCKET_FILE_TYPE /\ n_contents n = Bytes None /\ n_size n = 0)
    as (n & Hp & Hn & Hb & Hty & Hc & Hs) by (eexists; evaluates).
  exists n. split.
  - constructor; [exact (shows_wf _ _ example_shows)|done|exact Hp|exact Hn|].
    exists n, [1; 0; 1; 0; 0; 0; 0; 0; 0; 0; 0; 0]. exact (conj Hn (conj Hb eq_refl)).
  - constructor; [exact Hty|exact Hc|rewrite Hs; lia|rewrite Hs; cbn; lia].
Defined.

Lemma example_unique : numbers_unique example_tree.
Proof. apply unique_numbers. vm_compute. reflexivity. Qed.

Lemma unit_malloc len (y : unit) : 0 < len < 2 ^ 63 -> exists y', os_malloc (R := unit) len y = Done (true, y').
Proof. exists (). by destruct y. Qed.

(** "Hey" is written with a gap before it, its first bytes are replaced, and
    the file is read. *)
Definition example_file_ops : list file_op := [FileWrite 2 hello; FileWrite 1 hello; FileRead 0 16; FileRead 3 2; FileRead 5 4].

Lemma files_refine_bytes_witness :
  exists w' rs, serve_all root (file_request 19 <$> example_file_ops) example_world = Done (pair 0 <$> rs, w') /\
    rs = [ReplyWrite 3; ReplyWrite 3; ReplyData [Byte.x00; Byte.x48; Byte.x65; Byte.x79; Byte.x79]; ReplyData [Byte.x79; Byte.x79]; ReplyData []].
Proof.
  destruct example_present as (n & Hp & Hs).
  assert (exists rs l', file_steps example_file_ops [] = Some (rs, l') /\
    rs = [ReplyWrite 3; ReplyWrite 3; ReplyData [Byte.x00; Byte.x48; Byte.x65; Byte.x79; Byte.x79]; ReplyData [Byte.x79; Byte.x79]; ReplyData []])
    as (rs & l' & Hf & E) by (do 2 eexists; split; vm_compute; reflexivity).
  assert (shows_bytes n []) as Hb by (exists None; split; [exact Hs|split; [unfold visible; by rewrite (sz_bytes _ _ Hs)|done]]).
  destruct (files_refine_bytes root 19 example_file_ops example_world example_view example_tree 12288 n [] rs l'
    eq_refl unit_malloc example_holds example_shows Hp example_unique Hb Hf) as (w' & _ & _ & _ & Hr & _).
  exists w', rs. exact (conj Hr E).
Defined.

(** The file system after "Hey" was written into "a". *)
Lemma example_written : exists w v t n, serve_all root [ReqWriteBuf 19 0 [memory_buffer hello] 0] example_world = Done ([(0, ReplyWrite 3)], w) /\
  holds w v /\ shows v t /\ present root 19 t 12288 n /\ sized n (Some hello) /\ n_size n = 3 /\ S_ISREG (n_mode n) = true /\ numbers_unique t.
Proof.
  assert (exists a t n, meaning_all root [ReqWriteBuf 19 0 [memory_buffer hello] 0] example_tree = Some (a, t) /\
    (a = [(0, ReplyWrite 3)] /\ reached root 19 t = Some 12288 /\ nodes t !! 12288 = Some n /\
    counts t !! 12288 = Some [1; 0; 1; 0; 0; 0; 0; 0; 0; 0; 0; 0] /\ n_type n = BITBUCKET_FILE_TYPE /\ n_contents n = Bytes (Some hello) /\
    n_size n = 3 /\ S_ISREG (n_mode n) = true) /\
    bool_decide (NoDup ((fun x : ptr * node => n_ino x.2) <$> map_to_list (nodes t))) = true)
    as (a & t & n & Hm & (-> & Hp & Hn & Hb & Hty & Hc & Hs & Hreg) & Hu) by (do 3 eexists; split; [vm_compute; reflexivity|split; [evaluates|vm_compute; reflexivity]]).
  destruct (serve_all_implements root eq_refl _ _ _ _ Hm example_view example_shows) as (replies & v & Hr & Hq & Hv).
  destruct (Hr example_world example_holds) as (w & Hw & Hh). exists w, v, t, n.
  assert (replies = [(0, ReplyWrite 3)]) as -> by (apply (same_plain [ReplyWrite 3]); [exact Hq|by repeat constructor]).
  split; [exact Hw|]. do 2 (split; [done|]). split; [|split; [|split; [exact Hs|split; [exact Hreg|exact (unique_numbers t Hu)]]]].
  - constructor; [exact (shows_wf _ _ Hv)|done|exact Hp|exact Hn|].
    exists n, [1; 0; 1; 0; 0; 0; 0; 0; 0; 0; 0; 0]. exact (conj Hn (conj Hb eq_refl)).
  - constructor; [exact Hty|exact Hc|rewrite Hs; lia|rewrite Hs; cbn; lia].
Qed.
