(* ===== verification/ContentFaults.v ===== *)
(** Where files stop working.

    A file that has memory cannot change its length to another that is not
    zero: [BitbucketAdjustFileStorage] reallocates the memory, frees what it
    got, and leaves the file pointing to it.  What happens next depends on the
    caller: write_buf.c copies into the freed memory, setattr.c reports the
    old size and leaves the next reader to it.  write.c moves the end of the
    file before it asks for memory, so that it gets none and its bytes are
    lost. *)

From stdpp Require Import gmap list strings.
From S2P Require Import Prelude NameIndex Trie Object Xattr Inode InodeRules BitbucketData Tree Directory DirectoryRules DirectoryOps DirectoryExchange Directories Enumeration Files Updates Symlinks Handlers TreePrograms Namespace Contents ContentRules Requests Effects ContentEffects.

Open Scope word_scope.

Section Faults.
Context {T : Type -> Type} `{NameIndex T} {R : Type} `{!Storage R} (BBud : userdata).
#[local] Notation world := (world T (instance T) (dir_state R) kind).
#[local] Notation MW := (M world).
#[local] Notation view := (view T (instance T) (dir_state R) kind).
#[local] Notation inode := (inode T (instance T) kind).
#[local] Notation tree := (tree R).
Implicit Types (v : view) (t : tree) (i : inode) (n : node) (p q e : ptr) (m : option (list Byte.byte)) (x : R).

(** ** Rules *)

Lemma does_get ino t p n : present BBud ino t p n -> does (get_inode BBud ino) t p (hold p INODE_LOOKUP_REFERENCE t).
Proof.
  intros Hp v Hv. destruct (implements_get BBud ino t _ _ (t_get_here BBud ino t p n Hp) v Hv) as (a & v' & Hr & -> & Hv'). eauto.
Qed.

Lemma breaks_locked {A} (ex : bool) p (k : unit -> MW A) t f :
  is_Some (nodes t !! p) -> (forall v, sees (held_as ex) p v t -> fails (k tt) v f) -> breaks (BitbucketLockInode p ex ≫= k) t f.
Proof.
  intros Hn Hk v Hv. destruct (runs_lock ex p v t Hv Hn) as (v0 & Hr & Hv0). eapply fails_later; [exact Hr|by apply Hk].
Qed.

(** The file points to memory that is gone. *)
Definition dangles (l : rwlock) p n v : Prop :=
  exists i f, inos v !! p = Some i /\ InodeLock (ea i) = l /\ Magic (ea i) = BITBUCKET_INODE_MAGIC /\ InodeType i = BITBUCKET_FILE_TYPE /\
    Instance i = File f /\ Map f = Dangling /\ st_size i = n_size n /\ st_mode i = n_mode n /\ st_ino i = n_ino n.

Lemma adjust_dangles p n b len x v t :
  sees LockedExclusive p v t -> nodes t !! p = Some n -> n_contents n = Bytes (Some b) -> len <> 0 -> len <> u64 (n_size n) ->
  os_malloc len (t_rest t) = Done (true, x) ->
  exists v', runs (BitbucketAdjustFileStorage p len) v 0 v' /\ dangles LockedExclusive p n v' /\ refs v' = refs v.
Proof.
  intros Hv Hn Hb Hlen Hne Hm. pose proof Hv as (i & Hi & Hl & Hvi). destruct (sees_node LockedExclusive p v t i Hi Hvi ltac:(eauto)) as (n' & Hn' & Hs).
  assert (n' = n) as -> by congruence. destruct (shows_file i n (Some b) Hs Hb) as (f & Hf & (Hmagic & Hname & Hmap) & Hty).
  pose proof (lv_magic _ (sn_live _ _ Hs)) as Hmi. pose proof (sn_size _ _ Hs) as Hsz. pose proof (sn_type _ _ Hs) as Hti. pose proof (sn_mode _ _ Hs) as Hmode. pose proof (sn_ino _ _ Hs) as Hino.
  set (i1 := with_epoch (u64 (Epoch i + 1)) i). set (v1 := set_inos <[p := i1]> v).
  assert (inos v1 !! p = Some i1) as Hi1 by apply lookup_insert_eq.
  set (v2 := set_ext (with_rest x (ext v1)) v1). set (i2 := with_data (File (with_map Dangling f)) i1).
  exists (set_inos <[p := i2]> v2). split; [|split; [|done]].
  - step_with ltac:(apply runs_assert, negb_true_iff, Z.eqb_neq, (wf_null _ _ _ _ (shows_wf _ _ Hvi)); eauto).
    step_with ltac:(eapply runs_check_type; [exact Hi|congruence]).
    step_with ltac:(eapply runs_check_instance; [exact Hi|by rewrite Hf]).
    step_with ltac:(step_with ltac:(apply runs_trylock_held; [exact Hi|done|by rewrite Hl]); by apply runs_assert).
    step_with ltac:(by apply runs_load). step_with ltac:(eapply runs_load_file; [by apply runs_load|exact Hf]).
    change (st_size i1) with (st_size i). rewrite Hsz, (proj2 (Z.eqb_neq _ _) Hne), Hmap. cbn [as_mapping].
    rewrite (proj2 (Z.eqb_neq _ _) Hlen). unfold resize_mapping. rewrite Hmap, Hname. cbn [as_mapping mapped].
    eapply (runs_bind _ _ v1 b v1); [apply runs_ret|].
    step_with ltac:(apply (runs_rest _ v1 true x); change (ext v1) with (ext v); rewrite <- Hm; f_equal; by apply (sh_rest _ _ Hvi)).
    step_with ltac:(step_with ltac:(eapply (runs_load_file p v2 i1 f); [by apply runs_load|exact Hf]);
      apply (runs_update p i1); [done|by constructor]). apply runs_ret.
  - exists i2, (with_map Dangling f). split; [apply lookup_insert_eq|]. do 2 (split; [done|]). split; [exact (eq_trans Hti Hty)|done].
Qed.

(** ** Writing past the end *)


(** ** Setting the size *)

Lemma sees_refs l p v t : sees l p v t -> refs v = counts t.
Proof. intros (i & _ & _ & Hv). exact (sh_refs _ _ Hv). Qed.

Lemma dangles_unlock p n v : dangles LockedExclusive p n v -> exists v', runs (BitbucketUnlockInode p) v tt v' /\ dangles Unlocked p n v' /\ refs v' = refs v.
Proof.
  intros (i & f & Hi & Hl & Hm & Hrest). exists (set_inos <[p := with_lock Unlocked i]> v). split; [apply runs_unlock; auto|]. split; [|done].
  exists (with_lock Unlocked i), f. split; [apply lookup_insert_eq|]. done.
Qed.

Lemma dangles_refs l p n f v : dangles l p n v -> dangles l p n (set_refs f v).
Proof. done. Qed.

Lemma runs_set_size p n b size x v t :
  shows v t -> nodes t !! p = Some n -> sized n (Some b) -> 0 < size < 2 ^ 63 -> size <> n_size n -> os_malloc size (t_rest t) = Done (true, x) ->
  exists v', runs (set_size p size) v tt v' /\ dangles Unlocked p n v' /\ refs v' = counts t.
Proof.
  intros Hv Hn Hs Hsz Hne Hm. pose proof Hs as [Hty Hb Hr Hl]. destruct (sh_node _ _ Hv p n Hn) as (i & Hi & _ & Hsi).
  destruct (runs_lock true p v t Hv ltac:(eauto)) as (v1 & Hr1 & Hv1).
  destruct (adjust_dangles p n b size x v1 t Hv1 Hn Hb ltac:(lia) ltac:(rewrite u64_small; lia) Hm) as (v2 & Hr2 & Hd2 & E2).
  destruct (dangles_unlock p n v2 Hd2) as (v3 & Hr3 & Hd3 & E3). exists v3. split; [|split; [done|]].
  - step_with ltac:(by apply runs_load). rewrite (sn_size _ _ Hsi), u64_small by lia. destruct (Z.eqb_spec (n_size n) size); [congruence|].
    step_with ltac:(exact Hr1). step_with ltac:(exact Hr2). step_with ltac:(by apply runs_assert). exact Hr3.
  - rewrite E3, E2. by eapply sees_refs.
Qed.

Lemma dangles_type l p n v i : dangles l p n v -> inos v !! p = Some i -> InodeType i = BITBUCKET_FILE_TYPE /\ st_size i = n_size n /\ st_mode i = n_mode n.
Proof. intros (j & f & Hj & _ & _ & Hty & _ & _ & Hsz & Hm & _) Hi. by simplify_eq. Qed.

Lemma runs_setattr_size ino p n b size x v t :
  shows v t -> present BBud ino t p n -> sized n (Some b) -> S_ISREG (n_mode n) = true ->
  0 < size < 2 ^ 63 -> size <> n_size n -> os_malloc size (t_rest t) = Done (true, x) ->
  exists v' st bag, runs (bitbucket_internal_setattr BBud ino 0 size FUSE_SET_ATTR_SIZE) v (0, ReplyAttr st) v' /\ sa_size st = n_size n /\
    dangles Unlocked p n v' /\ refs v' !! p = Some bag /\ sum bag + 1 < 2 ^ 32.
Proof.
  intros Hv Hp Hs Hreg Hsz Hne Hm. pose proof (present_null _ _ _ _ _ Hp) as Hnull. pose proof Hp as [Hw _ _ Hn (n0 & bag & Hn0 & Hbag & Hsum)].
  destruct (does_get ino t p n Hp v Hv) as (v1 & Hr1 & Hv1). set (t1 := hold p INODE_LOOKUP_REFERENCE t) in *.
  destruct (runs_set_size p n b size x v1 t1 Hv1 Hn Hs Hsz Hne Hm) as (v2 & Hr2 & Hd2 & E2).
  assert (refs v2 !! p = Some (bag_add INODE_LOOKUP_REFERENCE 1 bag)) as Hb2 by (rewrite E2; cbn; by rewrite lookup_alter_eq, Hbag).
  destruct (wf_bag _ _ _ _ Hw p bag Hbag) as (Hlen & Hpos & Hge). destruct (bag_lookup _ _ _ t p bag INODE_LOOKUP_REFERENCE Hw Hbag) as (c & Hc & Hc0); [done|].
  pose proof Hd2 as (i & f & Hi & Hl & Hmagic & Hty & _ & _ & Hsi & Hmode & _).
  exists (set_refs <[p := bag_add INODE_LOOKUP_REFERENCE (-1) (bag_add INODE_LOOKUP_REFERENCE 1 bag)]> v2),
    {| sa_ino := st_ino i; sa_mode := st_mode i; sa_nlink := st_nlink i; sa_size := st_size i |}, bag.
  split; [|split; [done|split; [by apply dangles_refs|split; [|done]]]].
  - step_with ltac:(exact Hr1). rewrite (proj2 (Z.eqb_neq _ _) Hnull). eapply (runs_bind _ _ v1 0 v2).
    + eapply runs_bind; [apply runs_ret|]. change (has FUSE_SET_ATTR_SIZE FUSE_SET_ATTR_SIZE) with true. cbv iota.
      step_with ltac:(exact Hr2). step_with ltac:(by apply runs_load). rewrite Hty. cbn [Z.eqb BITBUCKET_FILE_TYPE BITBUCKET_DIR_TYPE Pos.eqb].
      step_with ltac:(apply runs_ret). step_with ltac:(apply runs_assert; by rewrite Hmode). apply runs_ret.
    + step_with ltac:(step_with ltac:(step_with ltac:(by apply runs_load); apply runs_ret); apply runs_ret).
      unfold put_inode. rewrite (proj2 (Z.eqb_neq _ _) Hnull). eapply runs_bind; [|apply runs_ret].
      apply runs_dereference; [done|done| |].
      * rewrite (bag_this _ _ _ c) by done. cbn. lia.
      * rewrite sum_bag_plus by done. lia.
  - cbn. rewrite lookup_insert_eq, bag_add_add. by rewrite bag_add_zero.
Qed.

Lemma dangling_read_fails ino len p n bag v :
  p <> NULL -> dangles Unlocked p n v -> FUSE_ROOT_ID <> ino -> ino <> 0 -> n_ino n = ino -> refs v !! p = Some bag -> sum bag + 1 < 2 ^ 32 ->
  0 < n_size n < 2 ^ 63 -> 0 < len < 2 ^ 63 -> fails (bitbucket_internal_read BBud ino len 0) v Undefined.
Proof.
  intros Hp (i & f & Hi & Hl & Hm & Hty & Hf & Hd & Hsz & _ & Hino) Hroot Hz Hnino Hbag Hsum Hs Hlen.
  unfold bitbucket_internal_read. destruct (Z.eqb_spec len 0); [lia|]. unfold get_inode. rewrite (proj2 (Z.eqb_neq _ _) Hroot).
  eapply fails_later; [step_with ltac:(eapply runs_lookup_found; [exact Hbag|exact Hi|congruence|exact Hsum]); apply runs_ret|].
  cbn [default from_option id]. eapply fails_later; [by eapply runs_lock_shared|].
  set (i1 := with_lock (LockedShared 0) i). eapply fails_here, fails_later; [apply runs_load, lookup_insert_eq|].
  change (InodeType i1) with (InodeType i). change (st_size i1) with (st_size i). rewrite Hty, Z.eqb_refl, Hsz. cbn [negb].
  destruct (Z.ltb_spec (n_size n) 0); [lia|]. cbv zeta. rewrite Z.sub_0_r, Z.add_0_r, !u64_small by lia.
  rewrite (proj2 (Z.ltb_lt 0 _)) by (case_match; lia).
  apply fails_here. eapply fails_later; [eapply runs_load_file; [apply runs_load, lookup_insert_eq|exact Hf]|]. rewrite Hd. by apply fails_here.
Qed.


(** ** Writing past the end with write.c *)

Lemma t_write_extends ino p n m off new t :
  present BBud ino t p n -> sized n m -> new <> [] -> 0 <= off -> n_size n < off + Z.of_nat (length new) < 2 ^ 63 ->
  t_write BBud ino new off t = Some ((0, ReplyWrite (Z.of_nat (length new))), with_node p (node_size (off + Z.of_nat (length new)) n) (t_rest t) t).
Proof.
  intros Hp Hs Hnew Ho Hlen. pose proof (present_null _ _ _ _ _ Hp) as Hnull. pose proof Hp as []. pose proof Hs as [Hty Hb Hr Hl].
  assert (0 < Z.of_nat (length new)) as Hpos by (destruct new; [done|cbn; lia]).
  set (len := off + Z.of_nat (length new)) in *. set (n' := node_size len n). set (t1 := hold p INODE_LOOKUP_REFERENCE t). set (t' := with_node p n' (t_rest t) t).
  set (t2 := hold p INODE_LOOKUP_REFERENCE t').
  assert (nodes t2 !! p = Some n') as Hn2 by apply with_node_lookup.
  unfold t_write. cbv zeta. destruct (Z.eqb_spec (Z.of_nat (length new)) 0); [lia|].
  rewrite (TM_bind_done _ _ _ p t1) by (by eapply t_get_here). rewrite (proj2 (Z.eqb_neq _ _) Hnull).
  rewrite (TM_bind_done _ _ _ 0 t'); [done|].
  rewrite (TM_bind_done _ _ _ n t1) by (by apply t_node_here). rewrite Hty, Z.eqb_refl. cbn [negb].
  rewrite (TM_bind_done _ _ _ tt t1) by (by eapply t_lock_here). rewrite (TM_bind_done _ _ _ true t2).
  - rewrite (TM_bind_done _ _ _ tt t2) by done. rewrite (TM_bind_done _ _ _ tt t2).
    + rewrite (TM_bind_done _ _ _ tt t'); [done|]. change t2 with (with_node p n' (t_rest t) t1). apply (t_drop_end p n); [done|done|constructor; (done || by eapply (wf_base _ _ _ _ pr_sound p n))|by eapply room_less].
    + rewrite (TM_bind_done _ _ _ tt t2) by (by eapply t_lock_here). rewrite (TM_bind_done _ _ _ 0 t2); [done|].
      unfold t_adjust. rewrite (TM_bind_done _ _ _ n' t2) by (by apply t_node_here).
      rewrite (TM_bind_done _ _ _ m t2) by (by eapply t_file_here). fold len. change (n_size n') with len. rewrite !u64_small by lia.
      by rewrite Z.eqb_refl.
  - unfold t_write_locked. rewrite (TM_bind_done _ _ _ n t1) by (by apply t_node_here). cbv zeta. fold len. rewrite !u64_small by lia.
    rewrite (proj2 (Z.ltb_lt _ _) (proj1 Hlen)). rewrite (TM_bind_done _ _ _ tt t2); [done|].
    unfold t_set_size. change (nodes t1) with (nodes t). rewrite pr_node. cbn [mbind option_bind]. unfold s64.
    rewrite (proj2 (Z.ltb_lt _ _) (proj2 Hlen)). unfold t2, t', with_node. fold n'. reflexivity.
Qed.

(** A file with a size and no memory cannot be read. *)
Lemma bare_read_breaks ino len t p n :
  present BBud ino t p n -> n_type n = BITBUCKET_FILE_TYPE -> n_contents n = Bytes None -> 0 < n_size n < 2 ^ 63 -> 0 < len < 2 ^ 63 ->
  breaks (bitbucket_internal_read BBud ino len 0) t BadPointer.
Proof.
  intros Hp Hty Hb Hs Hlen. unfold bitbucket_internal_read. destruct (Z.eqb_spec len 0); [lia|]. eapply breaks_later; [by eapply does_get|].
  set (t1 := hold p INODE_LOOKUP_REFERENCE t). assert (nodes t1 !! p = Some n) as Hn1 by apply Hp.
  apply (breaks_locked false p); [eauto|]. intros v Hv. apply fails_here.
  destruct (sees_load _ _ _ _ Hv ltac:(eauto)) as (i & n' & Hn' & Hi & Hload). assert (n' = n) as -> by congruence.
  eapply fails_later; [exact Hload|]. rewrite (sn_type _ _ Hi), (sn_size _ _ Hi), Hty, Z.eqb_refl. cbn [negb].
  destruct (Z.ltb_spec (n_size n) 0); [lia|]. cbv zeta. rewrite Z.sub_0_r, Z.add_0_r, !u64_small by lia.
  rewrite (proj2 (Z.ltb_lt 0 _)) by (case_match; lia).
  destruct (shows_file i n None Hi Hb) as (f & Hf & (_ & _ & Hmap) & _). apply fails_here.
  eapply fails_later; [eapply runs_load_file; [exact Hload|exact Hf]|]. rewrite Hmap. by apply fails_here.
Qed.

(** Bytes written past the end are lost.  A write request of write.c that
    goes past the end of a file is answered as a success; it moves the end of
    the file and stores none of its bytes.  Where the file has no memory, the
    next read request follows the null pointer. *)
Theorem write_extension_lost ino off new (w : world) v t p n m :
  StorageDir BBud = None -> holds w v -> shows v t -> present BBud ino t p n -> numbers_unique t -> sized n m -> new <> [] -> 0 <= off ->
  n_size n < off + Z.of_nat (length new) < 2 ^ 63 ->
  exists w' v', bitbucket_internal_write BBud ino new off w = Done ((0, ReplyWrite (Z.of_nat (length new))), w') /\
    holds w' v' /\ shows v' (with_node p (node_size (off + Z.of_nat (length new)) n) (t_rest t) t) /\
    (m = None -> forall len, 0 < len < 2 ^ 63 -> bitbucket_internal_read BBud ino len 0 w' = Fail BadPointer).
Proof.
  intros Hst Hw Hv Hp Hnum Hs Hnew Ho Hlen. pose proof Hs as [Hty Hb Hr Hl].
  destruct (write_implements BBud ino new off t _ _ (t_write_extends ino p n m off new t Hp Hs Hnew Ho Hlen) v Hv) as (a & v' & Hrun & [Ha Hrep] & Hv').
  destruct (Hrun w Hw) as (w' & Hw' & Hh). exists w', v'. destruct a as [st rep]. cbn in Ha, Hrep. subst st.
  assert (rep = ReplyWrite (Z.of_nat (length new))) as -> by (by destruct rep).
  split; [exact Hw'|]. split; [done|]. split; [done|]. intros -> len Hl0. revert w' Hh Hw'. intros w' Hh _. revert w' Hh.
  revert v' Hrun Hv'. intros v' _ Hv'. cbn in Hl.
  assert (present BBud ino (with_node p (node_size (off + Z.of_nat (length new)) n) (t_rest t) t) p (node_size (off + Z.of_nat (length new)) n)) as Hp'.
  { apply (present_with BBud ino t p n); [done|done|constructor; (done || by eapply (wf_base _ _ _ _ (pr_sound _ _ _ _ _ Hp) p n), Hp)|]. intros q nq Hq E. by eapply Hnum; [exact Hq|apply Hp|]. }
  refine (bare_read_breaks ino len _ p _ Hp' Hty Hb _ Hl0 v' Hv'). cbn. lia.
Qed.
End Faults.

(** * Witnesses *)

#[local] Notation root := (in_memory 4096).



(** "Hey" is written into the empty file "a" by write.c. *)
Lemma write_extension_lost_witness :
  exists w', bitbucket_internal_write root 19 hello 0 example_world = Done ((0, ReplyWrite 3), w') /\
    bitbucket_internal_read root 19 16 0 w' = Fail BadPointer.
Proof.
  destruct example_present as (n & Hp & Hs). pose proof (sz_range _ _ Hs) as Hr. pose proof (sz_room _ _ Hs) as Hl. cbn in Hl.
  destruct (write_extension_lost root 19 0 hello example_world example_view example_tree 12288 n None eq_refl example_holds example_shows
    Hp example_unique Hs ltac:(done) ltac:(lia) ltac:(cbn; lia)) as (w' & v' & Hw & _ & _ & Hread).
  exists w'. exact (conj Hw (Hread eq_refl 16 ltac:(lia))).
Defined.
