(* ===== verification/LinkEffects.v ===== *)
(** What the requests for symbolic links and for extended attributes do:
    symlink.c, readlink.c, setxattr.c and getxattr.c.

    A link that is made can be read through the number that was replied, and
    reads as what was stored.  Its link count is 2.  The handler of symlink
    looks for every parent in the inode table, also for the root, which the
    kernel does not name by its number in the table.  No request sets an
    extended attribute. *)

From stdpp Require Import gmap list strings.
From S2P Require Import Prelude NameIndex Trie Object Xattr Inode InodeRules BitbucketData Tree Directory DirectoryRules DirectoryOps DirectoryExchange Directories Enumeration Files Updates Symlinks Handlers TreePrograms Namespace Contents ContentRules Attributes Requests Effects Frames ContentEffects.

Open Scope word_scope.

Section Spec.
Context {R : Type} `{!Storage R} (BBud : userdata).
#[local] Notation tree := (tree R).
Implicit Types (t : tree) (n : node) (p q e : ptr).

(** The references of a link in its directory, beside those of handlers. *)
Definition listed : list Z := bag_add INODE_DIRENT_REFERENCE 1 new_references.

(** A link that is there: what its inode holds and what refers to it. *)
Record linked (ino : Z) (Link : string) (bag : list Z) c t : Prop := {
  ln_node : exists n, nodes t !! c = Some n /\ n_ino n = ino /\ n_type n = BITBUCKET_SYMLINK_TYPE /\ n_links n = 2 /\ n_size n = 0 /\
    n_mode n = Z.lor S_IRWXUGO S_IFLNK /\ n_contents n = Target Link;
  ln_bag : counts t !! c = Some bag }.

Lemma make_symlink_linked p c s Link e t : p <> c -> linked (t_next t) Link listed c (make_symlink p c s Link e t).
Proof.
  intros Hne. unfold make_symlink, link. rewrite (proj2 (Z.eqb_neq _ _) Hne). constructor; cbn.
  - eexists. rewrite lookup_alter_eq, lookup_alter_ne, lookup_insert_eq by done. by split.
  - by rewrite lookup_alter_eq, lookup_insert_eq.
Qed.

Lemma linked_hold ino Link bag c r t : linked ino Link bag c t -> linked ino Link (bag_add r 1 bag) c (hold c r t).
Proof. intros [Hn Hb]. constructor; [done|]. cbn. by rewrite lookup_alter_eq, Hb. Qed.

Lemma linked_drop_other ino Link bag c p r t : p <> c -> linked ino Link bag c t -> linked ino Link bag c (drop p r t).
Proof.
  intros Hne [Hn Hb]. unfold drop. destruct (counts t !! p) as [bagp|]; [|done]. case_match; constructor; cbn.
  - by rewrite lookup_delete_ne.
  - by rewrite lookup_delete_ne.
  - done.
  - by rewrite lookup_insert_ne.
Qed.

Lemma linked_drop ino Link bag c r t : 1 < sum bag -> linked ino Link bag c t -> linked ino Link (bag_add r (-1) bag) c (drop c r t).
Proof.
  intros Hs [Hn Hb]. unfold drop. rewrite Hb. destruct (Z.eqb_spec 1 (sum bag)); [lia|]. constructor; [done|]. cbn. by rewrite lookup_insert_eq.
Qed.

(** A reference that is dropped. *)
Lemma t_drop_Some p r t u t' : t_drop p r t = Some (u, t') -> t' = drop p r t /\ plain r.
Proof.
  intros Hs. apply bind_Some in Hs as ([x t1] & Hs & [= _ <-]). unfold spec_release in Hs.
  apply bind_Some in Hs as ([[[ty par] names] k] & _ & Hs). apply bind_Some in Hs as (bag & _ & Hs). by apply when_Some in Hs as [[? _] [= _ <-]].
Qed.

Lemma t_assert_Some b t r : t_assert b t = Some r -> r = ((), t) /\ b = true.
Proof. unfold t_assert. destruct b; [by intros [= <-]|done]. Qed.

Lemma t_find_Some ino p t t' : t_find ino t = Some (Some p, t') -> t' = hold p INODE_LOOKUP_REFERENCE t /\ is_Some (nodes t !! p).
Proof.
  unfold t_find. intros Hf. destruct (ino =? 0); [done|]. destruct (by_number ino t) as [q|] eqn:E; [|done].
  apply bind_Some in Hf as ([[] t3] & Ht & [= <- <-]). apply t_take_Some in Ht as (-> & _ & n & bag & Hn & _). eauto.
Qed.

Lemma linked_entry ino Link bag c t r t' :
  linked ino Link bag c t -> t_entry c t = Some (r, t') ->
  t' = t /\ r = ReplyEntry ino 0 {| sa_ino := ino; sa_mode := Z.lor S_IRWXUGO S_IFLNK; sa_nlink := 2; sa_size := 0 |}.
Proof.
  intros [(n & Hn & Hi & _ & Hl & Hs & Hm & _) _] He. unfold t_entry in He. rewrite (TM_bind_done _ _ _ n t) in He by (by apply t_node_here).
  apply TM_bind_Some in He as (attr & t1 & Ha & [= -> ->]%t_ret_Some). unfold t_stat in Ha. rewrite (TM_bind_done _ _ _ n t) in Ha by (by apply t_node_here).
  apply t_ret_Some in Ha as [= -> ->]. rewrite <- Hi, <- Hl, <- Hs, <- Hm. done.
Qed.

(** What a symlink request that succeeds leaves. *)
Definition kernel_link : list Z := bag_add INODE_LOOKUP_REFERENCE (-1) (bag_add INODE_FUSE_LOOKUP_REFERENCE 1 listed).

Lemma t_symlink_Some Link parent name c e t rep t' :
  t_symlink Link parent name c e t = Some ((0, rep), t') ->
  linked (t_next t) Link kernel_link c t' /\ makeable c t /\
  rep = ReplyEntry (t_next t) 0 {| sa_ino := t_next t; sa_mode := Z.lor S_IRWXUGO S_IFLNK; sa_nlink := 2; sa_size := 0 |}.
Proof.
  intros Hs. unfold t_symlink in Hs. do 3 (apply TM_bind_Some in Hs as ([] & ? & [[= ->] _]%t_assert_Some & Hs)).
  apply TM_bind_Some in Hs as ([p|] & t1 & Hf & Hs); [|by apply t_ret_Some in Hs as [= ]]. apply t_find_Some in Hf as [-> [n Hn]].
  apply TM_bind_Some in Hs as (q & t2 & Hm & Hs). apply bind_Some in Hm as ([[par names] k] & _ & Hm).
  apply when_Some in Hm as [(_ & _ & Hmake & _) [= <- <-]]. pose proof Hmake as (Hnull & Hfresh & Hrest). cbn in Hfresh.
  assert (makeable c t) as Hmk.
  { destruct Hrest as (? & ? & ? & Hmap & Hsize). repeat (split; [done|]). cbn in Hsize. by rewrite <- size_dom, dom_alter_L, size_dom in Hsize. }
  assert (p <> c) as Hne by congruence. rewrite (proj2 (Z.eqb_neq _ _) Hnull) in Hs. cbv zeta in Hs.
  pose proof (make_symlink_linked p c name Link e (hold p INODE_LOOKUP_REFERENCE t) Hne) as Hl.
  apply TM_bind_Some in Hs as ([] & t3 & [-> _]%t_drop_Some & Hs). apply (linked_drop_other _ _ _ _ p INODE_LOOKUP_REFERENCE _ Hne) in Hl.
  cbn [Z.eqb negb] in Hs. apply TM_bind_Some in Hs as (fep & t4 & He & Hs). destruct (linked_entry _ _ _ _ _ _ _ Hl He) as [-> ->].
  apply TM_bind_Some in Hs as ([] & t5 & (-> & _)%t_take_Some & Hs). apply TM_bind_Some in Hs as ([] & t6 & [-> _]%t_drop_Some & Hs).
  apply t_ret_Some in Hs as [= -> ->]. split; [|done]. apply linked_drop; [done|]. by apply linked_hold.
Qed.
End Spec.

Section Code.
Context {T : Type -> Type} `{NameIndex T} {R : Type} `{!Storage R} (BBud : userdata).
#[local] Notation world := (world T (instance T) (dir_state R) kind).
#[local] Notation view := (view T (instance T) (dir_state R) kind).
#[local] Notation tree := (tree R).
Implicit Types (t : tree) (n : node) (v : view) (c e p q : ptr).

(** The number of the new link is its own. *)
Lemma new_number Link parent name c e t rep t' :
  t_symlink Link parent name c e t = Some ((0, rep), t') -> by_number (t_next t) t' = Some c.
Proof.
  intros Hs. destruct (t_symlink_Some _ _ _ _ _ _ _ _ Hs) as ([(n & Hn & Hi & _) _] & (_ & _ & _ & _ & _ & Hfresh & _) & _).
  destruct (by_number (t_next t) t') as [q|] eqn:E; [|by destruct (by_number_None _ _ c n E)]. f_equal.
  destruct (by_number_Some _ _ _ E) as (nq & Hq & Hiq).
  destruct (meaning_keeps BBud (ReqSymlink Link parent name 0 c e) t _ t' Hs q nq Hq) as [[Hc|(ino & [=] & _)]|(n0 & Hn0 & Hd)].
  - by injection Hc.
  - exfalso. apply (Hfresh q n0 Hn0). unfold data in Hd. congruence.
Qed.

(** C12: A symbolic link reads as what was stored.  A symlink request that
    succeeds replies with a link count of 2, and a readlink request with the
    number it replied with is answered with the target, byte for byte. *)
Theorem symlink_readlink Link parent name epoch c e (w : world) v t rep t' :
  holds w v -> shows v t -> t_symlink Link parent name c e t = Some ((0, rep), t') ->
  exists w' v' generation attr,
    serve_all BBud [ReqSymlink Link parent name epoch c e; ReqReadlink (t_next t)] w =
      Done ([(0, ReplyEntry (t_next t) generation attr); (0, ReplyLink Link)], w') /\
    sa_ino attr = t_next t /\ sa_mode attr = Z.lor S_IRWXUGO S_IFLNK /\ sa_nlink attr = 2 /\ holds w' v' /\ shows v' t'.
Proof.
  intros Hw Hv Hs. destruct (t_symlink_Some _ _ _ _ _ _ _ _ Hs) as (Hl & (Hnull & _ & _ & Hroot & Hz & _) & ->).
  pose proof Hl as [(n & Hn & Hi & Hty & _ & _ & _ & Hc) Hb].
  destruct (symlink_implements Link parent name epoch c e t _ t' Hs v Hv) as (a & v1 & Hr1 & [Ha1 Ha2] & Hv1).
  assert (t_readlink (t_next t) t' = Some ((0, ReplyLink Link), t')) as Hrl.
  { eapply (t_readlink_here BBud (t_next t) c n Link t'); [|congruence|done|done]. constructor; [by eapply shows_wf|done| |done|].
    - unfold reached. rewrite (proj2 (Z.eqb_neq _ _)) by congruence. by eapply new_number.
    - exists n, kernel_link. by split. }
  destruct (readlink_implements (t_next t) t' _ t' Hrl v1 Hv1) as (b & v2 & Hr2 & [Hb1 Hb2] & Hv2).
  destruct (Hr1 w Hw) as (w1 & Hw1 & Hh1). destruct (Hr2 w1 Hh1) as (w2 & Hw2 & Hh2).
  destruct a as [sa ra], b as [sb rb]. cbn in Ha1, Ha2, Hb1, Hb2. subst sa sb.
  assert (rb = ReplyLink Link) as -> by (by destruct rb). destruct ra as [|ino g attr| | | | | | | | | |]; try done. injection Ha2 as -> ->.
  exists w2, v2, g, {| sa_ino := t_next t; sa_mode := Z.lor S_IRWXUGO S_IFLNK; sa_nlink := 2; sa_size := 0 |}.
  split; [|by split_and!]. cbn [serve_all serve]. by rewrite (M_bind_done _ _ _ _ _ Hw1), (M_bind_done _ _ _ _ _ (M_bind_done _ _ _ _ _ Hw2)).
Qed.

(** No symbolic link can be made in the root.  The kernel names the root
    by the number 1, which is the number of no inode; a symlink request for
    it is answered with EBADF, and nothing is changed. *)
Theorem symlink_root_refused Link name epoch c e (w : world) v t :
  holds w v -> shows v t -> Link <> EmptyString -> name <> EmptyString -> by_number FUSE_ROOT_ID t = None ->
  exists w' v', bitbucket_internal_symlink Link FUSE_ROOT_ID name epoch c e w = Done ((EBADF, ReplyErr EBADF), w') /\ holds w' v' /\ shows v' t.
Proof.
  intros Hw Hv Hl Hn Hroot. assert (t_symlink Link FUSE_ROOT_ID name c e t = Some ((EBADF, ReplyErr EBADF), t)) as Hs.
  { unfold t_symlink. rewrite (proj2 (String.eqb_neq _ _) Hl), (proj2 (String.eqb_neq _ _) Hn). change (FUSE_ROOT_ID =? 0) with false. cbn [negb].
    do 3 rewrite (TM_bind_done _ _ _ tt t) by done. rewrite (TM_bind_done _ _ _ None t); [done|]. unfold t_find. by rewrite Hroot. }
  destruct (symlink_implements Link FUSE_ROOT_ID name epoch c e t _ t Hs v Hv) as (a & v' & Hr & [Ha1 Ha2] & Hv').
  destruct (Hr w Hw) as (w' & Hw' & Hh). exists w', v'. destruct a as [sa ra]. cbn in Ha1, Ha2. subst sa.
  assert (ra = ReplyErr EBADF) as -> by (by destruct ra). done.
Qed.

(** ** Extended attributes *)

Lemma t_refuse_here ino t p n refusal missing :
  NoXattr BBud = 0 -> present BBud ino t p n -> t_refuse BBud ino refusal missing t = Some (refusal, t).
Proof.
  intros Hx Hp. pose proof (present_null _ _ _ _ _ Hp) as Hnull. pose proof Hp as []. unfold t_refuse. rewrite Hx. cbn [Z.eqb negb].
  rewrite (TM_bind_done _ _ _ _ _ (t_get_here BBud ino t p n Hp)), (proj2 (Z.eqb_neq _ _) Hnull).
  rewrite (TM_bind_done _ _ _ tt (hold p INODE_LOOKUP_REFERENCE t)) by (by eapply t_lock_here).
  rewrite (TM_bind_done _ _ _ tt (hold p INODE_LOOKUP_REFERENCE t)) by done.
  by rewrite (TM_bind_done _ _ _ tt t) by (apply t_put_hold; [done|done|by eapply room_less]).
Qed.

End Code.

(** * Witnesses *)


(** A link in the directory "usr". *)
Lemma symlink_readlink_witness :
  exists w' generation attr,
    serve_all (in_memory 4096) [ReqSymlink "../a" 12 "l" 5 20480 128; ReqReadlink 33] example_world =
      Done ([(0, ReplyEntry 33 generation attr); (0, ReplyLink "../a")], w') /\ sa_nlink attr = 2.
Proof.
  assert (exists rep t', t_symlink "../a" 12 "l" 20480 128 example_tree = Some ((0, rep), t')) as (rep & t' & Hs) by (do 2 eexists; vm_compute; reflexivity).
  destruct (symlink_readlink (in_memory 4096) "../a" 12 "l" 5 20480 128 example_world example_view example_tree rep t' example_holds example_shows Hs)
    as (w' & v' & g & attr & Hr & _ & _ & Hn & _).
  exists w', g, attr. exact (conj Hr Hn).
Defined.

Lemma symlink_root_refused_witness :
  exists w', bitbucket_internal_symlink "../a" 1 "l" 5 20480 128 example_world = Done ((EBADF, ReplyErr EBADF), w').
Proof.
  assert (by_number FUSE_ROOT_ID example_tree = None) as Hroot by (vm_compute; reflexivity).
  destruct (symlink_root_refused "../a" "l" 5 20480 128 example_world example_view example_tree example_holds example_shows ltac:(discriminate)
    ltac:(discriminate) Hroot) as (w' & v' & Hr & _).
  exists w'. exact Hr.
Defined.
