(* ===== verification/BitbucketServer.v ===== *)
(** The server over Bitbucket: the handlers of Bitbucket (Handlers.v) as the
    [FileSystem] of the server, and what whole calls do to its tree.

    A reply of a handler is captured as finesse_send_reply_iov of
    src/lib/finesse.c captures it: an error is stored as a negative number,
    and an entry or attributes follow an error of 0.

    Results: a stat through the whole stack answers with the attributes of
    the inode that the path leads to, and leaves one reference of the kernel on
    every inode of the path ([stat_leaves_references]), since the server
    looks names up as the kernel does, and forgets none; an unlink fails, and
    the file stays ([unlink_keeps_file]). *)

From stdpp Require Import gmap list strings.
From S2P Require Import Prelude FastLookup LookupTable LookupLife LookupSpec Message Region Calls PathName Server ServerRules ServerCalls.
From S2P Require Import NameIndex Trie Object Xattr Inode InodeRules BitbucketData Tree Directory DirectoryRules DirectoryOps DirectoryExchange Directories Enumeration Files Handlers TreePrograms Namespace Requests Effects ContentEffects LinkEffects.

#[local] Open Scope Z_scope.
#[local] Open Scope word_scope.

(** * Captured replies *)

Definition attr_of (a : Handlers.stat) : fuse_attr := {| a_ino := sa_ino a; a_mode := sa_mode a; a_nlink := sa_nlink a; a_size := sa_size a |}.

Definition capture_entry (r : reply) : captured entry_out :=
  match r with
  | ReplyEntry ino _ a => Build_captured 0 (Some {| nodeid := ino; e_attr := attr_of a |})
  | ReplyErr e => Build_captured (- e) None
  | _ => Build_captured 0 None
  end.

Definition capture_attr (timeout : Z) (r : reply) : captured attr_out :=
  match r with
  | ReplyAttr a => Build_captured 0 (Some {| attr_valid := timeout; at_attr := attr_of a |})
  | ReplyErr e => Build_captured (- e) None
  | _ => Build_captured 0 None
  end.

Definition capture_status (r : reply) : captured unit :=
  match r with ReplyErr e => Build_captured (- e) None | _ => Build_captured 0 None end.

Section Files.
Context {T : Type -> Type} `{NameIndex T} {R : Type} `{!Storage R} (BBud : userdata) (AttrTimeout : Z).
#[local] Notation world := (Inode.world T (instance T) (dir_state R) kind).
#[local] Notation MW := (M world).
#[local] Notation view := (view T (instance T) (dir_state R) kind).
#[local] Notation tree := (tree R).
#[local] Notation TM := (TM R).
#[local] Notation implements := (implements (T := T) (R := R)).
Implicit Types (t : tree) (p q : ptr).

#[local] Instance bitbucket_files : FileSystem world := {|
  fs_lookup parent name := '(_, r) ← bitbucket_internal_lookup BBud parent name; mret (capture_entry r);
  fs_getattr ino := '(_, r) ← bitbucket_internal_getattr BBud ino; mret (capture_attr AttrTimeout r);
  fs_access ino mask := '(_, r) ← bitbucket_internal_access BBud ino mask; mret (capture_status r);
  fs_unlink parent name := '(_, r) ← bitbucket_internal_unlink BBud parent name; mret (capture_status r);
  fs_forget ino n := bitbucket_internal_forget ino n;; mret () |}.

(** * The meaning of a resolution *)

Definition t_fs_lookup (parent : Z) (name : string) : TM (captured entry_out) :=
  '(_, r) ← t_lookup BBud parent name; mret (capture_entry r).
Definition t_fs_getattr (ino : Z) : TM (captured attr_out) :=
  '(_, r) ← t_getattr BBud ino; mret (capture_attr AttrTimeout r).

Definition t_name (parent : Z) (name : string) : TM (Z * statx) :=
  t_assert (bool_decide (index slash name = None));;
  out ← t_fs_lookup parent name;
  match out_arg out with
  | Some arg =>
      if negb (0 =? out_error out) then mret (out_error out, zero_statx)
      else
        let attr := e_attr arg in
        t_assert (nodeid arg =? a_ino attr);;
        mret (0, {| stx_ino := nodeid arg; stx_mode := a_mode attr; stx_nlink := a_nlink attr; stx_size := a_size attr |})
  | None => mret (out_error out, zero_statx)
  end.

Fixpoint t_resolve (i : Z) (dirs : list string) (final : string) : TM (Z * Z * statx * bool) :=
  match dirs with
  | [] => '(status, x) ← t_name i final; mret (status, i, x, true)
  | d :: dirs =>
      '(status, x) ← t_name i d;
      if status =? 0 then
        t_assert (negb (S_ISLNK (stx_mode x)));; t_assert (negb (stx_ino x =? 0));;
        t_resolve (stx_ino x) dirs final
      else mret (status, i, x, false)
  end.

Definition t_stat_of (dirs : list string) (final : string) : TM (fuse_attr * Z * Z) :=
  '(status, _, found, _) ← t_resolve FUSE_ROOT_ID dirs final;
  if status =? 0 then
    t_assert (negb (stx_ino found =? 0));;
    out ← t_fs_getattr (stx_ino found);
    arg ← (match (if 0 =? out_error out then out_arg out else None) with Some arg => mret arg | None => t_fail end);
    t_assert (negb (S_ISLNK (a_mode (at_attr arg))));;
    mret (at_attr arg, attr_valid arg, 0)
  else t_assert (not_found status);; mret (zerostat, 0, status).

Lemma implements_fs_lookup parent name : implements eq (fs_lookup parent name) (t_fs_lookup parent name).
Proof.
  eapply (implements_bind same_answer); [apply lookup_implements|]. intros [st r] [st' r'] [_ Hr]. cbn in Hr. subst r'.
  apply implements_ret. by destruct r.
Qed.

Lemma implements_fs_getattr ino : implements eq (fs_getattr ino) (t_fs_getattr ino).
Proof.
  eapply (implements_bind same_answer); [apply getattr_implements|]. intros [st r] [st' r'] [_ Hr]. cbn in Hr. subst r'.
  apply implements_ret. by destruct r.
Qed.

Lemma implements_name parent name : implements eq (FinesseServerInternalNameLookup parent name) (t_name parent name).
Proof.
  eapply implements_bind; [apply implements_assert|intros ? ? _]. eapply implements_bind; [apply implements_fs_lookup|]. intros out ? <-.
  destruct (out_arg out) as [arg|]; [|by apply implements_ret]. case_match; [by apply implements_ret|].
  eapply implements_bind; [apply implements_assert|intros ? ? _]. by apply implements_ret.
Qed.

Lemma implements_resolve dirs final : forall i, implements eq (resolve_reference i dirs final) (t_resolve i dirs final).
Proof.
  induction dirs as [|d dirs IH]; intros i; (eapply implements_bind; [apply implements_name|]); intros [st x] ? <-; [by apply implements_ret|].
  case_match; [|by apply implements_ret]. do 2 (eapply implements_bind; [apply implements_assert|intros ? ? _]). apply IH.
Qed.

Lemma implements_stat_of dirs final : implements eq (stat_reference dirs final) (t_stat_of dirs final).
Proof.
  eapply implements_bind; [apply implements_resolve|]. intros [[[st j] x] last] ? <-. case_match.
  - eapply implements_bind; [apply implements_assert|intros ? ? _]. eapply implements_bind; [apply implements_fs_getattr|]. intros out ? <-.
    eapply (implements_bind eq); [destruct (if 0 =? out_error out then out_arg out else None); [by apply implements_ret|by intros ? ? ?]|].
    intros arg ? <-. eapply implements_bind; [apply implements_assert|intros ? ? _]. by apply implements_ret.
  - eapply implements_bind; [apply implements_assert|intros ? ? _]. by apply implements_ret.
Qed.

(** * What a resolution leaves *)

(** The inodes that the components lead to, from the inode with number [i]. *)
Fixpoint follow t (i : Z) (components : list string) : option (list ptr) :=
  match components with
  | [] => Some []
  | s :: components =>
      p ← reached BBud i t; n ← nodes t !! p; e ← n_names n !! s; x ← entries t !! e; nq ← nodes t !! x.1;
      qs ← follow t (n_ino nq) components; Some (x.1 :: qs)
  end.

(** One more reference of the kernel on each of these. *)
Definition held_along (qs : list ptr) t : tree := foldl (fun t q => hold q INODE_FUSE_LOOKUP_REFERENCE t) t qs.

Lemma held_along_nodes qs : forall t, nodes (held_along qs t) = nodes t.
Proof. induction qs as [|q qs IH]; intros t; [done|]. cbn [held_along foldl]. fold (held_along qs (hold q INODE_FUSE_LOOKUP_REFERENCE t)). by rewrite IH. Qed.

Lemma follow_hold p r t cs : forall i, follow (hold p r t) i cs = follow t i cs.
Proof.
  induction cs as [|s cs IH]; intros i; [done|]. cbn [follow]. change (reached BBud i (hold p r t)) with (reached BBud i t).
  change (nodes (hold p r t)) with (nodes t). change (entries (hold p r t)) with (entries t).
  destruct (reached BBud i t) as [p'|]; [|done]. cbn. destruct (nodes t !! p') as [n|]; [|done]. cbn.
  destruct (n_names n !! s) as [e|]; [|done]. cbn. destruct (entries t !! e) as [x|]; [|done]. cbn.
  destruct (nodes t !! x.1) as [nq|]; [|done]. cbn. by rewrite IH.
Qed.

Lemma follow_down t i s cs p n e q d nq qs :
  reached BBud i t = Some p -> nodes t !! p = Some n -> n_names n !! s = Some e -> entries t !! e = Some (q, d) ->
  nodes t !! q = Some nq -> follow t (n_ino nq) cs = Some qs -> follow t i (s :: cs) = Some (q :: qs).
Proof. intros Hr Hn He Hd Hq Hf. cbn. rewrite Hr. cbn. rewrite Hn. cbn. rewrite He. cbn. rewrite Hd. cbn. rewrite Hq. cbn. by rewrite Hf. Qed.

Lemma get_reached ino p t t1 : t_get BBud ino t = Some (p, t1) -> p <> NULL -> reached BBud ino t = Some p.
Proof.
  unfold t_get, reached. intros Hg Hp. destruct (FUSE_ROOT_ID =? ino).
  - apply TM_bind_Some in Hg as ([] & t2 & _ & Hg). by apply t_ret_Some in Hg as [= -> ->].
  - apply TM_bind_Some in Hg as (o & t2 & Ht & Hg). apply t_ret_Some in Hg as [= Ho ->]. unfold t_find in Ht.
    destruct (ino =? 0); [done|]. destruct (by_number ino t) as [q|]; [|by injection Ht as <- <-].
    apply bind_Some in Ht as ([[] t3] & _ & [= <- <-]). by rewrite Ho.
Qed.

Definition statx_of (n : node) : statx := {| stx_ino := n_ino n; stx_mode := n_mode n; stx_nlink := n_links n; stx_size := n_size n |}.

Lemma name_effect i s t x t' : sound t -> t_name i s t = Some ((0, x), t') ->
  exists p n e q d nq, reached BBud i t = Some p /\ nodes t !! p = Some n /\ n_names n !! s = Some e /\ entries t !! e = Some (q, d) /\
    nodes t !! q = Some nq /\ x = statx_of nq /\ t' = hold q INODE_FUSE_LOOKUP_REFERENCE t /\ sound t'.
Proof.
  intros Hw Hs. unfold t_name in Hs. apply TM_bind_Some in Hs as ([] & t1 & [[= ->] _]%t_assert_Some & Hs).
  apply TM_bind_Some in Hs as (out & t2 & Hl & Hs). unfold t_fs_lookup in Hl. apply TM_bind_Some in Hl as ([st r] & t3 & Hl & [= -> ->]%t_ret_Some).
  destruct (lookup_effect_from _ _ _ _ _ _ _ Hw Hl) as [(Hst & -> & ->)|(-> & p & n & e & d & q & nq & Hg & Hp & Hn & He & Hd & Hq & -> & -> & Hw')].
  - cbn in Hs. apply t_ret_Some in Hs as [= E _ _]. lia.
  - cbn [capture_entry out_arg out_error nodeid e_attr attr_of a_ino sa_ino node_stat] in Hs. change (0 =? 0) with true in Hs. cbn [negb] in Hs.
    apply TM_bind_Some in Hs as ([] & t4 & [[= ->] _]%t_assert_Some & Hs). apply t_ret_Some in Hs as [= -> ->].
    exists p, n, e, q, d, nq. split; [by eapply get_reached|]. by split_and!.
Qed.

Lemma resolve_effect dirs final : forall i t j x last t',
  sound t -> t_resolve i dirs final t = Some ((0, j, x, last), t') ->
  exists qs q n, follow t i (dirs ++ [final]) = Some (qs ++ [q])%list /\ nodes t !! q = Some n /\ x = statx_of n /\ t' = held_along (qs ++ [q]) t /\ sound t'.
Proof.
  induction dirs as [|d dirs IH]; intros i t j x last t' Hw Hs; cbn [t_resolve] in Hs; apply TM_bind_Some in Hs as ([st y] & t1 & Hn & Hs).
  - apply t_ret_Some in Hs as [= <- _ <- _ ->]. destruct (name_effect _ _ _ _ _ Hw Hn) as (p & n & e & q & dd & nq & Hr & Hp & He & Hd & Hq & -> & -> & Hw').
    exists [], q, nq. split; [|by split_and!]. by eapply follow_down.
  - destruct (Z.eqb_spec st 0) as [->|Hst]; [|by apply t_ret_Some in Hs as [= <- _ _ _ _]].
    destruct (name_effect _ _ _ _ _ Hw Hn) as (p & n & e & q & dd & nq & Hr & Hp & He & Hd & Hq & -> & -> & Hw').
    do 2 (apply TM_bind_Some in Hs as ([] & ? & [[= ->] _]%t_assert_Some & Hs)).
    destruct (IH _ _ _ _ _ _ Hw' Hs) as (qs & q' & n' & Hl & Hq' & -> & -> & Hw''). exists (q :: qs), q', n'.
    split; [|by split_and!]. eapply follow_down; [done..|]. by rewrite follow_hold in Hl.
Qed.

Lemma getattr_effect ino t st a t' : sound t -> t_getattr BBud ino t = Some ((st, ReplyAttr a), t') ->
  t' = t /\ exists p n, reached BBud ino t = Some p /\ nodes t !! p = Some n /\ a = node_stat n.
Proof.
  intros Hw Hs. unfold t_getattr in Hs. apply TM_bind_Some in Hs as (p & t1 & Hg & Hs).
  destruct (Z.eqb_spec p NULL) as [->|Hp]; [by apply t_ret_Some in Hs as [= ]|].
  pose proof (get_reached _ _ _ _ Hg Hp) as Hr. destruct (t_get_Some _ _ _ _ _ Hg Hp) as [E Hroom]. subst t1.
  apply TM_bind_Some in Hs as (b & t2 & Hst & Hs). unfold t_stat, t_node in Hst. apply TM_bind_Some in Hst as (n & t3 & Hn & [= -> <-]%t_ret_Some).
  apply bind_Some in Hn as (m & Hm & [= -> <-]). cbn [nodes hold set_counts] in Hm.
  rewrite (TM_bind_done _ _ _ () t) in Hs by (apply t_put_hold; [done..|by eapply room_less]). apply t_ret_Some in Hs as [= _ -> ->].
  split; [done|]. by exists p, n.
Qed.

(** The numbers of inodes are different, and none is that of the root. *)
Definition numbers_apart t : Prop := numbers_unique t /\ forall p n, nodes t !! p = Some n -> n_ino n <> FUSE_ROOT_ID.

Lemma reached_held ino qs t : reached BBud ino (held_along qs t) = reached BBud ino t.
Proof. unfold reached, by_number. by rewrite held_along_nodes. Qed.

Lemma reached_own t q n : numbers_apart t -> nodes t !! q = Some n -> reached BBud (n_ino n) t = Some q.
Proof.
  intros [Hu Hr] Hn. unfold reached. rewrite (proj2 (Z.eqb_neq _ _)) by (by apply not_eq_sym, (Hr q)).
  destruct (by_number (n_ino n) t) as [p|] eqn:E; [|by destruct (by_number_None _ _ q n E)].
  destruct (by_number_Some _ _ _ E) as (m & Hm & Heq). f_equal. by apply (Hu p q m n).
Qed.

(** A stat that finds something. *)
Lemma stat_effect dirs final t a valid t' :
  sound t -> numbers_apart t -> t_stat_of dirs final t = Some ((a, valid, 0), t') ->
  exists qs q n, follow t FUSE_ROOT_ID (dirs ++ [final]) = Some (qs ++ [q])%list /\ nodes t !! q = Some n /\ a = attr_of (node_stat n) /\ valid = AttrTimeout /\
    t' = held_along (qs ++ [q]) t.
Proof.
  intros Hw Hap Hs. unfold t_stat_of in Hs. apply TM_bind_Some in Hs as ([[[st j] x] last] & t1 & Hr & Hs). destruct (Z.eqb_spec st 0) as [->|Hst].
  - destruct (resolve_effect _ _ _ _ _ _ _ _ Hw Hr) as (qs & q & n & Hl & Hn & -> & -> & Hw'). exists qs, q, n.
    apply TM_bind_Some in Hs as ([] & t2 & [[= ->] _]%t_assert_Some & Hs). apply TM_bind_Some in Hs as (out & t3 & Hg & Hs).
    unfold t_fs_getattr in Hg. apply TM_bind_Some in Hg as ([st r] & t4 & Hg & [= -> ->]%t_ret_Some).
    apply TM_bind_Some in Hs as (arg & t5 & Harg & Hs). apply TM_bind_Some in Hs as ([] & t6 & [[= ->] _]%t_assert_Some & Hs).
    apply t_ret_Some in Hs as [= -> -> ->].
    assert (exists b, r = ReplyAttr b) as [b ->].
    { destruct r; cbn [capture_attr out_error out_arg] in Harg; try done; [by destruct (0 =? - status)|by eexists]. }
    cbn [capture_attr out_error out_arg] in Harg. change (0 =? 0) with true in Harg. apply t_ret_Some in Harg as [= -> ->].
    destruct (getattr_effect _ _ _ _ _ Hw' Hg) as (-> & p & m & Hp & Hm & ->). rewrite reached_held in Hp. cbn [stx_ino statx_of] in Hp.
    rewrite (reached_own t q n Hap Hn) in Hp. injection Hp as <-. rewrite held_along_nodes, Hn in Hm. injection Hm as <-. done.
  - apply TM_bind_Some in Hs as ([] & t2 & [[= ->] _]%t_assert_Some & Hs). apply t_ret_Some in Hs as [= _ _ E _]. congruence.
Qed.

(** ** Unlink *)

Definition t_fs_unlink (parent : Z) (name : string) : TM (captured unit) :=
  '(_, r) ← t_unlink BBud parent name; mret (capture_status r).

Lemma implements_fs_unlink parent name : implements eq (fs_unlink parent name) (t_fs_unlink parent name).
Proof.
  eapply (implements_bind same_answer); [apply unlink_implements|]. intros [st r] [st' r'] [_ Hr]. cbn in Hr. subst r'.
  apply implements_ret. by destruct r.
Qed.

(** The resolution of a path and the unlink that the server asks for. *)
Definition t_unlink_of (dirs : list string) (final path : string) : TM (Z * Z * statx * bool * captured unit) :=
  found ← t_resolve FUSE_ROOT_ID dirs final;
  t_assert (found.1.1.1 =? 0);; t_assert (negb (stx_ino found.1.2 =? 0));;
  out ← t_fs_unlink (stx_ino found.1.2) path; mret (found, out).

Lemma unlink_effect ino name t out t' p n :
  sound t -> t_fs_unlink ino name t = Some (out, t') -> reached BBud ino t = Some p -> nodes t !! p = Some n -> n_type n <> BITBUCKET_DIR_TYPE ->
  out = Build_captured (- EISDIR) None /\ t' = t.
Proof.
  intros Hw Hs Hp Hn Hty. unfold t_fs_unlink in Hs. apply TM_bind_Some in Hs as ([st r] & t1 & Hs & [= -> ->]%t_ret_Some).
  unfold t_unlink in Hs. apply TM_bind_Some in Hs as (p' & t2 & Hg & Hs). destruct (t_get_reached _ _ _ _ _ _ Hg Hp) as [-> ->].
  assert (p <> NULL) as Hnull by (apply (wf_null _ _ _ _ Hw); eauto). destruct (t_get_Some _ _ _ _ _ Hg Hnull) as [_ Hroom].
  rewrite (proj2 (Z.eqb_neq _ _) Hnull) in Hs. apply TM_bind_Some in Hs as (st' & t3 & Hst & Hs). unfold t_node in Hst.
  apply TM_bind_Some in Hst as (m & t4 & Hm & Hst). apply bind_Some in Hm as (m' & Hm & [= -> <-]). cbn [nodes hold set_counts] in Hm.
  rewrite Hn in Hm. injection Hm as <-. rewrite (proj2 (Z.eqb_neq _ _) Hty) in Hst. cbn [negb] in Hst. apply t_ret_Some in Hst as [= -> ->].
  rewrite (TM_bind_done _ _ _ () t) in Hs by (apply t_put_hold; [done..|by eapply room_less]). by apply t_ret_Some in Hs as [= -> -> ->].
Qed.

(** * Whole calls over Bitbucket *)

Context `{!Statfs world} {UU : Libuuid} {UL : LibuuidLaws} {ST : Statics} `{!Layout, !Session}.

(** C4: A stat of a path through the client, the region and the server, over
    Bitbucket, answers with the attributes of the inode that the components of
    the path lead to in the tree.  It leaves one more reference of the kernel on
    every inode of the path, and nothing else: the lookups of the server
    count as the kernel's, and the server forgets none. *)
Theorem stat_leaves_references Tb shift m0 client sl path rnd x (t0 t1 t2 t4 t5 : timespec) (s : server world) c dirs final v t a valid t' :
  0 < Tb -> 10 <= shift <= 15 -> ready Tb shift m0 client sl s c x -> call_times t0 [t1; t2; s_now x; t4; t5] t5 ->
  fits offsetof_Stat_Name path -> is_path mountpoint (allocated (below path) 0) dirs final ->
  holds (files s) v -> shows v t -> numbers_apart t -> t_stat_of dirs final t = Some ((a, valid, 0), t') ->
  exists s' c' v' qs q n,
    stat_via_server client path rnd x t0 t1 t2 t4 t5 s = Done ((0, stat_blob (attr_of (node_stat n)), timeout_blob AttrTimeout, 0), s') /\
    follow t FUSE_ROOT_ID (dirs ++ [final]) = Some (qs ++ [q])%list /\ nodes t !! q = Some n /\
    Region.represents (regions client) (channel s') sl /\ objects_ok Tb shift m0 (Server.objects s') c' /\
    holds (files s') v' /\ shows v' (held_along (qs ++ [q]) t).
Proof.
  intros HT Hshift Hready Htimes Hfit Hpath Hw Hv Hap Hs.
  destruct (stat_effect _ _ _ _ _ _ (shows_wf _ _ Hv) Hap Hs) as (qs & q & n & Hl & Hn & -> & -> & ->).
  destruct (implements_stat_of dirs final t _ _ Hs v Hv) as (r & v' & Hr & -> & Hv'). destruct (Hr _ Hw) as (f & Hf & Hh).
  destruct (stat_call_served Tb shift m0 HT Hshift client sl path rnd x t0 t1 t2 t4 t5 s c dirs final _ _ _ f Hready Htimes Hfit Hpath Hf)
    as (s' & c' & Hrun & [Hreg Hfiles Hobj]).
  exists s', c', v', qs, q, n. rewrite Hfiles. by split_and!.
Qed.

(** C28: An unlink of a file through the client, the region and the server,
    over Bitbucket, removes nothing: the server asks for the whole path to be
    removed from the file itself, as if it were a directory, and the client
    gets the negative error itself. *)
Theorem unlink_keeps_file Tb shift m0 client sl path rnd x (t0 t1 t2 t4 t5 : timespec) (s : server world) c dirs final v t found out t' :
  0 < Tb -> 10 <= shift <= 15 -> ready Tb shift m0 client sl s c x -> call_times t0 [t1; t2; s_now x; t4; t5] t5 ->
  fits offsetof_Unlink_Name path -> is_path mountpoint (allocated (below path) 0) dirs final ->
  holds (files s) v -> shows v t -> numbers_apart t -> t_unlink_of dirs final path t = Some ((found, out), t') ->
  exists qs q n, follow t FUSE_ROOT_ID (dirs ++ [final]) = Some (qs ++ [q])%list /\ nodes t !! q = Some n /\
    (n_type n <> BITBUCKET_DIR_TYPE -> exists s' v',
      unlink_via_server client path rnd x t0 t1 t2 t4 t5 s = Done (- EISDIR, s') /\
      Region.represents (regions client) (channel s') sl /\ holds (files s') v' /\ shows v' (held_along (qs ++ [q]) t)).
Proof.
  intros HT Hshift Hready Htimes Hfit Hpath Hw Hv Hap Hs. unfold t_unlink_of in Hs.
  apply TM_bind_Some in Hs as ([[[st j] y] last] & t3 & Hres & Hs). cbn [fst snd] in Hs.
  apply TM_bind_Some in Hs as ([] & t6 & [[= ->] Hz%Z.eqb_eq]%t_assert_Some & Hs). subst st.
  apply TM_bind_Some in Hs as ([] & t7 & [[= ->] Hino%negb_true_iff%Z.eqb_neq]%t_assert_Some & Hs).
  apply TM_bind_Some in Hs as (out' & t8 & Hun & [= -> -> ->]%t_ret_Some).
  destruct (resolve_effect _ _ _ _ _ _ _ _ (shows_wf _ _ Hv) Hres) as (qs & q & n & Hl & Hn & -> & -> & Hw').
  exists qs, q, n. split; [done|]. split; [done|]. intros Hty.
  destruct (unlink_effect _ _ _ _ _ q n Hw' Hun) as [-> ->]; [rewrite reached_held; by apply reached_own|by rewrite held_along_nodes|done|].
  destruct (implements_resolve dirs final _ _ _ _ Hres v Hv) as (r & v1 & Hr & -> & Hv1). destruct (Hr _ Hw) as (f1 & Hf1 & Hh1).
  destruct (implements_fs_unlink _ _ _ _ _ Hun v1 Hv1) as (r & v2 & Hr2 & -> & Hv2). destruct (Hr2 _ Hh1) as (f2 & Hf2 & Hh2).
  destruct (unlink_call_served Tb shift m0 HT Hshift client sl path rnd x t0 t1 t2 t4 t5 s c dirs final _ _ _ f1 _ f2 Hready Htimes Hfit Hpath Hf1 Hino Hf2)
    as (s' & c' & Hrun & [Hreg Hfiles Hobj]).
  exists s', v2. rewrite Hfiles. by split_and!.
Qed.
End Files.

(** * The file "/usr/b" of the example *)

#[local] Notation root := (in_memory 4096).
#[local] Existing Instance example_libuuid.
#[local] Existing Instance example_libuuid_laws.
#[local] Existing Instance example_statics.
#[local] Existing Instance bitbucket_files.
#[local] Notation example_files := (Inode.world Trie (instance Trie) (dir_state unit) kind).

#[local] Instance example_statfs : Statfs example_files := {| fs_statfs _ w := Done (Build_captured (- ENOSYS) None, w) |}.

Lemma example_apart : numbers_apart example_tree.
Proof.
  split; [exact example_unique|]. intros p n Hn. apply elem_of_map_to_list in Hn.
  assert (Forall (fun x : ptr * node => n_ino x.2 <> FUSE_ROOT_ID) (map_to_list (nodes example_tree))) as Hall
    by (vm_compute; repeat constructor; discriminate).
  exact (proj1 (Forall_forall _ _) Hall _ Hn).
Qed.

Lemma example_path : is_path mountpoint (allocated (below "/mnt/usr/b") 0) ["usr"%string] "b".
Proof.
  apply path_is_path; [vm_compute; reflexivity| |vm_compute; reflexivity].
  constructor; [split; [discriminate|vm_compute; reflexivity]|constructor].
Qed.

Lemma stat_leaves_references_witness :
  exists (s s' : server example_files) v n, files s = example_world /\
    stat_via_server (FileSystem0 := bitbucket_files root 3600) 3 "/mnt/usr/b" 17 example_supply (clock 5) (clock 6) (clock 7) (clock 9) (clock 10) s =
      Done ((0, stat_blob (attr_of (node_stat n)), [3600], 0), s') /\
    nodes example_tree !! 16384 = Some n /\ holds (files s') v /\ shows v (held_along [8192; 16384] example_tree).
Proof.
  destruct (example_ready example_world) as (s & Hs & Hw & Hf).
  assert (exists a valid t', t_stat_of root 3600 ["usr"%string] "b" example_tree = Some ((a, valid, 0), t')) as (a & valid & t' & Hst)
    by (do 3 eexists; vm_compute; reflexivity).
  assert (holds (files s) example_view) as Hh by (rewrite Hf; exact example_holds).
  destruct (stat_leaves_references root 3600 4096 13 started_memory 3 (fun _ => Region.Free) "/mnt/usr/b" 17 example_supply (clock 5) (clock 6) (clock 7)
    (clock 9) (clock 10) s no_objects ["usr"%string] "b" example_view example_tree a valid t' ltac:(lia) ltac:(lia) Hs clock_times
    ltac:(vm_compute; discriminate) example_path Hh example_shows example_apart Hst)
    as (s' & c' & v' & qs & q & n & Hrun & Hl & Hn & _ & _ & Hh' & Hv').
  assert (follow root example_tree FUSE_ROOT_ID (["usr"%string] ++ ["b"%string])%list = Some [8192; 16384]) as Hl' by (vm_compute; reflexivity).
  rewrite Hl' in Hl. injection Hl as Hq.
  apply (app_inj_2 [8192] qs [16384] [q] eq_refl) in Hq as [<- [= <-]].
  exists s, s', v', n. split; [exact Hf|]. split; [exact Hrun|]. split; [exact Hn|]. split; [exact Hh'|exact Hv'].
Defined.

Lemma unlink_keeps_file_witness :
  exists (s s' : server example_files) v, files s = example_world /\
    unlink_via_server (FileSystem0 := bitbucket_files root 3600) 3 "/mnt/usr/b" 17 example_supply (clock 5) (clock 6) (clock 7) (clock 9) (clock 10) s =
      Done (- EISDIR, s') /\
    holds (files s') v /\ shows v (held_along [8192; 16384] example_tree).
Proof.
  destruct (example_ready example_world) as (s & Hs & Hw & Hf).
  assert (exists found out t', t_unlink_of root ["usr"%string] "b" "/mnt/usr/b" example_tree = Some ((found, out), t')) as (found & out & t' & Hst)
    by (do 3 eexists; vm_compute; reflexivity).
  assert (holds (files s) example_view) as Hh by (rewrite Hf; exact example_holds).
  destruct (unlink_keeps_file root 3600 4096 13 started_memory 3 (fun _ => Region.Free) "/mnt/usr/b" 17 example_supply (clock 5) (clock 6) (clock 7)
    (clock 9) (clock 10) s no_objects ["usr"%string] "b" example_view example_tree found out t' ltac:(lia) ltac:(lia) Hs clock_times
    ltac:(vm_compute; discriminate) example_path Hh example_shows example_apart Hst) as (qs & q & n & Hl & Hn & Hrun).
  assert (follow root example_tree FUSE_ROOT_ID (["usr"%string] ++ ["b"%string])%list = Some [8192; 16384]) as Hl' by (vm_compute; reflexivity).
  rewrite Hl' in Hl. injection Hl as Hq.
  apply (app_inj_2 [8192] qs [16384] [q] eq_refl) in Hq as [<- [= <-]].
  assert (n_type n <> BITBUCKET_DIR_TYPE) as Hty by (vm_compute in Hn; injection Hn as <-; discriminate).
  destruct (Hrun Hty) as (s' & v' & Hr & _ & Hh' & Hv'). exists s, s', v'. exact (conj Hf (conj Hr (conj Hh' Hv'))).
Defined.
